(* ===== verification/_CoqProject ===== *)
-Q . S2P
Prelude.v
Str.v
Printf.v
Heap.v
Spl.v
Pages.v
Array.v
Queue.v
Bitmap.v
SynchObj.v
Vnode.v
Copy.v
Uio.v
Device.v
Lhd.v
SfsDisk.v
SfsFile.v
SfsRep.v
SfsSample.v
SfsBmap.v
SfsIo.v
SfsDir.v
SfsVnode.v
SfsSync.v
SfsTrunc.v
SfsReclaim.v
SfsTree.v
SfsNames.v
SfsFs.v
VfsOps.v
Vfs.v
VfsInv.v
VfsSafe.v
VfsTable.v
VfsAdd.v
VfsCwd.v
VfsBoot.v
VfsCalls.v
Dev.v
DevBoot.v
Threads.v
Synch.v
SynchInv.v
SynchRun.v
SynchLife.v
SynchSafe.v
SynchSample.v
CoreMap.v
KHeap.v
HeapImpl.v
AddrSpace.v
