(* ===== verification/Prelude.v ===== *)
(** * A verification of the OS/161 kernel

    The program is a small Unix-like kernel in C for a simulated MIPS machine
    (src/kern), with the string, memory and printing routines it shares with
    libc (src/lib/libc).  This library models its memory management, its
    containers, its threads and their synchronisation, its block device driver,
    its SFS file system and its VFS layer, and proves them correct.

    ** Parts, bottom up

    - Libraries.  Str.v: string and memory routines of lib/libc.  Printf.v:
      formatted output, __printf.c and snprintf.c of lib/libc.  Array.v,
      Queue.v, Bitmap.v: kern/lib/array.c, queue.c, bitmap.c.
    - Memory.  Spl.v: interrupt level, kern/arch/mips/mips/spl.c.  CoreMap.v:
      ram.c and the page allocator of kern/vm/vm.c.  KHeap.v: kern/lib/kheap.c,
      on pages.  AddrSpace.v: page tables, vm_fault and the TLB, the rest of
      kern/vm/vm.c.
    - Interfaces.  Heap.v and Pages.v state what the heap and the page allocator
      promise (classes [HeapLaws], [PageLaws]); HeapImpl.v and CoreMap.v
      discharge them, every client is proved against them.  Device.v
      ([BlockDevLaws]) does the same for disks, Copy.v ([UserMemLaws]) for user
      memory, Lhd.v ([LhdCardLaws]) for the disk hardware, whose code is not
      part of the program, VfsOps.v ([VopsLaws]) for the vnodes and file systems
      below the VFS layer.
    - I/O.  Copy.v: kern/lib/copyinout.c.  Uio.v: kern/userprog/uio.c.  Lhd.v:
      the LAMEbus disk, kern/dev/lamebus/lhd.c.
    - Synchronisation objects and vnodes.  SynchObj.v: creation and destruction
      in kern/thread/synch.c.  Vnode.v: kern/fs/vfs/vnode.c.
    - Threads.  Threads.v: kern/thread/thread.c and scheduler.c.  Synch.v: the
      rest of synch.c, hardclock.c and the interrupt path of mips_interrupt and
      mips_trap, and the kernel as a transition system.  SynchInv.v: its
      invariant.  SynchRun.v, SynchLife.v: every step keeps it.  SynchSafe.v:
      the theorems about runs, and start-up.  SynchSample.v: a concrete kernel
      with concrete runs.
    - SFS.  SfsDisk.v: on-disk structures and kern/fs/sfs/sfs_io.c.  SfsFile.v,
      SfsDir.v, SfsVnode.v: the whole of kern/fs/sfs/sfs_vnode.c.  SfsRep.v,
      SfsBmap.v, SfsIo.v, SfsTrunc.v: the representation of a mounted file
      system and the proofs about files.  SfsSync.v, SfsReclaim.v: writing an
      inode back, and the end of a vnode's life.  SfsTree.v, SfsNames.v: the
      directory as a map from names to files, and the operations on names.
      SfsFs.v: kern/fs/sfs/sfs_fs.c, mounting, syncing and unmounting.
      SfsSample.v: a concrete file system on a simulated disk, on which the
      theorems are instantiated.
    - VFS.  Vfs.v: kern/fs/vfs/vfslist.c, vfscwd.c, vfslookup.c and vfspath.c,
      over the interface of VfsOps.v.  VfsInv.v: the invariant, which accounts
      for every reference of the layer and its clients.  VfsSafe.v, VfsTable.v,
      VfsAdd.v, VfsCwd.v, VfsBoot.v: every call keeps it.  VfsCalls.v: the
      theorems.  Dev.v: kern/fs/vfs/device.c and devnull.c, devices as vnodes,
      and the proof that they satisfy [VopsLaws].  DevBoot.v: vfs_bootstrap, and
      a closed system with the null device, on which the theorems are
      instantiated.

    ** How the code is represented

    A routine is a computation [M S A] on the state [S] of its component: a
    [Record] with the file-scope variables and the objects it reaches, named by
    their addresses where the code shares them.  It returns a value ([Ret]), an
    error number ([Err]), panics or fails an assertion ([Panic]), or has used up
    the fuel of a loop ([Spin]).  Integers are [Z] and wrap where the source's
    type does ([u32], [u16], [u8], [i32]).  Reading an object that does not
    exist, an index out of range or an uninitialised cell is a [Panic], so
    absence of panics covers memory safety.  [runs m s Q E] is the total
    correctness judgement: [m] from [s] returns a value satisfying [Q] or an
    error satisfying [E], and neither panics nor spins.

    Threads.  Only one thread runs at a time, and it can lose the processor at
    two kinds of place: in [mi_switch], and anywhere an interrupt is allowed.  A
    step of the transition system ([exec] in Synch.v) is the code between two
    such places: a call of a kernel operation up to its end or its first switch,
    the rest of an operation after a switch ([E_resume]), an interrupt, or
    [E_dispatch], by which the scheduler picks the next thread.  What a thread
    still has to do when it is switched out is its kernel stack; the model keeps
    it as a list of [frame]s, one constructor per place in the source, and
    [run_frame] has the code that follows each of them.  [enabled] says which
    events are possible, with what the caller owes (a lock is released by its
    holder, semaphores and locks exist).  [healthy] says that the two lists that
    can still grow when a thread is switched out can get memory for it;
    [yield_needs_memory] shows what happens when they cannot.

    Definitions keep the source's names.  A loop body that is a definition of
    its own, and routines whose state is only a part of the component's, have a
    comment saying which lines they are.

    ** What is proved

    - Containers implement their abstract types: any sequence of operations on
      an array behaves as on a list, on a queue as on a FIFO, up to allocation
      failure; bitmap operations change exactly the bit they name.  No heap
      block is lost.
    - The page allocator hands out disjoint first-fit runs; the heap hands out
      disjoint blocks, always frees, and satisfies its own consistency checks in
      every reachable state.
    - A page fault maps a zeroed page or finds the mapped one; copying an address
      space gives equal contents in separate frames; destroying it returns
      everything.
    - User memory is only touched through user addresses, whatever a program
      passes; string copies stay in bounds and round-trip.
    - SFS keeps its representation: no block has two owners, reads return what
      was written, writes change one range of one file, directory names stay
      distinct, an inode has at most one vnode; every error path leaves what the
      code promises.  Creating, linking, removing and renaming implement a map
      from names to files, truncation cuts one file, and files survive syncing,
      unmounting and mounting.
    - VFS: any sequence of calls, failing ones included, returns without a failed
      assertion or a lock left held, with every vnode reference accounted for;
      paths are taken apart as a reference parser does; device names stay unique.
      Start-up establishes the invariant.
    - Formatted output prints the text the format stands for, and [snprintf] stays
      inside its buffer.
    - Threads: from start-up on, no interleaving of threads and interrupts makes
      the kernel panic; locks exclude each other, semaphores count, nobody sleeps
      with nothing left to wait for, the run queue is served in order, and the
      code between switches terminates.
    - Where the code does not do what its comments or callers expect, a theorem
      states what it does do.

    ** Bounds and fuel

    Loops over an index range iterate over the list of its values and need no
    fuel.  Lists threaded through the 256 [pageref]s are walked with fuel
    [NPAGEREFS + 1]: a list without repetitions is shorter, and the theorems show
    that no walk runs out.  [q_addtail] and [q_grow] call each other at most
    twice.  The loops of
    [thread_wakeup] and [scheduler_killall] get one round per element of the
    list.  [sfs_rwblock] tries 11 times, as the source does.  [uiomove] has
    a single iovec and needs two rounds; [uiomovezeros] gets one per byte.
    Numbers of 32 bits have at most 32 digits, which is the fuel for printing
    them.

    ** Not modelled

    Assembly code: of the context switch and of exceptions only the effect on
    the kernel's variables is modelled.  The drivers of other devices, whose
    hardware has no description in the sources; the console and the menu.  System
    calls, program loading and user programs, which sit on top of the parts
    modelled here.  The
    theorems about runs are for kernel threads, without an address space or a
    current directory; semaphores and locks exist from the start, at fixed
    addresses, and the clock is that of a kernel without OPT_SYNCHPROBS.  The
    file system and the VFS layer run as a single thread, with locks and
    semaphores as that thread sees them: OS/161 leaves the synchronisation of SFS
    to its callers, and that of the VFS layer is two locks that every call gives
    back before it returns.  The VFS layer is proved against the laws of VfsOps.v,
    which are shown to hold of devices; for SFS they are assumptions, of which the
    theorems of the SFS files give the parts they state.  [vfs_addfs], which only
    the emulator's file system uses, is modelled but has no theorem.  [sfs_dir_findname] reports a missing name separately from the
    errors of the device, which is the same as the source's ENOENT for devices
    that do not return ENOENT themselves; those of the kernel do not. *)

From Stdlib Require Import ZArith Lia.
From stdpp Require Import prelude gmap list.

#[global] Open Scope Z_scope.
#[global] Arguments Z.min : simpl never.
#[global] Arguments Z.max : simpl never.
#[global] Arguments Z.to_nat : simpl never.
#[global] Arguments Z.mul : simpl never.
#[global] Arguments Z.add : simpl never.
#[global] Arguments Z.sub : simpl never.
#[global] Arguments Z.eqb : simpl never.
#[global] Arguments Z.ltb : simpl never.
#[global] Arguments Z.leb : simpl never.
#[global] Arguments Z.gtb : simpl never.
#[global] Arguments Z.geb : simpl never.
#[global] Arguments Nat.div : simpl never.
#[global] Arguments Nat.modulo : simpl never.

(** ** Error numbers (kern/include/kern/errno.h) *)

Definition EINVAL : Z := 1.
Definition EFAULT : Z := 2.
Definition ENAMETOOLONG : Z := 3.
Definition ENOMEM : Z := 4.
Definition EIO : Z := 5.
Definition ENOENT : Z := 6.
Definition ENOTDIR : Z := 7.
Definition EISDIR : Z := 8.
Definition EEXIST : Z := 9.
Definition EXDEV : Z := 10.
Definition EAGAIN : Z := 11.
Definition ESPIPE : Z := 12.
Definition EUNIMP : Z := 13.
Definition ENXIO : Z := 14.
Definition ENODEV : Z := 15.
Definition EBUSY : Z := 16.
Definition ENOSPC : Z := 20.
Definition ENOSYS : Z := 23.

(** ** Machine integers

    [u32 z] is the value a 32-bit unsigned variable holds after [z] is stored
    in it; [i32] is the two's complement reading for [int]. *)

Definition u32 (z : Z) : Z := z mod 2 ^ 32.
Definition u16 (z : Z) : Z := z mod 2 ^ 16.
Definition u8 (z : Z) : Z := z mod 2 ^ 8.
Definition i32 (z : Z) : Z := (z + 2 ^ 31) mod 2 ^ 32 - 2 ^ 31.

(** [DIVROUNDUP] of kern/include/lib.h, on operands whose sum does not wrap. *)
Definition DIVROUNDUP (a b : Z) : Z := (a + b - 1) / b.

(** ** Computations

    A kernel routine reads and writes a state [S].  It either returns a value,
    returns an error number, panics (an explicit [panic] or a failed [assert]),
    or is still running when the fuel of one of its loops is used up.  State
    written before an error return stays written. *)

Inductive outcome (A : Type) : Type :=
| Ret (a : A)
| Err (e : Z)
| Panic
| Spin.
Arguments Ret {A} a.
Arguments Err {A} e.
Arguments Panic {A}.
Arguments Spin {A}.

Definition M (S A : Type) : Type := S -> outcome A * S.

Section monad.
Context {S : Type}.

Definition ret {A} (a : A) : M S A := fun s => (Ret a, s).
Definition fail {A} (e : Z) : M S A := fun s => (Err e, s).
Definition panic {A} : M S A := fun s => (Panic, s).
Definition spin {A} : M S A := fun s => (Spin, s).

Definition bind {A B} (m : M S A) (k : A -> M S B) : M S B := fun s =>
  match m s with
  | (Ret a, s') => k a s'
  | (Err e, s') => (Err e, s')
  | (Panic, s') => (Panic, s')
  | (Spin, s') => (Spin, s')
  end.

Definition get : M S S := fun s => (Ret s, s).
Definition put (s : S) : M S unit := fun _ => (Ret tt, s).
Definition gets {A} (f : S -> A) : M S A := fun s => (Ret (f s), s).
Definition modify (f : S -> S) : M S unit := fun s => (Ret tt, f s).

(** [assert(b)]: panics unless [b]. *)
Definition assert (b : bool) : M S unit := fun s =>
  if b then (Ret tt, s) else (Panic, s).

(** [result = f(...)]: run [m] and hand its error number to the caller, [0]
    standing for success. *)
Definition result_of (m : M S unit) : M S Z := fun s =>
  match m s with
  | (Ret _, s') => (Ret 0, s')
  | (Err e, s') => (Ret e, s')
  | (Panic, s') => (Panic, s')
  | (Spin, s') => (Spin, s')
  end.

(** The same for a routine with an out parameter. *)
Definition try {A} (m : M S A) : M S (Z + A) := fun s =>
  match m s with
  | (Ret a, s') => (Ret (inr a), s')
  | (Err e, s') => (Ret (inl e), s')
  | (Panic, s') => (Panic, s')
  | (Spin, s') => (Spin, s')
  end.

(** [for (...) body], over the list of values the index takes. *)
Fixpoint for_each {A} (l : list A) (body : A -> M S unit) : M S unit :=
  match l with
  | [] => ret tt
  | x :: l => bind (body x) (fun _ => for_each l body)
  end.

(** The same with local variables [b] that the rounds update. *)
Fixpoint fold_each {A B} (l : list A) (b : B) (body : B -> A -> M S B) : M S B :=
  match l with
  | [] => ret b
  | x :: l => bind (body b x) (fun b => fold_each l b body)
  end.

(** A search loop: the body answers [Some b] to leave the loop with [b]. *)
Fixpoint for_find {A B} (l : list A) (body : A -> M S (option B)) : M S (option B) :=
  match l with
  | [] => ret None
  | x :: l => bind (body x) (fun r =>
      match r with Some b => ret (Some b) | None => for_find l body end)
  end.

(** [while (cond) body], with at most [fuel] iterations. *)
Fixpoint while (fuel : nat) (cond : S -> bool) (body : M S unit) : M S unit := fun s =>
  if cond s then
    match fuel with
    | O => (Spin, s)
    | Datatypes.S fuel => bind body (fun _ => while fuel cond body) s
    end
  else (Ret tt, s).

End monad.

Declare Scope os_scope.
Delimit Scope os_scope with os.
Notation "x <- m ;; k" := (bind m (fun x => k))
  (at level 20, m at level 99, k at level 200, only parsing) : os_scope.
Notation "' pat <- m ;; k" := (bind m (fun x => match x with pat => k end))
  (at level 20, pat pattern, m at level 99, k at level 200, only parsing) : os_scope.
Notation "m ;;; k" := (bind m (fun _ => k))
  (at level 100, k at level 200, right associativity, only parsing) : os_scope.
#[global] Open Scope os_scope.

(** Running a computation on a part of a larger state. *)
Definition zoom {S T A} (view : S -> T) (store : T -> S -> S) (m : M T A) : M S A :=
  fun s => let '(r, t) := m (view s) in (r, store t s).

Definition on_fst {S T A} (m : M S A) : M (S * T) A := zoom fst (fun s p => (s, p.2)) m.
Definition on_snd {S T A} (m : M T A) : M (S * T) A := zoom snd (fun t p => (p.1, t)) m.

(** ** Total correctness

    [runs m s Q E]: from [s], [m] neither panics nor spins; if it returns [a]
    in state [s'] then [Q a s'], if it returns the error [e] then [E e s']. *)

Definition runs {S A} (m : M S A) (s : S) (Q : A -> S -> Prop) (E : Z -> S -> Prop) : Prop :=
  match m s with
  | (Ret a, s') => Q a s'
  | (Err e, s') => E e s'
  | _ => False
  end.

Section runs.
Context {S : Type}.
Implicit Types (s : S) (E : Z -> S -> Prop).

Lemma runs_ret {A} (a : A) s (Q : A -> S -> Prop) E : Q a s -> runs (ret a) s Q E.
Proof. done. Qed.

Lemma runs_fail {A} e s (Q : A -> S -> Prop) E : E e s -> runs (fail e) s Q E.
Proof. done. Qed.

Lemma runs_bind {A B} (m : M S A) (k : A -> M S B) s Q E :
  runs m s (fun a s' => runs (k a) s' Q E) E -> runs (bind m k) s Q E.
Proof. unfold runs, bind. by destruct (m s) as [[] ?]. Qed.

Lemma runs_eq {A} (m m' : M S A) s s' (Q : A -> S -> Prop) E : m s = m' s' -> runs m' s' Q E -> runs m s Q E.
Proof. unfold runs. by intros ->. Qed.

Lemma runs_bind_eq {A B} (m m' : M S A) (k : A -> M S B) s Q E : m s = m' s ->
  runs (bind m' k) s Q E -> runs (bind m k) s Q E.
Proof. unfold runs, bind. by intros ->. Qed.

Lemma runs_assoc {A B C} (m : M S A) (f : A -> M S B) (g : B -> M S C) s Q E :
  runs (bind (bind m f) g) s Q E -> runs (bind m (fun a => bind (f a) g)) s Q E.
Proof. unfold runs, bind. by destruct (m s) as [[] ?]. Qed.

Lemma runs_mono {A} (m : M S A) s (Q Q' : A -> S -> Prop) E E' :
  runs m s Q E ->
  (forall a s', Q a s' -> Q' a s') -> (forall e s', E e s' -> E' e s') ->
  runs m s Q' E'.
Proof. unfold runs. destruct (m s) as [[] ?]; naive_solver. Qed.

Lemma runs_get s (Q : S -> S -> Prop) E : Q s s -> runs get s Q E.
Proof. done. Qed.

Lemma runs_gets {A} (f : S -> A) s (Q : A -> S -> Prop) E :
  Q (f s) s -> runs (gets f) s Q E.
Proof. done. Qed.

Lemma runs_put s s' (Q : unit -> S -> Prop) E : Q tt s' -> runs (put s') s Q E.
Proof. done. Qed.

Lemma runs_modify f s (Q : unit -> S -> Prop) E : Q tt (f s) -> runs (modify f) s Q E.
Proof. done. Qed.

Lemma runs_assert (b : bool) s (Q : unit -> S -> Prop) E :
  b = true -> Q tt s -> runs (assert b) s Q E.
Proof. by intros ->. Qed.

Lemma runs_result_of (m : M S unit) s Q E :
  runs m s (fun _ s' => Q 0 s') (fun e s' => Q e s') -> runs (result_of m) s Q E.
Proof. unfold runs, result_of. by destruct (m s) as [[] ?]. Qed.

Lemma runs_try {A} (m : M S A) s Q E :
  runs m s (fun a s' => Q (inr a) s') (fun e s' => Q (inl e) s') -> runs (try m) s Q E.
Proof. unfold runs, try. by destruct (m s) as [[] ?]. Qed.

(** Loop rule: [I done todo s] relates the values already visited, those left
    and the state. *)
Lemma runs_for_each {A} (I : list A -> list A -> S -> Prop) (l : list A) body s Q E :
  I [] l s ->
  (forall pre x post s', l = pre ++ x :: post -> I pre (x :: post) s' ->
     runs (body x) s' (fun _ s'' => I (pre ++ [x]) post s'') E) ->
  (forall s', I l [] s' -> Q tt s') ->
  runs (for_each l body) s Q E.
Proof.
  intros H0 Hstep Hend.
  assert (forall todo pre s', l = pre ++ todo -> I pre todo s' ->
    runs (for_each todo body) s' Q E) as Hgen; [|by apply (Hgen l [])].
  induction todo as [|x todo IH]; intros pre s' Hl HI; simpl.
  - rewrite app_nil_r in Hl; subst. by apply Hend.
  - apply runs_bind. eapply runs_mono; [by eapply Hstep| |done].
    intros [] s'' HI'. apply (IH (pre ++ [x])); [|done].
    by rewrite <- app_assoc.
Qed.

Lemma runs_fold_each {A B} (I : list A -> B -> S -> Prop) (l : list A) (b : B) body s Q E :
  I [] b s ->
  (forall pre x post b' s', l = pre ++ x :: post -> I pre b' s' ->
     runs (body b' x) s' (fun b'' s'' => I (pre ++ [x]) b'' s'') E) ->
  (forall b' s', I l b' s' -> Q b' s') ->
  runs (fold_each l b body) s Q E.
Proof.
  intros H0 Hstep Hend.
  assert (forall todo pre b' s', l = pre ++ todo -> I pre b' s' ->
    runs (fold_each todo b' body) s' Q E) as Hgen; [|by apply (Hgen l [])].
  induction todo as [|x todo IH]; intros pre b' s' Hl HI; simpl.
  - rewrite app_nil_r in Hl; subst. by apply Hend.
  - apply runs_bind. eapply runs_mono; [by eapply Hstep| |done].
    intros b'' s'' HI'. apply (IH (pre ++ [x])); [|done].
    by rewrite <- app_assoc.
Qed.

Lemma runs_elim {A} (m : M S A) s (Q : A -> S -> Prop) E :
  runs m s Q E ->
  (exists a s', m s = (Ret a, s') /\ Q a s') \/ (exists e s', m s = (Err e, s') /\ E e s').
Proof. unfold runs. destruct (m s) as [[] ?]; naive_solver. Qed.

(** The computation does not fail. *)
Definition noerr {A} (m : M S A) s : Prop := forall e s', m s <> (Err e, s').

Lemma noerr_bind {A B} (m : M S A) (k : A -> M S B) s : noerr m s ->
  (forall a s', m s = (Ret a, s') -> noerr (k a) s') -> noerr (bind m k) s.
Proof. unfold noerr, bind. intros Hm Hk e s'. destruct (m s) as [[] ?] eqn:E; naive_solver. Qed.

Lemma runs_no_err {A} (m : M S A) s (Q : A -> S -> Prop) E : runs m s Q E -> noerr m s -> runs m s Q (fun _ _ => False).
Proof. unfold runs, noerr. destruct (m s) as [[] ?]; naive_solver. Qed.

Lemma runs_ret_value {A} (m : M S A) s (Q : A -> S -> Prop) E a :
  runs m s Q E -> (m s).1 = Ret a -> Q a (m s).2.
Proof. unfold runs. destruct (m s) as [r s']. simpl. by intros ? ->. Qed.

Lemma runs_intro_ret {A} (m : M S A) s a s' (Q : A -> S -> Prop) E :
  m s = (Ret a, s') -> Q a s' -> runs m s Q E.
Proof. unfold runs. by intros ->. Qed.

End runs.

Lemma runs_on_snd {S T A} (m : M T A) (p : S * T) Q E :
  runs m p.2 (fun a t => Q a (p.1, t)) (fun e t => E e (p.1, t)) ->
  runs (on_snd m) p Q E.
Proof. unfold runs, on_snd, zoom. by destruct (m p.2) as [[] ?]. Qed.

Lemma runs_on_fst {S T A} (m : M S A) (p : S * T) Q E :
  runs m p.1 (fun a s => Q a (s, p.2)) (fun e s => E e (s, p.2)) ->
  runs (on_fst m) p Q E.
Proof. unfold runs, on_fst, zoom. by destruct (m p.1) as [[] ?]. Qed.

Lemma runs_zoom {S T A} (view : S -> T) store (m : M T A) (s : S) Q E :
  runs m (view s) (fun a t => Q a (store t s)) (fun e t => E e (store t s)) ->
  runs (zoom view store m) s Q E.
Proof. unfold runs, zoom. by destruct (m (view s)) as [[] ?]. Qed.

(** One symbolic execution step, with ([step]) and without reduction; [run]
    repeats it. *)
Ltac run_step :=
  match goal with
  | |- runs (bind _ _) _ _ _ => apply runs_bind
  | |- runs (ret _) _ _ _ => apply runs_ret
  | |- runs (fail _) _ _ _ => apply runs_fail
  | |- runs get _ _ _ => apply runs_get
  | |- runs (gets _) _ _ _ => apply runs_gets
  | |- runs (put _) _ _ _ => apply runs_put
  | |- runs (modify _) _ _ _ => apply runs_modify
  | |- runs (assert _) _ _ _ => apply runs_assert
  | |- runs (result_of _) _ _ _ => apply runs_result_of
  | |- runs (try _) _ _ _ => apply runs_try
  | |- runs (on_snd _) _ _ _ => apply runs_on_snd
  | |- runs (on_fst _) _ _ _ => apply runs_on_fst
  end.
Ltac step := run_step; cbn beta iota delta [fst snd].
Ltac run := repeat step.

(** Split a conjunction and discharge the easy parts. *)
Ltac conj := split_and!; try done; try lia.

(** Decide the integer comparisons of the goal (or of a hypothesis) that follow
    from the context. *)
Ltac zbool_solve :=
  first [ apply Z.eqb_eq; lia | apply Z.eqb_neq; lia
        | apply Z.ltb_lt; lia | apply Z.ltb_ge; lia
        | apply Z.leb_le; lia | apply Z.leb_gt; lia | lia ].
Ltac zbool_decide b :=
  first [ replace b with true by (symmetry; zbool_solve)
        | replace b with false by (symmetry; zbool_solve) ].
Ltac zbool_decide_in b H :=
  first [ replace b with true in H by (symmetry; zbool_solve)
        | replace b with false in H by (symmetry; zbool_solve) ].
Ltac zbool :=
  repeat (match goal with
  | |- context [Z.eqb ?a ?b] => zbool_decide (Z.eqb a b)
  | |- context [Z.ltb ?a ?b] => zbool_decide (Z.ltb a b)
  | |- context [Z.leb ?a ?b] => zbool_decide (Z.leb a b)
  | |- context [Z.gtb ?a ?b] => zbool_decide (Z.gtb a b)
  | |- context [Z.geb ?a ?b] => zbool_decide (Z.geb a b)
  end; cbn [andb orb negb]).
Ltac zbool_in H :=
  repeat (match type of H with
  | context [Z.eqb ?a ?b] => zbool_decide_in (Z.eqb a b) H
  | context [Z.ltb ?a ?b] => zbool_decide_in (Z.ltb a b) H
  | context [Z.leb ?a ?b] => zbool_decide_in (Z.leb a b) H
  | context [Z.gtb ?a ?b] => zbool_decide_in (Z.gtb a b) H
  | context [Z.geb ?a ?b] => zbool_decide_in (Z.geb a b) H
  end; cbn [andb orb negb] in H).

(** ** Search loops *)

Lemma for_find_none {S A B} (l : list A) (body : A -> M S (option B)) s :
  (forall x, x ∈ l -> body x s = (Ret None, s)) -> for_find l body s = (Ret None, s).
Proof.
  induction l as [|x l IH]; intros Hb; [done|]. simpl. unfold bind.
  rewrite Hb by set_solver. apply IH. set_solver.
Qed.

Lemma for_find_first {S A B} (pre : list A) x post (body : A -> M S (option B)) s b s' :
  (forall y, y ∈ pre -> body y s = (Ret None, s)) -> body x s = (Ret (Some b), s') ->
  for_find (pre ++ x :: post) body s = (Ret (Some b), s').
Proof.
  intros Hpre Hx. induction pre as [|y pre IH]; simpl; unfold bind.
  - by rewrite Hx.
  - rewrite Hpre by set_solver. apply IH. set_solver.
Qed.

Lemma seqZ_split n x : 0 <= x < n -> seqZ 0 n = seqZ 0 x ++ x :: seqZ (x + 1) (n - x - 1).
Proof.
  intros Hx. replace n with (x + (n - x)) at 1 by lia. rewrite seqZ_app by lia.
  f_equal. by rewrite Z.add_0_l, (seqZ_cons x (n - x)) by lia.
Qed.

Lemma seqZ_snoc c : 0 <= c -> seqZ 0 (Z.succ c) = seqZ 0 c ++ [c].
Proof.
  intros Hc. rewrite (seqZ_split (Z.succ c) c) by lia.
  by replace (Z.succ c - c - 1) with 0 by lia.
Qed.

(** The element of an integer range that follows a prefix of it. *)
Lemma seqZ_middle a n pre x post : seqZ a n = pre ++ x :: post ->
  x = a + Z.of_nat (length pre) /\ Z.of_nat (length pre) < n.
Proof.
  intros Hs. assert (seqZ a n !! length pre = Some x) as Hx.
  { rewrite Hs. by apply list_lookup_middle. }
  by apply lookup_seqZ in Hx.
Qed.

(** A predicate on an initial segment of the integers holds throughout, or fails
    first at some point. *)
Lemma least_false (f : Z -> bool) n :
  (forall j, 0 <= j < n -> f j = true) \/
  (exists i, 0 <= i < n /\ f i = false /\ forall j, 0 <= j < i -> f j = true).
Proof.
  destruct (decide (0 <= n)); [|left; lia].
  revert n l. apply (natlike_ind (fun n => _ \/ _)); [left; lia|].
  intros n Hn [Hall|(i & ? & ? & ?)]; [|right; exists i; conj].
  destruct (f n) eqn:E.
  - left. intros j Hj. destruct (decide (j = n)) as [->|]; [done|]. apply Hall. lia.
  - right. exists n. conj.
Qed.

(** ** Lists *)

Lemma alter_as_insert {A} (f : A -> A) (l : list A) i x :
  l !! i = Some x -> alter f i l = <[i := f x]> l.
Proof.
  revert i. induction l as [|y l IH]; intros [|i] Hi; simplify_eq/=; [done|].
  f_equal. by apply IH.
Qed.

(** ** Machine-integer lemmas *)

Create HintDb os discriminated.

Lemma u32_small z : 0 <= z < 2 ^ 32 -> u32 z = z.
Proof. apply Z.mod_small. Qed.

Lemma u32_range z : 0 <= u32 z < 2 ^ 32.
Proof. by apply Z.mod_pos_bound. Qed.

Lemma i32_small z : - 2 ^ 31 <= z < 2 ^ 31 -> i32 z = z.
Proof. intros. unfold i32. rewrite Z.mod_small; lia. Qed.

Lemma i32_range z : - 2 ^ 31 <= i32 z < 2 ^ 31.
Proof.
  unfold i32. pose proof (Z.mod_pos_bound (z + 2 ^ 31) (2 ^ 32)). lia.
Qed.

#[export] Hint Resolve u32_range i32_range : os.

(** A statement about a byte can be settled by trying all 256 values. *)
Lemma byte_cases (P : Z -> bool) :
  forallb P (seqZ 0 256) = true -> forall w, 0 <= w < 256 -> P w = true.
Proof.
  intros HP w Hw. rewrite forallb_forall in HP. apply HP.
  apply list_elem_of_In, elem_of_seqZ. lia.
Qed.

Lemma land_pow2_eqb w o : 0 <= o -> (Z.land w (2 ^ o) =? 0) = negb (Z.testbit w o).
Proof.
  intros Ho. destruct (Z.testbit w o) eqn:E; simpl.
  - apply Z.eqb_neq. intros H0. assert (Z.testbit (Z.land w (2 ^ o)) o = false) as Hf.
    { by rewrite H0, Z.testbit_0_l. }
    by rewrite Z.land_spec, E, Z.pow2_bits_true in Hf by lia.
  - apply Z.eqb_eq. apply Z.bits_inj'. intros n Hn.
    rewrite Z.land_spec, Z.testbit_0_l, Z.pow2_bits_eqb by lia.
    destruct (Z.eqb_spec o n) as [<-|]; [by rewrite E|apply andb_false_r].
Qed.

Lemma lor_pow2_bit w o j : 0 <= o -> 0 <= j ->
  Z.testbit (Z.lor w (2 ^ o)) j = (j =? o) || Z.testbit w j.
Proof.
  intros. rewrite Z.lor_spec, Z.pow2_bits_eqb, orb_comm by lia. f_equal.
  apply Z.eqb_sym.
Qed.

Lemma land_lnot_pow2_bit w o j : 0 <= o -> 0 <= j ->
  Z.testbit (Z.land w (Z.lnot (2 ^ o))) j = negb (j =? o) && Z.testbit w j.
Proof.
  intros. rewrite Z.land_spec, Z.lnot_spec, Z.pow2_bits_eqb, andb_comm by lia.
  do 2 f_equal. apply Z.eqb_sym.
Qed.
