(* ===== verification/Str.v ===== *)
(** The C string and memory routines shared by the kernel and libc:
    lib/libc/strlen.c, strcmp.c, strcpy.c, strcat.c, strchr.c, strrchr.c,
    strtok_r.c, atoi.c, bzero.c, memcpy.c, memmove.c.

    A [char *] is the list of bytes from the pointer to the end of its buffer;
    the routines answer [None] when they read or write past the end of a buffer,
    which is a fault.  The memory routines work on a byte memory. *)

From Stdlib Require Import ZArith Lia.
From stdpp Require Import prelude gmap list.
From S2P Require Import Prelude.

(** ** Strings *)

(** The value of a (signed) [char] that holds byte [b]. *)
Definition char (b : Z) : Z := if b <? 128 then b else b - 256.

Fixpoint strlen_from (ret : Z) (s : list Z) : option Z :=
  match s with
  | [] => None
  | c :: s => if c =? 0 then Some ret else strlen_from (ret + 1) s
  end.
Definition strlen (s : list Z) : option Z := strlen_from 0 s.

Fixpoint strcmp (a b : list Z) : option Z :=
  match a, b with
  | x :: a, y :: b =>
      if negb (x =? 0) && (x =? y) then strcmp a b
      else Some (if char x >? char y then 1 else if char x =? char y then 0 else -1)
  | _, _ => None
  end.

Fixpoint strcpy (dest src : list Z) : option (list Z) :=
  match dest, src with
  | _ :: dest, c :: src =>
      if c =? 0 then Some (0 :: dest) else cons c <$> strcpy dest src
  | _, _ => None
  end.

Definition strcat (dest src : list Z) : option (list Z) :=
  offset ← strlen dest;
  r ← strcpy (drop (Z.to_nat offset) dest) src;
  Some (take (Z.to_nat offset) dest ++ r).

(** The index of the character found, [Some None] for NULL. *)
Fixpoint strchr_from (i : Z) (s : list Z) (ch : Z) : option (option Z) :=
  match s with
  | [] => None
  | c :: s =>
      if c =? 0 then Some (if char c =? ch then Some i else None)
      else if char c =? ch then Some (Some i)
      else strchr_from (i + 1) s ch
  end.
Definition strchr (s : list Z) (ch : Z) : option (option Z) := strchr_from 0 s ch.

Fixpoint strrchr_loop (i : nat) (s : list Z) (ch : Z) : option (option Z) :=
  match i with
  | O => Some None
  | S i =>
      match s !! i with
      | None => None
      | Some c => if char c =? ch then Some (Some (Z.of_nat i)) else strrchr_loop i s ch
      end
  end.
Definition strrchr (s : list Z) (ch : Z) : option (option Z) :=
  n ← strlen s; strrchr_loop (Z.to_nat n + 1) s ch.

(** *** strtok_r

    [string], [*context] and the result are indices into the buffer [buf],
    [None] for NULL. *)

Definition is_sep (seps : list Z) (c : Z) : option bool :=
  (fun r => match r with Some _ => true | None => false end) <$> strchr seps (char c).

(** [while ( *p && cond(strchr(seps, *p))) p++], from position [p] of the buffer
    whose bytes from there on are [s]. *)
Fixpoint skip_while (want : bool) (seps : list Z) (p : Z) (s : list Z) : option Z :=
  match s with
  | [] => None
  | c :: s =>
      if c =? 0 then Some p
      else b ← is_sep seps c; if Bool.eqb b want then skip_while want seps (p + 1) s else Some p
  end.

Definition strtok_r (string : option Z) (seps : list Z) (buf : list Z) (context : option Z) :
    option (option Z * list Z * option Z) :=
  let context := match string with Some p => Some p | None => context end in
  match context with
  | None => Some (None, buf, context)
  | Some head =>
      head ← skip_while true seps head (drop (Z.to_nat head) buf);
      c ← buf !! Z.to_nat head;
      if c =? 0 then Some (None, buf, None)
      else
        tail ← skip_while false seps head (drop (Z.to_nat head) buf);
        c ← buf !! Z.to_nat tail;
        if c =? 0 then Some (Some head, buf, None)
        else Some (Some head, <[Z.to_nat tail := 0]> buf, Some (tail + 1))
  end.

(** *** atoi *)

Fixpoint skip_blank (s : list Z) : list Z :=
  match s with
  | c :: s' => if (c =? 32) || (c =? 9) then skip_blank s' else s
  | [] => []
  end.

(** The index of [c] in the string of digits. *)
Definition digits : list Z := [48; 49; 50; 51; 52; 53; 54; 55; 56; 57; 0].

Fixpoint atoi_loop (val : Z) (s : list Z) : option Z :=
  match s with
  | [] => None
  | c :: s =>
      if c =? 0 then Some val
      else
        where_ ← strchr digits (char c);
        match where_ with
        | None => Some val
        | Some digit => atoi_loop (u32 (val * 10 + digit)) s
        end
  end.

Definition atoi (s : list Z) : option Z :=
  match skip_blank s with
  | [] => None
  | c :: s =>
      let neg := c =? 45 in
      let s := if neg then s else if c =? 43 then s else c :: s in
      val ← atoi_loop 0 s;
      Some (if neg then i32 (u32 (- val)) else i32 val)
  end.

(** ** Memory *)

Section memory.
Implicit Types (m : Z -> Z).

(** [*d = *s] for an object of [w] bytes. *)
Definition move_unit (w dst src : Z) m : Z -> Z := fun a =>
  if (dst <=? a) && (a <? dst + w) then m (src + (a - dst)) else m a.

(** The units at the given indices, in that order. *)
Definition move_units (w dst src : Z) (l : list Z) m : Z -> Z :=
  fold_left (fun m i => move_unit w (dst + w * i) (src + w * i) m) l m.

Definition word_aligned (dst src len : Z) : bool :=
  (dst mod 4 =? 0) && (src mod 4 =? 0) && (len mod 4 =? 0).

Definition memcpy (dst src len : Z) m : Z -> Z :=
  if word_aligned dst src len then move_units 4 dst src (seqZ 0 (len / 4)) m
  else move_units 1 dst src (seqZ 0 len) m.

Definition memmove (dst src len : Z) m : Z -> Z :=
  if dst <? src then memcpy dst src len m
  else if word_aligned dst src len
  then move_units 4 dst src (reverse (seqZ 0 (len / 4))) m
  else move_units 1 dst src (reverse (seqZ 0 len)) m.

Definition zero_unit (w dst : Z) m : Z -> Z := fun a =>
  if (dst <=? a) && (a <? dst + w) then 0 else m a.

Definition bzero (block len : Z) m : Z -> Z :=
  if (block mod 4 =? 0) && (len mod 4 =? 0)
  then fold_left (fun m i => zero_unit 4 (block + 4 * i) m) (seqZ 0 (len / 4)) m
  else fold_left (fun m i => zero_unit 1 (block + 1 * i) m) (seqZ 0 len) m.

End memory.

(** ** Properties of the string routines *)

(** The buffer [s] holds the string [w]. *)
Definition is_str (s w : list Z) : Prop :=
  Forall (fun c => 0 < c < 256) w /\ exists rest, s = w ++ 0 :: rest.

Lemma is_str_nil s : is_str (0 :: s) [].
Proof. split; [constructor|by exists s]. Qed.

Lemma is_str_cons c s w : 0 < c < 256 -> is_str s w -> is_str (c :: s) (c :: w).
Proof. intros Hc [Hw [r ->]]. split; [by constructor|by exists r]. Qed.

Lemma is_str_inv s w : is_str s w ->
  match w with
  | [] => exists rest, s = 0 :: rest
  | c :: w => 0 < c < 256 /\ exists s', s = c :: s' /\ is_str s' w
  end.
Proof.
  intros [Hw [r ->]]. destruct w as [|c w]; [by exists r|].
  apply Forall_cons in Hw as [Hc Hw]. split; [done|]. exists (w ++ 0 :: r). split; [done|].
  split; [done|by exists r].
Qed.

Lemma strlen_spec s w : is_str s w -> strlen s = Some (Z.of_nat (length w)).
Proof.
  unfold strlen. rewrite <- (Z.add_0_l (Z.of_nat _)). generalize 0 as k. revert s.
  induction w as [|c w IH]; intros s k Hs; apply is_str_inv in Hs.
  - destruct Hs as [r ->]. simpl. f_equal. lia.
  - destruct Hs as (Hc & s' & -> & Hs). simpl. zbool. rewrite IH by done. f_equal. simpl. lia.
Qed.

Lemma char_inj a b : 0 <= a < 256 -> 0 <= b < 256 -> char a = char b -> a = b.
Proof. unfold char. intros. destruct (Z.ltb_spec a 128), (Z.ltb_spec b 128); lia. Qed.

Lemma strcmp_spec a b v w : is_str a v -> is_str b w ->
  exists r, strcmp a b = Some r /\ (r = 0 <-> v = w).
Proof.
  revert a b w. induction v as [|x v IH]; intros a b w Ha Hb;
    apply is_str_inv in Ha; apply is_str_inv in Hb; destruct w as [|y w].
  - destruct Ha as [? ->], Hb as [? ->]. by exists 0.
  - destruct Ha as [? ->], Hb as (? & b' & -> & Hb). simpl. zbool. simpl.
    eexists. split; [done|]. pose proof (char_inj 0 y). split; [|done].
    destruct (char 0 >? char y); [done|]. destruct (Z.eqb_spec (char 0) (char y)); lia.
  - destruct Ha as (? & a' & -> & Ha), Hb as [? ->]. simpl. zbool. simpl.
    eexists. split; [done|]. pose proof (char_inj x 0). split; [|done].
    destruct (char x >? char 0); [done|]. destruct (Z.eqb_spec (char x) (char 0)); lia.
  - destruct Ha as (? & a' & -> & Ha), Hb as (? & b' & -> & Hb). simpl.
    destruct (Z.eqb_spec x y) as [->|Hne].
    + zbool. simpl. destruct (IH _ _ _ Ha Hb) as (r & -> & Hr). exists r. split; [done|].
      rewrite Hr. split; [by intros ->|congruence].
    + rewrite andb_false_r. eexists. split; [done|]. pose proof (char_inj x y). split; [|congruence].
      destruct (char x >? char y); [done|]. destruct (Z.eqb_spec (char x) (char y)); lia.
Qed.

Lemma strcpy_spec dest src w : is_str src w -> (length w < length dest)%nat ->
  strcpy dest src = Some (w ++ 0 :: drop (S (length w)) dest).
Proof.
  revert dest src. induction w as [|c w IH]; intros dest src Hs Hl; apply is_str_inv in Hs;
    (destruct dest as [|d dest]; [simpl in Hl; lia|]).
  - destruct Hs as [r ->]. simpl. by rewrite drop_0.
  - destruct Hs as (Hc & s' & -> & Hs). simpl. zbool. simpl in Hl. by rewrite IH by (done || lia).
Qed.

Lemma strcat_spec dest src v w : is_str dest v -> is_str src w ->
  (length v + length w < length dest)%nat ->
  strcat dest src = Some (v ++ w ++ 0 :: drop (S (length v + length w)) dest).
Proof.
  intros Hd Hs Hl. unfold strcat. rewrite (strlen_spec _ _ Hd). simpl. rewrite Nat2Z.id.
  rewrite (strcpy_spec _ _ w) by (done || (rewrite length_drop; lia)). simpl.
  destruct Hd as [_ [r ->]]. rewrite take_app_length. do 3 f_equal.
  rewrite drop_drop. do 2 f_equal. lia.
Qed.

Lemma strchr_spec s w ch : is_str s w ->
  (exists i c, strchr s ch = Some (Some (Z.of_nat i)) /\ s !! i = Some c /\ char c = ch /\
     (i <= length w)%nat /\ forall j d, (j < i)%nat -> s !! j = Some d -> char d <> ch) \/
  (strchr s ch = Some None /\ ch <> 0 /\ forall c, c ∈ w -> char c <> ch).
Proof.
  intros Hs. unfold strchr.
  assert (forall k, (exists i c, strchr_from k s ch = Some (Some (k + Z.of_nat i)) /\ s !! i = Some c /\
     char c = ch /\ (i <= length w)%nat /\ forall j d, (j < i)%nat -> s !! j = Some d -> char d <> ch) \/
    (strchr_from k s ch = Some None /\ ch <> 0 /\ forall c, c ∈ w -> char c <> ch)) as Hk;
    [|by specialize (Hk 0)].
  revert s Hs. induction w as [|x w IH]; intros s Hs k; apply is_str_inv in Hs.
  - destruct Hs as [r ->]. simpl. change (char 0) with 0. destruct (Z.eqb_spec 0 ch) as [<-|].
    + left. exists 0%nat, 0. rewrite Z.add_0_r. split_and!; try done. intros; lia.
    + right. split; [done|]. split; [done|]. set_solver.
  - destruct Hs as (Hc & s' & -> & Hs). simpl. zbool. destruct (Z.eqb_spec (char x) ch) as [<-|Hne].
    + left. exists 0%nat, x. rewrite Z.add_0_r. split_and!; try done; [simpl; lia|]. intros; lia.
    + destruct (IH s' Hs (k + 1)) as [(i & c & Hf & Hl & Hch & Hi & Hj)|(Hf & Hch & Hall)].
      * left. exists (S i), c. rewrite Hf. split; [do 2 f_equal; lia|]. split; [done|].
        split; [done|]. split; [simpl; lia|]. intros [|j] d Hlt Hd; [by simplify_eq/=|].
        apply (Hj j); [lia|done].
      * right. split; [done|]. split; [done|]. intros c [->|Hin]%elem_of_cons; [done|by apply Hall].
Qed.

(** *** Tokens *)

(** Reference: the maximal runs of non-separators; [cur] is the run being read. *)
Fixpoint words (sep : Z -> bool) (cur : option (list Z)) (w : list Z) : list (list Z) :=
  match w with
  | [] => match cur with Some v => [v] | None => [] end
  | c :: w =>
      if sep c then match cur with Some v => v :: words sep None w | None => words sep None w end
      else words sep (Some (default [] cur ++ [c])) w
  end.

(** All the tokens, the way a caller fetches them: once with the string, then
    with NULL until NULL comes back. *)
Fixpoint strtok_all (fuel : nat) (string : option Z) (seps buf : list Z) (context : option Z) :
    option (list Z * list Z) :=
  match fuel with
  | O => None
  | S fuel =>
      '(r, buf, context) ← strtok_r string seps buf context;
      match r with
      | None => Some ([], buf)
      | Some p => '(ps, buf) ← strtok_all fuel None seps buf context; Some (p :: ps, buf)
      end
  end.

Definition sep_in (v : list Z) (c : Z) : bool := bool_decide (c ∈ v).

Lemma is_sep_spec seps v c : is_str seps v -> 0 < c < 256 -> is_sep seps c = Some (sep_in v c).
Proof.
  intros Hs Hc. unfold is_sep, sep_in. pose proof Hs as [Hv [r Hr]].
  destruct (strchr_spec seps v (char c) Hs) as [(i & d & -> & Hl & Hch & Hi & _)|(-> & _ & Hall)]; simpl.
  - rewrite bool_decide_eq_true_2; [done|]. rewrite Hr in Hl.
    destruct (decide (i = length v)) as [->|].
    { rewrite list_lookup_middle in Hl by done. simplify_eq. apply char_inj in Hch; lia. }
    rewrite lookup_app_l in Hl by lia. pose proof Hl as Hin%list_elem_of_lookup_2.
    assert (0 < d < 256) by (by eapply Forall_forall in Hv). apply char_inj in Hch; [by subst|lia|lia].
  - rewrite bool_decide_eq_false_2; [done|]. intros Hin. by apply (Hall c).
Qed.

Lemma split_while (f : Z -> bool) w : exists l r, w = l ++ r /\ Forall (fun c => f c = true) l /\
  match r with [] => True | c :: _ => f c = false end.
Proof.
  induction w as [|c w IH]; [by exists [], []|]. destruct (f c) eqn:E.
  - destruct IH as (l & r & -> & ? & ?). exists (c :: l), r. split; [done|]. split; [by constructor|done].
  - by exists [], (c :: w).
Qed.

Lemma skip_while_spec want seps v l r p rest : is_str seps v ->
  Forall (fun c => 0 < c < 256) (l ++ r) -> Forall (fun c => Bool.eqb (sep_in v c) want = true) l ->
  match r with [] => True | c :: _ => Bool.eqb (sep_in v c) want = false end ->
  skip_while want seps p (l ++ r ++ 0 :: rest) = Some (p + Z.of_nat (length l)).
Proof.
  intros Hs. revert p. induction l as [|c l IH]; intros p Hw Hl Hr; simpl.
  - rewrite Z.add_0_r. destruct r as [|c r]; simpl; [done|].
    apply Forall_cons in Hw as [Hc _]. zbool. rewrite (is_sep_spec _ v) by done. simpl. by rewrite Hr.
  - apply Forall_cons in Hw as [Hc Hw]. apply Forall_cons in Hl as [Hcl Hl]. zbool.
    rewrite (is_sep_spec _ v) by done. simpl. rewrite Hcl, IH by done. f_equal. lia.
Qed.

Lemma words_lead sep l w : Forall (fun c => sep c = true) l ->
  words sep None (l ++ w) = words sep None w.
Proof. induction 1 as [|c l Hc _ IH]; [done|]. simpl. by rewrite Hc. Qed.

Lemma words_run sep t r cur : Forall (fun c => sep c = false) t ->
  words sep (Some cur) (t ++ r) = words sep (Some (cur ++ t)) r.
Proof.
  intros Ht. revert cur. induction Ht as [|c t Hc _ IH]; intros cur; simpl; [by rewrite app_nil_r|].
  rewrite Hc, IH. simpl. by rewrite <- app_assoc.
Qed.

Lemma words_first sep t r : t <> [] -> Forall (fun c => sep c = false) t ->
  match r with [] => True | c :: _ => sep c = true end ->
  words sep None (t ++ r) = t :: words sep None (drop 1 r).
Proof.
  intros Hne Ht Hr. destruct t as [|c t]; [done|]. apply Forall_cons in Ht as [Hc Ht]. simpl.
  rewrite Hc, words_run by done. simpl. destruct r as [|d r]; simpl; [done|]. rewrite Hr. by rewrite drop_0.
Qed.

(** One call, from the start of [w]: the next word, and what is left. *)
Lemma strtok_step seps v pre w rest : is_str seps v -> Forall (fun c => 0 < c < 256) w ->
  let call := strtok_r None seps (pre ++ w ++ 0 :: rest) (Some (Z.of_nat (length pre))) in
  (words (sep_in v) None w = [] /\ call = Some (None, pre ++ w ++ 0 :: rest, None)) \/
  exists lead t r, w = lead ++ t ++ r /\ t <> [] /\
    words (sep_in v) None w = t :: words (sep_in v) None (drop 1 r) /\
    let q := Z.of_nat (length (pre ++ lead)) in
    let pre' := pre ++ lead ++ t ++ [0] in
    call = match r with
           | [] => Some (Some q, pre ++ w ++ 0 :: rest, None)
           | _ :: w' => Some (Some q, pre' ++ w' ++ 0 :: rest, Some (Z.of_nat (length pre')))
           end.
Proof.
  intros Hs Hw call. destruct (split_while (sep_in v) w) as (lead & r0 & -> & Hlead & Hr0).
  assert (call = strtok_r None seps ((pre ++ lead) ++ r0 ++ 0 :: rest) (Some (Z.of_nat (length pre)))) as ->
    by (unfold call; by rewrite <- !app_assoc).
  unfold strtok_r. rewrite Nat2Z.id, <- app_assoc, drop_app_length.
  rewrite (skip_while_spec true seps v lead r0); try done.
  2:{ eapply Forall_impl; [done|]. simpl. by intros c ->. }
  2:{ destruct r0; [done|]. by rewrite Hr0. }
  simpl. rewrite <- Nat2Z.inj_add, Nat2Z.id, <- length_app, app_assoc.
  destruct r0 as [|c0 r0].
  { left. simpl. rewrite list_lookup_middle by done. simpl. split; [|by rewrite app_nil_r, <- app_assoc].
    by rewrite words_lead. }
  right. destruct (split_while (fun c => negb (sep_in v c)) (c0 :: r0)) as (t & r & Hr0' & Ht & Hr).
  assert (t <> []) as Hne.
  { intros ->. simpl in Hr0'. subst r. by rewrite Hr0 in Hr. }
  rewrite Hr0' in *. exists lead, t, r. split; [done|]. split; [done|].
  apply Forall_app in Hw as [Hw1 Hw2]. split.
  { rewrite words_lead, words_first; try done.
    - eapply Forall_impl; [exact Ht|]. simpl. intros c. apply negb_true_iff.
    - destruct r; [done|]. by apply negb_false_iff in Hr. }
  rewrite drop_app_length, <- (app_assoc t r), (skip_while_spec false seps v t r); try done.
  destruct t as [|c1 t]; [done|]. apply Forall_app in Hw2 as [Hw2 Hw3].
  pose proof Hw2 as [Hc1 _]%Forall_cons. cbn [app].
  rewrite list_lookup_middle by done. simpl mbind. zbool.
  replace (Z.of_nat (length (pre ++ lead)) + Z.of_nat (S (length t)))
    with (Z.of_nat (length ((pre ++ lead) ++ c1 :: t))) by (rewrite length_app; simpl; lia).
  rewrite Nat2Z.id.
  replace ((pre ++ lead) ++ c1 :: t ++ r ++ 0 :: rest) with (((pre ++ lead) ++ c1 :: t) ++ r ++ 0 :: rest)
    by (by rewrite <- !app_assoc).
  destruct r as [|c r].
  - simpl. rewrite list_lookup_middle by done. simpl. by rewrite app_nil_r, <- !app_assoc.
  - apply Forall_cons in Hw3 as [Hc _]. cbn [app]. rewrite list_lookup_middle by done. simpl mbind. zbool.
    rewrite insert_app_r_alt, Nat.sub_diag by done. simpl.
    replace (Z.of_nat (length ((pre ++ lead) ++ c1 :: t)) + 1)
      with (Z.of_nat (length (pre ++ lead ++ c1 :: t ++ [0]))) by (rewrite !length_app; simpl; rewrite !length_app; simpl; lia).
    do 3 f_equal. rewrite <- !app_assoc. simpl. by rewrite <- app_assoc.
Qed.

(** All of them.  The words are found in the final buffer at the pointers returned. *)
Lemma strtok_all_spec seps v fuel pre w rest : is_str seps v -> Forall (fun c => 0 < c < 256) w ->
  (length w < fuel)%nat ->
  exists ps buf', strtok_all fuel None seps (pre ++ w ++ 0 :: rest) (Some (Z.of_nat (length pre))) = Some (ps, buf') /\
    (exists tail, buf' = pre ++ tail) /\
    Forall2 (fun p t => 0 <= p /\ is_str (drop (Z.to_nat p) buf') t) ps (words (sep_in v) None w).
Proof.
  intros Hs. revert pre w. induction fuel as [|fuel IH]; intros pre w Hw Hf; [lia|]. cbn [strtok_all].
  destruct (strtok_step seps v pre w rest Hs Hw) as [[-> ->]|(lead & t & r & Hwr & Hne & -> & ->)].
  { exists [], (pre ++ w ++ 0 :: rest). split; [done|]. split; [by eexists|constructor]. }
  assert (0 < length t)%nat by (destruct t; [done|simpl; lia]).
  assert (Forall (fun c => 0 < c < 256) t /\ Forall (fun c => 0 < c < 256) (drop 1 r)) as [Ht Hr].
  { rewrite Hwr in Hw. apply Forall_app in Hw as [_ Hw]. apply Forall_app in Hw as [? Hw].
    split; [done|by apply Forall_drop]. }
  rewrite Hwr, !length_app in Hf. destruct r as [|c r]; simpl.
  - destruct fuel as [|fuel]; [lia|]. simpl. eexists _, _. split; [done|]. split; [by eexists|].
    constructor; [|constructor]. split; [lia|]. rewrite Nat2Z.id. rewrite Hwr, app_nil_r.
    rewrite <- !app_assoc, (app_assoc pre lead), drop_app_length. split; [done|by exists rest].
  - destruct (IH (pre ++ lead ++ t ++ [0]) r) as (ps & buf' & Hall & [tail ->] & Hps); try done.
    { simpl in Hf. lia. }
    simpl in Hall. rewrite Hall. simpl. eexists _, _. split; [done|].
    split; [exists (lead ++ t ++ 0 :: tail); by rewrite <- !app_assoc|].
    rewrite drop_0. constructor; [|done]. split; [lia|]. rewrite Nat2Z.id.
    replace ((pre ++ lead ++ t ++ [0]) ++ tail) with ((pre ++ lead) ++ t ++ 0 :: tail)
      by (by rewrite <- !app_assoc).
    rewrite drop_app_length. split; [done|by exists tail].
Qed.

(** *** Numbers *)

(** Reference: the value of a string of decimal digits. *)
Definition decimal (ds : list Z) : Z := fold_left (fun v d => v * 10 + (d - 48)) ds 0.

Definition is_digit (c : Z) : Prop := 48 <= c <= 57.

Lemma digits_str : is_str digits [48; 49; 50; 51; 52; 53; 54; 55; 56; 57].
Proof. split; [|by exists []]. do 10 (apply Forall_cons; split; [done|]). constructor. Qed.

Lemma digit_lookup c : 0 < c < 256 ->
  strchr digits (char c) = Some (if (48 <=? c) && (c <=? 57) then Some (c - 48) else None).
Proof.
  intros Hc. set (P := fun c => (c =? 0) || bool_decide (strchr digits (char c) =
    Some (if (48 <=? c) && (c <=? 57) then Some (c - 48) else None))).
  assert (P c = true) as Hb by (apply byte_cases; [by vm_compute|lia]).
  unfold P in Hb. zbool_in Hb. by apply bool_decide_eq_true in Hb.
Qed.

Lemma atoi_loop_spec ds tail s val : Forall is_digit ds -> is_str s (ds ++ tail) ->
  match tail with [] => True | c :: _ => ~ is_digit c end ->
  atoi_loop val s = Some (fold_left (fun v d => u32 (v * 10 + (d - 48))) ds val).
Proof.
  intros Hds. revert s val. induction Hds as [|d ds Hd _ IH]; intros s val Hs Ht; simpl in Hs.
  - apply is_str_inv in Hs. destruct tail as [|c tail].
    + by destruct Hs as [? ->].
    + destruct Hs as (Hc & s' & -> & _). simpl. zbool. rewrite digit_lookup by done. simpl.
      unfold is_digit in Ht. by destruct (Z.leb_spec 48 c), (Z.leb_spec c 57); try lia.
  - apply is_str_inv in Hs as (Hc & s' & -> & Hs). simpl. zbool. rewrite digit_lookup by done. simpl.
    unfold is_digit in Hd. zbool. by apply IH.
Qed.

Lemma fold_digits_mod ds v v' : u32 v = u32 v' ->
  u32 (fold_left (fun v d => u32 (v * 10 + (d - 48))) ds v) = u32 (fold_left (fun v d => v * 10 + (d - 48)) ds v').
Proof.
  revert v v'. induction ds as [|d ds IH]; intros v v' Hv; [done|]. simpl. apply IH.
  unfold u32 in *. rewrite Z.mod_mod by done.
  rewrite <- (Z.add_mod_idemp_l (v * 10)), <- (Z.mul_mod_idemp_l v), Hv by done.
  by rewrite Z.mul_mod_idemp_l, Z.add_mod_idemp_l by done.
Qed.

Lemma fold_digits_range ds v : 0 <= v < 2 ^ 32 ->
  0 <= fold_left (fun v d => u32 (v * 10 + (d - 48))) ds v < 2 ^ 32.
Proof. revert v. induction ds as [|d ds IH]; intros v Hv; [done|]. simpl. apply IH, u32_range. Qed.

Lemma i32_u32 a b : u32 a = u32 b -> i32 a = i32 b.
Proof.
  unfold u32, i32. intros Hab. f_equal.
  by rewrite <- (Z.add_mod_idemp_l a), Hab, Z.add_mod_idemp_l by done.
Qed.

Lemma u32_opp a b : u32 a = u32 b -> u32 (- a) = u32 (- b).
Proof.
  unfold u32. intros Hab. rewrite <- (Z.sub_0_l a), <- (Z.sub_0_l b). rewrite Zminus_mod, Hab, <- Zminus_mod. done.
Qed.

(** *** Memory *)

(** [len] bytes from [src] are now at [dst]; [m] is the memory before. *)
Definition copied (dst src len : Z) (m m' : Z -> Z) : Prop :=
  forall a, m' a = if (dst <=? a) && (a <? dst + len) then m (src + (a - dst)) else m a.

Lemma move_units_snoc w dst src l i m :
  move_units w dst src (l ++ [i]) m = move_unit w (dst + w * i) (src + w * i) (move_units w dst src l m).
Proof. unfold move_units. by rewrite fold_left_app. Qed.

Ltac zcases := repeat match goal with
  | |- context [Z.leb ?a ?b] => destruct (Z.leb_spec a b)
  | |- context [Z.ltb ?a ?b] => destruct (Z.ltb_spec a b)
  end; cbn [andb].

(** Forwards, onto a lower or a disjoint region. *)
Lemma move_forward w dst src n m : 0 < w -> 0 <= n ->
  dst = src \/ dst + w <= src \/ src + w * n <= dst ->
  copied dst src (w * n) m (move_units w dst src (seqZ 0 n) m).
Proof.
  intros Hw Hn. revert n Hn. apply (natlike_ind (fun n => _ -> copied dst src (w * n) m _)).
  - intros _ a. simpl. zcases; lia || done.
  - intros n Hn IH Hd. assert (w * Z.succ n = w * n + w) as Hs by lia.
    rewrite seqZ_snoc, move_units_snoc by done. intros a. unfold move_unit. rewrite !IH by lia.
    assert (0 <= w * n) by nia. zcases; try lia; try done; f_equal; lia.
Qed.

(** Backwards, onto the same or a higher region. *)
Lemma move_backward w dst src n m : 0 < w -> 0 <= n -> src <= dst ->
  copied dst src (w * n) m (move_units w dst src (reverse (seqZ 0 n)) m).
Proof.
  intros Hw Hn Hd. revert n Hn m. apply (natlike_ind (fun n => forall m, copied dst src (w * n) m _)).
  - intros m a. simpl. zcases; lia || done.
  - intros n Hn IH m. assert (w * Z.succ n = w * n + w) as Hs by lia.
    rewrite seqZ_snoc, reverse_snoc by done. simpl. intros a. rewrite IH. unfold move_unit.
    assert (0 <= w * n) by nia. zcases; try lia; try done; f_equal; lia.
Qed.

Lemma aligned_spec dst src len : 0 <= len -> word_aligned dst src len = true ->
  4 * (len / 4) = len /\ 0 <= len / 4 /\ (dst < src -> dst + 4 <= src).
Proof.
  unfold word_aligned. intros Hl [[Hd%Z.eqb_eq Hs%Z.eqb_eq]%andb_true_iff He%Z.eqb_eq]%andb_true_iff.
  pose proof (Z.div_mod len 4). pose proof (Z.div_mod dst 4). pose proof (Z.div_mod src 4).
  pose proof (Z.div_pos len 4). lia.
Qed.

Lemma memcpy_spec dst src len m : 0 <= len -> dst <= src \/ src + len <= dst ->
  copied dst src len m (memcpy dst src len m).
Proof.
  intros Hl Hd. unfold memcpy. destruct (word_aligned dst src len) eqn:E.
  - destruct (aligned_spec _ _ _ Hl E) as (He & ? & ?). rewrite <- He at 1. apply move_forward; lia.
  - rewrite <- (Z.mul_1_l len) at 1. apply move_forward; lia.
Qed.

Lemma zero_units_spec w block n m : 0 < w -> 0 <= n -> forall a,
  fold_left (fun m i => zero_unit w (block + w * i) m) (seqZ 0 n) m a =
    if (block <=? a) && (a <? block + w * n) then 0 else m a.
Proof.
  intros Hw Hn. revert n Hn. apply (natlike_ind (fun n => forall a, _ = _)).
  - intros a. simpl. zcases; lia || done.
  - intros n Hn IH a. assert (w * Z.succ n = w * n + w) as Hs by lia.
    rewrite seqZ_snoc, fold_left_app by done. simpl. unfold zero_unit at 1. rewrite IH.
    assert (0 <= w * n) by nia. zcases; lia || done.
Qed.

Lemma bzero_spec block len m : 0 <= len -> forall a,
  bzero block len m a = if (block <=? a) && (a <? block + len) then 0 else m a.
Proof.
  intros Hl a. unfold bzero. destruct (_ && _) eqn:E.
  - apply andb_true_iff in E as [_ E%Z.eqb_eq]. pose proof (Z.div_mod len 4). pose proof (Z.div_pos len 4).
    rewrite zero_units_spec by lia. by replace (4 * (len / 4)) with len by lia.
  - rewrite zero_units_spec by lia. by rewrite Z.mul_1_l.
Qed.

(** ** Theorems *)

(** [memmove] copies correctly whatever the overlap and alignment of the two
    regions: every destination byte is what the source byte was before the call,
    and no other byte changes. *)
Theorem memmove_correct dst src len m : 0 <= len -> copied dst src len m (memmove dst src len m).
Proof.
  intros Hl. unfold memmove. destruct (Z.ltb_spec dst src); [apply memcpy_spec; lia|].
  destruct (word_aligned dst src len) eqn:E.
  - destruct (aligned_spec _ _ _ Hl E) as (He & ? & ?). rewrite <- He at 1. apply move_backward; lia.
  - rewrite <- (Z.mul_1_l len) at 1. apply move_backward; lia.
Qed.

Lemma memmove_correct_witness : 0 <= 5 /\ memmove 3 1 5 (fun a => a) 7 = 5.
Proof. split; [done|]. by rewrite (memmove_correct 3 1 5 (fun a => a) ltac:(done) 7). Defined.

(** C35: fetching tokens with [strtok_r] until it answers NULL ends after at most
    one call per character and yields, in order, exactly the maximal runs of
    non-separator characters of the string. *)
Theorem strtok_r_equiv seps v w rest fuel :
  is_str seps v -> Forall (fun c => 0 < c < 256) w -> (length w < fuel)%nat ->
  exists ps buf', strtok_all fuel (Some 0) seps (w ++ 0 :: rest) None = Some (ps, buf') /\
    Forall2 (fun p t => 0 <= p /\ is_str (drop (Z.to_nat p) buf') t) ps (words (sep_in v) None w).
Proof.
  intros Hs Hw Hf. destruct (strtok_all_spec seps v fuel [] w rest Hs Hw Hf) as (ps & buf' & Hall & _ & Hps).
  exists ps, buf'. split; [|done]. destruct fuel; [lia|]. exact Hall.
Qed.

Lemma strtok_r_equiv_witness : exists ps buf',
  strtok_all 4 (Some 0) [58; 0] [97; 58; 98; 0] None = Some (ps, buf') /\
  Forall2 (fun p t => 0 <= p /\ is_str (drop (Z.to_nat p) buf') t) ps [[97]; [98]].
Proof.
  apply (strtok_r_equiv [58; 0] [58] [97; 58; 98] [] 4).
  - split; [by repeat constructor|by exists []].
  - by repeat constructor.
  - simpl. lia.
Defined.

(** [atoi] reads the optional sign and the decimal digits after leading
    blanks and answers their value, wrapped to a 32-bit [int], whatever follows. *)
Theorem atoi_correct s blanks sign ds tail :
  Forall (fun c => c = 32 \/ c = 9) blanks -> sign ∈ [[]; [43]; [45]] ->
  Forall is_digit ds -> ds <> [] -> match tail with [] => True | c :: _ => ~ is_digit c end ->
  is_str s (blanks ++ sign ++ ds ++ tail) ->
  atoi s = Some (i32 (if decide (sign = [45]) then - decimal ds else decimal ds)).
Proof.
  intros Hb Hsg Hds Hne Ht Hs. unfold atoi.
  assert (exists s', skip_blank s = s' /\ is_str s' (sign ++ ds ++ tail)) as (s' & -> & Hs').
  { revert s Hs. induction Hb as [|c blanks Hc _ IH]; intros s Hs.
    - exists s. split; [|done]. apply is_str_inv in Hs. destruct ds as [|d ds]; [done|].
      apply Forall_cons in Hds as [Hd _]. unfold is_digit in Hd.
      assert (sign = [] \/ sign = [43] \/ sign = [45]) as [->|[->| ->]] by set_solver;
        destruct Hs as (_ & s' & -> & _); simpl; by zbool.
    - apply is_str_inv in Hs as (_ & s' & -> & Hs). simpl. destruct Hc as [->| ->]; simpl; by apply IH. }
  clear Hs. pose proof (fold_digits_mod ds 0 0 eq_refl) as Hm.
  set (val := fold_left (fun v d => u32 (v * 10 + (d - 48))) ds 0) in *.
  assert (forall s, is_str s (ds ++ tail) -> atoi_loop 0 s = Some val) as Hloop.
  { intros. by apply (atoi_loop_spec _ tail). }
  assert (sign = [] \/ sign = [43] \/ sign = [45]) as [->|[->| ->]] by set_solver.
  - destruct ds as [|d ds]; [done|]. pose proof Hs' as Hl%Hloop. apply is_str_inv in Hs' as (_ & s1 & -> & _).
    apply Forall_cons in Hds as [Hd _]. unfold is_digit in Hd. zbool. rewrite Hl. simpl. f_equal.
    by apply i32_u32.
  - apply is_str_inv in Hs' as (_ & s1 & -> & Hs1). simpl. rewrite Hloop by done. simpl. f_equal.
    by apply i32_u32.
  - apply is_str_inv in Hs' as (_ & s1 & -> & Hs1). simpl. rewrite Hloop by done. simpl. f_equal.
    apply i32_u32. rewrite (u32_small (u32 _)) by apply u32_range. by apply u32_opp.
Qed.

Lemma atoi_correct_witness : atoi [32; 45; 52; 50; 10; 0] = Some (-42).
Proof.
  apply (atoi_correct _ [32] [45] [52; 50] [10]).
  - repeat constructor.
  - set_solver.
  - by repeat constructor.
  - done.
  - unfold is_digit. lia.
  - split; [by repeat constructor|by exists []].
Defined.
