(* ===== verification/Printf.v ===== *)
(** Formatted output: lib/libc/__printf.c, which the kernel and libc share, and
    lib/libc/snprintf.c.

    [__vprintf] interprets a format string character by character and sends what
    it prints to the client's function.  [render] is the text that a format,
    given as a list of pieces, stands for; the theorems say that the code prints
    it, that [snprintf] stays inside its buffer, and that [atoi] reads back what
    "%d" prints. *)

From Stdlib Require Import ZArith Lia.
From stdpp Require Import prelude gmap list.
From S2P Require Import Prelude Str.

(** ** Definitions *)

(** [NUMBER_BUF_SIZE]: (sizeof(long) * CHAR_BIT) / 3 + 2. *)
Definition NUMBER_BUF_SIZE : Z := (4 * 8) / 3 + 2.

Inductive intsize := INTSZ | LONGSZ.

(** What a variable argument can be: a word or a pointer to a string. *)
Inductive arg := AInt (n : Z) | AStr (s : option (list Z)).

Record PF := mk_pf {
  ap : list arg;
  charcount : Z;
  in_pct : bool;
  size : intsize;
  num : Z;
  sign : Z;
  spacing : Z;
  rightspc : bool;
  fillchar : Z;
  base : Z;
  baseprefix : bool;
  altformat : bool;
}.

Definition set_ap l (f : PF) := mk_pf l (charcount f) (in_pct f) (size f) (num f) (sign f) (spacing f)
  (rightspc f) (fillchar f) (base f) (baseprefix f) (altformat f).
Definition set_charcount n (f : PF) := mk_pf (ap f) n (in_pct f) (size f) (num f) (sign f) (spacing f)
  (rightspc f) (fillchar f) (base f) (baseprefix f) (altformat f).
Definition set_in_pct b (f : PF) := mk_pf (ap f) (charcount f) b (size f) (num f) (sign f) (spacing f)
  (rightspc f) (fillchar f) (base f) (baseprefix f) (altformat f).
Definition set_intsize z (f : PF) := mk_pf (ap f) (charcount f) (in_pct f) z (num f) (sign f) (spacing f)
  (rightspc f) (fillchar f) (base f) (baseprefix f) (altformat f).
Definition set_number n sg (f : PF) := mk_pf (ap f) (charcount f) (in_pct f) (size f) n sg (spacing f)
  (rightspc f) (fillchar f) (base f) (baseprefix f) (altformat f).
Definition set_spacing n (f : PF) := mk_pf (ap f) (charcount f) (in_pct f) (size f) (num f) (sign f) n
  (rightspc f) (fillchar f) (base f) (baseprefix f) (altformat f).
Definition set_rightspc b (f : PF) := mk_pf (ap f) (charcount f) (in_pct f) (size f) (num f) (sign f) (spacing f)
  b (fillchar f) (base f) (baseprefix f) (altformat f).
Definition set_fillchar c (f : PF) := mk_pf (ap f) (charcount f) (in_pct f) (size f) (num f) (sign f) (spacing f)
  (rightspc f) c (base f) (baseprefix f) (altformat f).
Definition set_base b (f : PF) := mk_pf (ap f) (charcount f) (in_pct f) (size f) (num f) (sign f) (spacing f)
  (rightspc f) (fillchar f) b (baseprefix f) (altformat f).
Definition set_baseprefix b (f : PF) := mk_pf (ap f) (charcount f) (in_pct f) (size f) (num f) (sign f) (spacing f)
  (rightspc f) (fillchar f) (base f) b (altformat f).
Definition set_altformat b (f : PF) := mk_pf (ap f) (charcount f) (in_pct f) (size f) (num f) (sign f) (spacing f)
  (rightspc f) (fillchar f) (base f) (baseprefix f) b.

(** String constants of the source. *)
Definition modifier_chars : list Z := [35; 45; 113; 108; 48; 49; 50; 51; 52; 53; 54; 55; 56; 57; 0].
Definition integer_chars : list Z := [100; 111; 117; 112; 120; 0].
Definition hex_digits : list Z := [48; 49; 50; 51; 52; 53; 54; 55; 56; 57; 97; 98; 99; 100; 101; 102; 0].
Definition null_text : list Z := [40; 110; 117; 108; 108; 41; 0].

Definition __pf_endfield (f : PF) : PF :=
  mk_pf (ap f) (charcount f) false INTSZ 0 0 0 false 32 0 false false.

Section printf.
Context {C : Type} (sendfunc : list Z -> M C unit).

(** [__pf_print(pf, txt, len)]: [data] are the [len] bytes at [txt]. *)
Definition __pf_print (data : list Z) : M (PF * C) unit :=
  on_snd (sendfunc data) ;;;
  on_fst (modify (fun f => set_charcount (i32 (charcount f + Z.of_nat (length data))) f)).

(** A value of [strchr] and [strlen] on a string that does not end is a fault. *)
Definition defined {A} (o : option A) : M (PF * C) A :=
  match o with Some a => ret a | None => panic end.

Definition __pf_modifier (ch : Z) : M (PF * C) unit :=
  f <- gets fst ;;
  if ch =? 35 then on_fst (modify (set_altformat true))
  else if ch =? 45 then on_fst (modify (set_rightspc true))
  else if ch =? 108 then
    match size f with LONGSZ => ret tt | INTSZ => on_fst (modify (set_intsize LONGSZ)) end
  else if ch =? 113 then on_fst (modify (set_intsize LONGSZ))
  else if ch =? 48 then
    if spacing f >? 0 then on_fst (modify (set_spacing (i32 (spacing f * 10))))
    else on_fst (modify (set_fillchar 48))
  else
    assert ((ch >? 48) && (ch <=? 57)) ;;;
    on_fst (modify (set_spacing (i32 (spacing f * 10 + (ch - 48))))).

(** [va_arg]; an argument of another kind than the format says is undefined. *)
Definition va_word : M (PF * C) Z :=
  f <- gets fst ;;
  match ap f with AInt n :: l => on_fst (modify (set_ap l)) ;;; ret n | _ => panic end.
Definition va_string : M (PF * C) (option (list Z)) :=
  f <- gets fst ;;
  match ap f with AStr s :: l => on_fst (modify (set_ap l)) ;;; ret s | _ => panic end.

Definition __pf_getnum (ch : Z) : M (PF * C) unit :=
  f <- gets fst ;;
  if ch =? 112 then
    n <- va_word ;;
    on_fst (modify (set_number (u32 n) (sign f)))
  else if ch =? 100 then
    n <- va_word ;;
    let signednum := match size f with INTSZ => i32 n | LONGSZ => i32 n end in
    if signednum <? 0 then on_fst (modify (set_number (u32 (- signednum)) (-1)))
    else on_fst (modify (set_number (u32 signednum) (sign f)))
  else
    n <- va_word ;;
    let v := match size f with INTSZ => u32 n | LONGSZ => u32 n end in
    on_fst (modify (set_number v (sign f))).

Definition __pf_setbase (ch : Z) : M (PF * C) unit :=
  (if (ch =? 100) || (ch =? 117) then on_fst (modify (set_base 10))
   else if (ch =? 120) || (ch =? 112) then on_fst (modify (set_base 16))
   else if ch =? 111 then on_fst (modify (set_base 8))
   else ret tt) ;;;
  f <- gets fst ;;
  if altformat f || (ch =? 112) then on_fst (modify (set_baseprefix true)) else ret tt.

Definition __pf_fill (spc : Z) : M (PF * C) unit :=
  f <- gets fst ;;
  for_each (seqZ 0 spc) (fun _ => __pf_print [u8 (fillchar f)]).

Definition __pf_printstuff (prefix prefix2 stuff : list Z) : M (PF * C) unit :=
  n1 <- defined (strlen prefix) ;;
  n2 <- defined (strlen prefix2) ;;
  n3 <- defined (strlen stuff) ;;
  let len := i32 (u32 (n1 + n2 + n3)) in
  f <- gets fst ;;
  let spc := if spacing f >? len then spacing f - len else 0 in
  (if (spc >? 0) && negb (rightspc f) && negb (fillchar f =? 48) then __pf_fill spc else ret tt) ;;;
  __pf_print (take (Z.to_nat n1) prefix) ;;;
  __pf_print (take (Z.to_nat n2) prefix2) ;;;
  (if (spc >? 0) && negb (rightspc f) && (fillchar f =? 48) then __pf_fill spc else ret tt) ;;;
  __pf_print (take (Z.to_nat n3) stuff) ;;;
  if (spc >? 0) && rightspc f then __pf_fill spc else ret tt.

(** The do-while loop of [__pf_printnum]: [x] is the index in [buf] of the next
    digit.  A store outside of [buf], a division by zero and a read past the
    digits are faults. *)
Fixpoint printnum_loop (fuel : nat) (base : Z) (buf : list Z) (x xnum : Z) : M (PF * C) (list Z * Z) :=
  match fuel with
  | O => spin
  | S fuel =>
      if base =? 0 then panic
      else
        d <- defined (hex_digits !! Z.to_nat (xnum mod base)) ;;
        assert ((0 <=? x) && (x <? Z.of_nat (length buf))) ;;;
        let buf := <[Z.to_nat x := d]> buf in
        let xnum := xnum / base in
        if xnum >? 0 then printnum_loop fuel base buf (x - 1) xnum else ret (buf, x - 1)
  end.

(** What the local buffer holds before is not used. *)
Definition __pf_printnum : M (PF * C) unit :=
  f <- gets fst ;;
  let buf := replicate (Z.to_nat NUMBER_BUF_SIZE) 0 in
  '(buf, x) <- printnum_loop 32 (base f) buf (NUMBER_BUF_SIZE - 2) (num f) ;;
  let x := x + 1 in
  let bprefix :=
    if baseprefix f && (base f =? 16) then [48; 120; 0]
    else if baseprefix f && (base f =? 8) then [48; 0] else [0] in
  let sprefix := if negb (sign f =? 0) then [45; 0] else [0] in
  __pf_printstuff sprefix bprefix (drop (Z.to_nat x) buf).

Definition __pf_send (ch : Z) : M (PF * C) unit :=
  assert (negb (ch =? 0)) ;;;
  f <- gets fst ;;
  if negb (in_pct f) && negb (ch =? 37) then __pf_print [u8 ch]
  else if negb (in_pct f) then on_fst (modify (set_in_pct true))
  else
    m <- defined (strchr modifier_chars ch) ;;
    match m with
    | Some _ => __pf_modifier ch
    | None =>
        m <- defined (strchr integer_chars ch) ;;
        match m with
        | Some _ =>
            __pf_getnum ch ;;; __pf_setbase ch ;;; __pf_printnum ;;; on_fst (modify __pf_endfield)
        | None =>
            if ch =? 115 then
              s <- va_string ;;
              __pf_printstuff [0] [0] (default null_text s) ;;;
              on_fst (modify __pf_endfield)
            else
              x0 <- (if ch =? 99 then n <- va_word ;; ret (u8 n) else ret (u8 ch)) ;;
              __pf_printstuff [0] [0] [x0; 0] ;;;
              on_fst (modify __pf_endfield)
        end
    end.

(** [for (i=0; format[i]; i++)]. *)
Fixpoint vprintf_loop (format : list Z) : M (PF * C) unit :=
  match format with
  | [] => panic
  | c :: format => if c =? 0 then ret tt else __pf_send (char c) ;;; vprintf_loop format
  end.

Definition __vprintf (format : list Z) (args : list arg) : M C Z := fun c =>
  let pf := __pf_endfield (mk_pf args 0 false INTSZ 0 0 0 false 0 0 false false) in
  let '(r, (pf, c)) := vprintf_loop format (pf, c) in
  (match r with Ret _ => Ret (charcount pf) | Err e => Err e | Panic => Panic | Spin => Spin end, c).

End printf.

(** *** snprintf *)

Record SNP := mk_snp { buf : list Z; buflen : Z; bufpos : Z }.

(** A store outside of the buffer is a fault. *)
Definition snp_put (c : Z) : M SNP unit :=
  snp <- get ;;
  if bufpos snp <? buflen snp then
    assert (bufpos snp <? Z.of_nat (length (buf snp))) ;;;
    put (mk_snp (<[Z.to_nat (bufpos snp) := c]> (buf snp)) (buflen snp) (bufpos snp + 1))
  else ret tt.

Definition __snprintf_send (data : list Z) : M SNP unit := for_each data snp_put.

Definition vsnprintf (len : Z) (fmt : list Z) (args : list arg) : M (list Z) Z := fun b =>
  let snp := mk_snp b (if len =? 0 then 0 else len - 1) 0 in
  let '(r, snp) := __vprintf __snprintf_send fmt args snp in
  match r with
  | Ret chars =>
      if len >? 0 then
        if bufpos snp <? Z.of_nat (length (buf snp))
        then (Ret chars, <[Z.to_nat (bufpos snp) := 0]> (buf snp)) else (Panic, buf snp)
      else (Ret chars, buf snp)
  | Err e => (Err e, buf snp)
  | Panic => (Panic, buf snp)
  | Spin => (Spin, buf snp)
  end.

Definition snprintf (len : Z) (fmt : list Z) (args : list arg) : M (list Z) Z := vsnprintf len fmt args.

(** ** Reference: the text a format stands for *)

(** The numeral of [n] in base [b], in at most [fuel] digits. *)
Definition digit_char (d : Z) : Z := if d <? 10 then 48 + d else 87 + d.
Fixpoint numeral (fuel : nat) (b n : Z) : list Z :=
  match fuel with
  | O => []
  | S fuel => (if n <? b then [] else numeral fuel b (n / b)) ++ [digit_char (n mod b)]
  end.

(** A format is a list of characters printed as they are and of %-fields, each
    with its modifiers and its type. *)
Inductive piece := Lit (c : Z) | Field (mods : list Z) (ch : Z).

Definition piece_text (p : piece) : list Z :=
  match p with Lit c => [c] | Field mods ch => 37 :: mods ++ [ch] end.
Definition format_text (ps : list piece) : list Z := concat (piece_text <$> ps).

Definition modifiers : list Z := [35; 45; 113; 108; 48; 49; 50; 51; 52; 53; 54; 55; 56; 57].

(** What the modifiers say: "#", "-", the field width and whether the width is
    written with a leading 0. *)
Definition width_digits (mods : list Z) : list Z := filter (fun c => 48 <= c <= 57) mods.
Definition alternate (mods : list Z) : bool := bool_decide (35 ∈ mods).
Definition left_aligned (mods : list Z) : bool := bool_decide (45 ∈ mods).
Definition width (mods : list Z) : Z := decimal (width_digits mods).
Definition zero_filled (mods : list Z) : bool := bool_decide (head (width_digits mods) = Some 48).

(** A field is its prefix and its body, filled up to its width: before the
    prefix, or between the two with zeros, or after them. *)
Definition justify (mods prefix body : list Z) : list Z :=
  let c := if zero_filled mods then 48 else 32 in
  let fill := replicate (Z.to_nat (width mods) - (length prefix + length body)) c in
  if left_aligned mods then prefix ++ body ++ fill
  else if zero_filled mods then prefix ++ fill ++ body
  else fill ++ prefix ++ body.

Definition string_text (s : list Z) : option (list Z) := n ← strlen s; Some (take (Z.to_nat n) s).

(** The text of a field and the arguments it leaves. *)
Definition field_text (mods : list Z) (ch : Z) (args : list arg) : option (list Z * list arg) :=
  let hash s := if alternate mods then s else [] in
  if decide (~ ch ∈ [100; 117; 120; 112; 111; 115; 99])
  then Some (justify mods [] [ch], args)
  else match args with
  | AInt n :: args =>
      if ch =? 100 then
        Some (justify mods (if i32 n <? 0 then [45] else []) (numeral 32 10 (Z.abs (i32 n))), args)
      else if ch =? 117 then Some (justify mods [] (numeral 32 10 (u32 n)), args)
      else if ch =? 120 then Some (justify mods (hash [48; 120]) (numeral 32 16 (u32 n)), args)
      else if ch =? 112 then Some (justify mods [48; 120] (numeral 32 16 (u32 n)), args)
      else if ch =? 111 then Some (justify mods (hash [48]) (numeral 32 8 (u32 n)), args)
      else if ch =? 99 then Some (justify mods [] (if u8 n =? 0 then [] else [u8 n]), args)
      else None
  | AStr s :: args =>
      if ch =? 115 then
        t ← match s with Some s => string_text s | None => Some [40; 110; 117; 108; 108; 41] end;
        Some (justify mods [] t, args)
      else None
  | [] => None
  end.

Fixpoint render (ps : list piece) (args : list arg) : option (list Z) :=
  match ps with
  | [] => Some []
  | Lit c :: ps => t ← render ps args; Some (c :: t)
  | Field mods ch :: ps =>
      '(t, args) ← field_text mods ch args;
      t' ← render ps args;
      Some (t ++ t')
  end.

Definition piece_ok (p : piece) : Prop :=
  match p with
  | Lit c => 0 < c < 256 /\ c <> 37
  | Field mods ch => mods ⊆ modifiers /\ 0 < ch < 256 /\ ~ ch ∈ modifiers /\ width mods < 2 ^ 31
  end.

(** A format may end in the middle of a field, which prints nothing. *)
Definition unfinished (tail : list Z) : Prop :=
  tail = [] \/ exists mods, tail = 37 :: mods /\ mods ⊆ modifiers /\ width mods < 2 ^ 31.

(** ** Properties *)

(** *** Numerals *)

Lemma decimal_snoc ds d : decimal (ds ++ [d]) = decimal ds * 10 + (d - 48).
Proof. unfold decimal. by rewrite fold_left_app. Qed.

Lemma decimal_nonneg ds : Forall is_digit ds -> 0 <= decimal ds.
Proof.
  induction ds as [|d ds IH] using rev_ind; [done|]. intros [Hds Hd]%Forall_app.
  rewrite decimal_snoc. rewrite Forall_singleton in Hd. unfold is_digit in Hd. specialize (IH Hds). lia.
Qed.

Lemma decimal_mono ds ds' : Forall is_digit (ds ++ ds') -> decimal ds <= decimal (ds ++ ds').
Proof.
  induction ds' as [|d ds' IH] using rev_ind; [by rewrite app_nil_r|].
  rewrite app_assoc. intros [Hds Hd]%Forall_app. specialize (IH Hds).
  pose proof (decimal_nonneg _ Hds). rewrite Forall_singleton in Hd. unfold is_digit in Hd.
  rewrite decimal_snoc. lia.
Qed.

(** A decimal numeral without value has no leading digit but 0. *)
Lemma decimal_zero_head ds : Forall is_digit ds -> decimal ds = 0 -> ds = [] \/ head ds = Some 48.
Proof.
  intros Hds H0. destruct ds as [|d ds]; [by left|]. right. simpl.
  pose proof (decimal_mono [d] ds Hds) as Hm. change ([d] ++ ds) with (d :: ds) in Hm. rewrite H0 in Hm.
  change (decimal [d]) with (d - 48) in Hm.
  apply Forall_cons in Hds as [Hd _]. unfold is_digit in Hd. f_equal. lia.
Qed.

Lemma numeral_length fuel b n k : 2 <= b -> 0 <= n < b ^ (Z.of_nat k) -> (0 < k)%nat ->
  (length (numeral fuel b n) <= k)%nat.
Proof.
  revert n k. induction fuel as [|fuel IH]; intros n k Hb Hn Hk; simpl; [lia|].
  rewrite length_app. simpl. destruct (Z.ltb_spec n b) as [|Hge]; [simpl; lia|].
  destruct k as [|[|k]]; [lia|rewrite Z.pow_1_r in Hn; lia|].
  enough (length (numeral fuel b (n / b)) <= S k)%nat by lia. apply IH; [done| |lia].
  rewrite Nat2Z.inj_succ, Z.pow_succ_r in Hn by lia. split; [apply Z.div_pos; lia|].
  apply Z.div_lt_upper_bound; lia.
Qed.

Lemma numeral_decimal fuel n : 0 <= n < 10 ^ (Z.of_nat fuel) -> (0 < fuel)%nat ->
  Forall is_digit (numeral fuel 10 n) /\ numeral fuel 10 n <> [] /\ decimal (numeral fuel 10 n) = n.
Proof.
  revert n. induction fuel as [|fuel IH]; intros n Hn Hf; [lia|]. simpl.
  pose proof (Z.mod_pos_bound n 10 eq_refl) as Hm. pose proof (Z.div_mod n 10) as Hd.
  assert (digit_char (n mod 10) = 48 + n mod 10) as Hc by (unfold digit_char; by zbool). rewrite Hc.
  assert (is_digit (48 + n mod 10)) by (unfold is_digit; lia).
  destruct (Z.ltb_spec n 10) as [Hlt|Hge].
  - split; [by apply Forall_singleton|]. split; [done|]. unfold decimal. simpl. rewrite Z.mod_small by lia. lia.
  - rewrite Nat2Z.inj_succ, Z.pow_succ_r in Hn by lia.
    assert (0 < fuel)%nat by (destruct fuel; [simpl in Hn; lia|lia]).
    destruct (IH (n / 10)) as (Ha & Hne & Hv); [|done|].
    { split; [apply Z.div_pos; lia|apply Z.div_lt_upper_bound; lia]. }
    split; [by apply Forall_app; rewrite Forall_singleton|]. split; [by destruct (numeral fuel 10 (n / 10))|].
    rewrite decimal_snoc, Hv. lia.
Qed.

Lemma hex_digit d : 0 <= d < 16 -> hex_digits !! Z.to_nat d = Some (digit_char d) /\ 0 < digit_char d < 256.
Proof.
  intros Hd. assert (d ∈ seqZ 0 16) as Hin by (apply elem_of_seqZ; lia).
  assert (Forall (fun d => hex_digits !! Z.to_nat d = Some (digit_char d) /\ 0 < digit_char d < 256) (seqZ 0 16))
    as Hall by by repeat constructor.
  rewrite Forall_forall in Hall. by apply Hall.
Qed.

Lemma numeral_chars fuel b n : 2 <= b <= 16 -> Forall (fun c => 0 < c < 256) (numeral fuel b n).
Proof.
  intros Hb. revert n. induction fuel as [|fuel IH]; intros n; simpl; [constructor|].
  apply Forall_app. split; [by destruct (n <? b)|]. repeat constructor;
  apply hex_digit; pose proof (Z.mod_pos_bound n b); lia.
Qed.

(** *** Printing *)

(** What [__vprintf] asks of its client: the function takes the data it is sent
    after what it was sent before. *)
Class Sink {C : Type} (sendfunc : list Z -> M C unit) (Sent : list Z -> C -> Prop) :=
  sink_send out c data : Sent out c ->
    runs (sendfunc data) c (fun _ c' => Sent (out ++ data) c') (fun _ _ => False).

Definition counted (n : Z) (f : PF) : PF := set_charcount (i32 (charcount f + n)) f.

Lemma i32_add_l a b : i32 (i32 a + b) = i32 (a + b).
Proof.
  unfold i32. f_equal.
  replace ((a + 2 ^ 31) mod 2 ^ 32 - 2 ^ 31 + b + 2 ^ 31) with ((a + 2 ^ 31) mod 2 ^ 32 + b) by lia.
  rewrite Z.add_mod_idemp_l by done. f_equal. lia.
Qed.

Lemma counted_counted m n f : counted m (counted n f) = counted (n + m) f.
Proof. destruct f. unfold counted, set_charcount. simpl. f_equal. rewrite i32_add_l. f_equal. lia. Qed.

(** How a field state lays out a prefix and a body. *)
Definition layout (f : PF) (prefix body : list Z) : list Z :=
  let fill := replicate (Z.to_nat (spacing f) - (length prefix + length body)) (u8 (fillchar f)) in
  if rightspc f then prefix ++ body ++ fill
  else if fillchar f =? 48 then prefix ++ fill ++ body
  else fill ++ prefix ++ body.

(** *** Fields *)

Definition idle (l : list arg) (n : Z) : PF := mk_pf l n false INTSZ 0 0 0 false 32 0 false false.

(** The state in a field of which the modifiers [mods] were seen. *)
Record in_field (mods : list Z) (l : list arg) (n : Z) (f : PF) : Prop := {
  if_ap : ap f = l;
  if_count : charcount f = n;
  if_pct : in_pct f = true;
  if_sign : sign f = 0;
  if_prefix : baseprefix f = false;
  if_alt : altformat f = alternate mods;
  if_left : rightspc f = left_aligned mods;
  if_fill : fillchar f = if zero_filled mods then 48 else 32;
  if_width : spacing f = width mods;
}.

Lemma modifier_lookup ch : 0 < ch < 256 -> exists o,
  strchr modifier_chars (char ch) = Some o /\ (is_Some o <-> ch ∈ modifiers).
Proof.
  intros Hc. set (P := fun ch => (ch =? 0) || match strchr modifier_chars (char ch) with
    | Some o => bool_decide (is_Some o <-> ch ∈ modifiers) | None => false end).
  assert (P ch = true) as Hb by (apply byte_cases; [by vm_compute|lia]). unfold P in Hb. zbool_in Hb.
  destruct (strchr modifier_chars (char ch)) as [o|]; [|done]. exists o. by apply bool_decide_eq_true in Hb.
Qed.

Lemma integer_lookup ch : 0 < ch < 256 -> exists o,
  strchr integer_chars (char ch) = Some o /\ (is_Some o <-> ch ∈ [100; 111; 117; 112; 120]).
Proof.
  intros Hc. set (P := fun ch => (ch =? 0) || match strchr integer_chars (char ch) with
    | Some o => bool_decide (is_Some o <-> ch ∈ [100; 111; 117; 112; 120]) | None => false end).
  assert (P ch = true) as Hb by (apply byte_cases; [by vm_compute|lia]). unfold P in Hb. zbool_in Hb.
  destruct (strchr integer_chars (char ch)) as [o|]; [|done]. exists o. by apply bool_decide_eq_true in Hb.
Qed.

Lemma width_digits_ok mods : Forall is_digit (width_digits mods).
Proof. apply Forall_forall. intros c. unfold width_digits. by rewrite list_elem_of_filter; intros [? _]. Qed.

Lemma width_nonneg mods : 0 <= width mods.
Proof. apply decimal_nonneg, width_digits_ok. Qed.

Lemma width_prefix mods mods' : width mods <= width (mods ++ mods').
Proof.
  unfold width. pose proof (width_digits_ok (mods ++ mods')) as H. unfold width_digits in *.
  rewrite filter_app in *. by apply decimal_mono.
Qed.

Lemma layout_justify mods l n f prefix body : in_field mods l n f ->
  layout f prefix body = justify mods prefix body.
Proof.
  intros []. unfold layout, justify. rewrite if_left0, if_width0, if_fill0.
  by destruct (zero_filled mods), (left_aligned mods).
Qed.

(** A digit that is not the leading one does not change the fill character. *)
Lemma zero_filled_snoc mods d : is_digit d -> 0 < width mods \/ d <> 48 ->
  zero_filled (mods ++ [d]) = zero_filled mods.
Proof.
  intros Hd Hc. unfold zero_filled, width, width_digits in *. rewrite filter_app.
  assert (filter (fun c => 48 <= c <= 57) [d] = [d]) as -> by by (rewrite filter_cons_True).
  destruct (filter (fun c => 48 <= c <= 57) mods) as [|e ds]; [|done]. simpl in *.
  apply bool_decide_eq_false. intros [= ->]. destruct Hc as [Hc|Hc]; [by vm_compute in Hc|done].
Qed.

Lemma zero_filled_lead mods : width mods = 0 -> zero_filled (mods ++ [48]) = true.
Proof.
  intros H0. unfold zero_filled. apply bool_decide_eq_true.
  destruct (decimal_zero_head _ (width_digits_ok mods) H0) as [Hn|Hn];
    unfold width_digits in *; rewrite filter_app; [by rewrite Hn|].
  by destruct (filter _ mods).
Qed.

Lemma width_snoc mods d : is_digit d -> width (mods ++ [d]) = width mods * 10 + (d - 48).
Proof.
  intros Hd. unfold width, width_digits. rewrite filter_app.
  assert (filter (fun c => 48 <= c <= 57) [d] = [d]) as -> by by (rewrite filter_cons_True). apply decimal_snoc.
Qed.

Lemma other_snoc mods c : ~ is_digit c ->
  width (mods ++ [c]) = width mods /\ zero_filled (mods ++ [c]) = zero_filled mods.
Proof.
  intros Hc. unfold width, zero_filled, width_digits. rewrite filter_app.
  assert (filter (fun c => 48 <= c <= 57) [c] = []) as -> by by (rewrite filter_cons_False).
  by rewrite app_nil_r.
Qed.

Lemma flag_snoc mods c d : bool_decide (c ∈ mods ++ [d]) = bool_decide (c ∈ mods) || (c =? d).
Proof.
  rewrite (bool_decide_ext _ (c ∈ mods \/ c = d)) by set_solver. rewrite bool_decide_or. f_equal.
  by destruct (Z.eqb_spec c d); [apply bool_decide_eq_true|apply bool_decide_eq_false].
Qed.

Section printing.
Context {C : Type} (sendfunc : list Z -> M C unit) (Sent : list Z -> C -> Prop) `{!Sink sendfunc Sent}.

(** [m] prints [t] and changes nothing but the count. *)
Definition prints (m : M (PF * C) unit) (f : PF) (t : list Z) : Prop :=
  counted 0 f = f -> forall out c, Sent out c ->
  runs m (f, c) (fun _ p => p.1 = counted (Z.of_nat (length t)) f /\ Sent (out ++ t) p.2) (fun _ _ => False).

Lemma prints_skip f : prints (ret tt) f [].
Proof. intros H0 out c Hs. run. rewrite app_nil_r. by split. Qed.

Lemma prints_seq m k f t t' : prints m f t -> prints k (counted (Z.of_nat (length t)) f) t' ->
  prints (m ;;; k) f (t ++ t').
Proof.
  intros Hm Hk H0 out c Hs. apply runs_bind.
  eapply runs_mono; [by apply Hm| |done]. intros [] [f' c'] [Hf Hs']. simpl in Hf, Hs'. subst f'.
  eapply runs_mono; [apply Hk; [|done]| |done].
  - rewrite counted_counted. f_equal. lia.
  - intros [] [f' c''] [Hf Hs'']. simpl in *. subst f'. rewrite counted_counted, length_app, <- Nat2Z.inj_add.
    split; [done|]. by rewrite app_assoc.
Qed.

Lemma prints_print f t : prints (__pf_print sendfunc t) f t.
Proof.
  intros _ out c Hs. unfold __pf_print. run. eapply runs_mono; [by apply sink_send| |done].
  intros [] c' Hc. run. by split.
Qed.

Lemma prints_each {A} (l : list A) c f :
  prints (for_each l (fun _ => __pf_print sendfunc [c])) f (replicate (length l) c).
Proof.
  revert f. induction l as [|x l IH]; intros f; simpl; [apply prints_skip|].
  apply (prints_seq _ _ _ [c]); [apply prints_print|apply IH].
Qed.

Lemma prints_fill spc f : prints (__pf_fill sendfunc spc) f (replicate (Z.to_nat spc) (u8 (fillchar f))).
Proof.
  unfold __pf_fill. intros H0 out c Hs. run. pose proof (prints_each (seqZ 0 spc) (u8 (fillchar f)) f) as Hp.
  rewrite length_seqZ in Hp. by apply Hp.
Qed.

Lemma prints_fill_if (b : bool) spc f :
  prints (if b then __pf_fill sendfunc spc else ret tt) f
    (if b then replicate (Z.to_nat spc) (u8 (fillchar f)) else []).
Proof. destruct b; [apply prints_fill|apply prints_skip]. Qed.

Lemma string_text_inv s w : string_text s = Some w ->
  strlen s = Some (Z.of_nat (length w)) /\ take (length w) s = w.
Proof.
  unfold string_text, strlen. intros H.
  assert (forall k n, strlen_from k s = Some n -> exists m, n = k + Z.of_nat m /\ (m <= length s)%nat) as Hl.
  { clear H. induction s as [|c s IH]; intros k n; simpl; [done|]. destruct (c =? 0).
    - intros [= <-]. exists 0%nat. lia.
    - intros (m & -> & Hm)%IH. exists (S m). lia. }
  destruct (strlen_from 0 s) as [n|] eqn:E; [|done]. injection H as <-.
  destruct (Hl _ _ E) as (m & -> & Hm). rewrite Z.add_0_l, Nat2Z.id, length_take_le by done. done.
Qed.

Lemma is_str_text s w : is_str s w -> string_text s = Some w.
Proof.
  intros Hs. unfold string_text. rewrite (strlen_spec _ w Hs). simpl. rewrite Nat2Z.id.
  destruct Hs as [_ [r ->]]. by rewrite take_app_length.
Qed.

Lemma prints_stuff f p1 p2 p3 w1 w2 w3 :
  string_text p1 = Some w1 -> string_text p2 = Some w2 -> string_text p3 = Some w3 ->
  Z.of_nat (length (w1 ++ w2) + length w3) < 2 ^ 31 ->
  prints (__pf_printstuff sendfunc p1 p2 p3) f (layout f (w1 ++ w2) w3).
Proof.
  intros [Hl1 Ht1]%string_text_inv [Hl2 Ht2]%string_text_inv [Hl3 Ht3]%string_text_inv Hlen.
  unfold __pf_printstuff, defined. rewrite Hl1, Hl2, Hl3. intros H0 out c Hs.
  do 8 step. rewrite !Nat2Z.id, Ht1, Ht2, Ht3.
  rewrite length_app in Hlen. rewrite u32_small, i32_small by lia.
  set (len := Z.of_nat (length w1) + Z.of_nat (length w2) + Z.of_nat (length w3)).
  set (spc := if spacing f >? len then spacing f - len else 0).
  set (fill := replicate (Z.to_nat spc) (u8 (fillchar f))).
  assert (layout f (w1 ++ w2) w3 =
    (if (spc >? 0) && negb (rightspc f) && negb (fillchar f =? 48) then fill else []) ++ w1 ++ w2 ++
    (if (spc >? 0) && negb (rightspc f) && (fillchar f =? 48) then fill else []) ++ w3 ++
    (if (spc >? 0) && rightspc f then fill else [])) as ->.
  { unfold layout. rewrite length_app.
    replace (Z.to_nat (spacing f) - (length w1 + length w2 + length w3))%nat with (Z.to_nat spc).
    2: { unfold spc. destruct (Z.gtb_spec (spacing f) len); unfold len in *; lia. }
    fold fill. destruct (Z.gtb_spec spc 0) as [Hp|Hp].
    - destruct (rightspc f), (fillchar f =? 48); simpl; by rewrite ?app_nil_r, <- ?app_assoc.
    - assert (fill = []) as -> by (unfold fill; assert (Z.to_nat spc = 0%nat) as -> by lia; done).
      destruct (rightspc f), (fillchar f =? 48); simpl; by rewrite ?app_nil_r, <- ?app_assoc. }
  revert out c Hs. revert H0. apply prints_seq; [apply prints_fill_if|].
  apply prints_seq; [apply prints_print|]. apply prints_seq; [apply prints_print|].
  apply prints_seq; [apply prints_fill_if|].
  apply prints_seq; [apply prints_print|]. apply prints_fill_if.
Qed.

(** The digits are stored from right to left, inside the buffer. *)
Lemma printnum_loop_spec fuel b buf x xnum (p : PF * C) :
  2 <= b <= 16 -> 0 <= xnum < b ^ Z.of_nat fuel -> (0 < fuel)%nat ->
  Z.of_nat (length (numeral fuel b xnum)) <= x + 1 -> x < Z.of_nat (length buf) ->
  runs (printnum_loop fuel b buf x xnum) p
    (fun r p' => p' = p /\ 0 <= r.2 + 1 /\
       drop (Z.to_nat (r.2 + 1)) r.1 = numeral fuel b xnum ++ drop (Z.to_nat (x + 1)) buf)
    (fun _ _ => False).
Proof.
  intros Hb. revert buf x xnum. induction fuel as [|fuel IH]; intros buf x xnum Hn Hf Hlen Hx; [lia|].
  cbn [printnum_loop]. zbool. simpl in Hlen. rewrite length_app in Hlen. simpl in Hlen.
  pose proof (Z.mod_pos_bound xnum b) as Hm.
  destruct (hex_digit (xnum mod b)) as [-> _]; [lia|]. unfold defined.
  do 4 step; [by zbool|].
  assert (drop (Z.to_nat x) (<[Z.to_nat x:=digit_char (xnum mod b)]> buf) =
    digit_char (xnum mod b) :: drop (Z.to_nat (x + 1)) buf) as Hd.
  { replace (Z.to_nat (x + 1)) with (S (Z.to_nat x)) by lia.
    erewrite drop_S by (apply list_lookup_insert_eq; lia). f_equal. by rewrite drop_insert_lt by lia. }
  pose proof (Z.div_mod xnum b) as Hdm. simpl numeral. destruct (Z.ltb_spec xnum b) as [Hlt|Hge].
  - rewrite Z.div_small by lia. simpl. run. replace (x - 1 + 1) with x by lia. conj.
  - assert (1 <= xnum / b) by (apply Z.div_le_lower_bound; lia). zbool.
    rewrite Nat2Z.inj_succ, Z.pow_succ_r in Hn by lia.
    assert (xnum / b < b ^ Z.of_nat fuel) by (apply Z.div_lt_upper_bound; lia).
    assert (0 < fuel)%nat by (destruct fuel; [simpl in *; lia|lia]).
    eapply runs_mono; [apply IH; [lia|done|lia|rewrite length_insert; lia]| |done].
    intros [buf' x'] p' (-> & Hx' & Hr). simpl in *. split; [done|]. split; [done|].
    rewrite Hr, <- app_assoc. replace (x - 1 + 1) with x by lia. by rewrite Hd.
Qed.

#[local] Arguments numeral : simpl never.

Definition base_prefix (f : PF) : list Z :=
  if baseprefix f && (base f =? 16) then [48; 120] else if baseprefix f && (base f =? 8) then [48] else [].

Lemma prints_num f : base f ∈ [8; 10; 16] -> 0 <= num f < 2 ^ 32 ->
  prints (__pf_printnum sendfunc) f
    (layout f ((if sign f =? 0 then [] else [45]) ++ base_prefix f) (numeral 32 (base f) (num f))).
Proof.
  intros Hb Hn H0 out c Hs. unfold __pf_printnum. do 3 step.
  assert (8 <= base f <= 16) as Hb'.
  { rewrite !elem_of_cons, elem_of_nil in Hb. lia. }
  assert (base f ^ 11 >= 2 ^ 32) by (pose proof (Z.pow_le_mono_l 8 (base f) 11); lia).
  assert (length (numeral 32 (base f) (num f)) <= 11)%nat as Hl by (apply numeral_length; lia).
  assert (base f ^ 32 >= 2 ^ 32) by (pose proof (Z.pow_le_mono_l 8 (base f) 32); lia).
  eapply runs_mono; [apply printnum_loop_spec; [lia|lia|lia| |]| |done].
  { change (NUMBER_BUF_SIZE - 2 + 1) with 11. lia. }
  { by rewrite length_replicate. }
  intros [buf x] p' (-> & Hx & Hr). cbn [fst snd] in Hx, Hr. cbn beta iota zeta. rewrite Hr.
  apply (prints_stuff f); [| | | |done|done].
  - destruct (sign f =? 0); simpl; reflexivity.
  - unfold base_prefix. by destruct (baseprefix f), (base f =? 16), (base f =? 8).
  - apply is_str_text. split; [apply numeral_chars; lia|]. by exists [].
  - rewrite length_app. destruct (sign f =? 0); cbn [length];
    assert (length (base_prefix f) <= 2)%nat by (unfold base_prefix; repeat destruct (_ && _); simpl; lia); lia.
Qed.

Lemma modifier_range ch : ch ∈ modifiers -> 0 < ch < 128.
Proof. unfold modifiers. rewrite !elem_of_cons, elem_of_nil. lia. Qed.

Lemma char_small c : 0 < c < 128 -> char c = c.
Proof. intros. unfold char. by zbool. Qed.

Lemma modifier_step mods l n f (c : C) ch : in_field mods l n f -> ch ∈ modifiers ->
  width (mods ++ [ch]) < 2 ^ 31 ->
  runs (__pf_modifier ch) (f, c) (fun _ p => in_field (mods ++ [ch]) l n p.1 /\ p.2 = c) (fun _ _ => False).
Proof.
  intros [] Hch Hw. pose proof (modifier_range _ Hch). pose proof (width_nonneg mods) as Hw0.
  unfold __pf_modifier. do 2 step.
  unfold modifiers in Hch. rewrite !elem_of_cons, elem_of_nil in Hch.
  destruct (decide (48 <= ch)) as [Hge|Hlt].
  - destruct (decide (ch <= 57)) as [Hd|Hd].
    + zbool. rewrite if_width0. rewrite width_snoc in Hw by done.
      assert (forall f', spacing f' = width mods * 10 + (ch - 48) -> fillchar f' =
        (if zero_filled (mods ++ [ch]) then 48 else 32) -> ap f' = l -> charcount f' = n -> in_pct f' = true ->
        sign f' = 0 -> baseprefix f' = false -> altformat f' = altformat f -> rightspc f' = rightspc f ->
        in_field (mods ++ [ch]) l n f') as Hin.
      { intros f' Hs Hf Ha Hc Hp Hsg Hb Hal Hr. split; try done.
        - rewrite Hal, if_alt0. unfold alternate. rewrite flag_snoc. zbool. by rewrite orb_false_r.
        - rewrite Hr, if_left0. unfold left_aligned. rewrite flag_snoc. zbool. by rewrite orb_false_r.
        - by rewrite width_snoc. }
      destruct (Z.eqb_spec ch 48) as [->|Hne].
      * destruct (Z.gtb_spec (width mods) 0) as [Hp|Hp]; run; (split; [|done]); apply Hin; try done; simpl.
        -- rewrite i32_small by lia. lia.
        -- by rewrite zero_filled_snoc by (by left || done).
        -- lia.
        -- by rewrite zero_filled_lead by lia.
      * run; [by zbool|]. split; [|done]. apply Hin; try done; simpl.
        -- by rewrite i32_small by lia.
        -- by rewrite zero_filled_snoc by (by right || done).
    + destruct (other_snoc mods ch) as [Hw' Hz]; [unfold is_digit; lia|].
      assert (forall f', f' = f \/ (exists z, f' = set_intsize z f) -> in_field (mods ++ [ch]) l n f') as Hin.
      { intros f' Hf. assert (in_field mods l n f') as [] by (destruct Hf as [-> |[z ->]]; by split).
        split; try done; rewrite ?Hw', ?Hz; try done.
        - rewrite if_alt1. unfold alternate. rewrite flag_snoc. zbool. by rewrite orb_false_r.
        - rewrite if_left1. unfold left_aligned. rewrite flag_snoc. zbool. by rewrite orb_false_r. }
      zbool. destruct (Z.eqb_spec ch 108); [destruct (size f)|zbool]; run; (split; [|done]); apply Hin; eauto.
  - destruct (other_snoc mods ch) as [Hw' Hz]; [unfold is_digit; lia|].
    assert (ch = 35 \/ ch = 45) as [-> | ->] by lia; zbool; run; (split; [|done]);
      split; try done; rewrite ?Hw', ?Hz; try done; unfold alternate, left_aligned; rewrite flag_snoc; simpl;
      by rewrite ?orb_false_r, ?orb_true_r.
Qed.

Lemma send_modifier mods l n f (c : C) ch : in_field mods l n f -> ch ∈ modifiers ->
  width (mods ++ [ch]) < 2 ^ 31 ->
  runs (__pf_send sendfunc (char ch)) (f, c)
    (fun _ p => in_field (mods ++ [ch]) l n p.1 /\ p.2 = c) (fun _ _ => False).
Proof.
  intros Hf Hch Hw. pose proof (modifier_range _ Hch). destruct (modifier_lookup ch) as (o & Hl & Ho); [lia|].
  destruct (proj2 Ho Hch) as [i ->]. unfold __pf_send. rewrite Hl.
  rewrite char_small by done. do 2 step; [by zbool|].
  do 2 step.
  rewrite (if_pct _ _ _ _ Hf). cbn [negb andb]. unfold defined. do 2 step.
  by apply modifier_step.
Qed.

Lemma field_end m f t out c : prints m f t -> counted 0 f = f -> Sent out c ->
  runs (m ;;; on_fst (modify __pf_endfield)) (f, c)
    (fun _ p => p.1 = idle (ap f) (i32 (charcount f + Z.of_nat (length t))) /\ Sent (out ++ t) p.2)
    (fun _ _ => False).
Proof.
  intros Hm H0 Hs. apply runs_bind. eapply runs_mono; [by apply Hm| |done].
  intros [] [f' c'] [Hf Hs']. simpl in *. subst f'. run. by split.
Qed.

Lemma justify_length mods prefix body : (length prefix + length body <= length (justify mods prefix body))%nat.
Proof. unfold justify. destruct (left_aligned mods), (zero_filled mods); rewrite !length_app; lia. Qed.

Lemma string_field mods l n f s t out c : in_field mods l n f -> i32 n = n -> string_text s = Some t ->
  Z.of_nat (length (justify mods [] t)) < 2 ^ 31 -> Sent out c ->
  runs (__pf_printstuff sendfunc [0] [0] s ;;; on_fst (modify __pf_endfield)) (f, c)
    (fun _ p => p.1 = idle (ap f) (i32 (n + Z.of_nat (length (justify mods [] t)))) /\
       Sent (out ++ justify mods [] t) p.2)
    (fun _ _ => False).
Proof.
  intros Hf Hn Hs Hlen Hsent. rewrite <- (if_count _ _ _ _ Hf), <- (layout_justify _ _ _ f) in * by done.
  apply field_end; [| |done].
  - apply (prints_stuff f _ _ _ [] [] t); try done.
    rewrite (layout_justify _ _ _ _ _ _ Hf) in Hlen. pose proof (justify_length mods [] t). simpl in *. lia.
  - destruct f. unfold counted, set_charcount. simpl in *. by rewrite Z.add_0_r, Hn.
Qed.

(** The steps of an integer field: the number and the base are set, and the
    number is printed. *)
Lemma getnum_eq f (c : C) ch a l' : ap f = AInt a :: l' -> sign f = 0 ->
  ch ∈ [100; 111; 117; 112; 120] ->
  __pf_getnum ch (f, c) =
    (Ret tt, (set_number (if ch =? 100 then Z.abs (i32 a) else u32 a)
                (if (ch =? 100) && (i32 a <? 0) then -1 else 0) (set_ap l' f), c)).
Proof.
  intros Ha Hsg Hch. destruct f as [ap0 cc pct sz n0 sg]. simpl in Ha, Hsg. subst ap0 sg.
  pose proof (i32_range a) as Hr. rewrite !elem_of_cons, elem_of_nil in Hch.
  unfold __pf_getnum, va_word. destruct (Z.eqb_spec ch 100) as [->|Hne].
  - unfold bind, gets, on_fst, zoom, modify. change (100 =? 112) with false. change (100 =? 100) with true.
    destruct sz; cbn -[u32 i32]; destruct (Z.ltb_spec (i32 a) 0); cbn -[u32 i32]; rewrite u32_small by lia;
      unfold set_number, set_ap; cbn -[u32 i32]; do 3 f_equal; lia.
  - destruct (Z.eqb_spec ch 112) as [->|]; [done|]. cbn -[u32 i32]. by destruct sz.
Qed.

Lemma setbase_eq f (c : C) ch : baseprefix f = false -> ch ∈ [100; 111; 117; 112; 120] ->
  __pf_setbase ch (f, c) =
    (Ret tt, (set_baseprefix (altformat f || (ch =? 112))
       (set_base (if (ch =? 100) || (ch =? 117) then 10 else if ch =? 111 then 8 else 16) f), c)).
Proof.
  intros Hb Hch. destruct f as [? ? ? ? ? ? ? ? ? ? bp alt]. simpl in Hb. subst bp.
  rewrite !elem_of_cons, elem_of_nil in Hch. unfold __pf_setbase.
  destruct Hch as [->|[->|[->|[->|[->|[]]]]]]; by destruct alt.
Qed.

Lemma number_field mods n f ch a l' : in_field mods (AInt a :: l') n f -> i32 n = n ->
  ch ∈ [100; 111; 117; 112; 120] -> forall out c, Sent out c ->
  let v := if ch =? 100 then Z.abs (i32 a) else u32 a in
  let b := if (ch =? 100) || (ch =? 117) then 10 else if ch =? 111 then 8 else 16 in
  let prefix := if ch =? 100 then if i32 a <? 0 then [45] else [] else
    if ch =? 117 then [] else if ch =? 112 then [48; 120] else
    if alternate mods then if ch =? 111 then [48] else [48; 120] else [] in
  let t := justify mods prefix (numeral 32 b v) in
  runs (__pf_getnum ch ;;; __pf_setbase ch ;;; __pf_printnum sendfunc ;;; on_fst (modify __pf_endfield)) (f, c)
    (fun _ p => p.1 = idle l' (i32 (n + Z.of_nat (length t))) /\ Sent (out ++ t) p.2) (fun _ _ => False).
Proof.
  intros Hf Hn Hch out c Hs v b prefix t. pose proof Hf as [].
  apply runs_bind. eapply runs_intro_ret; [by apply getnum_eq|].
  apply runs_bind. eapply runs_intro_ret; [by apply setbase_eq|].
  set (f' := set_baseprefix _ _). fold v b in f'.
  assert (t = layout f' ((if sign f' =? 0 then [] else [45]) ++ base_prefix f') (numeral 32 (base f') (num f'))) as ->.
  { unfold t. rewrite <- (layout_justify _ _ _ _ _ _ Hf).
    change (layout f' _ (numeral 32 (base f') (num f'))) with
      (layout f ((if sign f' =? 0 then [] else [45]) ++ base_prefix f') (numeral 32 b v)).
    f_equal. unfold prefix, base_prefix, f', b. cbn -[u32 i32 Z.eqb]. rewrite if_alt0.
    rewrite !elem_of_cons, elem_of_nil in Hch.
    destruct Hch as [->|[->|[->|[->|[->|[]]]]]]; simpl; destruct (alternate mods); try done;
      by destruct (i32 a <? 0). }
  change l' with (ap f'). replace n with (charcount f') by done. apply field_end; [| |done].
  - apply prints_num.
    + change (base f') with b. unfold b. destruct (_ || _), (_ =? _); set_solver.
    + change (num f') with v. unfold v. pose proof (i32_range a). pose proof (u32_range a). destruct (_ =? _); lia.
  - unfold counted. change (charcount f') with (charcount f). rewrite if_count0, Z.add_0_r, Hn, <- if_count0. done.
Qed.

Lemma u8_char c : 0 <= c < 256 -> u8 (char c) = c.
Proof.
  intros Hc. unfold char, u8. change (2 ^ 8) with 256. destruct (Z.ltb_spec c 128); [by apply Z.mod_small|].
  replace (c - 256) with (c + -1 * 256) by lia. rewrite Z.mod_add by done. by apply Z.mod_small.
Qed.

Lemma char_eqb c d : 0 < c < 256 -> 0 <= d < 128 -> (char c =? d) = (c =? d).
Proof. intros. unfold char. by destruct (Z.ltb_spec c 128), (Z.eqb_spec c d); zbool. Qed.

(** The type character of a field prints the field's text. *)
Lemma send_field mods l n f ch t l' out c : in_field mods l n f -> i32 n = n ->
  0 < ch < 256 -> ~ ch ∈ modifiers -> field_text mods ch l = Some (t, l') ->
  Z.of_nat (length t) < 2 ^ 31 -> Sent out c ->
  runs (__pf_send sendfunc (char ch)) (f, c)
    (fun _ p => p.1 = idle l' (i32 (n + Z.of_nat (length t))) /\ Sent (out ++ t) p.2) (fun _ _ => False).
Proof.
  intros Hf Hn Hch Hmod Ht Hlen Hs. unfold __pf_send.
  destruct (modifier_lookup ch Hch) as (o & -> & Ho). destruct (integer_lookup ch Hch) as (o' & -> & Ho').
  assert (o = None) as -> by (destruct o; [destruct Hmod; by apply Ho|done]). unfold defined.
  rewrite !char_eqb by lia. do 2 step; [by zbool|].
  do 2 step. rewrite (if_pct _ _ _ _ Hf). cbn [negb andb].
  do 4 step. unfold field_text in Ht.
  destruct (decide (ch ∈ [100; 111; 117; 112; 120])) as [Hint|Hint].
  - destruct (proj2 Ho' Hint) as [i ->]. rewrite decide_False in Ht by set_solver.
    destruct l as [|[a|o] l0]; [done| |by rewrite !elem_of_cons, elem_of_nil in Hint;
      destruct Hint as [->|[->|[->|[->|[->|[]]]]]]].
    rewrite char_small by (rewrite !elem_of_cons, elem_of_nil in Hint; lia).
    pose proof (number_field mods n f ch a l0 Hf Hn Hint out c Hs) as Hr. cbn zeta in Hr.
    rewrite !elem_of_cons, elem_of_nil in Hint.
    destruct Hint as [->|[->|[->|[->|[->|[]]]]]]; cbn -[u32 i32] in Ht, Hr; injection Ht as <- <-; exact Hr.
  - assert (o' = None) as -> by (destruct o'; [destruct Hint; by apply Ho'|done]).
    assert (forall x l1, in_field mods l1 n (set_ap l1 f) /\ (x = u8 x -> string_text [x; 0] =
      Some (if x =? 0 then [] else [x]))) as Hset.
    { intros x l1. split; [by destruct Hf|]. intros _. unfold string_text, strlen. simpl.
      by destruct (x =? 0). }
    destruct (Z.eqb_spec ch 115) as [->|H115]; [|destruct (Z.eqb_spec ch 99) as [->|H99]].
    + rewrite decide_False in Ht by set_solver. destruct l as [|[a|o] l0]; try done. cbn -[null_text] in Ht.
      unfold va_string. do 3 step. rewrite (if_ap _ _ _ _ Hf). do 4 step.
      destruct (match o with Some s => string_text s | None => _ end) as [w|] eqn:Ew; [|done].
      injection Ht as <- <-. apply (string_field mods l0 n (set_ap l0 f) (default null_text o)); try done.
      * by apply (Hset 0).
      * by destruct o.
    + rewrite decide_False in Ht by set_solver. destruct l as [|[a|o] l0]; try done. cbn -[u8] in Ht.
      injection Ht as <- <-. unfold va_word. do 4 step.
      rewrite (if_ap _ _ _ _ Hf). do 4 step.
      apply (string_field mods l0 n (set_ap l0 f) [u8 a; 0]); try done; [by apply (Hset 0)|].
      by apply (Hset (u8 a) l0); unfold u8; rewrite Z.mod_mod.
    + rewrite decide_True in Ht by set_solver. injection Ht as <- <-. do 2 step. rewrite u8_char by lia.
      rewrite <- (if_ap _ _ _ _ Hf). apply (string_field mods l n f [ch; 0]); try done.
      rewrite (proj2 (Hset ch l)); [by zbool|]. unfold u8. by rewrite Z.mod_small by lia.
Qed.

Lemma send_literal l n ch out c : i32 n = n -> 0 < ch < 256 -> ch <> 37 -> Sent out c ->
  runs (__pf_send sendfunc (char ch)) (idle l n, c)
    (fun _ p => p.1 = idle l (i32 (n + 1)) /\ Sent (out ++ [ch]) p.2) (fun _ _ => False).
Proof.
  intros Hn Hch Hne Hs. unfold __pf_send. do 2 step; [by rewrite char_eqb by lia; zbool|]. do 2 step.
  rewrite !char_eqb by lia. cbn [in_pct idle negb andb]. zbool. rewrite u8_char by lia.
  eapply runs_mono; [apply prints_print; [|done]| |done].
  - unfold counted, set_charcount, idle. simpl. by rewrite Z.add_0_r, Hn.
  - done.
Qed.

Lemma send_percent l n c :
  runs (__pf_send sendfunc (char 37)) (idle l n, c)
    (fun _ p => in_field [] l n p.1 /\ p.2 = c) (fun _ _ => False).
Proof. by run. Qed.

Lemma send_modifiers mods mods' l n f c rest Q :
  in_field mods l n f -> mods' ⊆ modifiers -> width (mods ++ mods') < 2 ^ 31 ->
  (forall f', in_field (mods ++ mods') l n f' -> runs (vprintf_loop sendfunc rest) (f', c) Q (fun _ _ => False)) ->
  runs (vprintf_loop sendfunc (mods' ++ rest)) (f, c) Q (fun _ _ => False).
Proof.
  revert mods f. induction mods' as [|m mods' IH]; intros mods f Hf Hm Hw Hk.
  - rewrite app_nil_r in Hk. by apply Hk.
  - assert (m ∈ modifiers) as Hin by set_solver. pose proof (modifier_range _ Hin).
    simpl. zbool. apply runs_bind. rewrite cons_middle, app_assoc in Hw, Hk.
    pose proof (width_prefix (mods ++ [m]) mods').
    eapply runs_mono; [apply (send_modifier mods l n); [done|done|lia]| |done].
    intros [] [f' c'] [Hf' Hc]. simpl in *. subst c'. apply (IH (mods ++ [m])); try done. set_solver.
Qed.

(** The loop prints what the rest of the format stands for. *)
Lemma vprintf_loop_spec ps tail rest l out c t :
  Forall piece_ok ps -> unfinished tail -> render ps l = Some t -> Z.of_nat (length t) < 2 ^ 31 -> Sent out c ->
  runs (vprintf_loop sendfunc (format_text ps ++ tail ++ 0 :: rest)) (idle l (i32 (Z.of_nat (length out))), c)
    (fun _ p => charcount p.1 = i32 (Z.of_nat (length (out ++ t))) /\ Sent (out ++ t) p.2) (fun _ _ => False).
Proof.
  intros Hps Htail. revert l out c t. induction Hps as [|p ps Hp _ IH]; intros l out c t Ht Hlen Hs.
  - injection Ht as <-. rewrite app_nil_r. destruct Htail as [->|(mods & -> & Hm & Hw)]; [by run|].
    simpl. apply runs_bind. eapply runs_mono; [apply send_percent| |done].
    intros [] [f' c'] [Hf Hc]. simpl in *. subst c'.
    eapply (send_modifiers []); [done|done|done|]. intros f2 Hf2. simpl. run. split; [|done]. apply Hf2.
  - change (format_text (p :: ps)) with (piece_text p ++ format_text ps). rewrite <- app_assoc.
    assert (forall n, i32 (i32 n) = i32 n) as Hi by (intros; apply i32_small, i32_range).
    destruct p as [ch|mods ch]; simpl in Ht, Hp.
    + destruct (render ps l) as [t'|] eqn:Er; [|done]. injection Ht as <-. destruct Hp as [Hch Hne].
      cbn [length piece_text app vprintf_loop] in *. zbool. apply runs_bind.
      eapply runs_mono; [by apply send_literal| |done].
      intros [] [f' c'] [Hf Hs']. simpl in Hf, Hs'. subst f'. rewrite i32_add_l.
      replace (out ++ ch :: t') with ((out ++ [ch]) ++ t') by by rewrite <- app_assoc.
      rewrite <- (Nat2Z.inj_add _ 1), <- (length_app _ [ch]). apply IH; [done|lia|done].
    + destruct Hp as (Hm & Hch & Hnm & Hw). destruct (field_text mods ch l) as [[t1 l1]|] eqn:Ef; [|done].
      simpl in Ht. destruct (render ps l1) as [t2|] eqn:Er; [|done]. injection Ht as <-.
      rewrite length_app in Hlen. cbn [piece_text app vprintf_loop]. change (37 =? 0) with false. cbn iota.
      apply runs_bind. eapply runs_mono; [apply send_percent| |done].
      intros [] [f' c'] [Hf Hc]. simpl in Hf, Hc. subst c'. rewrite <- app_assoc.
      eapply (send_modifiers []); [done|done|done|]. intros f2 Hf2. cbn [app vprintf_loop]. zbool. apply runs_bind.
      eapply runs_mono; [eapply send_field; try done; lia| |done].
      intros [] [f3 c3] [Hf3 Hs3]. simpl in Hf3, Hs3. subst f3. rewrite (app_assoc out), i32_add_l, <- Nat2Z.inj_add, <- length_app.
      apply IH; [done|lia|done].
Qed.

End printing.

Lemma vprintf_runs {C : Type} (sendfunc : list Z -> M C unit) (Sent : list Z -> C -> Prop)
    `{!Sink sendfunc Sent} ps tail rest args t c :
  Forall piece_ok ps -> unfinished tail -> render ps args = Some t -> Z.of_nat (length t) < 2 ^ 31 ->
  Sent [] c ->
  runs (__vprintf sendfunc (format_text ps ++ tail ++ 0 :: rest) args) c
    (fun n c' => n = Z.of_nat (length t) /\ Sent t c') (fun _ _ => False).
Proof.
  intros Hps Htail Ht Hlen Hs.
  pose proof (vprintf_loop_spec sendfunc Sent ps tail rest args [] c t Hps Htail Ht Hlen Hs) as Hr.
  unfold runs, __vprintf in *. fold (idle args 0). change (i32 (Z.of_nat (length []))) with 0 in Hr.
  change (__pf_endfield _) with (idle args 0).
  destruct (vprintf_loop _ _ _) as [[] [f c']]; try done. simpl in *. destruct Hr as [-> Hr].
  rewrite i32_small by lia. done.
Qed.

#[local] Arguments numeral : simpl never.


(** A client that keeps what it is sent. *)
Definition log_send (data : list Z) : M (list Z) unit := modify (fun out => out ++ data).

#[export] Instance log_sink : Sink log_send eq.
Proof. intros out c data <-. by run. Qed.

(** "n=%-4d|%04x|%s|%#o%" *)
Definition sample_format : list piece :=
  [Lit 110; Lit 61; Field [45; 52] 100; Lit 124; Field [48; 52] 120; Lit 124; Field [] 115; Lit 124; Field [35] 111].
Definition sample_args : list arg := [AInt (-42); AInt 255; AStr None; AInt 8].

Lemma sample_format_ok : Forall piece_ok sample_format.
Proof. repeat (apply Forall_cons; split; [conj; set_solver|]). constructor. Qed.


(** Every string is a format: characters and fields, the last one perhaps
    unfinished. *)
Lemma format_split w : Forall (fun c => 0 < c < 256) w ->
  exists ps tail, w = format_text ps ++ tail /\
    (tail = [] \/ exists mods, tail = 37 :: mods /\ mods ⊆ modifiers) /\
    Forall (fun p => match p with
      | Lit c => 0 < c < 256 /\ c <> 37
      | Field mods ch => mods ⊆ modifiers /\ 0 < ch < 256 /\ ~ ch ∈ modifiers
      end) ps.
Proof.
  set (ok := fun p => match p with Lit c => 0 < c < 256 /\ c <> 37
    | Field mods ch => mods ⊆ modifiers /\ 0 < ch < 256 /\ ~ ch ∈ modifiers end).
  intros Hw. enough (forall o, match o with None => True | Some m => m ⊆ modifiers end ->
    exists ps tail, match o with None => w | Some m => 37 :: m ++ w end = format_text ps ++ tail /\
    (tail = [] \/ exists mods, tail = 37 :: mods /\ mods ⊆ modifiers) /\ Forall ok ps) as H by by apply (H None).
  induction Hw as [|c w Hc _ IH]; intros [m|] Hm.
  - exists [], (37 :: m). rewrite app_nil_r. split; [done|]. split; [by eauto|done].
  - exists [], []. split; [done|]. split; [by left|done].
  - destruct (decide (c ∈ modifiers)) as [Hin|Hin].
    + destruct (IH (Some (m ++ [c]))) as (ps & tail & Heq & Ht & Hps); [set_solver|].
      exists ps, tail. rewrite <- Heq, <- app_assoc. done.
    + destruct (IH None I) as (ps & tail & -> & Ht & Hps). exists (Field m c :: ps), tail.
      split; [|by split; [|constructor]]. unfold format_text. simpl. by rewrite <- !app_assoc.
  - destruct (decide (c = 37)) as [->|Hne].
    + destruct (IH (Some [])) as (ps & tail & Heq & Ht & Hps); [set_solver|]. by exists ps, tail.
    + destruct (IH None I) as (ps & tail & -> & Ht & Hps). exists (Lit c :: ps), tail. by split_and!; [|done|constructor].
Qed.

(** *** snprintf *)

(** The buffer that was [b] after [out] was printed to it, of which at most [n]
    characters are kept. *)
Definition snp_sent (n : nat) (b : list Z) (out : list Z) (snp : SNP) : Prop :=
  buflen snp = Z.of_nat n /\ bufpos snp = Z.of_nat (length (take n out)) /\
  buf snp = take n out ++ drop (length (take n out)) b.

Lemma snp_put_spec n b out snp c : (n <= length b)%nat -> snp_sent n b out snp ->
  runs (snp_put c) snp (fun _ snp' => snp_sent n b (out ++ [c]) snp') (fun _ _ => False).
Proof.
  intros Hn (Hl & Hp & Hb). unfold snp_put. do 2 step. rewrite Hl, Hp.
  destruct (Z.ltb_spec (Z.of_nat (length (take n out))) (Z.of_nat n)) as [Hlt|Hge].
  - assert (length out < n)%nat as Ho by (rewrite length_take in Hlt; lia).
    rewrite take_ge in * by lia. do 2 step.
    { rewrite Hb, length_app, length_drop. zbool. done. }
    run. unfold snp_sent. simpl. rewrite Nat2Z.id, take_ge, length_app by (rewrite length_app; simpl; lia).
    split; [done|]. split; [simpl; lia|]. rewrite Hb.
    rewrite insert_app_r_alt, Nat.sub_diag by lia. rewrite <- app_assoc. f_equal.
    destruct (drop (length out) b) as [|x r] eqn:Ed.
    { apply (f_equal length) in Ed. rewrite length_drop in Ed. simpl in Ed. lia. }
    simpl. f_equal. rewrite <- drop_drop, Ed. done.
  - rewrite length_take in Hge. run. unfold snp_sent. rewrite take_app_le by lia. done.
Qed.

Lemma snp_sink n b : (n <= length b)%nat -> Sink __snprintf_send (snp_sent n b).
Proof.
  intros Hn out snp data Hs. unfold __snprintf_send.
  apply (runs_for_each (fun pre _ snp => snp_sent n b (out ++ pre) snp)).
  - by rewrite app_nil_r.
  - intros pre x post snp' _ Hs'. rewrite app_assoc. by apply snp_put_spec.
  - done.
Qed.

Lemma vsnprintf_eq ps tail rest args t len b :
  Forall piece_ok ps -> unfinished tail -> render ps args = Some t -> Z.of_nat (length t) < 2 ^ 31 ->
  0 <= len <= Z.of_nat (length b) ->
  let kept := take (Z.to_nat len - 1) t in
  vsnprintf len (format_text ps ++ tail ++ 0 :: rest) args b =
    (Ret (Z.of_nat (length t)), if len =? 0 then b else kept ++ 0 :: drop (S (length kept)) b).
Proof.
  intros Hps Htail Ht Hlen Hl kept. unfold vsnprintf. set (n := (Z.to_nat len - 1)%nat) in *.
  assert ((if len =? 0 then 0 else len - 1) = Z.of_nat n) as -> by (destruct (Z.eqb_spec len 0); lia).
  assert (n <= length b)%nat as Hn by lia.
  pose proof (vprintf_runs __snprintf_send (snp_sent n b) (Sink0 := snp_sink n b Hn) ps tail rest args t
    (mk_snp b (Z.of_nat n) 0) Hps Htail Ht Hlen) as Hr.
  unfold runs in Hr. destruct (__vprintf _ _ _ _) as [r snp].
  assert (snp_sent n b [] (mk_snp b (Z.of_nat n) 0)) as H0 by (unfold snp_sent; by rewrite take_nil).
  specialize (Hr H0). destruct r as [chars| | |]; try done. destruct Hr as (-> & Hbl & Hp & Hb). fold kept in Hp, Hb.
  assert (length kept <= n)%nat as Hk by (unfold kept; rewrite length_take; lia).
  destruct (Z.eqb_spec len 0) as [->|Hne]; zbool.
  - rewrite Hb. unfold kept, n. simpl. done.
  - rewrite Hp, Hb, length_app, length_drop. zbool. rewrite Nat2Z.id, insert_app_r_alt, Nat.sub_diag by lia.
    do 2 f_equal. destruct (drop (length kept) b) as [|x r] eqn:Ed.
    { apply (f_equal length) in Ed. rewrite length_drop in Ed. simpl in Ed. lia. }
    simpl. rewrite <- Nat.add_1_r, <- drop_drop, Ed. done.
Qed.



(** [atoi] reads back any [int] that [snprintf] prints with "%d". *)
Theorem snprintf_atoi n b len :
  - 2 ^ 31 <= n < 2 ^ 31 -> 12 <= len <= Z.of_nat (length b) ->
  exists k b', snprintf len [37; 100; 0] [AInt n] b = (Ret k, b') /\ atoi b' = Some n.
Proof.
  intros Hn Hlen. set (sgn := if n <? 0 then [45] else []). set (ds := numeral 32 10 (Z.abs n)).
  assert (render [Field [] 100] [AInt n] = Some (sgn ++ ds)) as Ht.
  { cbn -[field_text]. unfold field_text. rewrite decide_False by set_solver. cbn -[numeral i32]. rewrite (i32_small n) by done.
    change (100 =? 100) with true. cbn iota. fold ds sgn. change (Some (justify [] sgn ds ++ []) = Some (sgn ++ ds)).
    rewrite app_nil_r. apply (f_equal Some). reflexivity. }
  destruct (numeral_decimal 32 (Z.abs n)) as (Hd & Hne & Hv); [lia|lia|]. fold ds in Hd, Hne, Hv.
  assert (length ds <= 10)%nat by (apply numeral_length; lia).
  assert (length sgn <= 1)%nat by (unfold sgn; by destruct (n <? 0); simpl; lia).
  eexists _, _. split.
  - apply (vsnprintf_eq [Field [] 100] [] [] [AInt n] (sgn ++ ds)); try done.
    + apply Forall_singleton. split; [set_solver|]. conj. set_solver.
    + by left.
    + rewrite length_app. lia.
    + lia.
  - zbool. rewrite (take_ge (sgn ++ ds)) by (rewrite length_app; lia).
    rewrite (atoi_correct _ [] sgn ds []).
    + f_equal. rewrite Hv. unfold sgn. destruct (Z.ltb_spec n 0); [rewrite decide_True by done|rewrite decide_False by done];
        rewrite i32_small by lia; lia.
    + done.
    + unfold sgn. destruct (n <? 0); set_solver.
    + done.
    + done.
    + done.
    + rewrite app_nil_r. change ([] ++ sgn ++ ds) with (sgn ++ ds). split; [|by eexists].
      apply Forall_app. split; [unfold sgn; by destruct (n <? 0); repeat constructor|].
      eapply Forall_impl; [exact Hd|]. unfold is_digit. simpl. lia.
Qed.

Lemma snprintf_atoi_witness : exists k b',
  snprintf 12 [37; 100; 0] [AInt (- 2 ^ 31)] (replicate 12 7) = (Ret k, b') /\ atoi b' = Some (- 2 ^ 31).
Proof. apply snprintf_atoi; [done|]. rewrite length_replicate. lia. Defined.

(** A string printed with "%s". *)
Lemma snprintf_string x w len b : is_str x w -> Z.of_nat (length w) < 2 ^ 31 -> 0 < len <= Z.of_nat (length b) ->
  let kept := take (Z.to_nat len - 1) w in
  snprintf len [37; 115; 0] [AStr (Some x)] b = (Ret (Z.of_nat (length w)), kept ++ 0 :: drop (S (length kept)) b).
Proof.
  intros Hx Hl Hlen kept. assert (render [Field [] 115] [AStr (Some x)] = Some w) as Hr.
  { cbn -[field_text]. unfold field_text. rewrite decide_False by set_solver. rewrite (is_str_text _ _ Hx). change (115 =? 115) with true. cbn -[justify]. f_equal. rewrite app_nil_r. reflexivity. }
  pose proof (vsnprintf_eq [Field [] 115] [] [] [AStr (Some x)] w len b) as E. unfold snprintf.
  change (format_text [Field [] 115] ++ [] ++ [0]) with [37; 115; 0] in E. rewrite E; try done; [by zbool|..|lia].
  - apply Forall_singleton. split; [set_solver|]. conj. set_solver.
  - by left.
Qed.

(** With both modifiers, the zeros that fill the field come after the number:
    "%-05d" prints 42 as 42000. *)
Lemma left_zero_fill :
  __vprintf log_send [37; 45; 48; 53; 100; 0] [AInt 42] [] = (Ret 5, [52; 50; 48; 48; 48]).
Proof. by vm_compute. Qed.
