(* ===== verification/Heap.v ===== *)
(** The kernel heap as its clients see it: the operations [kmalloc] and [kfree]
    of kern/lib/kheap.c, and the laws every client proof uses.

    [Heap] is the interface; the subpage allocator in KHeap.v is the instance
    the kernel runs on.  [Quota], at the end, is a small closed instance (an
    allocator that can be told when to run out) used to evaluate client code. *)

From Stdlib Require Import ZArith Lia.
From stdpp Require Import prelude gmap list.
From S2P Require Import Prelude.

(** ** The interface *)

Class Heap (H : Type) := {
  (** Address of a fresh block, or [0] (NULL) when memory is exhausted. *)
  kmalloc : Z -> M H Z;
  kfree : Z -> M H unit;
}.

(** [live h] maps the address of each block handed out and not yet freed to the
    size that was asked for. *)
Class HeapLaws (H : Type) `{Heap H} := {
  heap_ok : H -> Prop;
  live : H -> gmap Z Z;
  live_nonnull : forall h p n, heap_ok h -> live h !! p = Some n -> p <> 0;
  live_disjoint : forall h p q n m,
    heap_ok h -> live h !! p = Some n -> live h !! q = Some m -> p <> q ->
    p + n <= q \/ q + m <= p;
  kmalloc_spec : forall h sz, heap_ok h -> 0 <= sz < 2 ^ 31 ->
    runs (kmalloc sz) h
      (fun p h' => heap_ok h' /\
        ((p = 0 /\ live h' = live h) \/
         (p <> 0 /\ live h !! p = None /\ live h' = <[p := sz]> (live h))))
      (fun _ _ => False);
  kfree_null : forall h, heap_ok h -> kfree 0 h = (Ret tt, h);
  kfree_spec : forall h p n, heap_ok h -> live h !! p = Some n ->
    runs (kfree p) h
      (fun _ h' => heap_ok h' /\ live h' = delete p (live h))
      (fun _ _ => False);
}.

(** ** Owned blocks

    [owns h bs]: the blocks [bs], address and size, are live and distinct. *)
Definition owns {H} `{HeapLaws H} (h : H) (bs : list (Z * Z)) : Prop :=
  NoDup bs.*1 /\ forall p n, (p, n) ∈ bs -> live h !! p = Some n.

Section owns.
Context {H : Type} `{HeapLaws H}.
Implicit Types (h : H) (bs : list (Z * Z)).

Lemma owns_nil h : owns h [].
Proof. split; [constructor|]. set_solver. Qed.

Lemma owns_cons_inv h p n bs : owns h ((p, n) :: bs) ->
  live h !! p = Some n /\ owns h bs /\ p ∉ bs.*1.
Proof.
  intros [Hnd Hl]. simpl in Hnd. apply NoDup_cons in Hnd as [Hp Hnd].
  split_and!; [apply Hl; set_solver| |done]. split; [done|]. set_solver.
Qed.

Lemma owns_alloc h h' p n bs :
  owns h bs -> live h !! p = None -> live h' = <[p := n]> (live h) ->
  owns h' ((p, n) :: bs).
Proof.
  intros [Hnd Hl] Hp Hl'. split; simpl.
  - apply NoDup_cons. split; [|done].
    intros ([? m] & -> & Hm)%list_elem_of_fmap. apply Hl in Hm. simpl in *. congruence.
  - intros q m [[= -> ->]|Hq]%elem_of_cons; rewrite Hl'.
    + apply lookup_insert_eq.
    + apply Hl in Hq. rewrite lookup_insert_ne; [done|]. congruence.
Qed.

Lemma owns_same h h' bs : owns h bs -> live h' = live h -> owns h' bs.
Proof. unfold owns. by intros [??] ->. Qed.

Lemma owns_free h h' p n bs :
  owns h ((p, n) :: bs) -> live h' = delete p (live h) -> owns h' bs.
Proof.
  intros (_ & [Hnd Hl] & Hp)%owns_cons_inv Hl'. split; [done|].
  intros q m Hq. rewrite Hl', lookup_delete_ne; [by apply Hl|].
  intros ->. apply Hp. apply list_elem_of_fmap. by exists (q, m).
Qed.

Lemma owns_perm h bs bs' : bs ≡ₚ bs' -> owns h bs -> owns h bs'.
Proof.
  intros Hp [Hnd Hl]. split.
  - by rewrite <- Hp.
  - intros p n. rewrite <- Hp. apply Hl.
Qed.

(** Allocation and release, stated for a client that owns [bs]. *)
Lemma kmalloc_owns h sz bs : heap_ok h -> owns h bs -> 0 <= sz < 2 ^ 31 ->
  runs (kmalloc sz) h
    (fun p h' => heap_ok h' /\
       ((p = 0 /\ owns h' bs /\ live h' = live h) \/
        (p <> 0 /\ owns h' ((p, sz) :: bs) /\ live h' = <[p := sz]> (live h) /\
         live h !! p = None)))
    (fun _ _ => False).
Proof.
  intros Hok Ho Hsz. eapply runs_mono; [by apply kmalloc_spec| |done].
  intros p h' (? & [[-> Hl]|(? & ? & Hl)]); split; auto.
  - left. eauto using owns_same.
  - right. eauto 6 using owns_alloc.
Qed.

Lemma kfree_owns h p n bs : heap_ok h -> owns h ((p, n) :: bs) ->
  runs (kfree p) h
    (fun _ h' => heap_ok h' /\ owns h' bs /\ live h' = delete p (live h))
    (fun _ _ => False).
Proof.
  intros Hok Ho. pose proof (owns_cons_inv _ _ _ _ Ho) as (Hp & _).
  eapply runs_mono; [by eapply kfree_spec| |done].
  intros _ h' [? ?]. eauto using owns_free.
Qed.

(** Some request of a size the kernel makes is answered NULL; [mem_left] is the
    opposite. *)
Definition exhausted (h : H) : Prop := exists sz, 0 <= sz < 2 ^ 31 /\ (kmalloc sz h).1 = Ret 0.
Definition mem_left (h : H) : Prop := forall sz, 0 <= sz < 2 ^ 31 -> (kmalloc sz h).1 <> Ret 0.

Lemma mem_left_not_exhausted h : mem_left h -> ~ exhausted h.
Proof. intros Hm (sz & Hsz & He). by apply (Hm sz). Qed.

Lemma kmalloc_owns_mem h sz bs : heap_ok h -> owns h bs -> 0 <= sz < 2 ^ 31 ->
  runs (kmalloc sz) h
    (fun p h' => heap_ok h' /\
       ((p = 0 /\ owns h' bs /\ live h' = live h /\ exhausted h) \/
        (p <> 0 /\ owns h' ((p, sz) :: bs) /\ live h' = <[p := sz]> (live h) /\
         live h !! p = None)))
    (fun _ _ => False).
Proof.
  intros Hok Ho Hsz. pose proof (kmalloc_owns h sz bs Hok Ho Hsz) as Hr. unfold runs in *.
  destruct (kmalloc sz h) as [[p| | |] h'] eqn:E; try done.
  destruct Hr as [? [(-> & ? & ?)|Hp]]; split; [done| |done|by right].
  left. split_and!; [done..|]. exists sz. by rewrite E.
Qed.

End owns.

(** ** A closed instance

    [Quota]: addresses are handed out upwards, and only [q_left] more
    allocations succeed. *)
Module Quota.

Record heap := mk { q_next : Z; q_left : nat; q_live : gmap Z Z }.

Definition q_kmalloc (sz : Z) : M heap Z := fun h =>
  match q_left h with
  | O => (Ret 0, h)
  | S k => (Ret (q_next h),
            mk (q_next h + sz + 1) k (<[q_next h := sz]> (q_live h)))
  end.

Definition q_kfree (p : Z) : M heap unit := fun h =>
  (Ret tt, mk (q_next h) (q_left h) (delete p (q_live h))).

#[global] Instance quota_heap : Heap heap := { kmalloc := q_kmalloc; kfree := q_kfree }.

Definition q_ok (h : heap) : Prop :=
  0 < q_next h /\
  (forall p n, q_live h !! p = Some n -> 0 < p /\ 0 <= n /\ p + n < q_next h) /\
  (forall p q n m, q_live h !! p = Some n -> q_live h !! q = Some m -> p <> q ->
     p + n <= q \/ q + m <= p).

Definition start (k : nat) : heap := mk 4096 k ∅.

#[global] Program Instance quota_laws : HeapLaws heap :=
  { heap_ok := q_ok; live := q_live }.
Next Obligation. intros h p n (_ & Hb & _) Hp. apply Hb in Hp. lia. Qed.
Next Obligation. intros h p q n m (_ & _ & Hd). apply Hd. Qed.
Next Obligation.
  intros h sz (Hn & Hb & Hd) Hsz. unfold runs; simpl; unfold q_kmalloc.
  destruct (q_left h) as [|k]; simpl; [split; [done|by left]|].
  assert (q_live h !! q_next h = None) as Hf.
  { destruct (q_live h !! q_next h) eqn:E; [|done]. apply Hb in E. lia. }
  split; [|right; split_and!; [lia|done|done]].
  split_and!; simpl; [lia| |].
  - intros p n. rewrite lookup_insert. case_decide; [intros [= <-]; lia|].
    intros Hp. apply Hb in Hp. lia.
  - intros p q n m. rewrite !lookup_insert.
    repeat case_decide; simplify_eq; try lia; intros Hp Hq; simplify_eq.
    + apply Hb in Hq. lia.
    + apply Hb in Hp. lia.
    + by apply Hd.
Qed.
Next Obligation.
  intros h (_ & Hb & _). simpl. unfold q_kfree. f_equal.
  destruct h as [n k l]; f_equal; simpl in *.
  apply delete_id. destruct (l !! 0) eqn:E; [|done]. apply Hb in E. lia.
Qed.
Next Obligation.
  intros h p n (Hn & Hb & Hd) Hp. unfold runs; simpl. split; [|done].
  split_and!; simpl; [done| |].
  - intros q m [? Hq]%lookup_delete_Some. by apply Hb.
  - intros q q' m m' [? Hq]%lookup_delete_Some [? Hq']%lookup_delete_Some.
    by apply Hd.
Qed.

Lemma start_ok k : heap_ok (start k).
Proof. by split_and!. Qed.

End Quota.
