(* ===== verification/Spl.v ===== *)
(** Interrupt priority level: kern/arch/mips/mips/spl.c.

    The kernel runs on one processor and makes code atomic by raising [curspl]
    above 0, which turns interrupts off.  [HasSpl] says where a component's
    state keeps [curspl] and the interrupt-enable bit of the status register,
    so that the routines here run on any such state. *)

From Stdlib Require Import ZArith Lia.
From stdpp Require Import prelude.
From S2P Require Import Prelude.

(** ** Definitions *)

Definition SPL_HIGH : Z := 15.

Record cpu := mk_cpu {
  curspl : Z;
  iec : bool;              (* CST_IEc: interrupts enabled *)
}.

(** The state at startup: interrupts off. *)
Definition cpu_boot : cpu := mk_cpu SPL_HIGH false.

Class HasCpu (S : Type) := {
  cpu_of : S -> cpu;
  with_cpu : cpu -> S -> S;
  cpu_of_with : forall c s, cpu_of (with_cpu c s) = c;
  with_cpu_of : forall s, with_cpu (cpu_of s) s = s;
  with_cpu_with : forall c c' s, with_cpu c (with_cpu c' s) = with_cpu c s;
}.

#[export] Program Instance cpu_has_cpu : HasCpu cpu :=
  { cpu_of := fun c => c; with_cpu := fun c _ => c }.
Solve Obligations with done.

Definition interrupts_on (c : cpu) : cpu := mk_cpu (curspl c) true.
Definition interrupts_off (c : cpu) : cpu := mk_cpu (curspl c) false.

Section spl.
Context {S : Type} `{!HasCpu S}.

Definition splx (newspl : Z) : M S Z :=
  c <- gets cpu_of ;;
  (if newspl >? 0 then modify (fun s => with_cpu (interrupts_off (cpu_of s)) s)
   else if newspl =? 0 then modify (fun s => with_cpu (interrupts_on (cpu_of s)) s)
   else ret tt) ;;;
  modify (fun s => with_cpu (mk_cpu newspl (iec (cpu_of s))) s) ;;;
  ret (curspl c).

Definition splhigh : M S Z := splx SPL_HIGH.
Definition spl0 : M S Z := splx 0.

(** ** What the routines do *)

(** The status bit agrees with [curspl]. *)
Definition spl_ok (c : cpu) : Prop := 0 <= curspl c /\ iec c = (curspl c =? 0).

Lemma splx_eq n (s : S) : 0 <= n ->
  splx n s = (Ret (curspl (cpu_of s)), with_cpu (mk_cpu n (n =? 0)) s).
Proof.
  intros Hn. unfold splx, bind, gets, modify, ret.
  destruct (Z.gtb_spec n 0); zbool; rewrite !with_cpu_with, !cpu_of_with; done.
Qed.

Lemma splhigh_eq (s : S) :
  splhigh s = (Ret (curspl (cpu_of s)), with_cpu (mk_cpu SPL_HIGH false) s).
Proof. unfold splhigh. rewrite splx_eq by (unfold SPL_HIGH; lia). done. Qed.

Lemma spl_ok_eta c : spl_ok c -> mk_cpu (curspl c) (curspl c =? 0) = c.
Proof. intros [_ <-]. by destruct c. Qed.

End spl.
