(* ===== verification/Pages.v ===== *)
(** Pages: the constants of kern/arch/mips/include/vm.h, and the page allocator
    as its clients (the kernel heap, the address spaces) see it.

    [PageAlloc] is the interface of [alloc_kpages] and [free_kpages];
    [PageLaws] states what they promise about the ledger of allocated runs, a
    finite map from the address of a run to its length in pages.  CoreMap.v
    implements it. *)

From Stdlib Require Import ZArith Lia.
From stdpp Require Import prelude gmap list.
From S2P Require Import Prelude Spl.

(** ** Definitions *)

Definition PAGE_SIZE : Z := 4096.
Definition PAGE_FRAME : Z := 0xfffff000.
Definition MIPS_KSEG0 : Z := 0x80000000.
Definition MIPS_KSEG1 : Z := 0xa0000000.
Definition PADDR_TO_KVADDR (paddr : Z) : Z := u32 (paddr + MIPS_KSEG0).

Class PageAlloc (P : Type) := {
  (** Kernel virtual address of a run of pages, or 0. *)
  page_alloc : Z -> M P Z;
  page_free : Z -> M P unit;
}.

(** [pages_ok p G]: the allocator is in a good state and [G] is what it has
    handed out. *)
Class PageLaws (P : Type) `{PageAlloc P} `{HasCpu P} := {
  pages_ok : P -> gmap Z Z -> Prop;
  pages_spl : forall p G, pages_ok p G -> spl_ok (cpu_of p);
  pages_cpu : forall p G c, pages_ok p G -> spl_ok c -> pages_ok (with_cpu c p) G;
  pages_range : forall p G a n, pages_ok p G -> G !! a = Some n ->
    MIPS_KSEG0 <= a /\ a mod 4096 = 0 /\ 0 < n /\ a + 4096 * n <= MIPS_KSEG1;
  pages_disjoint : forall p G a b n m, pages_ok p G ->
    G !! a = Some n -> G !! b = Some m -> a <> b -> a + 4096 * n <= b \/ b + 4096 * m <= a;
  page_alloc_spec : forall p G n, pages_ok p G -> 0 < n ->
    runs (page_alloc n) p
      (fun a p' => (a = 0 /\ pages_ok p' G) \/
         (a <> 0 /\ G !! a = None /\ pages_ok p' (<[a := n]> G) /\ cpu_of p' = cpu_of p))
      (fun _ _ => False);
  page_free_spec : forall p G a n, pages_ok p G -> G !! a = Some n ->
    runs (page_free a) p
      (fun _ p' => pages_ok p' (delete a G) /\ cpu_of p' = cpu_of p) (fun _ _ => False);
}.

(** ** Lemmas *)

Lemma PAGE_FRAME_land t : 0 <= t < 2 ^ 32 -> Z.land t PAGE_FRAME = 4096 * (t / 4096).
Proof.
  intros Ht. replace PAGE_FRAME with (Z.shiftl (Z.ones 20) 12) by done.
  replace (4096 * (t / 4096)) with (Z.shiftl (Z.shiftr t 12) 12)
    by (rewrite Z.shiftl_mul_pow2, Z.shiftr_div_pow2 by lia; change (2 ^ 12) with 4096; lia).
  apply Z.bits_inj'. intros n Hn. rewrite Z.land_spec, !Z.shiftl_spec by done.
  destruct (decide (n < 12)).
  - rewrite !(Z.testbit_neg_r _ (n - 12)) by lia. by rewrite andb_false_r.
  - rewrite Z.shiftr_spec by lia. replace (n - 12 + 12) with n by lia.
    destruct (decide (n < 32)).
    + rewrite Z.ones_spec_low by lia. by rewrite andb_true_r.
    + rewrite <- (Z.mod_small t (2 ^ 32)) by lia.
      rewrite Z.mod_pow2_bits_high by lia. done.
Qed.

Lemma KVADDR_small p : 0 <= p < 2 ^ 31 -> PADDR_TO_KVADDR p = p + MIPS_KSEG0.
Proof. intros. unfold PADDR_TO_KVADDR, MIPS_KSEG0. by rewrite u32_small by lia. Qed.
