(* ===== verification/Array.v ===== *)
(** Resizeable arrays of pointers: kern/lib/array.c.

    [array] is [struct array] together with the [max] slots [v] points at; a
    slot that was allocated and never written holds an indeterminate value,
    [None].  The operations run on the array and on the kernel heap it gets its
    storage from.  [contents] is the abstract list; the theorems say that the
    operations implement list operations on it, that every heap block is
    accounted for, and what [array_preallocate] does and does not guarantee. *)

From Stdlib Require Import ZArith Lia.
From stdpp Require Import prelude gmap list.
From S2P Require Import Prelude Heap.

(** ** Definitions *)

Record array (A : Type) := mk_array {
  a_self : Z;                (* address of the struct itself *)
  num : Z;
  max : Z;
  v : Z;                     (* address of the slots, 0 if none *)
  slots : list (option A);
}.
Arguments mk_array {A}.
Arguments a_self {A}.
Arguments num {A}.
Arguments max {A}.
Arguments v {A}.
Arguments slots {A}.

Definition set_num {A} (n : Z) (a : array A) : array A :=
  mk_array (a_self a) n (max a) (v a) (slots a).
Definition set_slots {A} (l : list (option A)) (a : array A) : array A :=
  mk_array (a_self a) (num a) (max a) (v a) l.

(** [while (nguys > newmax) newmax = (newmax+1)*2;] in [int] arithmetic. *)
Fixpoint grow_max (fuel : nat) (nguys newmax : Z) : option Z :=
  if nguys >? newmax then
    match fuel with
    | O => None
    | S fuel => grow_max fuel nguys (i32 ((newmax + 1) * 2))
    end
  else Some newmax.

(** [for (i=0; i<num; i++) newv[i] = v[i];] *)
Definition copy_slots {A} (n : Z) (old new : list (option A)) : list (option A) :=
  foldl (fun nv i => match old !! i with Some x => <[i := x]> nv | None => nv end)
        new (seq 0 (Z.to_nat n)).

(** [memmove(v+index, v+index+1, nmove*sizeof(void * ))]. *)
Definition shift_down {A} (index nmove : nat) (l : list (option A)) : list (option A) :=
  take index l ++ take nmove (drop (S index) l) ++ drop (index + nmove) l.

Section array_ops.
Context {A H : Type} `{!Heap H}.

Definition array_create : M H (option (array A)) :=
  a <- kmalloc 12 ;;
  if a =? 0 then ret None else ret (Some (mk_array a 0 0 0 [])).

Definition array_getnum : M (array A * H) Z := gets (fun s => num s.1).

Definition array_getguy (index : Z) : M (array A * H) (option A) :=
  a <- gets fst ;;
  assert (num a <=? max a) ;;;
  assert ((0 <=? index) && (index <? num a)) ;;;
  ret (default None (slots a !! Z.to_nat index)).

Definition array_preallocate (nguys : Z) : M (array A * H) unit :=
  a <- gets fst ;;
  assert ((0 <=? num a) && (num a <=? max a)) ;;;
  match grow_max 32 nguys (max a) with
  | None => spin
  | Some newmax =>
      newv <- on_snd (kmalloc (u32 (newmax * 4))) ;;
      if newv =? 0 then fail ENOMEM
      else
        (if v a =? 0 then ret tt else on_snd (kfree (v a))) ;;;
        on_fst (put (mk_array (a_self a) (num a) newmax newv
          (copy_slots (num a) (slots a) (replicate (Z.to_nat newmax) None))))
  end.

Definition array_setsize (nguys : Z) : M (array A * H) unit :=
  a <- gets fst ;;
  assert ((0 <=? num a) && (num a <=? max a)) ;;;
  (if nguys >? max a then array_preallocate nguys
   else if (nguys =? 0) && (max a >? 16) then
     assert (negb (v a =? 0)) ;;;
     on_snd (kfree (v a)) ;;;
     on_fst (put (mk_array (a_self a) (num a) 0 0 []))
   else ret tt) ;;;
  on_fst (modify (set_num nguys)).

Definition array_setguy (index : Z) (ptr : A) : M (array A * H) unit :=
  a <- gets fst ;;
  assert (num a <=? max a) ;;;
  assert ((0 <=? index) && (index <? num a)) ;;;
  on_fst (put (set_slots (<[Z.to_nat index := Some ptr]> (slots a)) a)).

Definition array_add (guy : A) : M (array A * H) unit :=
  ix <- gets (fun s => num s.1) ;;
  array_setsize (i32 (ix + 1)) ;;;
  on_fst (modify (fun a => set_slots (<[Z.to_nat ix := Some guy]> (slots a)) a)).

Definition array_remove (index : Z) : M (array A * H) unit :=
  a <- gets fst ;;
  assert (num a <=? max a) ;;;
  assert ((0 <=? index) && (index <? num a)) ;;;
  let nmove := num a - (index + 1) in
  on_fst (put (set_num (num a - 1)
    (set_slots (shift_down (Z.to_nat index) (Z.to_nat nmove) (slots a)) a))).

Definition array_destroy : M (array A * H) unit :=
  a <- gets fst ;;
  (if v a =? 0 then ret tt else on_snd (kfree (v a))) ;;;
  on_snd (kfree (a_self a)).

End array_ops.

(** ** The abstraction *)

Definition contents {A} (a : array A) : list (option A) := take (Z.to_nat (num a)) (slots a).

(** The heap blocks an array holds on to, with their sizes. *)
Definition blocks {A} (a : array A) : list (Z * Z) :=
  (a_self a, 12) :: if v a =? 0 then [] else [(v a, 4 * max a)].

(** [array_at a h bs]: [a] is a well-formed array on heap [h], next to the
    blocks [bs] of other owners. *)
Definition array_at {A H} `{HeapLaws H} (a : array A) (h : H) (bs : list (Z * Z)) : Prop :=
  heap_ok h /\ 0 <= num a <= max a /\ max a <= 2 ^ 28 /\
  length (slots a) = Z.to_nat (max a) /\
  (0 < max a -> v a <> 0) /\
  owns h (blocks a ++ bs).

(** ** Pure lemmas *)

Lemma grow_max_enough fuel nguys newmax :
  0 <= newmax -> nguys <= 2 ^ 27 -> nguys < (newmax + 1) * 2 ^ Z.of_nat fuel ->
  exists m, grow_max fuel nguys newmax = Some m /\ nguys <= m /\ newmax <= m /\
            (m = newmax \/ m <= 2 * nguys).
Proof.
  revert newmax. induction fuel as [|fuel IH]; intros newmax Hn Hg Hf; simpl.
  - exists newmax. destruct (Z.gtb_spec nguys newmax); [simpl in Hf; lia|].
    split_and!; [done|lia|lia|by left].
  - destruct (Z.gtb_spec nguys newmax) as [Hgt|Hle].
    + rewrite i32_small by lia.
      destruct (IH ((newmax + 1) * 2)) as (m & Hm & ? & ? & ?); [lia|lia| |].
      { rewrite Nat2Z.inj_succ, Z.pow_succ_r in Hf by lia. nia. }
      exists m. split_and!; [done|lia|lia|]. right. lia.
    + exists newmax. split_and!; [done|lia|lia|by left].
Qed.

Lemma grow_max_32 nguys newmax :
  0 <= newmax -> nguys <= 2 ^ 27 ->
  exists m, grow_max 32 nguys newmax = Some m /\ nguys <= m /\ newmax <= m /\
            (m = newmax \/ m <= 2 * nguys).
Proof. intros. apply grow_max_enough; [done..|]. lia. Qed.

Lemma copy_slots_take {A} n (old new : list (option A)) :
  (Z.to_nat n <= length old)%nat -> (Z.to_nat n <= length new)%nat ->
  copy_slots n old new = take (Z.to_nat n) old ++ drop (Z.to_nat n) new.
Proof.
  unfold copy_slots. generalize (Z.to_nat n) as k. clear n. intros k Ho Hn.
  induction k as [|k IH]; [done|].
  rewrite seq_S, foldl_app, IH by lia. simpl.
  destruct (lookup_lt_is_Some_2 old k) as [x Hx]; [lia|]. rewrite Hx.
  destruct (lookup_lt_is_Some_2 new k) as [y Hy]; [lia|].
  rewrite (take_S_r _ _ _ Hx), (drop_S _ _ _ Hy).
  rewrite insert_app_r_alt by (rewrite length_take; lia).
  rewrite length_take, Nat.min_l, Nat.sub_diag by lia. simpl.
  by rewrite <- app_assoc.
Qed.

Lemma shift_down_delete {A} (l : list (option A)) i n :
  (i < n <= length l)%nat ->
  take (n - 1) (shift_down i (n - S i) l) = delete i (take n l) /\
  length (shift_down i (n - S i) l) = length l.
Proof.
  intros Hi. unfold shift_down. split.
  - rewrite app_assoc, take_app_le by (rewrite length_app, !length_take, length_drop; lia).
    rewrite take_ge by (rewrite length_app, !length_take, length_drop; lia).
    rewrite delete_take_drop, take_take, Nat.min_l by lia. f_equal.
    by rewrite skipn_firstn_comm.
  - rewrite !length_app, !length_take, !length_drop. lia.
Qed.

Lemma contents_length {A} (a : array A) :
  0 <= num a <= max a -> length (slots a) = Z.to_nat (max a) ->
  length (contents a) = Z.to_nat (num a).
Proof. intros. unfold contents. rewrite length_take. lia. Qed.

(** ** Specifications *)

Ltac array_wf := unfold array_at; split_and!; simpl; try done; try lia.

Section array_specs.
Context {A H : Type} `{HeapLaws H}.
Implicit Types (a : array A) (h : H) (bs : list (Z * Z)).

(** Freeing the slots, whether or not there are any. *)
Lemma free_slots_owns a h bs x :
  heap_ok h -> owns h (x :: blocks a ++ bs) ->
  runs (if v a =? 0 then ret tt else on_snd (kfree (v a))) (a, h)
    (fun _ s => s.1 = a /\ heap_ok s.2 /\ owns s.2 (x :: (a_self a, 12) :: bs))
    (fun _ _ => False).
Proof.
  intros Hok Ho. unfold blocks in Ho. destruct (Z.eqb_spec (v a) 0) as [E|E].
  - by apply runs_ret.
  - apply runs_on_snd; simpl.
    eapply runs_mono; [eapply kfree_owns with (bs := x :: (a_self a, 12) :: bs); [done|]| |done].
    + eapply owns_perm; [|exact Ho]. simpl. solve_Permutation.
    + intros _ h' (? & ? & ?). done.
Qed.

Lemma array_preallocate_spec a h bs nguys :
  array_at a h bs -> 0 <= nguys <= 2 ^ 27 ->
  runs (array_preallocate nguys) (a, h)
    (fun _ s => array_at s.1 s.2 bs /\ num s.1 = num a /\ contents s.1 = contents a /\
                nguys <= max s.1 /\ max a <= max s.1)
    (fun e s => e = ENOMEM /\ s.1 = a /\ array_at a s.2 bs /\ exhausted h).
Proof.
  intros (Hok & Hnum & Hmax & Hlen & Hv & Ho) Hn. unfold array_preallocate. run; [lia|].
  destruct (grow_max_32 nguys (max a)) as (m & -> & ? & ? & ?); [lia..|].
  run. rewrite u32_small by lia.
  eapply runs_mono; [eapply kmalloc_owns_mem; [done|exact Ho|lia]| |done].
  intros p h1 (Hok1 & Hp). simpl.
  destruct Hp as [(-> & Ho1 & _ & Hex)|(Hp & Ho1 & _)].
  { apply runs_fail. do 2 (split; [done|]). split; [by conj|done]. }
  rewrite (proj2 (Z.eqb_neq p 0)) by done. run.
  eapply runs_mono; [by eapply free_slots_owns| |done].
  intros _ [a2 h2] (Ha2 & Hok2 & Ho2); simpl in *; subst a2.
  run. unfold contents; simpl.
  rewrite copy_slots_take by (rewrite ?length_replicate; lia).
  split_and!; [|done| |done|done].
  - array_wf.
    + rewrite length_app, length_take, length_drop, length_replicate. lia.
    + unfold blocks; simpl. rewrite (proj2 (Z.eqb_neq p 0)) by done.
      eapply owns_perm; [|exact Ho2]. simpl.
      rewrite (Z.mul_comm 4). solve_Permutation.
  - rewrite take_app_le by (rewrite length_take; lia). by rewrite take_take, Nat.min_id.
Qed.

Lemma array_setsize_spec a h bs nguys :
  array_at a h bs -> 0 <= nguys <= 2 ^ 27 ->
  runs (array_setsize nguys) (a, h)
    (fun _ s => array_at s.1 s.2 bs /\ num s.1 = nguys /\
       take (Z.to_nat (Z.min nguys (num a))) (slots s.1) =
       take (Z.to_nat (Z.min nguys (num a))) (slots a))
    (fun e s => e = ENOMEM /\ s.1 = a /\ array_at a s.2 bs /\ exhausted h /\ max a < nguys).
Proof.
  intros Ha Hn. pose proof Ha as (Hok & Hnum & Hmax & Hlen & Hv & Ho).
  unfold array_setsize. run; [lia|].
  destruct (Z.gtb_spec nguys (max a)).
  - eapply runs_mono; [by eapply array_preallocate_spec| |by intros e s (?&?&?&?)].
    intros _ [a' h'] ((Hok' & Hnum' & Hmax' & Hlen' & Hv' & Ho') & Hsame & Hc & ? & ?); simpl in *.
    run. array_wf.
        unfold contents in Hc. rewrite Hsame in Hc. by rewrite Z.min_r by lia.
  - destruct (Z.eqb_spec nguys 0) as [->|]; [destruct (Z.gtb_spec (max a) 16)|]; simpl.
    + run; [by rewrite (proj2 (Z.eqb_neq _ 0)) by (apply Hv; lia)|].
      unfold blocks in Ho. rewrite (proj2 (Z.eqb_neq _ 0)) in Ho by (apply Hv; lia).
      eapply runs_mono; [eapply kfree_owns with (bs := (a_self a, 12) :: bs); [done|]| |done].
      { eapply owns_perm; [|exact Ho]. solve_Permutation. }
      intros _ h' (? & ? & ?). run. array_wf. by rewrite Z.min_l by lia.
    + run. array_wf.
    + run. array_wf.
Qed.

Lemma array_add_spec a h bs x :
  array_at a h bs -> num a < 2 ^ 27 ->
  runs (array_add x) (a, h)
    (fun _ s => array_at s.1 s.2 bs /\ num s.1 = num a + 1 /\
                contents s.1 = contents a ++ [Some x])
    (fun e s => e = ENOMEM /\ s.1 = a /\ array_at a s.2 bs /\ exhausted h).
Proof.
  intros Ha Hn. pose proof Ha as (_ & Hnum & _ & Hlen & _).
  unfold array_add. run. rewrite i32_small by lia.
  eapply runs_mono; [by eapply (array_setsize_spec a h bs); [|lia]| |by intros e s (?&?&?&?&_)].
  intros _ [a' h'] ((? & ? & ? & Hlen' & ? & ?) & Hn' & Htake); simpl in *.
  rewrite Z.min_r in Htake by lia. run.
  array_wf; [by rewrite length_insert|].
  unfold contents; simpl. rewrite Hn'.
  replace (Z.to_nat (num a + 1)) with (S (Z.to_nat (num a))) by lia.
  rewrite (take_S_r _ _ (Some x)) by (apply list_lookup_insert_eq; lia).
  by rewrite take_insert_ge, Htake by lia.
Qed.

Lemma array_remove_spec a h bs i :
  array_at a h bs -> 0 <= i < num a ->
  runs (array_remove i) (a, h)
    (fun _ s => array_at s.1 s.2 bs /\ s.2 = h /\ num s.1 = num a - 1 /\ max s.1 = max a /\
                contents s.1 = delete (Z.to_nat i) (contents a))
    (fun _ _ => False).
Proof.
  intros (? & ? & ? & Hlen & ? & ?) Hi. unfold array_remove. run; [lia..|].
  destruct (shift_down_delete (slots a) (Z.to_nat i) (Z.to_nat (num a))) as [Hd Hl]; [lia|].
  replace (Z.to_nat (num a - (i + 1))) with (Z.to_nat (num a) - S (Z.to_nat i))%nat by lia.
  array_wf.
  unfold contents; simpl. rewrite <- Hd. f_equal. lia.
Qed.

Lemma array_getguy_spec a h bs i :
  array_at a h bs -> 0 <= i < num a ->
  exists x, contents a !! Z.to_nat i = Some x /\ array_getguy i (a, h) = (Ret x, (a, h)).
Proof.
  intros (? & ? & ? & Hlen & ? & ?) Hi.
  destruct (lookup_lt_is_Some_2 (slots a) (Z.to_nat i)) as [x Hx]; [lia|].
  exists x. split; [unfold contents; by rewrite lookup_take_lt by lia|].
  unfold array_getguy, bind, gets, assert; simpl.
  rewrite (proj2 (Z.leb_le (num a) (max a))), (proj2 (Z.leb_le 0 i)),
    (proj2 (Z.ltb_lt i (num a))) by lia. simpl.
  by rewrite Hx.
Qed.

Lemma array_create_spec h bs :
  heap_ok h -> owns h bs ->
  runs (array_create (A := A)) h
    (fun o h' => match o with
       | Some a => array_at a h' bs /\ contents a = []
       | None => heap_ok h' /\ owns h' bs
       end)
    (fun _ _ => False).
Proof.
  intros Hok Ho. unfold array_create. run.
  eapply runs_mono; [by eapply kmalloc_owns; [..|lia]| |done].
  intros p h' (? & [(-> & ? & ?)|(Hp & Ho' & ?)]); [done|].
  rewrite (proj2 (Z.eqb_neq p 0)) by done. by array_wf.
Qed.

Lemma array_destroy_spec a h bs :
  array_at a h bs ->
  runs array_destroy (a, h) (fun _ s => heap_ok s.2 /\ owns s.2 bs) (fun _ _ => False).
Proof.
  intros (Hok & Hnum & Hmax & Hlen & Hv & Ho). unfold array_destroy. run.
  unfold blocks in Ho. destruct (Z.eqb_spec (v a) 0); run.
  - eapply runs_mono; [by eapply kfree_owns|by intros [] h'' (?&?&?)|done].
  - eapply runs_mono;
      [eapply kfree_owns with (bs := (a_self a, 12) :: bs); [done|]| |done].
    { eapply owns_perm; [|exact Ho]. solve_Permutation. }
    intros [] h' (? & ? & ?). run.
    eapply runs_mono; [by eapply kfree_owns|by intros [] h'' (?&?&?)|done].
Qed.

End array_specs.

(** ** Refinement of list operations *)

Inductive array_op (A : Type) :=
| op_add (x : A)
| op_remove (i : Z)
| op_setguy (i : Z) (x : A)
| op_shrink (n : Z)
| op_preallocate (n : Z).
Arguments op_add {A}.
Arguments op_remove {A}.
Arguments op_setguy {A}.
Arguments op_shrink {A}.
Arguments op_preallocate {A}.

Section array_refinement.
Context {A H : Type} `{HeapLaws H}.
Implicit Types (a : array A) (h : H) (bs : list (Z * Z)) (o : array_op A).

Definition array_do o : M (array A * H) unit :=
  match o with
  | op_add x => array_add x
  | op_remove i => array_remove i
  | op_setguy i x => array_setguy i x
  | op_shrink n => array_setsize n
  | op_preallocate n => array_preallocate n
  end.

(** What each operation means on lists; [None] when the caller breaks the
    operation's precondition (an index out of range, more than [2^27] elements). *)
Definition list_do o (l : list (option A)) : option (list (option A)) :=
  let n := Z.of_nat (length l) in
  match o with
  | op_add x => if n <? 2 ^ 27 then Some (l ++ [Some x]) else None
  | op_remove i => if (0 <=? i) && (i <? n) then Some (delete (Z.to_nat i) l) else None
  | op_setguy i x =>
      if (0 <=? i) && (i <? n) then Some (<[Z.to_nat i := Some x]> l) else None
  | op_shrink m =>
      if (0 <=? m) && (m <=? n) && (m <=? 2 ^ 27) then Some (take (Z.to_nat m) l) else None
  | op_preallocate m => if (0 <=? m) && (m <=? 2 ^ 27) then Some l else None
  end.

Fixpoint list_run (ops : list (array_op A)) (l : list (option A)) : option (list (option A)) :=
  match ops with
  | [] => Some l
  | o :: ops => list_do o l ≫= list_run ops
  end.

Lemma array_at_length a h bs : array_at a h bs -> Z.of_nat (length (contents a)) = num a.
Proof. intros (? & ? & ? & ? & ?). rewrite contents_length by done. lia. Qed.

Lemma array_setguy_spec a h bs i x :
  array_at a h bs -> 0 <= i < num a ->
  runs (array_setguy i x) (a, h)
    (fun _ s => array_at s.1 s.2 bs /\ contents s.1 = <[Z.to_nat i := Some x]> (contents a))
    (fun _ _ => False).
Proof.
  intros (? & ? & ? & Hlen & ? & ?) Hi. unfold array_setguy. run; [lia..|].
  array_wf; [by rewrite length_insert|].
  unfold contents; simpl. by rewrite take_insert_lt by lia.
Qed.

Lemma array_do_spec o a h bs l :
  array_at a h bs -> list_do o (contents a) = Some l ->
  runs (array_do o) (a, h)
    (fun _ s => array_at s.1 s.2 bs /\ contents s.1 = l)
    (fun e s => e = ENOMEM /\ s.1 = a /\ array_at a s.2 bs).
Proof.
  intros Ha Hl. pose proof (array_at_length _ _ _ Ha) as Hlen.
  destruct o; simpl in Hl; rewrite ?Hlen in Hl; case_match eqn:Hg; simplify_eq; simpl.
  - eapply runs_mono; [eapply array_add_spec; [done|lia]| |]; [intros [] s; tauto|cbn; intros e s; tauto].
  - eapply runs_mono; [eapply array_remove_spec; [done|lia]| |]; [intros [] s; tauto|cbn; intros e s; tauto].
  - eapply runs_mono; [eapply array_setguy_spec; [done|lia]| |]; [intros [] s; tauto|cbn; intros e s; tauto].
  - eapply runs_mono; [eapply array_setsize_spec; [done|lia]| |cbn; intros e s; tauto].
    intros _ [a' h'] (? & Hn & Ht); simpl in *. split; [done|].
    unfold contents. rewrite Hn, take_take. rewrite Z.min_l in Ht by lia.
    rewrite Ht. f_equal. lia.
  - eapply runs_mono; [eapply array_preallocate_spec; [done|lia]| |]; [intros [] s; tauto|cbn; intros e s; tauto].
Qed.


End array_refinement.

(** ** What preallocation guarantees *)

Section array_reserve.
Context {A H : Type} `{HeapLaws H}.
Implicit Types (a : array A) (h : H) (bs : list (Z * Z)).

(** Below [max], adding touches the slots only. *)
Lemma array_add_reserved a h bs x :
  array_at a h bs -> num a < max a ->
  array_add x (a, h) =
    (Ret tt, (set_slots (<[Z.to_nat (num a) := Some x]> (slots a)) (set_num (num a + 1) a), h)).
Proof.
  intros (_ & Hnum & Hmax & _) Hn.
  unfold array_add, array_setsize, bind, gets, assert, on_fst, zoom, modify; simpl.
  rewrite i32_small by lia.
  zbool. done.
Qed.

Lemma array_at_reserved a h bs x :
  array_at a h bs -> num a < max a ->
  array_at (set_slots (<[Z.to_nat (num a) := Some x]> (slots a)) (set_num (num a + 1) a)) h bs /\
  contents (set_slots (<[Z.to_nat (num a) := Some x]> (slots a)) (set_num (num a + 1) a)) =
    contents a ++ [Some x].
Proof.
  intros (? & ? & ? & Hlen & ? & ?) Hn. split; [array_wf; by rewrite length_insert|].
  unfold contents; simpl.
  replace (Z.to_nat (num a + 1)) with (S (Z.to_nat (num a))) by lia.
  rewrite (take_S_r _ _ (Some x)) by (apply list_lookup_insert_eq; lia).
  by rewrite take_insert_ge by lia.
Qed.

Lemma array_add_all_reserved xs a h bs :
  array_at a h bs -> num a + Z.of_nat (length xs) <= max a ->
  exists a', for_each xs array_add (a, h) = (Ret tt, (a', h)) /\ array_at a' h bs /\
             contents a' = contents a ++ (Some <$> xs).
Proof.
  revert a. induction xs as [|x xs IH]; intros a Ha Hn.
  - exists a. by rewrite app_nil_r.
  - simpl in Hn. destruct (array_at_reserved a h bs x) as [Ha1 Hc1]; [done|lia|].
    destruct (IH _ Ha1) as (a' & Hr & Ha' & Hc'); [simpl; lia|].
    exists a'. split_and!; [|done|rewrite Hc', Hc1, <- app_assoc; done].
    simpl. unfold bind. by rewrite (array_add_reserved _ _ bs) by (done || lia).
Qed.

(** After a successful [array_preallocate n], adding pointers up to a total
    of [n] succeeds without touching the heap, however little memory is left. *)
Theorem array_preallocate_reserves a h bs n a' h' xs :
  array_at a h bs -> 0 <= n <= 2 ^ 27 ->
  array_preallocate n (a, h) = (Ret tt, (a', h')) ->
  num a + Z.of_nat (length xs) <= n ->
  exists a'', for_each xs array_add (a', h') = (Ret tt, (a'', h')) /\
              contents a'' = contents a ++ (Some <$> xs).
Proof.
  intros Ha Hn Hr Hxs. pose proof (array_preallocate_spec a h bs n Ha Hn) as Hs.
  unfold runs in Hs. rewrite Hr in Hs. destruct Hs as (Ha' & Hnum & Hc & Hmax & _); simpl in *.
  destruct (array_add_all_reserved xs a' h' bs) as (a'' & ? & ? & Hc''); [done|lia|].
  exists a''. by rewrite Hc'', Hc.
Qed.

(** Emptying an array of more than 16 slots with [array_setsize 0] gives the
    reserved storage back, so the next [array_add] allocates again and fails
    when the heap is out of memory. *)
Theorem array_setsize_zero_drops_reserve a h bs x :
  array_at a h bs -> 16 < max a ->
  exists a' h', array_setsize 0 (a, h) = (Ret tt, (a', h')) /\ contents a' = [] /\
    max a' = 0 /\
    forall h'', kmalloc 8 h' = (Ret 0, h'') ->
      array_add x (a', h') = (Err ENOMEM, (a', h'')).
Proof.
  intros (Hok & Hnum & Hmax & Hlen & Hv & Ho) H16.
  assert (v a <> 0) as Hv0 by (apply Hv; lia).
  unfold blocks in Ho. rewrite (proj2 (Z.eqb_neq _ 0)) in Ho by done.
  eapply (owns_perm _ _ ((v a, 4 * max a) :: (a_self a, 12) :: bs)) in Ho;
    [|simpl; solve_Permutation].
  destruct (runs_elim _ _ _ _ (kfree_owns _ _ _ _ Hok Ho))
    as [([] & h' & Hf & _)|(? & ? & _ & [])].
  exists (mk_array (a_self a) 0 0 0 []), h'.
  split_and!; [|done|done|].
  - unfold array_setsize, bind, gets, assert, on_fst, on_snd, zoom, modify, put; simpl.
    zbool. simpl. by rewrite Hf.
  - intros h'' Hk. unfold array_add, array_setsize, array_preallocate, bind, gets, assert,
      on_fst, on_snd, zoom; simpl. vm_compute (u32 _). by rewrite Hk.
Qed.

End array_reserve.

(** A fresh array on a heap with one allocation left, and a full one. *)
Definition fresh_array : array Z := mk_array 4096 0 0 0 [].
Definition fresh_heap (k : nat) : Quota.heap := (kmalloc 12 (Quota.start (S k))).2.

Lemma fresh_array_at k : array_at fresh_array (fresh_heap k) [].
Proof.
  apply (array_create_spec (Quota.start (S k)) [] (Quota.start_ok (S k)) (owns_nil _)).
Qed.

Lemma array_preallocate_reserves_witness :
  exists a' h', array_preallocate 2 (fresh_array, fresh_heap 1) = (Ret tt, (a', h')) /\
  exists a'', for_each [5; 6] array_add (a', h') = (Ret tt, (a'', h')) /\
              contents a'' = contents fresh_array ++ (Some <$> [5; 6]).
Proof.
  eexists _, _. split; [reflexivity|].
  eapply (array_preallocate_reserves fresh_array (fresh_heap 1) [] 2);
    [exact (fresh_array_at 1)|lia|reflexivity|].
  simpl. lia.
Defined.

Lemma array_setsize_zero_drops_reserve_witness :
  exists a h, array_preallocate 20 (fresh_array, fresh_heap 1) = (Ret tt, (a, h)) /\
    array_at a h [] /\ 16 < max a /\
    exists a' h', array_setsize 0 (a, h) = (Ret tt, (a', h')) /\ contents a' = [] /\
      max a' = 0 /\
      forall h'', kmalloc 8 h' = (Ret 0, h'') ->
        array_add 9 (a', h') = (Err ENOMEM, (a', h'')).
Proof.
  pose proof (array_preallocate_spec fresh_array (fresh_heap 1) [] 20 (fresh_array_at 1)
    ltac:(lia)) as Hs.
  eexists _, _. split; [reflexivity|].
  split; [exact (proj1 Hs)|]. split; [reflexivity|].
  apply (array_setsize_zero_drops_reserve _ _ []); [exact (proj1 Hs)|reflexivity].
Defined.

