(* ===== verification/Queue.v ===== *)
(** Queues of pointers as ring buffers: kern/lib/queue.c.

    [queue] is [struct queue] together with the [size] cells [data] points at.
    One cell is always left free, so that [nextread = nextwrite] means empty: a
    queue of size [n] holds [n-1] pointers.  [q_addtail] and [q_grow] call each
    other in the source; here [q_addtail_fuel] bounds the depth of that
    recursion, and the theorems show that depth 2 is always enough. *)

From Stdlib Require Import ZArith Lia.
From stdpp Require Import prelude gmap list.
From S2P Require Import Prelude Heap.

(** ** Definitions *)

Record queue (A : Type) := mk_queue {
  q_self : Z;
  size : Z;
  nextwrite : Z;
  nextread : Z;
  data : Z;
  ring : list (option A);
}.
Arguments mk_queue {A}.
Arguments q_self {A}.
Arguments size {A}.
Arguments nextwrite {A}.
Arguments nextread {A}.
Arguments data {A}.
Arguments ring {A}.

(** [while (nsize < targetsize) { nsize *= 2; assert(nsize > 0); }]; the answer
    is [Some None] for the assertion failing, [None] for running out of fuel. *)
Fixpoint grow_size (fuel : nat) (targetsize nsize : Z) : option (option Z) :=
  if nsize <? targetsize then
    match fuel with
    | O => None
    | S fuel =>
        let nsize := i32 (nsize * 2) in
        if nsize >? 0 then grow_size fuel targetsize nsize else Some None
    end
  else Some (Some nsize).

Section queue_ops.
Context {A H : Type} `{!Heap H}.

(** The copying loop of [q_grow]:
    [for (i=onr; i!=onw; i=(i+1)%osize) { result = q_addtail(q, olddata[i]); assert(result==0); }] *)
Fixpoint refill (fuel : nat) (addtail : option A -> M (queue A * H) unit)
    (olddata : list (option A)) (osize onw i : Z) : M (queue A * H) unit :=
  if i =? onw then ret tt
  else match fuel with
  | O => spin
  | S fuel =>
      result <- result_of (addtail (default None (olddata !! Z.to_nat i))) ;;
      assert (result =? 0) ;;;
      refill fuel addtail olddata osize onw ((i + 1) mod osize)
  end.

Definition q_grow_with (addtail : option A -> M (queue A * H) unit) (targetsize : Z) :
    M (queue A * H) unit :=
  q <- gets fst ;;
  match grow_size 32 targetsize (size q) with
  | None => spin
  | Some None => panic
  | Some (Some nsize) =>
      ndata <- on_snd (kmalloc (u32 (nsize * 4))) ;;
      if ndata =? 0 then fail ENOMEM
      else
        on_fst (put (mk_queue (q_self q) nsize 0 0 ndata (replicate (Z.to_nat nsize) None))) ;;;
        refill (Z.to_nat (size q)) addtail (ring q) (size q) (nextwrite q) (nextread q) ;;;
        on_snd (kfree (data q))
  end.

Definition write_tail (ptr : option A) (nextnext : Z) (q : queue A) : queue A :=
  mk_queue (q_self q) (size q) nextnext (nextread q) (data q)
    (<[Z.to_nat (nextwrite q) := ptr]> (ring q)).

Fixpoint q_addtail_fuel (fuel : nat) (ptr : option A) : M (queue A * H) unit :=
  q <- gets fst ;;
  assert (size q >? 0) ;;;
  let nextnext := (nextwrite q + 1) mod size q in
  if nextnext =? nextread q then
    match fuel with
    | O => spin
    | S fuel =>
        q_grow_with (q_addtail_fuel fuel) (i32 (size q + 1)) ;;;
        q <- gets fst ;;
        on_fst (modify (write_tail ptr ((nextwrite q + 1) mod size q)))
    end
  else on_fst (modify (write_tail ptr nextnext)).

Definition q_addtail (x : A) : M (queue A * H) unit := q_addtail_fuel 2 (Some x).

Definition q_grow : Z -> M (queue A * H) unit := q_grow_with (q_addtail_fuel 2).

Definition q_create (sz : Z) : M H (option (queue A)) :=
  q <- kmalloc 16 ;;
  if q =? 0 then ret None
  else
    d <- kmalloc (u32 (sz * 4)) ;;
    if d =? 0 then kfree q ;;; ret None
    else ret (Some (mk_queue q sz 0 0 d (replicate (Z.to_nat sz) None))).

Definition q_preallocate (sz : Z) : M (queue A * H) unit :=
  q <- gets fst ;;
  assert (size q >? 0) ;;;
  if sz >? size q then q_grow sz else ret tt.

Definition q_empty (q : queue A) : bool := nextwrite q =? nextread q.

Definition q_remhead : M (queue A * H) (option A) :=
  q <- gets fst ;;
  assert (size q >? 0) ;;;
  assert (negb (q_empty q)) ;;;
  on_fst (put (mk_queue (q_self q) (size q) (nextwrite q)
    ((nextread q + 1) mod size q) (data q) (ring q))) ;;;
  ret (default None (ring q !! Z.to_nat (nextread q))).

Definition q_destroy : M (queue A * H) unit :=
  q <- gets fst ;;
  assert (q_empty q) ;;;
  on_snd (kfree (data q)) ;;;
  on_snd (kfree (q_self q)).

Definition q_getstart : M (queue A * H) Z := gets (fun s => nextread s.1).
Definition q_getend : M (queue A * H) Z := gets (fun s => nextwrite s.1).
Definition q_getsize : M (queue A * H) Z := gets (fun s => size s.1).

Definition q_getguy (index : Z) : M (queue A * H) (option A) :=
  q <- gets fst ;;
  assert ((index >=? 0) && (index <? size q)) ;;;
  ret (default None (ring q !! Z.to_nat index)).

End queue_ops.

(** ** The abstraction *)

Definition q_blocks {A} (q : queue A) : list (Z * Z) :=
  [(q_self q, 16); (data q, 4 * size q)].

(** [holds q l]: read from [nextread] on, the cells of [q] spell [l]. *)
Definition holds {A} (q : queue A) (l : list A) : Prop :=
  Z.of_nat (length l) = (nextwrite q - nextread q) mod size q /\
  forall k x, l !! k = Some x ->
    ring q !! Z.to_nat ((nextread q + Z.of_nat k) mod size q) = Some (Some x).

Definition queue_at {A H} `{HeapLaws H} (q : queue A) (h : H) (bs : list (Z * Z))
    (l : list A) : Prop :=
  heap_ok h /\ 0 < size q <= 2 ^ 28 /\ length (ring q) = Z.to_nat (size q) /\
  0 <= nextread q < size q /\ 0 <= nextwrite q < size q /\
  owns h (q_blocks q ++ bs) /\ holds q l.

(** ** Ring arithmetic *)

Lemma ring_add s a : 0 <= a < 2 * s -> a mod s = if a <? s then a else a - s.
Proof.
  intros Ha. destruct (Z.ltb_spec a s); [apply Z.mod_small; lia|].
  symmetry. apply (Z.mod_unique _ _ 1); lia.
Qed.

Lemma ring_sub s a : - s <= a < s -> 0 < s -> a mod s = if 0 <=? a then a else a + s.
Proof.
  intros Ha Hs. destruct (Z.leb_spec 0 a); [apply Z.mod_small; lia|].
  symmetry. apply (Z.mod_unique _ _ (-1)); lia.
Qed.

(** Turn every [mod size] of the goal and the hypotheses into a case split. *)
Ltac ring_cases :=
  repeat match goal with
  | |- context [(?a + ?b) mod ?s] => rewrite (ring_add s (a + b)) by lia
  | H : context [(?a + ?b) mod ?s] |- _ => rewrite (ring_add s (a + b)) in H by lia
  | |- context [(?a - ?b) mod ?s] => rewrite (ring_sub s (a - b)) by lia
  | H : context [(?a - ?b) mod ?s] |- _ => rewrite (ring_sub s (a - b)) in H by lia
  | |- context [if ?a <? ?b then _ else _] => destruct (Z.ltb_spec a b)
  | H : context [if ?a <? ?b then _ else _] |- _ => destruct (Z.ltb_spec a b)
  | |- context [if ?a <=? ?b then _ else _] => destruct (Z.leb_spec a b)
  | H : context [if ?a <=? ?b then _ else _] |- _ => destruct (Z.leb_spec a b)
  end.

Lemma grow_size_enough fuel target n :
  0 < n -> target <= 2 ^ 27 -> n <= 2 ^ 28 -> target <= n * 2 ^ Z.of_nat fuel ->
  exists m, grow_size fuel target n = Some (Some m) /\ target <= m /\ n <= m /\
            (m = n \/ m <= 2 * target).
Proof.
  revert n. induction fuel as [|fuel IH]; intros n Hn Ht Hb Hf; simpl.
  - destruct (Z.ltb_spec n target); [simpl in Hf; lia|].
    exists n. split_and!; try done; try lia.
  - destruct (Z.ltb_spec n target).
    + rewrite i32_small by lia. zbool.
      destruct (IH (n * 2)) as (m & -> & ? & ? & ?); [lia..| |].
      { rewrite Nat2Z.inj_succ, Z.pow_succ_r in Hf by lia. nia. }
      exists m. split_and!; try done; try lia.
    + exists n. split_and!; try done; try lia.
Qed.

Lemma grow_size_32 target n :
  0 < n <= 2 ^ 28 -> target <= 2 ^ 27 ->
  exists m, grow_size 32 target n = Some (Some m) /\ target <= m /\ n <= m /\
            (m = n \/ m <= 2 * target).
Proof. intros. apply grow_size_enough; lia. Qed.

Lemma grow_size_double fuel n :
  0 < n < 2 ^ 29 -> grow_size (S fuel) (n + 1) n = Some (Some (n * 2)).
Proof.
  intros Hn. change (grow_size (S fuel) (n + 1) n) with
    (if n <? n + 1 then
       if i32 (n * 2) >? 0 then grow_size fuel (n + 1) (i32 (n * 2)) else Some None
     else Some (Some n)).
  rewrite i32_small by lia. zbool. destruct fuel; simpl; by zbool.
Qed.

(** ** Cell-level facts *)

Section queue_cells.
Context {A : Type}.
Implicit Types (q : queue A) (l : list A).

Definition ring_ok q : Prop :=
  0 < size q /\ length (ring q) = Z.to_nat (size q) /\
  0 <= nextread q < size q /\ 0 <= nextwrite q < size q.

Lemma holds_length q l : ring_ok q -> holds q l -> Z.of_nat (length l) < size q.
Proof. intros (?&?&?&?) [Hl _]. rewrite Hl. by apply Z.mod_pos_bound. Qed.

Lemma holds_full q l : ring_ok q -> holds q l ->
  ((nextwrite q + 1) mod size q = nextread q <-> Z.of_nat (length l) = size q - 1).
Proof. intros (?&?&?&?) [Hl _]. split; intros; ring_cases; lia. Qed.

Lemma holds_write_tail q l x :
  ring_ok q -> holds q l -> Z.of_nat (length l) < size q - 1 ->
  holds (write_tail (Some x) ((nextwrite q + 1) mod size q) q) (l ++ [x]).
Proof.
  intros (?&Hlen&?&?) [Hl Hc] Hfull. split; simpl.
  - rewrite length_app; simpl. ring_cases; lia.
  - intros k y Hk. destruct (decide (k = length l)) as [->|Hne].
    + rewrite lookup_app_r, Nat.sub_diag in Hk by lia. simplify_eq/=.
      replace ((nextread q + Z.of_nat (length l)) mod size q) with (nextwrite q)
        by (ring_cases; lia).
      apply list_lookup_insert_eq. lia.
    + pose proof (lookup_lt_Some _ _ _ Hk) as Hkl. rewrite length_app in Hkl; simpl in Hkl.
      rewrite lookup_app_l in Hk by lia.
      rewrite list_lookup_insert_ne; [by apply Hc|]. ring_cases; lia.
Qed.

Lemma holds_nil_empty q l : ring_ok q -> holds q l -> q_empty q = true <-> l = [].
Proof.
  intros (?&?&?&?) [Hl _]. unfold q_empty. rewrite Z.eqb_eq, <- length_zero_iff_nil.
  ring_cases; lia.
Qed.

Lemma holds_tail q x l :
  ring_ok q -> holds q (x :: l) ->
  ring q !! Z.to_nat (nextread q) = Some (Some x) /\
  holds (mk_queue (q_self q) (size q) (nextwrite q) ((nextread q + 1) mod size q)
           (data q) (ring q)) l.
Proof.
  intros (?&Hlen&?&?) [Hl Hc]. simpl in Hl. split.
  - specialize (Hc 0%nat x eq_refl). rewrite Z.add_0_r, Z.mod_small in Hc by lia. done.
  - split; simpl; [ring_cases; lia|].
    intros k y Hk. specialize (Hc (S k) y Hk). rewrite <- Hc. do 2 f_equal.
    rewrite Zplus_mod_idemp_l. f_equal. lia.
Qed.

End queue_cells.

(** ** Specifications *)

Ltac queue_wf := unfold queue_at; split_and!; simpl; try done; try lia.

Section queue_specs.
Context {A H : Type} `{HeapLaws H}.
Implicit Types (q : queue A) (h : H) (bs : list (Z * Z)) (l : list A).

Lemma queue_at_ring q h bs l : queue_at q h bs l -> ring_ok q.
Proof. intros (?&?&?&?&?&?&?). by unfold ring_ok; conj. Qed.

Lemma write_tail_ring q p n :
  ring_ok q -> 0 <= n < size q -> ring_ok (write_tail p n q).
Proof.
  intros (?&?&?&?) Hn. unfold ring_ok; split_and!; simpl; try done; try lia.
  by rewrite length_insert.
Qed.

(** With a cell to spare, [q_addtail] writes it and does nothing else. *)
Lemma q_addtail_spare fuel p q h l :
  ring_ok q -> holds q l -> Z.of_nat (length l) < size q - 1 ->
  q_addtail_fuel fuel p (q, h) =
    (Ret tt, (write_tail p ((nextwrite q + 1) mod size q) q, h)).
Proof.
  intros Hok Hl Hn.
  assert ((nextwrite q + 1) mod size q <> nextread q) as Hne.
  { intros He. apply (holds_full q l) in He; [lia|done..]. }
  destruct Hok as (?&?&?&?).
  destruct fuel; simpl; unfold bind, gets, assert, on_fst, zoom, modify; simpl; by zbool.
Qed.

Lemma refill_spec fuel f (q0 q : queue A) h i l1 l2 :
  ring_ok (mk_queue (q_self q0) (size q0) (nextwrite q0) i (data q0) (ring q0)) ->
  holds (mk_queue (q_self q0) (size q0) (nextwrite q0) i (data q0) (ring q0)) l2 ->
  ring_ok q -> holds q l1 ->
  Z.of_nat (length l1 + length l2) < size q -> (length l2 <= fuel)%nat ->
  exists q', refill fuel (q_addtail_fuel f) (ring q0) (size q0) (nextwrite q0) i (q, h) =
               (Ret tt, (q', h)) /\
    ring_ok q' /\ holds q' (l1 ++ l2) /\
    q_self q' = q_self q /\ size q' = size q /\ data q' = data q.
Proof.
  revert fuel i q l1. induction l2 as [|x l2 IH]; intros fuel i q l1 Hok0 Hl0 Hok Hl Hsz Hf.
  - apply (holds_nil_empty _ [] Hok0) in Hl0 as [_ He]. specialize (He eq_refl).
    unfold q_empty in He; simpl in He. apply Z.eqb_eq in He. subst i.
    exists q. rewrite app_nil_r. split; [|done].
    by destruct fuel; simpl; rewrite Z.eqb_refl.
  - simpl in Hsz, Hf. destruct fuel as [|fuel]; [lia|]. simpl.
    destruct (Z.eqb_spec i (nextwrite q0)) as [->|Hne].
    { assert (x :: l2 = []) as [=]. apply (holds_nil_empty _ _ Hok0 Hl0).
      apply Z.eqb_refl. }
    destruct (holds_tail _ _ _ Hok0 Hl0) as [Hx Hl2]; simpl in Hx, Hl2. rewrite Hx; simpl.
    unfold bind, result_of. rewrite (q_addtail_spare _ _ _ _ l1) by (done || lia).
    unfold assert; simpl. rewrite ?Z.eqb_refl.
    pose proof Hok0 as (?&?&?&?); simpl in *. pose proof Hok as (?&?&?&?).
    destruct (IH fuel ((i + 1) mod size q0)
      (write_tail (Some x) ((nextwrite q + 1) mod size q) q) (l1 ++ [x]))
      as (q' & -> & ? & ? & ? & ? & ?).
    + unfold ring_ok; split_and!; simpl; try done; try lia; by apply Z.mod_pos_bound.
    + done.
    + apply write_tail_ring; [done|]. by apply Z.mod_pos_bound.
    + apply holds_write_tail; [done..|lia].
    + simpl. rewrite length_app; simpl. lia.
    + lia.
    + exists q'. rewrite <- app_assoc in *. done.
Qed.

(** Growing to a size that has been worked out. *)
Lemma q_grow_sized f q h bs l target m :
  queue_at q h bs l -> grow_size 32 target (size q) = Some (Some m) ->
  size q <= m <= 2 ^ 28 ->
  runs (q_grow_with (q_addtail_fuel f) target) (q, h)
    (fun _ s => queue_at s.1 s.2 bs l /\ size s.1 = m)
    (fun e s => e = ENOMEM /\ s.1 = q /\ queue_at q s.2 bs l /\ (kmalloc (4 * m) h).1 = Ret 0).
Proof.
  intros Hq Hm Hms. pose proof (queue_at_ring _ _ _ _ Hq) as Hr.
  pose proof Hq as (Hok & Hsz & Hlen & Hnr & Hnw & Ho & Hl).
  pose proof (holds_length _ _ Hr Hl) as Hll.
  unfold q_grow_with. run. rewrite Hm. clear Hm.
  run. rewrite u32_small, Z.mul_comm by lia.
  destruct (runs_elim _ _ _ _ (kmalloc_owns h (4 * m) _ Hok Ho ltac:(lia)))
    as [(p & h1 & Hk & Hok1 & Hp)|(? & ? & _ & [])].
  eapply runs_intro_ret; [exact Hk|].
  destruct Hp as [(-> & Ho1 & _)|(Hp & Ho1 & _)].
  { rewrite Hk. apply runs_fail. do 2 (split; [done|]). split; [by queue_wf|done]. }
  cbn beta. zbool. run.
  destruct (refill_spec (Z.to_nat (size q)) f q
    (mk_queue (q_self q) m 0 0 p (replicate (Z.to_nat m) None)) h1 (nextread q) [] l)
    as (q' & Hr' & Hrok & Hl' & Hself & Hsize & Hdata); simpl in *.
  - by destruct q.
  - by destruct q.
  - unfold ring_ok; split_and!; simpl; try done; try lia. apply length_replicate.
  - split; [simpl; by rewrite Z.mod_0_l by lia|]. intros k x Hx. by rewrite lookup_nil in Hx.
  - lia.
  - lia.
  - eapply runs_intro_ret; [exact Hr'|]. run.
    eapply runs_mono; [eapply kfree_owns with (n := 4 * size q)
      (bs := (p, 4 * m) :: (q_self q, 16) :: bs); [done|]| |done].
    { eapply owns_perm; [|exact Ho1]. unfold q_blocks. simpl. solve_Permutation. }
    intros [] h2 (Hok2 & Ho2 & _). destruct Hrok as (?&?&?&?).
    split; [|simpl; lia]. queue_wf.
    eapply owns_perm; [|exact Ho2]. unfold q_blocks. rewrite Hself, Hdata, Hsize.
    simpl. solve_Permutation.
Qed.

Lemma q_grow_spec f q h bs l target :
  queue_at q h bs l -> target <= 2 ^ 27 ->
  runs (q_grow_with (q_addtail_fuel f) target) (q, h)
    (fun _ s => queue_at s.1 s.2 bs l /\ target <= size s.1 /\ size q <= size s.1 /\
       (size s.1 = size q \/ size s.1 <= 2 * target))
    (fun e s => e = ENOMEM /\ s.1 = q /\ queue_at q s.2 bs l).
Proof.
  intros Hq Ht. pose proof Hq as (_ & Hsz & _).
  destruct (grow_size_32 target (size q)) as (m & Hm & ? & ? & ?); [lia..|].
  eapply runs_mono; [eapply (q_grow_sized f q h bs l target m); [done..|lia]| |].
  - intros [] s [? ->]. conj.
  - intros e s (? & ? & ? & _). done.
Qed.

Lemma write_tail_at q h bs l x :
  queue_at q h bs l -> Z.of_nat (length l) < size q - 1 ->
  queue_at (write_tail (Some x) ((nextwrite q + 1) mod size q) q) h bs (l ++ [x]).
Proof.
  intros Hq Hn. pose proof (queue_at_ring _ _ _ _ Hq) as Hr.
  destruct Hq as (Hok & Hsz & Hlen & Hnr & Hnw & Ho & Hl).
  pose proof (Z.mod_pos_bound (nextwrite q + 1) (size q)).
  queue_wf; [by rewrite length_insert|]. by apply holds_write_tail.
Qed.

Lemma q_addtail_spec q h bs l x :
  queue_at q h bs l -> size q < 2 ^ 27 ->
  runs (q_addtail x) (q, h)
    (fun _ s => queue_at s.1 s.2 bs (l ++ [x]) /\
       (size s.1 = size q \/ size s.1 <= 2 * (Z.of_nat (length l) + 2)))
    (fun e s => e = ENOMEM /\ s.1 = q /\ queue_at q s.2 bs l).
Proof.
  intros Hq Hs. pose proof (queue_at_ring _ _ _ _ Hq) as Hr.
  pose proof Hq as (Hok & Hsz & Hlen & Hnr & Hnw & Ho & Hl).
  pose proof (holds_length _ _ Hr Hl) as Hll.
  destruct (decide (Z.of_nat (length l) < size q - 1)) as [Hsp|Hfull].
  { eapply runs_intro_ret; [by eapply q_addtail_spare|]. split; [by apply write_tail_at|by left]. }
  assert ((nextwrite q + 1) mod size q = nextread q) as He.
  { apply (holds_full q l); [done..|lia]. }
  unfold q_addtail. simpl. run; [lia|]. zbool. run. rewrite i32_small by lia.
  eapply runs_mono; [by eapply (q_grow_spec 1 q h bs l); [|lia]| |done].
  intros [] [q' h'] (Hq' & ? & ? & ?); simpl in *. run.
  split; [apply write_tail_at; [done|lia]|simpl; lia].
Qed.

(** A full ring is doubled; that takes one allocation. *)
Lemma q_addtail_full q h bs l x :
  queue_at q h bs l -> size q <= 2 ^ 27 -> Z.of_nat (length l) = size q - 1 ->
  runs (q_addtail x) (q, h)
    (fun _ s => queue_at s.1 s.2 bs (l ++ [x]) /\ size s.1 = size q * 2)
    (fun e s => e = ENOMEM /\ s.1 = q /\ queue_at q s.2 bs l /\
       (kmalloc (4 * (size q * 2)) h).1 = Ret 0).
Proof.
  intros Hq Hs Hl. pose proof (queue_at_ring _ _ _ _ Hq) as Hr.
  pose proof Hq as (_ & Hsz & _ & Hnr & Hnw & _ & Hh).
  assert ((nextwrite q + 1) mod size q = nextread q) as He by (by apply (holds_full q l)).
  unfold q_addtail. simpl. run; [lia|]. zbool. run. rewrite i32_small by lia.
  eapply runs_mono; [eapply (q_grow_sized 1 q h bs l _ (size q * 2));
    [done|apply grow_size_double; lia|lia]| |done].
  intros [] [q' h'] [Hq' Hs']; simpl in *. run.
  split; [apply write_tail_at; [done|lia]|done].
Qed.

Lemma q_remhead_spec q h bs x l :
  queue_at q h bs (x :: l) ->
  runs q_remhead (q, h)
    (fun r s => r = Some x /\ s.2 = h /\ queue_at s.1 h bs l /\ size s.1 = size q)
    (fun _ _ => False).
Proof.
  intros Hq. pose proof (queue_at_ring _ _ _ _ Hq) as Hr.
  pose proof Hq as (Hok & Hsz & Hlen & Hnr & Hnw & Ho & Hl).
  destruct (holds_tail _ _ _ Hr Hl) as [Hx Hl'].
  pose proof (Z.mod_pos_bound (nextread q + 1) (size q)).
  unfold q_remhead. run; [lia| |].
  { destruct (q_empty q) eqn:E; [|done]. by apply (holds_nil_empty _ _ Hr Hl) in E. }
  rewrite Hx. do 2 (split; [done|]). split; [by queue_wf|done].
Qed.

Lemma q_preallocate_spec q h bs l n :
  queue_at q h bs l -> n <= 2 ^ 27 ->
  runs (q_preallocate n) (q, h)
    (fun _ s => queue_at s.1 s.2 bs l /\ n <= size s.1 /\
       (size s.1 = size q \/ size s.1 <= 2 * n))
    (fun e s => e = ENOMEM /\ s.1 = q /\ queue_at q s.2 bs l).
Proof.
  intros Hq Hn. pose proof Hq as (_ & Hsz & _). unfold q_preallocate. run; [lia|].
  destruct (Z.gtb_spec n (size q)); run.
  - eapply runs_mono; [by eapply q_grow_spec| |done]. intros [] s; simpl; intuition lia.
  - split; [done|]. simpl. lia.
Qed.

Lemma q_create_spec h bs sz :
  heap_ok h -> owns h bs -> 0 < sz <= 2 ^ 28 ->
  runs (q_create (A := A) sz) h
    (fun o h' => match o with
       | Some q => queue_at q h' bs [] /\ size q = sz
       | None => heap_ok h' /\ owns h' bs
       end)
    (fun _ _ => False).
Proof.
  intros Hok Ho Hsz. unfold q_create. run.
  eapply runs_mono; [by eapply kmalloc_owns; [..|lia]| |done].
  intros p h1 (Hok1 & [(-> & Ho1 & _)|(Hp & Ho1 & _)]); [by run|]. zbool. run.
  rewrite u32_small by lia.
  eapply runs_mono; [eapply kmalloc_owns; [done|exact Ho1|lia]| |done].
  intros d h2 (Hok2 & [(-> & Ho2 & _)|(Hd & Ho2 & _)]); cbn beta; zbool; run.
  - eapply runs_mono; [by eapply kfree_owns| |done]. intros [] h3 (?&?&?). by run.
  - queue_wf.
    + apply length_replicate.
    + eapply owns_perm; [|exact Ho2]. unfold q_blocks; simpl. rewrite (Z.mul_comm 4).
      solve_Permutation.
Qed.

End queue_specs.

(** ** Refinement of FIFO queues *)

Inductive queue_op (A : Type) :=
| op_addtail (x : A)
| op_remhead
| op_reserve (n : Z).
Arguments op_addtail {A}.
Arguments op_remhead {A}.
Arguments op_reserve {A}.

Section queue_refinement.
Context {A H : Type} `{HeapLaws H}.
Implicit Types (q : queue A) (h : H) (bs : list (Z * Z)) (l : list A).

(** Run operations, collecting what [q_remhead] hands back. *)
Fixpoint q_run (ops : list (queue_op A)) : M (queue A * H) (list (option A)) :=
  match ops with
  | [] => ret []
  | op_addtail x :: ops => q_addtail x ;;; q_run ops
  | op_remhead :: ops => r <- q_remhead ;; rs <- q_run ops ;; ret (r :: rs)
  | op_reserve n :: ops => q_preallocate n ;;; q_run ops
  end.

(** The same on a list; [None] if a precondition fails. *)
Fixpoint fifo_run (ops : list (queue_op A)) l : option (list A * list A) :=
  match ops with
  | [] => Some ([], l)
  | op_addtail x :: ops =>
      if Z.of_nat (length l) <? 2 ^ 25 then fifo_run ops (l ++ [x]) else None
  | op_remhead :: ops =>
      match l with
      | [] => None
      | x :: l => '(out, l') ← fifo_run ops l; Some (x :: out, l')
      end
  | op_reserve n :: ops => if n <=? 2 ^ 25 then fifo_run ops l else None
  end.

(** C23: the ring buffer is a FIFO queue.  Any sequence of additions, removals and
    preallocations that is legal on the abstract list runs without a panic, and
    the removals hand back exactly what the abstract queue would, in order;
    growing the ring never loses or reorders an element.  The only other
    outcome is ENOMEM. *)
Theorem queue_refines_fifo ops q h bs l out l' :
  queue_at q h bs l -> size q < 2 ^ 27 -> fifo_run ops l = Some (out, l') ->
  runs (q_run ops) (q, h)
    (fun r s => r = Some <$> out /\ queue_at s.1 s.2 bs l')
    (fun e s => e = ENOMEM /\ exists l'', queue_at s.1 s.2 bs l'').
Proof.
  revert q h l out. induction ops as [|[x| |n] ops IH]; intros q h l out Hq Hsz Hf; simpl in *.
  - simplify_eq. by apply runs_ret.
  - destruct (Z.ltb_spec (Z.of_nat (length l)) (2 ^ 25)); [|done]. run.
    eapply runs_mono; [by eapply q_addtail_spec| |].
    + intros [] [q1 h1] [Hq1 Hs1]; simpl in *. eapply IH; [done|lia|done].
    + intros e [q1 h1] (-> & -> & Hq1). eauto.
  - destruct l as [|x l]; [done|].
    apply bind_Some in Hf as ([out1 l1] & Hf & [= <- <-]). run.
    eapply runs_mono; [by eapply q_remhead_spec| |done].
    intros r [q1 h1] (-> & Hh & Hq1 & Hs1); simpl in *; subst h1. run.
    eapply runs_mono; [eapply IH; [done|lia|done]| |done].
    intros rs s [-> Hs]. by run.
  - destruct (Z.leb_spec n (2 ^ 25)); [|done]. run.
    eapply runs_mono; [by eapply q_preallocate_spec; [|lia]| |].
    + intros [] [q1 h1] (Hq1 & ? & Hs1); simpl in *. eapply IH; [done|lia|done].
    + intros e [q1 h1] (-> & -> & Hq1). eauto.
Qed.

Lemma q_addtail_all_spare xs q h bs l :
  queue_at q h bs l -> Z.of_nat (length l + length xs) < size q ->
  exists q', for_each xs q_addtail (q, h) = (Ret tt, (q', h)) /\ queue_at q' h bs (l ++ xs).
Proof.
  revert q l. induction xs as [|x xs IH]; intros q l Hq Hn; simpl in *.
  - exists q. by rewrite app_nil_r.
  - destruct (IH (write_tail (Some x) ((nextwrite q + 1) mod size q) q) (l ++ [x]))
      as (q' & Hr & Hq').
    + apply write_tail_at; [done|lia].
    + simpl. rewrite length_app; simpl. lia.
    + exists q'. rewrite <- app_assoc in Hq'. split; [|done].
      unfold bind, q_addtail.
      pose proof Hq as (_ & _ & _ & _ & _ & _ & Hl).
      by rewrite (q_addtail_spare _ _ _ _ l) by (eauto using queue_at_ring || lia).
Qed.

(** After [q_preallocate n] succeeds, the queue can be filled up to [n-1]
    pointers without touching the heap. *)
Theorem q_preallocate_reserves q h bs l n q' h' xs :
  queue_at q h bs l -> n <= 2 ^ 27 ->
  q_preallocate n (q, h) = (Ret tt, (q', h')) ->
  Z.of_nat (length l + length xs) <= n - 1 ->
  exists q'', for_each xs q_addtail (q', h') = (Ret tt, (q'', h')) /\
              queue_at q'' h' bs (l ++ xs).
Proof.
  intros Hq Hn Hr Hxs. pose proof (q_preallocate_spec q h bs l n Hq Hn) as Hs.
  unfold runs in Hs. rewrite Hr in Hs. destruct Hs as (Hq' & ? & _); simpl in *.
  apply q_addtail_all_spare; [done|lia].
Qed.

(** ... and not up to [n].  A queue of [n] cells passes [q_preallocate n]
    unchanged, yet once it holds [n-1] pointers the next [q_addtail] has to
    allocate, and fails if it cannot. *)
Theorem q_preallocate_one_short q h bs l x :
  queue_at q h bs l -> size q < 2 ^ 27 -> Z.of_nat (length l) = size q - 1 ->
  q_preallocate (size q) (q, h) = (Ret tt, (q, h)) /\
  forall h', kmalloc (8 * size q) h = (Ret 0, h') ->
    q_addtail x (q, h) = (Err ENOMEM, (q, h')).
Proof.
  intros Hq Hs Hfull. pose proof (queue_at_ring _ _ _ _ Hq) as Hr.
  pose proof Hq as (Hok & Hsz & Hlen & Hnr & Hnw & Ho & Hl).
  assert ((nextwrite q + 1) mod size q = nextread q) as He by (by apply (holds_full q l)).
  split.
  - unfold q_preallocate, bind, gets, assert; simpl. by zbool.
  - intros h' Hk. unfold q_addtail; simpl. unfold bind, gets, assert; simpl. zbool.
    unfold q_grow_with, bind, gets; cbn [fst snd]. rewrite i32_small by lia.
    assert (grow_size 32 (size q + 1) (size q) = Some (Some (size q * 2))) as ->.
    { by apply grow_size_double; lia. }
    unfold on_snd, zoom; cbn [fst snd]. rewrite u32_small by lia.
    replace (size q * 2 * 4) with (8 * size q) by lia. by rewrite Hk.
Qed.

End queue_refinement.

(** ** Instances at a concrete queue *)

Definition fresh_queue (n : Z) : queue Z := mk_queue 4096 n 0 0 4113 (replicate (Z.to_nat n) None).
Definition queue_heap (n : Z) (k : nat) : Quota.heap :=
  (kmalloc (n * 4) (kmalloc 16 (Quota.start (S (S k)))).2).2.

Lemma fresh_queue_at k : queue_at (fresh_queue 2) (queue_heap 2 k) [] [].
Proof.
  apply (q_create_spec (A := Z) (Quota.start (S (S k))) [] 2 (Quota.start_ok _) (owns_nil _)).
  lia.
Qed.

Lemma queue_refines_fifo_witness :
  let ops := [op_addtail 1; op_addtail 2; op_remhead; op_reserve 9; op_remhead] in
  queue_at (fresh_queue 2) (queue_heap 2 5) [] [] /\
  fifo_run ops [] = Some ([1; 2], []) /\
  runs (q_run ops) (fresh_queue 2, queue_heap 2 5)
    (fun r s => r = Some <$> [1; 2] /\ queue_at s.1 s.2 [] [])
    (fun e s => e = ENOMEM /\ exists l'', queue_at s.1 s.2 [] l'').
Proof.
  intros ops. split_and!; [exact (fresh_queue_at 5)|reflexivity|].
  apply (queue_refines_fifo ops _ _ [] [] [1; 2] []);
    [exact (fresh_queue_at 5)|reflexivity|reflexivity].
Defined.

Lemma q_preallocate_reserves_witness :
  exists q' h', q_preallocate 3 (fresh_queue 2, queue_heap 2 1) = (Ret tt, (q', h')) /\
  exists q'', for_each [4; 5] q_addtail (q', h') = (Ret tt, (q'', h')) /\
              queue_at q'' h' [] [4; 5].
Proof.
  eexists _, _. split; [reflexivity|].
  apply (q_preallocate_reserves (fresh_queue 2) (queue_heap 2 1) [] [] 3);
    [exact (fresh_queue_at 1)|lia|reflexivity|simpl; lia].
Defined.

Lemma q_preallocate_one_short_witness :
  let q := write_tail (Some 7) 1 (fresh_queue 2) in
  queue_at q (queue_heap 2 0) [] [7] /\
  q_preallocate (size q) (q, queue_heap 2 0) = (Ret tt, (q, queue_heap 2 0)) /\
  q_addtail 8 (q, queue_heap 2 0) = (Err ENOMEM, (q, queue_heap 2 0)).
Proof.
  intros q.
  assert (queue_at q (queue_heap 2 0) [] [7]) as Hq.
  { apply (write_tail_at (fresh_queue 2) _ [] [] 7 (fresh_queue_at 0)). simpl. lia. }
  split; [exact Hq|].
  destruct (q_preallocate_one_short q (queue_heap 2 0) [] [7] 8 Hq) as [Hp Ha];
    [reflexivity|reflexivity|].
  split; [exact Hp|]. apply Ha. reflexivity.
Defined.
