(* ===== verification/Bitmap.v ===== *)
(** Fixed-size arrays of bits: kern/lib/bitmap.c.

    [bitmap] is [struct bitmap] with the bytes [v] points at; an access outside
    those bytes is a [Panic].  [marked] is the abstract view, a predicate on bit
    numbers, and the theorems give each operation's effect on it: which bit
    changes, that no other does, and on which branch ENOSPC is returned. *)

From Stdlib Require Import ZArith Lia.
From stdpp Require Import prelude gmap list.
From S2P Require Import Prelude Heap.

(** ** Definitions *)

Record bitmap := mk_bitmap {
  b_self : Z;
  nbits : Z;
  b_addr : Z;              (* address of the bytes *)
  b_v : list Z;            (* the bytes *)
}.

Definition BITS_PER_WORD : Z := 8.
Definition WORD_ALLBITS : Z := 255.

(** [DIVROUNDUP(nbits, BITS_PER_WORD)] in 32-bit arithmetic. *)
Definition bitmap_words (n : Z) : Z := u32 (n + BITS_PER_WORD - 1) / BITS_PER_WORD.

(** [v[ix]] and [v[ix] = w]. *)
Definition word (ix : Z) : M bitmap Z := fun b =>
  match b_v b !! Z.to_nat ix with Some w => (Ret w, b) | None => (Panic, b) end.
Definition set_word (ix w : Z) : M bitmap unit := fun b =>
  match b_v b !! Z.to_nat ix with
  | Some _ => (Ret tt, mk_bitmap (b_self b) (nbits b) (b_addr b) (<[Z.to_nat ix := w]> (b_v b)))
  | None => (Panic, b)
  end.

(** Mark the bits past the end of the last byte in use. *)
Definition mark_leftover (words : Z) : M bitmap unit :=
  n <- gets nbits ;;
  if n / BITS_PER_WORD <? words then
    let ix := words - 1 in
    let overbits := n - ix * BITS_PER_WORD in
    assert (n / BITS_PER_WORD =? words - 1) ;;;
    assert ((overbits >? 0) && (overbits <? BITS_PER_WORD)) ;;;
    for_each (seqZ overbits (BITS_PER_WORD - overbits)) (fun j =>
      w <- word ix ;;
      set_word ix (u8 (Z.lor w (Z.shiftl 1 j))))
  else ret tt.

Definition bitmap_create {H} `{!Heap H} (n : Z) : M H (option bitmap) :=
  let words := bitmap_words n in
  b <- kmalloc 8 ;;
  if b =? 0 then ret None
  else
    d <- kmalloc words ;;
    if d =? 0 then kfree b ;;; ret None
    else fun h =>
      match mark_leftover words (mk_bitmap b n d (replicate (Z.to_nat words) 0)) with
      | (Ret _, bm) => (Ret (Some bm), h)
      | (Err e, _) => (Err e, h)
      | (Panic, _) => (Panic, h)
      | (Spin, _) => (Spin, h)
      end.

Definition bitmap_getdata (b : bitmap) : list Z := b_v b.

(** The inner loop of [bitmap_alloc]: the first clear bit of byte [ix]. *)
Definition alloc_in_word (ix : Z) : M bitmap (option Z) :=
  for_find (seqZ 0 BITS_PER_WORD) (fun offset =>
    let mask := u8 (Z.shiftl 1 offset) in
    w <- word ix ;;
    if Z.land w mask =? 0 then
      set_word ix (Z.lor w mask) ;;;
      let index := u32 (ix * BITS_PER_WORD + offset) in
      n <- gets nbits ;;
      assert (index <? n) ;;;
      ret (Some index)
    else ret None).

Definition bitmap_alloc : M bitmap Z :=
  n <- gets nbits ;;
  let maxix := bitmap_words n in
  r <- for_find (seqZ 0 maxix) (fun ix =>
    w <- word ix ;;
    if negb (w =? WORD_ALLBITS) then
      r <- alloc_in_word ix ;;
      match r with
      | Some index => ret (Some index)
      | None => assert false ;;; ret None
      end
    else ret None) ;;
  match r with Some index => ret index | None => fail ENOSPC end.

Definition bitmap_translate (bitno : Z) : Z * Z :=
  (bitno / BITS_PER_WORD, u8 (Z.shiftl 1 (bitno mod BITS_PER_WORD))).

Definition bitmap_mark (index : Z) : M bitmap unit :=
  n <- gets nbits ;;
  assert (index <? n) ;;;
  let '(ix, mask) := bitmap_translate index in
  w <- word ix ;;
  assert (Z.land w mask =? 0) ;;;
  set_word ix (Z.lor w mask).

Definition bitmap_unmark (index : Z) : M bitmap unit :=
  n <- gets nbits ;;
  assert (index <? n) ;;;
  let '(ix, mask) := bitmap_translate index in
  w <- word ix ;;
  assert (negb (Z.land w mask =? 0)) ;;;
  set_word ix (u8 (Z.land w (Z.lnot mask))).

Definition bitmap_isset (index : Z) : M bitmap Z :=
  let '(ix, mask) := bitmap_translate index in
  w <- word ix ;;
  ret (Z.land w mask).

Definition bitmap_destroy {H} `{!Heap H} (b : bitmap) : M H unit :=
  kfree (b_addr b) ;;; kfree (b_self b).

(** ** The abstraction *)

(** Bit [i] of the map. *)
Definition marked (b : bitmap) (i : Z) : bool :=
  match b_v b !! Z.to_nat (i / 8) with Some w => Z.testbit w (i mod 8) | None => false end.

(** Every byte is a byte, the bytes cover [nbits] bits, and the bits past
    [nbits] in the last byte are marked. *)
Definition bitmap_ok (b : bitmap) : Prop :=
  0 <= nbits b < 2 ^ 31 /\
  length (b_v b) = Z.to_nat (bitmap_words (nbits b)) /\
  (forall k w, b_v b !! k = Some w -> 0 <= w < 256) /\
  (forall i, nbits b <= i < 8 * bitmap_words (nbits b) -> marked b i = true).

(** ** Bytes and masks *)

Lemma mask_pow2 o : 0 <= o < 8 -> u8 (Z.shiftl 1 o) = 2 ^ o.
Proof.
  intros Ho. rewrite Z.shiftl_1_l. unfold u8. apply Z.mod_small.
  split; [apply Z.pow_nonneg; lia|]. apply Z.pow_lt_mono_r; lia.
Qed.

Lemma byte_bit_cases (P : Z -> Z -> bool) :
  forallb (fun o => forallb (P o) (seqZ 0 256)) (seqZ 0 8) = true ->
  forall w o, 0 <= w < 256 -> 0 <= o < 8 -> P o w = true.
Proof.
  intros HP w o Hw Ho. rewrite forallb_forall in HP.
  apply (byte_cases (P o)); [|done]. apply HP, list_elem_of_In, elem_of_seqZ. lia.
Qed.

Lemma byte_lor_range w o : 0 <= w < 256 -> 0 <= o < 8 -> 0 <= Z.lor w (2 ^ o) < 256.
Proof.
  intros Hw Ho.
  pose proof (byte_bit_cases (fun o w => (0 <=? Z.lor w (2 ^ o)) && (Z.lor w (2 ^ o) <? 256))
    ltac:(vm_compute; reflexivity) w o Hw Ho) as Hc. cbv beta in Hc. lia.
Qed.

Lemma byte_clear_range w o : 0 <= w < 256 -> 0 <= o < 8 ->
  0 <= Z.land w (Z.lnot (2 ^ o)) < 256.
Proof.
  intros Hw Ho.
  pose proof (byte_bit_cases (fun o w => (0 <=? Z.land w (Z.lnot (2 ^ o))) &&
    (Z.land w (Z.lnot (2 ^ o)) <? 256)) ltac:(vm_compute; reflexivity) w o Hw Ho) as Hc. cbv beta in Hc. lia.
Qed.

Lemma byte_full w : 0 <= w < 256 -> (forall o, 0 <= o < 8 -> Z.testbit w o = true) -> w = 255.
Proof.
  intros Hw Hall.
  assert (forallb (Z.testbit w) (seqZ 0 8) = true) as Hf.
  { apply forallb_forall. intros o Ho%list_elem_of_In%elem_of_seqZ. apply Hall. lia. }
  pose proof (byte_cases (fun w => implb (forallb (Z.testbit w) (seqZ 0 8)) (w =? 255))
    ltac:(vm_compute; reflexivity) w Hw) as Hc; cbv beta in Hc.
  rewrite Hf in Hc. simpl in Hc. lia.
Qed.

Lemma byte_255_bit o : 0 <= o < 8 -> Z.testbit 255 o = true.
Proof. intros. change 255 with (Z.ones 8). apply Z.ones_spec_low. lia. Qed.

(** ** Bits of a map *)

Section bits.
Implicit Types b : bitmap.

Definition with_word (ix w : Z) b : bitmap :=
  mk_bitmap (b_self b) (nbits b) (b_addr b) (<[Z.to_nat ix := w]> (b_v b)).

Lemma bitmap_words_eq b : bitmap_ok b ->
  bitmap_words (nbits b) = (nbits b + 7) / 8.
Proof.
  intros (? & _). unfold bitmap_words, BITS_PER_WORD. rewrite u32_small by lia.
  f_equal. lia.
Qed.

Lemma word_at b ix : bitmap_ok b -> 0 <= ix < bitmap_words (nbits b) ->
  exists w, b_v b !! Z.to_nat ix = Some w /\ 0 <= w < 256 /\ word ix b = (Ret w, b) /\
    forall w', set_word ix w' b = (Ret tt, with_word ix w' b).
Proof.
  intros (_ & Hlen & Hb & _) Hix.
  destruct (lookup_lt_is_Some_2 (b_v b) (Z.to_nat ix)) as [w Hw]; [lia|].
  exists w. unfold word, set_word, with_word. rewrite Hw.
  split_and!; try done; by eapply Hb.
Qed.

Lemma marked_word b ix w o : b_v b !! Z.to_nat ix = Some w -> 0 <= ix -> 0 <= o < 8 ->
  marked b (8 * ix + o) = Z.testbit w o.
Proof.
  intros Hw ? ?. unfold marked.
  replace ((8 * ix + o) / 8) with ix by (apply (Z.div_unique _ _ _ o); lia).
  replace ((8 * ix + o) mod 8) with o by (apply (Z.mod_unique _ _ ix); lia).
  by rewrite Hw.
Qed.

Lemma marked_with_word b ix w w' j :
  b_v b !! Z.to_nat ix = Some w -> 0 <= ix -> 0 <= j ->
  marked (with_word ix w' b) j = if j / 8 =? ix then Z.testbit w' (j mod 8) else marked b j.
Proof.
  intros Hw Hix Hj. unfold marked; simpl.
  assert (0 <= j / 8) by (apply Z.div_pos; lia).
  destruct (Z.eqb_spec (j / 8) ix) as [<-|Hne].
  - rewrite list_lookup_insert_eq; [done|]. by eapply lookup_lt_Some.
  - rewrite list_lookup_insert_ne by lia. done.
Qed.

(** Changing one bit of one byte. *)
Lemma with_bit_ok b i w w' (v : bool) :
  bitmap_ok b -> 0 <= i < nbits b -> b_v b !! Z.to_nat (i / 8) = Some w -> 0 <= w' < 256 ->
  (forall o, 0 <= o < 8 -> Z.testbit w' o = if o =? i mod 8 then v else Z.testbit w o) ->
  bitmap_ok (with_word (i / 8) w' b) /\
  forall j, 0 <= j -> marked (with_word (i / 8) w' b) j = if j =? i then v else marked b j.
Proof.
  intros Hok Hi Hw Hw' Hbits.
  assert (0 <= i / 8) by (apply Z.div_pos; lia).
  assert (forall j, 0 <= j -> marked (with_word (i / 8) w' b) j = if j =? i then v else marked b j)
    as Hm.
  { intros j Hj. rewrite (marked_with_word _ _ w) by done.
    pose proof (Z.div_mod j 8). pose proof (Z.div_mod i 8).
    pose proof (Z.mod_pos_bound j 8). pose proof (Z.mod_pos_bound i 8).
    destruct (Z.eqb_spec (j / 8) (i / 8)) as [He|Hne].
    - rewrite Hbits by lia. destruct (Z.eqb_spec j i) as [->|]; [by rewrite Z.eqb_refl|].
      destruct (Z.eqb_spec (j mod 8) (i mod 8)); [lia|].
      unfold marked. by rewrite He, Hw.
    - destruct (Z.eqb_spec j i) as [->|]; [lia|done]. }
  split; [|done]. destruct Hok as (Hn & Hlen & Hb & Hover). split_and!; simpl; try done; try lia.
  - by rewrite length_insert.
  - intros k x Hx. destruct (decide (k = Z.to_nat (i / 8))) as [->|].
    + rewrite list_lookup_insert_eq in Hx by (by eapply lookup_lt_Some). by simplify_eq.
    + rewrite list_lookup_insert_ne in Hx by done. by eapply Hb.
  - intros j Hj. rewrite Hm by lia. destruct (Z.eqb_spec j i); [lia|]. by apply Hover.
Qed.

Lemma index_word b i : bitmap_ok b -> 0 <= i < nbits b -> 0 <= i / 8 < bitmap_words (nbits b).
Proof.
  intros Hok Hi. rewrite bitmap_words_eq by done. split; [apply Z.div_pos; lia|].
  apply Z.div_lt_upper_bound; [lia|]. pose proof (Z.div_mod (nbits b + 7) 8).
  pose proof (Z.mod_pos_bound (nbits b + 7) 8). lia.
Qed.

End bits.

(** ** Operations *)

Section bitmap_specs.
Implicit Types b : bitmap.

Lemma alloc_in_word_spec b i :
  bitmap_ok b -> 0 <= i < nbits b -> marked b i = false ->
  (forall j, 0 <= j < i -> marked b j = true) ->
  exists w, b_v b !! Z.to_nat (i / 8) = Some w /\ 0 <= w < 256 /\
    alloc_in_word (i / 8) b =
      (Ret (Some i), with_word (i / 8) (Z.lor w (2 ^ (i mod 8))) b).
Proof.
  intros Hok Hi Hfree Hlow. pose proof (index_word b i Hok Hi) as Hix.
  destruct (word_at b (i / 8) Hok Hix) as (w & Hw & Hwr & Hword & Hset).
  exists w. do 2 (split; [done|]).
  pose proof (Z.mod_pos_bound i 8) as Hm. pose proof (Z.div_mod i 8) as Hdm.
  assert (forall o, 0 <= o < 8 -> marked b (8 * (i / 8) + o) = Z.testbit w o) as Hbit.
  { intros. apply marked_word; lia || done. }
  unfold alloc_in_word. change BITS_PER_WORD with 8.
  rewrite (seqZ_split 8 (i mod 8)) by lia. apply for_find_first.
  - intros o Ho%elem_of_seqZ. unfold bind. rewrite Hword, mask_pow2 by lia.
    rewrite land_pow2_eqb, <- Hbit, Hlow by lia. done.
  - unfold bind, gets, assert. rewrite Hword, mask_pow2 by lia.
    rewrite land_pow2_eqb, <- Hbit by lia.
    replace (8 * (i / 8) + i mod 8) with i by lia. rewrite Hfree; simpl. rewrite Hset; simpl.
    destruct Hok as (? & _).
    replace (i / 8 * 8 + i mod 8) with i by lia.
    rewrite u32_small by lia. by zbool.
Qed.

(** The struct and its bytes stay where they are. *)
Definition same_place (b b' : bitmap) : Prop := b_self b' = b_self b /\ b_addr b' = b_addr b.

Lemma bitmap_alloc_spec b :
  bitmap_ok b ->
  (exists i b', bitmap_alloc b = (Ret i, b') /\ bitmap_ok b' /\ nbits b' = nbits b /\ same_place b b' /\
     0 <= i < nbits b /\ marked b i = false /\ (forall j, 0 <= j < i -> marked b j = true) /\
     forall j, 0 <= j -> marked b' j = if j =? i then true else marked b j) \/
  (bitmap_alloc b = (Err ENOSPC, b) /\ forall j, 0 <= j < nbits b -> marked b j = true).
Proof.
  intros Hok. pose proof (bitmap_words_eq b Hok) as Hwords.
  assert (forall ix w, 0 <= ix < bitmap_words (nbits b) -> b_v b !! Z.to_nat ix = Some w ->
    (forall o, 0 <= o < 8 -> marked b (8 * ix + o) = true) -> w = 255) as Hfull.
  { intros ix w Hix Hw Hall. pose proof Hok as (_ & _ & Hb & _).
    apply byte_full; [by eapply Hb|].
    intros o Ho. rewrite <- (marked_word b ix w o) by (done || lia). by apply Hall. }
  destruct (least_false (marked b) (nbits b)) as [Hall|(i & Hi & Hfree & Hlow)].
  - right. split; [|done]. unfold bitmap_alloc, bind, gets.
    rewrite for_find_none; [done|]. intros ix Hix%elem_of_seqZ.
    destruct (word_at b ix Hok) as (w & Hw & Hwr & -> & _); [lia|].
    assert (w = 255) as ->; [|done]. apply (Hfull ix); [lia|done|].
    intros o Ho. destruct (decide (8 * ix + o < nbits b)); [apply Hall; lia|].
    destruct Hok as (_ & _ & _ & Hover). apply Hover. lia.
  - left. destruct (alloc_in_word_spec b i Hok Hi Hfree Hlow) as (w & Hw & Hwr & Ha).
    pose proof (Z.mod_pos_bound i 8) as Hm. pose proof (Z.div_mod i 8) as Hdm.
    destruct (with_bit_ok b i w (Z.lor w (2 ^ (i mod 8))) true) as [Hok' Hm']; try done.
    { apply byte_lor_range; lia. }
    { intros o Ho. rewrite lor_pow2_bit by lia. by destruct (o =? i mod 8). }
    exists i, (with_word (i / 8) (Z.lor w (2 ^ (i mod 8))) b). split_and!; try done; try lia.
    pose proof (index_word b i Hok Hi) as Hix.
    unfold bitmap_alloc, bind, gets.
    rewrite (seqZ_split (bitmap_words (nbits b)) (i / 8)) by lia.
    erewrite for_find_first; [done| |].
    + intros ix Hix'%elem_of_seqZ.
      destruct (word_at b ix Hok) as (w1 & Hw1 & _ & -> & _); [lia|].
      assert (w1 = 255) as ->; [|done]. apply (Hfull ix); [lia|done|].
      intros o Ho. apply Hlow. lia.
    + cbv beta. destruct (word_at b (i / 8) Hok Hix) as (w2 & Hw2 & _ & -> & _).
      simplify_eq. destruct (Z.eqb_spec w WORD_ALLBITS) as [->|Hne]; simpl.
      * exfalso. pose proof (marked_word b (i / 8) _ (i mod 8) Hw) as Hmw.
        unfold WORD_ALLBITS in Hmw. rewrite byte_255_bit, <- Hdm, Hfree in Hmw by lia.
        specialize (Hmw ltac:(lia) ltac:(lia)). done.
      * rewrite Ha. done.
Qed.

(** Marking, clearing and testing a bit by number. *)
Lemma translate_eq i : bitmap_translate i = (i / 8, 2 ^ (i mod 8)).
Proof.
  unfold bitmap_translate, BITS_PER_WORD. rewrite mask_pow2; [done|].
  by apply Z.mod_pos_bound.
Qed.

Lemma bitmap_isset_spec b i :
  bitmap_ok b -> 0 <= i < nbits b ->
  exists r, bitmap_isset i b = (Ret r, b) /\ (r <> 0 <-> marked b i = true).
Proof.
  intros Hok Hi. destruct (word_at b (i / 8) Hok (index_word b i Hok Hi)) as (w & Hw & _ & Hword & _).
  exists (Z.land w (2 ^ (i mod 8))). unfold bitmap_isset. rewrite translate_eq.
  unfold bind. rewrite Hword. split; [done|].
  pose proof (Z.mod_pos_bound i 8). pose proof (land_pow2_eqb w (i mod 8)) as Hl.
  unfold marked. rewrite Hw. destruct (Z.testbit w (i mod 8)); simpl in Hl; split; lia || done.
Qed.

Lemma bitmap_mark_unmark_spec b i :
  bitmap_ok b -> 0 <= i < nbits b ->
  (if marked b i
   then bitmap_mark i b = (Panic, b)
   else exists b', bitmap_mark i b = (Ret tt, b') /\ bitmap_ok b' /\ nbits b' = nbits b /\ same_place b b' /\
          forall j, 0 <= j -> marked b' j = if j =? i then true else marked b j) /\
  (if marked b i
   then exists b', bitmap_unmark i b = (Ret tt, b') /\ bitmap_ok b' /\ nbits b' = nbits b /\ same_place b b' /\
          forall j, 0 <= j -> marked b' j = if j =? i then false else marked b j
   else bitmap_unmark i b = (Panic, b)).
Proof.
  intros Hok Hi.
  destruct (word_at b (i / 8) Hok (index_word b i Hok Hi)) as (w & Hw & Hwr & Hword & Hset).
  pose proof (Z.mod_pos_bound i 8) as Hm.
  assert (marked b i = Z.testbit w (i mod 8)) as Hmi by (unfold marked; by rewrite Hw).
  unfold bitmap_mark, bitmap_unmark, bind, gets, assert. rewrite translate_eq, Hmi. zbool.
  rewrite Hword, land_pow2_eqb by lia.
  split; destruct (Z.testbit w (i mod 8)); simpl; try done.
  - rewrite Hset.
    destruct (with_bit_ok b i w (Z.lor w (2 ^ (i mod 8))) true) as [? ?]; try done.
    + apply byte_lor_range; lia.
    + intros o Ho. rewrite lor_pow2_bit by lia. by destruct (o =? i mod 8).
    + by eexists.
  - pose proof (byte_clear_range w (i mod 8)) as Hr.
    unfold u8. rewrite Hset, Z.mod_small by lia.
    destruct (with_bit_ok b i w (Z.land w (Z.lnot (2 ^ (i mod 8)))) false) as [? ?]; try done.
    + lia.
    + intros o Ho. rewrite land_lnot_pow2_bit by lia. by destruct (o =? i mod 8).
    + by eexists.
Qed.

(** [bitmap_alloc] hands out the lowest clear bit and marks it, leaving every
    other bit alone; it returns ENOSPC, changing nothing, exactly when all
    [nbits] bits are marked.  It never panics. *)
Theorem bitmap_alloc_correct b :
  bitmap_ok b ->
  (exists i b', bitmap_alloc b = (Ret i, b') /\ bitmap_ok b' /\ nbits b' = nbits b /\
     0 <= i < nbits b /\ marked b i = false /\ (forall j, 0 <= j < i -> marked b j = true) /\
     forall j, 0 <= j -> marked b' j = if j =? i then true else marked b j) \/
  (bitmap_alloc b = (Err ENOSPC, b) /\ forall j, 0 <= j < nbits b -> marked b j = true).
Proof.
  intros Hok. destruct (bitmap_alloc_spec b Hok) as [(i & b' & ? & ? & ? & _ & ?)|?]; [|by right].
  left. exists i, b'. tauto.
Qed.

(** [bitmap_mark] and [bitmap_unmark] set and clear exactly the bit they are
    given when it is in the opposite state, and panic otherwise. *)
Theorem bitmap_mark_unmark_correct b i :
  bitmap_ok b -> 0 <= i < nbits b ->
  (if marked b i
   then bitmap_mark i b = (Panic, b)
   else exists b', bitmap_mark i b = (Ret tt, b') /\ bitmap_ok b' /\ nbits b' = nbits b /\
          forall j, 0 <= j -> marked b' j = if j =? i then true else marked b j) /\
  (if marked b i
   then exists b', bitmap_unmark i b = (Ret tt, b') /\ bitmap_ok b' /\ nbits b' = nbits b /\
          forall j, 0 <= j -> marked b' j = if j =? i then false else marked b j
   else bitmap_unmark i b = (Panic, b)).
Proof.
  intros Hok Hi. destruct (bitmap_mark_unmark_spec b i Hok Hi) as [Hm Hu].
  destruct (marked b i).
  - split; [done|]. destruct Hu as (b' & ? & ? & ? & _ & ?). by exists b'.
  - split; [|done]. destruct Hm as (b' & ? & ? & ? & _ & ?). by exists b'.
Qed.

End bitmap_specs.

(** ** Creation *)

Section bitmap_creation.
Context {H : Type} `{HeapLaws H}.

Definition blank (s n d : Z) : bitmap :=
  mk_bitmap s n d (replicate (Z.to_nat (bitmap_words n)) 0).

Lemma blank_word s n d ix : 0 <= ix < bitmap_words n ->
  b_v (blank s n d) !! Z.to_nat ix = Some 0.
Proof. intros. simpl. apply lookup_replicate_2. lia. Qed.

Lemma blank_marked s n d j : marked (blank s n d) j = false.
Proof.
  unfold marked, blank; simpl. destruct (replicate _ 0 !! _) eqn:E; [|done].
  apply lookup_replicate in E as [-> _]. apply Z.testbit_0_l.
Qed.

(** The low [k] bits clear, the other bits of the byte set. *)
Definition high_bits (over k : Z) : Z := Z.shiftl (Z.ones (k - over)) over.

Lemma high_bits_bit over k o : 0 <= over <= k -> 0 <= o ->
  Z.testbit (high_bits over k) o = (over <=? o) && (o <? k).
Proof.
  intros. unfold high_bits. rewrite Z.shiftl_spec by lia.
  destruct (Z.leb_spec over o); simpl; [|rewrite Z.testbit_neg_r; lia || done].
  destruct (Z.ltb_spec o k).
  - apply Z.ones_spec_low. lia.
  - apply Z.ones_spec_high. lia.
Qed.

Lemma high_bits_step over j : 0 <= over <= j -> j < 8 ->
  u8 (Z.lor (high_bits over j) (Z.shiftl 1 j)) = high_bits over (j + 1).
Proof.
  intros Ho Hj. unfold u8. rewrite <- Z.land_ones by lia. apply Z.bits_inj'. intros o Hno.
  rewrite Z.land_spec, Z.shiftl_1_l, lor_pow2_bit, !high_bits_bit by lia.
  destruct (Z.ltb_spec o 8).
  - rewrite Z.ones_spec_low by lia. rewrite andb_true_r. lia.
  - rewrite Z.ones_spec_high by lia. lia.
Qed.

Lemma leftover_shape n : 0 <= n < 2 ^ 31 ->
  if decide (n mod 8 = 0) then bitmap_words n = n / 8
  else bitmap_words n = n / 8 + 1 /\ 0 < n mod 8 < 8 /\ n = 8 * (n / 8) + n mod 8.
Proof.
  intros Hn. unfold bitmap_words, BITS_PER_WORD. rewrite u32_small by lia.
  pose proof (Z.div_mod n 8). pose proof (Z.mod_pos_bound n 8).
  case_decide.
  - symmetry. apply (Z.div_unique _ _ _ 7); lia.
  - split; [symmetry; apply (Z.div_unique _ _ _ (n mod 8 - 1)); lia|lia].
Qed.

Lemma high_bits_ok s n d : 0 <= n < 2 ^ 31 -> n mod 8 <> 0 ->
  let b := with_word (n / 8) (high_bits (n mod 8) 8) (blank s n d) in
  bitmap_ok b /\ forall j, 0 <= j < n -> marked b j = false.
Proof.
  intros Hn Hmod b. pose proof (leftover_shape n Hn) as Hs.
  rewrite decide_False in Hs by done. destruct Hs as (Hw & Hr & Hdm).
  assert (0 <= n / 8) by lia.
  assert (forall j, 0 <= j -> marked b j = (j / 8 =? n / 8) && (n mod 8 <=? j mod 8)) as Hm.
  { intros j Hj. unfold b. rewrite (marked_with_word _ _ 0) by (done || apply blank_word; lia).
    destruct (j / 8 =? n / 8); [|apply blank_marked].
    pose proof (Z.mod_pos_bound j 8). rewrite high_bits_bit by lia. lia. }
  assert (0 <= high_bits (n mod 8) 8 < 256) as Hbr.
  { unfold high_bits. rewrite Z.shiftl_mul_pow2, Z.ones_equiv by lia.
    rewrite <- Z.sub_1_r, Z.mul_sub_distr_r, <- Z.pow_add_r by lia.
    replace (8 - n mod 8 + n mod 8) with 8 by lia.
    pose proof (Z.pow_pos_nonneg 2 (n mod 8)).
    pose proof (Z.pow_lt_mono_r 2 (n mod 8) 8). lia. }
  split; [split_and!; simpl; try done; try lia|].
  - by rewrite length_insert, length_replicate.
  - intros k w Hk. destruct (decide (k = Z.to_nat (n / 8))) as [->|].
    + rewrite list_lookup_insert_eq in Hk by (rewrite length_replicate; lia). by simplify_eq.
    + rewrite list_lookup_insert_ne in Hk by done.
      apply lookup_replicate in Hk as [-> _]. lia.
  - intros i Hi. simpl in Hi. rewrite Hw in Hi. fold b. rewrite Hm by lia.
    pose proof (Z.div_mod i 8). pose proof (Z.mod_pos_bound i 8). nia.
  - intros j Hj. rewrite Hm by lia.
    pose proof (Z.div_mod j 8). pose proof (Z.mod_pos_bound j 8). nia.
Qed.

Lemma mark_leftover_spec s n d : 0 <= n < 2 ^ 31 ->
  runs (mark_leftover (bitmap_words n)) (blank s n d)
    (fun _ b => bitmap_ok b /\ nbits b = n /\ b_self b = s /\ b_addr b = d /\
                forall j, 0 <= j < n -> marked b j = false)
    (fun _ _ => False).
Proof.
  intros Hn. pose proof (leftover_shape n Hn) as Hs. unfold mark_leftover, BITS_PER_WORD. run.
  simpl nbits. destruct (decide (n mod 8 = 0)) as [Hm|Hm].
  - rewrite Hs. zbool. run. split_and!; try done; [|intros; apply blank_marked].
    split_and!; simpl; try done; try lia.
    + apply length_replicate.
    + intros k w [-> _]%lookup_replicate. lia.
    + pose proof (Z.div_mod n 8). lia.
  - destruct Hs as (Hw & Hr & Hdm). rewrite Hw. zbool. run; [lia|lia|].
    replace (n / 8 + 1 - 1) with (n / 8) by lia.
    replace (n - n / 8 * 8) with (n mod 8) by lia.
    pose proof (high_bits_ok s n d Hn Hm) as [Hok Hclear].
    eapply (runs_for_each (fun pre _ b =>
      b = with_word (n / 8) (high_bits (n mod 8) (n mod 8 + Z.of_nat (length pre))) (blank s n d))).
    + replace (high_bits _ _) with 0.
      2: { unfold high_bits. simpl length. replace (n mod 8 + Z.of_nat 0 - n mod 8) with 0 by lia.
           change (Z.ones 0) with 0. by rewrite Z.shiftl_0_l. }
      unfold with_word. rewrite list_insert_id; [done|]. apply blank_word. lia.
    + intros pre j post b Hl ->.
      assert (j = n mod 8 + Z.of_nat (length pre) /\ j < 8) as [-> Hj].
      { assert (seqZ (n mod 8) (8 - n mod 8) !! length pre = Some j) as Hj
          by (rewrite Hl; by apply list_lookup_middle).
        apply lookup_seqZ in Hj. lia. }
      assert (Z.to_nat (n / 8) < length (b_v (blank s n d)))%nat as Hlt.
      { simpl. rewrite length_replicate. lia. }
      unfold runs, bind, word, set_word, with_word; simpl in *.
      rewrite list_lookup_insert_eq by done. simpl.
      rewrite list_lookup_insert_eq, list_insert_insert_eq by done.
      rewrite high_bits_step by lia. rewrite length_app; simpl. do 3 f_equal. lia.
    + intros b ->. rewrite length_seqZ.
      replace (n mod 8 + Z.of_nat (Z.to_nat (8 - n mod 8))) with 8 by lia.
      split_and!; try done; apply Hclear.
Qed.

(** A new bitmap of [n] bits is well formed with all [n] bits clear; when
    memory runs out half way, what was allocated is freed again. *)
Theorem bitmap_create_correct (h : H) bs n :
  heap_ok h -> owns h bs -> 0 <= n < 2 ^ 31 ->
  runs (bitmap_create n) h
    (fun o h' => heap_ok h' /\ match o with
       | Some b => bitmap_ok b /\ nbits b = n /\ (forall j, 0 <= j < n -> marked b j = false) /\
                   owns h' ((b_addr b, bitmap_words n) :: (b_self b, 8) :: bs)
       | None => owns h' bs /\ live h' = live h
       end)
    (fun _ _ => False).
Proof.
  intros Hok Ho Hn. unfold bitmap_create. run.
  eapply runs_mono; [by eapply kmalloc_owns; [..|lia]| |done].
  intros p h1 (Hok1 & [(-> & Ho1 & Hl1)|(Hp & Ho1 & Hl1 & Hf1)]); [by run|]. zbool. run.
  assert (0 <= bitmap_words n < 2 ^ 31) as Hw.
  { unfold bitmap_words, BITS_PER_WORD. rewrite u32_small by lia.
    split; [apply Z.div_pos; lia|]. apply Z.div_lt_upper_bound; lia. }
  eapply runs_mono; [eapply kmalloc_owns; [done|exact Ho1|exact Hw]| |done].
  intros d h2 (Hok2 & [(-> & Ho2 & Hl2)|(Hd & Ho2 & _)]); cbn beta; zbool.
  - run. eapply runs_mono; [by eapply kfree_owns| |done].
    intros [] h3 (?&?&Hl3). run. do 2 (split; [done|]).
    rewrite Hl3, Hl2, Hl1. by apply delete_insert_id.
  - pose proof (mark_leftover_spec p n d Hn) as Hm. unfold runs in *.
    fold (blank p n d). destruct (mark_leftover _ _) as [[[]| | |] b]; try done.
    destruct Hm as (? & ? & Hs & Ha & ?). rewrite Hs, Ha. done.
Qed.

End bitmap_creation.

(** ** Instances at concrete maps *)

(** Ten bits: bits 0 to 8 in use, bit 9 free, and the six bits past the end. *)
Definition ten_bits : bitmap := mk_bitmap 0 10 0 [255; 253].

Lemma ten_bits_ok : bitmap_ok ten_bits.
Proof.
  split_and!; simpl; try done; try lia.
  - intros [|[|k]] w; simpl; intros; simplify_eq; lia.
  - change (8 * bitmap_words 10) with 16. intros i Hi.
    assert (i ∈ seqZ 10 6) as Hin by (apply elem_of_seqZ; lia).
    assert (Forall (fun i => marked ten_bits i = true) (seqZ 10 6)) as HF
      by (repeat constructor).
    rewrite Forall_forall in HF. by apply HF.
Qed.

Lemma bitmap_alloc_correct_witness :
  bitmap_ok ten_bits /\ bitmap_alloc ten_bits = (Ret 9, mk_bitmap 0 10 0 [255; 255]) /\
  (exists i b', bitmap_alloc ten_bits = (Ret i, b') /\ 0 <= i < nbits ten_bits /\
     marked ten_bits i = false).
Proof.
  split; [exact ten_bits_ok|]. split; [vm_compute; reflexivity|].
  destruct (bitmap_alloc_correct ten_bits ten_bits_ok)
    as [(i & b' & Hr & _ & _ & Hi & Hm & _)|[Hr _]].
  - exists i, b'. auto.
  - exfalso. vm_compute in Hr. discriminate Hr.
Defined.

Lemma bitmap_mark_unmark_correct_witness :
  bitmap_ok ten_bits /\ marked ten_bits 9 = false /\
  (exists b', bitmap_mark 9 ten_bits = (Ret tt, b') /\
     forall j, 0 <= j -> marked b' j = if j =? 9 then true else marked ten_bits j) /\
  bitmap_unmark 9 ten_bits = (Panic, ten_bits).
Proof.
  split; [exact ten_bits_ok|]. split; [reflexivity|].
  destruct (bitmap_mark_unmark_correct ten_bits 9 ten_bits_ok) as [Hm Hu]; [simpl; lia|].
  change (marked ten_bits 9) with false in *. split; [|exact Hu].
  destruct Hm as (b' & ? & _ & _ & ?). eauto.
Defined.

Lemma bitmap_create_correct_witness :
  exists h', bitmap_create 10 (Quota.start 2) =
    (Ret (Some (mk_bitmap 4096 10 4105 [0; 252])), h') /\
    bitmap_ok (mk_bitmap 4096 10 4105 [0; 252]).
Proof.
  pose proof (bitmap_create_correct (Quota.start 2) [] 10 (Quota.start_ok 2) (owns_nil _)
    ltac:(lia)) as Hr.
  assert ((bitmap_create 10 (Quota.start 2)).1 = Ret (Some (mk_bitmap 4096 10 4105 [0; 252])))
    as E by (vm_compute; reflexivity).
  unfold runs in Hr. destruct (bitmap_create 10 (Quota.start 2)) as [r h'].
  simpl in E. subst r. exists h'. split; [reflexivity|apply Hr].
Defined.
