(* ===== verification/SynchObj.v ===== *)
(** Synchronisation objects as heap objects: creation and destruction of
    semaphores, locks and condition variables (kern/thread/synch.c), and the
    lock operations as a thread sees them when nobody else holds the lock.

    What the operations do between threads is in Synch.v. *)

From Stdlib Require Import ZArith Lia.
From stdpp Require Import prelude gmap list.
From S2P Require Import Prelude Heap.

(** ** Definitions *)

(** [struct semaphore] and [struct cv] with the addresses of their two blocks;
    the name is represented by its block. *)
Record semaphore := mk_sem { sem_self : Z; sem_name : Z; sem_count : Z }.
Record cv := mk_cv { cv_self : Z; cv_name : Z }.

(** [struct lock]; [lk_held] stands for [own == curthread]. *)
Record lock := mk_lock { lk_self : Z; lk_name : Z; lk_held : bool }.

Section synch_objects.
Context {H : Type} `{!Heap H}.

(** [kstrdup] of a name of [len] characters. *)
Definition kstrdup (len : Z) : M H Z := kmalloc (len + 1).

(** The pattern of the three create functions: the struct, then its name. *)
Definition named_create (size len : Z) : M H (option (Z * Z)) :=
  p <- kmalloc size ;;
  if p =? 0 then ret None
  else
    n <- kstrdup len ;;
    if n =? 0 then kfree p ;;; ret None else ret (Some (p, n)).

Definition sem_create (len initial_count : Z) : M H (option semaphore) :=
  assert (initial_count >=? 0) ;;;
  r <- named_create 8 len ;;
  ret (match r with Some (p, n) => Some (mk_sem p n initial_count) | None => None end).

Definition lock_create (len : Z) : M H (option lock) :=
  r <- named_create 8 len ;;
  ret (match r with Some (p, n) => Some (mk_lock p n false) | None => None end).

Definition cv_create (len : Z) : M H (option cv) :=
  r <- named_create 4 len ;;
  ret (match r with Some (p, n) => Some (mk_cv p n) | None => None end).

Definition lock_destroy (l : lock) : M H unit := kfree (lk_name l) ;;; kfree (lk_self l).

Definition cv_destroy (c : cv) : M H unit := kfree (cv_name c) ;;; kfree (cv_self c).

End synch_objects.

(** Acquiring and releasing without contention; a lock that is held would put the
    thread to sleep. *)
Definition lock_take : M lock unit := fun l =>
  if lk_held l then (Spin, l) else (Ret tt, mk_lock (lk_self l) (lk_name l) true).
Definition lock_drop : M lock unit := fun l =>
  if lk_held l then (Ret tt, mk_lock (lk_self l) (lk_name l) false) else (Panic, l).

(** ** Heap accounting *)

Section synch_heap.
Context {H : Type} `{HeapLaws H}.

Definition lock_blocks (l : lock) (len : Z) : list (Z * Z) :=
  [(lk_name l, len + 1); (lk_self l, 8)].

Lemma named_create_owns h bs size len : heap_ok h -> owns h bs ->
  0 <= size < 2 ^ 31 -> 0 <= len < 2 ^ 31 - 1 ->
  runs (named_create size len) h
    (fun r h' => heap_ok h' /\
       match r with
       | Some (p, n) => p <> 0 /\ n <> 0 /\ owns h' ((n, len + 1) :: (p, size) :: bs)
       | None => owns h' bs
       end)
    (fun _ _ => False).
Proof.
  intros Hok Ho Hs Hl. unfold named_create, kstrdup. run.
  eapply runs_mono; [by apply kmalloc_owns| |done].
  intros p h1 (Hok1 & [(-> & Ho1 & _)|(Hp & Ho1 & _ & _)]); zbool.
  { by run. }
  run.
  eapply runs_mono; [apply kmalloc_owns; [done|done|lia]| |done].
  intros n h2 (Hok2 & [(-> & Ho2 & _)|(Hn & Ho2 & _ & _)]); zbool.
  - run. eapply runs_mono; [by eapply kfree_owns| |done].
    intros [] h3 (Hok3 & Ho3 & _). by run.
  - by run.
Qed.

Lemma lock_create_owns h bs len : heap_ok h -> owns h bs -> 0 <= len < 2 ^ 31 - 1 ->
  runs (lock_create len) h
    (fun r h' => heap_ok h' /\
       match r with
       | Some l => lk_held l = false /\ owns h' (lock_blocks l len ++ bs)
       | None => owns h' bs
       end)
    (fun _ _ => False).
Proof.
  intros Hok Ho Hl. unfold lock_create. run.
  eapply runs_mono; [by apply (named_create_owns h bs 8 len)| |done].
  intros [[p n]|] h' [? Hr]; run; [|done]. naive_solver.
Qed.

Lemma lock_destroy_owns h bs l len : heap_ok h -> owns h (lock_blocks l len ++ bs) ->
  runs (lock_destroy l) h (fun _ h' => heap_ok h' /\ owns h' bs) (fun _ _ => False).
Proof.
  intros Hok Ho. unfold lock_blocks in Ho. simpl in Ho. unfold lock_destroy. run.
  eapply runs_mono; [by eapply kfree_owns| |done]. intros [] h1 (Hok1 & Ho1 & _).
  eapply runs_mono; [by eapply kfree_owns| |done]. naive_solver.
Qed.

End synch_heap.
