(* ===== verification/Vnode.v ===== *)
(** Abstract vnodes: kern/fs/vfs/vnode.c.

    A vnode counts references and opens under a lock; the last reference calls
    the file system's [vop_reclaim], the last close its [vop_close].  Routines
    that only touch the vnode run on the vnode; [vnode_decref] and
    [vnode_decopen] also call back into the file system, so they run on its
    state, through [on]. *)

From Stdlib Require Import ZArith Lia.
From stdpp Require Import prelude gmap list.
From S2P Require Import Prelude Heap SynchObj.

(** ** Constants *)

(** kern/include/kern/stat.h *)
Definition S_IFMT : Z := 28672.
Definition S_IFREG : Z := 4096.
Definition S_IFDIR : Z := 8192.
Definition S_IFCHR : Z := 16384.
Definition S_IFBLK : Z := 20480.
Definition S_ISDIR (mode : Z) : bool := Z.land mode S_IFMT =? S_IFDIR.

Record stat := mk_stat { st_mode : Z; st_size : Z; st_nlink : Z; st_blocks : Z }.

(** kern/include/kern/unistd.h *)
Definition O_RDONLY : Z := 0.
Definition O_WRONLY : Z := 1.
Definition O_RDWR : Z := 2.
Definition O_CREAT : Z := 4.
Definition O_EXCL : Z := 8.
Definition O_TRUNC : Z := 16.
Definition O_APPEND : Z := 32.
Definition O_ACCMODE : Z := 3.

(** ** Definitions *)

(** [O] is the type of function tables; [None] is a NULL pointer. *)
Record vnode (O : Type) := mk_vnode {
  vn_refcount : Z;
  vn_opencount : Z;
  vn_countlock : option lock;
  vn_fs : Z;
  vn_data : Z;
  vn_ops : option O;
}.
Arguments mk_vnode {O}.
Arguments vn_refcount {O}.
Arguments vn_opencount {O}.
Arguments vn_countlock {O}.
Arguments vn_fs {O}.
Arguments vn_data {O}.
Arguments vn_ops {O}.

Section vnode_ops.
Context {O : Type}.
Implicit Types (v : vnode O).

Definition set_refcount (n : Z) v : vnode O :=
  mk_vnode n (vn_opencount v) (vn_countlock v) (vn_fs v) (vn_data v) (vn_ops v).
Definition set_opencount (n : Z) v : vnode O :=
  mk_vnode (vn_refcount v) n (vn_countlock v) (vn_fs v) (vn_data v) (vn_ops v).
Definition set_countlock (l : option lock) v : vnode O :=
  mk_vnode (vn_refcount v) (vn_opencount v) l (vn_fs v) (vn_data v) (vn_ops v).

(** [lock_acquire(vn->vn_countlock)] and [lock_release(vn->vn_countlock)]. *)
Definition on_countlock (m : M lock unit) : M (vnode O) unit := fun v =>
  match vn_countlock v with
  | None => (Panic, v)
  | Some l => let '(r, l') := m l in (r, set_countlock (Some l') v)
  end.
Definition count_acquire : M (vnode O) unit := on_countlock lock_take.
Definition count_release : M (vnode O) unit := on_countlock lock_drop.

(** Length of "vnode-countlock". *)
Definition countlock_name : Z := 15.

(** [vnode_init(vn, ops, fs, fsdata)]: the vnode, or ENOMEM. *)
Definition vnode_init {H} `{!Heap H} (ops : O) (fs fsdata : Z) : M H (vnode O) :=
  l <- lock_create countlock_name ;;
  match l with
  | None => fail ENOMEM
  | Some l => ret (mk_vnode 1 0 (Some l) fs fsdata (Some ops))
  end.

(** [vnode_kill(vn)]: what is left of the vnode. *)
Definition vnode_kill {H} `{!Heap H} (v : vnode O) : M H (vnode O) :=
  assert (vn_refcount v =? 1) ;;;
  assert (vn_opencount v =? 0) ;;;
  match vn_countlock v with
  | None => panic
  | Some l => lock_destroy l ;;; ret (mk_vnode 0 0 None 0 0 None)
  end.

Definition vnode_incref : M (vnode O) unit :=
  count_acquire ;;;
  modify (fun v => set_refcount (i32 (vn_refcount v + 1)) v) ;;;
  count_release.

Definition vnode_incopen : M (vnode O) unit :=
  count_acquire ;;;
  modify (fun v => set_opencount (i32 (vn_opencount v + 1)) v) ;;;
  count_release.

(** [vnode_check(v, opstr)], before every VOP_* call; [is_reclaim] tells
    whether [opstr] is "reclaim". *)
Definition vnode_check (is_reclaim : bool) : M (vnode O) unit :=
  v <- get ;;
  (match vn_ops v with None => panic | Some _ => ret tt end) ;;;
  count_acquire ;;;
  (if vn_refcount v <? 0 then panic
   else if (vn_refcount v =? 0) && negb is_reclaim then panic else ret tt) ;;;
  (if vn_opencount v <? 0 then panic else ret tt) ;;;
  count_release.

(** [vnode_decref], on the state [S] of the file system: [on] runs a
    computation on the vnode, [reclaim] is VOP_RECLAIM. *)
Definition vnode_decref {S} (on : forall A, M (vnode O) A -> M S A) (reclaim : M S unit) :
    M S unit :=
  on unit count_acquire ;;;
  rc <- on Z (gets vn_refcount) ;;
  assert (rc >? 0) ;;;
  actually_do_it <-
    (if rc >? 1 then on unit (modify (set_refcount (rc - 1))) ;;; ret false else ret true) ;;
  on unit count_release ;;;
  if actually_do_it then result_of reclaim ;;; ret tt else ret tt.

Definition vnode_decopen {S} (on : forall A, M (vnode O) A -> M S A) (close : M S unit) :
    M S unit :=
  on unit count_acquire ;;;
  oc <- on Z (gets vn_opencount) ;;
  assert (oc >? 0) ;;;
  on unit (modify (set_opencount (oc - 1))) ;;;
  on unit count_release ;;;
  if oc - 1 >? 0 then ret tt else result_of close ;;; ret tt.

(** ** What the routines do *)

(** A live vnode whose lock is free. *)
Definition vnode_ok v : Prop :=
  0 < vn_refcount v < 2 ^ 31 - 1 /\ 0 <= vn_opencount v < 2 ^ 31 - 1 /\
  (exists l, vn_countlock v = Some l /\ lk_held l = false) /\ vn_ops v <> None.

Lemma vnode_eta v : mk_vnode (vn_refcount v) (vn_opencount v) (vn_countlock v) (vn_fs v)
  (vn_data v) (vn_ops v) = v.
Proof. by destruct v. Qed.

Lemma lock_eta l : lk_held l = false -> mk_lock (lk_self l) (lk_name l) false = l.
Proof. destruct l; simpl. by intros ->. Qed.

Lemma vnode_incref_eq v : vnode_ok v ->
  vnode_incref v = (Ret tt, set_refcount (vn_refcount v + 1) v).
Proof.
  intros (Hr & _ & (l & Hl & Hh) & _).
  unfold vnode_incref, bind, count_acquire, count_release, on_countlock, lock_take, lock_drop, modify.
  rewrite Hl, Hh. simpl. rewrite lock_eta by done. rewrite i32_small by lia.
  unfold set_countlock, set_refcount. simpl. by rewrite <- Hl.
Qed.

Lemma vnode_incopen_eq v : vnode_ok v ->
  vnode_incopen v = (Ret tt, set_opencount (vn_opencount v + 1) v).
Proof.
  intros (_ & Ho & (l & Hl & Hh) & _).
  unfold vnode_incopen, bind, count_acquire, count_release, on_countlock, lock_take, lock_drop, modify.
  rewrite Hl, Hh. simpl. rewrite lock_eta by done. rewrite i32_small by lia.
  unfold set_countlock, set_opencount. simpl. by rewrite <- Hl.
Qed.

Lemma vnode_check_eq b v : vnode_ok v -> vnode_check b v = (Ret tt, v).
Proof.
  intros (Hr & Ho & (l & Hl & Hh) & Hops).
  unfold vnode_check, bind, get, count_acquire, count_release, on_countlock, lock_take, lock_drop.
  destruct (vn_ops v) eqn:E; [|done]. simpl. rewrite Hl, Hh. zbool. simpl.
  rewrite lock_eta by done. unfold set_countlock. simpl. rewrite <- Hl, vnode_eta. done.
Qed.

(** [vnode_decref] with other references left is a decrement; with none left
    it is the reclaim, whose error is only reported. *)
Lemma vnode_decref_eq {S} (view : S -> vnode O) (store : vnode O -> S -> S)
    (reclaim : M S unit) (s : S) :
  (forall v s, view (store v s) = v) -> (forall v v' s, store v (store v' s) = store v s) ->
  (forall s, store (view s) s = s) -> vnode_ok (view s) ->
  vnode_decref (fun A => zoom view store) reclaim s =
    if vn_refcount (view s) >? 1
    then (Ret tt, store (set_refcount (vn_refcount (view s) - 1) (view s)) s)
    else bind (result_of reclaim) (fun _ => ret tt) s.
Proof.
  intros Hvs Hss Hsv (Hr & _ & (l & Hl & Hh) & _).
  destruct (view s) as [r o cl f dt ops] eqn:Hv. simpl in *. subst cl.
  destruct l as [ls ln lh]. simpl in Hh. subst lh.
  unfold vnode_decref, bind, zoom, count_acquire, count_release, on_countlock,
    lock_take, lock_drop, gets, modify, assert.
  rewrite Hv. cbn. rewrite Hvs. cbn. zbool. rewrite Hss.
  assert (store (mk_vnode r o (Some (mk_lock ls ln false)) f dt ops) s = s) as Hid.
  { rewrite <- Hv. apply Hsv. }
  destruct (Z.gtb_spec r 1); cbn; rewrite !Hvs; cbn; rewrite ?Hss, ?Hid; [done|].
  unfold set_countlock. cbn. by rewrite Hid.
Qed.

End vnode_ops.
