(* ===== verification/Copy.v ===== *)
(** Copying between user and kernel memory: kern/lib/copyinout.c.

    The kernel touches user memory one access at a time; an access either goes
    through or ends in a fatal fault, which the trap code turns into a jump to
    [pcb_badfaultfunc] when that is set and into a kernel panic when it is not.
    [UserMem] is the interface to user memory (page tables, TLB and [vm_fault]
    stand behind it); [uthread] is the part of the current thread the routines
    use.  Kernel buffers are passed and returned by value; what a failed copy
    leaves in its kernel destination is not represented, no caller reads it.

    The theorems: whatever pointer and length a user program passes, the kernel
    neither panics nor touches an address outside user space, success means an
    exact copy, and [pcb_badfaultfunc] is always reset. *)

From Stdlib Require Import ZArith Lia.
From stdpp Require Import prelude gmap list.
From S2P Require Import Prelude Pages.

(** ** User memory *)

Definition USERTOP : Z := MIPS_KSEG0.

Class UserMem (U : Type) := {
  (** Reading and writing one byte; [Err] is a fatal fault. *)
  load_user : Z -> M U Z;
  store_user : Z -> Z -> M U unit;
}.

(** [ubytes u] is what user memory holds; pages not touched yet read as the
    bytes they will get. *)
Class UserMemLaws (U : Type) `{UserMem U} := {
  umem_ok : U -> Prop;
  ubytes : U -> Z -> Z;
  ubytes_range : forall u a, umem_ok u -> 0 <= ubytes u a < 256;
  load_user_spec : forall u a, umem_ok u -> 0 <= a < USERTOP ->
    runs (load_user a) u
      (fun b u' => b = ubytes u a /\ umem_ok u' /\ forall x, ubytes u' x = ubytes u x)
      (fun _ u' => umem_ok u' /\ forall x, ubytes u' x = ubytes u x);
  store_user_spec : forall u a b, umem_ok u -> 0 <= a < USERTOP -> 0 <= b < 256 ->
    runs (store_user a b) u
      (fun _ u' => umem_ok u' /\ forall x, ubytes u' x = if x =? a then b else ubytes u x)
      (fun _ u' => umem_ok u' /\ forall x, ubytes u' x = ubytes u x);
}.

(** ** Definitions *)

(** The current thread: its address space, whether [pcb_badfaultfunc] is set,
    and the user memory its address space maps. *)
Record uthread (U : Type) := mk_uthread {
  t_vmspace : Z;
  badfault : bool;
  umem : U;
}.
Arguments mk_uthread {U}.
Arguments t_vmspace {U}.
Arguments badfault {U}.
Arguments umem {U}.

Definition set_badfault {U} (b : bool) (t : uthread U) : uthread U :=
  mk_uthread (t_vmspace t) b (umem t).
Definition set_umem {U} (u : U) (t : uthread U) : uthread U :=
  mk_uthread (t_vmspace t) (badfault t) u.

Section copy_ops.
Context {U : Type} `{!UserMem U}.

(** An access from kernel mode: a fatal fault resumes in [copyfail], which
    unwinds to the [setjmp], or panics when no recovery function is set. *)
Definition touch {A} (m : M U A) : M (uthread U) A := fun t =>
  match m (umem t) with
  | (Ret a, u) => (Ret a, set_umem u t)
  | (Err _, u) => (if badfault t then Err EFAULT else Panic, set_umem u t)
  | (Panic, u) => (Panic, set_umem u t)
  | (Spin, u) => (Spin, set_umem u t)
  end.

(** Setting [pcb_badfaultfunc], the [setjmp], the body, and clearing
    [pcb_badfaultfunc] on both ways out. *)
Definition guarded {A} (m : M (uthread U) A) : M (uthread U) A :=
  modify (set_badfault true) ;;;
  r <- try m ;;
  modify (set_badfault false) ;;;
  match r with inl e => fail e | inr a => ret a end.

(** The length that can be copied, or EFAULT. *)
Definition copycheck {S} (userptr len : Z) : M S Z :=
  let bot := userptr in
  let top := u32 (bot + len - 1) in
  if top <? bot then fail EFAULT
  else if bot >=? USERTOP then fail EFAULT
  else if top >=? USERTOP then ret (USERTOP - bot)
  else ret len.

(** [memcpy] from and to user memory, front to back. *)
Fixpoint memcpy_in (usersrc : Z) (len : nat) : M (uthread U) (list Z) :=
  match len with
  | O => ret []
  | S len =>
      b <- touch (load_user usersrc) ;;
      bs <- memcpy_in (usersrc + 1) len ;;
      ret (b :: bs)
  end.

Fixpoint memcpy_out (src : list Z) (userdest : Z) : M (uthread U) unit :=
  match src with
  | [] => ret tt
  | b :: src =>
      touch (store_user userdest b) ;;; memcpy_out src (userdest + 1)
  end.

Definition copyin (usersrc len : Z) : M (uthread U) (list Z) :=
  stoplen <- copycheck usersrc len ;;
  if negb (stoplen =? len) then fail EFAULT
  else guarded (memcpy_in usersrc (Z.to_nat len)).

(** [copyout(src, userdest, len)] with [len] the length of [src]. *)
Definition copyout (src : list Z) (userdest : Z) : M (uthread U) unit :=
  let len := Z.of_nat (length src) in
  stoplen <- copycheck userdest len ;;
  if negb (stoplen =? len) then fail EFAULT
  else guarded (memcpy_out src userdest).

(** [copystr] over any way of reading [src[i]] and of writing [dest[i]], [d]
    being the destination so far; [n] counts the iterations left.  Returns
    [gotlen] and the destination. *)
Fixpoint copystr_loop {D} (get : Z -> M (uthread U) Z)
    (set : Z -> Z -> D -> M (uthread U) D) (n : nat) (i : Z) (d : D) :
    M (uthread U) (option Z * D) :=
  match n with
  | O => ret (None, d)
  | S n =>
      b <- get i ;;
      d <- set i b d ;;
      c <- get i ;;
      if c =? 0 then ret (Some (i + 1), d) else copystr_loop get set n (i + 1) d
  end.

Definition copystr {D} (get : Z -> M (uthread U) Z)
    (set : Z -> Z -> D -> M (uthread U) D) (d : D) (maxlen stoplen : Z) :
    M (uthread U) (Z * D) :=
  '(r, d) <- copystr_loop get set (Z.to_nat (Z.min maxlen stoplen)) 0 d ;;
  match r with
  | Some gotlen => ret (gotlen, d)
  | None => if stoplen <? maxlen then fail EFAULT else fail ENAMETOOLONG
  end.

(** The kernel destination is a buffer filled from its start. *)
Definition copyinstr (usersrc len : Z) : M (uthread U) (Z * list Z) :=
  stoplen <- copycheck usersrc len ;;
  guarded (copystr (fun i => touch (load_user (usersrc + i)))
    (fun _ b d => ret (d ++ [b])) [] len stoplen).

(** [src[i]] of a kernel string held in [src]. *)
Definition kernel_char (src : list Z) (i : Z) : M (uthread U) Z :=
  match src !! Z.to_nat i with Some b => ret b | None => panic end.

Definition copyoutstr (src : list Z) (userdest len : Z) : M (uthread U) Z :=
  stoplen <- copycheck userdest len ;;
  '(gotlen, _) <- guarded (copystr (kernel_char src)
    (fun i b (_ : unit) => touch (store_user (userdest + i) b)) tt len stoplen) ;;
  ret gotlen.

End copy_ops.

(** ** What the routines do *)

Section copy.
Context {U : Type} `{UserMemLaws U}.
Implicit Types (t : uthread U).

(** User memory agrees except on [len] bytes from [a]. *)
Definition same_outside (a len : Z) (u u' : U) : Prop :=
  forall x, ~ a <= x < a + len -> ubytes u' x = ubytes u x.

Definition same_bytes (u u' : U) : Prop := forall x, ubytes u' x = ubytes u x.

(** The [len] bytes of user memory from [a]. *)
Definition user_slice (u : U) (a : Z) (len : nat) : list Z := map (ubytes u) (seqZ a (Z.of_nat len)).

(** What every access keeps of the thread. *)
Definition thread_kept t t' : Prop :=
  t_vmspace t' = t_vmspace t /\ badfault t' = badfault t /\ umem_ok (umem t').

Lemma touch_load t a : umem_ok (umem t) -> 0 <= a < USERTOP -> badfault t = true ->
  runs (touch (load_user a)) t
    (fun b t' => b = ubytes (umem t) a /\ thread_kept t t' /\ same_bytes (umem t) (umem t'))
    (fun e t' => e = EFAULT /\ thread_kept t t' /\ same_bytes (umem t) (umem t')).
Proof.
  intros Ht Ha Hb. pose proof (load_user_spec (umem t) a Ht Ha) as Hl.
  unfold runs, touch, thread_kept in *.
  destruct (load_user a (umem t)) as [[b|e| |] u]; try done; simpl.
  - naive_solver.
  - rewrite Hb. naive_solver.
Qed.

Lemma touch_store t a b : umem_ok (umem t) -> 0 <= a < USERTOP -> 0 <= b < 256 ->
  badfault t = true ->
  runs (touch (store_user a b)) t
    (fun _ t' => thread_kept t t' /\
       forall x, ubytes (umem t') x = if x =? a then b else ubytes (umem t) x)
    (fun e t' => e = EFAULT /\ thread_kept t t' /\ same_bytes (umem t) (umem t')).
Proof.
  intros Ht Ha Hr Hb. pose proof (store_user_spec (umem t) a b Ht Ha Hr) as Hl.
  unfold runs, touch, thread_kept in *.
  destruct (store_user a b (umem t)) as [[[]|e| |] u]; try done; simpl.
  - naive_solver.
  - rewrite Hb. naive_solver.
Qed.

Lemma guarded_runs {A} (m : M (uthread U) A) t (Q : A -> U -> Prop) (E : Z -> U -> Prop) :
  badfault t = false ->
  runs m (set_badfault true t)
    (fun a t' => thread_kept (set_badfault true t) t' /\ Q a (umem t'))
    (fun e t' => thread_kept (set_badfault true t) t' /\ E e (umem t')) ->
  runs (guarded m) t (fun a t' => thread_kept t t' /\ Q a (umem t'))
    (fun e t' => thread_kept t t' /\ E e (umem t')).
Proof.
  intros Hb Hm. unfold guarded. run. eapply runs_mono; [exact Hm|..].
  - intros a t' ((Hv & _ & Hu) & HQ). run. unfold thread_kept. simpl in *. by rewrite Hb.
  - intros e t' ((Hv & _ & Hu) & HE). run. unfold thread_kept. simpl in *. by rewrite Hb.
Qed.

Lemma thread_kept_trans t t' t'' : thread_kept t t' -> thread_kept t' t'' -> thread_kept t t''.
Proof. unfold thread_kept. intros (? & ? & ?) (? & ? & ?). repeat split; congruence. Qed.

Lemma thread_kept_refl t : umem_ok (umem t) -> thread_kept t t.
Proof. done. Qed.

(** *** Blocks *)

(** A block of no bytes never passes: its last byte is before its first. *)
Lemma copycheck_spec {S} ptr len (s : S) : 0 <= ptr < 2 ^ 32 -> 0 <= len < 2 ^ 32 ->
  runs (copycheck ptr len) s
    (fun stop s' => s' = s /\ ptr < USERTOP /\ 0 < stop /\
       (0 < len /\ ptr + len <= 2 ^ 32 /\ stop = Z.min len (USERTOP - ptr) \/
        len = 0 /\ ptr = 0 /\ stop = USERTOP))
    (fun e s' => s' = s /\ e = EFAULT /\
       (len = 0 /\ ptr <> 0 \/ 2 ^ 32 < ptr + len \/ USERTOP <= ptr)).
Proof.
  intros Hp Hl. unfold copycheck, USERTOP, MIPS_KSEG0.
  assert (u32 (ptr + len - 1) =
    if (ptr + len - 1 <? 0) then 2 ^ 32 - 1
    else if (ptr + len - 1 <? 2 ^ 32) then ptr + len - 1 else ptr + len - 1 - 2 ^ 32) as ->.
  { unfold u32. destruct (Z.ltb_spec (ptr + len - 1) 0).
    - symmetry. apply (Z.mod_unique _ _ (-1)); lia.
    - destruct (Z.ltb_spec (ptr + len - 1) (2 ^ 32)); [apply Z.mod_small; lia|].
      symmetry. apply (Z.mod_unique _ _ 1); lia. }
  rewrite !Z.geb_leb.
  destruct (Z.ltb_spec (ptr + len - 1) 0); [|destruct (Z.ltb_spec (ptr + len - 1) (2 ^ 32))];
  repeat match goal with |- context [Z.ltb ?a ?b] => destruct (Z.ltb_spec a b)
    | |- context [Z.leb ?a ?b] => destruct (Z.leb_spec a b) end;
  run; (split; [done|]); lia.
Qed.

Lemma memcpy_in_spec n a t : umem_ok (umem t) -> 0 <= a -> a + Z.of_nat n <= USERTOP ->
  badfault t = true ->
  runs (memcpy_in a n) t
    (fun bs t' => thread_kept t t' /\ bs = user_slice (umem t) a n /\
       same_bytes (umem t) (umem t'))
    (fun e t' => thread_kept t t' /\ e = EFAULT /\ same_bytes (umem t) (umem t')).
Proof.
  revert a t. induction n as [|n IH]; intros a t Ht Ha Hn Hb; simpl; run; [done|].
  eapply runs_mono; [apply touch_load; [done|lia|done]|..]; [|naive_solver].
  intros b t' (-> & Hk & Hs). run. pose proof Hk as (_ & Hb' & Hu').
  eapply runs_mono; [apply IH; [done|lia|lia|congruence]|..].
  - intros bs t'' (Hk' & -> & Hs'). run. split; [by eapply thread_kept_trans|]. split.
    + unfold user_slice. rewrite (seqZ_cons a) by lia. simpl. f_equal.
      replace (Z.pred (Z.of_nat (S n))) with (Z.of_nat n) by lia.
      replace (Z.succ a) with (a + 1) by lia. apply map_ext. intros x. apply Hs.
    + intros x. by rewrite Hs', Hs.
  - intros e t'' (Hk' & -> & Hs'). split; [by eapply thread_kept_trans|]. split; [done|].
    intros x. by rewrite Hs', Hs.
Qed.

(** User memory after [bs] has been stored from [a]. *)
Definition stored (a : Z) (bs : list Z) (u u' : U) : Prop :=
  user_slice u' a (length bs) = bs /\ same_outside a (Z.of_nat (length bs)) u u'.

Lemma same_bytes_trans u u' u'' : same_bytes u u' -> same_bytes u' u'' -> same_bytes u u''.
Proof. intros H1 H2 x. by rewrite H2. Qed.

Lemma user_slice_ext u u' a n :
  (forall x, a <= x < a + Z.of_nat n -> ubytes u' x = ubytes u x) ->
  user_slice u' a n = user_slice u a n.
Proof.
  intros Hx. unfold user_slice. apply map_ext_in.
  intros x Hi%list_elem_of_In%elem_of_seqZ. apply Hx. lia.
Qed.

Lemma user_slice_cons u a n : user_slice u a (S n) = ubytes u a :: user_slice u (a + 1) n.
Proof.
  unfold user_slice. rewrite (seqZ_cons a) by lia. simpl. do 2 f_equal.
  replace (Z.pred (Z.of_nat (S n))) with (Z.of_nat n) by lia. done.
Qed.

Lemma memcpy_out_spec bs a t : umem_ok (umem t) -> 0 <= a ->
  a + Z.of_nat (length bs) <= USERTOP -> Forall (fun b => 0 <= b < 256) bs ->
  badfault t = true ->
  runs (memcpy_out bs a) t
    (fun _ t' => thread_kept t t' /\ stored a bs (umem t) (umem t'))
    (fun e t' => thread_kept t t' /\ e = EFAULT /\
       same_outside a (Z.of_nat (length bs)) (umem t) (umem t')).
Proof.
  revert a t. induction bs as [|b bs IH]; intros a t Ht Ha Hn Hbs Hb; simpl in *; run.
  { split; [done|]. split; done. }
  apply Forall_cons in Hbs as [Hb0 Hbs].
  eapply runs_mono; [apply touch_store; [done|lia|done|done]|..].
  - intros [] t' (Hk & Hs). pose proof Hk as (_ & Hb' & Hu').
    eapply runs_mono; [apply IH; [done|lia|lia|done|congruence]|..].
    + intros [] t'' (Hk' & Hs1 & Hs2). split; [by eapply thread_kept_trans|]. split.
      * simpl. rewrite user_slice_cons, Hs1, Hs2 by lia. f_equal. rewrite Hs. by zbool.
      * intros x Hx. simpl in Hx. rewrite Hs2 by lia. rewrite Hs. by zbool.
    + intros e t'' (Hk' & -> & Hs2). split; [by eapply thread_kept_trans|]. split; [done|].
      intros x Hx. rewrite Hs2 by lia. rewrite Hs. by zbool.
  - intros e t' (-> & Hk & Hs). split; [done|]. split; [done|]. intros x _. apply Hs.
Qed.

(** [copyin] and [copyout], for a thread outside any other copy. *)
Lemma copyin_spec t src len : umem_ok (umem t) -> badfault t = false ->
  0 <= src < 2 ^ 32 -> 0 <= len < 2 ^ 32 ->
  runs (copyin src len) t
    (fun bs t' => thread_kept t t' /\ 0 < len /\ src + len <= USERTOP /\
       bs = user_slice (umem t) src (Z.to_nat len) /\ same_bytes (umem t) (umem t'))
    (fun e t' => thread_kept t t' /\ e = EFAULT /\ same_bytes (umem t) (umem t')).
Proof.
  intros Ht Hb Hs Hl. unfold copyin. apply runs_bind.
  eapply runs_mono; [apply copycheck_spec; done|..]; [|by intros e t' (-> & -> & _)].
  intros stop t' (-> & Hsrc & Hstop & Hc).
  destruct (Z.eqb_spec stop len) as [->|]; simpl; [|by run].
  assert (0 < len /\ src + len <= USERTOP) as [Hl0 Htop] by lia.
  eapply runs_mono; [apply guarded_runs with
    (Q := fun bs u' => bs = user_slice (umem t) src (Z.to_nat len) /\ same_bytes (umem t) u')
    (E := fun e u' => e = EFAULT /\ same_bytes (umem t) u'); [done|]|..].
  - apply (memcpy_in_spec _ _ (set_badfault true t)); [done|lia| |done].
    rewrite Z2Nat.id; lia.
  - naive_solver.
  - naive_solver.
Qed.

Lemma copyout_spec t bs dst : umem_ok (umem t) -> badfault t = false ->
  0 <= dst < 2 ^ 32 -> Z.of_nat (length bs) < 2 ^ 32 -> Forall (fun b => 0 <= b < 256) bs ->
  runs (copyout bs dst) t
    (fun _ t' => thread_kept t t' /\ bs <> [] /\ dst + Z.of_nat (length bs) <= USERTOP /\
       stored dst bs (umem t) (umem t'))
    (fun e t' => thread_kept t t' /\ e = EFAULT /\
       same_outside dst (Z.of_nat (length bs)) (umem t) (umem t')).
Proof.
  intros Ht Hb Hd Hl Hbs. unfold copyout. apply runs_bind.
  eapply runs_mono; [apply copycheck_spec; [done|lia]|..]; [|by intros e t' (-> & -> & _)].
  intros stop t' (-> & Hsrc & Hstop & Hc).
  destruct (Z.eqb_spec stop (Z.of_nat (length bs))) as [->|]; simpl; [|by run].
  assert (0 < Z.of_nat (length bs) /\ dst + Z.of_nat (length bs) <= USERTOP) as [Hl0 Htop] by lia.
  eapply runs_mono; [apply guarded_runs with
    (Q := fun _ u' => stored dst bs (umem t) u')
    (E := fun e u' => e = EFAULT /\ same_outside dst (Z.of_nat (length bs)) (umem t) u'); [done|]|..].
  - apply (memcpy_out_spec _ _ (set_badfault true t)); [done|lia|lia|done|done].
  - intros [] t' [Hk Hs]. split_and!; [done| |lia|done]. by intros ->.
  - naive_solver.
Qed.

(** *** Strings *)

(** [u] holds a string of [n] characters at [a]: the first NUL is at [a + n]. *)
Definition string_at (u : U) (a n : Z) : Prop :=
  0 <= n /\ ubytes u (a + n) = 0 /\ forall i, 0 <= i < n -> ubytes u (a + i) <> 0.

Lemma user_slice_snoc u a n :
  user_slice u a (S n) = user_slice u a n ++ [ubytes u (a + Z.of_nat n)].
Proof.
  unfold user_slice. replace (Z.of_nat (S n)) with (Z.of_nat n + 1) by lia.
  rewrite seqZ_app by lia. by rewrite map_app.
Qed.

Lemma copyinstr_loop n a i t : umem_ok (umem t) -> 0 <= a -> 0 <= i ->
  a + i + Z.of_nat n <= USERTOP -> badfault t = true ->
  (forall k, 0 <= k < i -> ubytes (umem t) (a + k) <> 0) ->
  runs (copystr_loop (fun i => touch (load_user (a + i))) (fun _ b d => ret (d ++ [b]))
          n i (user_slice (umem t) a (Z.to_nat i))) t
    (fun '(r, d) t' => thread_kept t t' /\ same_bytes (umem t) (umem t') /\
       match r with
       | Some got => got <= i + Z.of_nat n /\ string_at (umem t) a (got - 1) /\
                     d = user_slice (umem t) a (Z.to_nat got)
       | None => forall k, 0 <= k < i + Z.of_nat n -> ubytes (umem t) (a + k) <> 0
       end)
    (fun e t' => thread_kept t t' /\ e = EFAULT /\ same_bytes (umem t) (umem t')).
Proof.
  revert i t. induction n as [|n IH]; intros i t Ht Ha Hi Hn Hb Hz; simpl; run.
  { split; [done|]. split; [done|]. intros k Hk. apply Hz. lia. }
  eapply runs_mono; [apply touch_load; [done|lia|done]|..]; [|naive_solver].
  intros b t1 (-> & Hk1 & Hs1). pose proof Hk1 as (_ & Hb1 & Hu1). run.
  eapply runs_mono; [apply touch_load; [done|lia|congruence]|..].
  2:{ intros e t2 (-> & Hk2 & Hs2). split; [by eapply thread_kept_trans|]. split; [done|].
      by eapply same_bytes_trans. }
  intros c t2 (-> & Hk2 & Hs2). pose proof Hk2 as (_ & Hb2 & Hu2).
  assert (thread_kept t t2) as Hk by (by eapply thread_kept_trans).
  assert (same_bytes (umem t) (umem t2)) as Hs by (by eapply same_bytes_trans).
  rewrite Hs1. replace (user_slice (umem t) a (Z.to_nat i) ++ [ubytes (umem t) (a + i)])
    with (user_slice (umem t) a (Z.to_nat (i + 1))).
  2:{ replace (Z.to_nat (i + 1)) with (S (Z.to_nat i)) by lia.
      rewrite user_slice_snoc. by rewrite Z2Nat.id by lia. }
  destruct (Z.eqb_spec (ubytes (umem t) (a + i)) 0) as [E|E].
  - run. split; [done|]. split; [done|]. split; [lia|]. split; [|done].
    replace (i + 1 - 1) with i by lia. done.
  - rewrite <- (user_slice_ext (umem t) (umem t2)) by (intros; apply Hs).
    eapply runs_mono; [apply IH; [done|lia|lia|lia|congruence|]|..].
    + intros k Hk'. rewrite Hs. destruct (decide (k = i)) as [->|]; [done|]. apply Hz. lia.
    + intros [r d] t3 (Hk3 & Hs3 & Hr). split; [by eapply thread_kept_trans|].
      split; [by eapply same_bytes_trans|]. destruct r as [got|].
      * destruct Hr as (Hg & Hstr & ->). split; [lia|]. split.
        -- destruct Hstr as (? & H1 & H2). split; [done|]. rewrite <- Hs. split; [done|].
           intros k Hk'. rewrite <- Hs. by apply H2.
        -- apply user_slice_ext. intros; apply Hs.
      * intros k Hk'. rewrite <- Hs. apply Hr. lia.
    + intros e t3 (Hk3 & -> & Hs3). split; [by eapply thread_kept_trans|]. split; [done|].
      by eapply same_bytes_trans.
Qed.

Lemma copyinstr_spec t src len : umem_ok (umem t) -> badfault t = false ->
  0 <= src < 2 ^ 32 -> 0 <= len < 2 ^ 32 ->
  runs (copyinstr src len) t
    (fun '(got, bs) t' => thread_kept t t' /\ same_bytes (umem t) (umem t') /\
       got <= len /\ src + got <= USERTOP /\ string_at (umem t) src (got - 1) /\
       bs = user_slice (umem t) src (Z.to_nat got))
    (fun e t' => thread_kept t t' /\ same_bytes (umem t) (umem t') /\
       (e = EFAULT \/
        e = ENAMETOOLONG /\ src + len <= USERTOP /\
        forall k, 0 <= k < len -> ubytes (umem t) (src + k) <> 0)).
Proof.
  intros Ht Hb Hs Hl. unfold copyinstr. apply runs_bind.
  eapply runs_mono; [apply copycheck_spec; done|..].
  2:{ intros e t' (-> & -> & _). split; [done|]. split; [done|]. by left. }
  intros stop t' (-> & Hsrc & Hstop & Hc).
  eapply runs_mono; [apply guarded_runs with
    (Q := fun '(got, bs) u' => same_bytes (umem t) u' /\
       got <= len /\ src + got <= USERTOP /\ string_at (umem t) src (got - 1) /\
       bs = user_slice (umem t) src (Z.to_nat got))
    (E := fun e u' => same_bytes (umem t) u' /\ (e = EFAULT \/
        e = ENAMETOOLONG /\ src + len <= USERTOP /\
        forall k, 0 <= k < len -> ubytes (umem t) (src + k) <> 0)); [done|]|..].
  - unfold copystr. run. assert (0 <= Z.min len stop) by lia.
    eapply runs_mono; [apply (copyinstr_loop _ src 0 (set_badfault true t));
      [done|lia|lia|lia|done|lia]|..].
    + intros [r d] t' (Hk & Hsb & Hr). destruct r as [got|].
      * destruct Hr as (? & Hstr & ->). run.
        repeat (split; [done|]). split; [lia|]. split; [lia|]. done.
      * destruct (Z.ltb_spec stop len); run; (split; [done|]); (split; [done|]); [by left|].
        right. split; [done|]. split; [lia|]. intros k Hk'. apply Hr. lia.
    + intros e t' (Hk & -> & Hsb). split; [done|]. split; [done|]. by left.
  - intros [got bs] t' [Hk HQ]. done.
  - done.
Qed.

(** [src] is a C string of [n] characters: its first NUL is at index [n]. *)
Definition c_string (src : list Z) (n : Z) : Prop :=
  0 <= n /\ src !! Z.to_nat n = Some 0 /\
  (forall i b, 0 <= i < n -> src !! Z.to_nat i = Some b -> b <> 0) /\
  Forall (fun b => 0 <= b < 256) src.

Lemma c_string_char src n i : c_string src n -> 0 <= i <= n ->
  exists b, src !! Z.to_nat i = Some b /\ 0 <= b < 256 /\ (b = 0 <-> i = n).
Proof.
  intros (Hn & Hnul & Hnz & Hr) Hi.
  destruct (lookup_lt_is_Some_2 src (Z.to_nat i)) as [b Hb].
  { apply lookup_lt_Some in Hnul. lia. }
  exists b. split; [done|]. split; [by eapply Forall_lookup_1 in Hr|].
  destruct (decide (i = n)) as [->|]; [naive_solver|].
  split; [|done]. intros ->. by destruct (Hnz i 0 ltac:(lia) Hb).
Qed.

Lemma copyoutstr_loop src len n a i t : c_string src len -> umem_ok (umem t) ->
  0 <= a -> 0 <= i <= len -> a + i + Z.of_nat n <= USERTOP -> badfault t = true ->
  runs (copystr_loop (kernel_char src)
          (fun i b (_ : unit) => touch (store_user (a + i) b)) n i tt) t
    (fun '(r, _) t' => thread_kept t t' /\
       same_outside (a + i) (Z.of_nat n) (umem t) (umem t') /\
       match r with
       | Some got => got = len + 1 /\ len < i + Z.of_nat n /\
           forall k b, i <= k <= len -> src !! Z.to_nat k = Some b -> ubytes (umem t') (a + k) = b
       | None => i + Z.of_nat n <= len
       end)
    (fun e t' => thread_kept t t' /\ e = EFAULT /\
       same_outside (a + i) (Z.of_nat n) (umem t) (umem t')).
Proof.
  intros Hstr. revert i t. induction n as [|n IH]; intros i t Ht Ha Hi Hn Hb; simpl; run.
  { split; [done|]. split; [done|]. lia. }
  destruct (c_string_char _ _ i Hstr Hi) as (b & Hlk & Hr & Hz).
  unfold kernel_char at 1. rewrite Hlk. run.
  eapply runs_mono; [apply touch_store; [done|lia|lia|done]|..].
  2:{ intros e t' (-> & Hk & Hs). split; [done|]. split; [done|]. intros x _. apply Hs. }
  intros [] t1 (Hk1 & Hs1). pose proof Hk1 as (_ & Hb1 & Hu1).
  unfold kernel_char at 1. rewrite Hlk. run.
  assert (same_outside (a + i) (Z.of_nat (S n)) (umem t) (umem t1)) as Ho.
  { intros x Hx. rewrite Hs1. by zbool. }
  destruct (Z.eqb_spec b 0) as [->|E].
  - run. assert (i = len) as -> by tauto. split; [done|]. split; [done|].
    split; [done|]. split; [lia|]. intros k b' Hk' Hkb. assert (k = len) as -> by lia.
    rewrite Hs1. zbool. congruence.
  - eapply runs_mono; [apply IH; [done|lia|lia|lia|congruence]|..].
    + intros [r []] t2 (Hk2 & Hs2 & Hr2). split; [by eapply thread_kept_trans|]. split.
      { intros x Hx. rewrite Hs2 by lia. apply Ho. lia. }
      destruct r as [got|]; [|lia]. destruct Hr2 as (-> & ? & Hb2).
      split; [done|]. split; [lia|]. intros k b' Hk' Hkb.
      destruct (decide (k = i)) as [->|]; [|apply Hb2; [lia|done]].
      rewrite Hs2, Hs1 by lia. zbool. congruence.
    + intros e t2 (Hk2 & -> & Hs2). split; [by eapply thread_kept_trans|]. split; [done|].
      intros x Hx. rewrite Hs2 by lia. apply Ho. lia.
Qed.

Lemma copyoutstr_spec t src n dst len : umem_ok (umem t) -> badfault t = false ->
  c_string src n -> 0 <= dst < 2 ^ 32 -> 0 <= len < 2 ^ 32 ->
  runs (copyoutstr src dst len) t
    (fun got t' => thread_kept t t' /\ got = n + 1 /\ got <= len /\ dst + got <= USERTOP /\
       (forall k b, 0 <= k <= n -> src !! Z.to_nat k = Some b -> ubytes (umem t') (dst + k) = b) /\
       same_outside dst len (umem t) (umem t'))
    (fun e t' => thread_kept t t' /\ same_outside dst len (umem t) (umem t') /\
       (e = EFAULT \/ e = ENAMETOOLONG /\ len <= n)).
Proof.
  intros Ht Hb Hstr Hd Hl. unfold copyoutstr. apply runs_bind.
  eapply runs_mono; [apply copycheck_spec; done|..].
  2:{ intros e t' (-> & -> & _). split; [done|]. split; [done|]. by left. }
  intros stop t' (-> & Hsrc & Hstop & Hc). apply runs_bind.
  eapply runs_mono; [apply guarded_runs with
    (Q := fun '(got, _) u' => got = n + 1 /\ got <= len /\ dst + got <= USERTOP /\
       (forall k b, 0 <= k <= n -> src !! Z.to_nat k = Some b -> ubytes u' (dst + k) = b) /\
       same_outside dst len (umem t) u')
    (E := fun e u' => same_outside dst len (umem t) u' /\
       (e = EFAULT \/ e = ENAMETOOLONG /\ len <= n)); [done|]|..].
  - unfold copystr. run. assert (0 <= n) by apply Hstr.
    eapply runs_mono; [apply (copyoutstr_loop _ n _ dst 0 (set_badfault true t));
      [done|done|lia|lia|lia|done]|..].
    + intros [r []] t' (Hk & Hso & Hr).
      assert (same_outside dst len (umem t) (umem t')) as Ho.
      { intros x Hx. apply Hso. lia. }
      destruct r as [got|].
      * destruct Hr as (-> & Hg & Hbs). run. split; [done|]. split; [done|].
        split; [lia|]. split; [lia|]. split; [|done]. intros k b Hk'. apply Hbs. lia.
      * destruct (Z.ltb_spec stop len); run; (split; [done|]); (split; [done|]);
          [by left|right]. split; [done|]. lia.
    + intros e t' (Hk & -> & Hso). split; [done|]. split; [|by left].
      intros x Hx. apply Hso. lia.
  - intros [got []] t' [Hk HQ]. run. naive_solver.
  - done.
Qed.

(** ** Properties *)

(** C31: [copyin] is safe for every pointer and length a user program can pass: it
    never panics and touches user addresses only; it either returns the exact
    bytes of a region that lies in user space, or EFAULT; either way user memory
    is unchanged and [pcb_badfaultfunc] is reset. *)
Theorem copyin_correct t src len : umem_ok (umem t) -> badfault t = false ->
  0 <= src < 2 ^ 32 -> 0 <= len < 2 ^ 32 ->
  runs (copyin src len) t
    (fun bs t' => bs = user_slice (umem t) src (Z.to_nat len) /\
       src + len <= USERTOP /\ same_bytes (umem t) (umem t') /\ thread_kept t t')
    (fun e t' => e = EFAULT /\ same_bytes (umem t) (umem t') /\ thread_kept t t').
Proof.
  intros. eapply runs_mono; [by apply copyin_spec|naive_solver..].
Qed.

(** C32: [copyinstr] returns exactly the NUL-terminated string at the user pointer,
    terminator included, when it fits in [len] bytes of user space; it answers
    ENAMETOOLONG only when [len] bytes of user space hold no NUL, and EFAULT
    otherwise; it never panics. *)
Theorem copyinstr_correct t src len : umem_ok (umem t) -> badfault t = false ->
  0 <= src < 2 ^ 32 -> 0 <= len < 2 ^ 32 ->
  runs (copyinstr src len) t
    (fun '(got, bs) t' => got <= len /\ src + got <= USERTOP /\
       string_at (umem t) src (got - 1) /\ bs = user_slice (umem t) src (Z.to_nat got) /\
       same_bytes (umem t) (umem t') /\ thread_kept t t')
    (fun e t' => (e = EFAULT \/ e = ENAMETOOLONG /\ src + len <= USERTOP /\
         forall k, 0 <= k < len -> ubytes (umem t) (src + k) <> 0) /\
       same_bytes (umem t) (umem t') /\ thread_kept t t').
Proof.
  intros. eapply runs_mono; [by apply copyinstr_spec|..].
  - intros [got bs] t'. tauto.
  - tauto.
Qed.

(** what the kernel copies out it can copy back in: after [copyoutstr] of a
    C string succeeds, [copyinstr] at the same place with the same limit returns
    the string, or faults. *)
Theorem copyoutstr_copyinstr t src n dst len : umem_ok (umem t) -> badfault t = false ->
  c_string src n -> 0 <= dst < 2 ^ 32 -> 0 <= len < 2 ^ 32 ->
  runs (copyoutstr src dst len ;;; copyinstr dst len) t
    (fun '(got, bs) _ => got = n + 1 /\ bs = take (Z.to_nat (n + 1)) src)
    (fun e _ => e = EFAULT \/ e = ENAMETOOLONG /\ len <= n).
Proof.
  intros Ht Hb Hstr Hd Hl. apply runs_bind.
  eapply runs_mono; [by apply copyoutstr_spec|..]; [|tauto].
  intros got t1 ((Hv1 & Hb1 & Ht1) & -> & Hg & Htop & Hbs & _).
  assert (0 <= n) as Hn by apply Hstr.
  assert (forall k, 0 <= k <= n -> (ubytes (umem t1) (dst + k) = 0 <-> k = n)) as Hz.
  { intros k Hk. destruct (c_string_char _ _ k Hstr Hk) as (b & Hlk & _ & Hz).
    by rewrite (Hbs k b Hk Hlk). }
  eapply runs_mono; [apply copyinstr_spec; [done|congruence|done|done]|..].
  - intros [got bs] t2 (_ & _ & Hg2 & _ & (Hg0 & Hnul & Hnn) & ->).
    assert (got = n + 1) as ->.
    { destruct (Z.lt_total (got - 1) n) as [?|[?|?]]; [|lia|].
      - apply Hz in Hnul; lia.
      - destruct (Hnn n); [lia|]. by apply Hz. }
    split; [done|]. apply list_eq. intros i. unfold user_slice.
    assert (n < Z.of_nat (length src)) as Hlen.
    { destruct Hstr as (_ & H1%lookup_lt_Some & _). lia. }
    destruct (decide (i < Z.to_nat (n + 1))%nat).
    + rewrite lookup_take_lt by done.
      destruct (c_string_char _ _ (Z.of_nat i) Hstr) as (b & Hlk & _); [lia|].
      rewrite Nat2Z.id in Hlk. rewrite Hlk. rewrite list_lookup_fmap_Some.
      exists (dst + Z.of_nat i). rewrite (Hbs (Z.of_nat i) b); [|lia|by rewrite Nat2Z.id].
      split; [done|]. apply lookup_seqZ. lia.
    + rewrite !lookup_ge_None_2; [done|rewrite length_take; lia|].
      rewrite length_map, length_seqZ. lia.
  - intros e t2 (_ & _ & [->|(-> & _ & Hnz)]); [by left|].
    destruct (Hnz n); [lia|]. by apply Hz.
Qed.

(** A transfer of no bytes is refused: [copyin] with length 0 answers EFAULT
    for every pointer. *)
Theorem copyin_empty t src : 0 <= src < 2 ^ 32 ->
  runs (copyin src 0) t (fun _ _ => False) (fun e t' => e = EFAULT /\ t' = t).
Proof.
  intros Hs. unfold copyin. apply runs_bind.
  eapply runs_mono; [apply copycheck_spec; [done|lia]|..].
  - intros stop t' (-> & _ & Hstop & [?|(_ & _ & ->)]); [lia|].
    by change (negb (USERTOP =? 0)) with true; run.
  - by intros e t' (-> & -> & _).
Qed.

End copy.

(** ** A flat user memory

    A closed instance: the bytes listed are mapped, touching any other address
    is a fatal fault. *)
Module Flat.

Record flat := mk_flat { cells : gmap Z Z }.

#[export] Instance flat_umem : UserMem flat := {
  load_user := fun a u =>
    match cells u !! a with Some b => (Ret b, u) | None => (Err EFAULT, u) end;
  store_user := fun a b u =>
    match cells u !! a with
    | Some _ => (Ret tt, mk_flat (<[a := b]> (cells u)))
    | None => (Err EFAULT, u)
    end;
}.

#[export] Program Instance flat_laws : UserMemLaws flat := {
  umem_ok := fun u => map_Forall (fun _ b => 0 <= b < 256) (cells u);
  ubytes := fun u a => default 0 (cells u !! a);
}.
Next Obligation.
  intros u a Hu. simpl. destruct (cells u !! a) as [b|] eqn:E; simpl; [|lia]. by eapply Hu.
Qed.
Next Obligation.
  intros u a Hu _. unfold runs; simpl. by destruct (cells u !! a).
Qed.
Next Obligation.
  intros u a b Hu _ Hb. unfold runs; simpl. destruct (cells u !! a); [|done]. simpl.
  split; [by apply map_Forall_insert_2|]. intros x.
  destruct (Z.eqb_spec x a) as [->|]; [by rewrite lookup_insert_eq|].
  by rewrite lookup_insert_ne.
Qed.

(** The bytes [bs], mapped from [a]. *)
Definition filled (a : Z) (bs : list Z) : flat :=
  mk_flat (list_to_map (zip (seqZ a (Z.of_nat (length bs))) bs)).

Lemma filled_ok a bs : Forall (fun b => 0 <= b < 256) bs -> umem_ok (filled a bs).
Proof.
  intros Hbs x b Hx%elem_of_list_to_map_2%list_elem_of_lookup_1.
  destruct Hx as [i Hi]. rewrite lookup_zip_with_Some in Hi.
  destruct Hi as (? & ? & [= <- <-] & _ & Hb). by eapply Forall_lookup_1 in Hbs.
Qed.

End Flat.
Import Flat.

Definition flat_thread (a : Z) (bs : list Z) : uthread flat :=
  mk_uthread 1 false (filled a bs).

(** "hi" at 4096. *)
Lemma copyin_correct_witness :
  runs (copyin 4096 2) (flat_thread 4096 [104; 105; 0])
    (fun bs _ => bs = [104; 105]) (fun e _ => e = EFAULT).
Proof.
  eapply runs_mono; [apply (copyin_correct (flat_thread 4096 [104; 105; 0]) 4096 2)|..].
  - apply filled_ok. repeat constructor; lia.
  - done.
  - lia.
  - lia.
  - intros bs t' (-> & _). reflexivity.
  - by intros e t' (-> & _).
Defined.

Lemma copyinstr_correct_witness :
  runs (copyinstr 4096 10) (flat_thread 4096 [104; 105; 0])
    (fun '(got, bs) _ => got <= 10) (fun e _ => e = EFAULT \/ e = ENAMETOOLONG).
Proof.
  eapply runs_mono; [apply (copyinstr_correct (flat_thread 4096 [104; 105; 0]) 4096 10)|..].
  - apply filled_ok. repeat constructor; lia.
  - done.
  - lia.
  - lia.
  - intros [got bs] t' (? & _). done.
  - intros e t' [[?|[? _]] _]; [by left|by right].
Defined.

Lemma copyoutstr_copyinstr_witness :
  runs (copyoutstr [104; 105; 0] 4096 10 ;;; copyinstr 4096 10)
    (flat_thread 4096 (replicate 10 0))
    (fun '(got, bs) _ => got = 3 /\ bs = [104; 105; 0])
    (fun e _ => e = EFAULT \/ e = ENAMETOOLONG /\ 10 <= 2).
Proof.
  eapply runs_mono;
    [apply (copyoutstr_copyinstr (flat_thread 4096 (replicate 10 0)) [104; 105; 0] 2 4096 10)|..].
  - apply filled_ok. repeat constructor; lia.
  - done.
  - split; [lia|]. split; [done|]. split; [|repeat constructor; lia].
    intros i b Hi. assert (i = 0 \/ i = 1) as [-> | ->] by lia; intros [= <-]; lia.
  - lia.
  - lia.
  - intros [got bs] t' [-> ->]. done.
  - done.
Defined.

Lemma copyin_empty_witness :
  runs (copyin 4096 0) (flat_thread 4096 [1]) (fun _ _ => False) (fun e _ => e = EFAULT).
Proof.
  eapply runs_mono; [apply (copyin_empty (flat_thread 4096 [1]) 4096)|done|].
  - lia.
  - by intros e t' [-> _].
Defined.
