(* ===== verification/Uio.v ===== *)
(** Transfers between kernel buffers and the region a [struct uio] describes:
    kern/userprog/uio.c, kern/include/uio.h.

    A [uio] names a kernel buffer (UIO_SYSSPACE) or a range of user addresses.
    The kernel buffer is carried in the record, [kbuf], with [iov_base] the
    index the moving pointer has reached; for a user region [iov_base] is the
    address.  [space] is the common view of both, a function from positions to
    bytes, and the theorems describe transfers in terms of it. *)

From Stdlib Require Import ZArith Lia.
From stdpp Require Import prelude gmap list.
From S2P Require Import Prelude Pages Copy.

(** ** Definitions *)

Inductive uio_rw_t := UIO_READ | UIO_WRITE.
Inductive uio_seg := UIO_USERSPACE | UIO_SYSSPACE | UIO_USERISPACE.

#[export] Instance uio_rw_dec : EqDecision uio_rw_t.
Proof. solve_decision. Defined.
#[export] Instance uio_seg_dec : EqDecision uio_seg.
Proof. solve_decision. Defined.

Record uio := mk_uio {
  iov_base : Z;            (* iov_kbase as an index into kbuf, or iov_ubase *)
  iov_len : Z;
  uio_offset : Z;
  uio_resid : Z;
  uio_segflg : uio_seg;
  uio_rw : uio_rw_t;
  uio_space : Z;
  kbuf : list Z;           (* the kernel buffer of a UIO_SYSSPACE transfer *)
}.

Definition set_kbuf (k : list Z) (u : uio) : uio :=
  mk_uio (iov_base u) (iov_len u) (uio_offset u) (uio_resid u) (uio_segflg u)
    (uio_rw u) (uio_space u) k.

(** The four updates after a transfer of [size] bytes. *)
Definition advance (size : Z) (u : uio) : uio :=
  mk_uio (iov_base u + size) (iov_len u - size) (i32 (uio_offset u + size))
    (uio_resid u - size) (uio_segflg u) (uio_rw u) (uio_space u) (kbuf u).

(** [memmove] out of and into a byte buffer; reaching past its end is a fault. *)
Definition slice (at_ size : Z) (l : list Z) : list Z :=
  take (Z.to_nat size) (drop (Z.to_nat at_) l).
Definition splice (at_ : Z) (bs l : list Z) : list Z :=
  take (Z.to_nat at_) l ++ bs ++ drop (Z.to_nat at_ + length bs) l.
Definition in_buf (at_ size : Z) (l : list Z) : bool :=
  (0 <=? at_) && (at_ + size <=? Z.of_nat (length l)).

Section uio_ops.
Context {U : Type} `{!UserMem U}.

(** The [switch (uio->uio_segflg)] of [uiomove]: move [size] bytes between
    [buf] at [p] and the region; returns the buffer afterwards. *)
Definition transfer (buf : list Z) (p size : Z) : M (uio * uthread U) (list Z) :=
  u <- gets fst ;;
  assert (in_buf p size buf) ;;;
  match uio_segflg u with
  | UIO_SYSSPACE =>
      assert (in_buf (iov_base u) size (kbuf u)) ;;;
      match uio_rw u with
      | UIO_READ =>
          on_fst (modify (set_kbuf (splice (iov_base u) (slice p size buf) (kbuf u)))) ;;;
          ret buf
      | UIO_WRITE => ret (splice p (slice (iov_base u) size (kbuf u)) buf)
      end
  | UIO_USERSPACE | UIO_USERISPACE =>
      match uio_rw u with
      | UIO_READ => on_snd (copyout (slice p size buf) (iov_base u)) ;;; ret buf
      | UIO_WRITE =>
          bs <- on_snd (copyin (iov_base u) size) ;;
          ret (splice p bs buf)
      end
  end.

(** The loop of [uiomove]; there is a single iovec, so it is done or has run out
    of buffer after one round. *)
Fixpoint uiomove_loop (fuel : nat) (buf : list Z) (p n : Z) : M (uio * uthread U) (list Z) :=
  u <- gets fst ;;
  if (n >? 0) && (uio_resid u >? 0) then
    match fuel with
    | O => spin
    | S fuel =>
        let size := if iov_len u >? n then n else iov_len u in
        if size =? 0 then panic
        else
          buf <- transfer buf p size ;;
          on_fst (modify (advance size)) ;;;
          uiomove_loop fuel buf (p + size) (n - size)
    end
  else ret buf.

(** [uiomove(buf + p, n, uio)]: the contents of [buf] afterwards. *)
Definition uiomove (buf : list Z) (p n : Z) : M (uio * uthread U) (list Z) :=
  u <- gets fst ;;
  t <- gets snd ;;
  match uio_segflg u with
  | UIO_SYSSPACE => assert (uio_space u =? 0)
  | _ => assert (uio_space u =? t_vmspace t)
  end ;;;
  uiomove_loop 2 buf p n.

(** The loop of [uiomovezeros], in rounds of 16 bytes. *)
Fixpoint zeros_loop (fuel : nat) (n : Z) : M (uio * uthread U) unit :=
  if n >? 0 then
    match fuel with
    | O => spin
    | S fuel =>
        let amt := if 16 >? n then n else 16 in
        uiomove (replicate 16 0) 0 amt ;;;
        zeros_loop fuel (n - amt)
    end
  else ret tt.

Definition uiomovezeros (n : Z) : M (uio * uthread U) unit :=
  u <- gets fst ;;
  assert (bool_decide (uio_rw u = UIO_READ)) ;;;
  zeros_loop (Z.to_nat n) n.

End uio_ops.

(** [mk_kuio(uio, kbuf, len, pos, rw)] *)
Definition mk_kuio (buf : list Z) (len pos : Z) (rw : uio_rw_t) : uio :=
  mk_uio 0 len pos len UIO_SYSSPACE rw 0 buf.

(** ** The region of a transfer *)

Section uio.
Context {U : Type} `{UserMemLaws U}.
Implicit Types (x : uio * uthread U).

Definition byte_list (l : list Z) : Prop := Forall (fun b => 0 <= b < 256) l.

(** The byte at position [a] of the space the uio points into. *)
Definition space x (a : Z) : Z :=
  match uio_segflg x.1 with
  | UIO_SYSSPACE => if a <? 0 then 0 else nth (Z.to_nat a) (kbuf x.1) 0
  | _ => ubytes (umem x.2) a
  end.

Definition is_user (u : uio) : bool :=
  match uio_segflg u with UIO_SYSSPACE => false | _ => true end.

(** The uio is consistent: the residue fits the region, the region fits the
    kernel buffer or the 32-bit addresses, the address space is the current one. *)
Record uio_ok x : Prop := {
  ok_base : 0 <= iov_base x.1;
  ok_resid : 0 <= uio_resid x.1 <= iov_len x.1;
  ok_len : iov_len x.1 < 2 ^ 32;
  ok_offset : 0 <= uio_offset x.1 /\ uio_offset x.1 + uio_resid x.1 < 2 ^ 31;
  ok_space : uio_space x.1 = if is_user x.1 then t_vmspace x.2 else 0;
  ok_region : if is_user x.1 then iov_base x.1 < 2 ^ 32
              else iov_base x.1 + iov_len x.1 <= Z.of_nat (length (kbuf x.1));
  ok_kbuf : byte_list (kbuf x.1);
  ok_umem : umem_ok (umem x.2);
  ok_badfault : badfault x.2 = false;
}.

(** [x'] is [x] after [n] bytes have moved: the bookkeeping, with the thread's
    own fields kept. *)
Record moved (n : Z) x x' : Prop := {
  mv_base : iov_base x'.1 = iov_base x.1 + n;
  mv_len : iov_len x'.1 = iov_len x.1 - n;
  mv_offset : uio_offset x'.1 = uio_offset x.1 + n;
  mv_resid : uio_resid x'.1 = uio_resid x.1 - n;
  mv_seg : uio_segflg x'.1 = uio_segflg x.1;
  mv_rw : uio_rw x'.1 = uio_rw x.1;
  mv_space : uio_space x'.1 = uio_space x.1;
  mv_kbuf : length (kbuf x'.1) = length (kbuf x.1);
  mv_vmspace : t_vmspace x'.2 = t_vmspace x.2;
  mv_thread : is_user x.1 = false -> x'.2 = x.2;
}.

(** ... the region got [bs] at the old position (a read), or nothing changed in
    it (a write). *)
Definition space_put (bs : list Z) x x' : Prop :=
  forall a, space x' a =
    if (iov_base x.1 <=? a) && (a <? iov_base x.1 + Z.of_nat (length bs))
    then nth (Z.to_nat (a - iov_base x.1)) bs 0 else space x a.

Definition space_same x x' : Prop := forall a, space x' a = space x a.

(** [n] bytes of the region at the current position. *)
Definition region x (n : Z) : list Z := map (space x) (seqZ (iov_base x.1) n).


(** A failed transfer: the uio is as before, and a read may have changed bytes of
    the region. *)
Record faulted (n : Z) x x' : Prop := {
  fl_user : is_user x.1 = true;
  fl_uio : x'.1 = x.1;
  fl_ok : uio_ok x';
  fl_vmspace : t_vmspace x'.2 = t_vmspace x.2;
  fl_space : forall a, ~ (uio_rw x.1 = UIO_READ /\ iov_base x.1 <= a < iov_base x.1 + n) ->
    space x' a = space x a;
}.

(** *** Slices *)

Lemma length_slice at_ size l : 0 <= at_ -> 0 <= size ->
  at_ + size <= Z.of_nat (length l) -> length (slice at_ size l) = Z.to_nat size.
Proof. intros. unfold slice. rewrite length_take, length_drop. lia. Qed.

Lemma nth_slice at_ size l i : 0 <= at_ -> 0 <= i < size ->
  nth (Z.to_nat i) (slice at_ size l) 0 = nth (Z.to_nat (at_ + i)) l 0.
Proof.
  intros. unfold slice. rewrite !nth_lookup, lookup_take_lt by lia.
  rewrite lookup_drop. do 2 f_equal. lia.
Qed.

Lemma byte_list_slice at_ size l : byte_list l -> byte_list (slice at_ size l).
Proof. intros Hl. unfold byte_list, slice. by apply Forall_take, Forall_drop. Qed.

Lemma length_splice at_ bs l : 0 <= at_ -> at_ + Z.of_nat (length bs) <= Z.of_nat (length l) ->
  length (splice at_ bs l) = length l.
Proof. intros. unfold splice. rewrite !length_app, length_take, length_drop. lia. Qed.

Lemma nth_splice at_ bs l i : 0 <= at_ -> at_ + Z.of_nat (length bs) <= Z.of_nat (length l) ->
  0 <= i -> nth (Z.to_nat i) (splice at_ bs l) 0 =
    if (at_ <=? i) && (i <? at_ + Z.of_nat (length bs))
    then nth (Z.to_nat (i - at_)) bs 0 else nth (Z.to_nat i) l 0.
Proof.
  intros Ha Hl Hi. unfold splice. rewrite !nth_lookup.
  destruct (Z.leb_spec at_ i); simpl; [destruct (Z.ltb_spec i (at_ + Z.of_nat (length bs)))|].
  - rewrite lookup_app_r by (rewrite length_take; lia).
    rewrite lookup_app_l by (rewrite length_take; lia).
    rewrite length_take, Nat.min_l by lia. do 2 f_equal. lia.
  - rewrite lookup_app_r by (rewrite length_take; lia).
    rewrite lookup_app_r by (rewrite length_take; lia).
    rewrite length_take, Nat.min_l, lookup_drop by lia. do 2 f_equal. lia.
  - rewrite lookup_app_l by (rewrite length_take; lia).
    by rewrite lookup_take_lt by lia.
Qed.

Lemma splice_all (bs l : list Z) : length bs = length l -> splice 0 bs l = bs.
Proof. intros Hl. unfold splice. simpl. by rewrite drop_ge, app_nil_r by lia. Qed.

Lemma slice_all (l : list Z) n : Z.of_nat (length l) = n -> slice 0 n l = l.
Proof. intros Hl. unfold slice. rewrite drop_0. apply take_ge. lia. Qed.

Lemma byte_list_splice at_ bs l : byte_list bs -> byte_list l -> byte_list (splice at_ bs l).
Proof.
  intros. unfold splice, byte_list. repeat apply Forall_app_2; auto using Forall_take, Forall_drop.
Qed.

Lemma byte_nth l i : byte_list l -> 0 <= nth i l 0 < 256.
Proof.
  intros Hl. rewrite nth_lookup. destruct (l !! i) as [b|] eqn:E; simpl; [|lia].
  by eapply Forall_lookup_1 in Hl.
Qed.

Lemma list_eq_nth (l k : list Z) n : length l = n -> length k = n ->
  (forall i, 0 <= i < Z.of_nat n -> nth (Z.to_nat i) l 0 = nth (Z.to_nat i) k 0) -> l = k.
Proof.
  intros Hl Hk Hi. apply (nth_ext _ _ 0 0); [congruence|]. intros i Hin.
  specialize (Hi (Z.of_nat i)). rewrite !Nat2Z.id in Hi. apply Hi. lia.
Qed.

Lemma length_region x n : length (region x n) = Z.to_nat n.
Proof. unfold region. by rewrite length_map, length_seqZ. Qed.

Lemma nth_map_seqZ (f : Z -> Z) a n i : 0 <= i < n ->
  nth (Z.to_nat i) (map f (seqZ a n)) 0 = f (a + i).
Proof.
  intros Hi. rewrite nth_lookup. change (map f) with (fmap (M := list) f).
  rewrite list_lookup_fmap, (proj2 (lookup_seqZ a n (Z.to_nat i) (a + i))) by lia. done.
Qed.

Lemma nth_region x n i : 0 <= i < n -> nth (Z.to_nat i) (region x n) 0 = space x (iov_base x.1 + i).
Proof. apply nth_map_seqZ. Qed.

Lemma byte_list_region x n : uio_ok x -> byte_list (region x n).
Proof.
  intros []. apply Forall_forall. intros b (a & -> & _)%list_elem_of_fmap.
  unfold space. destruct (uio_segflg x.1); try by apply ubytes_range.
  destruct (a <? 0); [lia|]. by apply byte_nth.
Qed.

(** *** One transfer *)

Lemma moved_ok n x x' : uio_ok x -> moved n x x' -> 0 <= n <= uio_resid x.1 ->
  byte_list (kbuf x'.1) -> umem_ok (umem x'.2) -> badfault x'.2 = false ->
  (is_user x.1 = true -> iov_base x.1 + n < 2 ^ 32) -> uio_ok x'.
Proof.
  intros Hok Hm Hn ??? Hu. destruct Hok, Hm.
  assert (is_user x'.1 = is_user x.1) as Hi by (unfold is_user; by rewrite mv_seg0).
  split; try done; try lia; rewrite Hi.
  - rewrite mv_space0, ok_space0. by rewrite mv_vmspace0.
  - destruct (is_user x.1); [specialize (Hu eq_refl)|]; lia.
Qed.

(** What a transfer of [n] bytes through [buf] at [p] achieves. *)
Definition transferred (buf : list Z) (p n : Z) x (buf' : list Z) x' : Prop :=
  moved n x x' /\ uio_ok x' /\
  match uio_rw x.1 with
  | UIO_READ => buf' = buf /\ space_put (slice p n buf) x x'
  | UIO_WRITE => buf' = splice p (region x n) buf /\ space_same x x'
  end.

Lemma advance_moved n (u : uio) (t t' : uthread U) :
  0 <= uio_offset u -> uio_offset u + n < 2 ^ 31 -> 0 <= n ->
  t_vmspace t' = t_vmspace t -> (is_user u = false -> t' = t) ->
  moved n (u, t) (advance n u, t').
Proof. intros. split; simpl; try done. by rewrite i32_small by lia. Qed.

Lemma in_buf_true at_ size l : 0 <= at_ -> at_ + size <= Z.of_nat (length l) ->
  in_buf at_ size l = true.
Proof. intros. unfold in_buf. lia. Qed.

Lemma kernel_transfer buf p n x : uio_ok x -> is_user x.1 = false ->
  0 < n <= uio_resid x.1 -> 0 <= p -> p + n <= Z.of_nat (length buf) -> byte_list buf ->
  runs (transfer buf p n) x
    (fun buf' x' => x'.2 = x.2 /\ transferred buf p n x buf' (advance n x'.1, x'.2))
    (fun _ _ => False).
Proof.
  intros Hok Hk Hn Hp Hb Hbl. destruct x as [u t]; simpl in *. unfold transfer. run.
  { by apply in_buf_true. }
  destruct Hok; simpl in *. rewrite Hk in *.
  assert (uio_segflg u = UIO_SYSSPACE) as Hseg by (unfold is_user in Hk; by destruct (uio_segflg u)).
  rewrite Hseg. run. { apply in_buf_true; lia. }
  pose proof (length_slice p n buf Hp ltac:(lia) Hb) as Hsl.
  destruct (uio_rw u) eqn:Hrw; run; (split; [done|]); unfold transferred; simpl; rewrite Hrw.
  - assert (length (splice (iov_base u) (slice p n buf) (kbuf u)) = length (kbuf u)) as Hlen.
    { apply length_splice; lia. }
    assert (moved n (u, t) (advance n (set_kbuf (splice (iov_base u) (slice p n buf) (kbuf u)) u), t)).
    { split; simpl; try done. by rewrite i32_small by lia. }
    split; [done|]. split.
    { eapply moved_ok; [|done|..]; simpl; try done; [by split; simpl; rewrite ?Hk|lia| |].
      - by apply byte_list_splice; [apply byte_list_slice|].
      - congruence. }
    split; [done|]. intros a. unfold space; simpl. rewrite Hseg.
    destruct (Z.ltb_spec a 0); [by zbool|]. rewrite nth_splice by lia. done.
  - assert (moved n (u, t) (advance n u, t)) by (by apply advance_moved; try lia).
    split; [done|]. split.
    { eapply moved_ok; [|done|..]; simpl; try done; [by split; simpl; rewrite ?Hk|lia|congruence]. }
    split; [|done]. f_equal. apply (list_eq_nth _ _ (Z.to_nat n)).
    + apply length_slice; lia.
    + apply length_region.
    + intros i Hi. rewrite nth_slice, nth_region by lia. unfold space; simpl. rewrite Hseg.
      by zbool.
Qed.

Lemma user_slice_region x n : is_user x.1 = true -> 0 <= n ->
  user_slice (umem x.2) (iov_base x.1) (Z.to_nat n) = region x n.
Proof.
  intros Hu Hn. unfold user_slice, region. rewrite Z2Nat.id by done. apply map_ext.
  intros a. unfold space. unfold is_user in Hu. by destruct (uio_segflg x.1).
Qed.

Lemma stored_nth u u' a bs i : stored a bs u u' -> 0 <= i < Z.of_nat (length bs) ->
  ubytes u' (a + i) = nth (Z.to_nat i) bs 0.
Proof.
  intros [<- _] Hi. unfold user_slice in *. rewrite length_map, length_seqZ in Hi.
  by rewrite nth_map_seqZ by lia.
Qed.

Lemma user_transfer buf p n x : uio_ok x -> is_user x.1 = true ->
  0 < n <= uio_resid x.1 -> 0 <= p -> p + n <= Z.of_nat (length buf) -> byte_list buf ->
  runs (transfer buf p n) x
    (fun buf' x' => transferred buf p n x buf' (advance n x'.1, x'.2))
    (fun e x' => e = EFAULT /\ faulted n x x').
Proof.
  intros Hok Hu Hn Hp Hb Hbl. pose proof Hok as Hok'. destruct x as [u t]; simpl in *.
  unfold transfer. apply runs_bind, runs_gets. simpl. apply runs_bind, runs_assert.
  { by apply in_buf_true. }
  destruct Hok; simpl in *. rewrite Hu in *.
  assert (forall y a, is_user y.1 = true -> space y a = ubytes (umem y.2) a) as Hsp.
  { intros y a Hy. unfold space, is_user in *. by destruct (uio_segflg y.1). }
  pose proof (length_slice p n buf Hp ltac:(lia) Hb) as Hsl.
  assert (forall t', thread_kept t t' -> uio_ok (u, t')) as Hokt.
  { intros t' (Hv & Hbf & Hum). split; simpl; try done; rewrite ?Hu; try done; congruence. }
  assert (forall t', thread_kept t t' -> iov_base u + n <= USERTOP ->
    moved n (u, t) (advance n u, t') /\ uio_ok (advance n u, t')) as Hmv.
  { intros t' Hk Htop. pose proof Hk as (Hv & Hbf & Hum).
    assert (moved n (u, t) (advance n u, t')) as Hmv.
    { apply advance_moved; try lia. by rewrite Hu. }
    split; [done|]. eapply moved_ok; [exact Hok'|done|..]; simpl; try done; [lia|congruence|].
    intros _. unfold USERTOP, MIPS_KSEG0 in Htop. lia. }
  assert (forall e t', thread_kept t t' /\ e = EFAULT /\
      same_outside (iov_base u) n (umem t) (umem t') -> uio_rw u = UIO_READ ->
      e = EFAULT /\ faulted n (u, t) (u, t')) as HfR.
  { intros e t' (Hk & -> & Hs) Hrw. split; [done|]. split; simpl; try done; [by apply Hokt|apply Hk|].
    intros a Ha. rewrite !Hsp by done. apply Hs. intros ?. apply Ha. done. }
  assert (forall e t', thread_kept t t' /\ e = EFAULT /\ same_bytes (umem t) (umem t') ->
      e = EFAULT /\ faulted n (u, t) (u, t')) as HfW.
  { intros e t' (Hk & -> & Hs). split; [done|]. split; simpl; try done; [by apply Hokt|apply Hk|].
    intros a _. rewrite !Hsp by done. apply Hs. }
  assert (match uio_rw u with
    | UIO_READ => runs (on_snd (copyout (slice p n buf) (iov_base u)) ;;; ret buf) (u, t)
    | UIO_WRITE => runs (bs <- on_snd (copyin (iov_base u) n) ;; ret (splice p bs buf)) (u, t)
    end (fun buf' x' => transferred buf p n (u, t) buf' (advance n x'.1, x'.2))
        (fun e x' => e = EFAULT /\ faulted n (u, t) x')) as Hgoal.
  { unfold transferred; simpl. destruct (uio_rw u) eqn:Hrw; run.
    - eapply runs_mono; [apply copyout_spec; try done; [lia|by apply byte_list_slice]|..].
      + intros [] t' (Hk & _ & Htop & Hst). run. rewrite Hsl, Z2Nat.id in Htop by lia.
        destruct (Hmv t' Hk Htop) as [? ?]. split; [done|]. split; [done|]. split; [done|].
        intros a. rewrite !Hsp by done. simpl. rewrite Hsl, Z2Nat.id by lia.
        pose proof Hst as [_ Hso]. rewrite Hsl, Z2Nat.id in Hso by lia.
        destruct (Z.leb_spec (iov_base u) a); simpl; [destruct (Z.ltb_spec a (iov_base u + n))|];
          [|apply Hso; lia..].
        rewrite <- (stored_nth (umem t) (umem t') (iov_base u));
          [f_equal; lia|done|rewrite Hsl; lia].
      + rewrite Hsl, Z2Nat.id by lia. naive_solver.
    - eapply runs_mono; [apply copyin_spec; try done; lia|..].
      + intros bs t' (Hk & _ & Htop & -> & Hs). run. destruct (Hmv t' Hk Htop) as [? ?].
        split; [done|]. split; [done|]. split; [|intros a; rewrite !Hsp by done; apply Hs].
        f_equal. by apply (user_slice_region (u, t)); [|lia].
      + intros e t' He. by apply HfW. }
  unfold is_user in Hu. destruct (uio_segflg u); try done; by destruct (uio_rw u).
Qed.

Lemma transferred_refl buf p x : uio_ok x -> 0 <= p <= Z.of_nat (length buf) ->
  transferred buf p 0 x buf x.
Proof.
  intros Hok Hp. unfold transferred. split; [split; try done; lia|]. split; [done|].
  destruct (uio_rw x.1).
  - split; [done|]. intros a. simpl. change (length (slice p 0 buf)) with 0%nat.
    destruct (Z.leb_spec (iov_base x.1) a), (Z.ltb_spec a (iov_base x.1 + Z.of_nat 0)); try done. lia.
  - split; [|done]. unfold splice. simpl. rewrite Nat.add_0_r. by rewrite take_drop.
Qed.

Lemma transfer_spec buf p n x : uio_ok x -> 0 < n <= uio_resid x.1 -> 0 <= p ->
  p + n <= Z.of_nat (length buf) -> byte_list buf ->
  runs (transfer buf p n) x
    (fun buf' x' => transferred buf p n x buf' (advance n x'.1, x'.2))
    (fun e x' => e = EFAULT /\ faulted n x x').
Proof.
  intros Hok Hn Hp Hb Hbl. pose proof (ok_resid _ Hok). destruct (is_user x.1) eqn:Hu; [apply user_transfer; try done; lia|].
  eapply runs_mono; [apply kernel_transfer; try done; lia|naive_solver..].
Qed.

(** The assertions at the start of [uiomove]. *)
Lemma uiomove_start buf p n x Q E : uio_ok x -> runs (uiomove_loop 2 buf p n) x Q E -> runs (uiomove buf p n) x Q E.
Proof.
  intros Hok Hr. unfold uiomove. apply runs_bind, runs_gets. apply runs_bind, runs_gets. apply runs_bind.
  pose proof (ok_space _ Hok) as Hs. unfold is_user in Hs.
  destruct (uio_segflg x.1); apply runs_assert; try done; lia.
Qed.

Lemma uiomove_spec buf p n x : uio_ok x -> 0 <= n <= uio_resid x.1 -> 0 <= p ->
  p + n <= Z.of_nat (length buf) -> byte_list buf ->
  runs (uiomove buf p n) x (fun buf' x' => transferred buf p n x buf' x')
    (fun e x' => e = EFAULT /\ faulted n x x').
Proof.
  intros Hok Hn Hp Hb Hbl. apply uiomove_start; [done|]. cbn [uiomove_loop]. apply runs_bind, runs_gets.
  destruct (decide (n = 0)) as [->|]; [zbool; apply runs_ret, transferred_refl; [done|lia]|].
  zbool. pose proof (ok_resid _ Hok). replace (if iov_len x.1 >? n then n else iov_len x.1) with n
    by (destruct (Z.gtb_spec (iov_len x.1) n); lia).
  zbool. apply runs_bind. eapply runs_mono; [apply transfer_spec; try done; lia| |done].
  intros buf' [u' t'] Htr. run. replace (n - n) with 0 by lia. zbool. by run.
Qed.

(** More than fits: the region is filled. *)
Lemma uiomove_cut buf p n x : uio_ok x -> iov_len x.1 = uio_resid x.1 -> uio_resid x.1 <= n -> 0 <= p ->
  p + n <= Z.of_nat (length buf) -> byte_list buf ->
  runs (uiomove buf p n) x (fun buf' x' => transferred buf p (uio_resid x.1) x buf' x')
    (fun e x' => e = EFAULT /\ faulted (uio_resid x.1) x x').
Proof.
  intros Hok Hl Hn Hp Hb Hbl. apply uiomove_start; [done|]. cbn [uiomove_loop]. apply runs_bind, runs_gets.
  pose proof (ok_resid _ Hok) as Hr. destruct (decide (uio_resid x.1 = 0)) as [E|Hnz].
  { rewrite E. rewrite andb_false_r. apply runs_ret, transferred_refl; [done|lia]. }
  rewrite Hl. zbool. apply runs_bind. eapply runs_mono; [apply transfer_spec; try done; lia| |done].
  intros buf' [u' t'] Htr. run. assert (uio_resid u' - uio_resid x.1 = 0) as Hz.
  { destruct Htr as [[] _]. simpl in *. lia. }
  cbn [fst advance uio_resid]. rewrite Hz. rewrite andb_false_r. by run.
Qed.

(** *** Sequences of transfers *)

Lemma moved_refl x : moved 0 x x.
Proof. split; try done; lia. Qed.

Lemma moved_trans n m x x' x'' : moved n x x' -> moved m x' x'' -> moved (n + m) x x''.
Proof.
  intros [] []. split; try congruence; try lia.
  intros Hu. rewrite mv_thread1; [by apply mv_thread0|].
  unfold is_user in *. by rewrite mv_seg0.
Qed.

Lemma moved_user n x x' : moved n x x' -> is_user x'.1 = is_user x.1.
Proof. intros Hm. unfold is_user. by rewrite (mv_seg _ _ _ Hm). Qed.

Lemma space_put_app n bs bs' x x' x'' : moved n x x' -> n = Z.of_nat (length bs) ->
  space_put bs x x' -> space_put bs' x' x'' -> space_put (bs ++ bs') x x''.
Proof.
  intros Hm -> H1 H2 a. rewrite H2, H1, (mv_base _ _ _ Hm), length_app, !nth_lookup.
  destruct (Z.leb_spec (iov_base x.1) a), (Z.ltb_spec a (iov_base x.1 + Z.of_nat (length bs))),
    (Z.leb_spec (iov_base x.1 + Z.of_nat (length bs)) a),
    (Z.ltb_spec a (iov_base x.1 + Z.of_nat (length bs) + Z.of_nat (length bs'))),
    (Z.ltb_spec a (iov_base x.1 + Z.of_nat (length bs + length bs'))); simpl; try lia; try done.
  - by rewrite lookup_app_l by lia.
  - rewrite lookup_app_r by lia. do 2 f_equal. lia.
Qed.

(** A transfer of up to [n] bytes that was cut short by a fault. *)
Definition cut_short (n : Z) x x' : Prop :=
  is_user x.1 = true /\ uio_ok x' /\
  (exists m, 0 <= m <= n /\ moved m x x') /\
  forall a, ~ (uio_rw x.1 = UIO_READ /\ iov_base x.1 <= a < iov_base x.1 + n) ->
    space x' a = space x a.

Lemma faulted_cut n x x' : 0 <= n -> faulted n x x' -> cut_short n x x'.
Proof.
  intros Hn []. split; [done|]. split; [done|]. split; [|done].
  exists 0. split; [lia|]. split; rewrite ?fl_uio0; try done; try lia. by rewrite fl_user0.
Qed.

Lemma cut_short_after n m x x' x'' : moved n x x' -> 0 <= n -> 0 <= m ->
  (forall a, ~ (uio_rw x.1 = UIO_READ /\ iov_base x.1 <= a < iov_base x.1 + n) ->
     space x' a = space x a) ->
  cut_short m x' x'' -> cut_short (n + m) x x''.
Proof.
  intros Hm Hn Hm0 Hsp (Hu & Hok & (k & Hk & Hmk) & Hsp').
  split; [by rewrite <- (moved_user _ _ _ Hm)|]. split; [done|]. split.
  - exists (n + k). split; [lia|]. by eapply moved_trans.
  - intros a Ha. rewrite Hsp', Hsp; [done|..]; rewrite ?(mv_rw _ _ _ Hm), ?(mv_base _ _ _ Hm);
      intros [? ?]; apply Ha; (split; [done|lia]).
Qed.

Lemma space_put_outside bs x x' : space_put bs x x' ->
  forall a, ~ (iov_base x.1 <= a < iov_base x.1 + Z.of_nat (length bs)) -> space x' a = space x a.
Proof.
  intros Hp a Ha. rewrite Hp. destruct (Z.leb_spec (iov_base x.1) a); [|done]. simpl.
  destruct (Z.ltb_spec a (iov_base x.1 + Z.of_nat (length bs))); [lia|done].
Qed.

Lemma byte_list_replicate n b : 0 <= b < 256 -> byte_list (replicate n b).
Proof. intros. by apply Forall_replicate. Qed.

Lemma slice_replicate n m (b : Z) : 0 <= n <= Z.of_nat m ->
  slice 0 n (replicate m b) = replicate (Z.to_nat n) b.
Proof. intros. unfold slice. rewrite drop_0, take_replicate. f_equal. lia. Qed.

Lemma zeros_loop_spec fuel n x : uio_ok x -> uio_rw x.1 = UIO_READ ->
  0 <= n <= uio_resid x.1 -> n <= Z.of_nat fuel ->
  runs (zeros_loop fuel n) x
    (fun _ x' => moved n x x' /\ uio_ok x' /\ space_put (replicate (Z.to_nat n) 0) x x')
    (fun e x' => e = EFAULT /\ cut_short n x x').
Proof.
  revert n x. induction fuel as [|fuel IH]; intros n x Hok Hrw Hn Hf; cbn [zeros_loop];
    (destruct (decide (n = 0)) as [->|]; [zbool; apply runs_ret|]).
  1, 3: split; [apply moved_refl|]; split; [done|]; intros a; simpl;
    destruct (Z.leb_spec (iov_base x.1) a), (Z.ltb_spec a (iov_base x.1 + Z.of_nat 0)); try done; lia.
  { lia. }
  zbool. set (amt := if 16 >? n then n else 16).
  assert (0 < amt <= n /\ amt <= 16) as [Ha Ha16] by (unfold amt; destruct (Z.gtb_spec 16 n); lia).
  apply runs_bind. eapply runs_mono; [apply uiomove_spec; [done|lia|lia|simpl; lia|]|..].
  { by apply byte_list_replicate. }
  - intros buf' x' (Hm & Hok' & Htr). rewrite Hrw in Htr. destruct Htr as [_ Hp].
    rewrite slice_replicate in Hp by lia.
    assert (forall a, ~ (uio_rw x.1 = UIO_READ /\ iov_base x.1 <= a < iov_base x.1 + amt) ->
      space x' a = space x a) as Hout.
    { intros a Hna. apply (space_put_outside _ _ _ Hp). rewrite length_replicate.
      intros ?. apply Hna. split; [done|lia]. }
    eapply runs_mono; [apply IH; [done|by rewrite (mv_rw _ _ _ Hm)| |lia]|..].
    + rewrite (mv_resid _ _ _ Hm). lia.
    + intros [] x'' (Hm' & Hok'' & Hp'). split; [|split; [done|]].
      * replace n with (amt + (n - amt)) by lia. by eapply moved_trans.
      * replace (Z.to_nat n) with (Z.to_nat amt + Z.to_nat (n - amt))%nat by lia.
        rewrite replicate_add. eapply space_put_app; [done| |done|done].
        rewrite length_replicate. lia.
    + intros e x'' [-> Hc]. split; [done|]. replace n with (amt + (n - amt)) by lia.
      eapply cut_short_after; [done|lia|lia|done|done].
  - intros e x' [-> Hfl]. split; [done|]. apply faulted_cut in Hfl; [|lia].
    destruct Hfl as (? & ? & (m & ? & ?) & Hsp). split; [done|]. split; [done|]. split.
    + exists m. split; [lia|done].
    + intros a Hna. apply Hsp. intros [? ?]. apply Hna. split; [done|lia].
Qed.

Lemma uiomovezeros_spec n x : uio_ok x -> uio_rw x.1 = UIO_READ -> 0 <= n <= uio_resid x.1 ->
  runs (uiomovezeros n) x
    (fun _ x' => moved n x x' /\ uio_ok x' /\ space_put (replicate (Z.to_nat n) 0) x x')
    (fun e x' => e = EFAULT /\ cut_short n x x').
Proof.
  intros Hok Hrw Hn. unfold uiomovezeros. run; [by apply bool_decide_eq_true|].
  apply zeros_loop_spec; try done. lia.
Qed.

Lemma mk_kuio_ok (t : uthread U) buf pos rw : umem_ok (umem t) -> badfault t = false ->
  byte_list buf -> 0 <= pos -> pos + Z.of_nat (length buf) < 2 ^ 31 ->
  uio_ok (mk_kuio buf (Z.of_nat (length buf)) pos rw, t).
Proof. intros. split; simpl; try done; lia. Qed.

End uio.
