(* ===== verification/Device.v ===== *)
(** Block devices as the file systems see them: [struct device] of
    kern/include/dev.h.

    [BlockDev] is the interface; [BlockDevLaws] states what a device that is in
    good order does with a request for one whole block.  Lhd.v implements it for
    the LAMEbus disk. *)

From Stdlib Require Import ZArith Lia.
From stdpp Require Import prelude gmap list.
From S2P Require Import Prelude Pages Copy Uio.

Definition BLOCKSIZE : Z := 512.

Class BlockDev (U D : Type) := {
  d_blocks : D -> Z;
  d_blocksize : D -> Z;
  d_io : M (uio * (uthread U * D)) unit;
}.

(** The request for block [b]: one block, block-aligned, within the device. *)
Definition block_request {D} (nblocks : D -> Z) (u : uio) (d : D) (b : Z) : Prop :=
  uio_resid u = BLOCKSIZE /\ uio_offset u = b * BLOCKSIZE /\ 0 <= b < nblocks d.

(** [dblock d b] is what block [b] holds; a request either transfers the block
    or faults on the user region, leaving the device as it was. *)
Class BlockDevLaws (U D : Type) `{UserMemLaws U} `{!BlockDev U D} := {
  dev_ok : D -> Prop;
  dblock : D -> Z -> list Z;
  dblock_len : forall d b, dev_ok d -> 0 <= b < d_blocks d ->
    length (dblock d b) = 512%nat /\ byte_list (dblock d b);
  d_io_spec : forall u t d b, uio_ok (u, t) -> dev_ok d -> block_request d_blocks u d b ->
    runs d_io (u, (t, d))
      (fun _ '(u', (t', d')) =>
         dev_ok d' /\ d_blocks d' = d_blocks d /\ d_blocksize d' = d_blocksize d /\
         moved BLOCKSIZE (u, t) (u', t') /\ uio_ok (u', t') /\
         match uio_rw u with
         | UIO_READ => space_put (dblock d b) (u, t) (u', t') /\
             forall c, 0 <= c < d_blocks d -> dblock d' c = dblock d c
         | UIO_WRITE => space_same (u, t) (u', t') /\
             forall c, 0 <= c < d_blocks d ->
               dblock d' c = if c =? b then region (u, t) BLOCKSIZE else dblock d c
         end)
      (fun e '(u', (t', d')) =>
         e = EFAULT /\ faulted BLOCKSIZE (u, t) (u', t') /\
         dev_ok d' /\ d_blocks d' = d_blocks d /\ d_blocksize d' = d_blocksize d /\
         forall c, 0 <= c < d_blocks d -> dblock d' c = dblock d c);
}.
