(* ===== verification/Lhd.v ===== *)
(** The LAMEbus disk driver: kern/dev/lamebus/lhd.c.

    The card itself is hardware: [LhdCard] lists what the driver can do to it
    (its registers and its one-sector transfer buffer) and [LhdCardLaws] what
    the card does when an operation is started and completes.  [lhd_io] sleeps
    on a semaphore until the completion interrupt; here the card finishes and
    the interrupt handler runs at that point.  A P on a semaphore whose count is
    0 would wait for another thread and is a [Spin].

    With a card that reports no media errors, the driver implements [BlockDev]. *)

From Stdlib Require Import ZArith Lia.
From stdpp Require Import prelude gmap list.
From S2P Require Import Prelude Pages Copy Uio Device.

(** ** Definitions *)

Definition LHD_SECTSIZE : Z := 512.
Definition LHD_IDLE : Z := 0.
Definition LHD_WORKING : Z := 1.
Definition LHD_OK : Z := 4.
Definition LHD_INVSECT : Z := 12.
Definition LHD_MEDIA : Z := 20.
Definition LHD_ISWRITE : Z := 2.
Definition LHD_STATEMASK : Z := 0x1d.

(** The card: the status and sector registers, the buffer, and the passing of
    time until the operation in progress has completed. *)
Class LhdCard (W : Type) := {
  reg_stat : W -> Z;
  set_stat : Z -> W -> W;
  set_sect : Z -> W -> W;
  card_buf : W -> list Z;
  set_buf : list Z -> W -> W;
  card_finish : W -> W;
}.

Record lhd_softc (W : Type) := mk_softc {
  lh_result : Z;
  lh_clear : Z;            (* count of the semaphore lh_clear *)
  lh_done : Z;             (* count of the semaphore lh_done *)
  lh_blocks : Z;           (* lh_dev.d_blocks *)
  lh_card : W;
}.
Arguments mk_softc {W}.
Arguments lh_result {W}.
Arguments lh_clear {W}.
Arguments lh_done {W}.
Arguments lh_blocks {W}.
Arguments lh_card {W}.

Section lhd_ops.
Context {U W : Type} `{!UserMem U} `{!LhdCard W}.

Definition with_result (r : Z) (d : lhd_softc W) : lhd_softc W :=
  mk_softc r (lh_clear d) (lh_done d) (lh_blocks d) (lh_card d).
Definition with_clear (n : Z) (d : lhd_softc W) : lhd_softc W :=
  mk_softc (lh_result d) n (lh_done d) (lh_blocks d) (lh_card d).
Definition with_done (n : Z) (d : lhd_softc W) : lhd_softc W :=
  mk_softc (lh_result d) (lh_clear d) n (lh_blocks d) (lh_card d).
Definition with_card (f : W -> W) (d : lhd_softc W) : lhd_softc W :=
  mk_softc (lh_result d) (lh_clear d) (lh_done d) (lh_blocks d) (f (lh_card d)).

(** [P] and [V] on the two semaphores. *)
Definition P_clear : M (lhd_softc W) unit :=
  d <- get ;; if lh_clear d =? 0 then spin else modify (with_clear (lh_clear d - 1)).
Definition V_clear : M (lhd_softc W) unit :=
  d <- get ;; modify (with_clear (lh_clear d + 1)).
Definition P_done : M (lhd_softc W) unit :=
  d <- get ;; if lh_done d =? 0 then spin else modify (with_done (lh_done d - 1)).
Definition V_done : M (lhd_softc W) unit :=
  d <- get ;; modify (with_done (lh_done d + 1)).

Definition lhd_code_to_errno (code : Z) : Z :=
  let c := Z.land code LHD_STATEMASK in
  if c =? LHD_OK then 0
  else if c =? LHD_INVSECT then EINVAL
  else if c =? LHD_MEDIA then EIO
  else EAGAIN.

Definition lhd_iodone (err : Z) : M (lhd_softc W) unit :=
  modify (with_result err) ;;; V_done.

Definition lhd_irq : M (lhd_softc W) unit :=
  val <- gets (fun d => reg_stat (lh_card d)) ;;
  let c := Z.land val LHD_STATEMASK in
  if (c =? LHD_IDLE) || (c =? LHD_WORKING) then ret tt
  else if (c =? LHD_OK) || (c =? LHD_INVSECT) || (c =? LHD_MEDIA) then
    modify (with_card (set_stat 0)) ;;;
    lhd_iodone (lhd_code_to_errno val)
  else ret tt.

(** Sleeping in [P(lh->lh_done)]: the operation completes, the card interrupts,
    and the P goes through. *)
Definition wait_done : M (lhd_softc W) unit :=
  modify (with_card card_finish) ;;; lhd_irq ;;; P_done.

(** [uiomove(lh->lh_buf, LHD_SECTSIZE, uio)] *)
Definition buf_move : M (uio * (uthread U * lhd_softc W)) unit := fun '(u, (t, d)) =>
  match uiomove (card_buf (lh_card d)) 0 LHD_SECTSIZE (u, t) with
  | (Ret buf, (u', t')) => (Ret tt, (u', (t', with_card (set_buf buf) d)))
  | (Err e, (u', t')) => (Err e, (u', (t', d)))
  | (Panic, (u', t')) => (Panic, (u', (t', d)))
  | (Spin, (u', t')) => (Spin, (u', (t', d)))
  end.

Definition dev {A} (m : M (lhd_softc W) A) : M (uio * (uthread U * lhd_softc W)) A :=
  on_snd (on_snd m).

(** One round of the loop of [lhd_io], for sector [sector]. *)
Definition lhd_sector (sector statval : Z) : M (uio * (uthread U * lhd_softc W)) unit :=
  dev P_clear ;;;
  u <- gets fst ;;
  (if bool_decide (uio_rw u = UIO_WRITE) then
     r <- result_of buf_move ;;
     if negb (r =? 0) then dev V_clear ;;; fail r else ret tt
   else ret tt) ;;;
  dev (modify (with_card (set_sect sector))) ;;;
  dev (modify (with_card (set_stat statval))) ;;;
  dev wait_done ;;;
  r <- gets (fun s => lh_result s.2.2) ;;
  r <- (if (r =? 0) && bool_decide (uio_rw u = UIO_READ) then result_of buf_move else ret r) ;;
  dev V_clear ;;;
  if negb (r =? 0) then fail r else ret tt.

Definition lhd_io : M (uio * (uthread U * lhd_softc W)) unit :=
  u <- gets fst ;;
  d <- gets (fun s => s.2.2) ;;
  let sector := u32 (Z.quot (uio_offset u) LHD_SECTSIZE) in
  let sectoff := u32 (Z.rem (uio_offset u) LHD_SECTSIZE) in
  let len := uio_resid u / LHD_SECTSIZE in
  let lenoff := uio_resid u mod LHD_SECTSIZE in
  if negb (sectoff =? 0) || negb (lenoff =? 0) then fail EINVAL
  else if u32 (sector + len) >? lh_blocks d then fail EINVAL
  else
    let statval := if bool_decide (uio_rw u = UIO_WRITE)
                   then Z.lor LHD_WORKING LHD_ISWRITE else LHD_WORKING in
    for_each (seqZ 0 len) (fun i => lhd_sector (u32 (sector + i)) statval).

End lhd_ops.

#[export] Instance lhd_blockdev {U W} `{!UserMem U} `{!LhdCard W} : BlockDev U (lhd_softc W) := {
  d_blocks := lh_blocks;
  d_blocksize := fun _ => LHD_SECTSIZE;
  d_io := lhd_io;
}.

(** ** The card *)

(** [sector w s] is what the platter holds.  An operation on a valid sector ends
    with LHD_OK and has its effect, or with LHD_MEDIA and has none; a card in
    good order, [media_ok], ends with LHD_OK. *)
Class LhdCardLaws (W : Type) `{LhdCard W} := {
  card_ok : W -> Prop;
  media_ok : W -> Prop;
  nsect : W -> Z;
  sector : W -> Z -> list Z;
  sector_bytes : forall w s, card_ok w -> 0 <= s < nsect w ->
    length (sector w s) = 512%nat /\ byte_list (sector w s);
  buf_bytes : forall w, card_ok w -> length (card_buf w) = 512%nat /\ byte_list (card_buf w);
  set_buf_spec : forall w bs, card_ok w -> length bs = 512%nat -> byte_list bs ->
    card_ok (set_buf bs w) /\ card_buf (set_buf bs w) = bs /\
    nsect (set_buf bs w) = nsect w /\ sector (set_buf bs w) = sector w /\
    (media_ok w -> media_ok (set_buf bs w));
  clear_spec : forall w, card_ok w ->
    card_ok (set_stat 0 w) /\ card_buf (set_stat 0 w) = card_buf w /\
    nsect (set_stat 0 w) = nsect w /\ sector (set_stat 0 w) = sector w /\
    (media_ok w -> media_ok (set_stat 0 w));
  read_spec : forall w s, card_ok w -> 0 <= s < nsect w ->
    let w' := card_finish (set_stat LHD_WORKING (set_sect s w)) in
    card_ok w' /\ nsect w' = nsect w /\
    (forall k, 0 <= k < nsect w -> sector w' k = sector w k) /\
    (Z.land (reg_stat w') LHD_STATEMASK = LHD_OK /\ card_buf w' = sector w s \/
     Z.land (reg_stat w') LHD_STATEMASK = LHD_MEDIA /\ ~ media_ok w) /\
    (media_ok w -> media_ok w');
  write_spec : forall w s, card_ok w -> 0 <= s < nsect w ->
    let w' := card_finish (set_stat (Z.lor LHD_WORKING LHD_ISWRITE) (set_sect s w)) in
    card_ok w' /\ nsect w' = nsect w /\
    (Z.land (reg_stat w') LHD_STATEMASK = LHD_OK /\
       (forall k, 0 <= k < nsect w -> sector w' k = if k =? s then card_buf w else sector w k) \/
     Z.land (reg_stat w') LHD_STATEMASK = LHD_MEDIA /\ ~ media_ok w /\
       (forall k, 0 <= k < nsect w -> sector w' k = sector w k)) /\
    (media_ok w -> media_ok w');
}.

(** ** What the driver does *)

Section lhd.
Context {U W : Type} `{UserMemLaws U} `{LhdCardLaws W}.
Implicit Types (d : lhd_softc W).

(** No operation is in progress. *)
Definition idle d : Prop :=
  lh_clear d = 1 /\ lh_done d = 0 /\ card_ok (lh_card d) /\ lh_blocks d = nsect (lh_card d).

(** [d'] is idle, of the same size, and no worse than [d]. *)
Definition after d d' : Prop :=
  idle d' /\ lh_blocks d' = lh_blocks d /\ (media_ok (lh_card d) -> media_ok (lh_card d')).

Definition same_sectors d d' : Prop := 
  forall k, 0 <= k < lh_blocks d -> sector (lh_card d') k = sector (lh_card d) k.

Lemma wait_done_eq d w : lh_done d = 0 -> card_finish (lh_card d) = w ->
  (Z.land (reg_stat w) LHD_STATEMASK = LHD_OK \/ Z.land (reg_stat w) LHD_STATEMASK = LHD_MEDIA) ->
  wait_done d = (Ret tt, mk_softc (lhd_code_to_errno (reg_stat w)) (lh_clear d) 0
                           (lh_blocks d) (set_stat 0 w)).
Proof.
  intros Hd <- Hst. unfold wait_done, lhd_irq, bind, modify, gets. simpl.
  assert (forall P Q : M (lhd_softc W) unit,
    (if (Z.land (reg_stat (card_finish (lh_card d))) LHD_STATEMASK =? LHD_IDLE)
      || (Z.land (reg_stat (card_finish (lh_card d))) LHD_STATEMASK =? LHD_WORKING) then P else
     if (Z.land (reg_stat (card_finish (lh_card d))) LHD_STATEMASK =? LHD_OK)
      || (Z.land (reg_stat (card_finish (lh_card d))) LHD_STATEMASK =? LHD_INVSECT)
      || (Z.land (reg_stat (card_finish (lh_card d))) LHD_STATEMASK =? LHD_MEDIA)
     then Q else P) = Q) as Hirq by (intros; by destruct Hst as [-> | ->]).
  rewrite Hirq. unfold P_done, V_done, lhd_iodone, bind, modify, get. simpl. by rewrite Hd.
Qed.

Lemma code_ok w : Z.land (reg_stat w) LHD_STATEMASK = LHD_OK -> lhd_code_to_errno (reg_stat w) = 0.
Proof. unfold lhd_code_to_errno. by intros ->. Qed.

Lemma code_media w : Z.land (reg_stat w) LHD_STATEMASK = LHD_MEDIA ->
  lhd_code_to_errno (reg_stat w) = EIO.
Proof. unfold lhd_code_to_errno. by intros ->. Qed.

(** The card buffer after [uiomove] has gone through it. *)
Lemma buf_move_spec u t d : uio_ok (u, t) -> 512 <= uio_resid u -> card_ok (lh_card d) ->
  runs (buf_move (U := U) (W := W)) (u, (t, d))
    (fun _ '(u', (t', d')) => exists buf, d' = with_card (set_buf buf) d /\
       length buf = 512%nat /\ byte_list buf /\
       transferred (card_buf (lh_card d)) 0 512 (u, t) buf (u', t'))
    (fun e '(u', (t', d')) => e = EFAULT /\ d' = d /\ faulted 512 (u, t) (u', t')).
Proof.
  intros Hok Hr Hc. destruct (buf_bytes _ Hc) as [Hl Hb].
  assert (uiomove (card_buf (lh_card d)) 0 LHD_SECTSIZE (u, t) =
          uiomove (card_buf (lh_card d)) 0 512 (u, t)) as Hu by done.
  pose proof (uiomove_spec (card_buf (lh_card d)) 0 512 (u, t) Hok ltac:(simpl; lia)
    ltac:(lia) ltac:(rewrite Hl; lia) Hb) as Hm.
  unfold runs, buf_move in *. rewrite Hu. clear Hu.
  destruct (uiomove (card_buf (lh_card d)) 0 512 (u, t)) as [[buf|e| |] [u' t']]; try done.
  - exists buf. split; [done|]. destruct Hm as (Hmv & Hok' & Htr).
    destruct (uio_rw (u, t).1) eqn:Hrw; destruct Htr as [-> Hsp].
    + split; [done|]. split; [done|]. split; [done|]. split; [done|]. by rewrite Hrw.
    + pose proof (byte_list_region (u, t) 512 Hok) as Hbr.
      rewrite length_splice by (rewrite ?length_region; lia).
      split; [done|]. split; [by apply byte_list_splice|].
      split; [done|]. split; [done|]. by rewrite Hrw.
  - naive_solver.
Qed.

Lemma lhd_read_sector s u t d : uio_ok (u, t) -> uio_rw u = UIO_READ -> 512 <= uio_resid u ->
  idle d -> 0 <= s < lh_blocks d ->
  runs (lhd_sector (U := U) s LHD_WORKING) (u, (t, d))
    (fun _ '(u', (t', d')) => after d d' /\ same_sectors d d' /\
       moved 512 (u, t) (u', t') /\ uio_ok (u', t') /\
       space_put (sector (lh_card d) s) (u, t) (u', t'))
    (fun e '(u', (t', d')) => after d d' /\ same_sectors d d' /\
       (e = EFAULT /\ faulted 512 (u, t) (u', t') \/
        e = EIO /\ ~ media_ok (lh_card d) /\ (u', t') = (u, t))).
Proof.
  intros Hok Hrw Hr (Hcl & Hdn & Hc & Hbl) Hs.
  destruct (read_spec (lh_card d) s Hc ltac:(lia)) as (Hc' & Hn' & Hs' & Hst & Hmed).
  set (w' := card_finish (set_stat LHD_WORKING (set_sect s (lh_card d)))) in *.
  destruct (clear_spec w' Hc') as (Hc2 & Hb2 & Hn2 & Hs2 & Hm2).
  unfold lhd_sector, dev, P_clear, V_clear. run. rewrite Hcl. zbool. run.
  rewrite Hrw, bool_decide_eq_false_2 by done. run.
  eapply runs_intro_ret; [apply (wait_done_eq _ w'); [done|done|tauto]|]. run.
  rewrite bool_decide_eq_true_2 by done. simpl.
  destruct Hst as [[Hst Hbuf]|[Hst Hnm]].
  - rewrite (code_ok _ Hst). zbool. run.
    eapply runs_mono; [apply buf_move_spec; [done|done|done]|..].
    + intros [] [u1 [t1 d1]] (buf & -> & Hlb & Hbb & Hmv & Hok1 & Htr). run. zbool. run.
      simpl in Htr. rewrite Hrw in Htr. destruct Htr as [-> Hsp]. simpl in *.
      destruct (set_buf_spec (set_stat 0 w') (card_buf (set_stat 0 w')) Hc2 Hlb Hbb)
        as (Hc3 & Hb3 & Hn3 & Hs3 & Hm3).
      rewrite slice_all in Hsp by (rewrite Hlb; lia). rewrite Hb2, Hbuf in Hsp.
      split; [|split; [|done]].
      * split; [|split; [done|tauto]]. split; [simpl; lia|]. split; [done|]. split; [done|].
        simpl. congruence.
      * intros k Hk. simpl. rewrite Hs3, Hs2. apply Hs'. lia.
    + intros e [u1 [t1 d1]] (-> & -> & Hfl). run. change (negb (EFAULT =? 0)) with true. run.
      split; [|split; [|by left]].
      * split; [|split; [done|tauto]]. split; [simpl; lia|]. split; [done|]. split; [done|].
        simpl. congruence.
      * intros k Hk. simpl. rewrite Hs2. apply Hs'. lia.
  - rewrite (code_media _ Hst). change (EIO =? 0) with false. simpl. run. simpl.
    split; [|split; [|by right]].
    + split; [|split; [done|tauto]]. split; [simpl; lia|]. split; [done|]. split; [done|].
      simpl. congruence.
    + intros k Hk. simpl. rewrite Hs2. apply Hs'. lia.
Qed.

(** What the status register reads after [bs] has been sent to sector [s]. *)
Definition write_status (s : Z) (bs : list Z) (w : W) : Z :=
  reg_stat (card_finish (set_stat (Z.lor LHD_WORKING LHD_ISWRITE) (set_sect s (set_buf bs w)))).

(** A write moves the data into the card before it starts the operation, so the
    uio has advanced even when the card then reports an error. *)
Lemma lhd_write_sector s u t d : uio_ok (u, t) -> uio_rw u = UIO_WRITE -> 512 <= uio_resid u ->
  idle d -> 0 <= s < lh_blocks d ->
  runs (lhd_sector (U := U) s (Z.lor LHD_WORKING LHD_ISWRITE)) (u, (t, d))
    (fun _ '(u', (t', d')) => after d d' /\
       (forall k, 0 <= k < lh_blocks d -> sector (lh_card d') k =
          if k =? s then region (u, t) 512 else sector (lh_card d) k) /\
       moved 512 (u, t) (u', t') /\ uio_ok (u', t') /\ space_same (u, t) (u', t') /\
       Z.land (write_status s (region (u, t) 512) (lh_card d)) LHD_STATEMASK = LHD_OK)
    (fun e '(u', (t', d')) => after d d' /\ same_sectors d d' /\
       (e = EFAULT /\ faulted 512 (u, t) (u', t') \/
        e = EIO /\ ~ media_ok (lh_card d) /\ moved 512 (u, t) (u', t') /\ uio_ok (u', t'))).
Proof.
  intros Hok Hrw Hr (Hcl & Hdn & Hc & Hbl) Hs.
  unfold lhd_sector, dev, P_clear, V_clear. run. rewrite Hcl. zbool. run.
  rewrite Hrw, bool_decide_eq_true_2 by done. run.
  eapply runs_mono; [apply buf_move_spec; [done|done|done]|..].
  2:{ intros e [u1 [t1 d1]] (-> & -> & Hfl). change (negb (EFAULT =? 0)) with true. run.
      split; [|split; [done|by left]]. split; [|done]. done. }
  intros [] [u1 [t1 d1]] (buf & -> & Hlb & Hbb & Hmv & Hok1 & Htr). zbool. run.
  simpl in *. rewrite Hrw in Htr. destruct Htr as [-> Hsp].
  destruct (buf_bytes _ Hc) as [Hl0 _].
  rewrite splice_all in * by (rewrite length_region, Hl0; done).
  destruct (set_buf_spec (lh_card d) (region (u, t) 512) Hc Hlb Hbb)
    as (Hc1 & Hb1 & Hn1 & Hs1 & Hm1).
  set (w1 := set_buf (region (u, t) 512) (lh_card d)) in *.
  destruct (write_spec w1 s Hc1 ltac:(lia)) as (Hc' & Hn' & Hst & Hmed).
  set (w' := card_finish (set_stat (Z.lor LHD_WORKING LHD_ISWRITE) (set_sect s w1))) in *.
  destruct (clear_spec w' Hc') as (Hc2 & Hb2 & Hn2 & Hs2 & Hm2).
  eapply runs_intro_ret; [apply (wait_done_eq _ w'); [done|done|tauto]|]. run.
  rewrite andb_false_r. run. simpl.
  assert (after d (mk_softc (lhd_code_to_errno (reg_stat w')) 1 0 (lh_blocks d) (set_stat 0 w')))
    as Haft.
  { split; [|split; [done|simpl; tauto]]. split; [done|]. split; [done|]. split; [done|].
    simpl. congruence. }
  destruct Hst as [[Hst Hsec]|(Hst & Hnm & Hsec)].
  - rewrite (code_ok _ Hst) in *. zbool. run. split; [done|].
    split; [|exact (conj Hmv (conj Hok1 (conj Hsp Hst)))].
    intros k Hk. simpl. by rewrite Hs2, Hsec, Hb1, Hs1 by lia.
  - rewrite (code_media _ Hst) in *. change (negb (EIO =? 0)) with true. run.
    split; [done|]. split.
    + intros k Hk. simpl. by rewrite Hs2, Hsec, Hs1 by lia.
    + right. split; [done|]. split; [tauto|done].
Qed.

(** A request for one sector is one round of the loop. *)
Lemma lhd_io_one u t d b : 0 <= b < lh_blocks d -> lh_blocks d < 2 ^ 32 ->
  uio_resid u = 512 -> uio_offset u = b * 512 ->
  lhd_io (U := U) (u, (t, d)) =
  lhd_sector (U := U) b (if bool_decide (uio_rw u = UIO_WRITE)
    then Z.lor LHD_WORKING LHD_ISWRITE else LHD_WORKING) (u, (t, d)).
Proof.
  intros Hb Hn Hr Ho. unfold lhd_io. unfold bind at 1 2, gets. simpl.
  rewrite Hr, Ho. unfold LHD_SECTSIZE. rewrite Z.quot_mul, Z.rem_mul by lia.
  rewrite (u32_small b), (u32_small 0) by lia.
  change (512 / 512) with 1. change (512 mod 512) with 0. rewrite (u32_small (b + 1)) by lia.
  zbool. change (seqZ 0 1) with [0]. simpl. unfold bind.
  rewrite Z.add_0_r, (u32_small b) by lia.
  by destruct (lhd_sector b _ (u, (t, d))) as [[[]| | |] ?].
Qed.

(** A request for no sectors succeeds without touching the card. *)
Lemma lhd_io_none u t d b : 0 <= b <= lh_blocks d -> lh_blocks d < 2 ^ 32 ->
  uio_resid u = 0 -> uio_offset u = b * 512 ->
  lhd_io (U := U) (u, (t, d)) = (Ret tt, (u, (t, d))).
Proof.
  intros Hb Hn Hr Ho. unfold lhd_io. unfold bind at 1 2, gets. simpl.
  rewrite Hr, Ho. unfold LHD_SECTSIZE. rewrite Z.quot_mul, Z.rem_mul by lia.
  rewrite (u32_small b), (u32_small 0) by lia.
  change (0 / 512) with 0. change (0 mod 512) with 0. rewrite (u32_small (b + 0)) by lia.
  by zbool.
Qed.

End lhd.

(** ** The driver as a block device *)

#[export] Program Instance lhd_laws {U W} `{UserMemLaws U} `{LhdCardLaws W} :
    BlockDevLaws U (lhd_softc W) := {
  dev_ok := fun d => idle d /\ media_ok (lh_card d) /\ lh_blocks d < 2 ^ 32;
  dblock := fun d => sector (lh_card d);
}.
Next Obligation.
  intros U W ?? ?? d b ((_ & _ & Hc & Hbl) & _) Hb. simpl in *.
  apply sector_bytes; [done|lia].
Qed.
Next Obligation.
  intros U W ?? ?? u t d b Hok (Hi & Hm & Hn) (Hr & Ho & Hb). simpl in *.
  unfold BLOCKSIZE in *. unfold runs. rewrite (lhd_io_one u t d b) by done.
  destruct (uio_rw u) eqn:Hrw.
  - rewrite bool_decide_eq_false_2 by done.
    pose proof (lhd_read_sector b u t d Hok Hrw ltac:(lia) Hi Hb) as Hrs. unfold runs in Hrs.
    destruct (lhd_sector b LHD_WORKING (u, (t, d))) as [[[]|e| |] [u' [t' d']]]; try done.
    + destruct Hrs as ((Hi' & Hb' & Hm') & Hs & Hmv & Hok' & Hsp).
      split; [split; [done|]; split; [tauto|lia]|]. split; [done|]. split; [done|].
      split; [done|]. split; [done|]. split; [done|]. intros c Hc. by apply Hs.
    + destruct Hrs as ((Hi' & Hb' & Hm') & Hs & [[-> Hf]|(_ & Hnm & _)]); [|done].
      split; [done|]. split; [done|]. split; [split; [done|]; split; [tauto|lia]|].
      split; [done|]. split; [done|]. intros c Hc. by apply Hs.
  - rewrite bool_decide_eq_true_2 by done.
    pose proof (lhd_write_sector b u t d Hok Hrw ltac:(lia) Hi Hb) as Hrs. unfold runs in Hrs.
    destruct (lhd_sector b _ (u, (t, d))) as [[[]|e| |] [u' [t' d']]]; try done.
    + destruct Hrs as ((Hi' & Hb' & Hm') & Hs & Hmv & Hok' & Hsp & _).
      split; [split; [done|]; split; [tauto|lia]|]. split; [done|]. split; [done|].
      split; [done|]. split; [done|]. split; [done|]. intros c Hc. by apply Hs.
    + destruct Hrs as ((Hi' & Hb' & Hm') & Hs & [[-> Hf]|(_ & Hnm & _)]); [|done].
      split; [done|]. split; [done|]. split; [split; [done|]; split; [tauto|lia]|].
      split; [done|]. split; [done|]. intros c Hc. by apply Hs.
Qed.

(** ** A simulated card

    A closed instance: a list of sectors, and how many operations from now the
    card starts reporting media errors. *)
Module SimCard.

Record card := mk_card {
  platter : list (list Z);
  stat : Z;
  sect : Z;
  buffer : list Z;
  life : option nat;       (* None: no media errors *)
}.

Definition get_sector (w : card) (s : Z) : list Z :=
  default (replicate 512 0) (platter w !! Z.to_nat s).

Definition finish (w : card) : card :=
  let iswrite := Z.testbit (stat w) 1 in
  match life w with
  | Some O => mk_card (platter w) (Z.lor LHD_MEDIA (if iswrite then LHD_ISWRITE else 0))
                (sect w) (buffer w) (life w)
  | l =>
      let l' := option_map Nat.pred l in
      if iswrite then
        mk_card (<[Z.to_nat (sect w) := buffer w]> (platter w)) (Z.lor LHD_OK LHD_ISWRITE)
          (sect w) (buffer w) l'
      else mk_card (platter w) LHD_OK (sect w) (get_sector w (sect w)) l'
  end.

#[export] Instance sim_card : LhdCard card := {
  reg_stat := stat;
  set_stat := fun v w => mk_card (platter w) v (sect w) (buffer w) (life w);
  set_sect := fun s w => mk_card (platter w) (stat w) s (buffer w) (life w);
  card_buf := buffer;
  set_buf := fun b w => mk_card (platter w) (stat w) (sect w) b (life w);
  card_finish := finish;
}.

Definition sector_ok (l : list Z) : Prop := length l = 512%nat /\ byte_list l.

Lemma get_sector_ok w s : Forall sector_ok (platter w) -> sector_ok (get_sector w s).
Proof.
  intros Hp. unfold get_sector. destruct (platter w !! Z.to_nat s) as [l|] eqn:E.
  - by eapply Forall_lookup_1 in Hp.
  - split; [done|by apply (byte_list_replicate 512 0)].
Qed.

Lemma get_sector_insert (pl : list (list Z)) st se bu li w b s k :
  platter w = pl -> 0 <= s < Z.of_nat (length pl) -> 0 <= k < Z.of_nat (length pl) ->
  get_sector (mk_card (<[Z.to_nat s := b]> pl) st se bu li) k =
    if k =? s then b else get_sector w k.
Proof.
  intros <- Hs Hk. unfold get_sector; simpl.
  destruct (Z.eqb_spec k s) as [->|]; [by rewrite list_lookup_insert_eq by lia|].
  by rewrite list_lookup_insert_ne by lia.
Qed.

#[export] Program Instance sim_laws : LhdCardLaws card := {
  card_ok := fun w => Forall sector_ok (platter w) /\ sector_ok (buffer w);
  media_ok := fun w => life w = None;
  nsect := fun w => Z.of_nat (length (platter w));
  sector := get_sector;
}.
Next Obligation. intros w s [Hp _] _. by apply get_sector_ok. Qed.
Next Obligation. intros w [_ ?]. done. Qed.
Next Obligation. intros w bs [Hp _] Hl Hb. by split_and!. Qed.
Next Obligation. intros w [Hp Hb]. by split_and!. Qed.
Next Obligation.
  intros w s [Hp Hb] Hs w'. unfold w'. simpl. unfold finish. simpl.
  destruct (life w) as [[|n]|] eqn:Hl; simpl.
  - split; [done|]. split; [done|]. split; [done|]. split; [by right|done].
  - split; [split; [done|by apply get_sector_ok]|]. split; [done|]. split; [done|].
    split; [by left|done].
  - split; [split; [done|by apply get_sector_ok]|]. split; [done|]. split; [done|].
    split; [by left|done].
Qed.
Next Obligation.
  intros w s [Hp Hb] Hs w'. unfold w'. simpl. unfold finish. simpl.
  destruct (life w) as [[|n]|] eqn:Hl; simpl.
  - split; [done|]. split; [done|]. split; [by right|done].
  - split; [split; [by apply Forall_insert|done]|]. split; [by rewrite length_insert|].
    split; [|done]. left. split; [done|]. intros k Hk. by apply get_sector_insert.
  - split; [split; [by apply Forall_insert|done]|]. split; [by rewrite length_insert|].
    split; [|done]. left. split; [done|]. intros k Hk. by apply get_sector_insert.
Qed.

End SimCard.
