(* ===== verification/SfsDisk.v ===== *)
(** The SFS file system, lowest layer: the on-disk structures of
    kern/include/kern/sfs.h and the block I/O of kern/fs/sfs/sfs_io.c.

    Blocks are lists of 512 bytes; the machine is big-endian, and structures are
    stored as they lie in memory.  The theorems: decoding inverts encoding, a
    block written is the block read back, and what the retry loop of
    [sfs_rwblock] does when the disk reports an error. *)

From Stdlib Require Import ZArith Lia.
From stdpp Require Import prelude gmap list.
From S2P Require Import Prelude Pages Copy Uio Device Lhd.
Import Flat SimCard.

#[local] Arguments replicate : simpl never.

(** ** Constants (kern/sfs.h) *)

Definition SFS_MAGIC : Z := 0xabadf001.
Definition SFS_BLOCKSIZE : Z := 512.
Definition SFS_VOLNAME_SIZE : Z := 32.
Definition SFS_NDIRECT : Z := 15.
Definition SFS_DBPERIDB : Z := 128.
Definition SFS_NAMELEN : Z := 60.
Definition SFS_SB_LOCATION : Z := 0.
Definition SFS_ROOT_LOCATION : Z := 1.
Definition SFS_MAP_LOCATION : Z := 2.
Definition SFS_NOINO : Z := 0.
Definition SFS_BLOCKBITS : Z := SFS_BLOCKSIZE * 8.
Definition SFS_ROUNDUP (a b : Z) : Z := u32 (a + b - 1) / b * b.
Definition SFS_BITMAPSIZE (nblocks : Z) : Z := u32 (SFS_ROUNDUP nblocks SFS_BLOCKBITS).
Definition SFS_BITBLOCKS (nblocks : Z) : Z := SFS_BITMAPSIZE nblocks / SFS_BLOCKBITS.
Definition SFS_TYPE_INVAL : Z := 0.
Definition SFS_TYPE_FILE : Z := 1.
Definition SFS_TYPE_DIR : Z := 2.

(** ** Words in memory *)

Definition u32_bytes (w : Z) : list Z :=
  [w / 2 ^ 24; w / 2 ^ 16 mod 256; w / 2 ^ 8 mod 256; w mod 256].

Fixpoint words_of (bs : list Z) : list Z :=
  match bs with
  | a :: b :: c :: d :: bs => ((a * 256 + b) * 256 + c) * 256 + d :: words_of bs
  | _ => []
  end.

Definition bytes_of (ws : list Z) : list Z := ws ≫= u32_bytes.

(** ** On-disk structures *)

Record sfs_super := mk_super {
  sp_magic : Z;
  sp_nblocks : Z;
  sp_volname : list Z;
  sp_reserved : list Z;
}.

Record sfs_inode := mk_inode {
  sfi_size : Z;
  sfi_type : Z;
  sfi_linkcount : Z;
  sfi_direct : list Z;
  sfi_indirect : Z;
  sfi_waste : list Z;
}.

Record sfs_dir := mk_dir {
  sfd_ino : Z;
  sfd_name : list Z;       (* SFS_NAMELEN bytes *)
}.

(** The structures as bytes, and back. *)
Definition encode_super (s : sfs_super) : list Z :=
  bytes_of [sp_magic s; sp_nblocks s] ++ sp_volname s ++ bytes_of (sp_reserved s).

Definition decode_super (bs : list Z) : sfs_super :=
  mk_super (nth 0 (words_of bs) 0) (nth 1 (words_of bs) 0) (slice 8 SFS_VOLNAME_SIZE bs)
    (words_of (drop 40 bs)).

Definition encode_inode (i : sfs_inode) : list Z :=
  bytes_of (sfi_size i :: sfi_type i * 2 ^ 16 + sfi_linkcount i ::
            sfi_direct i ++ sfi_indirect i :: sfi_waste i).

Definition decode_inode (bs : list Z) : sfs_inode :=
  let ws := words_of bs in
  mk_inode (nth 0 ws 0) (nth 1 ws 0 / 2 ^ 16) (nth 1 ws 0 mod 2 ^ 16)
    (take (Z.to_nat SFS_NDIRECT) (drop 2 ws)) (nth 17 ws 0) (drop 18 ws).

Definition sizeof_sfs_dir : Z := 4 + SFS_NAMELEN.

Definition encode_dir (sd : sfs_dir) : list Z := u32_bytes (sfd_ino sd) ++ sfd_name sd.

Definition decode_dir (bs : list Z) : sfs_dir := mk_dir (nth 0 (words_of bs) 0) (drop 4 bs).

(** ** Block I/O (sfs_io.c) *)

Section sfs_io_ops.
Context {U D : Type} `{!BlockDev U D}.

(** The retry loop; [retries] counts the retries left. *)
Fixpoint rw_retry (retries : nat) : M (uio * (uthread U * D)) unit :=
  r <- result_of d_io ;;
  if r =? EINVAL then panic
  else if r =? EIO then
    match retries with
    | O => fail r
    | S retries => rw_retry retries
    end
  else if r =? 0 then ret tt else fail r.

Definition sfs_rwblock : M (uio * (uthread U * D)) unit := rw_retry 10.

(** Running [m] with a local [struct uio]; the uio afterwards is returned. *)
Definition with_uio {S} (u : uio) (m : M (uio * S) unit) : M S uio := fun s =>
  match m (u, s) with
  | (Ret _, (u', s')) => (Ret u', s')
  | (Err e, (_, s')) => (Err e, s')
  | (Panic, (_, s')) => (Panic, s')
  | (Spin, (_, s')) => (Spin, s')
  end.

(** [SFSUIO(uio, ptr, block, rw)] *)
Definition SFSUIO (buf : list Z) (block : Z) (rw : uio_rw_t) : uio :=
  mk_kuio buf SFS_BLOCKSIZE (i32 (i32 block * SFS_BLOCKSIZE)) rw.

(** Read block [block] into a buffer of one block, returned. *)
Definition sfs_rblock (block : Z) : M (uthread U * D) (list Z) :=
  ku <- with_uio (SFSUIO (replicate (Z.to_nat SFS_BLOCKSIZE) 0) block UIO_READ) sfs_rwblock ;;
  ret (kbuf ku).

Definition sfs_wblock (data : list Z) (block : Z) : M (uthread U * D) unit :=
  with_uio (SFSUIO data block UIO_WRITE) sfs_rwblock ;;;
  ret tt.

End sfs_io_ops.

(** ** Encoding lemmas *)

Definition word32 (w : Z) : Prop := 0 <= w < 2 ^ 32.

Lemma u32_bytes_range w : word32 w -> byte_list (u32_bytes w).
Proof.
  unfold word32. intros Hw. unfold u32_bytes, byte_list. repeat constructor;
    try apply Z.mod_pos_bound; try done; [apply Z.div_pos; lia|apply Z.div_lt_upper_bound; lia].
Qed.

Lemma u32_bytes_be w :
  ((w / 2 ^ 24 * 256 + w / 2 ^ 16 mod 256) * 256 + w / 2 ^ 8 mod 256) * 256 + w mod 256 = w.
Proof.
  change (2 ^ 24) with (256 * 256 * 256). change (2 ^ 16) with (256 * 256).
  change (2 ^ 8) with 256. rewrite <- !Z.div_div by lia.
  pose proof (Z.div_mod w 256). pose proof (Z.div_mod (w / 256) 256).
  pose proof (Z.div_mod (w / 256 / 256) 256). lia.
Qed.

Lemma words_of_bytes_of ws : words_of (bytes_of ws) = ws.
Proof.
  induction ws as [|w ws IH]; [done|]. cbn [bytes_of mbind list_bind]. simpl.
  rewrite u32_bytes_be. f_equal. apply IH.
Qed.

Lemma bytes_of_words_of bs n : length bs = (4 * n)%nat -> byte_list bs ->
  bytes_of (words_of bs) = bs.
Proof.
  revert bs. induction n as [|n IH]; intros bs Hl Hb.
  { by destruct bs. }
  destruct bs as [|a [|b [|c [|d bs]]]]; simpl in Hl; try lia.
  unfold byte_list in Hb. rewrite !Forall_cons in Hb. destruct Hb as (? & ? & ? & ? & Hb).
  cbn [words_of bytes_of mbind list_bind]. change (words_of bs ≫= u32_bytes) with (bytes_of (words_of bs)).
  rewrite IH by (done || lia). unfold u32_bytes. simpl.
  set (w := ((a * 256 + b) * 256 + c) * 256 + d).
  assert (w / 2 ^ 8 = (a * 256 + b) * 256 + c) as H8.
  { symmetry. apply (Z.div_unique _ _ _ d); unfold w; lia. }
  assert (w / 2 ^ 16 = a * 256 + b) as H16.
  { change (2 ^ 16) with (2 ^ 8 * 256). rewrite <- Z.div_div, H8 by lia.
    symmetry. apply (Z.div_unique _ _ _ c); lia. }
  assert (w / 2 ^ 24 = a) as H24.
  { change (2 ^ 24) with (2 ^ 16 * 256). rewrite <- Z.div_div, H16 by lia.
    symmetry. apply (Z.div_unique _ _ _ b); lia. }
  rewrite H8, H16, H24. repeat f_equal; symmetry.
  - apply (Z.mod_unique _ _ a); lia.
  - apply (Z.mod_unique _ _ (a * 256 + b)); lia.
  - apply (Z.mod_unique _ _ ((a * 256 + b) * 256 + c)); unfold w; lia.
Qed.

Lemma length_bytes_of ws : length (bytes_of ws) = (4 * length ws)%nat.
Proof.
  induction ws as [|w ws IH]; [done|]. cbn [bytes_of mbind list_bind].
  rewrite length_app. change (ws ≫= u32_bytes) with (bytes_of ws). rewrite IH. simpl. lia.
Qed.

Lemma length_words_of n : forall bs, length bs = (4 * n)%nat -> length (words_of bs) = n.
Proof.
  induction n as [|n IH]; intros bs Hl; [by destruct bs|].
  destruct bs as [|a [|b [|c [|d bs]]]]; simpl in Hl; try lia.
  simpl. f_equal. apply IH. lia.
Qed.

Lemma bytes_of_range ws : Forall word32 ws -> byte_list (bytes_of ws).
Proof.
  induction 1 as [|w ws Hw _ IH]; [constructor|]. cbn [bytes_of mbind list_bind].
  apply Forall_app. split; [by apply u32_bytes_range|done].
Qed.

Lemma words_of_range n : forall bs, length bs = (4 * n)%nat -> byte_list bs ->
  Forall word32 (words_of bs).
Proof.
  induction n as [|n IH]; intros bs Hl Hb; [by destruct bs|].
  destruct bs as [|a [|b [|c [|d bs]]]]; simpl in Hl; try lia.
  unfold byte_list in Hb. rewrite !Forall_cons in Hb. destruct Hb as (? & ? & ? & ? & Hb).
  simpl. constructor; [unfold word32; lia|]. apply IH; [lia|done].
Qed.

(** An inode whose fields have their declared widths. *)
Record inode_shape (i : sfs_inode) : Prop := {
  ish_size : word32 (sfi_size i);
  ish_type : 0 <= sfi_type i < 2 ^ 16;
  ish_linkcount : 0 <= sfi_linkcount i < 2 ^ 16;
  ish_direct : length (sfi_direct i) = 15%nat /\ Forall word32 (sfi_direct i);
  ish_indirect : word32 (sfi_indirect i);
  ish_waste : length (sfi_waste i) = 110%nat /\ Forall word32 (sfi_waste i);
}.

Lemma decode_encode_inode i : inode_shape i -> decode_inode (encode_inode i) = i.
Proof.
  intros [Hs Ht Hl [Hd Hdw] Hi [Hw Hww]]. unfold decode_inode, encode_inode.
  rewrite words_of_bytes_of. cbn [nth skipn].
  rewrite Z.div_add_l, (Z.div_small (sfi_linkcount i)), Z.add_0_r by lia.
  rewrite Z.add_comm, Z.mod_add, Z.mod_small by lia.
  rewrite drop_0, take_app_le by (rewrite Hd; done).
  rewrite (take_ge (sfi_direct i)) by (rewrite Hd; done).
  rewrite nth_lookup, lookup_app_r, drop_app_ge, Hd by lia. by destruct i.
Qed.

Lemma length_encode_inode i : inode_shape i -> length (encode_inode i) = 512%nat.
Proof.
  intros [_ _ _ [Hd _] _ [Hw _]]. unfold encode_inode. rewrite length_bytes_of. simpl.
  rewrite length_app. simpl. lia.
Qed.

Lemma encode_inode_range i : inode_shape i -> byte_list (encode_inode i).
Proof.
  intros []. apply bytes_of_range. constructor; [done|]. constructor; [unfold word32; lia|].
  apply Forall_app. split; [tauto|]. constructor; [done|tauto].
Qed.

Lemma encode_decode_inode bs : length bs = 512%nat -> byte_list bs ->
  inode_shape (decode_inode bs) /\ encode_inode (decode_inode bs) = bs.
Proof.
  intros Hl Hb. pose proof (length_words_of 128 bs Hl) as Hw.
  pose proof (words_of_range 128 bs Hl Hb) as Hr.
  unfold encode_inode, decode_inode. set (ws := words_of bs) in *. cbn [sfi_size sfi_type
    sfi_linkcount sfi_direct sfi_indirect sfi_waste].
  assert (forall k, (k < 128)%nat -> word32 (nth k ws 0)) as Hn.
  { intros k Hk. rewrite Forall_lookup in Hr. rewrite nth_lookup.
    destruct (ws !! k) as [w|] eqn:E; [|done]. by apply (Hr k). }
  pose proof (Hn 1%nat ltac:(lia)) as H1. unfold word32 in H1.
  split.
  - split; simpl.
    + apply Hn; lia.
    + split; [apply Z.div_pos; lia|apply Z.div_lt_upper_bound; lia].
    + apply Z.mod_pos_bound. lia.
    + split; [rewrite length_take, length_drop, Hw; done|by apply Forall_take, Forall_drop].
    + apply Hn; lia.
    + split; [rewrite length_drop, Hw; done|by apply Forall_drop].
  - rewrite (Z.mul_comm (_ / _)), <- Z.div_mod by lia.
    replace (nth 0 ws 0 :: nth 1 ws 0 :: take (Z.to_nat SFS_NDIRECT) (drop 2 ws) ++
             nth 17 ws 0 :: drop 18 ws) with ws.
    { by apply (bytes_of_words_of _ 128). }
    destruct ws as [|w0 [|w1 ws]]; simpl in Hw; try lia. simpl. do 2 f_equal.
    rewrite <- (take_drop 15 ws) at 1. f_equal.
    assert (exists w, ws !! 15%nat = Some w) as [w Hw15] by (apply lookup_lt_is_Some_2; lia).
    rewrite (drop_S _ _ _ Hw15). by rewrite nth_lookup, Hw15.
Qed.

(** The same for directory entries. *)
Definition dir_shape (sd : sfs_dir) : Prop :=
  word32 (sfd_ino sd) /\ length (sfd_name sd) = 60%nat /\ byte_list (sfd_name sd).

Lemma decode_encode_dir sd : decode_dir (encode_dir sd) = sd.
Proof.
  unfold decode_dir, encode_dir, u32_bytes. simpl. rewrite u32_bytes_be. by destruct sd.
Qed.

Lemma encode_dir_shape sd : dir_shape sd ->
  length (encode_dir sd) = 64%nat /\ byte_list (encode_dir sd).
Proof.
  intros (Hi & Hl & Hb). unfold encode_dir. rewrite length_app, Hl. split; [done|].
  apply Forall_app. split; [by apply u32_bytes_range|done].
Qed.

Lemma decode_dir_shape bs : length bs = 64%nat -> byte_list bs -> dir_shape (decode_dir bs).
Proof.
  intros Hl Hb. unfold dir_shape, decode_dir. cbn [sfd_ino sfd_name].
  rewrite length_drop, Hl. split; [|split; [done|by apply Forall_drop]].
  pose proof (words_of_range 16 bs Hl Hb) as Hr. pose proof (length_words_of 16 bs Hl).
  destruct (words_of bs); [done|]. by apply Forall_cons in Hr as [? _].
Qed.

Lemma encode_decode_dir bs : length bs = 64%nat -> byte_list bs -> encode_dir (decode_dir bs) = bs.
Proof.
  intros Hl Hb. unfold encode_dir, decode_dir. cbn [sfd_ino sfd_name].
  destruct bs as [|a [|b [|c [|d bs]]]]; simpl in Hl; try lia.
  unfold byte_list in Hb. rewrite !Forall_cons in Hb.
  assert (bytes_of (words_of [a; b; c; d]) = [a; b; c; d]) as He.
  { apply (bytes_of_words_of _ 1); [done|]. destruct Hb as (? & ? & ? & ? & _). do 4 (apply Forall_cons; split; [done|]). constructor. }
  unfold bytes_of in He. simpl in He. simpl. by injection He as -> -> -> ->.
Qed.

(** ... and for the superblock. *)
Definition super_shape (s : sfs_super) : Prop :=
  word32 (sp_magic s) /\ word32 (sp_nblocks s) /\
  length (sp_volname s) = 32%nat /\ byte_list (sp_volname s) /\
  length (sp_reserved s) = 118%nat /\ Forall word32 (sp_reserved s).

Lemma decode_encode_super s : super_shape s -> decode_super (encode_super s) = s.
Proof.
  intros (Hm & Hn & Hv & _ & Hr & _). unfold decode_super, encode_super.
  assert (words_of (bytes_of [sp_magic s; sp_nblocks s] ++ sp_volname s ++ bytes_of (sp_reserved s))
    = sp_magic s :: sp_nblocks s :: words_of (sp_volname s ++ bytes_of (sp_reserved s))) as ->.
  { unfold bytes_of at 1. simpl. by rewrite !u32_bytes_be. }
  cbn [nth]. unfold slice.
  rewrite (drop_app_ge _ _ (Z.to_nat 8)), (drop_app_ge _ _ 40)
    by (rewrite length_bytes_of; simpl; lia).
  rewrite length_bytes_of. change (Z.to_nat 8 - 4 * length [sp_magic s; sp_nblocks s])%nat with 0%nat.
  change (40 - 4 * length [sp_magic s; sp_nblocks s])%nat with 32%nat.
  rewrite drop_0, (drop_app_ge (sp_volname s)) by (rewrite Hv; lia).
  rewrite Hv. change (32 - 32)%nat with 0%nat. rewrite drop_0.
  rewrite words_of_bytes_of, take_app_le by (rewrite Hv; done).
  rewrite take_ge by (rewrite Hv; done). by destruct s.
Qed.

Lemma encode_super_shape s : super_shape s ->
  length (encode_super s) = 512%nat /\ byte_list (encode_super s).
Proof.
  intros (Hm & Hn & Hv & Hvb & Hr & Hrw). unfold encode_super.
  rewrite !length_app, !length_bytes_of, Hv, Hr. split; [done|].
  apply Forall_app. split.
  { apply bytes_of_range. do 2 (apply Forall_cons; split; [done|]). constructor. }
  apply Forall_app. split; [done|by apply bytes_of_range].
Qed.

(** ** Block I/O on a device in good order *)

Section sfs_io.
Context {U D : Type} `{BlockDevLaws U D}.
Implicit Types (d : D) (t : uthread U).

(** [d'] is the device [d] with the contents of its blocks given by [f]. *)
Definition dev_now (f : Z -> list Z) d d' : Prop :=
  dev_ok d' /\ d_blocks d' = d_blocks d /\ d_blocksize d' = d_blocksize d /\
  forall c, 0 <= c < d_blocks d -> dblock d' c = f c.

(** Block numbers that can be addressed: on the device, and with a byte offset
    that fits [off_t]. *)
Definition addressable d (b : Z) : Prop := 0 <= b < d_blocks d /\ b < 2 ^ 22 - 1.

Lemma sfs_rwblock_runs u t d b : uio_ok (u, t) -> dev_ok d -> block_request d_blocks u d b ->
  runs (sfs_rwblock (U := U) (D := D)) (u, (t, d))
    (fun _ '(u', (t', d')) => moved BLOCKSIZE (u, t) (u', t') /\ uio_ok (u', t') /\
       match uio_rw u with
       | UIO_READ => space_put (dblock d b) (u, t) (u', t') /\ dev_now (dblock d) d d'
       | UIO_WRITE => space_same (u, t) (u', t') /\
           dev_now (fun c => if c =? b then region (u, t) BLOCKSIZE else dblock d c) d d'
       end)
    (fun e '(u', (t', d')) => e = EFAULT /\ faulted BLOCKSIZE (u, t) (u', t') /\
       dev_now (dblock d) d d').
Proof.
  intros Hok Hd Hb. unfold sfs_rwblock. change 10%nat with (S 9) at 1. cbn [rw_retry].
  apply runs_bind, runs_result_of.
  eapply runs_mono; [by apply d_io_spec|..].
  - intros [] [u' [t' d']] (? & ? & ? & ? & ? & Hrw).
    change (0 =? EINVAL) with false. change (0 =? EIO) with false. zbool. apply runs_ret.
    split; [done|]. split; [done|]. destruct (uio_rw u); destruct Hrw as [? ?]; by split.
  - intros e [u' [t' d']] (-> & ? & ? & ? & ? & ?).
    change (EFAULT =? EINVAL) with false. change (EFAULT =? EIO) with false.
    change (EFAULT =? 0) with false. apply runs_fail. by split.
Qed.

Lemma sfsuio_request d b buf rw : addressable d b ->
  block_request d_blocks (SFSUIO buf b rw) d b.
Proof.
  intros [Hb Hb']. unfold block_request, SFSUIO, mk_kuio, SFS_BLOCKSIZE, BLOCKSIZE. simpl.
  by rewrite !i32_small by (rewrite ?i32_small; lia).
Qed.

Lemma sfsuio_ok t d b buf rw : addressable d b -> umem_ok (umem t) -> badfault t = false ->
  length buf = 512%nat -> byte_list buf -> uio_ok (SFSUIO buf b rw, t).
Proof.
  intros Hb Ht Hbf Hl Hbl. destruct (sfsuio_request d b buf rw Hb) as (_ & Ho & _).
  assert (SFSUIO buf b rw = mk_kuio buf (Z.of_nat (length buf)) (b * 512) rw) as ->.
  { unfold SFSUIO, mk_kuio, BLOCKSIZE in *. simpl in *. rewrite Hl. by f_equal. }
  destruct Hb. apply mk_kuio_ok; try done; lia.
Qed.

Lemma sfs_rblock_runs t d b : umem_ok (umem t) -> badfault t = false -> dev_ok d ->
  addressable d b ->
  runs (sfs_rblock (U := U) b) (t, d)
    (fun bs '(t', d') => bs = dblock d b /\ t' = t /\ dev_now (dblock d) d d')
    (fun _ _ => False).
Proof.
  intros Ht Hbf Hd Hb. unfold sfs_rblock, with_uio. apply runs_bind.
  set (u := SFSUIO _ b UIO_READ).
  assert (uio_ok (u, t)) as Hok.
  { apply (sfsuio_ok _ d); try done. by apply byte_list_replicate. }
  pose proof (sfs_rwblock_runs u t d b Hok Hd (sfsuio_request _ _ _ _ Hb)) as Hr.
  unfold runs in *. destruct (sfs_rwblock (u, (t, d))) as [[[]|e| |] [u' [t' d']]]; try done.
  - destruct Hr as (Hm & Hok' & Hsp & Hdev). simpl.
    assert (t' = t) by (by apply (mv_thread _ _ _ Hm)). split; [|done].
    destruct (dblock_len d b Hd (proj1 Hb)) as [Hl _].
    apply (list_eq_nth _ _ 512); [exact (mv_kbuf _ _ _ Hm)|done|].
    intros i Hi. specialize (Hsp i). unfold space in Hsp.
    rewrite (mv_seg _ _ _ Hm), Hl in Hsp. simpl in Hsp. zbool_in Hsp.
    by rewrite Z.sub_0_r in Hsp.
  - destruct Hr as (_ & [Hu _ _ _ _] & _). done.
Qed.

Lemma sfs_wblock_runs t d b data : umem_ok (umem t) -> badfault t = false -> dev_ok d ->
  addressable d b -> length data = 512%nat -> byte_list data ->
  runs (sfs_wblock (U := U) data b) (t, d)
    (fun _ '(t', d') => t' = t /\ dev_now (fun c => if c =? b then data else dblock d c) d d')
    (fun _ _ => False).
Proof.
  intros Ht Hbf Hd Hb Hl Hbl. unfold sfs_wblock, with_uio. apply runs_bind.
  set (u := SFSUIO data b UIO_WRITE).
  assert (uio_ok (u, t)) as Hok by (by apply (sfsuio_ok _ d)).
  pose proof (sfs_rwblock_runs u t d b Hok Hd (sfsuio_request _ _ _ _ Hb)) as Hr.
  unfold runs in *. destruct (sfs_rwblock (u, (t, d))) as [[[]|e| |] [u' [t' d']]]; try done.
  - destruct Hr as (Hm & Hok' & Hsp & Hdev). simpl. split; [by apply (mv_thread _ _ _ Hm)|].
    replace data with (region (u, t) BLOCKSIZE); [done|].
    apply (list_eq_nth _ _ 512); [by rewrite length_region|done|].
    intros i Hi. rewrite nth_region by (unfold BLOCKSIZE; lia). unfold space. simpl. by zbool.
  - destruct Hr as (_ & [Hu _ _ _ _] & _). done.
Qed.

End sfs_io.

(** ** Properties *)

Section sfs_disk_properties.
Context {U D : Type} `{BlockDevLaws U D}.

(** An inode written to its block is the inode read back, and the block's
    neighbours are untouched: on a device in good order, [sfs_wblock] of an inode
    followed by [sfs_rblock] of the same block succeeds and decodes to it. *)
Theorem sfs_inode_roundtrip (t : uthread U) (d : D) b i :
  umem_ok (umem t) -> badfault t = false -> dev_ok d -> addressable d b -> inode_shape i ->
  runs (sfs_wblock (encode_inode i) b ;;; sfs_rblock b) (t, d)
    (fun bs '(t', d') => decode_inode bs = i /\ t' = t /\
       forall c, 0 <= c < d_blocks d -> c <> b -> dblock d' c = dblock d c)
    (fun _ _ => False).
Proof.
  intros Ht Hbf Hd Hb Hi. apply runs_bind.
  eapply runs_mono; [apply sfs_wblock_runs;
    auto using length_encode_inode, encode_inode_range| |done].
  intros [] [t1 d1] (-> & Hd1 & Hn1 & Hz1 & Hb1).
  assert (addressable d1 b) as Ha by (destruct Hb; unfold addressable; rewrite Hn1; done).
  eapply runs_mono; [by apply sfs_rblock_runs| |done].
  intros bs [t2 d2] (-> & -> & Hd2 & Hn2 & Hz2 & Hb2). destruct Hb as [Hb Hb'].
  split; [|split; [done|]].
  - rewrite Hb1, Z.eqb_refl by done. by apply decode_encode_inode.
  - intros c Hc Hne. rewrite Hb2, Hb1 by lia. by zbool.
Qed.

End sfs_disk_properties.

(** C38: the retry of [sfs_rwblock] hides write errors of the LAMEbus disk.  When
    the card answers a write with a media error, [lhd_io] returns EIO with the
    uio already used up; the retry then asks for no data at all, which succeeds.
    [sfs_wblock] reports success and the sector keeps its old contents. *)
Theorem sfs_wblock_hides_media_error {U W} `{UserMemLaws U} `{LhdCardLaws W}
    (t : uthread U) (d : lhd_softc W) b data :
  umem_ok (umem t) -> badfault t = false -> idle d -> lh_blocks d < 2 ^ 32 ->
  addressable (U := U) d b -> length data = 512%nat -> byte_list data ->
  Z.land (write_status b data (lh_card d)) LHD_STATEMASK = LHD_MEDIA ->
  runs (sfs_wblock data b) (t, d) (fun _ '(_, d') => same_sectors d d') (fun _ _ => False).
Proof.
  intros Ht Hbf Hi Hn Hb Hl Hbl Hst. unfold sfs_wblock, with_uio. apply runs_bind.
  set (u := SFSUIO data b UIO_WRITE).
  assert (uio_ok (u, t)) as Hok by (by apply (sfsuio_ok _ d)).
  destruct (sfsuio_request d b data UIO_WRITE Hb) as (Hr & Ho & Hb'). fold u in Hr, Ho.
  change BLOCKSIZE with 512 in *. change (d_blocks d) with (lh_blocks d) in Hb'.
  assert (region (u, t) 512 = data) as Hreg.
  { apply (list_eq_nth _ _ 512); [by rewrite length_region|done|].
    intros i Hi'. rewrite nth_region by lia. unfold space. simpl. by zbool. }
  pose proof (lhd_write_sector b u t d Hok eq_refl ltac:(lia) Hi Hb') as Hs. rewrite Hreg in Hs.
  pose proof (lhd_io_one u t d b Hb' Hn Hr Ho) as Hio.
  rewrite bool_decide_eq_true_2 in Hio by done.
  apply runs_elim in Hs as [([] & [u1 [t1 d1]] & _ & _ & _ & _ & _ & _ & Hst')|
    (e & [u1 [t1 d1]] & Heq & (_ & Hb1 & _) & Hsec & [[_ Hf]|(-> & _ & Hmv & _)])].
  { by rewrite Hst in Hst'. }
  { pose proof (fl_user _ _ _ Hf). done. }
  rewrite Heq in Hio.
  assert (lhd_io (U := U) (u1, (t1, d1)) = (Ret tt, (u1, (t1, d1)))) as Hio2.
  { apply (lhd_io_none _ _ _ (b + 1)); [lia|lia|..].
    - pose proof (mv_resid _ _ _ Hmv) as Hx. cbn [fst] in Hx. lia.
    - pose proof (mv_offset _ _ _ Hmv) as Hx. cbn [fst] in Hx. lia. }
  unfold runs, sfs_rwblock. change 10%nat with (S (S 8)). cbn [rw_retry]. unfold bind, result_of.
  change (d_io (u, (t, d))) with (lhd_io (U := U) (u, (t, d))). rewrite Hio.
  change (EIO =? EINVAL) with false. change (EIO =? EIO) with true.
  cbn iota beta. cbn [rw_retry]. unfold bind, result_of.
  change (d_io (u1, (t1, d1))) with (lhd_io (U := U) (u1, (t1, d1))). rewrite Hio2.
  exact Hsec.
Qed.

(** A disk of [n] zeroed sectors whose card fails after [life] operations. *)
Definition blank_disk (n : nat) (life : option nat) : lhd_softc card :=
  mk_softc 0 1 0 (Z.of_nat n)
    (mk_card (replicate n (replicate 512 0)) 0 0 (replicate 512 0) life).

Definition idle_thread : uthread flat := mk_uthread 0 false (mk_flat ∅).

Lemma idle_thread_ok : umem_ok (umem idle_thread).
Proof. apply map_Forall_empty. Qed.

Lemma blank_disk_idle n life : idle (blank_disk n life).
Proof.
  assert (sector_ok (replicate 512 0)) as Hs.
  { split; [done|]. by apply byte_list_replicate. }
  split; [done|]. split; [done|]. split; [split; [by apply Forall_replicate|done]|].
  simpl. by rewrite length_replicate.
Qed.

Definition sample_inode : sfs_inode :=
  mk_inode 700 SFS_TYPE_FILE 1 (9 :: 11 :: replicate 13 0) 0 (replicate 110 0).

Lemma sample_inode_shape : inode_shape sample_inode.
Proof.
  split; simpl; try (unfold word32, SFS_TYPE_FILE; lia).
  - split; [done|]. do 2 (apply Forall_cons; split; [unfold word32; lia|]).
    by apply Forall_replicate.
  - split; [done|]. by apply Forall_replicate.
Qed.

Lemma sfs_inode_roundtrip_witness :
  runs (sfs_wblock (encode_inode sample_inode) 5 ;;; sfs_rblock 5) (idle_thread, blank_disk 8 None)
    (fun bs _ => decode_inode bs = sample_inode) (fun _ _ => False).
Proof.
  eapply runs_mono; [apply (sfs_inode_roundtrip idle_thread (blank_disk 8 None) 5 sample_inode)|..].
  - exact idle_thread_ok.
  - done.
  - split; [apply blank_disk_idle|]. split; [done|]. simpl. lia.
  - split; simpl; lia.
  - exact sample_inode_shape.
  - by intros bs [t' d'] (-> & _).
  - done.
Defined.

Lemma sfs_wblock_hides_media_error_witness :
  runs (sfs_wblock (replicate 512 7) 5) (idle_thread, blank_disk 8 (Some 0%nat))
    (fun _ '(_, d') => sector (lh_card d') 5 = replicate 512 0) (fun _ _ => False).
Proof.
  eapply runs_mono; [apply (sfs_wblock_hides_media_error idle_thread
    (blank_disk 8 (Some 0%nat)) 5 (replicate 512 7))|..].
  - exact idle_thread_ok.
  - done.
  - apply blank_disk_idle.
  - simpl. lia.
  - split; simpl; lia.
  - done.
  - by apply byte_list_replicate.
  - reflexivity.
  - intros [] [t' d'] Hs. rewrite Hs by (simpl; lia). reflexivity.
  - done.
Defined.
