(* ===== verification/SfsFile.v ===== *)
(** The SFS file system, files: block allocation, the block map of an inode,
    reading, writing and truncating (kern/fs/sfs/sfs_vnode.c, first half).

    [sfs] is the state of one mounted file system: [struct sfs_fs] with its
    vnodes, the device, the kernel heap and the current thread.  A vnode is
    named by the address of its [struct sfs_vnode].  Operations on a [struct
    uio] run on the uio and the file system together.

    The abstract view of a file is a function from byte positions to bytes,
    [file_byte]; the invariant [fs_rep] says, with a ghost map from blocks to
    owners, that no block is used twice.  The proofs about it are in SfsRep.v
    and SfsIo.v. *)

From Stdlib Require Import ZArith Lia.
From stdpp Require Import prelude gmap list.
From S2P Require Import Prelude Heap Array Bitmap SynchObj Vnode Pages Copy Uio Device SfsDisk.

(** ** The state *)

(** The two function tables. *)
Inductive sfs_ops := sfs_fileops | sfs_dirops.

#[export] Instance sfs_ops_dec : EqDecision sfs_ops.
Proof. solve_decision. Defined.

Record sfs_vnode := mk_sv {
  sv_v : vnode sfs_ops;
  sv_i : sfs_inode;
  sv_ino : Z;
  sv_dirty : bool;
}.

Record sfs (U D H : Type) := mk_sfs {
  s_thread : uthread U;
  s_dev : D;
  s_heap : H;
  s_self : Z;              (* address of the struct sfs_fs *)
  s_super : sfs_super;
  s_superdirty : bool;
  s_freemap : bitmap;
  s_freemapdirty : bool;
  s_vnodes : array Z;      (* addresses of the loaded vnodes *)
  s_svs : gmap Z sfs_vnode;
}.
Arguments mk_sfs {U D H}.
Arguments s_thread {U D H}.
Arguments s_dev {U D H}.
Arguments s_heap {U D H}.
Arguments s_self {U D H}.
Arguments s_super {U D H}.
Arguments s_superdirty {U D H}.
Arguments s_freemap {U D H}.
Arguments s_freemapdirty {U D H}.
Arguments s_vnodes {U D H}.
Arguments s_svs {U D H}.

Section updates.
Context {U D H : Type}.
Implicit Types (s : sfs U D H).

Definition with_io (p : uthread U * D) s : sfs U D H :=
  mk_sfs p.1 p.2 (s_heap s) (s_self s) (s_super s) (s_superdirty s) (s_freemap s)
    (s_freemapdirty s) (s_vnodes s) (s_svs s).
Definition with_freemap (b : bitmap) s : sfs U D H :=
  mk_sfs (s_thread s) (s_dev s) (s_heap s) (s_self s) (s_super s) (s_superdirty s) b
    (s_freemapdirty s) (s_vnodes s) (s_svs s).
Definition with_freemapdirty (b : bool) s : sfs U D H :=
  mk_sfs (s_thread s) (s_dev s) (s_heap s) (s_self s) (s_super s) (s_superdirty s) (s_freemap s)
    b (s_vnodes s) (s_svs s).
Definition with_superdirty (b : bool) s : sfs U D H :=
  mk_sfs (s_thread s) (s_dev s) (s_heap s) (s_self s) (s_super s) b (s_freemap s)
    (s_freemapdirty s) (s_vnodes s) (s_svs s).
Definition with_svs (m : gmap Z sfs_vnode) s : sfs U D H :=
  mk_sfs (s_thread s) (s_dev s) (s_heap s) (s_self s) (s_super s) (s_superdirty s) (s_freemap s)
    (s_freemapdirty s) (s_vnodes s) m.
Definition with_vnodes (p : array Z * H) s : sfs U D H :=
  mk_sfs (s_thread s) (s_dev s) p.2 (s_self s) (s_super s) (s_superdirty s) (s_freemap s)
    (s_freemapdirty s) p.1 (s_svs s).
Definition with_heap (h : H) s : sfs U D H :=
  mk_sfs (s_thread s) (s_dev s) h (s_self s) (s_super s) (s_superdirty s) (s_freemap s)
    (s_freemapdirty s) (s_vnodes s) (s_svs s).

End updates.

Definition set_inode (i : sfs_inode) (sv : sfs_vnode) : sfs_vnode :=
  mk_sv (sv_v sv) i (sv_ino sv) (sv_dirty sv).
Definition set_dirty (b : bool) (sv : sfs_vnode) : sfs_vnode :=
  mk_sv (sv_v sv) (sv_i sv) (sv_ino sv) b.
Definition set_direct (k : Z) (b : Z) (i : sfs_inode) : sfs_inode :=
  mk_inode (sfi_size i) (sfi_type i) (sfi_linkcount i) (<[Z.to_nat k := b]> (sfi_direct i))
    (sfi_indirect i) (sfi_waste i).
Definition set_indirect (b : Z) (i : sfs_inode) : sfs_inode :=
  mk_inode (sfi_size i) (sfi_type i) (sfi_linkcount i) (sfi_direct i) b (sfi_waste i).
Definition set_size (n : Z) (i : sfs_inode) : sfs_inode :=
  mk_inode n (sfi_type i) (sfi_linkcount i) (sfi_direct i) (sfi_indirect i) (sfi_waste i).
Definition set_linkcount (n : Z) (i : sfs_inode) : sfs_inode :=
  mk_inode (sfi_size i) (sfi_type i) n (sfi_direct i) (sfi_indirect i) (sfi_waste i).
Definition set_type (n : Z) (i : sfs_inode) : sfs_inode :=
  mk_inode (sfi_size i) n (sfi_linkcount i) (sfi_direct i) (sfi_indirect i) (sfi_waste i).

(** ** Operations *)

Section file_ops.
Context {U D H : Type} `{!UserMem U} `{!BlockDev U D}.

(** Running on parts of the state. *)
Definition on_disk {A} (m : M (uthread U * D) A) : M (sfs U D H) A :=
  zoom (fun s => (s_thread s, s_dev s)) with_io m.
Definition on_freemap {A} (m : M bitmap A) : M (sfs U D H) A :=
  zoom s_freemap with_freemap m.

(** The fields of the vnode at [p]; a pointer to no vnode is a fault. *)
Definition sv_get (p : Z) : M (sfs U D H) sfs_vnode := fun s =>
  match s_svs s !! p with Some sv => (Ret sv, s) | None => (Panic, s) end.
Definition sv_modify (p : Z) (f : sfs_vnode -> sfs_vnode) : M (sfs U D H) unit := fun s =>
  match s_svs s !! p with
  | Some sv => (Ret tt, with_svs (<[p := f sv]> (s_svs s)) s)
  | None => (Panic, s)
  end.

(** Change the inode in memory and mark it dirty. *)
Definition inode_modify (p : Z) (f : sfs_inode -> sfs_inode) : M (sfs U D H) unit :=
  sv_modify p (fun sv => set_dirty true (set_inode (f (sv_i sv)) sv)).

Definition sfs_clearblock (block : Z) : M (sfs U D H) unit :=
  on_disk (sfs_wblock (replicate (Z.to_nat SFS_BLOCKSIZE) 0) block).

Definition sfs_sync_inode (p : Z) : M (sfs U D H) unit :=
  sv <- sv_get p ;;
  if sv_dirty sv then
    on_disk (sfs_wblock (encode_inode (sv_i sv)) (sv_ino sv)) ;;;
    sv_modify p (set_dirty false)
  else ret tt.

Definition sfs_balloc : M (sfs U D H) Z :=
  diskblock <- on_freemap bitmap_alloc ;;
  modify (with_freemapdirty true) ;;;
  nblocks <- gets (fun s => sp_nblocks (s_super s)) ;;
  if diskblock >=? nblocks then panic
  else sfs_clearblock diskblock ;;; ret diskblock.

Definition sfs_bfree (diskblock : Z) : M (sfs U D H) unit :=
  on_freemap (bitmap_unmark diskblock) ;;;
  modify (with_freemapdirty true).

Definition sfs_bused (diskblock : Z) : M (sfs U D H) Z :=
  nblocks <- gets (fun s => sp_nblocks (s_super s)) ;;
  if diskblock >=? nblocks then panic
  else on_freemap (bitmap_isset diskblock).

(** "Hand back the block": panic if it is marked free. *)
Definition check_used (block : Z) : M (sfs U D H) Z :=
  (if negb (block =? 0) then
     used <- sfs_bused block ;;
     if used =? 0 then panic else ret tt
   else ret tt) ;;;
  ret block.

(** The direct-block half of [sfs_bmap]. *)
Definition bmap_direct (p fileblock : Z) (doalloc : bool) : M (sfs U D H) Z :=
  sv <- sv_get p ;;
  let block := nth (Z.to_nat fileblock) (sfi_direct (sv_i sv)) 0 in
  block <- (if (block =? 0) && doalloc then
      block <- sfs_balloc ;;
      inode_modify p (set_direct fileblock block) ;;;
      ret block
    else ret block) ;;
  check_used block.

(** The end of [sfs_bmap]: the entry [idoff] of the indirect block [idblock],
    whose contents are in [idbuf]. *)
Definition bmap_entry (idblock : Z) (idbuf : list Z) (idoff : Z) (doalloc : bool) :
    M (sfs U D H) Z :=
  let block := nth (Z.to_nat idoff) idbuf 0 in
  block <- (if (block =? 0) && doalloc then
      block <- sfs_balloc ;;
      on_disk (sfs_wblock (bytes_of (<[Z.to_nat idoff := block]> idbuf)) idblock) ;;;
      ret block
    else ret block) ;;
  check_used block.

Definition sfs_bmap (p fileblock : Z) (doalloc : bool) : M (sfs U D H) Z :=
  if fileblock <? SFS_NDIRECT then bmap_direct p fileblock doalloc
  else
    let fileblock := fileblock - SFS_NDIRECT in
    let idnum := fileblock / SFS_DBPERIDB in
    let idoff := fileblock mod SFS_DBPERIDB in
    if idnum >? 0 then fail EINVAL
    else
      sv <- sv_get p ;;
      let idblock := sfi_indirect (sv_i sv) in
      if (idblock =? 0) && negb doalloc then ret 0
      else
        '(idblock, idbuf) <-
          (if idblock =? 0 then
             idblock <- sfs_balloc ;;
             inode_modify p (set_indirect idblock) ;;;
             ret (idblock, replicate (Z.to_nat SFS_DBPERIDB) 0)
           else
             bs <- on_disk (sfs_rblock idblock) ;;
             ret (idblock, words_of bs)) ;;
        bmap_entry idblock idbuf idoff doalloc.

(** *** File I/O, on a uio and the file system *)

Definition io_uiomove (buf : list Z) (p n : Z) : M (uio * sfs U D H) (list Z) :=
  zoom (fun x => (x.1, s_thread x.2))
    (fun y x => (y.1, with_io (y.2, s_dev x.2) x.2)) (uiomove buf p n).
Definition io_zeros (n : Z) : M (uio * sfs U D H) unit :=
  zoom (fun x => (x.1, s_thread x.2))
    (fun y x => (y.1, with_io (y.2, s_dev x.2) x.2)) (uiomovezeros n).
Definition io_rwblock : M (uio * sfs U D H) unit :=
  zoom (fun x => (x.1, (s_thread x.2, s_dev x.2)))
    (fun y x => (y.1, with_io y.2 x.2)) sfs_rwblock.

Definition set_offset_resid (off res : Z) (u : uio) : uio :=
  mk_uio (iov_base u) (iov_len u) off res (uio_segflg u) (uio_rw u) (uio_space u) (kbuf u).
Definition set_resid (res : Z) (u : uio) : uio := set_offset_resid (uio_offset u) res u.

Definition is_write (u : uio) : bool := bool_decide (uio_rw u = UIO_WRITE).
Definition is_read (u : uio) : bool := bool_decide (uio_rw u = UIO_READ).

Definition sfs_partialio (p skipstart len : Z) : M (uio * sfs U D H) unit :=
  u <- gets fst ;;
  let doalloc := is_write u in
  assert (skipstart + len <=? SFS_BLOCKSIZE) ;;;
  let fileblock := u32 (Z.quot (uio_offset u) SFS_BLOCKSIZE) in
  diskblock <- on_snd (sfs_bmap p fileblock doalloc) ;;
  iobuf <- (if diskblock =? 0 then
      assert (is_read u) ;;; ret (replicate (Z.to_nat SFS_BLOCKSIZE) 0)
    else on_snd (on_disk (sfs_rblock diskblock))) ;;
  iobuf <- io_uiomove iobuf skipstart len ;;
  if is_write u then on_snd (on_disk (sfs_wblock iobuf diskblock)) else ret tt.

Definition sfs_blockio (p : Z) : M (uio * sfs U D H) unit :=
  u <- gets fst ;;
  let doalloc := is_write u in
  let fileblock := u32 (Z.quot (uio_offset u) SFS_BLOCKSIZE) in
  diskblock <- on_snd (sfs_bmap p fileblock doalloc) ;;
  if diskblock =? 0 then
    assert (is_read u) ;;; io_zeros SFS_BLOCKSIZE
  else
    let saveoff := uio_offset u in
    let diskoff := i32 (u32 (diskblock * SFS_BLOCKSIZE)) in
    assert (uio_resid u >=? SFS_BLOCKSIZE) ;;;
    let saveres := uio_resid u in
    let diskres := SFS_BLOCKSIZE in
    on_fst (modify (set_offset_resid diskoff diskres)) ;;;
    r <- result_of io_rwblock ;;
    on_fst (modify (fun u =>
      set_offset_resid ((uio_offset u - diskoff) + saveoff) ((uio_resid u - diskres) + saveres) u)) ;;;
    if r =? 0 then ret tt else fail r.

(** The body of [sfs_io] up to the label [out]. *)
Definition sfs_io_body (p : Z) : M (uio * sfs U D H) unit :=
  u <- gets fst ;;
  let blkoff := u32 (Z.rem (uio_offset u) SFS_BLOCKSIZE) in
  (if negb (blkoff =? 0) then
     let len := SFS_BLOCKSIZE - blkoff in
     let len := if len >? uio_resid u then uio_resid u else len in
     sfs_partialio p blkoff len
   else ret tt) ;;;
  u <- gets fst ;;
  if uio_resid u =? 0 then ret tt
  else
    assert (Z.rem (uio_offset u) SFS_BLOCKSIZE =? 0) ;;;
    let nblocks := uio_resid u / SFS_BLOCKSIZE in
    for_each (seqZ 0 nblocks) (fun _ => sfs_blockio p) ;;;
    u <- gets fst ;;
    assert (uio_resid u <? SFS_BLOCKSIZE) ;;;
    if uio_resid u >? 0 then sfs_partialio p 0 (uio_resid u) else ret tt.

(** From the first I/O to the end, with [extraresid] put aside for EOF. *)
Definition sfs_io_rest (p extraresid : Z) : M (uio * sfs U D H) unit :=
  r <- result_of (sfs_io_body p) ;;
  u <- gets fst ;;
  sv <- on_snd (sv_get p) ;;
  (if is_write u && (uio_offset u >? i32 (sfi_size (sv_i sv)))
   then on_snd (inode_modify p (set_size (u32 (uio_offset u))))
   else ret tt) ;;;
  on_fst (modify (fun u => set_resid (u32 (uio_resid u + extraresid)) u)) ;;;
  if r =? 0 then ret tt else fail r.

Definition sfs_io (p : Z) : M (uio * sfs U D H) unit :=
  u <- gets fst ;;
  if is_read u then
    sv <- on_snd (sv_get p) ;;
    let size := i32 (sfi_size (sv_i sv)) in
    let endpos := i32 (uio_offset u + uio_resid u) in
    if uio_offset u >=? size then ret tt
    else if endpos >? size then
      let extraresid := u32 (endpos - size) in
      assert (uio_resid u >? extraresid) ;;;
      on_fst (modify (set_resid (uio_resid u - extraresid))) ;;;
      sfs_io_rest p extraresid
    else sfs_io_rest p 0
  else sfs_io_rest p 0.

Definition sfs_read (p : Z) : M (uio * sfs U D H) unit :=
  u <- gets fst ;;
  assert (is_read u) ;;;
  sfs_io p.

Definition sfs_write (p : Z) : M (uio * sfs U D H) unit :=
  u <- gets fst ;;
  assert (is_write u) ;;;
  sfs_io p.

(** *** Truncation *)

(** One round of the loop over the direct blocks. *)
Definition trunc_direct (p blocklen i : Z) : M (sfs U D H) unit :=
  sv <- sv_get p ;;
  let block := nth (Z.to_nat i) (sfi_direct (sv_i sv)) 0 in
  if (i >=? blocklen) && negb (block =? 0) then
    sfs_bfree block ;;; inode_modify p (set_direct i 0)
  else ret tt.

(** The loop over the indirect block, from index [j]: the entries after it,
    whether any is nonzero and whether any changed. *)
Fixpoint trunc_entries (blocklen j : Z) (idbuf : list Z) : M (sfs U D H) (list Z * bool * bool) :=
  match idbuf with
  | [] => ret ([], false, false)
  | b :: idbuf =>
      '(b, dirty) <-
        (if (blocklen <? SFS_NDIRECT + j) && negb (b =? 0)
         then sfs_bfree b ;;; ret (0, true) else ret (b, false)) ;;
      '(bs, nonzero, iddirty) <- trunc_entries blocklen (j + 1) idbuf ;;
      ret (b :: bs, negb (b =? 0) || nonzero, dirty || iddirty)
  end.

(** The part of [sfs_truncate] that deals with the indirect block. *)
Definition trunc_table (p blocklen idblock : Z) : M (sfs U D H) unit :=
  bs <- on_disk (sfs_rblock idblock) ;;
  '(idbuf, hasnonzero, iddirty) <- trunc_entries blocklen 0 (words_of bs) ;;
  if negb hasnonzero then
    sfs_bfree idblock ;;; inode_modify p (set_indirect 0)
  else if iddirty : bool then on_disk (sfs_wblock (bytes_of idbuf) idblock)
  else ret tt.

Definition trunc_indirect (p blocklen : Z) : M (sfs U D H) unit :=
  sv <- sv_get p ;;
  let idblock := sfi_indirect (sv_i sv) in
  let highblock := SFS_NDIRECT + SFS_DBPERIDB - 1 in
  if (blocklen <? highblock) && negb (idblock =? 0) then trunc_table p blocklen idblock
  else ret tt.

Definition sfs_truncate (p len : Z) : M (sfs U D H) unit :=
  let blocklen := u32 (Z.quot (i32 (len + SFS_BLOCKSIZE - 1)) SFS_BLOCKSIZE) in
  for_each (seqZ 0 SFS_NDIRECT) (trunc_direct p blocklen) ;;;
  trunc_indirect p blocklen ;;;
  inode_modify p (set_size (u32 len)).

End file_ops.
