(* ===== verification/SfsRep.v ===== *)
(** The SFS file system: what a mounted file system represents, and that block
    allocation and the block map keep it.

    [fs_rep s I O]: [I] maps each inode number in use to its current inode (the
    copy in memory if the file is loaded, else the one on disk) and the ghost
    map [O] gives each block in use its one owner.  Contents are compared with
    [wrote_files], which says that one range of one file changed and nothing
    else did. *)

From Stdlib Require Import ZArith Lia.
From stdpp Require Import prelude gmap list.
From S2P Require Import Prelude Heap Array Bitmap SynchObj Vnode Pages Copy Uio Device SfsDisk SfsFile.

#[local] Arguments replicate : simpl never.

(** ** Files *)

Definition nth0 (l : list Z) (k : Z) : Z := nth (Z.to_nat k) l 0.

(** Largest number of blocks a file can have. *)
Definition MAXBLOCKS : Z := SFS_NDIRECT + SFS_DBPERIDB.

(** The disk block that holds block [k] of a file, 0 if none, when block [b] of
    the disk holds [dk b]. *)
Definition fblock (dk : Z -> list Z) (i : sfs_inode) (k : Z) : Z :=
  if k <? SFS_NDIRECT then nth0 (sfi_direct i) k
  else if sfi_indirect i =? 0 then 0
  else nth0 (words_of (dk (sfi_indirect i))) (k - SFS_NDIRECT).

(** Byte [n] of a file; a hole reads as zero. *)
Definition file_byte (dk : Z -> list Z) (i : sfs_inode) (n : Z) : Z :=
  let b := fblock dk i (n / SFS_BLOCKSIZE) in
  if b =? 0 then 0 else nth0 (dk b) (n mod SFS_BLOCKSIZE).

(** What a disk block is used for. *)
Inductive owner :=
| OInode
| OIndirect (ino : Z)
| OData (ino k : Z).

(** The blocks of inode [ino] belong to it. *)
Record inode_good (dk : Z -> list Z) (O : gmap Z owner) (ino : Z) (i : sfs_inode) : Prop := {
  ig_shape : inode_shape i;
  ig_size : sfi_size i < 2 ^ 31;
  ig_self : O !! ino = Some OInode;
  ig_indirect : sfi_indirect i <> 0 -> O !! sfi_indirect i = Some (OIndirect ino);
  ig_data : forall k, 0 <= k < MAXBLOCKS -> fblock dk i k <> 0 ->
    O !! fblock dk i k = Some (OData ino k);
}.

(** Blocks outside the superblock and the bitmap. *)
Definition usable (nblocks b : Z) : Prop :=
  (b = SFS_ROOT_LOCATION \/ SFS_MAP_LOCATION + SFS_BITBLOCKS nblocks <= b) /\ b < nblocks.

(** What mounting makes of a superblock: the volume name is terminated. *)
Definition seal_volname (sp : sfs_super) : sfs_super :=
  mk_super (sp_magic sp) (sp_nblocks sp) (<[31%nat := 0]> (sp_volname sp)) (sp_reserved sp).

Record super_good (sp : sfs_super) : Prop := {
  sg_shape : super_shape sp;
  sg_magic : sp_magic sp = SFS_MAGIC;
  sg_sealed : sp_volname sp !! 31%nat = Some 0;
}.

(** The blocks of the bitmap hold the bytes of [bm]. *)
Definition map_on_disk (dk : Z -> list Z) (nblocks : Z) (bm : bitmap) : Prop :=
  forall j, 0 <= j < SFS_BITBLOCKS nblocks ->
    dk (SFS_MAP_LOCATION + j) = slice (j * SFS_BLOCKSIZE) SFS_BLOCKSIZE (b_v bm).

Section rep.
Context {U D H : Type} `{BlockDevLaws U D}.
Implicit Types (s : sfs U D H) (I : gmap Z sfs_inode) (O : gmap Z owner).

Definition nblocks s : Z := sp_nblocks (s_super s).
Definition dk s : Z -> list Z := dblock (s_dev s).

(** The superblock and the free map, in memory and, unless marked dirty, on disk. *)
Record meta_rep s : Prop := {
  mt_super : super_good (s_super s);
  mt_nbits : nbits (s_freemap s) = SFS_BITMAPSIZE (nblocks s);
  mt_room : SFS_MAP_LOCATION + SFS_BITBLOCKS (nblocks s) <= nblocks s;
  mt_super_disk : s_superdirty s = false -> seal_volname (decode_super (dk s SFS_SB_LOCATION)) = s_super s;
  mt_map_disk : s_freemapdirty s = false -> map_on_disk (dk s) (nblocks s) (s_freemap s);
}.

Record fs_rep s I O : Prop := {
  rep_umem : umem_ok (umem (s_thread s));
  rep_badfault : badfault (s_thread s) = false;
  rep_dev : dev_ok (s_dev s);
  rep_nblocks : 1 < nblocks s <= d_blocks (s_dev s) /\ nblocks s < 2 ^ 22 - 1;
  rep_bitmap : bitmap_ok (s_freemap s);
  rep_nbits : nblocks s <= nbits (s_freemap s);
  rep_meta : meta_rep s;
  rep_reserved : forall b, 0 <= b < nbits (s_freemap s) -> ~ usable (nblocks s) b ->
    marked (s_freemap s) b = true;
  rep_owned : forall b o, O !! b = Some o ->
    usable (nblocks s) b /\ marked (s_freemap s) b = true;
  rep_inode : forall ino i, I !! ino = Some i -> inode_good (dk s) O ino i;
  rep_loaded : forall p sv, s_svs s !! p = Some sv ->
    I !! sv_ino sv = Some (sv_i sv) /\
    (sv_dirty sv = false -> dk s (sv_ino sv) = encode_inode (sv_i sv));
  rep_unique : forall p q sv sw, s_svs s !! p = Some sv -> s_svs s !! q = Some sw ->
    sv_ino sv = sv_ino sw -> p = q;
  rep_unloaded : forall ino i, I !! ino = Some i ->
    (forall p sv, s_svs s !! p = Some sv -> sv_ino sv <> ino) -> dk s ino = encode_inode i;
}.

(** Only the device (through [dk]), the free map and vnode [p] may differ. *)
Record kept p s s' : Prop := {
  kp_heap : s_heap s' = s_heap s;
  kp_self : s_self s' = s_self s;
  kp_super : s_super s' = s_super s;
  kp_superdirty : s_superdirty s' = s_superdirty s;
  kp_vnodes : s_vnodes s' = s_vnodes s;
  kp_freemap : same_place (s_freemap s) (s_freemap s') /\ nbits (s_freemap s') = nbits (s_freemap s);
  kp_dev : d_blocks (s_dev s') = d_blocks (s_dev s) /\ d_blocksize (s_dev s') = d_blocksize (s_dev s);
  kp_svs : forall q, q <> p -> s_svs s' !! q = s_svs s !! q;
  kp_sv : forall sv, s_svs s !! p = Some sv ->
    exists sv', s_svs s' !! p = Some sv' /\ sv_v sv' = sv_v sv /\ sv_ino sv' = sv_ino sv;
}.

(** From [dk], [I] to [dk'], [I'] the files are the same except that bytes
    [off .. off+n-1] of file [ino] are now given by [f]. *)
Definition wrote_files (ino off n : Z) (f : Z -> Z) (dk : Z -> list Z) I (dk' : Z -> list Z) I' : Prop :=
  dom I' = dom I /\
  forall j i i', I !! j = Some i -> I' !! j = Some i' ->
    sfi_type i' = sfi_type i /\ sfi_linkcount i' = sfi_linkcount i /\ sfi_size i' = sfi_size i /\
    forall m, 0 <= m < MAXBLOCKS * SFS_BLOCKSIZE ->
      file_byte dk' i' m =
        if (j =? ino) && (off <=? m) && (m <? off + n) then f m else file_byte dk i m.

Definition same_files (dk : Z -> list Z) I (dk' : Z -> list Z) I' : Prop :=
  wrote_files 0 0 0 (fun _ => 0) dk I dk' I'.

(** *** Algebra of the relations *)

Lemma kept_refl p s : kept p s s.
Proof. split; try done. intros sv Hsv. by exists sv. Qed.

Lemma kept_trans p s s' s'' : kept p s s' -> kept p s' s'' -> kept p s s''.
Proof.
  intros [? ? ? ? ? [[? ?] ?] [? ?] K8 K9] [? ? ? ? ? [[? ?] ?] [? ?] K8' K9'].
  split; try congruence.
  - split; [split; congruence|congruence].
  - split; congruence.
  - intros q Hq. by rewrite K8', K8.
  - intros sv Hsv. destruct (K9 _ Hsv) as (sv1 & Hsv1 & Hv1 & Hi1).
    destruct (K9' _ Hsv1) as (sv2 & Hsv2 & Hv2 & Hi2). exists sv2. split; [done|]. split; congruence.
Qed.

(** The same inodes, with the same contents. *)
Lemma same_files_intro d d' I :
  (forall j i, I !! j = Some i -> forall m, 0 <= m < MAXBLOCKS * SFS_BLOCKSIZE ->
     file_byte d' i m = file_byte d i m) -> same_files d I d' I.
Proof.
  intros Hb. split; [done|]. intros j i i' Hi Hi'. simplify_eq. do 3 (split; [done|]). intros m Hm.
  rewrite (Hb _ _ Hi) by done. destruct (j =? 0), (Z.leb_spec 0 m), (Z.ltb_spec m (0 + 0)); simpl; lia || done.
Qed.

Lemma same_files_refl d I : same_files d I d I.
Proof. by apply same_files_intro. Qed.

Lemma wrote_trans ino off n k f d I d' I' d'' I'' : 0 <= n -> 0 <= k ->
  wrote_files ino off n f d I d' I' -> wrote_files ino (off + n) k f d' I' d'' I'' ->
  wrote_files ino off (n + k) f d I d'' I''.
Proof.
  intros Hn Hk [Hd1 W1] [Hd2 W2]. split; [congruence|]. intros j i i'' Hi Hi''.
  assert (is_Some (I' !! j)) as [i' Hi'].
  { apply elem_of_dom. rewrite Hd1. apply elem_of_dom. by exists i. }
  destruct (W1 _ _ _ Hi Hi') as (? & ? & ? & Hb1).
  destruct (W2 _ _ _ Hi' Hi'') as (? & ? & ? & Hb2).
  split; [congruence|]. split; [congruence|]. split; [congruence|].
  intros m Hm. rewrite Hb2, Hb1 by done. destruct (j =? ino); simpl; [|done].
  destruct (Z.leb_spec off m), (Z.leb_spec (off + n) m), (Z.ltb_spec m (off + n)),
    (Z.ltb_spec m (off + n + k)), (Z.ltb_spec m (off + (n + k))); simpl; try done; lia.
Qed.

Lemma wrote_none ino off f d I d' I' : same_files d I d' I' -> wrote_files ino off 0 f d I d' I'.
Proof.
  intros [Hd Hs]. split; [done|]. intros j i i' Hi Hi'.
  destruct (Hs _ _ _ Hi Hi') as (? & ? & ? & Hb). do 3 (split; [done|]). intros m Hm.
  rewrite Hb by done.
  destruct (j =? 0), (j =? ino), (Z.leb_spec off m), (Z.leb_spec 0 m), (Z.ltb_spec m (0 + 0)),
    (Z.ltb_spec m (off + 0)); simpl; try done; lia.
Qed.

Lemma same_files_trans d I d' I' d'' I'' :
  same_files d I d' I' -> same_files d' I' d'' I'' -> same_files d I d'' I''.
Proof.
  intros W1 W2. apply (wrote_trans 0 0 0 0 (fun _ => 0) _ _ d' I'); [lia|lia|done|].
  by apply wrote_none.
Qed.

Lemma wrote_same_l ino off n f d I d' I' d'' I'' : 0 <= n ->
  same_files d I d' I' -> wrote_files ino off n f d' I' d'' I'' -> wrote_files ino off n f d I d'' I''.
Proof.
  intros Hn W1 W2. change n with (0 + n). eapply wrote_trans; [lia|done|by apply wrote_none|].
  by rewrite Z.add_0_r.
Qed.

(** The file system's view of contents does not depend on the function used
    outside the range written. *)
Lemma wrote_ext ino off n f g d I d' I' : (forall m, off <= m < off + n -> f m = g m) ->
  wrote_files ino off n f d I d' I' -> wrote_files ino off n g d I d' I'.
Proof.
  intros Hfg [Hd Hw]. split; [done|]. intros j i i' Hi Hi'.
  destruct (Hw _ _ _ Hi Hi') as (? & ? & ? & Hb). do 3 (split; [done|]). intros m Hm.
  rewrite Hb by done. destruct (j =? ino); [|done]. simpl.
  destruct (Z.leb_spec off m), (Z.ltb_spec m (off + n)); simpl; try done. apply Hfg. lia.
Qed.

(** *** Blocks and owners *)

Lemma fblock_ext d d' i k : (sfi_indirect i <> 0 -> d' (sfi_indirect i) = d (sfi_indirect i)) ->
  fblock d' i k = fblock d i k.
Proof.
  intros Hi. unfold fblock. destruct (k <? SFS_NDIRECT); [done|].
  destruct (Z.eqb_spec (sfi_indirect i) 0); [done|]. by rewrite Hi.
Qed.

Lemma file_byte_ext d d' i m : (sfi_indirect i <> 0 -> d' (sfi_indirect i) = d (sfi_indirect i)) ->
  (fblock d i (m / SFS_BLOCKSIZE) <> 0 ->
   d' (fblock d i (m / SFS_BLOCKSIZE)) = d (fblock d i (m / SFS_BLOCKSIZE))) ->
  file_byte d' i m = file_byte d i m.
Proof.
  intros Hi Hb. unfold file_byte. rewrite (fblock_ext d d') by done.
  destruct (Z.eqb_spec (fblock d i (m / SFS_BLOCKSIZE)) 0); [done|]. by rewrite Hb.
Qed.

Lemma block_range m : 0 <= m < MAXBLOCKS * SFS_BLOCKSIZE -> 0 <= m / SFS_BLOCKSIZE < MAXBLOCKS.
Proof.
  intros Hm. unfold SFS_BLOCKSIZE in *. split; [apply Z.div_pos; lia|].
  apply Z.div_lt_upper_bound; lia.
Qed.

Lemma usable_range n b : usable n b -> 0 <= n < 2 ^ 31 -> 0 < b < n.
Proof.
  unfold usable, SFS_ROOT_LOCATION, SFS_MAP_LOCATION. intros [[->|Hb] Hn] Hr; [lia|].
  assert (0 <= SFS_BITBLOCKS n); [|lia]. unfold SFS_BITBLOCKS, SFS_BITMAPSIZE.
  apply Z.div_pos; [apply u32_range|done].
Qed.

Lemma rep_block s I O b o : fs_rep s I O -> O !! b = Some o ->
  0 < b < nblocks s /\ addressable (U := U) (s_dev s) b /\ 0 <= b < nbits (s_freemap s) /\
  marked (s_freemap s) b = true.
Proof.
  intros Hr Ho. destruct (rep_owned _ _ _ Hr _ _ Ho) as [Hu Hm].
  pose proof (rep_nblocks _ _ _ Hr) as [Hn Hn']. pose proof (rep_nbits _ _ _ Hr).
  pose proof (usable_range _ _ Hu ltac:(lia)). unfold addressable.
  split; [done|]. split; [lia|]. split; [lia|done].
Qed.

(** The inode of a loaded vnode. *)
Lemma rep_at s I O p sv : fs_rep s I O -> s_svs s !! p = Some sv -> I !! sv_ino sv = Some (sv_i sv).
Proof. intros Hr Hp. by destruct (rep_loaded _ _ _ Hr _ _ Hp). Qed.

Lemma rep_good s I O p sv : fs_rep s I O -> s_svs s !! p = Some sv ->
  inode_good (dk s) O (sv_ino sv) (sv_i sv).
Proof. intros Hr Hp. eapply rep_inode, rep_at; done. Qed.

(** A data block of the file, given by its number within the file. *)
Lemma rep_fblock s I O ino i k : fs_rep s I O -> I !! ino = Some i -> 0 <= k < MAXBLOCKS ->
  fblock (dk s) i k <> 0 -> O !! fblock (dk s) i k = Some (OData ino k).
Proof. intros Hr Hi. apply (ig_data _ _ _ _ (rep_inode _ _ _ Hr _ _ Hi)). Qed.


(** *** Changes of state *)

(** The superblock and the blocks of the bitmap are as before on [d']. *)
Definition same_reserved s (d' : D) : Prop :=
  forall b, 0 <= b < nblocks s -> ~ usable (nblocks s) b -> dblock d' b = dk s b.

Lemma reserved_super n : ~ usable n SFS_SB_LOCATION.
Proof.
  unfold usable, SFS_SB_LOCATION, SFS_ROOT_LOCATION, SFS_MAP_LOCATION. intros [[|Hb] _]; [lia|].
  assert (0 <= SFS_BITBLOCKS n); [|lia]. unfold SFS_BITBLOCKS, SFS_BITMAPSIZE.
  apply Z.div_pos; [apply u32_range|done].
Qed.

Lemma reserved_map n j : 0 <= j < SFS_BITBLOCKS n -> ~ usable n (SFS_MAP_LOCATION + j).
Proof. unfold usable, SFS_ROOT_LOCATION, SFS_MAP_LOCATION. lia. Qed.

Lemma meta_io s (t' : uthread U) (d' : D) : meta_rep s -> same_reserved s d' ->
  meta_rep (with_io (t', d') s).
Proof.
  intros [Hs Hn Hr Hd Hm] Hsame. unfold SFS_MAP_LOCATION in Hr. split; try done.
  - intros Hz. unfold dk. simpl. rewrite Hsame; [by apply Hd| |apply reserved_super].
    assert (0 <= SFS_BITBLOCKS (nblocks s)); [|unfold SFS_SB_LOCATION; lia].
    unfold SFS_BITBLOCKS, SFS_BITMAPSIZE. apply Z.div_pos; [apply u32_range|done].
  - intros Hz j Hj. unfold dk. change (nblocks (with_io (t', d') s)) with (nblocks s) in Hj. simpl.
    rewrite Hsame; [by apply Hm|unfold SFS_MAP_LOCATION; lia|by apply reserved_map].
Qed.

Lemma good_mono d d' O O' ino i : O ⊆ O' ->
  (sfi_indirect i <> 0 -> d' (sfi_indirect i) = d (sfi_indirect i)) ->
  inode_good d O ino i -> inode_good d' O' ino i.
Proof.
  intros Ho Hi [Hs Hsz Hself Hind Hdat]. split; [done|done|..].
  - by eapply lookup_weaken.
  - intros Hz. eapply lookup_weaken; [by apply Hind|done].
  - intros k Hk. rewrite (fblock_ext d d') by done. intros Hz.
    eapply lookup_weaken; [by apply Hdat|done].
Qed.

(** Nothing the superblock and the free map depend on has changed. *)
Lemma meta_same s s' : meta_rep s -> s_super s' = s_super s -> s_superdirty s' = s_superdirty s ->
  s_freemap s' = s_freemap s -> s_freemapdirty s' = s_freemapdirty s -> s_dev s' = s_dev s -> meta_rep s'.
Proof.
  intros [] E1 E2 E3 E4 E5. unfold nblocks, dk in *.
  split; unfold nblocks, dk; rewrite ?E1, ?E2, ?E3, ?E4, ?E5; done.
Qed.

(** The device and the thread may change as long as the owned blocks keep their
    contents, data block [b0] excepted. *)
Lemma rep_write s I O (t' : uthread U) (d' : D) b0 ino k data :
  fs_rep s I O -> umem_ok (umem t') -> badfault t' = false -> dev_ok d' ->
  d_blocks d' = d_blocks (s_dev s) ->
  O !! b0 = Some (OData ino k) ->
  (forall b o, O !! b = Some o -> dblock d' b = if b =? b0 then data else dk s b) ->
  same_reserved s d' ->
  fs_rep (with_io (t', d') s) I O.
Proof.
  intros Hr Ht Hbf Hd Hn Hb0 Hdk Hres.
  assert (forall b o, O !! b = Some o -> o <> OData ino k -> dblock d' b = dk s b) as Hsame.
  { intros b o Ho Hne. rewrite (Hdk _ _ Ho). destruct (Z.eqb_spec b b0) as [->|]; [|done].
    rewrite Ho in Hb0. by simplify_eq. }
  assert (forall j i, I !! j = Some i -> sfi_indirect i <> 0 ->
    dblock d' (sfi_indirect i) = dk s (sfi_indirect i)) as Hind.
  { intros j i Hi Hz. pose proof (rep_inode _ _ _ Hr _ _ Hi) as Hg.
    by apply (Hsame _ (OIndirect j)); [apply (ig_indirect _ _ _ _ Hg)|]. }
  assert (forall j i, I !! j = Some i -> dblock d' j = dk s j) as Hino.
  { intros j i Hi. apply (Hsame _ OInode); [|done].
    apply (ig_self _ _ _ _ (rep_inode _ _ _ Hr _ _ Hi)). }
  destruct Hr as [? ? ? Hnb ? ? Hmt ? ? Hin Hlo Hun Hul].
  pose proof (meta_io s t' d' Hmt Hres) as Hmt'.
  split; try done; unfold dk, nblocks, with_io in *; simpl in *.
  - by rewrite Hn.
  - intros j i Hi. eapply good_mono; [done|by eapply Hind|by apply Hin].
  - intros p sv Hp. destruct (Hlo p sv Hp) as [Hi Hcl]. split; [done|].
    intros Hz. rewrite (Hino _ _ Hi). by apply Hcl.
  - intros j i Hi Hne. rewrite (Hino _ _ Hi). by apply Hul.
Qed.

(** ... and then only block [k] of file [ino] has new contents. *)
Lemma rep_write_files s I O (d' : Z -> list Z) b0 ino k i data :
  fs_rep s I O -> I !! ino = Some i -> 0 <= k < MAXBLOCKS -> fblock (dk s) i k = b0 -> b0 <> 0 ->
  (forall b o, O !! b = Some o -> d' b = if b =? b0 then data else dk s b) ->
  forall j i', I !! j = Some i' -> forall m, 0 <= m < MAXBLOCKS * SFS_BLOCKSIZE ->
    file_byte d' i' m = if (j =? ino) && (m / SFS_BLOCKSIZE =? k)
                        then nth0 data (m mod SFS_BLOCKSIZE) else file_byte (dk s) i' m.
Proof.
  intros Hr Hi Hk Hb Hz Hdk j i' Hj m Hm. apply block_range in Hm.
  pose proof (rep_inode _ _ _ Hr _ _ Hj) as Hg.
  assert (O !! b0 = Some (OData ino k)) as Hb0.
  { rewrite <- Hb. eapply rep_fblock; try done. by rewrite Hb. }
  assert (sfi_indirect i' <> 0 -> d' (sfi_indirect i') = dk s (sfi_indirect i')) as Hind.
  { intros Hnz. pose proof (ig_indirect _ _ _ _ Hg Hnz) as Ho. rewrite (Hdk _ _ Ho).
    destruct (Z.eqb_spec (sfi_indirect i') b0) as [E|]; [|done]. rewrite E, Hb0 in Ho. done. }
  unfold file_byte. rewrite (fblock_ext (dk s) d') by done.
  destruct (Z.eqb_spec (fblock (dk s) i' (m / SFS_BLOCKSIZE)) 0) as [E|E].
  - destruct (Z.eqb_spec j ino) as [->|]; [|done]. simplify_eq. simpl.
    destruct (Z.eqb_spec (m / SFS_BLOCKSIZE) k) as [<-|]; [|done]. congruence.
  - pose proof (ig_data _ _ _ _ Hg _ Hm E) as Ho. rewrite (Hdk _ _ Ho).
    destruct (Z.eqb_spec (fblock (dk s) i' (m / SFS_BLOCKSIZE)) b0) as [E'|E'].
    + rewrite E' in Ho. rewrite Hb0 in Ho. simplify_eq. by rewrite !Z.eqb_refl.
    + destruct (Z.eqb_spec j ino) as [->|]; [|done]. simplify_eq. simpl.
      destruct (Z.eqb_spec (m / SFS_BLOCKSIZE) k) as [<-|]; done.
Qed.

(** Nothing owned changes. *)
Lemma rep_quiet_meta s I O (t' : uthread U) (d' : D) :
  fs_rep s I O -> umem_ok (umem t') -> badfault t' = false -> dev_ok d' ->
  d_blocks d' = d_blocks (s_dev s) -> (forall b o, O !! b = Some o -> dblock d' b = dk s b) ->
  meta_rep (with_io (t', d') s) ->
  fs_rep (with_io (t', d') s) I O /\ same_files (dk s) I (dblock d') I.
Proof.
  intros Hr Ht Hbf Hd Hn Hdk Hmt'. split.
  - pose proof Hr as [? ? ? Hnb ? ? _ ? ? Hin Hlo Hun Hul].
    assert (forall j i, I !! j = Some i -> dblock d' j = dk s j) as Hino.
    { intros j i Hi. eapply Hdk, (ig_self _ _ _ _ (Hin _ _ Hi)). }
    split; try done; unfold dk, nblocks, with_io in *; simpl in *.
    + by rewrite Hn.
    + intros j i Hi. eapply good_mono; [done| |by apply Hin].
      intros Hz. eapply Hdk, (ig_indirect _ _ _ _ (Hin _ _ Hi)); done.
    + intros p sv Hp. destruct (Hlo p sv Hp) as [Hi Hcl]. split; [done|].
      intros Hz. rewrite (Hino _ _ Hi). by apply Hcl.
    + intros j i Hi Hne. rewrite (Hino _ _ Hi). by apply Hul.
  - apply same_files_intro. intros j i Hi m Hm. pose proof (rep_inode _ _ _ Hr _ _ Hi) as Hg.
    apply file_byte_ext.
    + intros Hz. eapply Hdk, (ig_indirect _ _ _ _ Hg Hz).
    + intros Hz. eapply Hdk, (ig_data _ _ _ _ Hg _ (block_range _ Hm) Hz).
Qed.

Lemma rep_quiet s I O (t' : uthread U) (d' : D) :
  fs_rep s I O -> umem_ok (umem t') -> badfault t' = false -> dev_ok d' ->
  d_blocks d' = d_blocks (s_dev s) -> (forall b o, O !! b = Some o -> dblock d' b = dk s b) ->
  same_reserved s d' ->
  fs_rep (with_io (t', d') s) I O /\ same_files (dk s) I (dblock d') I.
Proof. intros Hr ? ? ? ? ? ?. apply rep_quiet_meta; try done. apply meta_io; [apply Hr|done]. Qed.

(** A vnode's inode is replaced, possibly taking new blocks. *)
Lemma rep_set_inode s I O O' p sv i' :
  fs_rep s I O -> s_svs s !! p = Some sv -> O ⊆ O' ->
  (forall b o, O' !! b = Some o -> usable (nblocks s) b /\ marked (s_freemap s) b = true) ->
  inode_good (dk s) O' (sv_ino sv) i' ->
  fs_rep (with_svs (<[p := set_dirty true (set_inode i' sv)]> (s_svs s)) s)
    (<[sv_ino sv := i']> I) O'.
Proof.
  intros Hr Hp Ho Hmark Hg. pose proof Hr as [? ? ? Hnb ? ? Hmt ? ? Hin Hlo Hun Hul].
  assert (forall q sw, s_svs s !! q = Some sw -> sv_ino sw = sv_ino sv -> q = p) as Hone.
  { intros q sw Hq E. by eapply Hun. }
  split; try done; unfold dk, nblocks, with_svs in *; simpl in *.
  - by apply (meta_same s).
  - intros j i. destruct (decide (j = sv_ino sv)) as [->|].
    + rewrite lookup_insert_eq. by intros [= <-].
    + rewrite lookup_insert_ne by done. intros Hi. by eapply good_mono; [done| |by apply Hin].
  - intros q sw. destruct (decide (q = p)) as [->|].
    + rewrite lookup_insert_eq. intros [= <-]. simpl. by rewrite lookup_insert_eq.
    + rewrite lookup_insert_ne by done. intros Hq. rewrite lookup_insert_ne; [by apply (Hlo q)|].
      intros E. by destruct (Hone q sw Hq).
  - intros q q' sw sw' Hq Hq' E.
    destruct (decide (q = p)) as [->|], (decide (q' = p)) as [->|]; [done|..];
      rewrite ?lookup_insert_eq, ?lookup_insert_ne in Hq by done;
      rewrite ?lookup_insert_eq, ?lookup_insert_ne in Hq' by done; simplify_eq/=.
    + symmetry in E. by rewrite (Hone _ _ Hq' E).
    + by rewrite (Hone _ _ Hq E).
    + by eapply Hun.
  - intros j i Hi Hne. destruct (decide (j = sv_ino sv)) as [->|].
    + destruct (Hne p (set_dirty true (set_inode i' sv))); [by rewrite lookup_insert_eq|done].
    + rewrite lookup_insert_ne in Hi by done. apply (Hul _ _ Hi). intros q sw Hq.
      destruct (decide (q = p)) as [->|]; [by simplify_eq|].
      apply (Hne q). by rewrite lookup_insert_ne.
Qed.

End rep.
