(* ===== verification/SfsSample.v ===== *)
(** A small SFS file system on the simulated disk, as a concrete instance of the
    representation: eight blocks, a root directory with one entry, [a], and that
    file, of 100 bytes.  Blocks 6 and 7 are free. *)

From Stdlib Require Import ZArith Lia.
From stdpp Require Import prelude gmap list.
From S2P Require Import Prelude Heap Array Bitmap SynchObj Vnode Pages Copy Uio Device Lhd SfsDisk SfsFile SfsRep.
Import Flat SimCard.

#[local] Arguments replicate : simpl never.

Definition root_inode : sfs_inode := mk_inode 64 SFS_TYPE_DIR 1 (3 :: replicate 14 0) 0 (replicate 110 0).
Definition file_inode : sfs_inode := mk_inode 100 SFS_TYPE_FILE 1 (4 :: replicate 14 0) 0 (replicate 110 0).
Definition root_entry : sfs_dir := mk_dir 5 (97 :: replicate 59 0).

Definition sample_super : sfs_super :=
  mk_super SFS_MAGIC 8 (115 :: replicate 31 0) (replicate 118 0).

Definition platters : list (list Z) :=
  [encode_super sample_super; encode_inode root_inode; 63 :: replicate 511 255;
   encode_dir root_entry ++ replicate 448 0; replicate 100 7 ++ replicate 412 0;
   encode_inode file_inode; replicate 512 0; replicate 512 0].

Definition sample_disk : lhd_softc card :=
  mk_softc 0 1 0 8 (mk_card platters 0 0 (replicate 512 0) None).

Definition sample_vnode (self : Z) (ops : sfs_ops) (lk : Z) : vnode sfs_ops :=
  mk_vnode 1 0 (Some (mk_lock lk (lk + 10) false)) 30 self (Some ops).

Definition root_sv : sfs_vnode := mk_sv (sample_vnode 1000 sfs_dirops 3000) root_inode 1 false.
Definition file_sv : sfs_vnode := mk_sv (sample_vnode 2000 sfs_fileops 3100) file_inode 5 false.

Definition sample_map : bitmap := mk_bitmap 70 4096 80 (63 :: replicate 511 255).

Definition sample {H} (h : H) : sfs flat (lhd_softc card) H :=
  mk_sfs idle_thread sample_disk h 30 sample_super false sample_map false
    (mk_array 4000 2 2 4020 [Some 1000; Some 2000])
    (<[1000 := root_sv]> (<[2000 := file_sv]> ∅)).

Definition sample_I : gmap Z sfs_inode := <[1 := root_inode]> (<[5 := file_inode]> ∅).
Definition sample_O : gmap Z owner :=
  <[1 := OInode]> (<[5 := OInode]> (<[3 := OData 1 0]> (<[4 := OData 5 0]> ∅))).

(** An inode with one direct block. *)
Definition one_block (size ty b : Z) : sfs_inode :=
  mk_inode size ty 1 (b :: replicate 14 0) 0 (replicate 110 0).

Lemma one_block_good d O ino size ty b : 0 <= size < 2 ^ 31 -> 0 <= ty < 2 ^ 16 -> word32 b ->
  O !! ino = Some OInode -> O !! b = Some (OData ino 0) -> inode_good d O ino (one_block size ty b).
Proof.
  intros Hs Ht Hb Ho Hd. split; simpl; [|lia|done|done|].
  - split; simpl; try (unfold word32 in *; lia).
    + split; [done|]. apply Forall_cons. split; [done|]. by apply Forall_replicate.
    + split; [done|]. by apply Forall_replicate.
  - intros k Hk. unfold fblock, SFS_NDIRECT, nth0. simpl sfi_direct. simpl sfi_indirect.
    destruct (decide (k = 0)) as [->|]; [done|]. destruct (Z.ltb_spec k 15); [|done].
    replace (Z.to_nat k) with (S (Z.to_nat (k - 1))) by lia. cbn [nth].
    rewrite nth_lookup. destruct (replicate 14 0 !! _) eqn:E; [|done].
    by apply lookup_replicate in E as [-> _].
Qed.

Lemma platters_ok : Forall sector_ok platters.
Proof.
  assert (forall n b, 0 <= b < 256 -> byte_list (replicate n b)) as Hrep by (intros; by apply byte_list_replicate).
  assert (forall l, length l = 512%nat -> forallb (fun b => (0 <=? b) && (b <? 256)) l = true -> sector_ok l) as Hl.
  { intros l Hl Hb. split; [done|]. apply Forall_forall. intros b Hin.
    rewrite forallb_forall in Hb. apply list_elem_of_In, Hb in Hin. lia. }
  repeat (apply Forall_cons; split; [apply Hl; by vm_compute|]). constructor.
Qed.

Lemma sample_disk_ok : dev_ok (U := flat) sample_disk.
Proof.
  split; [|split; [done|simpl; lia]]. split; [done|]. split; [done|].
  split; [|done]. split; [apply platters_ok|]. split; [done|by apply byte_list_replicate].
Qed.

Ltac in_map H := repeat (apply lookup_insert_Some in H as [[<- <-]|[_ H]]); [..|by apply lookup_empty_Some in H].

Lemma all_ones o : 0 <= o < 8 -> Z.testbit 255 o = true.
Proof.
  intros Ho. assert (o = 0 \/ o = 1 \/ o = 2 \/ o = 3 \/ o = 4 \/ o = 5 \/ o = 6 \/ o = 7) as Hc by lia.
  by repeat destruct Hc as [->|Hc]; [..|subst].
Qed.

Lemma sample_marked b : 0 <= b < 4096 -> marked sample_map b = (b <? 6) || (8 <=? b).
Proof.
  intros Hb. unfold marked. simpl. destruct (Z.ltb_spec b 8).
  - assert (b = 0 \/ b = 1 \/ b = 2 \/ b = 3 \/ b = 4 \/ b = 5 \/ b = 6 \/ b = 7) as Hc by lia.
    by repeat destruct Hc as [->|Hc]; [..|subst].
  - rewrite (proj2 (Z.leb_le 8 b)), orb_true_r by lia.
    assert (1 <= b / 8 < 512) by (split; [apply Z.div_le_lower_bound|apply Z.div_lt_upper_bound]; lia).
    replace (Z.to_nat (b / 8)) with (S (Z.to_nat (b / 8 - 1))) by lia. simpl.
    rewrite lookup_replicate_2 by lia. apply all_ones. apply Z.mod_pos_bound. lia.
Qed.

Lemma sample_map_ok : bitmap_ok sample_map.
Proof.
  split; [simpl; lia|]. split; [done|]. split.
  - intros [|k] w Hk; simplify_eq/=; [lia|]. apply lookup_replicate in Hk as [-> _]. lia.
  - intros i Hi. change (4096 <= i < 4096) in Hi. lia.
Qed.

Lemma sample_meta {H} (h : H) : meta_rep (sample h).
Proof.
  split; [|done..| |].
  - split; [|done..]. split; [done|]. split; [done|]. split; [done|].
    split; [apply Forall_cons; split; [done|by apply byte_list_replicate]|].
    split; [done|]. by apply Forall_replicate.
  - intros _. by vm_compute.
  - intros _ j Hj. change (0 <= j < 1) in Hj. assert (j = 0) as -> by lia. by vm_compute.
Qed.

Lemma sample_rep {H} (h : H) : fs_rep (sample h) sample_I sample_O.
Proof.
  assert (1 <> 5 /\ 5 <> 1) as [? ?] by done.
  split.
  - exact idle_thread_ok.
  - done.
  - exact sample_disk_ok.
  - unfold nblocks. simpl. lia.
  - exact sample_map_ok.
  - unfold nblocks. simpl. lia.
  - apply sample_meta.
  - simpl. intros b Hb Hu. rewrite sample_marked by lia. unfold usable, nblocks in Hu. simpl in Hu.
    destruct (Z.leb_spec 8 b); [by rewrite orb_true_r|]. rewrite orb_false_r.
    apply Z.ltb_lt. destruct (decide (b < 6)); [done|]. destruct Hu. split; [|lia]. right.
    change (SFS_MAP_LOCATION + SFS_BITBLOCKS 8) with 3. lia.
  - intros b o Ho. unfold sample_O in Ho. in_map Ho; (split; [|done]); unfold usable;
      change (SFS_MAP_LOCATION + SFS_BITBLOCKS (nblocks (sample h))) with 3;
      change (nblocks (sample h)) with 8; unfold SFS_ROOT_LOCATION; lia.
  - intros ino i Hi. unfold sample_I in Hi. in_map Hi; by apply one_block_good.
  - intros p sv Hp. simpl in Hp. in_map Hp; (split; [done|]); intros _; by vm_compute.
  - intros p q sv sw Hp Hq Hi. simpl in Hp, Hq. in_map Hp; in_map Hq; done.
  - intros ino i Hi Hno. unfold sample_I in Hi. in_map Hi.
    + by destruct (Hno 1000 root_sv).
    + by destruct (Hno 2000 file_sv).
Qed.
