(* ===== verification/SfsBmap.v ===== *)
(** The SFS file system: block allocation and the block map keep the
    representation (sfs_balloc, sfs_bfree, sfs_bused and sfs_bmap of
    kern/fs/sfs/sfs_vnode.c). *)

From Stdlib Require Import ZArith Lia.
From stdpp Require Import prelude gmap list.
From S2P Require Import Prelude Heap Array Bitmap SynchObj Vnode Pages Copy Uio Device Lhd SfsDisk SfsFile SfsRep SfsSample.
Import Flat SimCard.

#[local] Arguments replicate : simpl never.

#[export] Instance usable_dec n b : Decision (usable n b).
Proof. unfold usable. apply _. Defined.

Definition zero_block : list Z := replicate 512 0.

Lemma zero_block_ok : length zero_block = 512%nat /\ byte_list zero_block.
Proof. split; [done|by apply byte_list_replicate]. Qed.

Lemma nth0_zero k n : nth0 (replicate n 0) k = 0.
Proof.
  unfold nth0. rewrite nth_lookup. destruct (replicate n 0 !! _) eqn:E; [|done].
  by apply lookup_replicate in E as [-> _].
Qed.

Section bmap.
Context {U D H : Type} `{BlockDevLaws U D}.
Implicit Types (s : sfs U D H) (I : gmap Z sfs_inode) (O : gmap Z owner).

Lemma sfs_eta s : mk_sfs (s_thread s) (s_dev s) (s_heap s) (s_self s) (s_super s)
  (s_superdirty s) (s_freemap s) (s_freemapdirty s) (s_vnodes s) (s_svs s) = s.
Proof. by destruct s. Qed.

(** Reading a block of the disk. *)
Lemma rblock_runs s I O b : fs_rep s I O -> addressable (U := U) (s_dev s) b ->
  runs (on_disk (H := H) (sfs_rblock b)) s
    (fun bs s' => bs = dk s b /\ fs_rep s' I O /\ same_files (dk s) I (dk s') I /\
       (exists d', s' = with_io (s_thread s, d') s) /\ (forall p, kept p s s') /\
       (forall c, 0 <= c < d_blocks (s_dev s) -> dk s' c = dk s c))
    (fun _ _ => False).
Proof.
  intros Hr Hb. apply runs_zoom.
  eapply runs_mono; [apply sfs_rblock_runs; [apply Hr|apply Hr|apply Hr|done]| |done].
  intros bs [t' d'] (-> & -> & Hd & Hn & Hz & Hc).
  assert (forall c o, O !! c = Some o -> dblock d' c = dk s c) as Hdk.
  { intros c o Ho. apply Hc. destruct (rep_block _ _ _ _ _ Hr Ho) as (_ & [? _] & _). done. }
  destruct (rep_quiet s I O (s_thread s) d' Hr) as [Hr' Hs']; try done; [apply Hr|apply Hr| |].
  { intros c Hcr _. apply Hc. pose proof (rep_nblocks _ _ _ Hr). lia. }
  split; [done|]. split; [done|]. split; [done|]. split; [by exists d'|]. split; [|done].
  intros p. split; try done. intros sv Hsv. by exists sv.
Qed.

(** Every block is in use. *)
Definition full s : Prop :=
  forall b, 0 <= b < nbits (s_freemap s) -> marked (s_freemap s) b = true.

(** A block fresh from the free map. *)
Lemma balloc_runs s I O : fs_rep s I O ->
  runs sfs_balloc s
    (fun b s' => fs_rep s' I O /\ same_files (dk s) I (dk s') I /\ (forall p, kept p s s') /\
       s_thread s' = s_thread s /\ s_svs s' = s_svs s /\
       O !! b = None /\ usable (nblocks s) b /\ marked (s_freemap s') b = true /\
       dk s' b = zero_block /\ (forall c, 0 <= c < d_blocks (s_dev s) -> c <> b -> dk s' c = dk s c))
    (fun e s' => e = ENOSPC /\ full s /\ s' = s).
Proof.
  intros Hr. unfold sfs_balloc. apply runs_bind, runs_zoom.
  destruct (bitmap_alloc_spec _ (rep_bitmap _ _ _ Hr))
    as [(b & fm & Ha & Hok & Hnb & Hpl & Hb & Hfree & Hlow & Hmk)|[Ha Hfull]].
  2:{ unfold runs. rewrite Ha. split; [done|]. split; [done|]. apply sfs_eta. }
  unfold runs at 1. rewrite Ha. cbn beta iota. run.
  assert (usable (nblocks s) b) as Hu.
  { destruct (decide (usable (nblocks s) b)); [done|].
    by rewrite (rep_reserved _ _ _ Hr) in Hfree. }
  assert (O !! b = None) as Hob.
  { destruct (O !! b) eqn:E; [|done]. apply (rep_owned _ _ _ Hr) in E as [_ E]. congruence. }
  pose proof (rep_nblocks _ _ _ Hr) as [Hn1 Hn2].
  pose proof (usable_range _ _ Hu ltac:(lia)) as Hbr.
  change (sp_nblocks (s_super (with_freemapdirty true (with_freemap fm s)))) with (nblocks s).
  destruct (Z.geb_spec b (nblocks s)); [lia|]. unfold sfs_clearblock. run. apply runs_zoom. simpl.
  eapply runs_mono; [apply sfs_wblock_runs; [apply Hr|apply Hr|apply Hr| |apply zero_block_ok..]| |done].
  { split; lia. }
  intros [] [t' d'] (-> & Hd & Hdn & Hz & Hc). run.
  set (s1 := with_freemapdirty true (with_freemap fm s)).
  assert (fs_rep s1 I O) as Hr1.
  { pose proof Hr as [? ? ? ? ? ? Hmt Hres Hown ? ? ? ?].
    split; try done; unfold s1, with_freemapdirty, with_freemap, nblocks, dk in *; simpl in *.
    - lia.
    - destruct Hmt as [? Hnbits ? ? ?]. split; simpl; try done. unfold nblocks in *. simpl. congruence.
    - intros c Hc' Hnu. rewrite Hmk by lia. destruct (c =? b); [done|]. apply Hres; [lia|done].
    - intros c o Ho. destruct (Hown _ _ Ho) as [Huc Hmc]. split; [done|].
      pose proof (usable_range _ _ Huc ltac:(lia)). rewrite Hmk, Hmc by lia. by destruct (c =? b). }
  assert (forall c o, O !! c = Some o -> dblock d' c = dk s1 c) as Hdk.
  { intros c o Ho. destruct (rep_block _ _ _ _ _ Hr Ho) as (_ & [? _] & _).
    rewrite Hc by done. destruct (Z.eqb_spec c b); [congruence|done]. }
  destruct (rep_quiet s1 I O (s_thread s) d' Hr1) as [Hr' Hs']; try done; [apply Hr|apply Hr| |].
  { intros c Hcr Hnu. rewrite Hc by (unfold s1 in Hcr; simpl in *; unfold nblocks in *; simpl in *; lia).
    destruct (Z.eqb_spec c b) as [->|]; [done|done]. }
  split.
  { destruct Hr' as [? ? ? ? ? ? ? ? ? ? ? ?]. by split. }
  split; [done|]. split.
  { intros p. split; try done. intros sv Hsv. by exists sv. }
  split; [done|]. split; [done|]. split; [done|]. split; [done|]. split.
  { simpl. rewrite Hmk by lia. by rewrite Z.eqb_refl. }
  split.
  { unfold dk. simpl. rewrite Hc by lia. by rewrite Z.eqb_refl. }
  intros c Hcr Hne. unfold dk. simpl. rewrite Hc by done. by zbool.
Qed.

(** A block in use is found marked. *)
Lemma bused_eq s I O b o : fs_rep s I O -> O !! b = Some o ->
  exists r, r <> 0 /\ sfs_bused b s = (Ret r, s).
Proof.
  intros Hr Ho. destruct (rep_block _ _ _ _ _ Hr Ho) as (Hn & _ & Hnb & Hm).
  destruct (bitmap_isset_spec (s_freemap s) b (rep_bitmap _ _ _ Hr) Hnb) as (r & Hi & Hnz).
  exists r. split; [tauto|]. unfold sfs_bused, bind, gets, on_freemap, zoom. simpl.
  change (sp_nblocks (s_super s)) with (nblocks s). destruct (Z.geb_spec b (nblocks s)); [lia|].
  rewrite Hi. unfold with_freemap. by rewrite sfs_eta.
Qed.

(** The check before a block is handed back always passes. *)
Lemma check_used_eq s I O b : fs_rep s I O -> (b <> 0 -> exists o, O !! b = Some o) ->
  check_used b s = (Ret b, s).
Proof.
  intros Hr Hb. unfold check_used. destruct (Z.eqb_spec b 0) as [->|Hz]; [done|].
  destruct (Hb Hz) as [o Ho]. destruct (bused_eq _ _ _ _ _ Hr Ho) as (r & Hnz & Hu).
  unfold bind. simpl. rewrite Hu. by zbool.
Qed.

(** *** Growing an inode *)

Lemma nth0_insert l k b m : 0 <= k < Z.of_nat (length l) -> 0 <= m ->
  nth0 (<[Z.to_nat k := b]> l) m = if m =? k then b else nth0 l m.
Proof.
  intros Hk Hm. unfold nth0. rewrite !nth_lookup. destruct (Z.eqb_spec m k) as [->|].
  - by rewrite list_lookup_insert_eq by lia.
  - by rewrite list_lookup_insert_ne by lia.
Qed.

Lemma fblock_set_direct d k b i m : length (sfi_direct i) = 15%nat -> 0 <= k < 15 -> 0 <= m ->
  fblock d (set_direct k b i) m = if m =? k then b else fblock d i m.
Proof.
  intros Hl Hk Hm. unfold fblock, SFS_NDIRECT. cbn [set_direct sfi_direct sfi_indirect].
  destruct (Z.ltb_spec m 15).
  - apply nth0_insert; lia.
  - by destruct (Z.eqb_spec m k); [lia|].
Qed.

Lemma shape_set_direct k b i : word32 b -> inode_shape i -> inode_shape (set_direct k b i).
Proof.
  intros Hb [? ? ? [Hl Hw] ? ?]. split; try done. cbn [set_direct sfi_direct].
  rewrite length_insert. split; [done|]. by apply Forall_insert.
Qed.

Lemma good_set_direct d O ino i k b : inode_good d O ino i -> 0 <= k < 15 ->
  O !! b = None -> word32 b -> inode_good d (<[b := OData ino k]> O) ino (set_direct k b i).
Proof.
  intros [Hsh Hsz Hself Hind Hdat] Hk Hob Hw.
  assert (forall c o, O !! c = Some o -> <[b := OData ino k]> O !! c = Some o) as Hmono.
  { intros c o Ho. rewrite lookup_insert_ne; [done|]. intros ->. congruence. }
  split; [by apply shape_set_direct|done|by apply Hmono|..].
  - intros Hz. by apply Hmono, Hind.
  - intros m Hm. rewrite fblock_set_direct by (lia || apply Hsh).
    destruct (Z.eqb_spec m k) as [->|]; [by rewrite lookup_insert_eq|].
    intros Hz. by apply Hmono, Hdat.
Qed.

Lemma words_of_zero_block : words_of zero_block = replicate 128 0.
Proof. vm_compute. reflexivity. Qed.

Lemma fblock_set_indirect d b i m : sfi_indirect i = 0 -> d b = zero_block ->
  fblock d (set_indirect b i) m = fblock d i m.
Proof.
  intros Hi Hb. unfold fblock. cbn [set_indirect sfi_direct sfi_indirect].
  destruct (m <? SFS_NDIRECT); [done|]. rewrite Hi, Hb, words_of_zero_block, nth0_zero. simpl.
  by destruct (b =? 0).
Qed.

Lemma good_set_indirect d O ino i b : inode_good d O ino i -> sfi_indirect i = 0 ->
  O !! b = None -> word32 b -> d b = zero_block ->
  inode_good d (<[b := OIndirect ino]> O) ino (set_indirect b i).
Proof.
  intros [[? ? ? ? ? ?] Hsz Hself Hind Hdat] Hi Hob Hw Hb.
  assert (forall c o, O !! c = Some o -> <[b := OIndirect ino]> O !! c = Some o) as Hmono.
  { intros c o Ho. rewrite lookup_insert_ne; [done|]. intros ->. congruence. }
  split; [by split|done|by apply Hmono|..].
  - intros _. cbn [set_indirect sfi_indirect]. by rewrite lookup_insert_eq.
  - intros m Hm. rewrite fblock_set_indirect by done. intros Hz. by apply Hmono, Hdat.
Qed.

(** An inode that reads the same is the same file. *)
Lemma same_files_insert d I ino i i' : I !! ino = Some i ->
  sfi_type i' = sfi_type i -> sfi_linkcount i' = sfi_linkcount i -> sfi_size i' = sfi_size i ->
  (forall m, 0 <= m < MAXBLOCKS * SFS_BLOCKSIZE -> file_byte d i' m = file_byte d i m) ->
  same_files d I d (<[ino := i']> I).
Proof.
  intros Hi Ht Hl Hs Hb. split; [by rewrite dom_insert_lookup_L by by exists i|].
  intros j k k' Hk Hk'. destruct (decide (j = ino)) as [->|].
  - rewrite lookup_insert_eq in Hk'. simplify_eq. do 3 (split; [done|]). intros m Hm.
    rewrite Hb by done. destruct (ino =? 0), (Z.leb_spec 0 m), (Z.ltb_spec m (0 + 0)); simpl; lia || done.
  - rewrite lookup_insert_ne in Hk' by done. simplify_eq. do 3 (split; [done|]). intros m Hm.
    destruct (j =? 0), (Z.leb_spec 0 m), (Z.ltb_spec m (0 + 0)); simpl; lia || done.
Qed.

Lemma file_byte_blocks d i i' m :
  (fblock d i' (m / SFS_BLOCKSIZE) = fblock d i (m / SFS_BLOCKSIZE) \/
   fblock d i (m / SFS_BLOCKSIZE) = 0 /\ d (fblock d i' (m / SFS_BLOCKSIZE)) = zero_block) ->
  file_byte d i' m = file_byte d i m.
Proof.
  unfold file_byte. intros [->|[-> Hz]]; [done|]. change (0 =? 0) with true. cbn iota.
  destruct (_ =? 0); [done|]. rewrite Hz. apply nth0_zero.
Qed.

(** The vnode table entry after [inode_modify]. *)
Lemma inode_modify_eq p f s sv : s_svs s !! p = Some sv ->
  inode_modify p f s =
    (Ret tt, with_svs (<[p := set_dirty true (set_inode (f (sv_i sv)) sv)]> (s_svs s)) s).
Proof. intros Hp. unfold inode_modify, sv_modify. by rewrite Hp. Qed.

Lemma kept_set_inode p s sv i' : s_svs s !! p = Some sv ->
  kept p s (with_svs (<[p := set_dirty true (set_inode i' sv)]> (s_svs s)) s).
Proof.
  intros Hp. split; try done; unfold with_svs; simpl.
  - intros q Hq. by rewrite lookup_insert_ne.
  - intros sv' Hsv'. simplify_eq. eexists. by rewrite lookup_insert_eq.
Qed.

(** A fresh block [b] is given to the inode at [p], which reads the same with it. *)
Lemma attach_runs s I O p sv b o i' : fs_rep s I O -> s_svs s !! p = Some sv ->
  O !! b = None -> usable (nblocks s) b -> marked (s_freemap s) b = true ->
  inode_good (dk s) (<[b := o]> O) (sv_ino sv) i' ->
  sfi_type i' = sfi_type (sv_i sv) -> sfi_linkcount i' = sfi_linkcount (sv_i sv) ->
  sfi_size i' = sfi_size (sv_i sv) ->
  (forall m, 0 <= m < MAXBLOCKS * SFS_BLOCKSIZE -> file_byte (dk s) i' m = file_byte (dk s) (sv_i sv) m) ->
  let s' := with_svs (<[p := set_dirty true (set_inode i' sv)]> (s_svs s)) s in
  fs_rep s' (<[sv_ino sv := i']> I) (<[b := o]> O) /\
  same_files (dk s) I (dk s') (<[sv_ino sv := i']> I) /\ kept p s s'.
Proof.
  intros Hr Hp Hob Hu Hm Hg Ht Hl Hsz Hby s'. split; [|split].
  - apply (rep_set_inode _ _ O); try done.
    + by apply insert_subseteq.
    + intros c o' Hc. destruct (decide (c = b)) as [->|]; [done|].
      rewrite lookup_insert_ne in Hc by done. by apply (rep_owned _ _ _ Hr) in Hc.
  - apply (same_files_insert _ _ _ (sv_i sv)); try done. by eapply rep_at.
  - by apply kept_set_inode.
Qed.


Lemma rep_words s I O ino i : fs_rep s I O -> I !! ino = Some i -> sfi_indirect i <> 0 ->
  length (words_of (dk s (sfi_indirect i))) = 128%nat /\
  Forall word32 (words_of (dk s (sfi_indirect i))).
Proof.
  intros Hr Hi Hz. pose proof (ig_indirect _ _ _ _ (rep_inode _ _ _ Hr _ _ Hi) Hz) as Ho.
  destruct (rep_block _ _ _ _ _ Hr Ho) as (_ & [Hb _] & _).
  destruct (dblock_len (s_dev s) _ (rep_dev _ _ _ Hr) Hb) as [Hl Hy].
  split; [by apply length_words_of|by apply (words_of_range 128)].
Qed.

(** *** Filling in an entry of an indirect block *)

Section entry.
Variables (s : sfs U D H) (I : gmap Z sfs_inode) (O : gmap Z owner) (p b j : Z) (sv : sfs_vnode) (d' : D).
Let ino := sv_ino sv.
Let i := sv_i sv.
Let ib := sfi_indirect i.
Let O' := <[b := OData ino (SFS_NDIRECT + j)]> O.
Hypotheses (Hr : fs_rep s I O) (Hp : s_svs s !! p = Some sv) (Hz : ib <> 0)
  (Hj : 0 <= j < SFS_DBPERIDB) (Hob : O !! b = None) (Hu : usable (nblocks s) b)
  (Hm : marked (s_freemap s) b = true) (Hfb : fblock (dk s) i (SFS_NDIRECT + j) = 0)
  (Hzb : dk s b = zero_block)
  (Hd : dev_now (fun c => if c =? ib then bytes_of (<[Z.to_nat j := b]> (words_of (dk s ib)))
                          else dk s c) (s_dev s) d').

Lemma entry_range c o : O !! c = Some o -> 0 <= c < d_blocks (s_dev s).
Proof. intros Ho. destruct (rep_block _ _ _ _ _ Hr Ho) as (_ & [? _] & _). done. Qed.

Lemma entry_ib : O !! ib = Some (OIndirect ino).
Proof. by apply (ig_indirect _ _ _ _ (rep_good _ _ _ _ _ Hr Hp)). Qed.

Lemma entry_same c o : O !! c = Some o -> o <> OIndirect ino -> dblock d' c = dk s c.
Proof.
  intros Ho Hne. destruct Hd as (_ & _ & _ & Hdc). rewrite Hdc by (by eapply entry_range).
  destruct (Z.eqb_spec c ib) as [->|]; [|done]. pose proof entry_ib. congruence.
Qed.

Lemma entry_zero : dblock d' b = zero_block.
Proof.
  destruct Hd as (_ & _ & _ & Hdc). pose proof (rep_nblocks _ _ _ Hr) as [? ?].
  pose proof (usable_range _ _ Hu ltac:(lia)). rewrite Hdc by lia.
  destruct (Z.eqb_spec b ib) as [->|]; [|done]. pose proof entry_ib. congruence.
Qed.

Lemma entry_fblock k : 0 <= k ->
  fblock (dblock d') i k = if k =? SFS_NDIRECT + j then b else fblock (dk s) i k.
Proof.
  intros Hk. destruct Hd as (_ & _ & _ & Hdc).
  pose proof (rep_words _ _ _ _ _ Hr (rep_at _ _ _ _ _ Hr Hp) Hz) as [Hlw _].
  unfold fblock. fold ib. unfold SFS_DBPERIDB, SFS_NDIRECT in *. zbool.
  destruct (Z.ltb_spec k 15); [by zbool|].
  rewrite Hdc, Z.eqb_refl, words_of_bytes_of by (eapply entry_range, entry_ib).
  rewrite nth0_insert by (unfold ib, i; rewrite ?Hlw; lia).
  destruct (Z.eqb_spec (k - 15) j), (Z.eqb_spec k (15 + j)); lia || done.
Qed.

Lemma entry_other j' i' : I !! j' = Some i' -> j' <> ino -> sfi_indirect i' <> 0 ->
  dblock d' (sfi_indirect i') = dk s (sfi_indirect i').
Proof.
  intros Hi' Hne Hnz. pose proof (rep_inode _ _ _ Hr _ _ Hi') as Hg'.
  apply (entry_same _ (OIndirect j')); [by apply (ig_indirect _ _ _ _ Hg')|congruence].
Qed.

Lemma entry_inode j' i' : I !! j' = Some i' -> dblock d' j' = dk s j'.
Proof.
  intros Hi'. apply (entry_same _ OInode); [|done].
  apply (ig_self _ _ _ _ (rep_inode _ _ _ Hr _ _ Hi')).
Qed.

Lemma entry_reserved : same_reserved s d'.
Proof.
  intros c Hc Hnu. destruct Hd as (_ & _ & _ & Hdc). pose proof (rep_nblocks _ _ _ Hr).
  rewrite Hdc by lia. destruct (Z.eqb_spec c ib) as [->|]; [|done].
  by destruct (rep_owned _ _ _ Hr _ _ entry_ib).
Qed.

Lemma entry_rep : fs_rep (with_io (s_thread s, d') s) I O'.
Proof.
  assert (O ⊆ O') as Hsub by (by apply insert_subseteq).
  pose proof (rep_at _ _ _ _ _ Hr Hp) as Hi. fold ino i in Hi.
  pose proof Hr as [? ? ? ? ? ? Hmt ? Hown Hin Hlo ? Hul]. destruct Hd as (? & Hdn & _ & Hdc).
  pose proof (meta_io s (s_thread s) d' Hmt entry_reserved) as Hmt'.
  split; try done; unfold dk, nblocks, with_io in *; simpl in *.
  - by rewrite Hdn.
  - intros c o Hc. destruct (decide (c = b)) as [->|]; [done|].
    unfold O' in Hc. rewrite lookup_insert_ne in Hc by done. by apply Hown in Hc.
  - intros j' i' Hi'. destruct (decide (j' = ino)) as [->|].
    + simplify_eq. destruct (Hin _ _ Hi) as [? ? Hself _ Hdat]. split; [done|done|..].
      * by eapply lookup_weaken.
      * intros _. eapply lookup_weaken; [apply entry_ib|done].
      * intros k Hk. rewrite entry_fblock by lia.
        destruct (Z.eqb_spec k (SFS_NDIRECT + j)) as [->|]; [by unfold O'; rewrite lookup_insert_eq|].
        intros Hnz. eapply lookup_weaken; [by apply Hdat|done].
    + eapply good_mono; [done| |by apply Hin]. by eapply entry_other.
  - intros q sw Hq. destruct (Hlo _ _ Hq) as [Hiq Hcl]. split; [done|].
    intros Hc. rewrite (entry_inode _ _ Hiq). by apply Hcl.
  - intros j' i' Hi' Hne. rewrite (entry_inode _ _ Hi'). by apply Hul.
Qed.

Lemma entry_files : same_files (dk s) I (dblock d') I.
Proof.
  apply same_files_intro. intros j' i1 Hi1 m Hm'.
  pose proof (block_range _ Hm') as Hk. pose proof (rep_inode _ _ _ Hr _ _ Hi1) as Hg1.
  assert (fblock (dk s) i1 (m / SFS_BLOCKSIZE) <> 0 ->
    dblock d' (fblock (dk s) i1 (m / SFS_BLOCKSIZE)) = dk s (fblock (dk s) i1 (m / SFS_BLOCKSIZE))) as Hdata.
  { intros Hnz. eapply entry_same; [by apply (ig_data _ _ _ _ Hg1)|done]. }
  destruct (decide (j' = ino)) as [->|]; [|apply file_byte_ext; [by eapply entry_other|done]].
  pose proof (rep_at _ _ _ _ _ Hr Hp) as Hi. fold ino i in Hi. assert (i1 = i) as -> by congruence.
  unfold file_byte. rewrite entry_fblock by lia.
  destruct (Z.eqb_spec (m / SFS_BLOCKSIZE) (SFS_NDIRECT + j)) as [E|].
  - rewrite E, Hfb. change (0 =? 0) with true. cbn iota. destruct (b =? 0); [done|].
    rewrite entry_zero. apply nth0_zero.
  - destruct (Z.eqb_spec (fblock (dk s) i (m / SFS_BLOCKSIZE)) 0); [done|]. by rewrite Hdata.
Qed.

End entry.

(** *** The block map *)

(** No file changed from [s] to [s'], which represents [I'] and [O']. *)
Definition stepped p s I s' I' O' : Prop :=
  fs_rep s' I' O' /\ same_files (dk s) I (dk s') I' /\ kept p s s' /\ s_thread s' = s_thread s.

Lemma stepped_refl p s I O : fs_rep s I O -> stepped p s I s I O.
Proof. intros Hr. split; [done|]. split; [apply same_files_refl|]. split; [apply kept_refl|done]. Qed.

Lemma stepped_trans p s I s1 I1 O1 s2 I2 O2 :
  stepped p s I s1 I1 O1 -> stepped p s1 I1 s2 I2 O2 -> stepped p s I s2 I2 O2.
Proof.
  intros (_ & ? & ? & ?) (? & ? & ? & ?). split; [done|]. split; [by eapply same_files_trans|].
  split; [by eapply kept_trans|congruence].
Qed.

(** [b] is the block that holds block [k] of the file; a lookup without
    allocation leaves everything as it was. *)
Definition mapped p k (doalloc : bool) s I O (b : Z) s' : Prop :=
  exists I' O' sv', stepped p s I s' I' O' /\ s_svs s' !! p = Some sv' /\
    fblock (dk s') (sv_i sv') k = b /\
    if doalloc then b <> 0
    else I' = I /\ O' = O /\ s_svs s' = s_svs s /\
      forall c, 0 <= c < d_blocks (s_dev s) -> dk s' c = dk s c.

Definition no_room p (doalloc : bool) s I (e : Z) s' : Prop :=
  doalloc = true /\ e = ENOSPC /\ full s' /\ exists I' O', stepped p s I s' I' O'.

Lemma mapped_after p k s I s1 I1 O1 b s' :
  stepped p s I s1 I1 O1 -> mapped p k true s1 I1 O1 b s' -> forall O, mapped p k true s I O b s'.
Proof.
  intros Hst (I' & O' & sv' & Hst' & ? & ? & ?) O. exists I', O', sv'.
  split; [by eapply stepped_trans|done].
Qed.

Lemma mapped_quiet p k doalloc s I O s1 b s' :
  stepped p s I s1 I O -> s_svs s1 = s_svs s ->
  (forall c, 0 <= c < d_blocks (s_dev s) -> dk s1 c = dk s c) ->
  mapped p k doalloc s1 I O b s' -> mapped p k doalloc s I O b s'.
Proof.
  intros Hst Hsv Hdk (I' & O' & sv' & Hst' & ? & ? & Hq). exists I', O', sv'.
  split; [by eapply stepped_trans|]. split; [done|]. split; [done|].
  destruct doalloc; [done|]. destruct Hq as (? & ? & ? & Hc). split; [done|]. split; [done|].
  split; [congruence|]. intros c Hcr. destruct Hst as (_ & _ & Hk & _).
  rewrite Hc, Hdk; [done..|]. by rewrite (proj1 (kp_dev _ _ _ Hk)).
Qed.

Lemma no_room_after p doalloc s I s1 I1 O1 e s' :
  stepped p s I s1 I1 O1 -> no_room p doalloc s1 I1 e s' -> no_room p doalloc s I e s'.
Proof.
  intros Hst (? & ? & ? & I' & O' & Hst'). do 3 (split; [done|]).
  exists I', O'. by eapply stepped_trans.
Qed.

(** The block found is in the map already. *)
Lemma mapped_found p k (doalloc : bool) s I O sv b E : fs_rep s I O -> s_svs s !! p = Some sv ->
  0 <= k < MAXBLOCKS -> fblock (dk s) (sv_i sv) k = b -> (doalloc = true -> b <> 0) ->
  runs (check_used b) s (mapped p k doalloc s I O) E.
Proof.
  intros Hr Hp Hk Hb Hd. eapply runs_intro_ret.
  - eapply (check_used_eq _ I O); [done|]. intros Hz. eexists. rewrite <- Hb in Hz |- *.
    by eapply rep_fblock; [|by eapply rep_at|..].
  - exists I, O, sv. split; [by apply stepped_refl|]. split; [done|]. split; [done|].
    destruct doalloc; [by apply Hd|done].
Qed.

Lemma usable_word s I O b : fs_rep s I O -> usable (nblocks s) b -> word32 b /\ b <> 0.
Proof.
  intros Hr Hu. destruct (rep_nblocks _ _ _ Hr) as [? ?].
  pose proof (usable_range _ _ Hu ltac:(lia)). unfold word32. lia.
Qed.

Lemma bmap_direct_runs p k doalloc s I O sv : fs_rep s I O -> s_svs s !! p = Some sv ->
  0 <= k < SFS_NDIRECT ->
  runs (bmap_direct p k doalloc) s (mapped p k doalloc s I O) (no_room p doalloc s I).
Proof.
  intros Hr Hp Hk. unfold SFS_NDIRECT in Hk.
  assert (0 <= k < MAXBLOCKS) as Hk' by (unfold MAXBLOCKS, SFS_NDIRECT, SFS_DBPERIDB; lia).
  unfold bmap_direct. apply runs_bind. eapply runs_intro_ret; [unfold sv_get; by rewrite Hp|].
  set (b := nth (Z.to_nat k) (sfi_direct (sv_i sv)) 0).
  assert (fblock (dk s) (sv_i sv) k = b) as Hb by (unfold fblock, SFS_NDIRECT; by zbool).
  destruct (Z.eqb_spec b 0) as [E|E]; [destruct doalloc|]; simpl; run;
    try by eapply mapped_found.
  eapply runs_mono; [by apply balloc_runs|..].
  2:{ intros e s' (-> & Hf & ->). do 3 (split; [done|]). exists I, O. by apply stepped_refl. }
  intros nb s1 (Hr1 & Hs1 & Hk1 & Ht1 & Hsv1 & Hob & Hu & Hm & Hz & Hd). run.
  rewrite <- Hsv1 in Hp. eapply runs_intro_ret; [by apply inode_modify_eq|].
  pose proof (rep_good _ _ _ _ _ Hr1 Hp) as Hg.
  assert (usable (nblocks s1) nb) as Hu1 by (unfold nblocks in *; by rewrite (kp_super _ _ _ (Hk1 p))).
  destruct (usable_word _ _ _ _ Hr1 Hu1) as [Hw Hnz].
  assert (fblock (dk s1) (sv_i sv) k = 0) as Hf0 by (unfold fblock, SFS_NDIRECT in *; by zbool; zbool_in Hb).
  assert (forall m, 0 <= m -> fblock (dk s1) (set_direct k nb (sv_i sv)) m =
    if m =? k then nb else fblock (dk s1) (sv_i sv) m) as Hfb.
  { intros m Hm0. apply fblock_set_direct; [apply Hg|lia|lia]. }
  destruct (attach_runs s1 I O p sv nb (OData (sv_ino sv) k) (set_direct k nb (sv_i sv)))
    as (Hr2 & Hs2 & Hk2); try done; [by apply good_set_direct| |].
  { intros m Hm0. apply file_byte_blocks. apply block_range in Hm0. rewrite Hfb by lia.
    destruct (Z.eqb_spec (m / SFS_BLOCKSIZE) k) as [->|]; [by right|by left]. }
  set (s2 := with_svs _ s1) in *. run.
  eapply runs_mono; [eapply (mapped_found p k true s2); [done|by apply lookup_insert_eq|done| |done]|..].
  - simpl. change (dk s2) with (dk s1). rewrite Hfb by lia. by rewrite Z.eqb_refl.
  - intros b' s' Hmp. eapply mapped_after; [|done]. eapply stepped_trans; [|by split].
    by split_and!.
  - intros e s' Hn. eapply no_room_after; [|done]. eapply stepped_trans; [|by split].
    by split_and!.
Qed.

Lemma bmap_entry_runs p j doalloc s I O sv : fs_rep s I O -> s_svs s !! p = Some sv ->
  sfi_indirect (sv_i sv) <> 0 -> 0 <= j < SFS_DBPERIDB ->
  runs (bmap_entry (sfi_indirect (sv_i sv)) (words_of (dk s (sfi_indirect (sv_i sv)))) j doalloc) s
    (mapped p (SFS_NDIRECT + j) doalloc s I O) (no_room p doalloc s I).
Proof.
  intros Hr Hp Hz Hj. set (ib := sfi_indirect (sv_i sv)) in *.
  assert (0 <= SFS_NDIRECT + j < MAXBLOCKS) as Hk' by (unfold MAXBLOCKS, SFS_NDIRECT, SFS_DBPERIDB in *; lia).
  assert (forall d, fblock d (sv_i sv) (SFS_NDIRECT + j) = nth0 (words_of (d ib)) j) as Hfb.
  { intros d. unfold fblock, SFS_NDIRECT, SFS_DBPERIDB in *. fold ib. zbool. f_equal. lia. }
  unfold bmap_entry. fold (nth0 (words_of (dk s ib)) j). rewrite <- Hfb.
  destruct (Z.eqb_spec (fblock (dk s) (sv_i sv) (SFS_NDIRECT + j)) 0) as [E|E];
    [destruct doalloc|]; simpl; run; try by eapply mapped_found.
  eapply runs_mono; [by apply balloc_runs|..].
  2:{ intros e s' (-> & Hf & ->). do 3 (split; [done|]). exists I, O. by apply stepped_refl. }
  intros nb s1 (Hr1 & Hs1 & Hk1 & Ht1 & Hsv1 & Hob & Hu & Hm & Hzb & Hd). run. apply runs_zoom.
  pose proof Hp as Hp0. rewrite <- Hsv1 in Hp.
  assert (usable (nblocks s1) nb) as Hu1 by (unfold nblocks in *; by rewrite (kp_super _ _ _ (Hk1 p))).
  destruct (usable_word _ _ _ _ Hr1 Hu1) as [Hw Hnz].
  pose proof (ig_indirect _ _ _ _ (rep_good _ _ _ _ _ Hr1 Hp) Hz) as Hib. fold ib in Hib.
  assert (dk s1 ib = dk s ib) as Hsame.
  { apply Hd; [|congruence]. destruct (rep_block _ _ _ _ _ Hr Hib) as (_ & [? _] & _). done. }
  pose proof (rep_words _ _ _ _ _ Hr1 (rep_at _ _ _ _ _ Hr1 Hp) Hz) as [Hlw Hww]. fold ib in Hlw, Hww.
  rewrite <- Hsame.
  eapply runs_mono; [apply sfs_wblock_runs; [apply Hr1|apply Hr1|apply Hr1|..]| |done].
  { by destruct (rep_block _ _ _ _ _ Hr1 Hib) as (_ & ? & _). }
  { by rewrite length_bytes_of, length_insert, Hlw. }
  { by apply bytes_of_range, Forall_insert. }
  intros [] [t' d'] [-> Hd']. set (s2 := with_io _ s1). run.
  assert (fblock (dk s1) (sv_i sv) (SFS_NDIRECT + j) = 0) as Hf0 by (by rewrite Hfb, Hsame, <- Hfb).
  assert (stepped p s1 I s2 I (<[nb := OData (sv_ino sv) (SFS_NDIRECT + j)]> O)) as Hst2.
  { split; [by apply (entry_rep s1 I O p)|]. split; [by apply (entry_files s1 I O p nb j sv)|].
    split; [|done]. destruct Hd' as (_ & ? & ? & _). split; try done. intros sv' ?. by exists sv'. }
  assert (stepped p s I s1 I O) as Hst1 by (by split_and!).
  eapply runs_mono; [eapply (mapped_found p _ true s2); [apply Hst2|done|done| |done]|..].
  - change (dk s2) with (dblock d'). rewrite (entry_fblock s1 I O p nb j sv) by (done || lia).
    by rewrite Z.eqb_refl.
  - intros b' s' Hmp. eapply mapped_after; [|done]. by eapply stepped_trans.
  - intros e s' Hn. eapply no_room_after; [|done]. by eapply stepped_trans.
Qed.

(** A fresh, empty indirect block. *)
Lemma grow_indirect p s I O sv : fs_rep s I O -> s_svs s !! p = Some sv ->
  sfi_indirect (sv_i sv) = 0 ->
  runs (idblock <- sfs_balloc ;; inode_modify p (set_indirect idblock) ;;;
        ret (idblock, replicate (Z.to_nat SFS_DBPERIDB) 0)) s
    (fun r s' => exists I' O' sv', stepped p s I s' I' O' /\ s_svs s' !! p = Some sv' /\
       sfi_indirect (sv_i sv') <> 0 /\
       r = (sfi_indirect (sv_i sv'), words_of (dk s' (sfi_indirect (sv_i sv')))))
    (no_room p true s I).
Proof.
  intros Hr Hp Hz. run. eapply runs_mono; [by apply balloc_runs|..].
  2:{ intros e s' (-> & Hf & ->). do 3 (split; [done|]). exists I, O. by apply stepped_refl. }
  intros nb s1 (Hr1 & Hs1 & Hk1 & Ht1 & Hsv1 & Hob & Hu & Hm & Hzb & Hd). run.
  rewrite <- Hsv1 in Hp. eapply runs_intro_ret; [by apply inode_modify_eq|]. run.
  assert (usable (nblocks s1) nb) as Hu1 by (unfold nblocks in *; by rewrite (kp_super _ _ _ (Hk1 p))).
  destruct (usable_word _ _ _ _ Hr1 Hu1) as [Hw Hnz].
  destruct (attach_runs s1 I O p sv nb (OIndirect (sv_ino sv)) (set_indirect nb (sv_i sv)))
    as (Hr2 & Hs2 & Hk2); try done.
  { apply good_set_indirect; try done. by eapply rep_good. }
  { intros m Hm0. apply file_byte_blocks. left. by apply fblock_set_indirect. }
  set (s2 := with_svs _ s1) in *.
  exists (<[sv_ino sv := set_indirect nb (sv_i sv)]> I), (<[nb := OIndirect (sv_ino sv)]> O).
  eexists. split; [|split; [apply lookup_insert_eq|split; [done|]]].
  - eapply stepped_trans; [|by split]. by split_and!.
  - simpl. change (dk s2) with (dk s1). by rewrite Hzb, words_of_zero_block.
Qed.

Lemma sfs_bmap_spec p k doalloc s I O sv : fs_rep s I O -> s_svs s !! p = Some sv -> 0 <= k ->
  runs (sfs_bmap p k doalloc) s
    (fun b s' => k < MAXBLOCKS /\ mapped p k doalloc s I O b s')
    (fun e s' => (MAXBLOCKS <= k /\ e = EINVAL /\ s' = s) \/
                 (k < MAXBLOCKS /\ no_room p doalloc s I e s')).
Proof.
  intros Hr Hp Hk. unfold sfs_bmap. destruct (Z.ltb_spec k SFS_NDIRECT) as [Hd|Hd].
  { assert (k < MAXBLOCKS) by (unfold MAXBLOCKS, SFS_NDIRECT, SFS_DBPERIDB in *; lia).
    eapply runs_mono; [by eapply bmap_direct_runs|by split|by right]. }
  unfold MAXBLOCKS, SFS_NDIRECT, SFS_DBPERIDB in *. destruct (decide (143 <= k)) as [Hbig|Hsm].
  { assert (0 < (k - 15) / 128) by (apply Z.div_str_pos; lia). zbool. run. left. conj. }
  rewrite Z.div_small, Z.mod_small by lia. change (0 >? 0) with false. cbn iota.
  apply runs_bind. eapply runs_intro_ret; [unfold sv_get; by rewrite Hp|].
  set (ib := sfi_indirect (sv_i sv)).
  destruct (Z.eqb_spec ib 0) as [E|E]; [destruct doalloc; simpl|].
  - apply runs_bind. eapply runs_mono; [by eapply grow_indirect| |intros; right; split; [lia|done]].
    intros r s1 (I1 & O1 & sv1 & Hst & Hp1 & Hz1 & ->).
    eapply runs_mono; [apply (bmap_entry_runs p (k - 15) true s1 I1 O1 sv1); try done; [apply Hst|]|..].
    + unfold SFS_DBPERIDB. lia.
    + intros b s' Hmp. unfold SFS_NDIRECT in Hmp. replace (15 + (k - 15)) with k in Hmp by lia.
      split; [lia|]. by eapply mapped_after.
    + intros e s' Hn. right. split; [lia|]. by eapply no_room_after.
  - run. split; [lia|]. exists I, O, sv. split; [by apply stepped_refl|]. split; [done|].
    split; [|done]. unfold fblock, SFS_NDIRECT. fold ib. by zbool.
  - cbn [andb]. cbn iota. run. eapply runs_mono; [eapply rblock_runs; [done|]| |done].
    { apply (rep_block _ _ _ _ (OIndirect (sv_ino sv)) Hr).
      by apply (ig_indirect _ _ _ _ (rep_good _ _ _ _ _ Hr Hp)). }
    intros bs s1 (-> & Hr1 & Hs1 & (d' & Hio) & Hk1 & Hd1). run.
    assert (stepped p s I s1 I O) as Hst by (rewrite Hio in *; by split_and!).
    assert (s_svs s1 = s_svs s) as Hsv by (by rewrite Hio).
    assert (dk s1 ib = dk s ib) as Hsame.
    { apply Hd1. apply (rep_block _ _ _ _ (OIndirect (sv_ino sv)) Hr).
      by apply (ig_indirect _ _ _ _ (rep_good _ _ _ _ _ Hr Hp)). }
    rewrite <- Hsame. rewrite <- Hsv in Hp.
    eapply runs_mono; [apply (bmap_entry_runs p (k - 15) doalloc s1 I O sv); try done|..].
    + unfold SFS_DBPERIDB. lia.
    + intros b s' Hmp. unfold SFS_NDIRECT in Hmp. replace (15 + (k - 15)) with k in Hmp by lia.
      split; [lia|]. by eapply mapped_quiet.
    + intros e s' Hn. right. split; [lia|]. by eapply no_room_after.
Qed.

(** A block that the file has already is found without allocating. *)
Lemma bmap_found_eq p k s I O sv : fs_rep s I O -> s_svs s !! p = Some sv -> 0 <= k < MAXBLOCKS ->
  fblock (dk s) (sv_i sv) k <> 0 -> sfs_bmap p k true s = sfs_bmap p k false s.
Proof.
  intros Hr Hp Hk Hz. pose proof (rep_good _ _ _ _ _ Hr Hp) as Hg.
  unfold sfs_bmap. unfold fblock in Hz. destruct (k <? SFS_NDIRECT) eqn:Ek.
  { unfold bmap_direct, bind. unfold sv_get. rewrite Hp. unfold nth0 in Hz.
    by rewrite (proj2 (Z.eqb_neq _ _) Hz). }
  destruct (_ >? 0); [done|]. unfold bind, sv_get. rewrite Hp.
  destruct (Z.eqb_spec (sfi_indirect (sv_i sv)) 0) as [|Hi]; [done|]. cbn [andb].
  pose proof (ig_indirect _ _ _ _ Hg Hi) as Ho. destruct (rep_block _ _ _ _ _ Hr Ho) as (_ & Ha & _).
  destruct (runs_elim _ _ _ _ (rblock_runs s I O (sfi_indirect (sv_i sv)) Hr Ha))
    as [(bs & s1 & -> & -> & _)|(? & ? & _ & [])]. unfold ret, bmap_entry, bind.
  unfold nth0 in Hz. replace ((k - SFS_NDIRECT) mod SFS_DBPERIDB) with (k - SFS_NDIRECT).
  2:{ symmetry. apply Z.mod_small. unfold MAXBLOCKS, SFS_NDIRECT, SFS_DBPERIDB in *. lia. }
  by rewrite (proj2 (Z.eqb_neq _ _) Hz).
Qed.

Lemma bmap_found p k s I O sv : fs_rep s I O -> s_svs s !! p = Some sv -> 0 <= k < MAXBLOCKS ->
  fblock (dk s) (sv_i sv) k <> 0 ->
  runs (sfs_bmap p k true) s (fun b s' => k < MAXBLOCKS /\ mapped p k true s I O b s') (fun _ _ => False).
Proof.
  intros Hr Hp Hk Hz. eapply runs_eq; [by eapply bmap_found_eq|].
  eapply runs_mono; [eapply (sfs_bmap_spec p k false s I O sv); try done; lia|..].
  - intros b s' (_ & I' & O' & sv' & Hst & Hp' & Hb & -> & -> & Hsv & Hd). split; [lia|].
    exists I, O, sv'. split_and!; try done. rewrite Hsv in Hp'. simplify_eq.
    rewrite (fblock_ext (dk s)); [done|]. intros Hi. apply Hd.
    by destruct (rep_block _ _ _ _ _ Hr (ig_indirect _ _ _ _ (rep_good _ _ _ _ _ Hr Hp) Hi)) as (_ & [? _] & _).
  - intros e s' [(? & _)|(_ & ? & _)]; [lia|done].
Qed.

End bmap.

(** ** Theorems *)

(** C18: the block map of an inode is total and safe.  [sfs_bmap] answers the disk
    block that holds block [k] of the file, 0 only for a hole when it was not
    asked to allocate; with allocation the block is one no other file, inode or
    indirect block uses.  It never panics, and no file changes.  It fails only
    past the largest file (EINVAL, nothing changed) and when it has to allocate
    with every block in use (ENOSPC). *)
Theorem sfs_bmap_correct {U D H : Type} `{BlockDevLaws U D} p k doalloc (s : sfs U D H) I O sv :
  fs_rep s I O -> s_svs s !! p = Some sv -> 0 <= k ->
  runs (sfs_bmap p k doalloc) s
    (fun b s' => k < MAXBLOCKS /\ mapped p k doalloc s I O b s')
    (fun e s' => (MAXBLOCKS <= k /\ e = EINVAL /\ s' = s) \/
                 (k < MAXBLOCKS /\ no_room p doalloc s I e s')).
Proof. intros. by eapply sfs_bmap_spec. Qed.

Lemma sfs_bmap_correct_witness :
  runs (sfs_bmap 2000 16 true) (sample tt)
    (fun b s' => 16 < MAXBLOCKS /\ mapped 2000 16 true (sample tt) sample_I sample_O b s')
    (fun e s' => (MAXBLOCKS <= 16 /\ e = EINVAL /\ s' = sample tt) \/
                 (16 < MAXBLOCKS /\ no_room 2000 true (sample tt) sample_I e s')).
Proof. by apply (sfs_bmap_correct 2000 16 true (sample tt) sample_I sample_O file_sv); [apply sample_rep|..]. Defined.
