(* ===== verification/SfsIo.v ===== *)
(** The SFS file system: reading and writing a file (sfs_partialio, sfs_blockio
    and sfs_io of kern/fs/sfs/sfs_vnode.c).

    [io_done p ino n]: [n] bytes went between the region of the uio and file
    [ino], and no other file changed; [io_failed]: the transfer stopped after a
    part of them. *)

From Stdlib Require Import ZArith Lia.
From stdpp Require Import prelude gmap list.
From S2P Require Import Prelude Heap Array Bitmap SynchObj Vnode Pages Copy Uio Device Lhd SfsDisk SfsFile SfsRep SfsSample SfsBmap.
Import Flat SimCard.

#[local] Arguments replicate : simpl never.

(** Largest size of a file, in bytes. *)
Definition FILE_LIMIT : Z := MAXBLOCKS * SFS_BLOCKSIZE.

Section io.
Context {U D H : Type} `{BlockDevLaws U D}.
Implicit Types (s : sfs U D H) (I : gmap Z sfs_inode) (O : gmap Z owner) (x : uio * sfs U D H).

(** The uio with the thread it belongs to. *)
Definition xu x : uio * uthread U := (x.1, s_thread x.2).

(** [n] bytes of file [i] from [off]. *)
Definition file_bytes s (i : sfs_inode) (off n : Z) : list Z :=
  map (file_byte (dk s) i) (seqZ off n).

(** What a write takes byte [m] of the file from. *)
Definition source x (m : Z) : Z := space (xu x) (iov_base x.1 + (m - uio_offset x.1)).

(** The file system afterwards. *)
Definition fs_after p (sv : sfs_vnode) n x I x' I' O' : Prop :=
  fs_rep x'.2 I' O' /\ kept p x.2 x'.2 /\
  match uio_rw x.1 with
  | UIO_READ => I' = I /\ s_svs x'.2 = s_svs x.2 /\ same_files (dk x.2) I (dk x'.2) I
  | UIO_WRITE => space_same (xu x) (xu x') /\ (0 < n -> uio_offset x.1 + n <= FILE_LIMIT) /\
      wrote_files (sv_ino sv) (uio_offset x.1) n (source x) (dk x.2) I (dk x'.2) I'
  end.

Definition io_done p sv n x I x' I' O' : Prop :=
  moved n (xu x) (xu x') /\ uio_ok (xu x') /\ (0 < n -> uio_offset x.1 + n <= FILE_LIMIT) /\
  fs_after p sv n x I x' I' O' /\
  (uio_rw x.1 = UIO_READ -> space_put (file_bytes x.2 (sv_i sv) (uio_offset x.1) n) (xu x) (xu x')).

(** Reasons for which a transfer of [n] bytes can stop. *)
Definition io_error n x (e : Z) x' : Prop :=
  (e = EFAULT /\ is_user x.1 = true) \/
  (e = ENOSPC /\ uio_rw x.1 = UIO_WRITE /\ full x'.2) \/
  (e = EINVAL /\ FILE_LIMIT < uio_offset x.1 + n).

(** A write stops at a block boundary. *)
Definition stops_at (off n m : Z) : Prop := m = 0 \/ m < n /\ (off + m) mod SFS_BLOCKSIZE = 0.

Definition io_failed p sv n x I e x' I' O' : Prop :=
  io_error n x e x' /\ uio_ok (xu x') /\
  exists m, 0 <= m <= n /\ moved m (xu x) (xu x') /\ fs_after p sv m x I x' I' O' /\
  (uio_rw x.1 = UIO_WRITE -> stops_at (uio_offset x.1) n m) /\
  forall a, ~ (uio_rw x.1 = UIO_READ /\ iov_base x.1 <= a < iov_base x.1 + n) ->
    space (xu x') a = space (xu x) a.

(** *** One block *)

(** Block [b], which holds block [k] of the file, now holds [data]. *)
Lemma rep_wrote s I O p sv k b data (t' : uthread U) (d' : D) :
  fs_rep s I O -> s_svs s !! p = Some sv -> 0 <= k < MAXBLOCKS ->
  fblock (dk s) (sv_i sv) k = b -> b <> 0 -> umem_ok (umem t') -> badfault t' = false ->
  dev_now (fun c => if c =? b then data else dk s c) (s_dev s) d' ->
  let s' := with_io (t', d') s in
  fs_rep s' I O /\ kept p s s' /\
  forall j i, I !! j = Some i -> forall m, 0 <= m < FILE_LIMIT ->
    file_byte (dk s') i m = if (j =? sv_ino sv) && (m / SFS_BLOCKSIZE =? k)
                            then nth0 data (m mod SFS_BLOCKSIZE) else file_byte (dk s) i m.
Proof.
  intros Hr Hp Hk Hb Hnz Ht Hbf (Hd & Hn & Hz & Hc) s'. pose proof (rep_at _ _ _ _ _ Hr Hp) as Hi.
  assert (forall c o, O !! c = Some o -> dblock d' c = if c =? b then data else dk s c) as Hdk.
  { intros c o Ho. apply Hc. by destruct (rep_block _ _ _ _ _ Hr Ho) as (_ & [? _] & _). }
  split; [|split].
  - assert (O !! b = Some (OData (sv_ino sv) k)) as Hob.
    { rewrite <- Hb. eapply rep_fblock; try done. congruence. }
    eapply rep_write; try done. intros c Hcr Hnu. pose proof (rep_nblocks _ _ _ Hr).
    rewrite Hc by lia. destruct (Z.eqb_spec c b) as [->|]; [|done].
    by destruct (rep_owned _ _ _ Hr _ _ Hob).
  - split; try done. intros sv' ?. by exists sv'.
  - intros j i Hj m Hm. by eapply rep_write_files.
Qed.

(** ... which writes bytes [k * 512 + skip ..] of the file. *)
Lemma chunk_wrote s s' I O p sv k b data skip len f : fs_rep s I O -> s_svs s !! p = Some sv ->
  0 <= skip -> skip + len <= SFS_BLOCKSIZE -> 0 <= k < MAXBLOCKS ->
  fblock (dk s) (sv_i sv) k = b -> b <> 0 ->
  (forall j i, I !! j = Some i -> forall m, 0 <= m < FILE_LIMIT ->
    file_byte (dk s') i m = if (j =? sv_ino sv) && (m / SFS_BLOCKSIZE =? k)
                            then nth0 data (m mod SFS_BLOCKSIZE) else file_byte (dk s) i m) ->
  (forall r, 0 <= r < SFS_BLOCKSIZE ->
    nth0 data r = if (skip <=? r) && (r <? skip + len) then f (k * SFS_BLOCKSIZE + r) else nth0 (dk s b) r) ->
  wrote_files (sv_ino sv) (k * SFS_BLOCKSIZE + skip) len f (dk s) I (dk s') I.
Proof.
  intros Hr Hp Hs0 Hsl Hk Hb Hnz Hfile Hdata. split; [done|]. intros j i i' Hi Hi'. simplify_eq.
  do 3 (split; [done|]). intros m Hm. rewrite (Hfile _ _ Hi) by done.
  destruct (Z.eqb_spec j (sv_ino sv)) as [->|]; [|done]. simpl.
  rewrite (rep_at _ _ _ _ _ Hr Hp) in Hi. simplify_eq.
  pose proof (Z.div_mod m SFS_BLOCKSIZE ltac:(done)). pose proof (Z.mod_pos_bound m SFS_BLOCKSIZE ltac:(done)).
  destruct (Z.eqb_spec (m / SFS_BLOCKSIZE) k) as [E|E].
  - rewrite Hdata by done. unfold file_byte. rewrite E. zbool.
    replace (k * SFS_BLOCKSIZE + m mod SFS_BLOCKSIZE) with m by lia.
    destruct (Z.leb_spec skip (m mod SFS_BLOCKSIZE)), (Z.leb_spec (k * SFS_BLOCKSIZE + skip) m),
      (Z.ltb_spec (m mod SFS_BLOCKSIZE) (skip + len)), (Z.ltb_spec m (k * SFS_BLOCKSIZE + skip + len));
      simpl; lia || done.
  - destruct (Z.leb_spec (k * SFS_BLOCKSIZE + skip) m), (Z.ltb_spec m (k * SFS_BLOCKSIZE + skip + len));
      simpl; try done. unfold SFS_BLOCKSIZE in *. nia.
Qed.

Lemma file_byte_at d i k r : 0 <= r < SFS_BLOCKSIZE ->
  file_byte d i (k * SFS_BLOCKSIZE + r) = if fblock d i k =? 0 then 0 else nth0 (d (fblock d i k)) r.
Proof.
  intros Hr. unfold file_byte. rewrite Z.div_add_l, Z.div_small, Z.add_0_r by (done || lia).
  by rewrite Z.add_comm, Z.mod_add, Z.mod_small by (done || lia).
Qed.

Lemma file_slice s i k blk skip len : length blk = 512%nat -> 0 <= skip -> 0 <= len ->
  skip + len <= SFS_BLOCKSIZE ->
  (forall r, 0 <= r < SFS_BLOCKSIZE -> nth0 blk r = file_byte (dk s) i (k * SFS_BLOCKSIZE + r)) ->
  slice skip len blk = file_bytes s i (k * SFS_BLOCKSIZE + skip) len.
Proof.
  intros Hl Hs Hn Hb Hby. unfold SFS_BLOCKSIZE in *. apply (list_eq_nth _ _ (Z.to_nat len)).
  - apply length_slice; lia.
  - unfold file_bytes. by rewrite length_map, length_seqZ.
  - intros r Hr. unfold file_bytes. rewrite nth_slice, nth_map_seqZ by lia.
    fold (nth0 blk (skip + r)). rewrite Hby by lia. f_equal. lia.
Qed.

Lemma file_bytes_same s s' I i j off n : same_files (dk s) I (dk s') I -> I !! j = Some i ->
  0 <= off -> off + n <= FILE_LIMIT -> file_bytes s' i off n = file_bytes s i off n.
Proof.
  intros [_ Hs] Hi Ho Hl. unfold file_bytes. apply map_ext_in. intros m Hm.
  apply list_elem_of_In, elem_of_seqZ in Hm. destruct (Hs _ _ _ Hi Hi) as (_ & _ & _ & Hb).
  rewrite Hb by (unfold FILE_LIMIT in *; lia).
  destruct (j =? 0), (Z.leb_spec 0 m), (Z.ltb_spec m (0 + 0)); simpl; lia || done.
Qed.

Lemma dev_now_refl s I O : fs_rep s I O -> dev_now (dk s) (s_dev s) (s_dev s).
Proof. intros Hr. split; [apply Hr|done]. Qed.

(** The disk holds the same; the user memory of the thread may have changed. *)
Lemma rep_thread s I O (t' : uthread U) (d' : D) : fs_rep s I O -> umem_ok (umem t') ->
  badfault t' = false -> dev_now (dk s) (s_dev s) d' ->
  let s' := with_io (t', d') s in
  fs_rep s' I O /\ same_files (dk s) I (dk s') I /\ forall p, kept p s s'.
Proof.
  intros Hr Ht Hb (Hd & Hn & Hz & Hc) s'. destruct (rep_quiet s I O t' d' Hr) as [? ?]; try done.
  { intros b o Ho. apply Hc. by destruct (rep_block _ _ _ _ _ Hr Ho) as (_ & [? _] & _). }
  { intros b Hbr _. apply Hc. pose proof (rep_nblocks _ _ _ Hr). lia. }
  split; [done|]. split; [done|]. intros p. split; try done. intros sv ?. by exists sv.
Qed.

Lemma after_stepped p sv u s I s' I' O' : stepped p s I s' I' O' ->
  (uio_rw u = UIO_READ -> I' = I /\ s_svs s' = s_svs s) -> fs_after p sv 0 (u, s) I (u, s') I' O'.
Proof.
  intros (Hr & Hs & Hk & Ht) Hq. split; [done|]. split; [done|]. simpl. destruct (uio_rw u).
  - destruct (Hq eq_refl) as [-> ?]. done.
  - split; [|split; [lia|by apply wrote_none]]. intros a. unfold xu. simpl. by rewrite Ht.
Qed.

(** The thread runs on with the uio of [x'] after the file system has [stepped]. *)
Lemma failed_before p sv n u s I e s' I' O' : 0 <= n -> uio_ok (xu (u, s)) ->
  stepped p s I s' I' O' -> (uio_rw u = UIO_READ -> I' = I /\ s_svs s' = s_svs s) ->
  io_error n (u, s) e (u, s') -> io_failed p sv n (u, s) I e (u, s') I' O'.
Proof.
  intros Hn Hok Hst Hq He. pose proof Hst as (_ & _ & _ & Ht).
  assert (xu (u, s') = xu (u, s)) as Hx by (unfold xu; simpl; by rewrite Ht).
  split; [done|]. rewrite Hx. split; [done|]. exists 0. split; [lia|].
  split; [apply moved_refl|]. split; [by apply after_stepped|]. split; [by left|done].
Qed.

(** The transfer itself faulted. *)
Lemma failed_fault p sv n u s I s1 I1 O1 u' t' d' : 0 <= n ->
  stepped p s I s1 I1 O1 -> (uio_rw u = UIO_READ -> I1 = I /\ s_svs s1 = s_svs s) ->
  faulted n (xu (u, s)) (u', t') -> dev_now (dk s1) (s_dev s1) d' ->
  io_failed p sv n (u, s) I EFAULT (u', with_io (t', d') s1) I1 O1.
Proof.
  intros Hn Hst Hq [Hu Hio Hok Hv Hsp] Hd'. simpl in *. subst u'. pose proof Hst as (Hr1 & Hs1 & Hk1 & Ht1).
  destruct (rep_thread s1 I1 O1 t' d' Hr1) as (Hr2 & Hs2 & Hk2); [apply Hok..|done|].
  split; [by left|]. split; [done|]. exists 0. split; [lia|]. split.
  { split; try done; simpl; try lia. by rewrite Hu. }
  split; [|split; [by left|done]]. split; [done|]. split; [by eapply kept_trans|]. simpl. destruct (uio_rw u).
  - destruct (Hq eq_refl) as [-> ?]. split; [done|]. split; [done|]. by eapply same_files_trans.
  - split; [intros a; apply Hsp; by intros [? _]|]. split; [lia|].
    by apply wrote_none; eapply same_files_trans.
Qed.

Lemma failed_cut p sv n u s I O s1 u' t' d' : 0 <= n -> uio_rw u = UIO_READ ->
  stepped p s I s1 I O -> s_svs s1 = s_svs s ->
  cut_short n (xu (u, s)) (u', t') -> dev_now (dk s1) (s_dev s1) d' ->
  io_failed p sv n (u, s) I EFAULT (u', with_io (t', d') s1) I O.
Proof.
  intros Hn Hrw Hst Hq (Hu & Hok & (m & Hm & Hmv) & Hsp) Hd. pose proof Hst as (Hr1 & Hs1 & Hk1 & Ht1).
  destruct (rep_thread s1 I O t' d' Hr1) as (Hr2 & Hs2 & Hk2); [apply Hok..|done|].
  split; [by left|]. split; [done|]. exists m. split; [done|]. split; [done|].
  split; [|split; [simpl; congruence|done]]. split; [done|]. split; [by eapply kept_trans|]. simpl. rewrite Hrw.
  split; [done|]. split; [done|]. by eapply same_files_trans.
Qed.

Definition ends_well p sv n x I x' : Prop := exists I' O', io_done p sv n x I x' I' O'.
Definition ends_badly p sv n x I e x' : Prop := exists I' O', io_failed p sv n x I e x' I' O'.

(** The number of the block at the current position. *)
Lemma fileblock_eq x : uio_ok (xu x) ->
  u32 (Z.quot (uio_offset x.1) SFS_BLOCKSIZE) = uio_offset x.1 / SFS_BLOCKSIZE /\
  0 <= uio_offset x.1 / SFS_BLOCKSIZE /\
  uio_offset x.1 = uio_offset x.1 / SFS_BLOCKSIZE * SFS_BLOCKSIZE + uio_offset x.1 mod SFS_BLOCKSIZE /\
  0 <= uio_offset x.1 mod SFS_BLOCKSIZE < SFS_BLOCKSIZE.
Proof.
  intros Hok. destruct (ok_offset _ Hok) as [? ?]. pose proof (ok_resid _ Hok). simpl in *.
  pose proof (Z.div_mod (uio_offset x.1) SFS_BLOCKSIZE ltac:(done)).
  pose proof (Z.mod_pos_bound (uio_offset x.1) SFS_BLOCKSIZE ltac:(done)).
  unfold SFS_BLOCKSIZE in *. rewrite Z.quot_div_nonneg, u32_small by lia. lia.
Qed.

(** The block lookup that starts both kinds of transfer. *)
Lemma io_bmap p sv n u s I O : uio_ok (xu (u, s)) -> fs_rep s I O -> s_svs s !! p = Some sv -> 0 <= n ->
  0 < uio_offset u mod SFS_BLOCKSIZE + n ->
  let k := uio_offset u / SFS_BLOCKSIZE in
  runs (sfs_bmap p k (is_write u)) s
    (fun b s' => k < MAXBLOCKS /\ mapped p k (is_write u) s I O b s')
    (fun e s' => ends_badly p sv n (u, s) I e (u, s')).
Proof.
  intros Hok Hr Hp Hn Hpos k. destruct (fileblock_eq (u, s) Hok) as (_ & Hk & Hoff & Hm). simpl in *.
  eapply runs_mono; [by eapply sfs_bmap_spec|done|].
  intros e s' [(Hbig & -> & ->)|(_ & Hdo & -> & Hf & I' & O' & Hst)].
  - exists I, O. apply failed_before; try done; [by apply stepped_refl|].
    right. right. split; [done|]. simpl. unfold FILE_LIMIT, SFS_BLOCKSIZE in *. fold k in Hoff. lia.
  - apply bool_decide_eq_true in Hdo. exists I', O'. apply failed_before; try done; [congruence|].
    right. left. by split_and!.
Qed.

(** Reading the block that holds block [k] of the file. *)
Lemma read_fblock s I O p sv k b : fs_rep s I O -> s_svs s !! p = Some sv -> 0 <= k < MAXBLOCKS ->
  fblock (dk s) (sv_i sv) k = b -> b <> 0 ->
  addressable (U := U) (s_dev s) b /\ length (dk s b) = 512%nat /\ byte_list (dk s b) /\
  runs (on_disk (sfs_rblock b)) s
    (fun blk s' => blk = dk s b /\ stepped p s I s' I O /\ s_svs s' = s_svs s /\
       forall c, 0 <= c < d_blocks (s_dev s) -> dk s' c = dk s c)
    (fun _ _ => False).
Proof.
  intros Hr Hp Hk Hb Hnz.
  assert (addressable (U := U) (s_dev s) b) as Ha.
  { rewrite <- Hb in Hnz |- *. eapply (rep_block s I O); [done|].
    by eapply rep_fblock; [|by eapply rep_at|..]. }
  split; [done|]. destruct (dblock_len _ _ (rep_dev _ _ _ Hr) (proj1 Ha)) as [? ?].
  split; [done|]. split; [done|]. eapply runs_mono; [by apply (rblock_runs s I O)| |done].
  intros blk s' (-> & Hr' & Hs' & (d' & Hio) & Hk' & Hd'). split; [done|].
  split; [|split; [by rewrite Hio|done]]. split; [done|]. split; [done|]. split; [done|]. by rewrite Hio.
Qed.

(** The contents of block [k], which may be a hole. *)
Lemma fetch_block s I O p sv k b u : fs_rep s I O -> s_svs s !! p = Some sv -> 0 <= k < MAXBLOCKS ->
  fblock (dk s) (sv_i sv) k = b -> uio_rw u = UIO_READ ->
  runs (if b =? 0 then assert (is_read u) ;;; ret (replicate (Z.to_nat SFS_BLOCKSIZE) 0)
        else on_snd (on_disk (sfs_rblock b))) (u, s)
    (fun blk x' => length blk = 512%nat /\ byte_list blk /\ x'.1 = u /\
       stepped p s I x'.2 I O /\ s_svs x'.2 = s_svs s /\
       forall r, 0 <= r < SFS_BLOCKSIZE -> nth0 blk r = file_byte (dk s) (sv_i sv) (k * SFS_BLOCKSIZE + r))
    (fun _ _ => False).
Proof.
  intros Hr Hp Hk Hb Hrw. destruct (Z.eqb_spec b 0) as [->|Hnz]; run.
  - unfold is_read. by rewrite Hrw.
  - split; [done|]. split; [by apply byte_list_replicate|]. split; [done|].
    split; [by apply stepped_refl|]. split; [done|].
    intros r Hrr. by rewrite file_byte_at, Hb, nth0_zero.
  - destruct (read_fblock s I O p sv k b) as (_ & Hl & Hy & Hrun); try done.
    eapply runs_mono; [done| |done]. intros blk s' (-> & Hst & Hsv & _). do 5 (split; [done|]).
    intros r Hrr. rewrite file_byte_at, Hb by done. by zbool.
Qed.

(** A read whose transfer is complete. *)
Lemma read_done p sv n u s I O s1 u' t' (d' : D) : fs_rep s I O -> s_svs s !! p = Some sv ->
  stepped p s I s1 I O -> s_svs s1 = s_svs s -> uio_rw u = UIO_READ ->
  moved n (xu (u, s)) (u', t') -> uio_ok (u', t') -> uio_offset u + n <= FILE_LIMIT ->
  space_put (file_bytes s (sv_i sv) (uio_offset u) n) (xu (u, s)) (u', t') ->
  dev_now (dk s1) (s_dev s1) d' ->
  io_done p sv n (u, s) I (u', with_io (t', d') s1) I O.
Proof.
  intros Hr Hp Hst Hsv Hrw Hmv Hok' Hlim Hput Hd. pose proof Hst as (Hr1 & Hs1 & Hk1 & Ht1).
  destruct (rep_thread s1 I O t' d' Hr1) as (Hr2 & Hs2 & Hk2); [apply Hok'..|done|].
  split; [done|]. split; [done|]. split; [done|]. split; [|done].
  split; [done|]. split; [by eapply kept_trans|]. simpl. rewrite Hrw.
  split; [done|]. split; [done|]. by eapply same_files_trans.
Qed.

Lemma partialio_read p sv skip len u s I O : uio_ok (xu (u, s)) -> fs_rep s I O ->
  s_svs s !! p = Some sv -> uio_rw u = UIO_READ -> skip = uio_offset u mod SFS_BLOCKSIZE ->
  0 <= len <= uio_resid u -> 0 < skip + len <= SFS_BLOCKSIZE ->
  runs (sfs_partialio p skip len) (u, s)
    (fun _ => ends_well p sv len (u, s) I) (ends_badly p sv len (u, s) I).
Proof.
  intros Hok Hr Hp Hrw Hskip Hlen Hfit. unfold sfs_partialio. run; [lia|].
  destruct (fileblock_eq (u, s) Hok) as (Hfb & Hk & Hoff & Hm). simpl fst in *. rewrite Hfb.
  set (k := uio_offset u / SFS_BLOCKSIZE) in *.
  eapply runs_mono; [apply (io_bmap p sv len u s I O); done || lia| |done].
  intros b s1 (Hkm & I' & O' & sv' & Hst & Hp' & Hb & Hq).
  assert (is_write u = false) as Hw by (unfold is_write; by rewrite Hrw).
  rewrite Hw in *. destruct Hq as (-> & -> & Hsv & Hdk).
  assert (sv' = sv) as -> by congruence. pose proof Hst as (Hr1 & Hs1 & Hk1 & Ht1).
  apply runs_bind. eapply runs_mono; [apply (fetch_block s1 I O p sv k b u); try done; lia| |done].
  intros blk [u2 s2] (Hl & Hby & Hu2 & Hst2 & Hsv2 & Hblk). simpl in *. subst u2.
  pose proof (stepped_trans _ _ _ _ _ _ _ _ _ Hst Hst2) as Hst'. rewrite Hsv in Hsv2.
  pose proof Hst' as (Hr2 & Hs2 & Hk2 & Ht2). apply runs_bind, runs_zoom.
  change ((u, s2).1, s_thread (u, s2).2) with (u, s_thread s2). rewrite Ht2.
  eapply runs_mono; [apply (uiomove_spec blk skip len (u, s_thread s)); try done; simpl;
    lia || (rewrite Hl; unfold SFS_BLOCKSIZE in *; lia)|..].
  - intros blk' [u' t'] (Hmv & Hok' & Htr). simpl in Htr. rewrite Hrw in Htr. destruct Htr as [-> Hput].
    run. exists I, O. rewrite (file_slice s1 (sv_i sv) k) in Hput by (done || lia).
    rewrite <- Hskip in Hoff. rewrite <- Hoff in Hput.
    assert (uio_offset u + len <= FILE_LIMIT) as Hlim by (unfold FILE_LIMIT, SFS_BLOCKSIZE in *; lia).
    apply read_done; try done; [|by eapply dev_now_refl].
    rewrite (file_bytes_same s s1 I (sv_i sv) (sv_ino sv)) in Hput;
      [done|done|exact (rep_at _ _ _ _ _ Hr Hp)|apply (ok_offset _ Hok)|done].
  - intros e [u' t'] [-> Hf]. exists I, O. apply failed_fault; try done; [lia|by eapply dev_now_refl].
Qed.

Lemma fblock_quiet s s' I O p sv k : fs_rep s I O -> s_svs s !! p = Some sv ->
  (forall c, 0 <= c < d_blocks (s_dev s) -> dk s' c = dk s c) ->
  fblock (dk s') (sv_i sv) k = fblock (dk s) (sv_i sv) k.
Proof.
  intros Hr Hp Hd. apply fblock_ext. intros Hz. apply Hd.
  pose proof (ig_indirect _ _ _ _ (rep_good _ _ _ _ _ Hr Hp) Hz) as Ho.
  by destruct (rep_block _ _ _ _ _ Hr Ho) as (_ & [? _] & _).
Qed.

(** The block that a write goes to: its old contents, and what is left to do. *)
Lemma write_target p u s I O b s1 k : fs_rep s I O -> uio_ok (xu (u, s)) -> 0 <= k < MAXBLOCKS ->
  mapped p k true s I O b s1 ->
  exists I1 O1 sv1, b <> 0 /\ addressable (U := U) (s_dev s1) b /\
    length (dk s1 b) = 512%nat /\ byte_list (dk s1 b) /\ stepped p s I s1 I1 O1 /\
    s_svs s1 !! p = Some sv1 /\ fblock (dk s1) (sv_i sv1) k = b /\
    (forall sv, s_svs s !! p = Some sv -> sv_ino sv1 = sv_ino sv) /\
    runs (on_disk (sfs_rblock b)) s1
      (fun blk s2 => blk = dk s1 b /\ stepped p s I s2 I1 O1 /\ s_svs s2 !! p = Some sv1 /\
         dk s2 b = dk s1 b /\ addressable (U := U) (s_dev s2) b /\ fblock (dk s2) (sv_i sv1) k = b)
      (fun _ _ => False).
Proof.
  intros Hr Hok Hk (I1 & O1 & sv1 & Hst & Hp1 & Hb & Hnz). pose proof Hst as (Hr1 & _ & Hk1 & _).
  destruct (read_fblock s1 I1 O1 p sv1 k b) as (Ha & Hl & Hy & Hrun); try done.
  exists I1, O1, sv1. do 7 (split; [done|]). split.
  { intros sv Hp. destruct (kp_sv _ _ _ Hk1 _ Hp) as (sv' & ? & _ & ?). congruence. }
  eapply runs_mono; [done| |done]. intros blk s2 (-> & Hst2 & Hsv2 & Hd2).
  split; [done|]. split; [by eapply stepped_trans|]. split; [congruence|].
  split; [apply Hd2, Ha|]. split.
  - destruct Hst2 as (_ & _ & Hk2 & _). unfold addressable. by rewrite (proj1 (kp_dev _ _ _ Hk2)).
  - by rewrite (fblock_quiet s1 s2 I1 O1 p).
Qed.

(** A block of the file overwritten by [data], which has the new bytes at [skip]. *)
Lemma write_back p sv sv1 n u s I s1 I1 O1 k b skip data u' t' (d' : D) :
  s_svs s !! p = Some sv -> stepped p s I s1 I1 O1 -> s_svs s1 !! p = Some sv1 ->
  sv_ino sv1 = sv_ino sv -> 0 <= k < MAXBLOCKS -> fblock (dk s1) (sv_i sv1) k = b -> b <> 0 ->
  uio_rw u = UIO_WRITE -> moved n (xu (u, s)) (u', t') -> uio_ok (u', t') ->
  space_same (xu (u, s)) (u', t') -> uio_offset u = k * SFS_BLOCKSIZE + skip -> 0 <= skip ->
  skip + n <= SFS_BLOCKSIZE -> 0 <= n ->
  (forall r, 0 <= r < SFS_BLOCKSIZE -> nth0 data r =
    if (skip <=? r) && (r <? skip + n) then source (u, s) (k * SFS_BLOCKSIZE + r) else nth0 (dk s1 b) r) ->
  dev_now (fun c => if c =? b then data else dk s1 c) (s_dev s1) d' ->
  io_done p sv n (u, s) I (u', with_io (t', d') s1) I1 O1.
Proof.
  intros Hp Hst Hp1 Hino Hk Hb Hnz Hrw Hmv Hok Hsp Hoff Hs0 Hfit Hn Hdata Hd.
  pose proof Hst as (Hr1 & Hs1 & Hk1 & Ht1).
  destruct (rep_wrote s1 I1 O1 p sv1 k b data t' d') as (Hr2 & Hk2 & Hfile); try done; [apply Hok..|].
  assert (uio_offset u + n <= FILE_LIMIT) as Hlim by (unfold FILE_LIMIT, SFS_BLOCKSIZE in *; lia).
  split; [done|]. split; [done|]. split; [done|].
  simpl. rewrite Hrw. split; [|done]. split; [done|]. split; [by eapply kept_trans|].
  simpl. rewrite Hrw. split; [done|]. split; [done|]. rewrite <- Hino, Hoff.
  eapply wrote_same_l; [done|done|]. by eapply chunk_wrote.
Qed.

Lemma source_region u s k skip n r : uio_offset u = k * SFS_BLOCKSIZE + skip -> skip <= r < skip + n ->
  nth (Z.to_nat (r - skip)) (region (xu (u, s)) n) 0 = source (u, s) (k * SFS_BLOCKSIZE + r).
Proof. intros Ho Hr. rewrite nth_region by lia. unfold source. simpl. f_equal. lia. Qed.

(** A write within a block, from what the lookup of the block does. *)
Lemma partialio_mapped p sv skip len u s I O E : uio_ok (xu (u, s)) -> fs_rep s I O ->
  s_svs s !! p = Some sv -> uio_rw u = UIO_WRITE -> skip = uio_offset u mod SFS_BLOCKSIZE ->
  0 <= len <= uio_resid u -> 0 < skip + len <= SFS_BLOCKSIZE ->
  let k := uio_offset u / SFS_BLOCKSIZE in
  runs (sfs_bmap p k true) s (fun b s' => k < MAXBLOCKS /\ mapped p k true s I O b s') (fun e s' => E e (u, s')) ->
  (forall x', is_user u = true -> ends_badly p sv len (u, s) I EFAULT x' -> E EFAULT x') ->
  runs (sfs_partialio p skip len) (u, s) (fun _ => ends_well p sv len (u, s) I) E.
Proof.
  intros Hok Hr Hp Hrw Hskip Hlen Hfit k Hbm HE. unfold sfs_partialio. run; [lia|].
  destruct (fileblock_eq (u, s) Hok) as (Hfb & Hk & Hoff & Hm). simpl fst in *. rewrite Hfb.
  rewrite <- Hskip in Hoff, Hm. fold k in Hk, Hoff |- *.
  assert (is_write u = true) as Hw by (unfold is_write; by rewrite Hrw). rewrite Hw.
  eapply runs_mono; [exact Hbm| |done]. intros b s1 (Hkm & Hmp). destruct (write_target p u s I O b s1 k) as
    (I1 & O1 & sv1 & Hnz & Ha & Hl & Hy & Hst & Hp1 & Hb & Hino & Hrun); try done; try lia.
  specialize (Hino _ Hp). zbool. run. eapply runs_mono; [exact Hrun| |done].
  intros blk s2 (-> & Hst2 & Hp2 & Hsame & Ha2 & Hb2). apply runs_bind, runs_zoom.
  pose proof Hst2 as (Hr2 & Hs2 & Hk2 & Ht2).
  change ((u, s2).1, s_thread (u, s2).2) with (u, s_thread s2). rewrite Ht2.
  eapply runs_mono; [apply (uiomove_spec (dk s1 b) skip len (u, s_thread s)); try done; simpl;
    lia || (rewrite Hl; unfold SFS_BLOCKSIZE in *; lia)|..].
  2:{ intros e [u' t'] [-> Hf]. apply HE; [apply Hf|]. exists I1, O1. apply failed_fault; try done; [lia|congruence|by eapply dev_now_refl]. }
  intros blk' [u' t'] (Hmv & Hok' & Htr). simpl in Htr. rewrite Hrw in Htr. destruct Htr as [-> Hsp].
  set (data := splice skip (region (u, s_thread s) len) (dk s1 b)).
  assert (length (region (u, s_thread s) len) = Z.to_nat len) as Hlr by apply length_region.
  apply runs_on_snd, runs_zoom. simpl.
  eapply runs_mono; [apply sfs_wblock_runs; [apply Hok'|apply Hok'|apply Hr2|done|..]| |done].
  { unfold data. rewrite length_splice; [done|lia|]. rewrite Hlr, Hl. unfold SFS_BLOCKSIZE in *. lia. }
  { apply byte_list_splice; [|done]. apply byte_list_region, Hok. }
  intros [] [t2 d'] [-> Hd']. exists I1, O1. simpl.
  apply (write_back p sv sv1 len u s I s2 I1 O1 k b skip data); try done; try lia.
  intros r Hrr. rewrite Hsame. unfold nth0, data.
  rewrite nth_splice by (rewrite ?Hlr, ?Hl; unfold SFS_BLOCKSIZE in *; lia).
  rewrite Hlr, Z2Nat.id by lia. destruct (Z.leb_spec skip r), (Z.ltb_spec r (skip + len)); simpl; try done.
  by apply source_region.
Qed.

Lemma partialio_write p sv skip len u s I O : uio_ok (xu (u, s)) -> fs_rep s I O ->
  s_svs s !! p = Some sv -> uio_rw u = UIO_WRITE -> skip = uio_offset u mod SFS_BLOCKSIZE ->
  0 <= len <= uio_resid u -> 0 < skip + len <= SFS_BLOCKSIZE ->
  runs (sfs_partialio p skip len) (u, s)
    (fun _ => ends_well p sv len (u, s) I) (ends_badly p sv len (u, s) I).
Proof.
  intros Hok Hr Hp Hrw Hskip Hlen Hfit. eapply partialio_mapped; try done.
  assert (is_write u = true) as <- by (unfold is_write; by rewrite Hrw).
  apply io_bmap; try done; lia.
Qed.

(** *** Whole blocks, transferred by the device *)

(** The offset and residue are put back after the device has run. *)
Definition restored (o r : Z) (u u' : uio) : uio :=
  set_offset_resid ((uio_offset u' - o) + uio_offset u) ((uio_resid u' - r) + uio_resid u) u'.

Lemma moved_restored n u (t : uthread U) u' t' o r : moved n (set_offset_resid o r u, t) (u', t') ->
  moved n (u, t) (restored o r u u', t').
Proof. intros []. simpl in *. split; simpl; try done; lia. Qed.

Lemma ok_restored n u (t : uthread U) u' t' o r : uio_ok (u, t) -> 0 <= n <= uio_resid u ->
  moved n (set_offset_resid o r u, t) (u', t') -> uio_ok (u', t') -> uio_ok (restored o r u u', t').
Proof.
  intros Hok Hn Hmv Hok'. apply (moved_ok n (u, t)); [done|by apply moved_restored|done|apply Hok'..|].
  intros Hu. pose proof (ok_region _ Hok') as Hreg. rewrite (moved_user _ _ _ Hmv) in Hreg.
  replace (is_user (set_offset_resid o r u, t).1) with true in Hreg by done.
  pose proof (mv_base _ _ _ Hmv). simpl in *. lia.
Qed.

(** The device part of [sfs_blockio]. *)
Definition blockio_dev (u : uio) (b : Z) : M (uio * sfs U D H) unit :=
  let diskoff := i32 (u32 (b * SFS_BLOCKSIZE)) in
  on_fst (modify (set_offset_resid diskoff SFS_BLOCKSIZE)) ;;;
  r <- result_of io_rwblock ;;
  on_fst (modify (fun u' => set_offset_resid ((uio_offset u' - diskoff) + uio_offset u)
    ((uio_resid u' - SFS_BLOCKSIZE) + uio_resid u) u')) ;;;
  if r =? 0 then ret tt else fail r.

Lemma blockio_dev_runs u s I O b : uio_ok (xu (u, s)) -> fs_rep s I O ->
  addressable (U := U) (s_dev s) b -> SFS_BLOCKSIZE <= uio_resid u ->
  runs (blockio_dev u b) (u, s)
    (fun _ x' => exists u' t' d', x' = (u', with_io (t', d') s) /\
       moved SFS_BLOCKSIZE (xu (u, s)) (u', t') /\ uio_ok (u', t') /\
       match uio_rw u with
       | UIO_READ => space_put (dk s b) (xu (u, s)) (u', t') /\ dev_now (dk s) (s_dev s) d'
       | UIO_WRITE => space_same (xu (u, s)) (u', t') /\
           dev_now (fun c => if c =? b then region (xu (u, s)) SFS_BLOCKSIZE else dk s c) (s_dev s) d'
       end)
    (fun e x' => exists u' t' d', x' = (u', with_io (t', d') s) /\ e = EFAULT /\
       faulted SFS_BLOCKSIZE (xu (u, s)) (u', t') /\ dev_now (dk s) (s_dev s) d').
Proof.
  intros Hok Hr [Hb Hb'] Hres. unfold SFS_BLOCKSIZE in Hres.
  assert (i32 (u32 (b * SFS_BLOCKSIZE)) = b * SFS_BLOCKSIZE) as Ho.
  { unfold SFS_BLOCKSIZE. by rewrite u32_small, i32_small by lia. }
  unfold blockio_dev. rewrite Ho. set (o := b * SFS_BLOCKSIZE). run. apply runs_zoom. simpl.
  set (u1 := set_offset_resid o SFS_BLOCKSIZE u). pose proof (ok_resid _ Hok) as Hrs. simpl in Hrs.
  assert (uio_ok (u1, s_thread s)) as Hok1.
  { pose proof Hok as []. split; try done; simpl in *; unfold o, SFS_BLOCKSIZE; lia. }
  assert (block_request d_blocks u1 (s_dev s) b) as Hq by (split; [done|]; by split).
  assert (forall u2 t2, faulted SFS_BLOCKSIZE (u1, s_thread s) (u2, t2) ->
    faulted SFS_BLOCKSIZE (xu (u, s)) (restored o SFS_BLOCKSIZE u u2, t2)) as Hfault.
  { intros u2 t2 [? Hu2 Hok2 ? ?]. simpl in *. subst u2.
    assert (restored o SFS_BLOCKSIZE u u1 = u) as ->.
    { unfold restored, u1, set_offset_resid. simpl. destruct u. simpl. f_equal; lia. }
    split; try done. pose proof Hok as []. pose proof Hok2 as []. by split. }
  eapply runs_mono; [apply (sfs_rwblock_runs u1 (s_thread s) (s_dev s) b Hok1 (rep_dev _ _ _ Hr) Hq)|..].
  - intros [] [u' [t' d']] (Hmv & Hok' & Hrw). run.
    exists (restored o SFS_BLOCKSIZE u u'), t', d'. split; [done|]. split; [by apply moved_restored|].
    split; [by apply (ok_restored SFS_BLOCKSIZE _ (s_thread s))|]. exact Hrw.
  - intros e [u' [t' d']] (-> & Hf & Hd). run. exists (restored o SFS_BLOCKSIZE u u'), t', d'.
    split; [done|]. split; [done|]. split; [by apply Hfault|done].
Qed.

Lemma blockio_read p sv u s I O : uio_ok (xu (u, s)) -> fs_rep s I O ->
  s_svs s !! p = Some sv -> uio_rw u = UIO_READ -> uio_offset u mod SFS_BLOCKSIZE = 0 ->
  SFS_BLOCKSIZE <= uio_resid u ->
  runs (sfs_blockio p) (u, s)
    (fun _ => ends_well p sv SFS_BLOCKSIZE (u, s) I) (ends_badly p sv SFS_BLOCKSIZE (u, s) I).
Proof.
  intros Hok Hr Hp Hrw Hal Hres. unfold sfs_blockio. run.
  destruct (fileblock_eq (u, s) Hok) as (Hfb & Hk & Hoff & Hm). simpl fst in *. rewrite Hfb.
  set (k := uio_offset u / SFS_BLOCKSIZE) in *.
  eapply runs_mono; [apply (io_bmap p sv SFS_BLOCKSIZE u s I O); done || lia| |done].
  intros b s1 (Hkm & I' & O' & sv' & Hst & Hp' & Hb & Hq).
  assert (is_write u = false) as Hw by (unfold is_write; by rewrite Hrw).
  rewrite Hw in *. destruct Hq as (-> & -> & Hsv & Hdk).
  assert (sv' = sv) as -> by congruence. pose proof Hst as (Hr1 & Hs1 & Hk1 & Ht1).
  assert (uio_offset u + SFS_BLOCKSIZE <= FILE_LIMIT) as Hlim by (unfold FILE_LIMIT, SFS_BLOCKSIZE in *; lia).
  assert (forall blk, length blk = 512%nat ->
    (forall r, 0 <= r < SFS_BLOCKSIZE -> nth0 blk r = if b =? 0 then 0 else nth0 (dk s1 b) r) ->
    file_bytes s (sv_i sv) (uio_offset u) SFS_BLOCKSIZE = blk) as Hblk.
  { intros blk Hl Hy. rewrite <- (slice_all blk SFS_BLOCKSIZE) by (by rewrite Hl).
    rewrite (file_slice s1 (sv_i sv) k); try done.
    - rewrite Z.add_0_r. rewrite Hal, Z.add_0_r in Hoff. rewrite <- Hoff. symmetry.
      eapply file_bytes_same; [done|exact (rep_at _ _ _ _ _ Hr Hp)|apply (ok_offset _ Hok)|done].
    - intros r Hrr. rewrite Hy, file_byte_at by done. unfold k. by rewrite Hb. }
  destruct (Z.eqb_spec b 0) as [->|Hnz].
  - run; [unfold is_read; by rewrite Hrw|]. apply runs_zoom. simpl. rewrite Ht1.
    eapply runs_mono; [apply (uiomovezeros_spec SFS_BLOCKSIZE (u, s_thread s)); done || (simpl; lia)|..].
    + intros _ [u' t'] (Hmv & Hok' & Hput). exists I, O. apply read_done; try done.
      * rewrite (Hblk (replicate (Z.to_nat SFS_BLOCKSIZE) 0)); try done. intros. by rewrite nth0_zero.
      * by eapply dev_now_refl.
    + intros e [u' t'] [-> Hcut]. exists I, O. apply failed_cut; try done. by eapply dev_now_refl.
  - assert (addressable (U := U) (s_dev s1) b /\ length (dk s1 b) = 512%nat) as [Ha Hl].
    { destruct (read_fblock s1 I O p sv k b) as (? & ? & _); done. }
    apply runs_bind, runs_assert; [lia|].
    eapply runs_mono; [apply (blockio_dev_runs u s1 I O b); try done; unfold xu; simpl; by rewrite Ht1|..].
    + intros _ x' (u' & t' & d' & -> & Hmv & Hok' & Hx). rewrite Hrw in Hx. destruct Hx as [Hput Hd].
      exists I, O. unfold xu in *. simpl in *. rewrite Ht1 in *. apply read_done; try done.
      by rewrite (Hblk (dk s1 b)).
    + intros e x' (u' & t' & d' & -> & -> & Hf & Hd). exists I, O. unfold xu in *. simpl in *. rewrite Ht1 in *.
      by apply failed_fault.
Qed.

Lemma blockio_write p sv u s I O : uio_ok (xu (u, s)) -> fs_rep s I O ->
  s_svs s !! p = Some sv -> uio_rw u = UIO_WRITE -> uio_offset u mod SFS_BLOCKSIZE = 0 ->
  SFS_BLOCKSIZE <= uio_resid u ->
  runs (sfs_blockio p) (u, s)
    (fun _ => ends_well p sv SFS_BLOCKSIZE (u, s) I) (ends_badly p sv SFS_BLOCKSIZE (u, s) I).
Proof.
  intros Hok Hr Hp Hrw Hal Hres. unfold sfs_blockio. run.
  destruct (fileblock_eq (u, s) Hok) as (Hfb & Hk & Hoff & Hm). simpl fst in *. rewrite Hfb.
  rewrite Hal in Hoff. set (k := uio_offset u / SFS_BLOCKSIZE) in *.
  eapply runs_mono; [apply (io_bmap p sv SFS_BLOCKSIZE u s I O); done || lia| |done]. fold k.
  assert (is_write u = true) as Hw by (unfold is_write; by rewrite Hrw). rewrite Hw.
  intros b s1 (Hkm & Hmp). destruct (write_target p u s I O b s1 k) as
    (I1 & O1 & sv1 & Hnz & Ha & Hl & Hy & Hst & Hp1 & Hb & Hino & _); try done; try lia.
  specialize (Hino _ Hp). pose proof Hst as (Hr1 & Hs1 & Hk1 & Ht1). zbool.
  apply runs_bind, runs_assert; [lia|].
  assert (xu (u, s1) = xu (u, s)) as Hxu by (unfold xu; simpl; by rewrite Ht1).
  eapply runs_mono; [apply (blockio_dev_runs u s1 I1 O1 b); try done; by rewrite Hxu|..]; rewrite Hxu.
  - intros _ x' (u' & t' & d' & -> & Hmv & Hok' & Hx). rewrite Hrw in Hx. destruct Hx as [Hsp Hd].
    exists I1, O1. eapply (write_back p sv sv1 _ u s I s1 I1 O1 k b 0); try done.
    intros r Hrr. zbool. unfold nth0.
    by rewrite <- (source_region u s k 0 SFS_BLOCKSIZE), Z.sub_0_r by (done || lia).
  - intros e x' (u' & t' & d' & -> & -> & Hf & Hd). exists I1, O1.
    apply failed_fault; try done. congruence.
Qed.

(** Both directions. *)
Lemma partialio_spec p sv skip len u s I O : uio_ok (xu (u, s)) -> fs_rep s I O ->
  s_svs s !! p = Some sv -> skip = uio_offset u mod SFS_BLOCKSIZE ->
  0 <= len <= uio_resid u -> 0 < skip + len <= SFS_BLOCKSIZE ->
  runs (sfs_partialio p skip len) (u, s)
    (fun _ => ends_well p sv len (u, s) I) (ends_badly p sv len (u, s) I).
Proof.
  intros. destruct (uio_rw u) eqn:Hrw; [by eapply partialio_read|by eapply partialio_write].
Qed.

Lemma blockio_spec p sv u s I O : uio_ok (xu (u, s)) -> fs_rep s I O ->
  s_svs s !! p = Some sv -> uio_offset u mod SFS_BLOCKSIZE = 0 -> SFS_BLOCKSIZE <= uio_resid u ->
  runs (sfs_blockio p) (u, s)
    (fun _ => ends_well p sv SFS_BLOCKSIZE (u, s) I) (ends_badly p sv SFS_BLOCKSIZE (u, s) I).
Proof.
  intros. destruct (uio_rw u) eqn:Hrw; [by eapply blockio_read|by eapply blockio_write].
Qed.

(** *** One transfer after another *)

Lemma same_file_eq s s' I i j m : same_files (dk s) I (dk s') I -> I !! j = Some i ->
  0 <= m < FILE_LIMIT -> file_byte (dk s') i m = file_byte (dk s) i m.
Proof.
  intros Hs Hi Hm. pose proof (file_bytes_same s s' I i j m 1 Hs Hi ltac:(lia) ltac:(lia)) as Hf.
  unfold file_bytes in Hf. change (seqZ m 1) with [m] in Hf. cbn in Hf. by injection Hf.
Qed.

Lemma source_after n x x' m : moved n (xu x) (xu x') -> space_same (xu x) (xu x') ->
  source x' m = source x m.
Proof.
  intros Hm Hs. unfold source. rewrite Hs. pose proof (mv_base _ _ _ Hm). pose proof (mv_offset _ _ _ Hm).
  simpl in *. f_equal. lia.
Qed.

Lemma after_trans p sv sv1 n m x I x1 I1 O1 x2 I2 O2 : 0 <= n -> 0 <= m ->
  sv_ino sv1 = sv_ino sv -> moved n (xu x) (xu x1) ->
  fs_after p sv n x I x1 I1 O1 -> fs_after p sv1 m x1 I1 x2 I2 O2 -> fs_after p sv (n + m) x I x2 I2 O2.
Proof.
  intros Hn Hm Hino Hmv (_ & Hk1 & Hq1) (Hr2 & Hk2 & Hq2). split; [done|]. split; [by eapply kept_trans|].
  pose proof (mv_rw _ _ _ Hmv) as Hrw. pose proof (mv_offset _ _ _ Hmv) as Hoff. simpl in Hrw, Hoff.
  rewrite Hrw in Hq2. destruct (uio_rw x.1).
  - destruct Hq1 as (-> & ? & ?), Hq2 as (-> & ? & ?). split; [done|]. split; [congruence|].
    by eapply same_files_trans.
  - destruct Hq1 as (Hs1 & Hl1 & Hw1), Hq2 as (Hs2 & Hl2 & Hw2). split; [intros a; by rewrite Hs2|].
    split; [lia|].
    eapply wrote_trans; [done|done|exact Hw1|]. rewrite <- Hino, <- Hoff.
    eapply wrote_ext; [|exact Hw2]. intros k _. by eapply source_after.
Qed.

Lemma file_bytes_app s i off n m : 0 <= n -> 0 <= m ->
  file_bytes s i off (n + m) = file_bytes s i off n ++ file_bytes s i (off + n) m.
Proof. intros. unfold file_bytes. by rewrite seqZ_app, map_app by done. Qed.

Lemma done_trans p sv sv1 n m x I O x1 I1 O1 x2 I2 O2 : 0 <= n -> 0 <= m -> uio_ok (xu x) ->
  fs_rep x.2 I O -> s_svs x.2 !! p = Some sv -> s_svs x1.2 !! p = Some sv1 ->
  io_done p sv n x I x1 I1 O1 -> io_done p sv1 m x1 I1 x2 I2 O2 -> io_done p sv (n + m) x I x2 I2 O2.
Proof.
  intros Hn Hm Hok Hr Hp Hp1 (Hmv1 & Hok1 & Hl1 & Ha1 & Hg1) (Hmv2 & Hok2 & Hl2 & Ha2 & Hg2).
  pose proof (mv_rw _ _ _ Hmv1) as Hrw. pose proof (mv_offset _ _ _ Hmv1) as Hoff. simpl in Hrw, Hoff.
  assert (sv_ino sv1 = sv_ino sv) as Hino.
  { destruct Ha1 as (_ & Hk & _). destruct (kp_sv _ _ _ Hk _ Hp) as (sv' & ? & _ & ?). congruence. }
  split; [by eapply moved_trans|]. split; [done|]. split; [lia|].
  split; [by eapply after_trans|]. intros HR. rewrite HR in Hrw.
  specialize (Hg1 HR). specialize (Hg2 Hrw). destruct Ha1 as (_ & _ & Hq). rewrite HR in Hq.
  destruct Hq as (-> & Hsv & Hs). assert (sv1 = sv) as -> by congruence.
  rewrite file_bytes_app by done. eapply space_put_app; [done| |done|].
  { unfold file_bytes. rewrite length_map, length_seqZ. lia. }
  destruct (decide (m = 0)) as [->|]; [by rewrite Hoff in Hg2|].
  rewrite Hoff in Hg2, Hl2. rewrite <- (file_bytes_same x.2 x1.2 I _ (sv_ino sv)); try done.
  - by eapply rep_at.
  - destruct (ok_offset _ Hok). simpl in *. lia.
  - lia.
Qed.

Lemma failed_after p sv sv1 n m x I O x1 I1 O1 e x2 I2 O2 : 0 <= n -> 0 <= m ->
  n = 0 \/ 0 < m /\ (uio_offset x.1 + n) mod SFS_BLOCKSIZE = 0 ->
  fs_rep x.2 I O -> s_svs x.2 !! p = Some sv -> s_svs x1.2 !! p = Some sv1 ->
  io_done p sv n x I x1 I1 O1 -> io_failed p sv1 m x1 I1 e x2 I2 O2 -> io_failed p sv (n + m) x I e x2 I2 O2.
Proof.
  intros Hn Hm Hb Hr Hp Hp1 (Hmv1 & Hok1 & Hl1 & Ha1 & Hg1) (He & Hok2 & k & Hk & Hmv2 & Ha2 & Hst & Hsp).
  pose proof (mv_rw _ _ _ Hmv1) as Hrw. pose proof (mv_offset _ _ _ Hmv1) as Hoff.
  pose proof (mv_base _ _ _ Hmv1) as Hbase. pose proof (moved_user _ _ _ Hmv1) as Hu. simpl in *.
  assert (sv_ino sv1 = sv_ino sv) as Hino.
  { destruct Ha1 as (_ & Hkp & _). destruct (kp_sv _ _ _ Hkp _ Hp) as (sv' & ? & _ & ?). congruence. }
  split.
  { unfold io_error in *. rewrite Hu, Hrw, Hoff in He. destruct He as [He|[He|[He ?]]]; [by left|by right; left|].
    right. right. split; [done|lia]. }
  split; [done|]. exists (n + k). split; [lia|]. split; [by eapply moved_trans|].
  split; [eapply (after_trans p sv sv1); try done; lia|]. split.
  { rewrite Hrw, Hoff in Hst. intros HW. unfold stops_at in *. specialize (Hst HW).
    destruct Hst as [->|[? Hst]]; [|right; split; [lia|by rewrite Z.add_assoc]].
    rewrite !Z.add_0_r. destruct Hb as [->|[? ?]]; [by left|right; split; [lia|done]]. }
  intros a Ha. rewrite Hsp.
  - destruct Ha1 as (_ & _ & Hq). destruct (uio_rw x.1) eqn:HR.
    + apply (space_put_outside _ _ _ (Hg1 eq_refl)). unfold file_bytes. rewrite length_map, length_seqZ.
      simpl. intros ?. apply Ha. split; [done|lia].
    + by destruct Hq as [Hs _].
  - rewrite Hrw, Hbase. intros [? ?]. apply Ha. split; [done|lia].
Qed.

Lemma failed_mono p sv n m x I e x' I' O' : n <= m ->
  io_failed p sv n x I e x' I' O' -> io_failed p sv m x I e x' I' O'.
Proof.
  intros Hnm (He & Hok & k & Hk & Hmv & Ha & Hst & Hsp). split.
  { destruct He as [He|[He|[He ?]]]; [by left|by right; left|]. right. right. split; [done|lia]. }
  split; [done|]. exists k. split; [lia|]. split; [done|]. split; [done|].
  split; [intros HW; destruct (Hst HW) as [?|[? ?]]; [by left|right; split; [lia|done]]|].
  intros a Hna. apply Hsp. intros [? ?]. apply Hna. split; [done|lia].
Qed.

(** The next piece of a transfer of [N] bytes in all, [n] of which are done. *)
Lemma io_next p sv n m N x I O x1 (f : M (uio * sfs U D H) unit) : 0 <= n -> 0 <= m -> n + m <= N ->
  n = 0 \/ 0 < m /\ (uio_offset x.1 + n) mod SFS_BLOCKSIZE = 0 -> uio_ok (xu x) -> fs_rep x.2 I O -> s_svs x.2 !! p = Some sv -> ends_well p sv n x I x1 ->
  (forall sv1 I1 O1, moved n (xu x) (xu x1) -> uio_ok (xu x1) -> fs_rep x1.2 I1 O1 ->
     s_svs x1.2 !! p = Some sv1 ->
     runs f x1 (fun _ => ends_well p sv1 m x1 I1) (ends_badly p sv1 m x1 I1)) ->
  runs f x1 (fun _ => ends_well p sv (n + m) x I) (ends_badly p sv N x I).
Proof.
  intros Hn Hm HN Hb Hok Hr Hp (I1 & O1 & Hdone) Hf. pose proof Hdone as (Hmv & Hok1 & _ & (Hr1 & Hk1 & _) & _).
  destruct (kp_sv _ _ _ Hk1 _ Hp) as (sv1 & Hp1 & _ & _).
  eapply runs_mono; [by eapply Hf|..].
  - intros _ x2 (I2 & O2 & Hd2). exists I2, O2. by eapply done_trans.
  - intros e x2 (I2 & O2 & Hf2). exists I2, O2. eapply failed_mono; [exact HN|]. by eapply failed_after.
Qed.

Lemma ends_well_refl p sv x I O : uio_ok (xu x) -> fs_rep x.2 I O -> ends_well p sv 0 x I x.
Proof.
  intros Hok Hr. exists I, O. split; [apply moved_refl|]. split; [done|]. split; [lia|].
  split; [destruct x; apply after_stepped; [by apply stepped_refl|done]|].
  intros _ a. simpl. destruct (Z.leb_spec (iov_base x.1) a), (Z.ltb_spec a (iov_base x.1 + Z.of_nat 0)); simpl; lia || done.
Qed.

Lemma ends_well_moved p sv n x I x' : ends_well p sv n x I x' -> moved n (xu x) (xu x').
Proof. by intros (? & ? & ? & _). Qed.

(** The whole blocks in the middle. *)
Lemma blocks_spec p sv n0 N nb x I O x1 : 0 <= n0 -> 0 <= nb -> n0 + nb * SFS_BLOCKSIZE <= N ->
  N <= uio_resid x.1 -> uio_ok (xu x) -> fs_rep x.2 I O -> s_svs x.2 !! p = Some sv ->
  ends_well p sv n0 x I x1 -> (uio_offset x.1 + n0) mod SFS_BLOCKSIZE = 0 ->
  runs (for_each (seqZ 0 nb) (fun _ => sfs_blockio p)) x1
    (fun _ => ends_well p sv (n0 + nb * SFS_BLOCKSIZE) x I) (ends_badly p sv N x I).
Proof.
  intros Hn0 Hnb HN HNr Hok Hr Hp Hw Hal.
  apply (runs_for_each (fun pre _ x' =>
    ends_well p sv (n0 + Z.of_nat (length pre) * SFS_BLOCKSIZE) x I x')).
  - simpl. by rewrite Z.add_0_r.
  - intros pre k post x2 Hl Hw2. apply seqZ_middle in Hl as [_ Hlt].
    rewrite length_app. simpl length.
    replace (n0 + Z.of_nat (length pre + 1) * SFS_BLOCKSIZE)
      with (n0 + Z.of_nat (length pre) * SFS_BLOCKSIZE + SFS_BLOCKSIZE) by lia.
    eapply (io_next _ _ _ SFS_BLOCKSIZE); try done; try (unfold SFS_BLOCKSIZE in *; lia).
    { right. split; [done|]. by rewrite Z.add_assoc, Z.mod_add. }
    intros sv1 I1 O1 Hmv Hok1 Hr1 Hp1. destruct x2 as [u2 s2]. eapply blockio_spec; try done.
    + pose proof (mv_offset _ _ _ Hmv) as Ho. simpl in Ho. rewrite Ho, Z.add_assoc.
      by rewrite Z.mod_add by done.
    + pose proof (mv_resid _ _ _ Hmv) as Ho. simpl in Ho. unfold SFS_BLOCKSIZE in *. lia.
  - intros x' Hw'. by rewrite length_seqZ, Z2Nat.id in Hw' by done.
Qed.

(** From the first block boundary on. *)
Lemma io_tail_spec p sv n0 x I O x1 : 0 <= n0 < uio_resid x.1 -> uio_ok (xu x) -> fs_rep x.2 I O ->
  s_svs x.2 !! p = Some sv -> ends_well p sv n0 x I x1 -> (uio_offset x.1 + n0) mod SFS_BLOCKSIZE = 0 ->
  runs (assert (Z.rem (uio_offset x1.1) SFS_BLOCKSIZE =? 0) ;;;
        for_each (seqZ 0 (uio_resid x1.1 / SFS_BLOCKSIZE)) (fun _ => sfs_blockio p) ;;;
        u <- gets fst ;;
        assert (uio_resid u <? SFS_BLOCKSIZE) ;;;
        if uio_resid u >? 0 then sfs_partialio p 0 (uio_resid u) else ret tt) x1
    (fun _ => ends_well p sv (uio_resid x.1) x I) (ends_badly p sv (uio_resid x.1) x I).
Proof.
  intros Hn0 Hok Hr Hp Hw1 Hal. set (N := uio_resid x.1) in *.
  destruct (ok_offset _ Hok) as [Ho1 Ho2]. simpl in Ho1, Ho2.
  pose proof (ends_well_moved _ _ _ _ _ _ Hw1) as Hmv1.
  pose proof (mv_resid _ _ _ Hmv1) as Hres1. pose proof (mv_offset _ _ _ Hmv1) as Hoff1. simpl in Hres1, Hoff1.
  fold N in Hres1. rewrite Hres1, Hoff1. set (nb := (N - n0) / SFS_BLOCKSIZE).
  pose proof (Z.div_mod (N - n0) SFS_BLOCKSIZE ltac:(done)) as Hdm. fold nb in Hdm.
  pose proof (Z.mod_pos_bound (N - n0) SFS_BLOCKSIZE ltac:(done)).
  assert (0 <= nb) by (apply Z.div_pos; [lia|done]).
  apply runs_bind, runs_assert. { rewrite Z.rem_mod_nonneg by (done || lia). by apply Z.eqb_eq. }
  apply runs_bind. eapply runs_mono; [apply (blocks_spec p sv n0 N nb x I O); done || lia| |done].
  intros [] x2 Hw2. pose proof (ends_well_moved _ _ _ _ _ _ Hw2) as Hmv2.
  pose proof (mv_resid _ _ _ Hmv2) as Hres2. pose proof (mv_offset _ _ _ Hmv2) as Hoff2. simpl in Hres2, Hoff2.
  fold N in Hres2. apply runs_bind, runs_gets. simpl fst. rewrite Hres2.
  apply runs_bind, runs_assert; [lia|].
  set (rest := N - (n0 + nb * SFS_BLOCKSIZE)) in *.
  destruct (Z.gtb_spec rest 0); [|run; by replace N with (n0 + nb * SFS_BLOCKSIZE) by lia].
  replace (ends_well p sv N x I) with (ends_well p sv (n0 + nb * SFS_BLOCKSIZE + rest) x I)
    by (f_equal; lia).
  assert ((uio_offset x.1 + (n0 + nb * SFS_BLOCKSIZE)) mod SFS_BLOCKSIZE = 0) as Hal2
    by (by rewrite Z.add_assoc, Z.mod_add).
  eapply (io_next _ _ _ rest); try done; try (unfold SFS_BLOCKSIZE in *; lia); try by right.
  intros sv1 I1 O1 _ Hok1 Hr1 Hp1. destruct x2 as [u2 s2]. simpl in *.
  eapply partialio_spec; try done; [|lia|lia].
  by rewrite Hoff2.
Qed.

Lemma io_body_spec p sv u s I O : uio_ok (xu (u, s)) -> fs_rep s I O -> s_svs s !! p = Some sv ->
  runs (sfs_io_body p) (u, s)
    (fun _ => ends_well p sv (uio_resid u) (u, s) I) (ends_badly p sv (uio_resid u) (u, s) I).
Proof.
  intros Hok Hr Hp. unfold sfs_io_body. set (x := (u, s)). set (N := uio_resid u).
  destruct (fileblock_eq x Hok) as (_ & _ & Hoff & Hm). simpl fst in *.
  destruct (ok_offset _ Hok) as [Ho1 Ho2]. pose proof (ok_resid _ Hok) as Hrs. simpl in Ho1, Ho2, Hrs.
  set (off := uio_offset u mod SFS_BLOCKSIZE) in *.
  assert (u32 (Z.rem (uio_offset u) SFS_BLOCKSIZE) = off) as Hrem.
  { rewrite Z.rem_mod_nonneg by done. apply u32_small. unfold SFS_BLOCKSIZE in *. lia. }
  apply runs_bind, runs_gets. simpl. rewrite Hrem. apply runs_bind.
  set (len := if SFS_BLOCKSIZE - off >? N then N else SFS_BLOCKSIZE - off).
  set (n0 := if off =? 0 then 0 else len).
  assert (0 <= n0 <= N /\ (n0 = N \/ off + n0 = 0 \/ off + n0 = SFS_BLOCKSIZE)) as [Hn0 Hcase].
  { unfold n0, len, SFS_BLOCKSIZE in *. destruct (Z.eqb_spec off 0), (Z.gtb_spec (512 - off) N); lia. }
  apply (runs_mono _ _ (fun _ => ends_well p sv n0 x I) _ (ends_badly p sv N x I)); [| |done].
  { unfold n0. destruct (Z.eqb_spec off 0); simpl; [by run; eapply ends_well_refl|].
    assert (0 <= len <= N /\ off + len <= SFS_BLOCKSIZE) as [Hlen Hfit].
    { unfold len. destruct (Z.gtb_spec (SFS_BLOCKSIZE - off) N); lia. }
    eapply runs_mono; [eapply (partialio_spec p sv off len u s I O); try done; lia|done|].
    intros e x' (I' & O' & Hf). exists I', O'. eapply failed_mono; [|exact Hf]. lia. }
  intros [] x1 Hw1. pose proof (ends_well_moved _ _ _ _ _ _ Hw1) as Hmv1.
  pose proof (mv_resid _ _ _ Hmv1) as Hres1. simpl in Hres1. fold N in Hres1.
  apply runs_bind, runs_gets. destruct (Z.eqb_spec (uio_resid x1.1) 0) as [Hz|Hz].
  { run. by replace N with n0 by lia. }
  apply (io_tail_spec p sv n0 x I O); try done; [simpl; lia|]. simpl.
  replace (uio_offset u + n0) with (off + n0 + uio_offset u / SFS_BLOCKSIZE * SFS_BLOCKSIZE) by lia.
  rewrite Z.mod_add by done. by destruct Hcase as [?|[->| ->]]; [lia|..].
Qed.

(** *** The whole of sfs_io *)

(** How many bytes a read gets. *)
Definition readable (sv : sfs_vnode) (u : uio) : Z :=
  Z.max 0 (Z.min (uio_resid u) (sfi_size (sv_i sv) - uio_offset u)).

(** A file is at least [n] bytes long. *)
Definition grow (ino n : Z) (I : gmap Z sfs_inode) : gmap Z sfs_inode :=
  alter (fun i => set_size (Z.max (sfi_size i) n) i) ino I.

(** The file system after [n] bytes have been written. *)
Definition written p sv n x I x' : Prop :=
  moved n (xu x) (xu x') /\ uio_ok (xu x') /\ space_same (xu x) (xu x') /\ kept p x.2 x'.2 /\
  (0 < n -> uio_offset x.1 + n <= FILE_LIMIT) /\
  exists I1 O', fs_rep x'.2 (grow (sv_ino sv) (uio_offset x.1 + n) I1) O' /\
    wrote_files (sv_ino sv) (uio_offset x.1) n (source x) (dk x.2) I (dk x'.2) I1.

Lemma set_size_id i : set_size (sfi_size i) i = i.
Proof. by destruct i. Qed.

Lemma grow_at ino n I i : I !! ino = Some i ->
  grow ino n I = <[ino := set_size (Z.max (sfi_size i) n) i]> I.
Proof.
  intros Hi. apply map_eq. intros j. unfold grow. destruct (decide (j = ino)) as [->|].
  - by rewrite lookup_alter_eq, lookup_insert_eq, Hi.
  - by rewrite lookup_alter_ne, lookup_insert_ne.
Qed.

(** The size is brought up to date. *)
Lemma grow_runs p sv s I O n : fs_rep s I O -> s_svs s !! p = Some sv -> 0 <= n < 2 ^ 31 ->
  runs (if n >? i32 (sfi_size (sv_i sv)) then inode_modify p (set_size (u32 n)) else ret tt) s
    (fun _ s' => fs_rep s' (grow (sv_ino sv) n I) O /\ kept p s s' /\ s_thread s' = s_thread s /\
       s_dev s' = s_dev s /\ s_freemap s' = s_freemap s)
    (fun _ _ => False).
Proof.
  intros Hr Hp Hn. pose proof (rep_at _ _ _ _ _ Hr Hp) as Hi.
  pose proof (rep_good _ _ _ _ _ Hr Hp) as Hg. pose proof Hg as [[Hsz ? ? ? ? ?] Hsz2 ? ? Hdat].
  unfold word32 in Hsz. rewrite i32_small, (grow_at _ _ _ _ Hi) by lia.
  destruct (Z.gtb_spec n (sfi_size (sv_i sv))).
  - eapply runs_intro_ret; [by apply inode_modify_eq|]. rewrite u32_small, Z.max_r by lia.
    split; [|split; [by apply kept_set_inode|done]].
    apply (rep_set_inode s I O O); try done; [by apply Hr|].
    split; [|simpl; lia|done|done|done]. split; try done. unfold word32. simpl. lia.
  - run. split; [|split; [apply kept_refl|done]].
    by rewrite Z.max_l, set_size_id, insert_id by (done || lia).
Qed.

(** What [sfs_io] does at the label [out]. *)
Definition io_out p extraresid r : M (uio * sfs U D H) unit :=
  u <- gets fst ;;
  sv <- on_snd (sv_get p) ;;
  (if is_write u && (uio_offset u >? i32 (sfi_size (sv_i sv)))
   then on_snd (inode_modify p (set_size (u32 (uio_offset u))))
   else ret tt) ;;;
  on_fst (modify (fun u => set_resid (u32 (uio_resid u + extraresid)) u)) ;;;
  if r =? 0 then ret tt else fail r.

Lemma io_out_write p sv m x I x' I' O' r Q E : uio_ok (xu x) -> 0 <= m <= uio_resid x.1 ->
  uio_rw x.1 = UIO_WRITE -> s_svs x.2 !! p = Some sv ->
  moved m (xu x) (xu x') -> uio_ok (xu x') -> fs_after p sv m x I x' I' O' ->
  (forall x2, written p sv m x I x2 -> s_freemap x2.2 = s_freemap x'.2 ->
     runs (if r =? 0 then ret tt else fail r) x2 Q E) ->
  runs (io_out p 0 r) x' Q E.
Proof.
  intros Hok Hm Hrw Hp Hmv Hok' (Hr' & Hk' & Ha) Hfin. rewrite Hrw in Ha. destruct Ha as (Hsp & Hlim & Hw).
  destruct (kp_sv _ _ _ Hk' _ Hp) as (sv' & Hp' & _ & Hino). unfold io_out.
  destruct (ok_offset _ Hok) as [Ho1 Ho2]. pose proof (ok_resid _ Hok).
  pose proof (mv_offset _ _ _ Hmv) as Hoff. pose proof (mv_resid _ _ _ Hmv) as Hres.
  pose proof (mv_rw _ _ _ Hmv) as Hrw'. destruct x' as [u' s']. simpl in *.
  apply runs_bind, runs_gets. apply runs_bind, runs_on_snd. simpl.
  eapply runs_intro_ret; [unfold sv_get; by rewrite Hp'|].
  assert (is_write u' = true) as -> by (unfold is_write; by rewrite Hrw', Hrw). simpl andb.
  pose proof (grow_runs p sv' s' I' O' (uio_offset u') Hr' Hp' ltac:(lia)) as Hg.
  apply runs_bind. apply (runs_mono _ _ (fun _ x2 => x2.1 = u' /\
    fs_rep x2.2 (grow (sv_ino sv') (uio_offset u') I') O' /\ kept p s' x2.2 /\
    s_thread x2.2 = s_thread s' /\ s_dev x2.2 = s_dev s' /\ s_freemap x2.2 = s_freemap s') _ (fun _ _ => False)); [| |done].
  { destruct (uio_offset u' >? i32 (sfi_size (sv_i sv'))); [run|by run].
    eapply runs_mono; [exact Hg|done|done]. }
  intros [] [u2 s2] (Hu2 & Hr2 & Hk2 & Ht2 & Hd2 & Hf2). simpl in *. subst u2. run.
  assert (set_resid (u32 (uio_resid u' + 0)) u' = u') as ->.
  { unfold set_resid, set_offset_resid. rewrite Z.add_0_r, u32_small by lia. by destruct u'. }
  assert (xu (u', s2) = xu (u', s')) as Hxu by (unfold xu; simpl; by rewrite Ht2).
  apply Hfin; [|done]. unfold written. rewrite Hxu. do 3 (split; [done|]). split; [by eapply kept_trans|]. split; [done|].
  exists I', O'. simpl. rewrite <- Hino, <- Hoff. split; [done|].
  rewrite Hino. unfold dk in *. by rewrite Hd2.
Qed.

Lemma io_rest_write p sv u s I O : uio_ok (xu (u, s)) -> fs_rep s I O -> s_svs s !! p = Some sv ->
  uio_rw u = UIO_WRITE ->
  runs (sfs_io_rest p 0) (u, s)
    (fun _ => written p sv (uio_resid u) (u, s) I)
    (fun e x' => io_error (uio_resid u) (u, s) e x' /\
       exists m, 0 <= m <= uio_resid u /\ stops_at (uio_offset u) (uio_resid u) m /\
         written p sv m (u, s) I x').
Proof.
  intros Hok Hr Hp Hrw. unfold sfs_io_rest. set (x := (u, s)). apply runs_bind, runs_result_of.
  pose proof (ok_resid _ Hok) as Hres. simpl in Hres.
  eapply runs_mono; [by apply (io_body_spec p sv u s I O)|..].
  - intros [] x' (I' & O' & Hmv & Hok' & _ & Ha & _).
    eapply (io_out_write p sv (uio_resid u) x); try done; try (simpl; lia).
  - intros e x' (I' & O' & He & Hok' & m & Hm & Hmv & Ha & Hst & _).
    eapply (io_out_write p sv m x); try done.
    intros x2 Hw Hfm. assert (e <> 0) by (by destruct He as [[-> _]|[[-> _]|[-> _]]]). zbool. run.
    split; [unfold io_error, full in *; by rewrite Hfm|].
    exists m. split; [done|]. split; [by apply Hst|done].
Qed.

(** The residue set aside is added back. *)
Lemma done_restored p sv n r u s I u' s' I' O' : uio_ok (xu (u, s)) -> 0 <= n <= uio_resid u ->
  io_done p sv n (set_resid r u, s) I (u', s') I' O' ->
  io_done p sv n (u, s) I (restored (uio_offset u) r u u', s') I' O'.
Proof.
  intros Hok Hn (Hmv & Hok' & Hl & Ha & Hg). split; [by apply moved_restored|].
  split; [by eapply ok_restored|]. done.
Qed.

Lemma failed_restored p sv n r u s I e u' s' I' O' : uio_ok (xu (u, s)) -> n <= uio_resid u ->
  io_failed p sv n (set_resid r u, s) I e (u', s') I' O' ->
  io_failed p sv n (u, s) I e (restored (uio_offset u) r u u', s') I' O'.
Proof.
  intros Hok Hn (He & Hok' & m & Hm & Hmv & Ha & Hst & Hg). split; [done|].
  split; [eapply (ok_restored m); done || lia|]. exists m. split; [done|].
  split; [by apply moved_restored|]. done.
Qed.

Lemma io_rest_read p sv r u s I O : uio_ok (xu (u, s)) -> fs_rep s I O -> s_svs s !! p = Some sv ->
  uio_rw u = UIO_READ -> 0 <= r <= uio_resid u ->
  runs (sfs_io_rest p (uio_resid u - r)) (set_resid r u, s)
    (fun _ => ends_well p sv r (u, s) I) (ends_badly p sv r (u, s) I).
Proof.
  intros Hok Hr Hp Hrw Hn. unfold sfs_io_rest. set (x := (set_resid r u, s)).
  pose proof (ok_resid _ Hok) as Hres. pose proof (ok_len _ Hok). simpl in *.
  assert (uio_ok (xu x)) as Hokx. { pose proof Hok as []. split; try done; simpl in *; lia. }
  assert (forall m u' s' e Q E, moved m (xu x) (xu (u', s')) -> 0 <= m <= r -> kept p s s' ->
    runs (if e =? 0 then ret tt else fail e) (restored (uio_offset u) r u u', s') Q E ->
    runs (io_out p (uio_resid u - r) e) (u', s') Q E) as Hout.
  { intros m u' s' e Q E Hmv Hm Hk Hfin. destruct (kp_sv _ _ _ Hk _ Hp) as (sv' & Hp' & _ & _).
    pose proof (mv_rw _ _ _ Hmv) as Hrw'. pose proof (mv_resid _ _ _ Hmv) as Hres'. simpl in Hrw', Hres'.
    unfold io_out. apply runs_bind, runs_gets. apply runs_bind, runs_on_snd. simpl.
    eapply runs_intro_ret; [unfold sv_get; by rewrite Hp'|].
    assert (is_write u' = false) as -> by (unfold is_write; by rewrite Hrw', Hrw). simpl. run.
    replace (set_resid (u32 (uio_resid u' + (uio_resid u - r))) u') with (restored (uio_offset u) r u u'); [done|].
    unfold restored, set_resid. rewrite u32_small by lia. f_equal; lia. }
  apply runs_bind, runs_result_of.
  eapply runs_mono; [by apply (io_body_spec p sv (set_resid r u) s I O)|..]; simpl uio_resid.
  - intros [] [u' s'] (I' & O' & Hd). pose proof Hd as (Hmv & _ & _ & (_ & Hk & _) & _).
    eapply (Hout r); [done|lia|done|]. run. exists I', O'. apply done_restored; done || lia.
  - intros e [u' s'] (I' & O' & Hf). pose proof Hf as (He & _ & m & Hm & Hmv & (_ & Hk & _) & _).
    eapply (Hout m); [done|done|done|]. assert (e <> 0) by (by destruct He as [[-> _]|[[-> _]|[-> _]]]).
    zbool. run. exists I', O'. apply failed_restored; done || lia.
Qed.

Lemma sfs_read_spec p sv u s I O : uio_ok (xu (u, s)) -> fs_rep s I O -> s_svs s !! p = Some sv ->
  uio_rw u = UIO_READ ->
  runs (sfs_io p) (u, s)
    (fun _ => ends_well p sv (readable sv u) (u, s) I) (ends_badly p sv (readable sv u) (u, s) I).
Proof.
  intros Hok Hr Hp Hrw. pose proof (ok_resid _ Hok) as Hres. destruct (ok_offset _ Hok) as [Ho1 Ho2].
  pose proof (rep_good _ _ _ _ _ Hr Hp) as [[Hsz ? ? ? ? ?] Hsz2 ? ? ?]. unfold word32 in Hsz. simpl in *.
  assert (is_read u = true) as HR by (unfold is_read; by rewrite Hrw).
  unfold sfs_io. apply runs_bind, runs_gets. simpl fst. rewrite HR. apply runs_bind, runs_on_snd.
  eapply runs_intro_ret; [unfold sv_get; simpl; by rewrite Hp|]. rewrite !i32_small by lia.
  assert (set_resid (uio_resid u) u = u) as Hid by (by destruct u).
  pose proof (io_rest_read p sv (readable sv u) u s I O Hok Hr Hp Hrw ltac:(unfold readable; lia)) as Hrest.
  destruct (Z.geb_spec (uio_offset u) (sfi_size (sv_i sv))).
  { run. unfold readable. rewrite Z.max_l by lia. by eapply ends_well_refl. }
  destruct (Z.gtb_spec (uio_offset u + uio_resid u) (sfi_size (sv_i sv))).
  - rewrite u32_small by lia. run; [lia|].
    assert (readable sv u = sfi_size (sv_i sv) - uio_offset u) as Hrd by (unfold readable; lia).
    replace (uio_offset u + uio_resid u - sfi_size (sv_i sv)) with (uio_resid u - readable sv u) by lia.
    by replace (uio_resid u - (uio_resid u - readable sv u)) with (readable sv u) by lia.
  - assert (readable sv u = uio_resid u) as Hrd by (unfold readable; lia).
    rewrite Hrd, Hid, Z.sub_diag in Hrest. by rewrite Hrd.
Qed.

Lemma sfs_write_spec p sv u s I O : uio_ok (xu (u, s)) -> fs_rep s I O -> s_svs s !! p = Some sv ->
  uio_rw u = UIO_WRITE ->
  runs (sfs_io p) (u, s)
    (fun _ => written p sv (uio_resid u) (u, s) I)
    (fun e x' => io_error (uio_resid u) (u, s) e x' /\
       exists m, 0 <= m <= uio_resid u /\ stops_at (uio_offset u) (uio_resid u) m /\
         written p sv m (u, s) I x').
Proof.
  intros Hok Hr Hp Hrw. unfold sfs_io. apply runs_bind, runs_gets. simpl fst.
  assert (is_read u = false) as -> by (unfold is_read; by rewrite Hrw). by apply (io_rest_write p sv u s I O).
Qed.

(** *** With a kernel buffer *)

Lemma with_uio_runs {S} u (m : M (uio * S) unit) (st : S) Q E :
  runs m (u, st) (fun _ y => Q y.1 y.2) (fun e y => E e y.2) -> runs (with_uio u m) st Q E.
Proof. unfold runs, with_uio. by destruct (m (u, st)) as [[[]|e| |] [u' s']]. Qed.

Lemma kuio_ok s I O buf off rw : fs_rep s I O -> byte_list buf -> 0 <= off ->
  off + Z.of_nat (length buf) < 2 ^ 31 -> uio_ok (xu (mk_kuio buf (Z.of_nat (length buf)) off rw, s)).
Proof. intros Hr Hb Ho Hl. apply mk_kuio_ok; try done; apply Hr. Qed.

Lemma kernel_read p sv s I O buf off n : fs_rep s I O -> s_svs s !! p = Some sv -> byte_list buf ->
  n = Z.of_nat (length buf) -> 0 <= off -> off + n <= sfi_size (sv_i sv) ->
  sfi_size (sv_i sv) <= FILE_LIMIT ->
  runs (with_uio (mk_kuio buf n off UIO_READ) (sfs_io p)) s
    (fun u s' => kbuf u = file_bytes s (sv_i sv) off n /\ uio_resid u = 0 /\ s_svs s' = s_svs s /\
       exists O', stepped p s I s' I O')
    (fun _ _ => False).
Proof.
  intros Hr Hp Hb -> Ho Hsz Hlim. apply with_uio_runs. unfold FILE_LIMIT, MAXBLOCKS in *.
  set (u := mk_kuio _ _ _ _). assert (readable sv u = Z.of_nat (length buf)) as Hrd.
  { unfold readable. simpl. lia. }
  assert (uio_ok (xu (u, s))) as Hok.
  { eapply kuio_ok; try done. change (SFS_NDIRECT + SFS_DBPERIDB) with 143 in Hlim. unfold SFS_BLOCKSIZE in *. lia. }
  eapply runs_mono; [by apply (sfs_read_spec p sv u s I O)|..]; rewrite Hrd.
  - intros _ [u' s'] (I' & O' & Hmv & Hok' & _ & (Hr' & Hk' & -> & Hsv & Hs') & Hput).
    specialize (Hput eq_refl). pose proof (mv_seg _ _ _ Hmv) as Hseg. simpl in *.
    pose proof (mv_kbuf _ _ _ Hmv) as Hlk. simpl in Hlk. split.
    + apply (list_eq_nth _ _ (length buf)); [done|unfold file_bytes; rewrite length_map, length_seqZ; lia|].
      intros i Hi. specialize (Hput i). unfold space in Hput. simpl in Hput. rewrite Hseg in Hput.
      unfold file_bytes in Hput at 1. rewrite length_map, length_seqZ, Z2Nat.id in Hput by lia.
      zbool_in Hput. by rewrite Z.sub_0_r in Hput.
    + split; [pose proof (mv_resid _ _ _ Hmv) as Hx; simpl in Hx; lia|]. split; [done|].
      exists O'. split; [done|]. split; [done|]. split; [done|]. by apply (mv_thread _ _ _ Hmv).
  - intros e [u' s'] (I' & O' & [[_ Hu]|[[_ [Hw _]]|[_ Hl]]] & _); try done. simpl in Hl.
    unfold FILE_LIMIT, MAXBLOCKS in Hl. lia.
Qed.

(** The file system after [n] bytes from [buf] have been written at [off]. *)
Definition stored_at p sv off n (buf : list Z) s I s' : Prop :=
  kept p s s' /\ s_thread s' = s_thread s /\ (0 < n -> off + n <= FILE_LIMIT) /\
  exists I1 O', fs_rep s' (grow (sv_ino sv) (off + n) I1) O' /\
    wrote_files (sv_ino sv) off n (fun m => nth0 buf (m - off)) (dk s) I (dk s') I1.

Lemma kernel_write p sv s I O buf off n : fs_rep s I O -> s_svs s !! p = Some sv -> byte_list buf ->
  n = Z.of_nat (length buf) -> 0 <= off -> off + n < 2 ^ 31 ->
  runs (with_uio (mk_kuio buf n off UIO_WRITE) (sfs_io p)) s
    (fun u s' => uio_resid u = 0 /\ stored_at p sv off n buf s I s')
    (fun e s' => ((e = ENOSPC /\ full s') \/ (e = EINVAL /\ FILE_LIMIT < off + n)) /\
       exists m, 0 <= m <= n /\ stops_at off n m /\ stored_at p sv off m buf s I s').
Proof.
  intros Hr Hp Hb -> Ho Hsz. apply with_uio_runs. set (u := mk_kuio _ _ _ _).
  assert (uio_ok (xu (u, s))) as Hok by (by eapply kuio_ok).
  assert (forall m x', 0 <= m -> written p sv m (u, s) I x' -> stored_at p sv off m buf s I x'.2) as Hw.
  { intros m x' Hm (Hmv & Hok' & Hsp & Hk & Hlim & I1 & O' & Hr' & Hwr). split; [done|].
    split; [by apply (mv_thread _ _ _ Hmv)|]. split; [done|]. exists I1, O'. split; [done|].
    eapply wrote_ext; [|exact Hwr]. intros a Ha. unfold source, space. simpl in *. rewrite Z.add_0_l.
    by zbool. }
  eapply runs_mono; [by apply (sfs_write_spec p sv u s I O)|..].
  - intros [] x' Hwr. split; [|apply (Hw (Z.of_nat (length buf)) x'); [lia|exact Hwr]].
    destruct Hwr as (Hmv & _). pose proof (mv_resid _ _ _ Hmv) as Hx. simpl in Hx. lia.
  - intros e x' [[[_ Hu]|[(? & _ & ?)|[? ?]]] (m & Hm & Hst & Hwr)]; [done|..];
      (split; [by auto|]; exists m; split; [done|]; split; [done|]; apply Hw; [lia|done]).
Qed.

(** *** Overwriting part of a block that the file has *)

Lemma io_body_found p sv u s I O : uio_ok (xu (u, s)) -> fs_rep s I O -> s_svs s !! p = Some sv ->
  uio_rw u = UIO_WRITE -> is_user u = false -> 0 < uio_resid u < SFS_BLOCKSIZE ->
  uio_offset u mod SFS_BLOCKSIZE + uio_resid u <= SFS_BLOCKSIZE -> uio_offset u / SFS_BLOCKSIZE < MAXBLOCKS ->
  fblock (dk s) (sv_i sv) (uio_offset u / SFS_BLOCKSIZE) <> 0 ->
  runs (sfs_io_body p) (u, s) (fun _ => ends_well p sv (uio_resid u) (u, s) I) (fun _ _ => False).
Proof.
  intros Hok Hr Hp Hrw Hus Hres Hfit Hkm Hz. unfold sfs_io_body.
  destruct (fileblock_eq (u, s) Hok) as (_ & Hk & Hoff & Hm). simpl fst in *.
  destruct (ok_offset _ Hok) as [Ho1 _]. simpl in Ho1.
  set (off := uio_offset u mod SFS_BLOCKSIZE) in *.
  assert (u32 (Z.rem (uio_offset u) SFS_BLOCKSIZE) = off) as Hrem.
  { rewrite Z.rem_mod_nonneg by done. apply u32_small. unfold SFS_BLOCKSIZE in *. lia. }
  assert (runs (sfs_partialio p off (uio_resid u)) (u, s)
    (fun _ => ends_well p sv (uio_resid u) (u, s) I) (fun _ _ => False)) as Hpart.
  { eapply (partialio_mapped p sv off (uio_resid u) u s I O (fun _ _ => False)); try done; try lia; [|congruence].
    by eapply bmap_found. }
  apply runs_bind, runs_gets. simpl. rewrite Hrem. apply runs_bind. destruct (Z.eqb_spec off 0) as [E|E]; simpl.
  - run. zbool. run; [by rewrite Z.rem_mod_nonneg by done; fold off; rewrite E|].
    rewrite (Z.div_small (uio_resid u)) by lia. change (seqZ 0 0) with (@nil Z). cbn [for_each]. run; [lia|]. zbool. by rewrite E in Hpart.
  - replace (if SFS_BLOCKSIZE - off >? uio_resid u then uio_resid u else SFS_BLOCKSIZE - off) with (uio_resid u)
      by (destruct (Z.gtb_spec (SFS_BLOCKSIZE - off) (uio_resid u)); lia).
    eapply runs_mono; [exact Hpart| |done]. intros [] x1 Hw1.
    pose proof (mv_resid _ _ _ (ends_well_moved _ _ _ _ _ _ Hw1)) as Hx. simpl in Hx. run. zbool. by run.
Qed.

Lemma kernel_write_found p sv s I O buf off n : fs_rep s I O -> s_svs s !! p = Some sv -> byte_list buf ->
  n = Z.of_nat (length buf) -> 0 <= off -> off + n <= FILE_LIMIT -> 0 < n < SFS_BLOCKSIZE ->
  off mod SFS_BLOCKSIZE + n <= SFS_BLOCKSIZE -> fblock (dk s) (sv_i sv) (off / SFS_BLOCKSIZE) <> 0 ->
  runs (with_uio (mk_kuio buf n off UIO_WRITE) (sfs_io p)) s
    (fun u s' => uio_resid u = 0 /\ stored_at p sv off n buf s I s') (fun _ _ => False).
Proof.
  intros Hr Hp Hb -> Ho Hlim Hn Hfit Hz. assert (FILE_LIMIT = 73216) as HL by done.
  apply (runs_no_err _ _ _ (fun _ _ => True)); [eapply runs_mono; [eapply kernel_write; try done; lia|done|done]|].
  set (u := mk_kuio _ _ _ _). assert (uio_ok (xu (u, s))) as Hok by (eapply kuio_ok; try done; lia).
  intros e s' He. unfold with_uio in He.
  assert (runs (sfs_io_body p) (u, s) (fun _ _ => True) (fun _ _ => False)) as Hbody.
  { eapply runs_mono; [eapply io_body_found; try done|done|done]. simpl. apply Z.div_lt_upper_bound; [done|].
    unfold FILE_LIMIT, SFS_BLOCKSIZE in *. lia. }
  destruct (runs_elim _ _ _ _ Hbody) as [([] & x1 & E1 & _)|(? & ? & _ & [])].
  assert (noerr (sfs_io p) (u, s)) as Hno; [|by destruct (sfs_io p (u, s)) as [[] []] eqn:E; simplify_eq; eapply Hno].
  unfold sfs_io, sfs_io_rest. apply noerr_bind; [done|]. intros u0 x0 [= <- <-]. 
  change (is_read (u, s).1) with false. cbn iota. apply noerr_bind; [intros ? ?; unfold result_of; by rewrite E1|].
  intros r x2. unfold result_of at 1. rewrite E1. intros [= <- <-]. apply noerr_bind; [done|]. intros u2 x2 _.
  apply noerr_bind; [intros ? ?; unfold on_snd, zoom, sv_get; by destruct (s_svs x2.2 !! p)|]. intros sv2 x3 _.
  apply noerr_bind; [|intros _ x4 _; by apply noerr_bind].
  intros ? ?. destruct (_ && _); [|done]. unfold on_snd, zoom, inode_modify, sv_modify. by destruct (s_svs x3.2 !! p).
Qed.

(** *** Past the largest file *)

Lemma bmap_big p k doalloc s : MAXBLOCKS <= k -> sfs_bmap p k doalloc s = (Err EINVAL, s).
Proof.
  unfold MAXBLOCKS, SFS_NDIRECT, SFS_DBPERIDB. intros Hk. unfold sfs_bmap, SFS_NDIRECT, SFS_DBPERIDB.
  assert (0 < (k - 15) / 128) by (apply Z.div_str_pos; lia). by zbool.
Qed.

Lemma limit_block x : uio_ok (xu x) -> FILE_LIMIT <= uio_offset x.1 ->
  MAXBLOCKS <= u32 (Z.quot (uio_offset x.1) SFS_BLOCKSIZE).
Proof.
  intros Hok Hl. destruct (fileblock_eq x Hok) as (-> & _ & Hoff & Hm).
  unfold FILE_LIMIT, MAXBLOCKS, SFS_BLOCKSIZE in *. lia.
Qed.

Lemma partialio_big p skip len x : uio_ok (xu x) -> FILE_LIMIT <= uio_offset x.1 ->
  skip + len <= SFS_BLOCKSIZE -> sfs_partialio p skip len x = (Err EINVAL, x).
Proof.
  intros Hok Hl Hf. unfold sfs_partialio, bind, gets, assert. zbool.
  unfold on_snd, zoom. rewrite bmap_big by (by apply limit_block). by destruct x.
Qed.

Lemma blockio_big p x : uio_ok (xu x) -> FILE_LIMIT <= uio_offset x.1 ->
  sfs_blockio p x = (Err EINVAL, x).
Proof.
  intros Hok Hl. unfold sfs_blockio, bind, gets. unfold on_snd, zoom.
  rewrite bmap_big by (by apply limit_block). by destruct x.
Qed.

Lemma io_body_big p u s : uio_ok (xu (u, s)) -> FILE_LIMIT <= uio_offset u -> 0 < uio_resid u ->
  sfs_io_body p (u, s) = (Err EINVAL, (u, s)).
Proof.
  intros Hok Hl Hn. destruct (fileblock_eq (u, s) Hok) as (_ & _ & Hoff & Hm). simpl fst in *.
  destruct (ok_offset _ Hok) as [Ho1 _]. simpl in Ho1.
  assert (u32 (Z.rem (uio_offset u) SFS_BLOCKSIZE) = uio_offset u mod SFS_BLOCKSIZE) as Hrem.
  { rewrite Z.rem_mod_nonneg by done. apply u32_small. unfold SFS_BLOCKSIZE in *. lia. }
  unfold sfs_io_body. unfold bind at 1. unfold gets at 1. simpl fst. cbn beta iota. rewrite Hrem.
  destruct (Z.eqb_spec (uio_offset u mod SFS_BLOCKSIZE) 0) as [E|E]; cbn [negb].
  - unfold bind, ret, gets, assert. cbn [fst].
    replace (uio_resid u =? 0) with false by lia. rewrite Z.rem_mod_nonneg, E by done.
    change (0 =? 0) with true. cbn iota. destruct (decide (uio_resid u < SFS_BLOCKSIZE)).
    + rewrite Z.div_small by lia. change (seqZ 0 0) with (@nil Z). cbn [for_each]. unfold ret. cbn [fst].
      zbool. apply partialio_big; [done|done|lia].
    + assert (0 < uio_resid u / SFS_BLOCKSIZE) by (apply Z.div_str_pos; unfold SFS_BLOCKSIZE in *; lia).
      rewrite (seqZ_cons 0) by done. simpl. unfold bind. by rewrite blockio_big.
  - unfold bind at 1. rewrite partialio_big; [done|done|done|].
    destruct (Z.gtb_spec (SFS_BLOCKSIZE - uio_offset u mod SFS_BLOCKSIZE) (uio_resid u)); lia.
Qed.

End io.

(** ** Theorems *)

(** C10: [sfs_read] transfers exactly the bytes of the file from the current
    offset up to the end of the file or of the request, advances the uio by that
    many and changes no file; it fails only with EFAULT on a user region or, for
    an inode whose size exceeds what the block map can address, EINVAL, and then
    only the region asked for may have changed. *)
Theorem sfs_read_correct {U D H : Type} `{BlockDevLaws U D} p sv u (s : sfs U D H) I O :
  uio_ok (xu (u, s)) -> fs_rep s I O -> s_svs s !! p = Some sv -> uio_rw u = UIO_READ ->
  runs (sfs_read p) (u, s)
    (fun _ x' => exists O', io_done p sv (readable sv u) (u, s) I x' I O')
    (fun e x' => exists O', io_failed p sv (readable sv u) (u, s) I e x' I O').
Proof.
  intros Hok Hr Hp Hrw. unfold sfs_read. apply runs_bind, runs_gets. apply runs_bind, runs_assert.
  { unfold is_read. simpl. by rewrite Hrw. }
  eapply runs_mono; [by apply (sfs_read_spec p sv u s I O)|..].
  - intros [] x' (I' & O' & Hd). exists O'. pose proof Hd as (_ & _ & _ & (_ & _ & Hq) & _).
    simpl in Hq. rewrite Hrw in Hq. by destruct Hq as [-> _].
  - intros e x' (I' & O' & Hf). exists O'. pose proof Hf as (_ & _ & m & _ & _ & (_ & _ & Hq) & _).
    simpl in Hq. rewrite Hrw in Hq. by destruct Hq as [-> _].
Qed.

(** C8: [sfs_write] makes the file hold the bytes of the region at the current
    offset, grows its size to the end of what was written, allocates the blocks
    that were missing and changes nothing else in any file.  A failed write
    (EFAULT, ENOSPC with every block in use, or EINVAL past the largest file)
    has written a prefix that ends at a block boundary. *)
Theorem sfs_write_correct {U D H : Type} `{BlockDevLaws U D} p sv u (s : sfs U D H) I O :
  uio_ok (xu (u, s)) -> fs_rep s I O -> s_svs s !! p = Some sv -> uio_rw u = UIO_WRITE ->
  runs (sfs_write p) (u, s)
    (fun _ x' => written p sv (uio_resid u) (u, s) I x')
    (fun e x' => io_error (uio_resid u) (u, s) e x' /\
       exists m, 0 <= m <= uio_resid u /\ stops_at (uio_offset u) (uio_resid u) m /\
         written p sv m (u, s) I x').
Proof.
  intros Hok Hr Hp Hrw. unfold sfs_write. apply runs_bind, runs_gets. apply runs_bind, runs_assert.
  { unfold is_write. simpl. by rewrite Hrw. }
  by apply (sfs_write_spec p sv u s I O).
Qed.

(** data written at a position is what a read there gives back; the only
    error is a full disk. *)
Theorem sfs_write_read {U D H : Type} `{BlockDevLaws U D} p sv (s : sfs U D H) I O buf off :
  fs_rep s I O -> s_svs s !! p = Some sv -> sfi_size (sv_i sv) <= FILE_LIMIT -> byte_list buf ->
  0 <= off -> off + Z.of_nat (length buf) <= FILE_LIMIT ->
  let n := Z.of_nat (length buf) in
  runs (with_uio (mk_kuio buf n off UIO_WRITE) (sfs_write p) ;;;
        u <- with_uio (mk_kuio (replicate (length buf) 0) n off UIO_READ) (sfs_read p) ;;
        ret (kbuf u)) s
    (fun bs s' => bs = buf) (fun e _ => e = ENOSPC).
Proof.
  intros Hr Hp Hsz Hb Ho Hl n. assert (FILE_LIMIT < 2 ^ 31) as Hlim by done.
  apply runs_bind. change (with_uio (mk_kuio buf n off UIO_WRITE) (sfs_write p))
    with (with_uio (mk_kuio buf n off UIO_WRITE) (sfs_io (U := U) (D := D) (H := H) p)).
  eapply runs_mono; [eapply (kernel_write p sv s I O buf off n); try done; lia|..].
  2:{ intros e s' [[[-> _]|[_ ?]] _]; [done|lia]. }
  intros u1 s1 (_ & Hk & Ht & _ & I1 & O1 & Hr1 & Hd & Hw).
  destruct (kp_sv _ _ _ Hk _ Hp) as (sv1 & Hp1 & _ & Hino).
  pose proof (rep_at _ _ _ _ _ Hr1 Hp1) as Hi1. rewrite Hino in Hi1.
  unfold grow in Hi1. rewrite lookup_alter_eq in Hi1.
  destruct (I1 !! sv_ino sv) as [i1|] eqn:Hi; [|done]. simpl in Hi1. injection Hi1 as Hi1.
  destruct (Hw _ _ _ (rep_at _ _ _ _ _ Hr Hp) Hi) as (_ & _ & Hsz1 & Hby).
  assert (file_bytes s1 (sv_i sv1) off n = buf) as Hbytes.
  { apply (list_eq_nth _ _ (length buf)); [unfold file_bytes; rewrite length_map, length_seqZ; lia|done|].
    intros j Hj. unfold file_bytes. rewrite nth_map_seqZ by lia. rewrite <- Hi1.
    change (file_byte (dk s1) (set_size _ i1) (off + j)) with (file_byte (dk s1) i1 (off + j)).
    rewrite Hby by (unfold FILE_LIMIT in *; lia). rewrite Z.eqb_refl. zbool. unfold nth0.
    do 2 f_equal. lia. }
  apply runs_bind. change (with_uio (mk_kuio (replicate (length buf) 0) n off UIO_READ) (sfs_read p))
    with (with_uio (mk_kuio (replicate (length buf) 0) n off UIO_READ) (sfs_io (U := U) (D := D) (H := H) p)).
  eapply runs_mono; [eapply (kernel_read p sv1); try done|..]; rewrite <- ?Hi1; simpl.
  - by apply byte_list_replicate.
  - by rewrite length_replicate.
  - lia.
  - rewrite Hsz1. lia.
  - intros u2 s2 (Hkb & _). run. by rewrite Hkb, Hi1.
  - done.
Qed.

(** C39: a write at or past the largest file offset fails with EINVAL but still
    sets the size of the file to that offset. *)
Theorem sfs_write_past_limit {U D H : Type} `{BlockDevLaws U D} p sv u (s : sfs U D H) I O :
  uio_ok (xu (u, s)) -> fs_rep s I O -> s_svs s !! p = Some sv -> uio_rw u = UIO_WRITE ->
  FILE_LIMIT <= uio_offset u -> sfi_size (sv_i sv) < uio_offset u -> 0 < uio_resid u ->
  exists s', sfs_write p (u, s) = (Err EINVAL, (u, s')) /\
    s_svs s' !! p = Some (set_dirty true (set_inode (set_size (uio_offset u) (sv_i sv)) sv)).
Proof.
  intros Hok Hr Hp Hrw Hl Hsz Hn. eexists. split.
  - assert (is_write u = true) as Hw by (unfold is_write; by rewrite Hrw).
    assert (is_read u = false) as Hr0 by (unfold is_read; by rewrite Hrw).
    pose proof (rep_good _ _ _ _ _ Hr Hp) as [[Hs ? ? ? ? ?] Hsz2 ? ? ?]. unfold word32 in Hs.
    destruct (ok_offset _ Hok) as [? ?]. pose proof (ok_resid _ Hok). pose proof (ok_len _ Hok). simpl in *.
    unfold sfs_write, bind at 1, gets at 1. cbn [fst]. unfold bind at 1, assert at 1. rewrite Hw.
    unfold sfs_io, bind at 1, gets at 1. cbn [fst]. rewrite Hr0.
    unfold sfs_io_rest, bind at 1, result_of. rewrite io_body_big by done.
    unfold bind at 1, gets at 1. cbn [fst]. unfold bind at 1, on_snd at 1, zoom at 1, sv_get. cbn [snd].
    rewrite Hp, Hw. cbn [fst andb]. rewrite i32_small by lia. zbool.
    unfold bind at 1, on_snd at 1, zoom at 1. cbn [snd]. rewrite (inode_modify_eq _ _ _ sv) by done.
    unfold bind, on_fst, zoom, modify. cbn [fst snd]. rewrite Z.add_0_r, (u32_small (uio_resid u)) by lia.
    assert (set_resid (uio_resid u) u = u) as -> by (by destruct u). reflexivity.
  - simpl. rewrite lookup_insert_eq. rewrite u32_small; [done|].
    destruct (ok_offset _ Hok) as [? ?]. pose proof (ok_resid _ Hok). simpl in *. lia.
Qed.

(** *** Witnesses *)

(** A request of [n] bytes from a kernel buffer at [off] of the sample file. *)
Definition request (n : nat) (off : Z) (rw : uio_rw_t) : uio := mk_kuio (replicate n 9) (Z.of_nat n) off rw.

Lemma request_ok n off rw : 0 <= off -> off + Z.of_nat n < 2 ^ 31 -> uio_ok (xu (request n off rw, sample tt)).
Proof.
  intros. unfold request. rewrite <- (length_replicate n 9) at 2.
  eapply kuio_ok; [apply sample_rep|by apply byte_list_replicate|done|by rewrite length_replicate].
Qed.

Lemma sfs_read_correct_witness :
  runs (sfs_read 2000) (request 40 80 UIO_READ, sample tt)
    (fun _ x' => exists O', io_done 2000 file_sv 20 (request 40 80 UIO_READ, sample tt) sample_I x' sample_I O')
    (fun e x' => exists O', io_failed 2000 file_sv 20 (request 40 80 UIO_READ, sample tt) sample_I e x' sample_I O').
Proof.
  apply (sfs_read_correct 2000 file_sv (request 40 80 UIO_READ) (sample tt) sample_I sample_O).
  - by apply request_ok.
  - apply sample_rep.
  - done.
  - done.
Defined.

Lemma sfs_write_correct_witness :
  runs (sfs_write 2000) (request 40 80 UIO_WRITE, sample tt)
    (fun _ x' => written 2000 file_sv 40 (request 40 80 UIO_WRITE, sample tt) sample_I x')
    (fun e x' => io_error 40 (request 40 80 UIO_WRITE, sample tt) e x' /\
       exists m, 0 <= m <= 40 /\ stops_at 80 40 m /\
         written 2000 file_sv m (request 40 80 UIO_WRITE, sample tt) sample_I x').
Proof.
  apply (sfs_write_correct 2000 file_sv (request 40 80 UIO_WRITE) (sample tt) sample_I sample_O).
  - by apply request_ok.
  - apply sample_rep.
  - done.
  - done.
Defined.

Lemma sfs_write_read_witness :
  runs (with_uio (mk_kuio [1; 2; 3] 3 511 UIO_WRITE) (sfs_write 2000) ;;;
        u <- with_uio (mk_kuio [0; 0; 0] 3 511 UIO_READ) (sfs_read 2000) ;;
        ret (kbuf u)) (sample tt)
    (fun bs s' => bs = [1; 2; 3]) (fun e _ => e = ENOSPC).
Proof.
  apply (sfs_write_read 2000 file_sv (sample tt) sample_I sample_O [1; 2; 3] 511).
  - apply sample_rep.
  - done.
  - done.
  - by repeat constructor.
  - done.
  - done.
Defined.

Lemma sfs_write_past_limit_witness :
  exists s', sfs_write 2000 (request 1 80000 UIO_WRITE, sample tt) = (Err EINVAL, (request 1 80000 UIO_WRITE, s')) /\
    s_svs s' !! 2000 = Some (set_dirty true (set_inode (set_size 80000 file_inode) file_sv)).
Proof.
  apply (sfs_write_past_limit 2000 file_sv (request 1 80000 UIO_WRITE) (sample tt) sample_I sample_O).
  - by apply request_ok.
  - apply sample_rep.
  - done.
  - done.
  - done.
  - done.
  - done.
Defined.
