(* ===== verification/SfsDir.v ===== *)
(** The SFS file system, directories: kern/fs/sfs/sfs_vnode.c, sfs_readdir to
    sfs_dir_unlink.

    A directory is a file of 64-byte slots.  Its abstract view is the list of
    those slots, [dir_slots], and the theorems relate each operation to a change
    of that list. *)

From Stdlib Require Import ZArith Lia.
From stdpp Require Import prelude gmap list.
From S2P Require Import Prelude Str Heap Array Bitmap SynchObj Vnode Pages Copy Uio Device Lhd SfsDisk SfsFile SfsRep SfsSample SfsBmap SfsIo.
Import Flat SimCard.

#[local] Arguments replicate : simpl never.

(** ** Definitions *)

Section dir_ops.
Context {U D H : Type} `{!UserMem U} `{!BlockDev U D}.

(** The position of slot [slot]. *)
Definition slot_pos (slot : Z) : Z := i32 (u32 (slot * sizeof_sfs_dir)).

(** [sd] is a local variable of the callers; what it holds before is not used. *)
Definition sfs_readdir (p slot : Z) : M (sfs U D H) sfs_dir :=
  ku <- with_uio (mk_kuio (replicate (Z.to_nat sizeof_sfs_dir) 0) sizeof_sfs_dir (slot_pos slot) UIO_READ)
    (sfs_io p) ;;
  if uio_resid ku >? 0 then panic else ret (decode_dir (kbuf ku)).

Definition sfs_writedir (p : Z) (sd : sfs_dir) (slot : Z) : M (sfs U D H) unit :=
  assert (slot >=? 0) ;;;
  ku <- with_uio (mk_kuio (encode_dir sd) sizeof_sfs_dir (slot_pos slot) UIO_WRITE) (sfs_io p) ;;
  if uio_resid ku >? 0 then panic else ret tt.

Definition sfs_dir_nentries (p : Z) : M (sfs U D H) Z :=
  sv <- sv_get p ;;
  assert (sfi_type (sv_i sv) =? SFS_TYPE_DIR) ;;;
  let size := i32 (sfi_size (sv_i sv)) in
  if negb (u32 size mod sizeof_sfs_dir =? 0) then panic
  else ret (i32 (u32 size / sizeof_sfs_dir)).

(** The body of the loop of [sfs_dir_findname].  The local variables: the inode
    number and slot found, and the last empty slot seen. *)
Definition findname_slot (p : Z) (name : list Z) (b : option (Z * Z) * option Z) (i : Z) :
    M (sfs U D H) (option (Z * Z) * option Z) :=
  tsd <- sfs_readdir p i ;;
  if sfd_ino tsd =? SFS_NOINO then ret (b.1, Some i)
  else
    match strcmp (<[Z.to_nat (SFS_NAMELEN - 1) := 0]> (sfd_name tsd)) (name ++ [0]) with
    | None => panic
    | Some r =>
        if r =? 0 then
          assert (match b.1 with None => true | Some _ => false end) ;;;
          ret (Some (sfd_ino tsd, i), b.2)
        else ret b
    end.

(** The inode number and slot under [name], [None] standing for the result
    ENOENT, and [*emptyslot]. *)
Definition sfs_dir_findname (p : Z) (name : list Z) : M (sfs U D H) (option (Z * Z) * option Z) :=
  nentries <- sfs_dir_nentries p ;;
  fold_each (seqZ 0 nentries) (None, None) (findname_slot p name).

(** Returns the slot used. *)
Definition sfs_dir_link (p : Z) (name : list Z) (ino : Z) : M (sfs U D H) Z :=
  '(found, emptyslot) <- sfs_dir_findname p name ;;
  match found with
  | Some _ => fail EEXIST
  | None =>
      match strlen (name ++ [0]) with
      | None => panic
      | Some len =>
          if u32 (len + 1) >? SFS_NAMELEN then fail ENAMETOOLONG
          else
            emptyslot <- match emptyslot with Some e => ret e | None => sfs_dir_nentries p end ;;
            match strcpy (replicate (Z.to_nat SFS_NAMELEN) 0) (name ++ [0]) with
            | None => panic
            | Some sfd_name =>
                sfs_writedir p (mk_dir ino sfd_name) emptyslot ;;;
                ret emptyslot
            end
      end
  end.

Definition sfs_dir_unlink (p slot : Z) : M (sfs U D H) unit :=
  sfs_writedir p (mk_dir SFS_NOINO (replicate (Z.to_nat SFS_NAMELEN) 0)) slot.

End dir_ops.

(** ** The slots of a directory *)

Section dir.
Context {U D H : Type} `{BlockDevLaws U D}.
Implicit Types (s : sfs U D H) (I : gmap Z sfs_inode) (O : gmap Z owner).

Definition dir_slot s (i : sfs_inode) (k : Z) : sfs_dir := decode_dir (file_bytes s i (64 * k) 64).
Definition nslots (i : sfs_inode) : Z := sfi_size i / 64.
Definition dir_slots s (i : sfs_inode) : list sfs_dir := map (dir_slot s i) (seqZ 0 (nslots i)).

(** The name in a slot: the bytes up to the first NUL, at most 59. *)
Fixpoint until_nul (bs : list Z) : list Z :=
  match bs with
  | [] => []
  | c :: bs => if c =? 0 then [] else c :: until_nul bs
  end.
Definition slot_name (sd : sfs_dir) : list Z := until_nul (take 59 (sfd_name sd)).

(** No name is in use twice. *)
Definition names_unique (l : list sfs_dir) : Prop :=
  forall j k sj sk, l !! j = Some sj -> l !! k = Some sk ->
    sfd_ino sj <> SFS_NOINO -> sfd_ino sk <> SFS_NOINO -> slot_name sj = slot_name sk -> j = k.

(** A directory: whole slots, within the largest file, no name twice. *)
Record dir_good s (i : sfs_inode) : Prop := {
  dg_type : sfi_type i = SFS_TYPE_DIR;
  dg_size : sfi_size i = 64 * nslots i;
  dg_limit : sfi_size i <= FILE_LIMIT;
  dg_unique : names_unique (dir_slots s i);
}.

(** What a lookup finds. *)
Definition entry_at (l : list sfs_dir) (name : list Z) (r : option (Z * Z)) : Prop :=
  match r with
  | Some (ino, k) => 0 <= k /\ exists sd, l !! Z.to_nat k = Some sd /\ sfd_ino sd = ino /\
      ino <> SFS_NOINO /\ slot_name sd = name
  | None => forall sd, sd ∈ l -> sfd_ino sd <> SFS_NOINO -> slot_name sd <> name
  end.

Definition empty_at (l : list sfs_dir) (r : option Z) : Prop :=
  match r with
  | Some k => 0 <= k /\ exists sd, l !! Z.to_nat k = Some sd /\ sfd_ino sd = SFS_NOINO
  | None => forall sd, sd ∈ l -> sfd_ino sd <> SFS_NOINO
  end.

Definition name_ok (name : list Z) : Prop := Forall (fun c => 0 < c < 256) name.

Lemma until_nul_str bs : byte_list bs -> is_str (bs ++ [0]) (until_nul bs).
Proof.
  induction 1 as [|c bs Hc _ IH]; simpl; [apply is_str_nil|].
  destruct (Z.eqb_spec c 0) as [->|]; [apply is_str_nil|]. apply is_str_cons; [lia|done].
Qed.

(** The name as [sfs_dir_findname] sees it. *)
Lemma slot_name_str sd : dir_shape sd -> is_str (<[59%nat := 0]> (sfd_name sd)) (slot_name sd).
Proof.
  intros (_ & Hl & Hb). unfold slot_name.
  assert (<[59%nat := 0]> (sfd_name sd) = take 59 (sfd_name sd) ++ [0]) as ->.
  { rewrite insert_take_drop by lia. by rewrite (drop_ge _ 60) by lia. }
  by apply until_nul_str, Forall_take.
Qed.

(** *** Reading *)

Lemma file_byte_range s I O ino i m : fs_rep s I O -> I !! ino = Some i -> 0 <= m < FILE_LIMIT ->
  0 <= file_byte (dk s) i m < 256.
Proof.
  intros Hr Hi Hm. unfold file_byte. destruct (Z.eqb_spec (fblock (dk s) i (m / SFS_BLOCKSIZE)) 0); [lia|].
  pose proof (rep_fblock _ _ _ _ _ _ Hr Hi (block_range _ Hm) n) as Ho.
  destruct (rep_block _ _ _ _ _ Hr Ho) as (_ & [Hb _] & _). unfold nth0.
  apply byte_nth. by destruct (dblock_len _ _ (rep_dev _ _ _ Hr) Hb).
Qed.

Lemma file_bytes_ok s I O ino i off n : fs_rep s I O -> I !! ino = Some i -> 0 <= off ->
  off + n <= FILE_LIMIT -> length (file_bytes s i off n) = Z.to_nat n /\ byte_list (file_bytes s i off n).
Proof.
  intros Hr Hi Ho Hl. unfold file_bytes. rewrite length_map, length_seqZ. split; [done|].
  apply Forall_forall. intros b (m & -> & Hm%elem_of_seqZ)%list_elem_of_fmap.
  eapply file_byte_range; [done|done|lia].
Qed.

Lemma nslots_pos s I O p sv : fs_rep s I O -> s_svs s !! p = Some sv -> 0 <= nslots (sv_i sv).
Proof.
  intros Hr Hp. destruct (rep_good _ _ _ _ _ Hr Hp) as [[Hsz ? ? ? ? ?] _ _ _ _].
  unfold word32 in Hsz. apply Z.div_pos; lia.
Qed.

Lemma slot_pos_eq k : 0 <= k -> 64 * k < 2 ^ 31 -> slot_pos k = 64 * k.
Proof.
  intros. unfold slot_pos, sizeof_sfs_dir, SFS_NAMELEN. rewrite u32_small, i32_small by lia. lia.
Qed.

Lemma dir_slots_lookup s i k sd : 0 <= nslots i ->
  dir_slots s i !! Z.to_nat k = Some sd -> 0 <= k -> k < nslots i /\ sd = dir_slot s i k.
Proof.
  intros Hn Hk Hk0. unfold dir_slots in Hk. rewrite list_lookup_fmap in Hk.
  destruct (seqZ 0 (nslots i) !! Z.to_nat k) as [j|] eqn:E; [|done]. simpl in Hk.
  apply lookup_seqZ in E as [-> ?]. rewrite Z2Nat.id, Z.add_0_l in * by done. by simplify_eq.
Qed.

Lemma dir_slots_at s i k : 0 <= k < nslots i -> dir_slots s i !! Z.to_nat k = Some (dir_slot s i k).
Proof.
  intros Hk. unfold dir_slots. rewrite list_lookup_fmap.
  rewrite (proj2 (lookup_seqZ 0 (nslots i) (Z.to_nat k) k)) by lia. done.
Qed.

Lemma length_dir_slots s i : length (dir_slots s i) = Z.to_nat (nslots i).
Proof. unfold dir_slots. by rewrite length_map, length_seqZ. Qed.

Lemma dir_slot_shape s I O ino i k : fs_rep s I O -> I !! ino = Some i -> 0 <= k ->
  64 * k + 64 <= FILE_LIMIT -> dir_shape (dir_slot s i k).
Proof.
  intros Hr Hi Hk Hl. destruct (file_bytes_ok s I O ino i (64 * k) 64) as [? ?]; try done; [lia|].
  by apply decode_dir_shape.
Qed.

Lemma readdir_runs p sv s I O k : fs_rep s I O -> s_svs s !! p = Some sv -> dir_good s (sv_i sv) ->
  0 <= k < nslots (sv_i sv) ->
  runs (sfs_readdir p k) s
    (fun sd s' => sd = dir_slot s (sv_i sv) k /\ s_svs s' = s_svs s /\ exists O', stepped p s I s' I O')
    (fun _ _ => False).
Proof.
  intros Hr Hp [Ht Hsz Hlim _] Hk. unfold sfs_readdir. apply runs_bind.
  assert (FILE_LIMIT = 73216) as HL by done.
  rewrite slot_pos_eq by lia. change sizeof_sfs_dir with 64.
  eapply runs_mono; [eapply (kernel_read p sv s I O _ (64 * k) 64); try done; try lia|..].
  - by apply byte_list_replicate.
  - intros u s' (Hb & Hres & Hsv & Hst). rewrite Hres. change (0 >? 0) with false. run.
    split; [|done]. by rewrite Hb.
  - done.
Qed.

Lemma nentries_eq p sv s I O : fs_rep s I O -> s_svs s !! p = Some sv -> dir_good s (sv_i sv) ->
  sfs_dir_nentries p s = (Ret (nslots (sv_i sv)), s).
Proof.
  intros Hr Hp [Ht Hsz Hlim _]. assert (FILE_LIMIT = 73216) as HL by done.
  pose proof (nslots_pos _ _ _ _ _ Hr Hp).
  unfold sfs_dir_nentries, bind, sv_get. rewrite Hp, Ht. unfold assert. change (SFS_TYPE_DIR =? SFS_TYPE_DIR) with true.
  cbn iota beta. rewrite i32_small, u32_small by lia. change sizeof_sfs_dir with 64.
  replace (sfi_size (sv_i sv) mod 64) with 0 by (rewrite Hsz, Z.mul_comm; by rewrite Z.mod_mul).
  change (0 =? 0) with true. cbn [negb]. unfold ret, nslots in *. rewrite i32_small by lia. done.
Qed.

(** The directory reads the same after a step that changes no file. *)
Lemma dir_slot_stepped p s s' I O sv k : same_files (dk s) I (dk s') I -> fs_rep s I O ->
  s_svs s !! p = Some sv -> 0 <= k -> 64 * k + 64 <= FILE_LIMIT ->
  dir_slot s' (sv_i sv) k = dir_slot s (sv_i sv) k.
Proof.
  intros Hs Hr Hp Hk Hl. unfold dir_slot.
  by rewrite (file_bytes_same s s' I _ (sv_ino sv)) by (done || lia || by eapply rep_at).
Qed.

Lemma dir_slots_stepped p s s' I O sv : same_files (dk s) I (dk s') I -> fs_rep s I O ->
  s_svs s !! p = Some sv -> dir_good s (sv_i sv) -> dir_slots s' (sv_i sv) = dir_slots s (sv_i sv).
Proof.
  intros Hs Hr Hp [_ Hsz Hlim _]. unfold dir_slots. apply map_ext_in. intros k Hk.
  apply list_elem_of_In, elem_of_seqZ in Hk. eapply dir_slot_stepped; try done; lia.
Qed.

Lemma dir_good_stepped p s s' I O sv : same_files (dk s) I (dk s') I -> fs_rep s I O ->
  s_svs s !! p = Some sv -> dir_good s (sv_i sv) -> dir_good s' (sv_i sv).
Proof.
  intros Hs Hr Hp Hg. pose proof (dir_slots_stepped _ _ _ _ _ _ Hs Hr Hp Hg) as Hsl.
  destruct Hg as [? ? ? Hu]. split; try done. by rewrite Hsl.
Qed.

(** *** Searching *)

Lemma entry_at_weaken l sd name r : entry_at l name r ->
  (r = None -> sfd_ino sd = SFS_NOINO \/ slot_name sd <> name) -> entry_at (l ++ [sd]) name r.
Proof.
  intros He Hn. destruct r as [[ino k]|].
  - destruct He as (Hk & sd' & Hl & Hrest). split; [done|]. exists sd'. split; [|done].
    by apply lookup_app_l_Some.
  - intros sd' [Hin| ->%list_elem_of_singleton]%elem_of_app Hne; [by apply He|].
    by destruct (Hn eq_refl).
Qed.

Lemma empty_at_weaken l sd r : empty_at l r -> sfd_ino sd <> SFS_NOINO -> empty_at (l ++ [sd]) r.
Proof.
  intros He Hn. destruct r as [k|].
  - destruct He as (Hk & sd' & Hl & Hrest). split; [done|]. exists sd'. split; [|done].
    by apply lookup_app_l_Some.
  - by intros sd' [Hin| ->%list_elem_of_singleton]%elem_of_app; [apply He|].
Qed.

(** One slot, after a scan of the slots before it. *)
Lemma findname_slot_runs p sv s I O name k b : fs_rep s I O -> s_svs s !! p = Some sv ->
  dir_good s (sv_i sv) -> name_ok name -> 0 <= k < nslots (sv_i sv) ->
  let l := take (Z.to_nat k) (dir_slots s (sv_i sv)) in
  entry_at l name b.1 -> empty_at l b.2 ->
  runs (findname_slot p name b k) s
    (fun b' s' => s_svs s' = s_svs s /\ (exists O', stepped p s I s' I O') /\
       entry_at (l ++ [dir_slot s (sv_i sv) k]) name b'.1 /\ empty_at (l ++ [dir_slot s (sv_i sv) k]) b'.2)
    (fun _ _ => False).
Proof.
  intros Hr Hp Hg Hname Hk l Hent Hemp. unfold findname_slot. apply runs_bind.
  eapply runs_mono; [by eapply readdir_runs| |done]. intros tsd s' (-> & Hsv & Hst).
  set (sd := dir_slot s (sv_i sv) k). pose proof (dir_slots_at s (sv_i sv) k Hk) as Hat. fold sd in Hat.
  assert (length l = Z.to_nat k) as Hll by (unfold l; rewrite length_take, length_dir_slots; lia).
  assert ((l ++ [sd]) !! Z.to_nat k = Some sd) as Hlast by (apply list_lookup_middle; lia).
  destruct (Z.eqb_spec (sfd_ino sd) SFS_NOINO) as [E|E].
  { run. split; [done|]. split; [done|]. split; [apply entry_at_weaken; auto|].
    split; [lia|]. by exists sd. }
  assert (dir_shape sd) as Hsh.
  { destruct Hg as [_ Hsz Hlim _]. eapply (dir_slot_shape s I O); [done|by eapply rep_at|lia|lia]. }
  assert (is_str (name ++ [0]) name) as Hns by (split; [done|by exists []]).
  destruct (strcmp_spec _ _ _ _ (slot_name_str sd Hsh) Hns) as (r & Hcmp & Hr0).
  change (Z.to_nat (SFS_NAMELEN - 1)) with 59%nat. rewrite Hcmp.
  destruct (Z.eqb_spec r 0) as [->|Hne]; run.
  - destruct b as [[[ino j]|] e]; [exfalso|done]. simpl in Hent.
    destruct Hent as (Hj & sj & Hlj & Hij & Hnz & Hnm). destruct Hg as [_ _ _ Hu].
    assert (Z.to_nat j < length l)%nat as Hlt by (by eapply lookup_lt_Some).
    unfold l in Hlj. apply lookup_take_Some in Hlj as [Hlj _].
    assert (Z.to_nat j = Z.to_nat k); [|lia].
    apply (Hu _ _ _ _ Hlj Hat); [congruence|done|]. rewrite Hnm. symmetry. by apply Hr0.
  - split; [done|]. split; [done|]. split; [|by apply empty_at_weaken].
    split; [lia|]. exists sd. split; [done|]. split; [done|]. split; [done|]. by apply Hr0.
  - split; [done|]. split; [done|]. split; [|by apply empty_at_weaken].
    apply entry_at_weaken; [done|]. right. tauto.
Qed.

Lemma findname_spec p sv s I O name : fs_rep s I O -> s_svs s !! p = Some sv ->
  dir_good s (sv_i sv) -> name_ok name ->
  runs (sfs_dir_findname p name) s
    (fun '(found, empty) s' => s_svs s' = s_svs s /\ (exists O', stepped p s I s' I O') /\
       entry_at (dir_slots s (sv_i sv)) name found /\ empty_at (dir_slots s (sv_i sv)) empty)
    (fun _ _ => False).
Proof.
  intros Hr Hp Hg Hname. unfold sfs_dir_findname. apply runs_bind.
  eapply runs_intro_ret; [by eapply nentries_eq|].
  pose proof (nslots_pos _ _ _ _ _ Hr Hp) as Hn. set (l := dir_slots s (sv_i sv)).
  apply (runs_fold_each (fun pre b s' => s_svs s' = s_svs s /\ (exists O', stepped p s I s' I O') /\
    entry_at (take (length pre) l) name b.1 /\ empty_at (take (length pre) l) b.2)).
  - split; [done|]. split; [exists O; by apply stepped_refl|]. simpl. split; intros sd Hin; by apply elem_of_nil in Hin.
  - intros pre k post b s1 Hs (Hsv & [O1 Hst] & Hent & Hemp).
    apply seqZ_middle in Hs as [-> Hlt]. rewrite Z.add_0_l.
    pose proof Hst as (Hr1 & Hs1 & _ & _). pose proof Hp as Hp1. rewrite <- Hsv in Hp1.
    pose proof (dir_slots_stepped _ _ _ _ _ _ Hs1 Hr Hp Hg) as Hsl. fold l in Hsl.
    eapply runs_mono; [eapply (findname_slot_runs p sv s1 I O1 name); try done|..].
    + by eapply dir_good_stepped.
    + lia.
    + by rewrite Hsl, Nat2Z.id.
    + by rewrite Hsl, Nat2Z.id.
    + rewrite Hsl, Nat2Z.id. intros b' s2 (Hsv2 & [O2 Hst2] & He & Hm). split; [congruence|].
      split; [exists O2; by eapply stepped_trans|].
      assert (take (length (pre ++ [Z.of_nat (length pre)])) l = take (length pre) l ++ [dir_slot s1 (sv_i sv) (Z.of_nat (length pre))]) as ->; [|done].
      rewrite length_app. simpl. rewrite Nat.add_1_r. apply take_S_r. rewrite <- Hsl.
      rewrite <- (Nat2Z.id (length pre)) at 1. apply dir_slots_at. lia.
    + done.
  - intros [found empty] s' (Hsv & Hst & He & Hm). rewrite length_seqZ in *.
    rewrite take_ge in He, Hm by (unfold l; rewrite length_dir_slots; lia). done.
Qed.

(** *** Writing *)

(** Every file but [ino] is as before. *)
Definition others_same (ino : Z) s I s' I' : Prop :=
  dom I' = dom I /\
  forall j i i', j <> ino -> I !! j = Some i -> I' !! j = Some i' ->
    sfi_type i' = sfi_type i /\ sfi_linkcount i' = sfi_linkcount i /\ sfi_size i' = sfi_size i /\
    forall m, 0 <= m < FILE_LIMIT -> file_byte (dk s') i' m = file_byte (dk s) i m.

(** Slot [k] of the list now holds [sd]; it may be the one after the last. *)
Definition put_slot (l : list sfs_dir) (k : Z) (sd : sfs_dir) : list sfs_dir :=
  if k <? Z.of_nat (length l) then <[Z.to_nat k := sd]> l else l ++ [sd].

(** The directory at [p] has the slots [l], and the other files are as before. *)
Definition dir_now p sv (l : list sfs_dir) s I s' : Prop :=
  kept p s s' /\ s_thread s' = s_thread s /\
  exists I' O' sv', fs_rep s' I' O' /\ s_svs s' !! p = Some sv' /\ sv_ino sv' = sv_ino sv /\
    sfi_type (sv_i sv') = sfi_type (sv_i sv) /\ sfi_linkcount (sv_i sv') = sfi_linkcount (sv_i sv) /\
    sfi_size (sv_i sv') = 64 * Z.of_nat (length l) /\ sfi_size (sv_i sv') <= FILE_LIMIT /\
    dir_slots s' (sv_i sv') = l /\ others_same (sv_ino sv) s I s' I'.

Lemma others_grow ino off n N f s I s' I' : wrote_files ino off n f (dk s) I (dk s') I' ->
  others_same ino s I s' (grow ino N I').
Proof.
  intros [Hd Hw]. split.
  - rewrite <- Hd. unfold grow. apply set_eq. intros j. rewrite !elem_of_dom.
    destruct (decide (j = ino)) as [->|]; [|by rewrite lookup_alter_ne].
    rewrite lookup_alter_eq. by rewrite fmap_is_Some.
  - intros j i i' Hne Hi Hi'. unfold grow in Hi'. rewrite lookup_alter_ne in Hi' by done.
    destruct (Hw _ _ _ Hi Hi') as (? & ? & ? & Hb). do 3 (split; [done|]). intros m Hm.
    rewrite Hb by done. by replace (j =? ino) with false by (symmetry; by apply Z.eqb_neq).
Qed.

(** The slots after 64 bytes, or none, have been written at slot [k]. *)
Lemma slot_after s s' i i1 k n sd j : n = 0 \/ n = 64 -> dir_shape sd -> 0 <= k -> 0 <= j ->
  64 * j + 64 <= FILE_LIMIT ->
  (forall m, 0 <= m < FILE_LIMIT -> file_byte (dk s') i1 m =
     if (64 * k <=? m) && (m <? 64 * k + n) then nth0 (encode_dir sd) (m - 64 * k) else file_byte (dk s) i m) ->
  dir_slot s' i1 j = if negb (n =? 0) && (j =? k) then sd else dir_slot s i j.
Proof.
  intros Hn Hsh Hk Hj Hl Hby. destruct (encode_dir_shape sd Hsh) as [Hle _].
  destruct (negb (n =? 0) && (j =? k)) eqn:E.
  - apply andb_true_iff in E as [En%negb_true_iff%Z.eqb_neq ->%Z.eqb_eq].
    rewrite <- (decode_encode_dir sd). unfold dir_slot. f_equal.
    apply (list_eq_nth _ _ 64); [unfold file_bytes; by rewrite length_map, length_seqZ|done|].
    intros q Hq. unfold file_bytes. rewrite nth_map_seqZ, Hby by lia. zbool. unfold nth0. do 2 f_equal. lia.
  - unfold dir_slot, file_bytes. f_equal. apply map_ext_in. intros m Hm.
    apply list_elem_of_In, elem_of_seqZ in Hm. rewrite Hby by lia.
    destruct (Z.leb_spec (64 * k) m), (Z.ltb_spec m (64 * k + n)); simpl; try done.
    assert (n <> 0 /\ j = k) as [? ->] by lia. exfalso. lia.
Qed.

Lemma put_slot_lookup l k sd j : 0 <= k <= Z.of_nat (length l) -> (j < length (put_slot l k sd))%nat ->
  put_slot l k sd !! j = if Z.of_nat j =? k then Some sd else l !! j.
Proof.
  intros Hk Hj. unfold put_slot in *. destruct (Z.ltb_spec k (Z.of_nat (length l))).
  - destruct (Z.eqb_spec (Z.of_nat j) k) as [<-|].
    + rewrite Nat2Z.id. apply list_lookup_insert_eq. lia.
    + apply list_lookup_insert_ne. lia.
  - rewrite length_app in Hj. simpl in Hj. destruct (Z.eqb_spec (Z.of_nat j) k) as [<-|].
    + apply list_lookup_middle. lia.
    + apply lookup_app_l. lia.
Qed.

Lemma length_put_slot l k sd : 0 <= k <= Z.of_nat (length l) ->
  Z.of_nat (length (put_slot l k sd)) = Z.max (Z.of_nat (length l)) (k + 1).
Proof.
  intros Hk. unfold put_slot. destruct (Z.ltb_spec k (Z.of_nat (length l)));
    [rewrite length_insert|rewrite length_app; simpl]; lia.
Qed.

Lemma stored_slot p sv s I O s' k n sd : fs_rep s I O -> s_svs s !! p = Some sv ->
  dir_good s (sv_i sv) -> 0 <= k <= nslots (sv_i sv) -> n = 0 \/ n = 64 -> dir_shape sd ->
  stored_at p sv (64 * k) n (encode_dir sd) s I s' ->
  dir_now p sv (if n =? 0 then dir_slots s (sv_i sv) else put_slot (dir_slots s (sv_i sv)) k sd) s I s'.
Proof.
  intros Hr Hp [_ Hsz Hlim _] Hk Hn Hsh (Hkp & Ht & Hl & I1 & O1 & Hr1 & Hw).
  split; [done|]. split; [done|]. destruct (kp_sv _ _ _ Hkp _ Hp) as (sv' & Hp' & _ & Hino).
  exists (grow (sv_ino sv) (64 * k + n) I1), O1, sv'. split; [done|]. split; [done|]. split; [done|].
  pose proof (rep_at _ _ _ _ _ Hr1 Hp') as Hi1. rewrite Hino in Hi1. unfold grow in Hi1.
  rewrite lookup_alter_eq in Hi1. destruct (I1 !! sv_ino sv) as [i1|] eqn:Hi; [|done].
  simpl in Hi1. injection Hi1 as Hi1. rewrite <- Hi1. pose proof Hw as [_ Hw1].
  destruct (Hw1 _ _ _ (rep_at _ _ _ _ _ Hr Hp) Hi) as (Hty & Hlk & Hsz1 & Hby). simpl.
  split; [done|]. split; [done|]. rewrite Hsz1, Hsz.
  set (i := sv_i sv) in *. pose proof (length_dir_slots s i) as HlN.
  pose proof (nslots_pos _ _ _ _ _ Hr Hp) as HN. fold i in HN.
  set (l := if n =? 0 then dir_slots s i else put_slot (dir_slots s i) k sd).
  assert (Z.max (64 * nslots i) (64 * k + n) = 64 * Z.of_nat (length l)) as Hmax.
  { unfold l. destruct (Z.eqb_spec n 0); [lia|]. rewrite length_put_slot; lia. }
  rewrite Hmax. split; [done|]. split; [lia|]. split; [|by eapply others_grow].
  apply list_eq. intros j. unfold dir_slots at 1, nslots at 1. simpl sfi_size.
  rewrite Z.mul_comm, Z.div_mul, list_lookup_fmap by done.
  destruct (decide (j < length l)%nat) as [Hj|]; [|by rewrite lookup_seqZ_ge, lookup_ge_None_2 by lia].
  rewrite (proj2 (lookup_seqZ 0 (Z.of_nat (length l)) j (Z.of_nat j))) by lia. simpl.
  rewrite (slot_after s s' i _ k n sd); try done; try lia.
  2:{ intros m Hm. change (file_byte (dk s') (set_size _ i1) m) with (file_byte (dk s') i1 m).
      rewrite Hby by done. by rewrite Z.eqb_refl. }
  assert (forall j', (j' < length (dir_slots s i))%nat ->
    dir_slots s i !! j' = Some (dir_slot s i (Z.of_nat j'))) as Hat.
  { intros j' Hj'. rewrite <- (Nat2Z.id j') at 1. apply dir_slots_at. lia. }
  unfold l in *. destruct (Z.eqb_spec n 0); simpl; [by rewrite Hat|].
  rewrite put_slot_lookup by (done || lia). destruct (Z.eqb_spec (Z.of_nat j) k); [done|].
  rewrite Hat; [done|]. apply Nat2Z.inj_lt in Hj. rewrite length_put_slot in Hj by lia. lia.
Qed.

Lemma dir_now_stepped p sv s I O s1 O1 : fs_rep s I O -> s_svs s !! p = Some sv -> dir_good s (sv_i sv) ->
  stepped p s I s1 I O1 -> s_svs s1 = s_svs s -> dir_now p sv (dir_slots s (sv_i sv)) s I s1.
Proof.
  intros Hr Hp Hg (Hr1 & Hs1 & Hk1 & Ht1) Hsv. split; [done|]. split; [done|].
  exists I, O1, sv. split; [done|]. split; [congruence|]. do 3 (split; [done|]).
  pose proof (nslots_pos _ _ _ _ _ Hr Hp). pose proof Hg as [_ Hsz Hlim _].
  split; [rewrite length_dir_slots; lia|]. split; [done|]. split; [by eapply dir_slots_stepped|].
  split; [done|]. intros j i i' _ Hi Hi'. simplify_eq. do 3 (split; [done|]). intros m Hm.
  by eapply same_file_eq.
Qed.

Lemma dir_now_after p sv l s I s1 O1 s2 : stepped p s I s1 I O1 -> dir_now p sv l s1 I s2 ->
  dir_now p sv l s I s2.
Proof.
  intros (Hr1 & Hs1 & Hk1 & Ht1) (Hk2 & Ht2 & I' & O' & sv' & ? & ? & ? & ? & ? & ? & ? & ? & Hd & Ho).
  split; [by eapply kept_trans|]. split; [congruence|]. exists I', O', sv'. do 8 (split; [done|]).
  split; [done|]. intros j i i' Hne Hi Hi'. destruct (Ho _ _ _ Hne Hi Hi') as (? & ? & ? & Hb).
  do 3 (split; [done|]). intros m Hm. rewrite Hb by done. by eapply same_file_eq.
Qed.

Lemma dir_now_good p sv l s I s' : sfi_type (sv_i sv) = SFS_TYPE_DIR -> names_unique l ->
  dir_now p sv l s I s' -> exists I' O' sv', fs_rep s' I' O' /\ s_svs s' !! p = Some sv' /\
    sv_ino sv' = sv_ino sv /\ dir_good s' (sv_i sv') /\ dir_slots s' (sv_i sv') = l.
Proof.
  intros Ht Hu (_ & _ & I' & O' & sv' & ? & ? & ? & Hty & _ & Hsz & ? & Hsl & _).
  exists I', O', sv'. do 3 (split; [done|]). split; [|done]. split; [congruence| |done|by rewrite Hsl].
  unfold nslots. rewrite Hsz, (Z.mul_comm 64 (Z.of_nat (length l))), Z.div_mul by done. lia.
Qed.

Definition write_error s' k (e : Z) : Prop :=
  (e = ENOSPC /\ full s') \/ (e = EINVAL /\ FILE_LIMIT < 64 * k + 64).

Lemma writedir_spec p sv s I O sd k : fs_rep s I O -> s_svs s !! p = Some sv -> dir_good s (sv_i sv) ->
  0 <= k <= nslots (sv_i sv) -> dir_shape sd ->
  runs (sfs_writedir p sd k) s
    (fun _ s' => dir_now p sv (put_slot (dir_slots s (sv_i sv)) k sd) s I s')
    (fun e s' => write_error s' k e /\ dir_now p sv (dir_slots s (sv_i sv)) s I s').
Proof.
  intros Hr Hp Hg Hk Hsh. pose proof Hg as [_ Hsz Hlim _]. assert (FILE_LIMIT = 73216) as HL by done.
  destruct (encode_dir_shape sd Hsh) as [Hle Hby].
  unfold sfs_writedir. apply runs_bind, runs_assert; [lia|]. apply runs_bind. rewrite slot_pos_eq by lia.
  change sizeof_sfs_dir with 64.
  eapply runs_mono; [eapply (kernel_write p sv s I O (encode_dir sd) (64 * k) 64); try done; [by rewrite Hle|lia|lia]|..].
  - intros u s' [Hres Hst]. rewrite Hres. change (0 >? 0) with false. run.
    apply (stored_slot p sv s I O s' k 64 sd); auto.
  - intros e s' (He & m & Hm & Hat & Hst).
    assert (m = 0) as ->.
    { destruct Hat as [->|[Hlt [q Hq]%Z.mod_divide]]; [done| |done]. unfold SFS_BLOCKSIZE in Hq. lia. }
    split; [exact He|].
    apply (stored_slot p sv s I O s' k 0 sd); auto.
Qed.

(** The entry that [sfs_dir_link] makes. *)
Definition new_entry (ino : Z) (name : list Z) : sfs_dir :=
  mk_dir ino (name ++ replicate (60 - length name) 0).

Lemma until_nul_pad name n : name_ok name -> until_nul (name ++ replicate n 0) = name.
Proof.
  induction 1 as [|c name Hc _ IH]; simpl; [by destruct n|]. zbool. by rewrite IH.
Qed.

Lemma new_entry_shape ino name : word32 ino -> name_ok name -> (length name < 60)%nat ->
  dir_shape (new_entry ino name) /\ slot_name (new_entry ino name) = name.
Proof.
  intros Hw Hn Hl. split.
  - split; [done|]. simpl. rewrite length_app, length_replicate. split; [lia|].
    apply Forall_app. split; [|by apply byte_list_replicate].
    eapply Forall_impl; [exact Hn|]. simpl. lia.
  - unfold slot_name. simpl. rewrite take_app_ge, take_replicate by lia. by apply until_nul_pad.
Qed.

Lemma put_slot_unique l k sd : names_unique l -> 0 <= k <= Z.of_nat (length l) ->
  (sfd_ino sd <> SFS_NOINO -> entry_at l (slot_name sd) None) -> names_unique (put_slot l k sd).
Proof.
  intros Hu Hk Hnew i j si sj Hi Hj Hni Hnj Heq.
  pose proof Hi as Hil%lookup_lt_Some. pose proof Hj as Hjl%lookup_lt_Some.
  rewrite put_slot_lookup in Hi, Hj by done.
  destruct (Z.eqb_spec (Z.of_nat i) k), (Z.eqb_spec (Z.of_nat j) k); simplify_eq.
  - lia.
  - destruct (Hnew Hni sj); [by eapply list_elem_of_lookup_2|done|done].
  - destruct (Hnew Hnj si); [by eapply list_elem_of_lookup_2|done|done].
  - by eapply Hu.
Qed.

(** Where [sfs_dir_link] puts the entry. *)
Definition free_slot (l : list sfs_dir) (k : Z) : Prop :=
  (0 <= k /\ exists sd, l !! Z.to_nat k = Some sd /\ sfd_ino sd = SFS_NOINO) \/ k = Z.of_nat (length l).

Lemma dir_link_spec p sv s I O name ino : fs_rep s I O -> s_svs s !! p = Some sv -> dir_good s (sv_i sv) ->
  name_ok name -> Z.of_nat (length name) < 2 ^ 32 - 1 -> word32 ino ->
  let l := dir_slots s (sv_i sv) in
  runs (sfs_dir_link p name ino) s
    (fun k s' => entry_at l name None /\ (length name < 60)%nat /\ free_slot l k /\
       names_unique (put_slot l k (new_entry ino name)) /\
       dir_now p sv (put_slot l k (new_entry ino name)) s I s')
    (fun e s' => dir_now p sv l s I s' /\
       ((e = EEXIST /\ exists r, entry_at l name (Some r)) \/
        (e = ENAMETOOLONG /\ (60 <= length name)%nat) \/
        write_error s' (Z.of_nat (length l)) e \/ (e = ENOSPC /\ full s'))).
Proof.
  intros Hr Hp Hg Hn Hlen Hw l. unfold sfs_dir_link. apply runs_bind.
  eapply runs_mono; [by eapply findname_spec| |done]. fold l.
  intros [found empty] s1 (Hsv & [O1 Hst] & Hent & Hemp).
  pose proof (dir_now_stepped _ _ _ _ _ _ _ Hr Hp Hg Hst Hsv) as Hnow. fold l in Hnow.
  destruct found as [r|]; [run; split; [done|]; left; split; [done|by exists r]|].
  rewrite (strlen_spec (name ++ [0]) name) by (split; [done|by exists []]).
  rewrite u32_small by lia. change SFS_NAMELEN with 60.
  destruct (Z.gtb_spec (Z.of_nat (length name) + 1) 60).
  { run. split; [done|]. right. left. split; [done|lia]. }
  pose proof Hst as (Hr1 & Hs1 & _ & _). pose proof Hp as Hp1. rewrite <- Hsv in Hp1.
  pose proof (dir_good_stepped _ _ _ _ _ _ Hs1 Hr Hp Hg) as Hg1.
  pose proof (dir_slots_stepped _ _ _ _ _ _ Hs1 Hr Hp Hg) as Hsl. fold l in Hsl.
  assert (Z.of_nat (length l) = nslots (sv_i sv)) as Hll.
  { unfold l. rewrite length_dir_slots. pose proof (nslots_pos _ _ _ _ _ Hr Hp). lia. }
  apply runs_bind. apply (runs_mono _ _ (fun k s' => s' = s1 /\ free_slot l k /\ 0 <= k <= Z.of_nat (length l))
    _ (fun _ _ => False)); [| |done].
  { destruct empty as [k|].
    - run. split; [done|]. split; [by left|]. destruct Hemp as (? & sd & Hk%lookup_lt_Some & _). lia.
    - eapply runs_intro_ret; [by eapply nentries_eq|]. split; [done|]. split; [by right|lia]. }
  intros k s1' (-> & Hfree & Hk).
  rewrite (strcpy_spec _ _ name) by (split; [done|by exists []] || (rewrite length_replicate; lia)).
  replace (name ++ 0 :: drop (S (length name)) (replicate (Z.to_nat 60) 0))
    with (sfd_name (new_entry ino name)).
  2:{ simpl. f_equal. rewrite drop_replicate. change (Z.to_nat 60) with 60%nat.
      by replace (60 - length name)%nat with (S (60 - S (length name))) by lia. }
  change (mk_dir ino (sfd_name (new_entry ino name))) with (new_entry ino name).
  destruct (new_entry_shape ino name Hw Hn ltac:(lia)) as [Hsh Hnm].
  apply runs_bind. eapply runs_mono; [eapply (writedir_spec p sv s1 I O1); try done; lia|..]; rewrite Hsl.
  - intros [] s2 Hd. run. split; [done|]. split; [lia|]. split; [done|]. split.
    + apply put_slot_unique; [apply Hg|done|]. by rewrite Hnm.
    + by eapply dir_now_after.
  - intros e s2 [He Hd]. split; [by eapply dir_now_after|]. destruct He as [He|[He ?]]; [by auto|].
    right. right. left. right. split; [done|lia].
Qed.

Lemma dir_unlink_spec p sv s I O k : fs_rep s I O -> s_svs s !! p = Some sv -> dir_good s (sv_i sv) ->
  0 <= k < nslots (sv_i sv) ->
  let l := dir_slots s (sv_i sv) in
  let blank := mk_dir SFS_NOINO (replicate 60 0) in
  runs (sfs_dir_unlink p k) s
    (fun _ s' => names_unique (put_slot l k blank) /\ dir_now p sv (put_slot l k blank) s I s')
    (fun e s' => e = ENOSPC /\ full s' /\ dir_now p sv l s I s').
Proof.
  intros Hr Hp Hg Hk l blank. unfold sfs_dir_unlink. pose proof Hg as [_ Hsz Hlim Hu].
  assert (dir_shape blank) as Hsh.
  { split; [done|]. split; [done|by apply byte_list_replicate]. }
  eapply runs_mono; [eapply (writedir_spec p sv s I O blank k); try done; lia|..]; fold l.
  - intros [] s' Hd. split; [|done]. apply put_slot_unique; [done| |done].
    unfold l. rewrite length_dir_slots. lia.
  - intros e s' [[[? ?]|[_ ?]] Hd]; [done|lia].
Qed.

(** A slot in use lies in a block that the file has. *)
Lemma live_fblock s i k : 0 <= k -> sfd_ino (dir_slot s i k) <> SFS_NOINO ->
  fblock (dk s) i (64 * k / SFS_BLOCKSIZE) <> 0.
Proof.
  intros Hk Hino Hz. apply Hino. unfold dir_slot.
  replace (file_bytes s i (64 * k) 64) with (replicate 64 0); [by vm_compute|].
  symmetry. apply (list_eq_nth _ _ 64); [unfold file_bytes; by rewrite length_map, length_seqZ|done|].
  intros q Hq. unfold file_bytes. rewrite nth_map_seqZ by lia. fold (nth0 (replicate 64 0) q). rewrite nth0_zero.
  unfold file_byte. replace ((64 * k + q) / SFS_BLOCKSIZE) with (64 * k / SFS_BLOCKSIZE); [by rewrite Hz|].
  unfold SFS_BLOCKSIZE. pose proof (Z.div_mod k 8 ltac:(done)). pose proof (Z.mod_pos_bound k 8 ltac:(done)).
  transitivity (k / 8); [|symmetry]; symmetry.
  - apply (Z.div_unique _ _ _ (64 * (k mod 8))); lia.
  - apply (Z.div_unique _ _ _ (64 * (k mod 8) + q)); lia.
Qed.

(** Taking out an entry that is in use cannot fail. *)
Lemma dir_unlink_live p sv s I O k : fs_rep s I O -> s_svs s !! p = Some sv -> dir_good s (sv_i sv) ->
  0 <= k < nslots (sv_i sv) -> sfd_ino (dir_slot s (sv_i sv) k) <> SFS_NOINO ->
  let l := dir_slots s (sv_i sv) in
  let blank := mk_dir SFS_NOINO (replicate 60 0) in
  runs (sfs_dir_unlink p k) s
    (fun _ s' => names_unique (put_slot l k blank) /\ dir_now p sv (put_slot l k blank) s I s')
    (fun _ _ => False).
Proof.
  intros Hr Hp Hg Hk Hlive l blank. apply (runs_no_err _ _ _ (fun _ _ => True)).
  { eapply runs_mono; [by eapply dir_unlink_spec|done|done]. }
  pose proof Hg as [_ Hsz Hlim Hu]. assert (FILE_LIMIT = 73216) as HL by done.
  pose proof (live_fblock _ _ _ (proj1 Hk) Hlive) as Hf.
  assert (dir_shape blank) as Hsh by (split; [done|split; [done|by apply byte_list_replicate]]).
  destruct (encode_dir_shape blank Hsh) as [Hle Hby].
  unfold sfs_dir_unlink, sfs_writedir. apply noerr_bind; [intros ? ?; unfold assert; by destruct (k >=? 0)|]. intros [] s1.
  unfold assert. destruct (k >=? 0); [|done]. intros [= <-].
  rewrite slot_pos_eq by lia. change (mk_dir _ _) with blank. change sizeof_sfs_dir with 64.
  assert ((64 * k) mod SFS_BLOCKSIZE + 64 <= SFS_BLOCKSIZE) as Hfit.
  { unfold SFS_BLOCKSIZE. pose proof (Z.div_mod k 8 ltac:(done)). pose proof (Z.mod_pos_bound k 8 ltac:(done)).
    rewrite <- (Z.mod_unique (64 * k) 512 (k / 8) (64 * (k mod 8))); lia. }
  destruct (runs_elim _ _ _ _ (kernel_write_found p sv s I O (encode_dir blank) (64 * k) 64 Hr Hp Hby ltac:(by rewrite Hle)
    ltac:(lia) ltac:(lia) ltac:(done) Hfit Hf)) as [(u & s2 & E & _)|(? & ? & _ & [])].
  apply noerr_bind; [intros ? ?; by rewrite E|]. intros u' s' _ ? ?. by destruct (uio_resid u' >? 0).
Qed.

End dir.

(** ** Theorems *)

(** [sfs_dir_findname] never fails on a well-formed directory: it finds the
    slot that holds the name and its inode number if there is one, and a free
    slot if there is one, and it changes nothing. *)
Theorem sfs_dir_findname_correct {U D H : Type} `{BlockDevLaws U D} p sv (s : sfs U D H) I O name :
  fs_rep s I O -> s_svs s !! p = Some sv -> dir_good s (sv_i sv) -> name_ok name ->
  runs (sfs_dir_findname p name) s
    (fun '(found, empty) s' => s_svs s' = s_svs s /\ (exists O', stepped p s I s' I O') /\
       entry_at (dir_slots s (sv_i sv)) name found /\ empty_at (dir_slots s (sv_i sv)) empty)
    (fun _ _ => False).
Proof. intros. by apply (findname_spec p sv s I O). Qed.

(** C24: [sfs_dir_link] puts the new entry in a free slot or after the last one and
    keeps the names of the directory distinct; no other file and no other slot
    changes.  On every error (name exists, name too long, disk full, directory
    at its largest size) the directory has the same slots as before. *)
Theorem sfs_dir_link_correct {U D H : Type} `{BlockDevLaws U D} p sv (s : sfs U D H) I O name ino :
  fs_rep s I O -> s_svs s !! p = Some sv -> dir_good s (sv_i sv) -> name_ok name ->
  Z.of_nat (length name) < 2 ^ 32 - 1 -> word32 ino ->
  let l := dir_slots s (sv_i sv) in
  runs (sfs_dir_link p name ino) s
    (fun k s' => entry_at l name None /\ (length name < 60)%nat /\ free_slot l k /\
       names_unique (put_slot l k (new_entry ino name)) /\
       dir_now p sv (put_slot l k (new_entry ino name)) s I s')
    (fun e s' => dir_now p sv l s I s' /\
       ((e = EEXIST /\ exists r, entry_at l name (Some r)) \/
        (e = ENAMETOOLONG /\ (60 <= length name)%nat) \/
        write_error s' (Z.of_nat (length l)) e \/ (e = ENOSPC /\ full s'))).
Proof. intros. by apply (dir_link_spec p sv s I O). Qed.

(** A name that has been linked is found again, with the inode number it was
    linked to, in the slot that [sfs_dir_link] handed back. *)
Theorem sfs_dir_link_lookup {U D H : Type} `{BlockDevLaws U D} p sv (s : sfs U D H) I O name ino :
  fs_rep s I O -> s_svs s !! p = Some sv -> dir_good s (sv_i sv) -> name_ok name ->
  (length name < 60)%nat -> word32 ino -> ino <> SFS_NOINO ->
  runs (k <- sfs_dir_link p name ino ;; '(found, _) <- sfs_dir_findname p name ;; ret (k, found)) s
    (fun '(k, found) _ => found = Some (ino, k))
    (fun e _ => e = EEXIST \/ e = ENOSPC \/ e = EINVAL).
Proof.
  intros Hr Hp Hg Hn Hlen Hw Hnz. apply runs_bind. eapply runs_mono; [by apply (dir_link_spec p sv s I O); try done; lia|..].
  2:{ intros e s' (_ & [[? _]|[[_ ?]|[[[? _]|[? _]]|[? _]]]]); auto. lia. }
  intros k s1 (_ & _ & Hfree & Hu & Hd). set (l := put_slot _ _ _) in *.
  destruct (dir_now_good _ _ _ _ _ _ (dg_type _ _ Hg) Hu Hd) as (I1 & O1 & sv1 & Hr1 & Hp1 & _ & Hg1 & Hsl).
  apply runs_bind. eapply runs_mono; [by apply (findname_spec p sv1 s1 I1 O1)| |done].
  intros [found e] s2 (_ & _ & Hent & _). rewrite Hsl in Hent. run.
  destruct (new_entry_shape ino name Hw Hn Hlen) as [_ Hnm].
  set (l0 := dir_slots s (sv_i sv)) in *.
  assert (0 <= k <= Z.of_nat (length l0)) as Hk.
  { destruct Hfree as [(? & sd & Hl%lookup_lt_Some & _)| ->]; lia. }
  assert (l !! Z.to_nat k = Some (new_entry ino name)) as Hat.
  { unfold l. rewrite put_slot_lookup by (done || apply Nat2Z.inj_lt; rewrite length_put_slot; lia).
    by rewrite Z2Nat.id, Z.eqb_refl by lia. }
  destruct found as [[ino' k']|].
  - destruct Hent as (Hk' & sd & Hsd & <- & Hnz' & Hname).
    assert (Z.to_nat k' = Z.to_nat k) as E by (apply (Hu _ _ _ _ Hsd Hat); [done|done|congruence]).
    rewrite E, Hat in Hsd. injection Hsd as <-. simpl. do 2 f_equal. lia.
  - exfalso. by apply (Hent (new_entry ino name)); [eapply list_elem_of_lookup_2| |].
Qed.

(** *** Witnesses *)

Lemma sample_slots : dir_slots (sample tt) root_inode = [root_entry].
Proof. vm_compute. reflexivity. Qed.

Lemma sample_dir : dir_good (sample tt) (sv_i root_sv).
Proof.
  split; [done|done|done|]. change (sv_i root_sv) with root_inode. rewrite sample_slots. intros [|j] [|k] sj sk Hj Hk; simplify_eq/=; done.
Qed.

Lemma sfs_dir_findname_correct_witness :
  runs (sfs_dir_findname 1000 [97]) (sample tt)
    (fun '(found, empty) s' => s_svs s' = s_svs (sample tt) /\
       (exists O', stepped 1000 (sample tt) sample_I s' sample_I O') /\
       entry_at (dir_slots (sample tt) root_inode) [97] found /\
       empty_at (dir_slots (sample tt) root_inode) empty)
    (fun _ _ => False).
Proof.
  apply (sfs_dir_findname_correct 1000 root_sv (sample tt) sample_I sample_O [97]).
  - apply sample_rep.
  - done.
  - apply sample_dir.
  - by repeat constructor.
Defined.

Lemma sfs_dir_link_correct_witness :
  let l := dir_slots (sample tt) root_inode in
  runs (sfs_dir_link 1000 [98] 7) (sample tt)
    (fun k s' => entry_at l [98] None /\ (length [98] < 60)%nat /\ free_slot l k /\
       names_unique (put_slot l k (new_entry 7 [98])) /\
       dir_now 1000 root_sv (put_slot l k (new_entry 7 [98])) (sample tt) sample_I s')
    (fun e s' => dir_now 1000 root_sv l (sample tt) sample_I s' /\
       ((e = EEXIST /\ exists r, entry_at l [98] (Some r)) \/
        (e = ENAMETOOLONG /\ (60 <= length [98])%nat) \/
        write_error s' (Z.of_nat (length l)) e \/ (e = ENOSPC /\ full s'))).
Proof.
  apply (sfs_dir_link_correct 1000 root_sv (sample tt) sample_I sample_O [98] 7).
  - apply sample_rep.
  - done.
  - apply sample_dir.
  - by repeat constructor.
  - done.
  - done.
Defined.

Lemma sfs_dir_link_lookup_witness :
  runs (k <- sfs_dir_link 1000 [98] 7 ;; '(found, _) <- sfs_dir_findname 1000 [98] ;; ret (k, found)) (sample tt)
    (fun '(k, found) _ => found = Some (7, k))
    (fun e _ => e = EEXIST \/ e = ENOSPC \/ e = EINVAL).
Proof.
  apply (sfs_dir_link_lookup 1000 root_sv (sample tt) sample_I sample_O [98] 7).
  - apply sample_rep.
  - done.
  - apply sample_dir.
  - by repeat constructor.
  - simpl. lia.
  - done.
  - done.
Defined.
