(* ===== verification/SfsVnode.v ===== *)
(** The SFS file system, vnodes: loading and reclaiming vnodes, creating,
    linking, removing and looking up files (kern/fs/sfs/sfs_vnode.c, second
    half).

    The struct of a vnode is named by its address, as everywhere in the SFS
    files; [on_vnode] runs the routines of Vnode.v on the vnode inside it.
    VOP_* calls are [vop]: the check of the vnode, then the function its table
    has. *)

From Stdlib Require Import ZArith Lia.
From stdpp Require Import prelude gmap list.
From S2P Require Import Prelude Str Heap Array Bitmap SynchObj Vnode Pages Copy Uio Device Lhd SfsDisk SfsFile SfsRep SfsSample SfsBmap SfsIo SfsDir.
Import Flat SimCard.

#[local] Arguments replicate : simpl never.

(** ** Definitions *)

Definition sizeof_sfs_vnode : Z := 24 + SFS_BLOCKSIZE + 4 + 4.

Definition set_vnode (v : vnode sfs_ops) (sv : sfs_vnode) : sfs_vnode :=
  mk_sv v (sv_i sv) (sv_ino sv) (sv_dirty sv).

Section vnode_ops.
Context {U D H : Type} `{!UserMem U} `{!BlockDev U D} `{!Heap H}.

Definition on_heap {A} (m : M H A) : M (sfs U D H) A := zoom s_heap with_heap m.
Definition on_vnodes {A} (m : M (array Z * H) A) : M (sfs U D H) A :=
  zoom (fun s => (s_vnodes s, s_heap s)) with_vnodes m.

Definition on_vnode (p : Z) (A : Type) (m : M (vnode sfs_ops) A) : M (sfs U D H) A := fun s =>
  match s_svs s !! p with
  | None => (Panic, s)
  | Some sv =>
      let '(r, v) := m (sv_v sv) in (r, with_svs (<[p := set_vnode v sv]> (s_svs s)) s)
  end.

(** [__VOP]: check the vnode and call what its function table has. *)
Definition vop {A} (p : Z) (call : sfs_ops -> M (sfs U D H) A) : M (sfs U D H) A :=
  on_vnode p unit (vnode_check false) ;;;
  sv <- sv_get p ;;
  match vn_ops (sv_v sv) with Some ops => call ops | None => panic end.

(** The struct at [p] is released. *)
Definition drop_sv (p : Z) : M (sfs U D H) unit :=
  modify (fun s => with_svs (delete p (s_svs s)) s) ;;; on_heap (kfree p).

Definition vnode_kill_at (p : Z) : M (sfs U D H) unit :=
  sv <- sv_get p ;;
  v <- on_heap (vnode_kill (sv_v sv)) ;;
  sv_modify p (set_vnode v).

(** *** Loading a vnode *)

(** One round of the search of the vnode table. *)
Definition load_search (ino forcetype i : Z) : M (sfs U D H) (option Z) :=
  guy <- on_vnodes (array_getguy i) ;;
  match guy with
  | None => panic
  | Some p =>
      sv <- sv_get p ;;
      used <- sfs_bused (sv_ino sv) ;;
      (if used =? 0 then panic else ret tt) ;;;
      if sv_ino sv =? ino then
        assert (forcetype =? SFS_TYPE_INVAL) ;;;
        on_vnode p unit vnode_incref ;;;
        ret (Some p)
      else ret None
  end.

Definition choose_ops (type : Z) : M (sfs U D H) sfs_ops :=
  if type =? SFS_TYPE_FILE then ret sfs_fileops
  else if type =? SFS_TYPE_DIR then ret sfs_dirops
  else panic.

(** The rest of [sfs_loadvnode], for an inode that is not in memory. *)
Definition load_new (ino forcetype : Z) : M (sfs U D H) Z :=
  p <- on_heap (kmalloc sizeof_sfs_vnode) ;;
  if p =? 0 then fail ENOMEM
  else
    used <- sfs_bused ino ;;
    (if used =? 0 then panic else ret tt) ;;;
    block <- try (on_disk (sfs_rblock ino)) ;;
    match block with
    | inl e => on_heap (kfree p) ;;; fail e
    | inr bs =>
        '(inode, dirty) <-
          (if negb (forcetype =? SFS_TYPE_INVAL) then
             assert (sfi_type (decode_inode bs) =? SFS_TYPE_INVAL) ;;;
             ret (set_type forcetype (decode_inode bs), true)
           else ret (decode_inode bs, false)) ;;
        ops <- choose_ops (sfi_type inode) ;;
        fs <- gets s_self ;;
        init <- try (on_heap (vnode_init ops fs p)) ;;
        match init with
        | inl e => on_heap (kfree p) ;;; fail e
        | inr v =>
            modify (fun s => with_svs (<[p := mk_sv v inode ino dirty]> (s_svs s)) s) ;;;
            r <- result_of (on_vnodes (array_add p)) ;;
            if r =? 0 then ret p
            else vnode_kill_at p ;;; drop_sv p ;;; fail r
        end
    end.

Definition sfs_loadvnode (ino forcetype : Z) : M (sfs U D H) Z :=
  num <- on_vnodes array_getnum ;;
  r <- for_find (seqZ 0 num) (load_search ino forcetype) ;;
  match r with
  | Some p => ret p
  | None => load_new ino forcetype
  end.

(** A failure is a panic. *)
Definition sfs_getroot : M (sfs U D H) Z :=
  r <- try (sfs_loadvnode SFS_ROOT_LOCATION SFS_TYPE_INVAL) ;;
  match r with inl _ => panic | inr p => ret p end.

(** Returns the vnode and the slot. *)
Definition sfs_lookonce (p : Z) (name : list Z) : M (sfs U D H) (Z * Z) :=
  '(found, _) <- sfs_dir_findname p name ;;
  match found with
  | None => fail ENOENT
  | Some (ino, slot) =>
      q <- sfs_loadvnode ino SFS_TYPE_INVAL ;;
      sv <- sv_get q ;;
      if sfi_linkcount (sv_i sv) =? 0 then panic else ret (q, slot)
  end.

Definition sfs_makeobj (type : Z) : M (sfs U D H) Z :=
  ino <- sfs_balloc ;;
  sfs_loadvnode ino type.

(** *** Operations on vnodes *)

Definition sfs_open (p openflags : Z) : M (sfs U D H) unit :=
  if negb (Z.land openflags O_APPEND =? 0) then fail EUNIMP else ret tt.

Definition sfs_opendir (p openflags : Z) : M (sfs U D H) unit :=
  if negb (Z.land openflags O_ACCMODE =? O_RDONLY) then fail EISDIR
  else if negb (Z.land openflags O_APPEND =? 0) then fail EISDIR
  else ret tt.

Definition sfs_fsync (p : Z) : M (sfs U D H) unit := sfs_sync_inode p.

Definition sfs_close (p : Z) : M (sfs U D H) unit := vop p (fun _ => sfs_fsync p).

(** VOP_TRUNCATE: directories do not have it. *)
Definition vop_truncate (p len : Z) : M (sfs U D H) unit :=
  vop p (fun ops => match ops with sfs_fileops => sfs_truncate p len | sfs_dirops => fail EISDIR end).

(** The search for the vnode in the table; [-1] if it is not there. *)
Definition vnode_index (p : Z) : M (sfs U D H) Z :=
  num <- on_vnodes array_getnum ;;
  ix <- for_find (seqZ 0 num) (fun i =>
    guy <- on_vnodes (array_getguy i) ;;
    ret (if bool_decide (guy = Some p) then Some i else None)) ;;
  ret (default (-1) ix).

(** The end of [sfs_reclaim]: the vnode leaves the table and is destroyed. *)
Definition forget_vnode (p : Z) : M (sfs U D H) unit :=
  ix <- vnode_index p ;;
  (if ix <? 0 then panic else ret tt) ;;;
  on_vnodes (array_remove ix) ;;;
  vnode_kill_at p ;;;
  drop_sv p.

Definition sfs_reclaim (p : Z) : M (sfs U D H) unit :=
  on_vnode p unit count_acquire ;;;
  sv <- sv_get p ;;
  if negb (vn_refcount (sv_v sv) =? 1) then
    assert (vn_refcount (sv_v sv) >? 1) ;;;
    on_vnode p unit (modify (fun v => set_refcount (vn_refcount v - 1) v)) ;;;
    on_vnode p unit count_release ;;;
    fail EBUSY
  else
    on_vnode p unit count_release ;;;
    sv <- sv_get p ;;
    (if sfi_linkcount (sv_i sv) =? 0 then vop_truncate p 0 else ret tt) ;;;
    sfs_sync_inode p ;;;
    sv <- sv_get p ;;
    (if sfi_linkcount (sv_i sv) =? 0 then sfs_bfree (sv_ino sv) else ret tt) ;;;
    forget_vnode p.

(** VOP_DECREF; VOP_RECLAIM checks the vnode first. *)
Definition vop_decref (p : Z) : M (sfs U D H) unit :=
  vnode_decref (on_vnode p) (on_vnode p unit (vnode_check true) ;;; sfs_reclaim p).

Definition sfs_ioctl (p op data : Z) : M (sfs U D H) unit := fail EINVAL.

Definition sfs_gettype (p : Z) : M (sfs U D H) Z :=
  sv <- sv_get p ;;
  if sfi_type (sv_i sv) =? SFS_TYPE_FILE then ret S_IFREG
  else if sfi_type (sv_i sv) =? SFS_TYPE_DIR then ret S_IFDIR
  else panic.

Definition sfs_stat (p : Z) : M (sfs U D H) Vnode.stat :=
  mode <- vop p (fun _ => sfs_gettype p) ;;
  sv <- sv_get p ;;
  ret (mk_stat mode (i32 (sfi_size (sv_i sv))) 0 0).

Definition sfs_tryseek (p pos : Z) : M (sfs U D H) unit :=
  if pos <? 0 then fail EINVAL else ret tt.

Definition sfs_mmap (p : Z) : M (sfs U D H) unit := fail EUNIMP.

Definition sfs_namefile (p : Z) : M (sfs U D H) unit :=
  sv <- sv_get p ;;
  assert (sv_ino sv =? SFS_ROOT_LOCATION).

(** *** Names *)

Definition linkcount_add (n : Z) (i : sfs_inode) : sfs_inode :=
  set_linkcount (u16 (sfi_linkcount i + n)) i.

Definition sfs_creat (p : Z) (name : list Z) (excl : bool) : M (sfs U D H) Z :=
  '(found, _) <- sfs_dir_findname p name ;;
  match found with
  | Some (ino, _) => if excl then fail EEXIST else sfs_loadvnode ino SFS_TYPE_INVAL
  | None =>
      newguy <- sfs_makeobj SFS_TYPE_FILE ;;
      sv <- sv_get newguy ;;
      r <- try (sfs_dir_link p name (sv_ino sv)) ;;
      match r with
      | inl e => vop_decref newguy ;;; fail e
      | inr _ => inode_modify newguy (linkcount_add 1) ;;; ret newguy
      end
  end.

Definition sfs_link (dir : Z) (name : list Z) (file : Z) : M (sfs U D H) unit :=
  d <- sv_get dir ;;
  f <- sv_get file ;;
  assert (vn_fs (sv_v f) =? vn_fs (sv_v d)) ;;;
  sfs_dir_link dir name (sv_ino f) ;;;
  inode_modify file (linkcount_add 1).

Definition sfs_remove (dir : Z) (name : list Z) : M (sfs U D H) unit :=
  '(victim, slot) <- sfs_lookonce dir name ;;
  r <- result_of (sfs_dir_unlink dir slot) ;;
  (if r =? 0 then
     sv <- sv_get victim ;;
     assert (sfi_linkcount (sv_i sv) >? 0) ;;;
     inode_modify victim (linkcount_add (-1))
   else ret tt) ;;;
  vop_decref victim ;;;
  if r =? 0 then ret tt else fail r.

Definition sfs_rename (d1 : Z) (n1 : list Z) (d2 : Z) (n2 : list Z) : M (sfs U D H) unit :=
  assert (d1 =? d2) ;;;
  sv <- sv_get d1 ;;
  assert (sv_ino sv =? SFS_ROOT_LOCATION) ;;;
  '(g1, slot1) <- sfs_lookonce d1 n1 ;;
  g <- sv_get g1 ;;
  assert (sfi_type (sv_i g) =? SFS_TYPE_FILE) ;;;
  r <- try (sfs_dir_link d1 n2 (sv_ino g)) ;;
  match r with
  | inl e => vop_decref g1 ;;; fail e
  | inr slot2 =>
      inode_modify g1 (linkcount_add 1) ;;;
      r <- result_of (sfs_dir_unlink d1 slot1) ;;
      if r =? 0 then
        g <- sv_get g1 ;;
        assert (sfi_linkcount (sv_i g) >? 0) ;;;
        inode_modify g1 (linkcount_add (-1)) ;;;
        vop_decref g1
      else
        r2 <- result_of (sfs_dir_unlink d1 slot2) ;;
        (if r2 =? 0 then ret tt else panic) ;;;
        sv_modify g1 (fun sv => set_inode (linkcount_add (-1) (sv_i sv)) sv) ;;;
        vop_decref g1 ;;;
        fail r
  end.

(** Returns the directory and the caller's buffer, with the name copied to it. *)
Definition sfs_lookparent (p : Z) (path buf : list Z) : M (sfs U D H) (Z * list Z) :=
  sv <- sv_get p ;;
  if negb (sfi_type (sv_i sv) =? SFS_TYPE_DIR) then fail ENOTDIR
  else
    match strlen (path ++ [0]) with
    | None => panic
    | Some len =>
        if u32 (len + 1) >? Z.of_nat (length buf) then fail ENAMETOOLONG
        else
          match strcpy buf (path ++ [0]) with
          | None => panic
          | Some buf' => on_vnode p unit vnode_incref ;;; ret (p, buf')
          end
    end.

Definition sfs_lookup (p : Z) (path : list Z) : M (sfs U D H) Z :=
  sv <- sv_get p ;;
  if negb (sfi_type (sv_i sv) =? SFS_TYPE_DIR) then fail ENOTDIR
  else
    '(final, _) <- sfs_lookonce p path ;;
    ret final.

(** *** The function tables *)

Definition sfs_notdir {A} : M (sfs U D H) A := fail ENOTDIR.
Definition sfs_isdir {A} : M (sfs U D H) A := fail EISDIR.
Definition sfs_unimp {A} : M (sfs U D H) A := fail EUNIMP.

(** The operations of a vnode of this file system.  read and write take a uio
    next to the file system; readlink, getdirentry, symlink, mkdir and rmdir
    fail in both tables. *)
Record vnode_ops := mk_ops {
  op_open : Z -> Z -> M (sfs U D H) unit;
  op_close : Z -> M (sfs U D H) unit;
  op_reclaim : Z -> M (sfs U D H) unit;
  op_read : Z -> M (uio * sfs U D H) unit;
  op_readlink : Z -> M (sfs U D H) unit;
  op_getdirentry : Z -> M (sfs U D H) unit;
  op_write : Z -> M (uio * sfs U D H) unit;
  op_ioctl : Z -> Z -> Z -> M (sfs U D H) unit;
  op_stat : Z -> M (sfs U D H) Vnode.stat;
  op_gettype : Z -> M (sfs U D H) Z;
  op_tryseek : Z -> Z -> M (sfs U D H) unit;
  op_fsync : Z -> M (sfs U D H) unit;
  op_mmap : Z -> M (sfs U D H) unit;
  op_truncate : Z -> Z -> M (sfs U D H) unit;
  op_namefile : Z -> M (sfs U D H) unit;
  op_creat : Z -> list Z -> bool -> M (sfs U D H) Z;
  op_symlink : Z -> list Z -> list Z -> M (sfs U D H) unit;
  op_mkdir : Z -> list Z -> M (sfs U D H) unit;
  op_link : Z -> list Z -> Z -> M (sfs U D H) unit;
  op_remove : Z -> list Z -> M (sfs U D H) unit;
  op_rmdir : Z -> list Z -> M (sfs U D H) unit;
  op_rename : Z -> list Z -> Z -> list Z -> M (sfs U D H) unit;
  op_lookup : Z -> list Z -> M (sfs U D H) Z;
  op_lookparent : Z -> list Z -> list Z -> M (sfs U D H) (Z * list Z)
}.

Definition fileops : vnode_ops := {|
  op_open := sfs_open;
  op_close := sfs_close;
  op_reclaim := sfs_reclaim;
  op_read := sfs_read;
  op_readlink := fun _ => sfs_notdir;
  op_getdirentry := fun _ => sfs_notdir;
  op_write := sfs_write;
  op_ioctl := sfs_ioctl;
  op_stat := sfs_stat;
  op_gettype := sfs_gettype;
  op_tryseek := sfs_tryseek;
  op_fsync := sfs_fsync;
  op_mmap := sfs_mmap;
  op_truncate := sfs_truncate;
  op_namefile := fun _ => sfs_notdir;
  op_creat := fun _ _ _ => sfs_notdir;
  op_symlink := fun _ _ _ => sfs_notdir;
  op_mkdir := fun _ _ => sfs_notdir;
  op_link := fun _ _ _ => sfs_notdir;
  op_remove := fun _ _ => sfs_notdir;
  op_rmdir := fun _ _ => sfs_notdir;
  op_rename := fun _ _ _ _ => sfs_notdir;
  op_lookup := fun _ _ => sfs_notdir;
  op_lookparent := fun _ _ _ => sfs_notdir
|}.

Definition dirops : vnode_ops := {|
  op_open := sfs_opendir;
  op_close := sfs_close;
  op_reclaim := sfs_reclaim;
  op_read := fun _ => fail EISDIR;
  op_readlink := fun _ => sfs_isdir;
  op_getdirentry := fun _ => sfs_unimp;
  op_write := fun _ => fail EISDIR;
  op_ioctl := sfs_ioctl;
  op_stat := sfs_stat;
  op_gettype := sfs_gettype;
  op_tryseek := fun _ _ => sfs_unimp;
  op_fsync := sfs_fsync;
  op_mmap := fun _ => sfs_isdir;
  op_truncate := fun _ _ => sfs_isdir;
  op_namefile := sfs_namefile;
  op_creat := sfs_creat;
  op_symlink := fun _ _ _ => sfs_unimp;
  op_mkdir := fun _ _ => sfs_unimp;
  op_link := sfs_link;
  op_remove := sfs_remove;
  op_rmdir := fun _ _ => sfs_unimp;
  op_rename := sfs_rename;
  op_lookup := sfs_lookup;
  op_lookparent := sfs_lookparent
|}.

Definition table_of (ops : sfs_ops) : vnode_ops :=
  match ops with sfs_fileops => fileops | sfs_dirops => dirops end.

(** The calls of the VFS layer that no routine of this file system makes. *)
Definition vop_open (p flags : Z) : M (sfs U D H) unit := vop p (fun o => op_open (table_of o) p flags).
Definition vop_creat (p : Z) (name : list Z) (excl : bool) : M (sfs U D H) Z :=
  vop p (fun o => op_creat (table_of o) p name excl).
Definition vop_link (p : Z) (name : list Z) (q : Z) : M (sfs U D H) unit :=
  vop p (fun o => op_link (table_of o) p name q).
Definition vop_remove (p : Z) (name : list Z) : M (sfs U D H) unit :=
  vop p (fun o => op_remove (table_of o) p name).
Definition vop_rename (p : Z) (name : list Z) (q : Z) (name' : list Z) : M (sfs U D H) unit :=
  vop p (fun o => op_rename (table_of o) p name q name').
Definition vop_lookup (p : Z) (path : list Z) : M (sfs U D H) Z := vop p (fun o => op_lookup (table_of o) p path).
Definition vop_lookparent (p : Z) (path buf : list Z) : M (sfs U D H) (Z * list Z) :=
  vop p (fun o => op_lookparent (table_of o) p path buf).

End vnode_ops.

(** ** The table of loaded vnodes *)

Section table.
Context {U D H : Type} `{BlockDevLaws U D} `{!Heap H} `{!HeapLaws H}.
Implicit Types (s : sfs U D H) (I : gmap Z sfs_inode) (O : gmap Z owner).

(** The heap blocks of the vnode at [p]. *)
Definition sv_blocks (m : gmap Z sfs_vnode) (p : Z) : list (Z * Z) :=
  match m !! p with
  | Some sv => (p, sizeof_sfs_vnode) ::
      match vn_countlock (sv_v sv) with Some l => lock_blocks l countlock_name | None => [] end
  | None => []
  end.

(** The array holds exactly the loaded vnodes [ps], once each, and they are in
    order; [bs] are the blocks of other owners. *)
Record table s (ps : list Z) (bs : list (Z * Z)) : Prop := {
  tb_contents : contents (s_vnodes s) = map Some ps;
  tb_nodup : NoDup ps;
  tb_dom : forall p, is_Some (s_svs s !! p) <-> p ∈ ps;
  tb_array : array_at (s_vnodes s) (s_heap s) ((ps ≫= sv_blocks (s_svs s)) ++ bs);
  tb_ok : forall p sv, s_svs s !! p = Some sv -> vnode_ok (sv_v sv);
}.

Lemma sv_get_eq p s sv : s_svs s !! p = Some sv -> sv_get p s = (Ret sv, s).
Proof. intros Hp. unfold sv_get. by rewrite Hp. Qed.

Lemma table_num s ps bs : table s ps bs -> num (s_vnodes s) = Z.of_nat (length ps).
Proof.
  intros [Hc _ _ Ha _]. rewrite <- (array_at_length _ _ _ Ha), Hc, length_map. done.
Qed.

Lemma table_guy s ps bs i p : table s ps bs -> ps !! i = Some p ->
  on_vnodes (array_getguy (Z.of_nat i)) s = (Ret (Some p), s).
Proof.
  intros Ht Hi. pose proof (table_num _ _ _ Ht) as Hn. pose proof Ht as [Hc _ _ Ha _].
  pose proof (lookup_lt_Some _ _ _ Hi).
  destruct (array_getguy_spec _ _ _ (Z.of_nat i) Ha ltac:(lia)) as (x & Hx & Hg).
  rewrite Hc, Nat2Z.id, list_lookup_fmap, Hi in Hx. simpl in Hx. injection Hx as <-.
  unfold on_vnodes, zoom. rewrite Hg. unfold with_vnodes. simpl. by rewrite sfs_eta.
Qed.

Lemma table_sv s ps bs i p : table s ps bs -> ps !! i = Some p -> exists sv, s_svs s !! p = Some sv.
Proof. intros Ht Hi. apply (tb_dom _ _ _ Ht). by eapply list_elem_of_lookup_2. Qed.

(** The search passes over a vnode of another inode. *)
Lemma load_search_miss s I O ps bs i p sv ino ft : fs_rep s I O -> table s ps bs ->
  ps !! i = Some p -> s_svs s !! p = Some sv -> sv_ino sv <> ino ->
  load_search ino ft (Z.of_nat i) s = (Ret None, s).
Proof.
  intros Hr Ht Hi Hp Hne. unfold load_search, bind. rewrite (table_guy _ _ _ _ _ Ht Hi).
  rewrite (sv_get_eq _ _ _ Hp).
  destruct (bused_eq _ _ _ _ _ Hr (ig_self _ _ _ _ (rep_good _ _ _ _ _ Hr Hp))) as (r & Hnz & ->).
  by zbool.
Qed.

Lemma load_search_hit s I O ps bs i p sv : fs_rep s I O -> table s ps bs ->
  ps !! i = Some p -> s_svs s !! p = Some sv ->
  load_search (sv_ino sv) SFS_TYPE_INVAL (Z.of_nat i) s =
    (Ret (Some p), with_svs (<[p := set_vnode (set_refcount (vn_refcount (sv_v sv) + 1) (sv_v sv)) sv]> (s_svs s)) s).
Proof.
  intros Hr Ht Hi Hp. unfold load_search, bind. rewrite (table_guy _ _ _ _ _ Ht Hi).
  rewrite (sv_get_eq _ _ _ Hp).
  destruct (bused_eq _ _ _ _ _ Hr (ig_self _ _ _ _ (rep_good _ _ _ _ _ Hr Hp))) as (r & Hnz & ->).
  zbool. cbn beta iota. unfold assert. change (SFS_TYPE_INVAL =? SFS_TYPE_INVAL) with true. cbn beta iota.
  unfold ret at 1. cbn beta iota. unfold on_vnode. rewrite Hp, vnode_incref_eq by (by eapply tb_ok). done.
Qed.

(** What the search finds: the vnode of the inode, if one is loaded. *)
Lemma search_cases s ps bs ino : table s ps bs ->
  (exists i p sv, ps !! i = Some p /\ s_svs s !! p = Some sv /\ sv_ino sv = ino /\
     forall j q sw, (j < i)%nat -> ps !! j = Some q -> s_svs s !! q = Some sw -> sv_ino sw <> ino) \/
  (forall p sv, s_svs s !! p = Some sv -> sv_ino sv <> ino).
Proof.
  intros Ht. pose proof (tb_dom _ _ _ Ht) as Hd.
  destruct (list_find (fun p => sv_ino <$> s_svs s !! p = Some ino) ps) as [[i p]|] eqn:E.
  - left. apply list_find_Some in E as (Hi & [sv [Hino Hp]]%fmap_Some & Hmin).
    exists i, p, sv. do 3 (split; [done|]). intros j q sw Hj Hq Hsw Hne.
    apply (Hmin j q Hq Hj). by rewrite Hsw, <- Hne.
  - right. apply list_find_None in E. intros p sv Hp <-.
    assert (p ∈ ps) as Hin by (apply Hd; by exists sv).
    eapply Forall_forall in E; [|exact Hin]. apply E. by rewrite Hp.
Qed.

Lemma search_runs s I O ps bs ino : fs_rep s I O -> table s ps bs ->
  (exists p sv, p ∈ ps /\ s_svs s !! p = Some sv /\ sv_ino sv = ino /\
     for_find (seqZ 0 (num (s_vnodes s))) (load_search ino SFS_TYPE_INVAL) s =
       (Ret (Some p), with_svs (<[p := set_vnode (set_refcount (vn_refcount (sv_v sv) + 1) (sv_v sv)) sv]> (s_svs s)) s)) \/
  ((forall p sv, s_svs s !! p = Some sv -> sv_ino sv <> ino) /\
   forall ft, for_find (seqZ 0 (num (s_vnodes s))) (load_search ino ft) s = (Ret None, s)).
Proof.
  intros Hr Ht. rewrite (table_num _ _ _ Ht).
  destruct (search_cases s ps bs ino Ht) as [(i & p & sv & Hi & Hp & <- & Hmin)|Hno].
  - left. exists p, sv. split; [by eapply list_elem_of_lookup_2|]. split; [done|]. split; [done|].
    pose proof (lookup_lt_Some _ _ _ Hi). rewrite (seqZ_split _ (Z.of_nat i)) by lia.
    apply for_find_first; [|by eapply load_search_hit]. intros j Hj%elem_of_seqZ.
    destruct (lookup_lt_is_Some_2 ps (Z.to_nat j)) as [q Hq]; [lia|].
    destruct (table_sv _ _ _ _ _ Ht Hq) as [sw Hsw]. rewrite <- (Z2Nat.id j) by lia.
    eapply load_search_miss; try done. apply (Hmin (Z.to_nat j) q); [lia|done|done].
  - right. split; [done|]. intros ft. apply for_find_none. intros j Hj%elem_of_seqZ.
    destruct (lookup_lt_is_Some_2 ps (Z.to_nat j)) as [q Hq]; [lia|].
    destruct (table_sv _ _ _ _ _ Ht Hq) as [sw Hsw]. rewrite <- (Z2Nat.id j) by lia.
    eapply load_search_miss; try done. by apply (Hno q).
Qed.

(** *** Changes of the table *)

Lemma rep_vnode s I O p sv v : fs_rep s I O -> s_svs s !! p = Some sv ->
  fs_rep (with_svs (<[p := set_vnode v sv]> (s_svs s)) s) I O.
Proof.
  intros [? ? ? ? ? ? Hmt ? ? ? Hlo Hun Hul] Hp.
  assert (forall q sw, <[p := set_vnode v sv]> (s_svs s) !! q = Some sw ->
    exists sw', s_svs s !! q = Some sw' /\ sv_i sw = sv_i sw' /\ sv_ino sw = sv_ino sw' /\ sv_dirty sw = sv_dirty sw') as Hin.
  { intros q sw. destruct (decide (q = p)) as [->|].
    - rewrite lookup_insert_eq. intros [= <-]. by exists sv.
    - rewrite lookup_insert_ne by done. intros Hq. by exists sw. }
  split; try done; unfold with_svs, dk in *; simpl in *.
  - by apply (meta_same s).
  - intros q sw Hq. destruct (Hin _ _ Hq) as (sw' & Hq' & -> & -> & ->). by apply Hlo in Hq'.
  - intros q q' sw sw' Hq Hq' E. destruct (Hin _ _ Hq) as (t1 & Ht1 & _ & E1 & _).
    destruct (Hin _ _ Hq') as (t2 & Ht2 & _ & E2 & _). apply (Hun _ _ _ _ Ht1 Ht2). congruence.
  - intros ino i Hi Hno. apply (Hul _ _ Hi). intros q sw Hq. destruct (decide (q = p)) as [->|].
    + simplify_eq. apply (Hno p (set_vnode v sv)). by rewrite lookup_insert_eq.
    + apply (Hno q). by rewrite lookup_insert_ne.
Qed.

Lemma rep_heap s I O h : fs_rep s I O -> fs_rep (with_heap h s) I O.
Proof. intros []. split; try done. by apply (meta_same s). Qed.

Lemma rep_vnodes s I O x : fs_rep s I O -> fs_rep (with_vnodes x s) I O.
Proof. intros []. split; try done. by apply (meta_same s). Qed.

(** A clean vnode is loaded. *)
Lemma rep_load s I O p v ino i : fs_rep s I O -> s_svs s !! p = None -> I !! ino = Some i ->
  (forall q sw, s_svs s !! q = Some sw -> sv_ino sw <> ino) ->
  fs_rep (with_svs (<[p := mk_sv v i ino false]> (s_svs s)) s) I O.
Proof.
  intros [? ? ? ? ? ? Hmt ? ? ? Hlo Hun Hul] Hp Hi Hno.
  split; try done; unfold with_svs, dk in *; simpl in *.
  - by apply (meta_same s).
  - intros q sw [[<- <-]|[_ Hq]]%lookup_insert_Some; [|by apply (Hlo q)]. simpl. split; [done|].
    intros _. by apply Hul.
  - intros q q' sw sw' [[<- <-]|[Hne Hq]]%lookup_insert_Some [[<- <-]|[Hne' Hq']]%lookup_insert_Some; simpl.
    + done.
    + intros E. symmetry in E. by destruct (Hno _ _ Hq').
    + intros E. by destruct (Hno _ _ Hq).
    + by apply Hun.
  - intros j i' Hi' Hj. apply (Hul _ _ Hi'). intros q sw Hq. apply (Hj q).
    rewrite lookup_insert_ne; [done|]. congruence.
Qed.

(** The inode that loading makes of the one on disk. *)
Definition forced_inode (ft : Z) (i : sfs_inode) : sfs_inode := if ft =? SFS_TYPE_INVAL then i else set_type ft i.

Lemma rep_load_forced s I O p v ino i ft : fs_rep s I O -> s_svs s !! p = None -> I !! ino = Some i ->
  (forall q sw, s_svs s !! q = Some sw -> sv_ino sw <> ino) -> 0 <= ft < 2 ^ 16 ->
  fs_rep (with_svs (<[p := mk_sv v (forced_inode ft i) ino (negb (ft =? SFS_TYPE_INVAL))]> (s_svs s)) s)
    (<[ino := forced_inode ft i]> I) O.
Proof.
  intros Hr Hp Hi Hno Hft. pose proof (rep_load s I O p v ino i Hr Hp Hi Hno) as Hl. unfold forced_inode.
  destruct (ft =? SFS_TYPE_INVAL); simpl; [by rewrite (insert_id I)|].
  pose proof (rep_set_inode _ I O O p (mk_sv v i ino false) (set_type ft i) Hl) as Hs.
  unfold with_svs in Hs. simpl in Hs. rewrite insert_insert_eq in Hs.
  apply Hs; [by apply lookup_insert_eq|done|by apply Hr|].
  destruct (rep_inode _ _ _ Hr _ _ Hi) as [[? ? ? ? ? ?] ? ? ? ?]. by split.
Qed.

Lemma table_vnode s ps bs p sv v : table s ps bs -> s_svs s !! p = Some sv -> vnode_ok v ->
  vn_countlock v = vn_countlock (sv_v sv) ->
  table (with_svs (<[p := set_vnode v sv]> (s_svs s)) s) ps bs.
Proof.
  intros [? ? Hd Ha Hv] Hp Hok Hl. split; try done; simpl.
  - intros q. rewrite <- Hd. destruct (decide (q = p)) as [->|].
    + rewrite lookup_insert_eq, Hp. by split.
    + by rewrite lookup_insert_ne.
  - replace (ps ≫= sv_blocks (<[p := set_vnode v sv]> (s_svs s))) with (ps ≫= sv_blocks (s_svs s)); [done|].
    apply list_bind_ext; [|done]. intros q. unfold sv_blocks. destruct (decide (q = p)) as [->|].
    + rewrite lookup_insert_eq, Hp. simpl. by rewrite Hl.
    + by rewrite lookup_insert_ne.
  - intros q sw [[<- <-]|[_ Hq]]%lookup_insert_Some; [done|by eapply Hv].
Qed.

(** There are fewer vnodes than blocks. *)
Lemma table_small s I O ps bs : fs_rep s I O -> table s ps bs -> Z.of_nat (length ps) <= nblocks s.
Proof.
  intros Hr Ht. set (f := fun p => default 0 (sv_ino <$> s_svs s !! p)).
  assert (NoDup (map f ps)) as Hnd.
  { apply NoDup_fmap_2_strong; [|apply Ht]. intros p q Hp Hq.
    apply (tb_dom _ _ _ Ht) in Hp as [sv Hp], Hq as [sw Hq]. unfold f. rewrite Hp, Hq. simpl.
    by apply (rep_unique _ _ _ Hr). }
  pose proof (rep_nblocks _ _ _ Hr) as [? ?].
  assert (map f ps ⊆+ seqZ 0 (nblocks s)) as Hsub.
  { apply NoDup_submseteq; [done|]. intros b (p & -> & Hp)%list_elem_of_fmap.
    apply (tb_dom _ _ _ Ht) in Hp as [sv Hp]. unfold f. rewrite Hp. simpl. apply elem_of_seqZ.
    pose proof (ig_self _ _ _ _ (rep_good _ _ _ _ _ Hr Hp)) as Ho.
    destruct (rep_block _ _ _ _ _ Hr Ho) as (? & _). lia. }
  apply submseteq_length in Hsub. rewrite length_map, length_seqZ in Hsub. lia.
Qed.

(** The files and the rest of the file system are as they were. *)
Record calm s I s' : Prop := {
  cm_files : same_files (dk s) I (dk s') I;
  cm_thread : s_thread s' = s_thread s;
  cm_self : s_self s' = s_self s;
  cm_super : s_super s' = s_super s;
  cm_freemap : s_freemap s' = s_freemap s;
  cm_dev : d_blocks (s_dev s') = d_blocks (s_dev s);
}.

Lemma calm_trans s I s1 s2 : calm s I s1 -> calm s1 I s2 -> calm s I s2.
Proof. intros [] []. split; try congruence. by eapply same_files_trans. Qed.

Lemma calm_refl s I : calm s I s.
Proof. split; try done. apply same_files_refl. Qed.

(** A vnode with its lock. *)
Lemma vnode_init_runs h bs (ops : sfs_ops) fs p : heap_ok h -> owns h bs ->
  runs (vnode_init ops fs p) h
    (fun v h' => heap_ok h' /\ exists l, v = mk_vnode 1 0 (Some l) fs p (Some ops) /\ lk_held l = false /\
       owns h' (lock_blocks l countlock_name ++ bs))
    (fun e h' => e = ENOMEM /\ heap_ok h' /\ owns h' bs).
Proof.
  intros Hok Ho. unfold vnode_init. apply runs_bind.
  eapply runs_mono; [by apply (lock_create_owns h bs countlock_name)| |done].
  intros [l|] h' [Hok' Hl]; run; [|done]. destruct Hl as [Hh Hl]. split; [done|]. by exists l.
Qed.

(** The blocks of the loaded vnodes do not depend on [p] if it is not one of them. *)
Lemma sv_blocks_insert (m : gmap Z sfs_vnode) ps p sv : p ∉ ps ->
  ps ≫= sv_blocks (<[p := sv]> m) = ps ≫= sv_blocks m.
Proof.
  intros Hp. induction ps as [|q ps IH]; [done|]. rewrite !bind_cons, not_elem_of_cons in *.
  rewrite IH by tauto. f_equal. unfold sv_blocks. by rewrite lookup_insert_ne by tauto.
Qed.

(** A block that is owned next to the table is not the struct of a vnode. *)
Lemma table_fresh (m : gmap Z sfs_vnode) (ps : list Z) h p n bs :
  (forall q, q ∈ ps -> is_Some (m !! q)) -> owns h ((p, n) :: bs) ->
  (forall x, x ∈ ps ≫= sv_blocks m -> x ∈ bs) -> p ∉ ps.
Proof.
  intros Hd Ho Hbs Hp. destruct (Hd _ Hp) as [sv Hsv]. apply owns_cons_inv in Ho as (_ & _ & Hn).
  apply Hn, list_elem_of_fmap. exists (p, sizeof_sfs_vnode). split; [done|]. apply Hbs.
  apply list_elem_of_bind. exists p. split; [|done]. unfold sv_blocks. rewrite Hsv. set_solver.
Qed.

Lemma array_at_heap (a : array Z) (h h' : H) bs x : array_at a h bs -> heap_ok h' ->
  owns h' (x ++ blocks a ++ bs) -> array_at a h' (x ++ bs).
Proof.
  intros (? & ? & ? & ? & ? & _) Hok Ho. split_and!; try done; try lia.
  eapply owns_perm; [|exact Ho]. rewrite !app_assoc. by rewrite (Permutation_app_comm x).
Qed.

Lemma array_at_owns (a : array Z) (h : H) bs : array_at a h bs -> heap_ok h /\ owns h (blocks a ++ bs).
Proof. by intros (? & ? & ? & ? & ? & ?). Qed.

Lemma array_at_perm (a : array Z) (h : H) bs bs' : bs ≡ₚ bs' -> array_at a h bs -> array_at a h bs'.
Proof.
  intros Hp (? & ? & ? & ? & ? & Ho). split_and!; try done; try lia.
  eapply owns_perm; [|exact Ho]. by rewrite Hp.
Qed.

(** The heap moves under the table. *)
Lemma table_heap s ps bs h : table s ps bs -> heap_ok h ->
  owns h (blocks (s_vnodes s) ++ (ps ≫= sv_blocks (s_svs s)) ++ bs) -> table (with_heap h s) ps bs.
Proof.
  intros [? ? ? Ha ?] Hok Ho. split; try done. by apply (array_at_heap _ (s_heap s) _ _ []).
Qed.

(** The last vnode reference goes: its lock and its struct are freed. *)
Lemma kill_drop s p sv l rest : s_svs s !! p = Some sv -> vn_refcount (sv_v sv) = 1 ->
  vn_opencount (sv_v sv) = 0 -> vn_countlock (sv_v sv) = Some l -> heap_ok (s_heap s) ->
  owns (s_heap s) (lock_blocks l countlock_name ++ (p, sizeof_sfs_vnode) :: rest) ->
  runs (vnode_kill_at p ;;; drop_sv p) s
    (fun _ s' => exists h', s' = with_svs (delete p (s_svs s)) (with_heap h' s) /\ heap_ok h' /\ owns h' rest)
    (fun _ _ => False).
Proof.
  intros Hp Hrc Hoc Hl Hok Ho. unfold vnode_kill_at, drop_sv. apply runs_bind, runs_bind.
  eapply runs_intro_ret; [by apply sv_get_eq|]. apply runs_bind, runs_zoom. unfold vnode_kill.
  rewrite Hrc, Hoc, Hl. run; [done..|].
  eapply runs_mono; [by eapply lock_destroy_owns| |done]. intros [] h1 [Hok1 Ho1]. run.
  unfold sv_modify at 1. unfold runs at 1. simpl. rewrite Hp. run. apply runs_zoom. simpl.
  eapply runs_mono; [by eapply kfree_owns| |done]. intros [] h2 (Hok2 & Ho2 & _).
  exists h2. split; [|done]. unfold with_svs, with_heap. simpl. by rewrite delete_insert_eq.
Qed.

(** The vnode at [p], with its struct and lock allocated, goes into the table. *)
Lemma load_add s I O ps bs p l ops ino i ft h : fs_rep s I O -> table s ps bs ->
  (forall q sw, s_svs s !! q = Some sw -> sv_ino sw <> ino) -> I !! ino = Some i -> 0 <= ft < 2 ^ 16 ->
  heap_ok h -> lk_held l = false ->
  owns h (lock_blocks l countlock_name ++ (p, sizeof_sfs_vnode) ::
    blocks (s_vnodes s) ++ (ps ≫= sv_blocks (s_svs s)) ++ bs) ->
  let v := mk_vnode 1 0 (Some l) (s_self s) p (Some ops) in
  let sv := mk_sv v (forced_inode ft i) ino (negb (ft =? SFS_TYPE_INVAL)) in
  runs (modify (fun s => with_svs (<[p := sv]> (s_svs s)) s) ;;;
        r <- result_of (on_vnodes (array_add p)) ;;
        if r =? 0 then ret p else vnode_kill_at p ;;; drop_sv p ;;; fail r) (with_heap h s)
    (fun q s' => q = p /\ s_svs s !! p = None /\ fs_rep s' (<[ino := forced_inode ft i]> I) O /\ table s' (ps ++ [p]) bs /\ calm s I s' /\
       s_svs s' = <[p := sv]> (s_svs s))
    (fun e s' => e = ENOMEM /\ fs_rep s' I O /\ table s' ps bs /\ calm s I s' /\ s_svs s' = s_svs s).
Proof.
  intros Hr Ht Hno Hi Hft Hok Hl Ho v sv. pose proof (table_small _ _ _ _ _ Hr Ht) as Hsm.
  pose proof (rep_nblocks _ _ _ Hr) as [_ Hnb]. pose proof (table_num _ _ _ Ht) as Hnum.
  pose proof Ht as [Hc Hnd Hd Ha Hv].
  assert (p ∉ ps) as Hp.
  { apply owns_perm with (bs' := (p, sizeof_sfs_vnode) :: (ps ≫= sv_blocks (s_svs s)) ++
      lock_blocks l countlock_name ++ blocks (s_vnodes s) ++ bs) in Ho; [|solve_Permutation].
    eapply table_fresh; [|exact Ho|]; [intros q; apply Hd|set_solver]. }
  assert (s_svs s !! p = None) as Hpn.
  { destruct (s_svs s !! p) eqn:E; [|done]. destruct Hp. apply Hd. by exists s0. }
  run. set (s1 := with_svs _ _). apply runs_zoom. simpl.
  assert (array_at (s_vnodes s) h ((lock_blocks l countlock_name ++ [(p, sizeof_sfs_vnode)]) ++
    (ps ≫= sv_blocks (s_svs s)) ++ bs)) as Ha1.
  { apply (array_at_heap _ (s_heap s)); [done|done|]. by rewrite <- app_assoc. }
  assert (fs_rep (with_heap h s) I O) as Hrh by (by apply rep_heap).
  eapply runs_mono; [by apply (array_add_spec _ _ _ p Ha1); lia|..].
  - intros [] [a' h'] (Ha' & _ & Hc'). simpl in *. run. split; [done|]. split; [done|].
    split; [apply rep_vnodes; by apply (rep_load_forced (with_heap h s))|]. split; [|split; [split; try done; apply same_files_refl|done]].
    split; simpl.
    + by rewrite Hc', Hc, map_app.
    + apply NoDup_app. split; [done|]. split; [set_solver|apply NoDup_singleton].
    + intros q. rewrite elem_of_app, list_elem_of_singleton, <- Hd. destruct (decide (q = p)) as [->|].
      * rewrite lookup_insert_eq. split; [by right|done].
      * rewrite lookup_insert_ne by done. tauto.
    + eapply array_at_perm; [|exact Ha']. rewrite bind_app, sv_blocks_insert, bind_singleton by done.
      replace (sv_blocks (<[p := sv]> (s_svs s)) p)
        with ((p, sizeof_sfs_vnode) :: lock_blocks l countlock_name); [solve_Permutation|].
      unfold sv_blocks. by rewrite lookup_insert_eq.
    + intros q sw [[<- <-]|[_ Hq]]%lookup_insert_Some; [|by eapply Hv].
      split; [simpl; lia|]. split; [simpl; lia|]. split; [by exists l|done].
  - intros e [a' h'] (-> & Ea & Ha' & _). simpl in Ea. subst a'. simpl in Ha'. run.
    change (ENOMEM =? 0) with false. cbn iota. apply runs_assoc, runs_bind.
    pose proof (array_at_owns _ _ _ Ha') as [Hok' Ho'].
    eapply runs_mono; [eapply (kill_drop _ p (sv) l
      (blocks (s_vnodes s) ++ (ps ≫= sv_blocks (s_svs s)) ++ bs)); try done|..]; simpl.
    + by rewrite lookup_insert_eq.
    + eapply owns_perm; [|exact Ho']. solve_Permutation.
    + intros [] s' (h2 & -> & Hok2 & Ho2). run. split; [done|].
      assert (with_svs (delete p (<[p := sv]> (s_svs s)))
        (with_heap h2 (with_vnodes (s_vnodes s, h') s1)) = with_heap h2 s) as ->.
      { unfold s1, with_svs, with_heap, with_vnodes. simpl. by rewrite delete_insert_id. }
      split; [by apply rep_heap|]. split; [|split; [split; try done; apply same_files_refl|done]].
      by apply table_heap.
    + done.
Qed.

(** The function table of an inode type. *)
Definition ops_of (type : Z) : option sfs_ops :=
  if type =? SFS_TYPE_FILE then Some sfs_fileops
  else if type =? SFS_TYPE_DIR then Some sfs_dirops else None.

Lemma choose_ops_runs type ops s (Q : sfs_ops -> sfs U D H -> Prop) E :
  ops_of type = Some ops -> Q ops s -> runs (choose_ops type) s Q E.
Proof.
  unfold ops_of, choose_ops. destruct (type =? SFS_TYPE_FILE); [intros [= <-]; by run|].
  destruct (type =? SFS_TYPE_DIR); [intros [= <-]; by run|done].
Qed.

Lemma table_io s ps bs x : table s ps bs -> table (with_io x s) ps bs.
Proof. intros []. by split. Qed.

Lemma on_disk_heap s (h : H) (d' : D) :
  with_io (s_thread s, d') (with_heap h s) = with_heap h (with_io (s_thread s, d') s).
Proof. done. Qed.

Lemma load_new_runs s I O ps bs ino i ops ft : fs_rep s I O -> table s ps bs ->
  (forall q sw, s_svs s !! q = Some sw -> sv_ino sw <> ino) -> I !! ino = Some i ->
  0 <= ft < 2 ^ 16 -> (ft <> SFS_TYPE_INVAL -> sfi_type i = SFS_TYPE_INVAL) ->
  ops_of (sfi_type (forced_inode ft i)) = Some ops ->
  runs (load_new ino ft) s
    (fun p s' => s_svs s !! p = None /\ fs_rep s' (<[ino := forced_inode ft i]> I) O /\ table s' (ps ++ [p]) bs /\ calm s I s' /\
       exists l, s_svs s' = <[p := mk_sv (mk_vnode 1 0 (Some l) (s_self s) p (Some ops)) (forced_inode ft i) ino (negb (ft =? SFS_TYPE_INVAL))]> (s_svs s))
    (fun e s' => e = ENOMEM /\ fs_rep s' I O /\ table s' ps bs /\ calm s I s' /\ s_svs s' = s_svs s).
Proof.
  intros Hr Ht Hno Hi Hft Hinv Hops. unfold load_new. apply runs_bind, runs_zoom.
  destruct (array_at_owns _ _ _ (tb_array _ _ _ Ht)) as [Hok Ho].
  eapply runs_mono; [by apply (kmalloc_owns _ sizeof_sfs_vnode _ Hok Ho)| |done].
  intros p h1 (Hok1 & [(-> & Ho1 & _)|(Hp & Ho1 & _)]).
  { run. split; [done|]. split; [by apply rep_heap|]. split; [by apply table_heap|].
    split; [split; try done; apply same_files_refl|done]. }
  zbool. pose proof (rep_heap _ _ _ h1 Hr) as Hr1.
  pose proof (ig_self _ _ _ _ (rep_inode _ _ _ Hr _ _ Hi)) as Hself.
  destruct (bused_eq _ _ _ _ _ Hr1 Hself) as (r & Hnz & Hu).
  apply runs_bind. eapply runs_intro_ret; [done|]. zbool. run.
  eapply runs_mono; [apply (rblock_runs _ I O); [done|]| |done].
  { by apply (rep_block _ _ _ _ _ Hr1 Hself). }
  intros blk s2 (-> & Hr2 & Hs2 & (d' & ->) & Hkp & _). simpl.
  assert (decode_inode (dk s ino) = i) as Hdec.
  { rewrite (rep_unloaded _ _ _ Hr _ _ Hi) by (intros; by eapply Hno).
    apply decode_encode_inode, (rep_inode _ _ _ Hr _ _ Hi). }
  change (dk (with_heap h1 s) ino) with (dk s ino). rewrite Hdec.
  apply (runs_bind_eq _ (ret (forced_inode ft i, negb (ft =? SFS_TYPE_INVAL)))).
  { unfold forced_inode. destruct (Z.eqb_spec ft SFS_TYPE_INVAL) as [|Hne]; cbn [negb]; [done|].
    change (nth 1 (words_of (dk s ino)) 0 / 2 ^ 16) with (sfi_type (decode_inode (dk s ino))).
    unfold bind, assert. by rewrite Hdec, (Hinv Hne). }
  run. eapply choose_ops_runs; [done|]. run. apply runs_zoom. simpl.
  set (s2 := with_io (s_thread s, d') s).
  assert (fs_rep s2 I O) as Hr2' by (exact (rep_heap _ _ _ (s_heap s) Hr2)).
  assert (calm s I s2) as Hcalm.
  { split; try done. apply (kp_dev _ _ _ (Hkp 0)). }
  eapply runs_mono; [by apply (vnode_init_runs h1 _ ops (s_self s) p Hok1 Ho1)|..].
  - intros v h2 (Hok2 & l & -> & Hl & Ho2).
    change (with_heap h2 (with_io (s_thread s, d') (with_heap h1 s))) with (with_heap h2 s2).
    eapply runs_mono; [apply (load_add s2 I O ps bs p l ops ino i ft h2); try done; by apply table_io|..].
    + intros q s' (-> & Hpn & Hr' & Ht' & Hc' & Hsv'). split; [done|]. split; [done|]. split; [done|].
      split; [by eapply calm_trans|]. by exists l.
    + intros e s' (-> & Hr' & Ht' & Hc' & Hsv'). do 3 (split; [done|]). split; [by eapply calm_trans|done].
  - intros e h2 (-> & Hok2 & Ho2). run. apply runs_zoom. simpl.
    eapply runs_mono; [by eapply kfree_owns| |done]. intros [] h3 (Hok3 & Ho3 & _). run.
    split; [done|]. split; [exact (rep_heap _ _ _ h3 Hr2')|].
    split; [apply (table_heap s2); [by apply table_io|done|done]|]. split; [|done].
    eapply calm_trans; [exact Hcalm|]. split; try done. apply same_files_refl.
Qed.

(** [q] is the vnode of inode [ino]: the one that was loaded, with one more
    reference, or a new one. *)
Definition loaded s s' (ino : Z) (i : sfs_inode) (q : Z) : Prop :=
  exists sv, s_svs s' = <[q := sv]> (s_svs s) /\ sv_ino sv = ino /\ sv_i sv = i /\
    match s_svs s !! q with
    | Some sv0 => sv = set_vnode (set_refcount (vn_refcount (sv_v sv0) + 1) (sv_v sv0)) sv0
    | None => vn_refcount (sv_v sv) = 1 /\ vn_opencount (sv_v sv) = 0 /\ vn_fs (sv_v sv) = s_self s /\
        vn_ops (sv_v sv) = ops_of (sfi_type i) /\ sv_dirty sv = false
    end.

Lemma loadvnode_spec s I O ps bs ino i : fs_rep s I O -> table s ps bs -> I !! ino = Some i ->
  ops_of (sfi_type i) <> None ->
  (forall p sv, s_svs s !! p = Some sv -> vn_refcount (sv_v sv) < 2 ^ 31 - 2) ->
  runs (sfs_loadvnode ino SFS_TYPE_INVAL) s
    (fun q s' => fs_rep s' I O /\ (exists ps', table s' ps' bs) /\ calm s I s' /\ loaded s s' ino i q)
    (fun e s' => e = ENOMEM /\ fs_rep s' I O /\ table s' ps bs /\ calm s I s' /\ s_svs s' = s_svs s).
Proof.
  intros Hr Ht Hi Hops Hrc. unfold sfs_loadvnode. apply runs_bind.
  eapply runs_intro_ret; [unfold on_vnodes, zoom, array_getnum, gets, with_vnodes; simpl; by rewrite sfs_eta|].
  apply runs_bind.
  destruct (search_runs s I O ps bs ino Hr Ht) as [(p & sv & Hin & Hp & <- & Hf)|[Hno Hf]].
  - eapply runs_intro_ret; [exact Hf|]. run. pose proof (rep_at _ _ _ _ _ Hr Hp) as Hi'. simplify_eq.
    split; [by apply rep_vnode|]. split.
    + exists ps. apply table_vnode; try done. pose proof (tb_ok _ _ _ Ht _ _ Hp) as (? & ? & ? & ?).
      specialize (Hrc _ _ Hp). split; [simpl; lia|]. done.
    + split; [split; try done; apply same_files_refl|].
      eexists. split; [done|]. split; [done|]. split; [done|]. by rewrite Hp.
  - eapply runs_intro_ret; [apply Hf|]. destruct (ops_of (sfi_type i)) as [ops|] eqn:Ho; [|done].
    eapply runs_mono; [by eapply (load_new_runs s I O ps bs ino i ops SFS_TYPE_INVAL)|..]; [|done].
    rewrite insert_id by done. intros p s' (Hpn & Hr' & Ht' & Hc & l & Hsv). split; [done|]. split; [by eexists|]. split; [done|].
    eexists. split; [done|]. split; [done|]. split; [done|]. rewrite Hpn. by rewrite Ho.
Qed.

Lemma table_same s s' ps bs : table s ps bs -> s_vnodes s' = s_vnodes s -> s_heap s' = s_heap s ->
  s_svs s' = s_svs s -> table s' ps bs.
Proof. intros [] Ev Eh Es. split; rewrite ?Ev, ?Eh, ?Es; done. Qed.

(** The entries of a directory lead to live files. *)
Definition entries_ok I (l : list sfs_dir) : Prop :=
  forall sd, sd ∈ l -> sfd_ino sd <> SFS_NOINO ->
    exists i, I !! sfd_ino sd = Some i /\ ops_of (sfi_type i) <> None /\ sfi_linkcount i <> 0.

(** Lookups only load vnodes. *)
Definition looked s I s' bs : Prop :=
  (exists O' ps', fs_rep s' I O' /\ table s' ps' bs) /\ same_files (dk s) I (dk s') I /\ s_self s' = s_self s.

Lemma lookonce_spec p sv s I O ps bs name : fs_rep s I O -> table s ps bs ->
  s_svs s !! p = Some sv -> dir_good s (sv_i sv) -> entries_ok I (dir_slots s (sv_i sv)) -> name_ok name ->
  (forall q sw, s_svs s !! q = Some sw -> vn_refcount (sv_v sw) < 2 ^ 31 - 2) ->
  runs (sfs_lookonce p name) s
    (fun '(q, k) s' => looked s I s' bs /\ exists ino i, entry_at (dir_slots s (sv_i sv)) name (Some (ino, k)) /\
       I !! ino = Some i /\ loaded s s' ino i q)
    (fun e s' => looked s I s' bs /\ s_svs s' = s_svs s /\
       ((e = ENOENT /\ entry_at (dir_slots s (sv_i sv)) name None) \/ e = ENOMEM)).
Proof.
  intros Hr Ht Hp Hg He Hn Hrc. unfold sfs_lookonce. apply runs_bind.
  eapply runs_mono; [by eapply findname_spec| |done].
  intros [found empty] s1 (Hsv & (O1 & Hr1 & Hs1 & Hk1 & _) & Hent & _).
  assert (table s1 ps bs) as Ht1.
  { eapply table_same; [done|by apply (kp_vnodes _ _ _ Hk1)|by apply (kp_heap _ _ _ Hk1)|done]. }
  destruct found as [[ino k]|].
  2:{ run. split; [split; [by exists O1, ps|split; [done|apply Hk1]]|]. split; [done|]. by left. }
  pose proof Hent as (Hk & sd & Hsd & Hino & Hnz & _). apply list_elem_of_lookup_2 in Hsd.
  destruct (He sd Hsd) as (i & Hi & Hops & Hlc); [congruence|]. rewrite Hino in Hi.
  apply runs_bind. eapply runs_mono; [apply (loadvnode_spec s1 I O1 ps bs ino i); try done|..].
  - intros q sw. rewrite Hsv. apply Hrc.
  - intros q s2 (Hr2 & [ps2 Ht2] & Hc & sw & Hsv2 & Hino2 & Hi2 & Hrest).
    assert (s_svs s2 !! q = Some sw) as Hq by (rewrite Hsv2; apply lookup_insert_eq).
    apply runs_bind. eapply runs_intro_ret; [by apply sv_get_eq|].
    rewrite Hi2. zbool. run. split.
    + split; [by exists O1, ps2|]. split; [eapply same_files_trans; [done|apply Hc]|].
      by rewrite (cm_self _ _ _ Hc), (kp_self _ _ _ Hk1).
    + exists ino, i. split; [done|]. split; [done|]. exists sw. rewrite Hsv, (kp_self _ _ _ Hk1) in *. done.
  - intros e s2 (-> & Hr2 & Ht2 & Hc & Hsv2). split.
    + split; [by exists O1, ps|]. split; [eapply same_files_trans; [done|apply Hc]|].
      by rewrite (cm_self _ _ _ Hc), (kp_self _ _ _ Hk1).
    + split; [congruence|by right].
Qed.

End table.

(** ** Theorems *)


(** [sfs_lookup] hands back the vnode of the inode that the directory has
    under the name, ENOENT if it has no such name, ENOTDIR on a vnode that is not
    a directory; it never panics, and no file changes. *)
Theorem sfs_lookup_correct {U D H : Type} `{BlockDevLaws U D} `{!Heap H} `{!HeapLaws H}
    p sv (s : sfs U D H) I O ps bs name :
  fs_rep s I O -> table s ps bs -> s_svs s !! p = Some sv -> name_ok name ->
  (sfi_type (sv_i sv) = SFS_TYPE_DIR -> dir_good s (sv_i sv) /\ entries_ok I (dir_slots s (sv_i sv))) ->
  (forall q sw, s_svs s !! q = Some sw -> vn_refcount (sv_v sw) < 2 ^ 31 - 2) ->
  runs (sfs_lookup p name) s
    (fun q s' => sfi_type (sv_i sv) = SFS_TYPE_DIR /\ looked s I s' bs /\
       exists ino k i, entry_at (dir_slots s (sv_i sv)) name (Some (ino, k)) /\
         I !! ino = Some i /\ loaded s s' ino i q)
    (fun e s' => looked s I s' bs /\ s_svs s' = s_svs s /\
       if sfi_type (sv_i sv) =? SFS_TYPE_DIR
       then (e = ENOENT /\ entry_at (dir_slots s (sv_i sv)) name None) \/ e = ENOMEM
       else e = ENOTDIR).
Proof.
  intros Hr Ht Hp Hn Hdir Hrc. unfold sfs_lookup. apply runs_bind.
  eapply runs_intro_ret; [by apply sv_get_eq|].
  destruct (Z.eqb_spec (sfi_type (sv_i sv)) SFS_TYPE_DIR) as [E|E]; simpl.
  - destruct (Hdir E) as [Hg He]. apply runs_bind. eapply runs_mono; [by eapply lookonce_spec| |done].
    intros [q k] s' (Hl & ino & i & ? & ? & ?). run. split; [done|]. split; [done|]. by exists ino, k, i.
  - run. split; [|done]. split; [by exists O, ps|]. split; [apply same_files_refl|done].
Qed.

(** *** Witnesses *)

(** A heap that holds the sample's table: the two structs with their locks, the
    array and its slots. *)
Definition sample_heap : Quota.heap :=
  Quota.mk 8000 3 (list_to_map [(1000, 544); (3010, 16); (3000, 8); (2000, 544); (3110, 16); (3100, 8);
    (4000, 12); (4020, 8)]).

(** Checks that a heap and a list of its blocks are in order. *)
Definition heap_checks (h : Quota.heap) : bool :=
  let bs := map_to_list (Quota.q_live h) in
  (0 <? Quota.q_next h) &&
  forallb (fun '(p, n) => (0 <? p) && (0 <=? n) && (p + n <? Quota.q_next h) &&
    forallb (fun '(q, m) => (p =? q) || (p + n <=? q) || (q + m <=? p)) bs) bs.

Definition owns_checks (h : Quota.heap) (bs : list (Z * Z)) : bool :=
  bool_decide (NoDup bs.*1) && forallb (fun x => bool_decide (Quota.q_live h !! x.1 = Some x.2)) bs.

Lemma heap_checks_ok h : heap_checks h = true -> heap_ok h.
Proof.
  unfold heap_checks. intros [Hn Hall]%andb_true_iff. rewrite forallb_forall in Hall.
  assert (forall p n, Quota.q_live h !! p = Some n -> In (p, n) (map_to_list (Quota.q_live h))) as Hin.
  { intros p n Hp. by apply list_elem_of_In, elem_of_map_to_list. }
  split; [lia|]. split.
  - intros p n Hp. apply Hin, Hall in Hp. lia.
  - intros p q n m Hp Hq Hne. apply Hin in Hp, Hq. apply Hall in Hp.
    rewrite !andb_true_iff, forallb_forall in Hp. destruct Hp as [_ Hp]. apply Hp in Hq. lia.
Qed.

Lemma owns_checks_ok h bs : owns_checks h bs = true -> owns h bs.
Proof.
  unfold owns_checks. intros [Hnd Hl]%andb_true_iff. apply bool_decide_eq_true in Hnd. rewrite forallb_forall in Hl.
  split; [done|]. intros p n Hin. by apply list_elem_of_In, Hl, bool_decide_eq_true in Hin.
Qed.

Lemma sample_heap_ok : heap_ok sample_heap.
Proof. apply heap_checks_ok. by vm_compute. Qed.

Lemma sample_table : table (sample sample_heap) [1000; 2000] [].
Proof.
  split.
  - done.
  - apply NoDup_cons. split; [set_solver|apply NoDup_singleton].
  - intros p. split.
    + intros [sv Hp]. simpl in Hp. in_map Hp; set_solver.
    + rewrite elem_of_cons, list_elem_of_singleton. intros [->| ->]; by eexists.
  - split; [apply sample_heap_ok|]. split; [simpl; lia|]. split; [simpl; lia|]. split; [done|]. split; [done|].
    apply owns_checks_ok. by vm_compute.
  - intros p sv Hp. simpl in Hp. in_map Hp;
      (split; [simpl; lia|]); (split; [simpl; lia|]); (split; [by eexists|done]).
Qed.

Lemma sample_refcounts p sv : s_svs (sample sample_heap) !! p = Some sv -> vn_refcount (sv_v sv) < 2 ^ 31 - 2.
Proof. intros Hp. simpl in Hp. in_map Hp; simpl; lia. Qed.


Lemma sfs_lookup_correct_witness :
  let l := dir_slots (sample sample_heap) root_inode in
  runs (sfs_lookup 1000 [97]) (sample sample_heap)
    (fun q s' => SFS_TYPE_DIR = SFS_TYPE_DIR /\ looked (sample sample_heap) sample_I s' [] /\
       exists ino k i, entry_at l [97] (Some (ino, k)) /\
         sample_I !! ino = Some i /\ loaded (sample sample_heap) s' ino i q)
    (fun e s' => looked (sample sample_heap) sample_I s' [] /\ s_svs s' = s_svs (sample sample_heap) /\
       ((e = ENOENT /\ entry_at l [97] None) \/ e = ENOMEM)).
Proof.
  assert (dir_slots (sample sample_heap) root_inode = [root_entry]) as Hsl by (by vm_compute).
  apply (sfs_lookup_correct 1000 root_sv (sample sample_heap) sample_I sample_O [1000; 2000] [] [97]).
  - apply sample_rep.
  - apply sample_table.
  - done.
  - by repeat constructor.
  - intros _. change (sv_i root_sv) with root_inode. rewrite Hsl. split.
    + split; [done|done|done|]. rewrite Hsl. intros [|j] [|k] sj sk Hj Hk; simplify_eq/=; done.
    + intros sd ->%list_elem_of_singleton _. by exists file_inode.
  - apply sample_refcounts.
Defined.
