(* ===== verification/SfsSync.v ===== *)
(** The SFS file system: an inode is written back to its block
    ([sfs_sync_inode] of kern/fs/sfs/sfs_vnode.c), which keeps the representation
    and every file. *)

From Stdlib Require Import ZArith Lia.
From stdpp Require Import prelude gmap list.
From S2P Require Import Prelude Heap Array Bitmap SynchObj Vnode Pages Copy Uio Device SfsDisk SfsFile SfsRep SfsBmap SfsIo SfsDir SfsVnode.

#[local] Arguments replicate : simpl never.

Section sync.
Context {U D H : Type} `{BlockDevLaws U D} `{!Heap H} `{!HeapLaws H}.
Implicit Types (s : sfs U D H) (I : gmap Z sfs_inode) (O : gmap Z owner) (d : D).

Lemma table_svs s s' ps bs : table s ps bs -> s_vnodes s' = s_vnodes s -> s_heap s' = s_heap s ->
  (forall p, sv_v <$> s_svs s' !! p = sv_v <$> s_svs s !! p) -> table s' ps bs.
Proof.
  intros [? ? Hd Ha Hv] E1 E2 Hsv.
  assert (forall p, is_Some (s_svs s' !! p) <-> is_Some (s_svs s !! p)) as His.
  { intros p. rewrite <- !(fmap_is_Some sv_v). by rewrite Hsv. }
  split; rewrite ?E1, ?E2; try done.
  - intros p. rewrite His. apply Hd.
  - replace (ps ≫= sv_blocks (s_svs s')) with (ps ≫= sv_blocks (s_svs s)); [done|].
    apply list_bind_ext; [|done]. intros q. unfold sv_blocks. specialize (Hsv q).
    destruct (s_svs s' !! q), (s_svs s !! q); simplify_eq/=; [|done]. by rewrite Hsv.
  - intros p sv Hp. specialize (Hsv p). rewrite Hp in Hsv. symmetry in Hsv.
    apply fmap_Some in Hsv as (sv' & Hp' & ->). by eapply Hv.
Qed.

(** The inode of a loaded vnode is written to its block. *)
Lemma rep_sync s I O p sv (d' : D) : fs_rep s I O -> s_svs s !! p = Some sv ->
  dev_now (fun c => if c =? sv_ino sv then encode_inode (sv_i sv) else dk s c) (s_dev s) d' ->
  let s' := with_svs (<[p := set_dirty false sv]> (s_svs s)) (with_io (s_thread s, d') s) in
  fs_rep s' I O /\ same_files (dk s) I (dk s') I.
Proof.
  intros Hr Hp (Hd & Hn & Hz & Hc) s'. pose proof (rep_good _ _ _ _ _ Hr Hp) as Hg.
  pose proof (ig_self _ _ _ _ Hg) as Hself.
  assert (forall b o, O !! b = Some o -> dblock d' b = if b =? sv_ino sv then encode_inode (sv_i sv) else dk s b) as Hdk.
  { intros b o Ho. apply Hc. by destruct (rep_block _ _ _ _ _ Hr Ho) as (_ & [? _] & _). }
  assert (forall b o, O !! b = Some o -> o <> OInode -> dblock d' b = dk s b) as Hsame.
  { intros b o Ho Hne. rewrite (Hdk _ _ Ho). destruct (Z.eqb_spec b (sv_ino sv)) as [->|]; [congruence|done]. }
  assert (same_reserved s d') as Hres.
  { intros c Hcr Hnu. pose proof (rep_nblocks _ _ _ Hr). rewrite Hc by lia.
    destruct (Z.eqb_spec c (sv_ino sv)) as [->|]; [|done]. by destruct (rep_owned _ _ _ Hr _ _ Hself). }
  pose proof Hr as [? ? ? Hnb ? ? Hmt ? ? Hin Hlo Hun Hul].
  assert (forall j i, I !! j = Some i -> sfi_indirect i <> 0 -> dblock d' (sfi_indirect i) = dk s (sfi_indirect i)) as Hind.
  { intros j i Hi Hnz. by eapply Hsame; [apply (ig_indirect _ _ _ _ (Hin _ _ Hi))|]. }
  split.
  - split; try done; unfold s', dk, nblocks, with_svs, with_io in *; simpl in *.
    + by rewrite Hn.
    + by apply (meta_same (with_io (s_thread s, d') s)); [apply meta_io|..].
    + intros j i Hi. eapply good_mono; [done|by eapply Hind|by apply Hin].
    + intros q sw [[<- <-]|[Hne Hq]]%lookup_insert_Some; simpl.
      * split; [by destruct (Hlo _ _ Hp)|]. intros _. rewrite (Hdk _ _ Hself). by rewrite Z.eqb_refl.
      * destruct (Hlo _ _ Hq) as [Hi Hcl]. split; [done|]. intros Hdt.
        rewrite (Hdk _ _ (ig_self _ _ _ _ (Hin _ _ Hi))).
        destruct (Z.eqb_spec (sv_ino sw) (sv_ino sv)) as [E|]; [|by apply Hcl]. by destruct (Hne (Hun _ _ _ _ Hp Hq (eq_sym E))).
    + intros q q' sw sw' [[<- <-]|[Hne Hq]]%lookup_insert_Some [[<- <-]|[Hne' Hq']]%lookup_insert_Some; simpl;
        [done| | |by apply Hun]; intros E; [by apply (Hun _ _ _ _ Hp Hq')|by apply (Hun _ _ _ _ Hq Hp)].
    + intros j i Hi Hno. rewrite (Hdk _ _ (ig_self _ _ _ _ (Hin _ _ Hi))).
      destruct (Z.eqb_spec j (sv_ino sv)) as [->|].
      { destruct (Hno p (set_dirty false sv)); [by rewrite lookup_insert_eq|done]. }
      apply (Hul _ _ Hi). intros q sw Hq E. destruct (decide (q = p)) as [->|]; [congruence|].
      apply (Hno q sw); [by rewrite lookup_insert_ne|done].
  - apply same_files_intro. intros j i Hi m Hm. apply file_byte_ext; [by eapply Hind|]. intros Hnz.
    by eapply Hsame; [apply (ig_data _ _ _ _ (Hin _ _ Hi) _ (block_range _ Hm))|].
Qed.

(** [s'] is [s] with some of the inodes written to disk. *)
Record synced s I O s' : Prop := {
  sy_rep : fs_rep s' I O;
  sy_files : same_files (dk s) I (dk s') I;
  sy_thread : s_thread s' = s_thread s;
  sy_heap : s_heap s' = s_heap s;
  sy_fs : s_self s' = s_self s /\ s_super s' = s_super s /\ s_freemap s' = s_freemap s;
  sy_dirty : s_superdirty s' = s_superdirty s /\ s_freemapdirty s' = s_freemapdirty s;
  sy_vnodes : s_vnodes s' = s_vnodes s;
  sy_dev : d_blocksize (s_dev s') = d_blocksize (s_dev s);
  sy_svs : forall q, s_svs s' !! q = s_svs s !! q \/ s_svs s' !! q = set_dirty false <$> s_svs s !! q;
}.

Lemma synced_refl s I O : fs_rep s I O -> synced s I O s.
Proof. intros Hr. split; try done; [by apply same_files_refl|]. by left. Qed.

Lemma synced_trans s I O s' s'' : synced s I O s' -> synced s' I O s'' -> synced s I O s''.
Proof.
  intros [? ? ? ? (? & ? & ?) [? ?] ? ? Hs] [? ? ? ? (? & ? & ?) [? ?] ? ? Hs'].
  split; [done|by eapply same_files_trans|congruence..| | |congruence|congruence|].
  - split_and!; congruence.
  - split; congruence.
  - intros q. destruct (Hs' q) as [-> | ->]; [done|].
    destruct (Hs q) as [-> | ->]; right; [done|]. by destruct (s_svs s !! q).
Qed.

Lemma synced_table s I O s' ps bs : synced s I O s' -> table s ps bs -> table s' ps bs.
Proof.
  intros [_ _ _ Hh _ _ Hv _ Hs] Ht. eapply table_svs; [done|done|done|].
  intros p. destruct (Hs p) as [-> | ->]; [done|]. by destruct (s_svs s !! p).
Qed.

Definition inode_clean s p : Prop := forall sv, s_svs s !! p = Some sv -> sv_dirty sv = false.

Lemma synced_clean s I O s' p : synced s I O s' -> inode_clean s p -> inode_clean s' p.
Proof.
  intros Hs Hc sv Hp. destruct (sy_svs _ _ _ _ Hs p) as [E|E]; rewrite E in Hp; [by apply Hc|].
  apply fmap_Some in Hp as (sw & _ & ->). done.
Qed.

Lemma sync_inode_runs s I O p sv : fs_rep s I O -> s_svs s !! p = Some sv ->
  runs (sfs_sync_inode p) s
    (fun _ s' => synced s I O s' /\ s_svs s' = <[p := set_dirty false sv]> (s_svs s)) (fun _ _ => False).
Proof.
  intros Hr Hp. pose proof (rep_good _ _ _ _ _ Hr Hp) as Hg. unfold sfs_sync_inode. apply runs_bind.
  eapply runs_intro_ret; [by apply sv_get_eq|]. destruct (sv_dirty sv) eqn:Ed.
  2:{ run. split; [by apply synced_refl|]. rewrite insert_id; [done|]. rewrite Hp. by destruct sv; simpl in *; subst. }
  destruct (rep_block _ _ _ _ _ Hr (ig_self _ _ _ _ Hg)) as (_ & Hb & _).
  apply runs_bind, runs_zoom. pose proof (ig_shape _ _ _ _ Hg) as Hsh.
  eapply runs_mono; [apply sfs_wblock_runs; [apply Hr|apply Hr|apply Hr|done|by apply length_encode_inode|by apply encode_inode_range]| |done].
  intros [] [t' d'] [-> Hd]. destruct (rep_sync s I O p sv d' Hr Hp Hd) as [Hr' Hs'].
  unfold sv_modify, runs. simpl. rewrite Hp. split; [|done].
  split; try done; [by destruct Hd as (_ & _ & ? & _)|]. intros q. simpl.
  destruct (decide (q = p)) as [->|]; [right|left; by rewrite lookup_insert_ne].
  by rewrite lookup_insert_eq, Hp.
Qed.

End sync.
