(* ===== verification/SfsTrunc.v ===== *)
(** The SFS file system: truncation ([sfs_truncate] of kern/fs/sfs/sfs_vnode.c).

    [shrunk] relates two states of a file system between which one file has lost
    blocks and nothing else has changed; the loops of [sfs_truncate] are steps of
    it.  [block_kept] says which blocks of the file the code keeps. *)

From Stdlib Require Import ZArith Lia.
From stdpp Require Import prelude gmap list.
From S2P Require Import Prelude Heap Array Bitmap SynchObj Vnode Pages Copy Uio Device Lhd SfsDisk SfsFile SfsRep SfsSample SfsBmap SfsIo.
Import Flat SimCard.

#[local] Arguments replicate : simpl never.

(** The file a block belongs to, as data or as its indirect block. *)
Definition owner_of (o : owner) : option Z :=
  match o with OInode => None | OIndirect ino => Some ino | OData ino _ => Some ino end.

Section shrink.
Context {U D H : Type} `{BlockDevLaws U D}.
Implicit Types (s : sfs U D H) (I : gmap Z sfs_inode) (O : gmap Z owner).

(** ** Losing blocks *)

(** Block [k] of the file is kept iff [keep k]; the blocks that are lost are
    free, and no other file has changed. *)
Record shrunk p sv (keep : Z -> bool) s I O s' i' O' : Prop := {
  sh_rep : fs_rep s' (<[sv_ino sv := i']> I) O';
  sh_sv : exists dirty, s_svs s' = <[p := mk_sv (sv_v sv) i' (sv_ino sv) dirty]> (s_svs s);
  sh_type : sfi_type i' = sfi_type (sv_i sv);
  sh_link : sfi_linkcount i' = sfi_linkcount (sv_i sv);
  sh_blocks : forall k, 0 <= k < MAXBLOCKS ->
    fblock (dk s') i' k = if keep k then fblock (dk s) (sv_i sv) k else 0;
  sh_disk : forall b o, O' !! b = Some o -> o <> OIndirect (sv_ino sv) -> dk s' b = dk s b;
  sh_sub : O' ⊆ O;
  sh_freed : forall b o, O !! b = Some o ->
    O' !! b = Some o \/ (owner_of o = Some (sv_ino sv) /\ marked (s_freemap s') b = false);
  sh_lost : forall k, 0 <= k < MAXBLOCKS -> keep k = false -> fblock (dk s) (sv_i sv) k <> 0 ->
    O' !! fblock (dk s) (sv_i sv) k = None;
  sh_indirect : sfi_indirect i' = sfi_indirect (sv_i sv) \/
    (sfi_indirect i' = 0 /\ O' !! sfi_indirect (sv_i sv) = None);
  sh_marks : forall b, 0 <= b < nbits (s_freemap s) -> marked (s_freemap s') b = true -> marked (s_freemap s) b = true;
  sh_kept : kept p s s';
  sh_thread : s_thread s' = s_thread s;
}.

Lemma shrunk_at p sv keep s I O s' i' O' : shrunk p sv keep s I O s' i' O' ->
  exists sv', s_svs s' !! p = Some sv' /\ sv_i sv' = i' /\ sv_ino sv' = sv_ino sv /\ sv_v sv' = sv_v sv.
Proof.
  intros Hs. destruct (sh_sv _ _ _ _ _ _ _ _ _ Hs) as [dt Hsv]. eexists. by rewrite Hsv, lookup_insert_eq.
Qed.

(** Nothing is lost if there was nothing there. *)
Lemma shrunk_none p sv (keep : Z -> bool) s I O : fs_rep s I O -> s_svs s !! p = Some sv ->
  (forall k, 0 <= k < MAXBLOCKS -> keep k = false -> fblock (dk s) (sv_i sv) k = 0) ->
  shrunk p sv keep s I O s (sv_i sv) O.
Proof.
  intros Hr Hp Hk. split; try done.
  - by rewrite insert_id by (by eapply rep_at).
  - exists (sv_dirty sv). by rewrite insert_id by (rewrite Hp; by destruct sv).
  - intros k Hkr. destruct (keep k) eqn:E; [done|]. by apply Hk.
  - intros b o Ho. by left.
  - intros k Hkr E Hz. by rewrite Hk in Hz.
  - by left.
  - apply kept_refl.
Qed.

Lemma shrunk_trans p sv keep1 keep2 s I O s1 i1 O1 sv1 s2 i2 O2 :
  fs_rep s I O -> shrunk p sv keep1 s I O s1 i1 O1 -> s_svs s1 !! p = Some sv1 ->
  shrunk p sv1 keep2 s1 (<[sv_ino sv := i1]> I) O1 s2 i2 O2 ->
  shrunk p sv (fun k => keep1 k && keep2 k) s I O s2 i2 O2.
Proof.
  intros Hr H1' Hp H2'. pose proof (shrunk_at _ _ _ _ _ _ _ _ _ H1') as (sv' & Hp' & Hi & Hino & Hv).
  assert (sv' = sv1) as -> by congruence.
  destruct H1' as [_ [dt1 Hsv1] Ht1 Hl1 Hb1 Hd1 Hs1 Hf1 Hlo1 Hin1 Hm1 Hk1 Hth1],
    H2' as [Hr2 [dt2 Hsv2] Ht2 Hl2 Hb2 Hd2 Hs2 Hf2 Hlo2 Hin2 Hm2 Hk2 Hth2].
  rewrite Hino, Hi, Hv in *. split.
  - by rewrite insert_insert_eq in Hr2.
  - exists dt2. by rewrite Hsv2, Hsv1, insert_insert_eq.
  - congruence.
  - congruence.
  - intros k Hk. rewrite Hb2, Hb1 by done. by destruct (keep1 k), (keep2 k).
  - intros b o Ho Hne. rewrite (Hd2 _ _ Ho Hne). eapply Hd1; [|done]. by eapply lookup_weaken.
  - by etrans.
  - intros b o Ho. destruct (Hf1 _ _ Ho) as [Ho1|[Hw Hfree]].
    + destruct (Hf2 _ _ Ho1) as [?|?]; auto.
    + right. split; [done|]. destruct (marked (s_freemap s2) b) eqn:E; [|done].
      destruct (rep_block _ _ _ _ _ Hr Ho) as (_ & _ & ? & _). apply Hm2 in E; [congruence|].
      by rewrite (proj2 (kp_freemap _ _ _ Hk1)).
  - intros k Hk E Hz. destruct (keep1 k) eqn:E1; simpl in E.
    + assert (fblock (dk s1) i1 k = fblock (dk s) (sv_i sv) k) as Ek by (by rewrite Hb1, E1 by done).
      rewrite <- Ek. apply Hlo2; [done|done|congruence].
    + eapply lookup_weaken_None; [by apply Hlo1|done].
  - destruct Hin1 as [E1|[E1 ?]], Hin2 as [E2|[E2 ?]]; rewrite ?E1 in *; auto.
    + right. split; [done|]. by eapply lookup_weaken_None.
    + right. split; [done|]. by eapply lookup_weaken_None.
  - intros b Hb Hm. apply Hm1; [done|]. apply Hm2; [|done]. by rewrite (proj2 (kp_freemap _ _ _ Hk1)).
  - by eapply kept_trans.
  - congruence.
Qed.

(** Another file is as it was. *)
Lemma shrunk_other p sv keep s I O s' i' O' j i : fs_rep s I O -> shrunk p sv keep s I O s' i' O' ->
  I !! j = Some i -> j <> sv_ino sv -> forall m, 0 <= m < MAXBLOCKS * SFS_BLOCKSIZE ->
  file_byte (dk s') i m = file_byte (dk s) i m.
Proof.
  intros Hr Hs Hi Hne m Hm. pose proof (rep_inode _ _ _ Hr _ _ Hi) as Hg.
  assert (forall b o, O !! b = Some o -> owner_of o = Some j -> dk s' b = dk s b) as Hsame.
  { intros b o Ho Hw. destruct (sh_freed _ _ _ _ _ _ _ _ _ Hs _ _ Ho) as [Ho'|[? _]]; [|congruence].
    apply (sh_disk _ _ _ _ _ _ _ _ _ Hs _ _ Ho'). intros ->. simpl in Hw. congruence. }
  apply file_byte_ext.
  - intros Hz. by eapply Hsame; [apply (ig_indirect _ _ _ _ Hg)|].
  - intros Hz. by eapply Hsame; [apply (ig_data _ _ _ _ Hg _ (block_range _ Hm))|].
Qed.

(** The file itself reads as before in the blocks that are kept. *)
Lemma shrunk_bytes p sv keep s I O s' i' O' : shrunk p sv keep s I O s' i' O' ->
  forall m, 0 <= m < MAXBLOCKS * SFS_BLOCKSIZE ->
  file_byte (dk s') i' m = if keep (m / SFS_BLOCKSIZE) then file_byte (dk s) (sv_i sv) m else 0.
Proof.
  intros Hs m Hm. pose proof (block_range _ Hm) as Hk. unfold file_byte.
  pose proof (sh_blocks _ _ _ _ _ _ _ _ _ Hs _ Hk) as Hb. rewrite Hb.
  destruct (keep (m / SFS_BLOCKSIZE)) eqn:E; [|done].
  destruct (Z.eqb_spec (fblock (dk s) (sv_i sv) (m / SFS_BLOCKSIZE)) 0) as [|Hz]; [done|].
  rewrite (sh_disk _ _ _ _ _ _ _ _ _ Hs _ (OData (sv_ino sv) (m / SFS_BLOCKSIZE))); [done| |done].
  rewrite <- Hb in *. eapply (rep_fblock _ _ _ _ _ _ (sh_rep _ _ _ _ _ _ _ _ _ Hs)); [|done|done].
  apply lookup_insert_eq.
Qed.

(** *** How blocks are lost *)

Section lose.
Variables (s : sfs U D H) (I : gmap Z sfs_inode) (O O' : gmap Z owner) (p : Z) (sv : sfs_vnode)
  (i' : sfs_inode) (fm : bitmap) (d' : D).
Hypotheses (Hr : fs_rep s I O) (Hp : s_svs s !! p = Some sv) (Hsub : O' ⊆ O)
  (Hlost : forall b o, O !! b = Some o -> O' !! b = Some o \/ (owner_of o = Some (sv_ino sv) /\ marked fm b = false))
  (Hbm : bitmap_ok fm) (Hnb : nbits fm = nbits (s_freemap s)) (Hpl : same_place (s_freemap s) fm)
  (Hmk : forall b, 0 <= b < nbits (s_freemap s) -> marked fm b = marked (s_freemap s) b && negb (bool_decide (is_Some (O !! b) /\ O' !! b = None)))
  (Hd : dev_ok d') (Hdn : d_blocks d' = d_blocks (s_dev s)) (Hdz : d_blocksize d' = d_blocksize (s_dev s))
  (Hdk : forall b, 0 <= b < nblocks s -> O !! b <> Some (OIndirect (sv_ino sv)) -> dblock d' b = dk s b)
  (Hg : inode_good (dblock d') O' (sv_ino sv) i').

Definition lose_state : sfs U D H :=
  with_svs (<[p := set_dirty true (set_inode i' sv)]> (s_svs s))
    (with_freemapdirty true (with_freemap fm (with_io (s_thread s, d') s))).

Lemma lose_owned b o : O !! b = Some o -> owner_of o <> Some (sv_ino sv) -> O' !! b = Some o /\ dblock d' b = dk s b.
Proof.
  intros Ho Hw. split; [by destruct (Hlost _ _ Ho) as [|[? _]]|].
  destruct (rep_block _ _ _ _ _ Hr Ho) as (? & _). apply Hdk; [lia|]. rewrite Ho. intros [= ->]. done.
Qed.

Lemma lose_other j i : I !! j = Some i -> j <> sv_ino sv -> inode_good (dblock d') O' j i.
Proof.
  intros Hi Hne. pose proof (rep_inode _ _ _ Hr _ _ Hi) as [? ? Hself Hind Hdat].
  assert (Some j <> Some (sv_ino sv)) as Hne' by congruence.
  split; [done|done|..].
  - by apply lose_owned.
  - intros Hz. by apply (lose_owned _ (OIndirect j)); [apply Hind|].
  - intros k Hk. rewrite (fblock_ext (dk s)).
    + intros Hz. by apply (lose_owned _ (OData j k)); [apply Hdat|].
    + intros Hz. by apply (lose_owned _ (OIndirect j)); [apply Hind|].
Qed.

Lemma lose_meta : meta_rep lose_state.
Proof.
  destruct (rep_meta _ _ _ Hr) as [? Hn Hroom Hs _]. split; try done.
  - simpl. by rewrite Hnb.
  - intros Hz. unfold dk. simpl. rewrite Hdk; [by apply Hs| |].
    + pose proof (rep_nblocks _ _ _ Hr). unfold SFS_SB_LOCATION. lia.
    + intros Ho. apply (rep_owned _ _ _ Hr) in Ho as [Hu _]. by apply reserved_super in Hu.
Qed.

Lemma lose_rep : fs_rep lose_state (<[sv_ino sv := i']> I) O'.
Proof.
  pose proof lose_meta as Hmt. pose proof Hr as [? ? ? Hnbl ? Hnbits _ Hres Hown Hin Hlo Hun Hul].
  assert (forall j i, I !! j = Some i -> dblock d' j = dk s j) as Hino.
  { intros j i Hi. by apply (lose_owned _ OInode); [apply (ig_self _ _ _ _ (Hin _ _ Hi))|]. }
  split; try done; unfold dk, nblocks, lose_state in *; simpl in *.
  - by rewrite Hdn.
  - lia.
  - intros b Hb Hu. rewrite Hmk, Hres by (done || lia). simpl. rewrite bool_decide_false; [done|].
    intros [[o Ho] _]. by destruct (Hown _ _ Ho).
  - intros b o Ho. pose proof (lookup_weaken _ _ _ _ Ho Hsub) as Ho'. destruct (Hown _ _ Ho') as [Hu Hm].
    split; [done|]. destruct (rep_block _ _ _ _ _ Hr Ho') as (_ & _ & ? & _).
    rewrite Hmk, Hm by done. rewrite bool_decide_false; [done|]. intros [_ ?]. congruence.
  - intros j i. destruct (decide (j = sv_ino sv)) as [->|].
    + rewrite lookup_insert_eq. by intros [= <-].
    + rewrite lookup_insert_ne by done. intros Hi. by apply lose_other.
  - intros q sw [[<- <-]|[Hne Hq]]%lookup_insert_Some; [by rewrite lookup_insert_eq|].
    destruct (Hlo _ _ Hq) as [Hi Hcl]. assert (sv_ino sv <> sv_ino sw) as Hnino.
    { intros E. by destruct (Hne (Hun _ _ _ _ Hp Hq E)). }
    rewrite lookup_insert_ne by done.
    split; [done|]. intros Hdt. rewrite (Hino _ _ Hi). by apply Hcl.
  - intros q q' sw sw' [[<- <-]|[Hne Hq]]%lookup_insert_Some [[<- <-]|[Hne' Hq']]%lookup_insert_Some; simpl;
      [done| | |by apply Hun]; intros E; [by apply (Hun _ _ _ _ Hp Hq')|by apply (Hun _ _ _ _ Hq Hp)].
  - intros j i Hi Hno. destruct (decide (j = sv_ino sv)) as [->|].
    { destruct (Hno p (set_dirty true (set_inode i' sv))); [by rewrite lookup_insert_eq|done]. }
    rewrite lookup_insert_ne in Hi by done. rewrite (Hino _ _ Hi). apply (Hul _ _ Hi). intros q sw Hq E.
    destruct (decide (q = p)) as [->|]; [congruence|]. apply (Hno q sw); [by rewrite lookup_insert_ne|done].
Qed.

Lemma lose_shrunk (keep : Z -> bool) :
  (forall k, 0 <= k < MAXBLOCKS -> keep k = false -> fblock (dk s) (sv_i sv) k <> 0 -> O' !! fblock (dk s) (sv_i sv) k = None) ->
  sfi_indirect i' = sfi_indirect (sv_i sv) \/ (sfi_indirect i' = 0 /\ O' !! sfi_indirect (sv_i sv) = None) ->
  sfi_type i' = sfi_type (sv_i sv) -> sfi_linkcount i' = sfi_linkcount (sv_i sv) ->
  (forall k, 0 <= k < MAXBLOCKS -> fblock (dblock d') i' k = if keep k then fblock (dk s) (sv_i sv) k else 0) ->
  shrunk p sv keep s I O lose_state i' O'.
Proof.
  intros Hlo Hin Ht Hl Hb. pose proof lose_rep as Hr'. split; try done.
  - by exists true.
  - intros b o Ho Hne. pose proof (lookup_weaken _ _ _ _ Ho Hsub) as Ho'.
    destruct (rep_block _ _ _ _ _ Hr Ho') as (? & _). unfold dk. simpl. apply Hdk; [lia|congruence].
  - intros b Hb0 Hm. simpl in Hm. rewrite Hmk in Hm by lia. by destruct (marked (s_freemap s) b).
  - split; try done; simpl.
    + intros q Hq. by rewrite lookup_insert_ne.
    + intros sw Hsw. simplify_eq. eexists. by rewrite lookup_insert_eq.
Qed.

End lose.

(** ** The loops *)

Lemma bfree_eq s b : bitmap_ok (s_freemap s) -> 0 <= b < nbits (s_freemap s) -> marked (s_freemap s) b = true ->
  exists fm, sfs_bfree b s = (Ret tt, with_freemapdirty true (with_freemap fm s)) /\ bitmap_ok fm /\
    nbits fm = nbits (s_freemap s) /\ same_place (s_freemap s) fm /\
    forall c, 0 <= c -> marked fm c = if c =? b then false else marked (s_freemap s) c.
Proof.
  intros Hok Hb Hm. destruct (bitmap_mark_unmark_spec _ b Hok Hb) as [_ Hu]. rewrite Hm in Hu.
  destruct Hu as (fm & Hu & ? & ? & ? & ?). exists fm. split; [|done].
  unfold sfs_bfree, bind, on_freemap, zoom. by rewrite Hu.
Qed.

(** What is left of the owners when the blocks [L] are given up. *)
Definition without (L : list Z) (O : gmap Z owner) : gmap Z owner := filter (fun x => x.1 ∉ L) O.

Lemma lookup_without L O b o : without L O !! b = Some o <-> O !! b = Some o /\ b ∉ L.
Proof. unfold without. by rewrite map_lookup_filter_Some. Qed.

Lemma lookup_without_None L O b o : O !! b = Some o -> without L O !! b = None <-> b ∈ L.
Proof.
  intros Ho. rewrite eq_None_not_Some. split.
  - intros Hn. destruct (decide (b ∈ L)); [done|]. destruct Hn. exists o. by apply lookup_without.
  - intros Hb [o' Ho']. by apply lookup_without in Ho' as [_ ?].
Qed.

(** The free map after the blocks [l] have been freed. *)
Definition freed_map s (l : list Z) (fm : bitmap) : Prop :=
  bitmap_ok fm /\ nbits fm = nbits (s_freemap s) /\ same_place (s_freemap s) fm /\
  forall c, 0 <= c -> marked fm c = marked (s_freemap s) c && negb (bool_decide (c ∈ l)).

(** The file gives up the blocks [L]. *)
Lemma lose_list s I O p sv i' L fm (d' : D) (keep : Z -> bool) : fs_rep s I O -> s_svs s !! p = Some sv ->
  (forall b, b ∈ L -> exists o, O !! b = Some o /\ owner_of o = Some (sv_ino sv)) -> freed_map s L fm ->
  dev_ok d' -> d_blocks d' = d_blocks (s_dev s) -> d_blocksize d' = d_blocksize (s_dev s) ->
  (forall b, 0 <= b < nblocks s -> O !! b <> Some (OIndirect (sv_ino sv)) -> dblock d' b = dk s b) ->
  inode_good (dblock d') (without L O) (sv_ino sv) i' ->
  (forall k, 0 <= k < MAXBLOCKS -> keep k = false -> fblock (dk s) (sv_i sv) k <> 0 -> fblock (dk s) (sv_i sv) k ∈ L) ->
  sfi_indirect i' = sfi_indirect (sv_i sv) \/ (sfi_indirect i' = 0 /\ sfi_indirect (sv_i sv) ∈ L) ->
  sfi_type i' = sfi_type (sv_i sv) -> sfi_linkcount i' = sfi_linkcount (sv_i sv) ->
  (forall k, 0 <= k < MAXBLOCKS -> fblock (dblock d') i' k = if keep k then fblock (dk s) (sv_i sv) k else 0) ->
  shrunk p sv keep s I O (lose_state s p sv i' fm d') i' (without L O).
Proof.
  intros Hr Hp HL (Hok & Hnb & Hpl & Hmk) Hd Hdn Hdz Hdk Hg Hlo Hind Ht Hl Hb.
  assert (forall b, b ∈ L -> without L O !! b = None) as Hnone.
  { intros b Hin'. apply map_lookup_filter_None. right. intros o _ Hx. by apply Hx. }
  apply lose_shrunk; try done.
  - apply map_filter_subseteq.
  - intros b o Ho. destruct (decide (b ∈ L)) as [Hin|Hin]; [right|left; by apply lookup_without].
    destruct (HL b Hin) as (o' & Ho' & Hw). simplify_eq. split; [done|].
    destruct (rep_block _ _ _ _ _ Hr Ho) as (? & _). rewrite Hmk by lia.
    rewrite bool_decide_true by done. apply andb_false_r.
  - intros b Hbr. rewrite Hmk by lia. do 2 f_equal. apply bool_decide_ext. split.
    + intros Hin. destruct (HL b Hin) as (o & Ho & _). split; [by exists o|]. by eapply lookup_without_None.
    + intros [[o Ho] Hn]. by eapply lookup_without_None.
  - intros k Hk E Hz. by apply Hnone, Hlo.
  - destruct Hind as [?|[? ?]]; [by left|right; auto].
Qed.

(** The inode keeps some of its blocks. *)
Lemma good_without d d' O ino i i' L : inode_good d O ino i -> inode_shape i' -> sfi_size i' < 2 ^ 31 ->
  (forall b, b ∈ L -> O !! b <> Some OInode) ->
  (sfi_indirect i' <> 0 -> sfi_indirect i' = sfi_indirect i /\ sfi_indirect i ∉ L) ->
  (forall k, 0 <= k < MAXBLOCKS -> fblock d' i' k <> 0 -> fblock d' i' k = fblock d i k /\ fblock d i k ∉ L) ->
  inode_good d' (without L O) ino i'.
Proof.
  intros [_ _ Hself Hind Hdat] Hsh Hsz HL Hi Hk. split; [done|done|..].
  - apply lookup_without. split; [done|]. intros Hin. by apply HL in Hin.
  - intros Hz. destruct (Hi Hz) as [E Hn]. rewrite E in *. apply lookup_without. split; [by apply Hind|done].
  - intros k Hkr Hz. destruct (Hk k Hkr Hz) as [E Hn]. rewrite E in *. apply lookup_without.
    split; [by apply Hdat|done].
Qed.

(** [s'] is [s] with the blocks [l] freed. *)
Definition blocks_freed s (l : list Z) s' : Prop :=
  (l = [] /\ s' = s) \/ (l <> [] /\ exists fm, freed_map s l fm /\ s' = with_freemapdirty true (with_freemap fm s)).

Lemma bfree_freed s l b s1 : bitmap_ok (s_freemap s) -> 0 <= b < nbits (s_freemap s) ->
  marked (s_freemap s) b = true -> b ∉ l -> blocks_freed s l s1 ->
  exists fm, sfs_bfree b s1 = (Ret tt, with_freemapdirty true (with_freemap fm s)) /\ freed_map s (b :: l) fm.
Proof.
  intros Hok Hb Hm Hn [[-> ->]|(_ & fm1 & (Hok1 & Hnb1 & [? ?] & Hmk1) & ->)].
  - destruct (bfree_eq s b Hok Hb Hm) as (fm & Hbf & ? & ? & ? & Hmk). exists fm. split; [done|].
    split_and!; try done. intros c Hc. rewrite Hmk by done. destruct (Z.eqb_spec c b) as [->|].
    + rewrite bool_decide_true by set_solver. by rewrite andb_false_r.
    + rewrite bool_decide_false by set_solver. by rewrite andb_true_r.
  - destruct (bfree_eq (with_freemapdirty true (with_freemap fm1 s)) b) as (fm & Hbf & ? & Hnb & [Hp1 Hp2] & Hmk); simpl in *; [done|lia| |].
    { rewrite Hmk1, Hm by lia. by rewrite bool_decide_false. }
    exists fm. split; [done|]. split; [done|]. split; [congruence|]. split; [split; congruence|].
    intros c Hc. rewrite Hmk, Hmk1 by done. destruct (Z.eqb_spec c b) as [->|].
    + rewrite bool_decide_true by set_solver. by rewrite andb_false_r.
    + do 2 f_equal. apply bool_decide_ext. set_solver.
Qed.

Lemma freed_cons s b l1 l2 s1 s2 : freed_map s (b :: l1) (s_freemap s1) -> 
  s1 = with_freemapdirty true (with_freemap (s_freemap s1) s) -> blocks_freed s1 l2 s2 ->
  blocks_freed s (b :: l1 ++ l2) s2.
Proof.
  intros (Hok & Hnb & [? ?] & Hmk) Es1 [[-> ->]|(_ & fm & (Hok2 & Hnb2 & [? ?] & Hmk2) & ->)]; right; (split; [done|]).
  - exists (s_freemap s1). rewrite app_nil_r. split; [|done]. done.
  - exists fm. split; [|by rewrite Es1]. split; [done|]. split; [congruence|]. split; [split; congruence|].
    intros c Hc. rewrite Hmk2, Hmk by done. rewrite <- andb_assoc, <- negb_orb, <- bool_decide_or.
    do 2 f_equal. apply bool_decide_ext. set_solver.
Qed.

(** What the loop over the direct blocks keeps of the file besides its blocks. *)
Definition direct_only (i i' : sfs_inode) : Prop :=
  sfi_size i' = sfi_size i /\ sfi_indirect i' = sfi_indirect i.

Lemma trunc_direct_runs p sv bl n s I O : fs_rep s I O -> s_svs s !! p = Some sv -> 0 <= n < SFS_NDIRECT ->
  runs (trunc_direct p bl n) s
    (fun _ s' => exists i' O', shrunk p sv (fun k => (k <? bl) || negb (k =? n)) s I O s' i' O' /\ direct_only (sv_i sv) i')
    (fun _ _ => False).
Proof.
  intros Hr Hp Hn. pose proof (rep_good _ _ _ _ _ Hr Hp) as Hg. unfold trunc_direct. apply runs_bind.
  eapply runs_intro_ret; [unfold sv_get; by rewrite Hp|]. change (nth (Z.to_nat n) ?l 0) with (nth0 l n).
  set (b := nth0 (sfi_direct (sv_i sv)) n).
  assert (fblock (dk s) (sv_i sv) n = b) as Hfb by (unfold fblock, SFS_NDIRECT in *; by zbool).
  destruct ((n >=? bl) && negb (b =? 0)) eqn:E.
  2:{ run. exists (sv_i sv), O. split; [|done]. apply shrunk_none; [done|done|].
      intros k Hk Ek%orb_false_elim. destruct Ek as [Ek1 Ek2%negb_false_iff%Z.eqb_eq]. subst k. rewrite Hfb.
      destruct (Z.geb_spec n bl); [|lia]. by destruct (Z.eqb_spec b 0). }
  apply andb_prop in E as [Hbl%Z.geb_le Hz%negb_true_iff%Z.eqb_neq].
  assert (O !! b = Some (OData (sv_ino sv) n)) as Ho.
  { rewrite <- Hfb. apply (ig_data _ _ _ _ Hg); [|by rewrite Hfb]. unfold MAXBLOCKS, SFS_NDIRECT, SFS_DBPERIDB in *. lia. }
  destruct (rep_block _ _ _ _ _ Hr Ho) as (_ & _ & Hbr & Hm).
  destruct (bfree_freed s [] b s (rep_bitmap _ _ _ Hr) Hbr Hm) as (fm & Hbf & Hfm); [set_solver|by left|].
  apply runs_bind. eapply runs_intro_ret; [done|]. set (s1 := with_freemapdirty _ _).
  eapply runs_intro_ret; [by apply (inode_modify_eq p _ s1)|].
  assert (forall k, 0 <= k -> fblock (dk s) (set_direct n 0 (sv_i sv)) k = if k =? n then 0 else fblock (dk s) (sv_i sv) k) as Hfs.
  { intros k Hk. apply fblock_set_direct; [apply Hg|done|done]. }
  exists (set_direct n 0 (sv_i sv)), (without [b] O). split; [|done].
  replace (with_svs _ s1) with (lose_state s p sv (set_direct n 0 (sv_i sv)) fm (s_dev s)) by (by destruct s).
  apply lose_list; try done; [|apply Hr| | | |].
  - intros c ->%list_elem_of_singleton. by exists (OData (sv_ino sv) n).
  - apply (good_without (dk s) _ _ _ (sv_i sv)); try done; [|apply Hg|..].
    + destruct (ig_shape _ _ _ _ Hg) as [? ? ? [Hl Hw] ? ?]. split; try done. simpl. rewrite length_insert.
      split; [done|]. by apply Forall_insert.
    + intros c ->%list_elem_of_singleton. congruence.
    + simpl. intros Hi. split; [done|]. intros Hc%list_elem_of_singleton.
      pose proof (ig_indirect _ _ _ _ Hg Hi). congruence.
    + intros k Hk. change (dblock (s_dev s)) with (dk s). rewrite Hfs by lia. destruct (Z.eqb_spec k n) as [|Hne]; [done|].
      intros Hkz. split; [done|]. intros Hc%list_elem_of_singleton. pose proof (ig_data _ _ _ _ Hg _ Hk Hkz). congruence.
  - intros k Hk [_ Ek%negb_false_iff%Z.eqb_eq]%orb_false_elim _. subst k. rewrite Hfb. set_solver.
  - by left.
  - intros k Hk. change (dblock (s_dev s)) with (dk s). rewrite Hfs by lia.
    destruct (Z.eqb_spec k n) as [->|]; [|by rewrite orb_true_r]. by zbool.
Qed.

Lemma shrunk_ext p sv keep keep' s I O s' i' O' : shrunk p sv keep s I O s' i' O' ->
  (forall k, 0 <= k < MAXBLOCKS -> keep' k = keep k) -> shrunk p sv keep' s I O s' i' O'.
Proof.
  intros [? ? ? ? Hb ? ? ? Hlo ? ? ? ?] He. split; try done; intros k Hk.
  - by rewrite Hb, He.
  - rewrite He by done. by apply Hlo.
Qed.

Lemma direct_loop_runs p sv bl s I O : fs_rep s I O -> s_svs s !! p = Some sv ->
  runs (for_each (seqZ 0 SFS_NDIRECT) (trunc_direct p bl)) s
    (fun _ s' => exists i' O', shrunk p sv (fun k => (k <? bl) || (SFS_NDIRECT <=? k)) s I O s' i' O' /\
       direct_only (sv_i sv) i')
    (fun _ _ => False).
Proof.
  intros Hr Hp.
  eapply (runs_for_each (fun pre post s' => exists i' O',
    shrunk p sv (fun k => (k <? bl) || (Z.of_nat (length pre) <=? k)) s I O s' i' O' /\ direct_only (sv_i sv) i')).
  - exists (sv_i sv), O. split; [|done]. apply shrunk_none; [done|done|]. intros k Hk. cbn [length].
    rewrite (proj2 (Z.leb_le (Z.of_nat 0) k)) by lia. by rewrite orb_true_r.
  - intros pre x post s1 Hl (i1 & O1 & Hs1 & Hd1).
    assert (x = Z.of_nat (length pre) /\ 0 <= x < SFS_NDIRECT) as [-> Hx].
    { assert (seqZ 0 SFS_NDIRECT !! length pre = Some x) as Hx by (rewrite Hl, lookup_app_r, Nat.sub_diag by lia; done).
      apply lookup_seqZ in Hx. lia. }
    destruct (shrunk_at _ _ _ _ _ _ _ _ _ Hs1) as (sv1 & Hp1 & Hi1 & Hino1 & Hv1).
    eapply runs_mono; [by eapply trunc_direct_runs; [apply Hs1|exact Hp1|]| |done].
    intros [] s2 (i2 & O2 & Hs2 & Hd2). exists i2, O2. split.
    + eapply shrunk_ext; [by eapply shrunk_trans|]. intros k Hk. simpl. rewrite length_app. simpl.
      destruct (Z.ltb_spec k bl); [done|]. simpl.
      destruct (Z.leb_spec (Z.of_nat (length pre)) k), (Z.eqb_spec k (Z.of_nat (length pre))),
        (Z.leb_spec (Z.of_nat (length pre + 1)) k); simpl; lia || done.
    + unfold direct_only in *. rewrite Hi1 in Hd2. destruct Hd1, Hd2. split; congruence.
  - intros s' (i' & O' & Hs & Hd). exists i', O'. split; [|done]. by rewrite length_seqZ in Hs.
Qed.

(** *** The entries of the indirect block *)

(** The entries that are given up, and what is left of the table, from entry [j]. *)
Fixpoint dropped (bl j : Z) (ws : list Z) : list Z :=
  match ws with
  | [] => []
  | b :: ws => (if (bl <? SFS_NDIRECT + j) && negb (b =? 0) then [b] else []) ++ dropped bl (j + 1) ws
  end.
Fixpoint trimmed (bl j : Z) (ws : list Z) : list Z :=
  match ws with
  | [] => []
  | b :: ws => (if (bl <? SFS_NDIRECT + j) && negb (b =? 0) then 0 else b) :: trimmed bl (j + 1) ws
  end.

Definition nonzero (ws : list Z) : bool := existsb (fun b => negb (b =? 0)) ws.

Lemma trimmed_length bl j ws : length (trimmed bl j ws) = length ws.
Proof. revert j. induction ws as [|b ws IH]; intros j; simpl; [done|]. by rewrite IH. Qed.

Lemma trimmed_nth bl j ws n : 0 <= n -> nth0 (trimmed bl j ws) n = if bl <? SFS_NDIRECT + j + n then 0 else nth0 ws n.
Proof.
  revert j n. induction ws as [|b ws IH]; intros j n Hn; simpl.
  - unfold nth0. by destruct (Z.to_nat n), (bl <? _).
  - destruct (decide (n = 0)) as [->|].
    + rewrite Z.add_0_r. unfold nth0. simpl. destruct (bl <? SFS_NDIRECT + j); [|done]. simpl.
      by destruct (Z.eqb_spec b 0).
    + unfold nth0 in *. replace (Z.to_nat n) with (S (Z.to_nat (n - 1))) by lia. simpl. rewrite IH by lia.
      by replace (SFS_NDIRECT + (j + 1) + (n - 1)) with (SFS_NDIRECT + j + n) by lia.
Qed.

Lemma trimmed_words bl j ws : Forall word32 ws -> Forall word32 (trimmed bl j ws).
Proof.
  intros Hw. revert j. induction Hw as [|b ws Hb _ IH]; intros j; simpl; constructor; [|done].
  by destruct ((bl <? SFS_NDIRECT + j) && negb (b =? 0)).
Qed.

Lemma trimmed_gone bl ws : bl < SFS_NDIRECT -> nonzero (trimmed bl 0 ws) = false.
Proof.
  intros Hbl. apply not_true_iff_false. intros (w & Hw & Hz)%existsb_exists.
  apply list_elem_of_In, list_elem_of_lookup in Hw as [n Hn].
  pose proof (trimmed_nth bl 0 ws (Z.of_nat n) ltac:(lia)) as E. unfold nth0 in E.
  rewrite Nat2Z.id, nth_lookup, Hn, (proj2 (Z.ltb_lt _ _)) in E by (unfold SFS_NDIRECT in *; lia). simpl in E. by subst.
Qed.

Lemma elem_dropped bl j ws b : b ∈ dropped bl j ws <->
  b <> 0 /\ exists n, 0 <= n < Z.of_nat (length ws) /\ nth0 ws n = b /\ bl < SFS_NDIRECT + j + n.
Proof.
  revert j. induction ws as [|c ws IH]; intros j; simpl.
  - split; [by intros ?%not_elem_of_nil|]. intros (_ & n & ? & _). lia.
  - rewrite elem_of_app, IH. split.
    + intros [Hb|(Hz & n & Hn & He & Hl)].
      * destruct (Z.ltb_spec bl (SFS_NDIRECT + j)), (Z.eqb_spec c 0); simpl in Hb; try by apply not_elem_of_nil in Hb.
        apply list_elem_of_singleton in Hb as ->. split; [done|]. exists 0. split_and!; [lia|lia|done|lia].
      * split; [done|]. exists (n + 1). split; [lia|]. split; [|lia].
        unfold nth0 in *. by replace (Z.to_nat (n + 1)) with (S (Z.to_nat n)) by lia.
    + intros (Hz & n & Hn & He & Hl). destruct (decide (n = 0)) as [->|].
      * left. unfold nth0 in He. simpl in He. subst c. zbool. by apply list_elem_of_singleton.
      * right. split; [done|]. exists (n - 1). split; [lia|]. split; [|lia].
        unfold nth0 in *. by replace (Z.to_nat n) with (S (Z.to_nat (n - 1))) in He by lia.
Qed.

Lemma trunc_entries_runs bl j ws s : bitmap_ok (s_freemap s) -> NoDup (dropped bl j ws) ->
  (forall b, b ∈ dropped bl j ws -> 0 <= b < nbits (s_freemap s) /\ marked (s_freemap s) b = true) ->
  runs (trunc_entries bl j ws) s
    (fun r s' => r = (trimmed bl j ws, nonzero (trimmed bl j ws), negb (bool_decide (dropped bl j ws = []))) /\
       blocks_freed s (dropped bl j ws) s')
    (fun _ _ => False).
Proof.
  revert j s. induction ws as [|b ws IH]; intros j s Hok Hnd Hin; simpl in *.
  - run. split; [done|by left].
  - destruct ((bl <? SFS_NDIRECT + j) && negb (b =? 0)) eqn:E; simpl in *.
    + apply NoDup_cons in Hnd as [Hnb Hnd]. destruct (Hin b) as [Hb Hm]; [set_solver|].
      destruct (bfree_freed s [] b s Hok Hb Hm) as (fm & Hbf & Hfm); [set_solver|by left|].
      pose proof Hfm as (Hok1 & Hnb1 & _ & Hmk1).
      run. eapply runs_intro_ret; [done|]. run. set (s1 := with_freemapdirty _ _).
      eapply runs_mono; [apply (IH (j + 1) s1)| |done]; [done|done| |].
      { intros c Hc. destruct (Hin c) as [? Hmc]; [set_solver|]. simpl. split; [lia|].
        rewrite Hmk1, Hmc by lia. rewrite bool_decide_false; [done|]. intros ->%list_elem_of_singleton. done. }
      intros r s2 (-> & Hf2). run. split; [by rewrite Z.eqb_refl|].
      by eapply (freed_cons s b [] _ s1).
    + run. eapply runs_mono; [apply (IH (j + 1) s)| |done]; [done|done|done|].
      intros r s2 (-> & Hf). by run.
Qed.

Lemma NoDup_dropped bl j ws :
  (forall n m, 0 <= n < Z.of_nat (length ws) -> 0 <= m < Z.of_nat (length ws) -> nth0 ws n <> 0 ->
     nth0 ws n = nth0 ws m -> n = m) -> NoDup (dropped bl j ws).
Proof.
  revert j. induction ws as [|b ws IH]; intros j Hinj; simpl; [constructor|].
  assert (forall n, 0 <= n -> nth0 (b :: ws) (n + 1) = nth0 ws n) as Hs.
  { intros n Hn. unfold nth0. by replace (Z.to_nat (n + 1)) with (S (Z.to_nat n)) by lia. }
  apply NoDup_app. split_and!.
  - destruct (_ && _); [apply NoDup_singleton|constructor].
  - intros c Hc Hc'. apply elem_dropped in Hc' as (Hz & n & Hn & He & _).
    destruct (_ && _); [|by apply not_elem_of_nil in Hc]. apply list_elem_of_singleton in Hc as ->.
    specialize (Hinj 0 (n + 1)). simpl length in Hinj. rewrite Hs, He in Hinj by lia.
    change (nth0 (b :: ws) 0) with b in Hinj. assert (0 = n + 1); [apply Hinj; lia || done|lia].
  - apply IH. intros n m Hn Hm Hz He. specialize (Hinj (n + 1) (m + 1)). simpl length in Hinj.
    rewrite !Hs in Hinj by lia. assert (n + 1 = m + 1); [apply Hinj; lia || done|lia].
Qed.

(** *** The indirect block *)

(** Which blocks the second half of [sfs_truncate] keeps. *)
Definition tail_kept (bl k : Z) : bool :=
  (k <? SFS_NDIRECT) || (k <=? bl) || (SFS_NDIRECT + SFS_DBPERIDB - 1 <=? bl).

Section indirect.
Variables (s : sfs U D H) (I : gmap Z sfs_inode) (O : gmap Z owner) (p : Z) (sv : sfs_vnode) (bl len : Z).
Let ino := sv_ino sv.
Let ib := sfi_indirect (sv_i sv).
Let ws := words_of (dk s ib).
Hypotheses (Hr : fs_rep s I O) (Hp : s_svs s !! p = Some sv) (Hlen : 0 <= len < 2 ^ 31).

Lemma tail_good : inode_good (dk s) O ino (sv_i sv).
Proof. by eapply rep_good. Qed.

(** Only the size changes. *)
Lemma tail_size d1 : (forall k, 0 <= k < MAXBLOCKS -> tail_kept bl k = false -> fblock (dk s) (sv_i sv) k = 0) ->
  dev_now (dk s) (s_dev s) d1 ->
  shrunk p sv (tail_kept bl) s I O
    (with_svs (<[p := set_dirty true (set_inode (set_size len (sv_i sv)) sv)]> (s_svs s)) (with_io (s_thread s, d1) s))
    (set_size len (sv_i sv)) O.
Proof.
  intros Hk Hd1. destruct (rep_thread s I O (s_thread s) d1 Hr) as (Hr1 & _ & _); [apply Hr|apply Hr|done|].
  pose proof Hd1 as (_ & Hdn & Hdz & Hdc). pose proof tail_good as Hg.
  assert (forall b o, O !! b = Some o -> dblock d1 b = dk s b) as Hdk.
  { intros b o Ho. apply Hdc. by destruct (rep_block _ _ _ _ _ Hr Ho) as (_ & [? _] & _). }
  split; try done.
  - apply (rep_set_inode (with_io (s_thread s, d1) s) I O); [done|done|done|apply Hr1|].
    destruct (rep_good (with_io (s_thread s, d1) s) I O p sv Hr1 Hp) as [Hsh ? ? ? ?]. split; try done; [|simpl; lia].
    destruct Hsh. split; try done. unfold word32. simpl. lia.
  - by exists true.
  - intros k Hkr. change (fblock (dk (with_svs _ _)) (set_size len (sv_i sv)) k) with (fblock (dblock d1) (sv_i sv) k).
    rewrite (fblock_ext (dk s)); [|by intros Hz; eapply Hdk, (ig_indirect _ _ _ _ Hg)].
    destruct (tail_kept bl k) eqn:E; [done|]. by apply Hk.
  - intros b o Ho _. by eapply Hdk.
  - intros b o Ho. by left.
  - intros k Hkr E Hnz. by rewrite Hk in Hnz.
  - by left.
  - split; try done; simpl.
    + intros q Hq. by rewrite lookup_insert_ne.
    + intros sw Hsw. simplify_eq. eexists. by rewrite lookup_insert_eq.
Qed.

Hypothesis Hz : ib <> 0.
Hypothesis Hbl : bl < SFS_NDIRECT + SFS_DBPERIDB - 1.

Lemma tail_kept_low k : tail_kept bl k = (k <? SFS_NDIRECT) || (k <=? bl).
Proof.
  unfold tail_kept. rewrite (proj2 (Z.leb_gt (SFS_NDIRECT + SFS_DBPERIDB - 1) bl)) by done. apply orb_false_r.
Qed.

Lemma tail_fblock k : SFS_NDIRECT <= k -> fblock (dk s) (sv_i sv) k = nth0 ws (k - SFS_NDIRECT).
Proof.
  intros Hk. unfold fblock. rewrite (proj2 (Z.ltb_ge _ _)) by done. fold ib. by zbool.
Qed.

Lemma tail_words : length ws = 128%nat /\ Forall word32 ws.
Proof. eapply rep_words; [done|by eapply rep_at|done]. Qed.

Lemma tail_entry n : 0 <= n < 128 -> nth0 ws n <> 0 -> O !! nth0 ws n = Some (OData ino (SFS_NDIRECT + n)).
Proof.
  intros Hn Hnz. assert (nth0 ws n = fblock (dk s) (sv_i sv) (SFS_NDIRECT + n)) as E.
  { rewrite tail_fblock by lia. f_equal. lia. }
  rewrite E in *. apply (ig_data _ _ _ _ tail_good); [|done]. unfold MAXBLOCKS, SFS_NDIRECT, SFS_DBPERIDB. lia.
Qed.

Lemma tail_dropped b : b ∈ dropped bl 0 ws ->
  exists n, 0 <= n < 128 /\ nth0 ws n = b /\ bl < SFS_NDIRECT + n /\ O !! b = Some (OData ino (SFS_NDIRECT + n)).
Proof.
  intros (Hnz & n & Hn & He & Hb)%elem_dropped. rewrite (proj1 tail_words) in Hn. exists n.
  split; [lia|]. split; [done|]. split; [lia|]. subst b. by apply tail_entry.
Qed.

Lemma tail_entries_runs d1 : dev_now (dk s) (s_dev s) d1 ->
  runs (trunc_entries bl 0 ws) (with_io (s_thread s, d1) s)
    (fun r s' => r = (trimmed bl 0 ws, nonzero (trimmed bl 0 ws), negb (bool_decide (dropped bl 0 ws = []))) /\
       blocks_freed (with_io (s_thread s, d1) s) (dropped bl 0 ws) s')
    (fun _ _ => False).
Proof.
  intros Hd1. apply trunc_entries_runs; [apply Hr|..].
  - apply NoDup_dropped. rewrite (proj1 tail_words). intros n m Hn Hm Hnz He.
    pose proof (tail_entry n ltac:(lia) Hnz) as Ho. rewrite He in Ho, Hnz. rewrite tail_entry in Ho by (done || lia).
    injection Ho. lia.
  - intros b Hb. destruct (tail_dropped b Hb) as (n & _ & _ & _ & Ho).
    by destruct (rep_block _ _ _ _ _ Hr Ho) as (_ & _ & ? & ?).
Qed.

(** A block of the file that is kept is not one of those given up. *)
Lemma tail_not_dropped k : 0 <= k < MAXBLOCKS -> k <= bl \/ k < SFS_NDIRECT -> fblock (dk s) (sv_i sv) k <> 0 ->
  fblock (dk s) (sv_i sv) k ∉ dropped bl 0 ws.
Proof.
  intros Hk Hc Hnz Hin. destruct (tail_dropped _ Hin) as (n & Hn & _ & Hb & Ho).
  pose proof (ig_data _ _ _ _ tail_good k Hk Hnz) as Ho'. rewrite Ho in Ho'. injection Ho'. unfold SFS_NDIRECT in *. lia.
Qed.

Lemma tail_lost k : 0 <= k < MAXBLOCKS -> tail_kept bl k = false -> fblock (dk s) (sv_i sv) k <> 0 ->
  fblock (dk s) (sv_i sv) k ∈ dropped bl 0 ws.
Proof.
  intros Hk E Hkz. rewrite tail_kept_low in E. apply orb_false_elim in E as [E1%Z.ltb_ge E2%Z.leb_gt].
  rewrite tail_fblock in * by done. apply elem_dropped. split; [done|]. exists (k - SFS_NDIRECT).
  rewrite (proj1 tail_words). unfold MAXBLOCKS, SFS_DBPERIDB, SFS_NDIRECT in *. split_and!; try done; lia.
Qed.

Lemma size_shape i : inode_shape i -> inode_shape (set_size len i).
Proof. intros []. split; try done. unfold word32. simpl. lia. Qed.

(** All entries are gone: the indirect block is given up as well. *)
Lemma tail_all_gone d1 fm : dev_now (dk s) (s_dev s) d1 -> nonzero (trimmed bl 0 ws) = false ->
  freed_map s (ib :: dropped bl 0 ws) fm ->
  let i' := set_size len (set_indirect 0 (sv_i sv)) in
  shrunk p sv (tail_kept bl) s I O (lose_state s p sv i' fm d1) i' (without (ib :: dropped bl 0 ws) O).
Proof.
  intros (Hd1 & Hdn & Hdz & Hdc) Hnz Hfm i'. pose proof tail_good as Hg.
  pose proof (rep_nblocks _ _ _ Hr) as [Hnb _].
  assert (forall k, 0 <= k < 128 -> nth0 (trimmed bl 0 ws) k = 0) as Htz.
  { intros k Hk. unfold nth0. rewrite nth_lookup. destruct (trimmed bl 0 ws !! Z.to_nat k) as [w|] eqn:E; [|done]. simpl.
    destruct (decide (w = 0)); [done|]. exfalso. apply not_true_iff_false in Hnz. apply Hnz, existsb_exists. exists w.
    split; [apply list_elem_of_In; by eapply list_elem_of_lookup_2|]. by zbool. }
  assert (forall k, 0 <= k < MAXBLOCKS -> fblock (dblock d1) i' k = if k <? SFS_NDIRECT then fblock (dk s) (sv_i sv) k else 0) as Hfb.
  { intros k Hk. unfold fblock, i'. simpl. by destruct (k <? SFS_NDIRECT). }
  pose proof (ig_indirect _ _ _ _ Hg Hz) as Hoi. fold ib in Hoi.
  apply lose_list; try done.
  - intros b [->|Hb]%elem_of_cons; [by exists (OIndirect ino)|].
    destruct (tail_dropped b Hb) as (n & _ & _ & _ & Ho). by exists (OData ino (SFS_NDIRECT + n)).
  - intros b Hb _. apply Hdc. lia.
  - apply (good_without (dk s) _ _ _ (sv_i sv)); try done.
    + apply size_shape. destruct (ig_shape _ _ _ _ Hg). by split.
    + simpl. lia.
    + intros b [->|Hb]%elem_of_cons Hc; [congruence|]. destruct (tail_dropped b Hb) as (n & _ & _ & _ & Ho). congruence.
    + intros k Hk. rewrite Hfb by done. destruct (Z.ltb_spec k SFS_NDIRECT); [|done]. intros Hkz. split; [done|].
      apply not_elem_of_cons. split; [|by apply tail_not_dropped; auto].
      intros E. pose proof (ig_data _ _ _ _ Hg k Hk Hkz) as Ho. congruence.
  - intros k Hk E Hkz. apply elem_of_cons. right. by apply tail_lost.
  - right. split; [done|]. set_solver.
  - intros k Hk. rewrite Hfb by done. rewrite tail_kept_low. destruct (Z.ltb_spec k SFS_NDIRECT); [done|]. simpl.
    destruct (Z.leb_spec k bl); [|done].
    rewrite tail_fblock by done. unfold MAXBLOCKS, SFS_NDIRECT, SFS_DBPERIDB in *.
    pose proof (Htz (k - 15) ltac:(lia)) as Ht. rewrite trimmed_nth in Ht by lia. unfold SFS_NDIRECT in Ht.
    rewrite (proj2 (Z.ltb_ge _ _)) in Ht by lia. by rewrite Ht.
Qed.

(** Some entries are left: the table is written back. *)
Lemma tail_written d2 fm : freed_map s (dropped bl 0 ws) fm ->
  dev_now (fun c => if c =? ib then bytes_of (trimmed bl 0 ws) else dk s c) (s_dev s) d2 ->
  let i' := set_size len (sv_i sv) in
  shrunk p sv (tail_kept bl) s I O (lose_state s p sv i' fm d2) i' (without (dropped bl 0 ws) O).
Proof.
  intros Hfm (Hd2 & Hdn & Hdz & Hdc) i'. pose proof tail_good as Hg. pose proof (rep_nblocks _ _ _ Hr) as [Hnb _].
  pose proof (ig_indirect _ _ _ _ Hg Hz) as Hoi. fold ib in Hoi.
  destruct (rep_block _ _ _ _ _ Hr Hoi) as (_ & [Hibr _] & _).
  assert (forall k, 0 <= k < MAXBLOCKS -> fblock (dblock d2) i' k = if tail_kept bl k then fblock (dk s) (sv_i sv) k else 0) as Hfb.
  { intros k Hk. rewrite tail_kept_low.
    destruct (Z.ltb_spec k SFS_NDIRECT) as [Hlt|Hge]; simpl.
    - unfold fblock, i'. simpl. by rewrite (proj2 (Z.ltb_lt _ _)).
    - rewrite tail_fblock by done. unfold fblock, i'. simpl. fold ib. rewrite (proj2 (Z.ltb_ge _ _)) by done.
      rewrite (proj2 (Z.eqb_neq _ _) Hz), Hdc, Z.eqb_refl, words_of_bytes_of, trimmed_nth by (done || lia).
      destruct (Z.ltb_spec bl (SFS_NDIRECT + 0 + (k - SFS_NDIRECT))), (Z.leb_spec k bl); try done; lia. }
  apply lose_list; try done.
  - intros b Hb. destruct (tail_dropped b Hb) as (n & _ & _ & _ & Ho). by exists (OData ino (SFS_NDIRECT + n)).
  - intros b Hb Hne. rewrite Hdc by lia. destruct (Z.eqb_spec b ib) as [->|]; [by destruct Hne|done].
  - apply (good_without (dk s) _ _ _ (sv_i sv)); try done.
    + apply size_shape, Hg.
    + simpl. lia.
    + intros b Hb Hc. destruct (tail_dropped b Hb) as (n & _ & _ & _ & Ho). congruence.
    + intros _. split; [done|]. intros Hb. destruct (tail_dropped _ Hb) as (n & _ & _ & _ & Ho). fold ib in Ho. congruence.
    + intros k Hk. rewrite Hfb by done. destruct (tail_kept bl k) eqn:E; [|done]. intros Hkz. split; [done|].
      apply tail_not_dropped; [done| |done]. rewrite tail_kept_low in E.
      apply orb_prop in E as [E|E]; lia.
  - intros k Hk E Hkz. by apply tail_lost.
  - by left.
Qed.

End indirect.

Lemma tail_table_runs p sv bl len s I O : fs_rep s I O -> s_svs s !! p = Some sv -> 0 <= len < 2 ^ 31 ->
  sfi_indirect (sv_i sv) <> 0 -> bl < SFS_NDIRECT + SFS_DBPERIDB - 1 ->
  runs (trunc_table p bl (sfi_indirect (sv_i sv)) ;;; inode_modify p (set_size len)) s
    (fun _ s' => exists i' O', shrunk p sv (tail_kept bl) s I O s' i' O' /\ sfi_size i' = len /\
       (bl < SFS_NDIRECT -> sfi_indirect i' = 0))
    (fun _ _ => False).
Proof.
  intros Hr Hp Hlen Hz Hbl. pose proof (rep_good _ _ _ _ _ Hr Hp) as Hg. set (ib := sfi_indirect (sv_i sv)) in *.
  pose proof (ig_indirect _ _ _ _ Hg Hz) as Hoi. fold ib in Hoi.
  destruct (rep_block _ _ _ _ _ Hr Hoi) as (_ & Hiba & Hibr & Hibm).
  destruct (tail_words s I O p sv Hr Hp Hz) as [Hwl Hww]. fold ib in Hwl, Hww.
  apply runs_bind. unfold trunc_table. apply runs_bind, runs_zoom.
  eapply runs_mono; [apply sfs_rblock_runs; [apply Hr|apply Hr|apply Hr|done]| |done].
  intros x [t' d1] (-> & -> & Hd1). apply runs_bind.
  eapply runs_mono; [eapply (tail_entries_runs s I O p sv bl); done| |done].
  fold ib. change (dblock (s_dev s) ib) with (dk s ib). set (ws := words_of (dk s ib)) in *.
  intros r s2 (-> & Hfr). destruct (nonzero (trimmed bl 0 ws)) eqn:Enz; simpl.
  - assert (bl < SFS_NDIRECT -> False) as Hbig by (intros Hlow; by rewrite trimmed_gone in Enz).
    destruct Hfr as [[Hdn ->]|(Hne & fm & Hfm & ->)].
    + rewrite bool_decide_true by done. simpl. run. eapply runs_intro_ret; [by apply (inode_modify_eq p _ _ sv)|].
      exists (set_size len (sv_i sv)), O. split; [|split; [done|by intros ?%Hbig]]. apply (tail_size s I O p sv bl len Hr Hp Hlen d1); [|done].
      intros k Hk E. destruct (decide (fblock (dk s) (sv_i sv) k = 0)) as [|Hkz]; [done|].
      pose proof (tail_lost s I O p sv bl Hr Hp Hz Hbl k Hk E Hkz) as Hin. fold ib ws in Hin.
      rewrite Hdn in Hin. by apply not_elem_of_nil in Hin.
    + rewrite bool_decide_false by done. simpl. apply runs_zoom. simpl. destruct Hd1 as (Hok1 & Hn1 & Hz1 & Hc1).
      eapply runs_mono; [apply sfs_wblock_runs; [apply Hr|apply Hr|done| | |]| |done].
      * unfold addressable in *. by rewrite Hn1.
      * by rewrite length_bytes_of, trimmed_length, Hwl.
      * by apply bytes_of_range, trimmed_words.
      * intros [] [t' d2] [-> Hd2]. eapply runs_intro_ret; [by apply (inode_modify_eq p _ _ sv)|].
        exists (set_size len (sv_i sv)), (without (dropped bl 0 ws) O). split; [|split; [done|by intros ?%Hbig]].
        apply (tail_written s I O p sv bl len Hr Hp Hlen Hz Hbl d2 fm Hfm).
        destruct Hd2 as (? & Hn2 & Hz2 & Hc2). split_and!; try congruence. intros c Hc.
        rewrite Hc2 by congruence. fold ib. destruct (Z.eqb_spec c ib); [done|]. by apply Hc1.
  - assert (ib ∉ dropped bl 0 ws) as Hni.
    { intros Hin. destruct (tail_dropped s I O p sv bl Hr Hp Hz _ Hin) as (n & _ & _ & _ & Ho). congruence. }
    destruct (bfree_freed (with_io (s_thread s, d1) s) (dropped bl 0 ws) ib s2) as (fm & Hbf & Hfm); try done; [apply Hr|].
    apply runs_bind. eapply runs_intro_ret; [done|]. eapply runs_intro_ret; [by apply (inode_modify_eq p _ _ sv)|].
    eapply runs_intro_ret; [apply (inode_modify_eq p); simpl; apply lookup_insert_eq|].
    exists (set_size len (set_indirect 0 (sv_i sv))), (without (ib :: dropped bl 0 ws) O). split; [|done].
    match goal with |- shrunk _ _ _ _ _ _ ?x _ _ =>
      replace x with (lose_state s p sv (set_size len (set_indirect 0 (sv_i sv))) fm d1) end.
    { by apply tail_all_gone. }
    unfold lose_state, with_svs. simpl. by rewrite insert_insert_eq.
Qed.

Lemma tail_runs p sv bl len s I O : fs_rep s I O -> s_svs s !! p = Some sv -> 0 <= len < 2 ^ 31 ->
  runs (trunc_indirect p bl ;;; inode_modify p (set_size len)) s
    (fun _ s' => exists i' O', shrunk p sv (tail_kept bl) s I O s' i' O' /\ sfi_size i' = len /\
       (bl < SFS_NDIRECT -> sfi_indirect i' = 0))
    (fun _ _ => False).
Proof.
  intros Hr Hp Hlen. pose proof (rep_good _ _ _ _ _ Hr Hp) as Hg. set (ib := sfi_indirect (sv_i sv)).
  apply (runs_bind_eq _ (if (bl <? SFS_NDIRECT + SFS_DBPERIDB - 1) && negb (ib =? 0) then trunc_table p bl ib else ret tt)).
  { unfold trunc_indirect, bind, sv_get. by rewrite Hp. }
  destruct (Z.ltb_spec bl (SFS_NDIRECT + SFS_DBPERIDB - 1)) as [Hbl|Hbl]; simpl.
  2:{ run. eapply runs_intro_ret; [by apply inode_modify_eq|]. exists (set_size len (sv_i sv)), O.
      split; [|split; [done|unfold SFS_NDIRECT, SFS_DBPERIDB in *; lia]].
      pose proof (tail_size s I O p sv bl len Hr Hp Hlen (s_dev s)) as Ht. destruct s. apply Ht; [|by eapply dev_now_refl].
      intros k Hk. unfold tail_kept. rewrite (proj2 (Z.leb_le (SFS_NDIRECT + SFS_DBPERIDB - 1) bl)) by done.
      by rewrite orb_true_r. }
  destruct (Z.eqb_spec ib 0) as [Ez|Hz]; simpl.
  { run. eapply runs_intro_ret; [by apply inode_modify_eq|]. exists (set_size len (sv_i sv)), O. split; [|done].
    pose proof (tail_size s I O p sv bl len Hr Hp Hlen (s_dev s)) as Ht. destruct s. apply Ht; [|by eapply dev_now_refl].
    intros k Hk E. rewrite tail_kept_low in E by done. apply orb_false_elim in E as [E _].
    unfold fblock. rewrite E. fold ib. by rewrite Ez. }
  by apply tail_table_runs.
Qed.

(** ** [sfs_truncate] *)

(** The blocks [sfs_truncate] keeps when the file is cut to [bl] blocks: those
    before the new end and, in the indirect block, the first one after it; all of
    the indirect block when only its last entry would have to go. *)
Definition block_kept (bl k : Z) : bool := ((k <? bl) || (SFS_NDIRECT <=? k)) && tail_kept bl k.

Lemma block_kept_spec bl k : block_kept bl k = true <->
  k < bl \/ (SFS_NDIRECT <= k /\ (k = bl \/ SFS_NDIRECT + SFS_DBPERIDB - 1 <= bl)).
Proof.
  unfold block_kept, tail_kept, SFS_NDIRECT, SFS_DBPERIDB.
  destruct (Z.ltb_spec k bl), (Z.leb_spec 15 k), (Z.ltb_spec k 15), (Z.leb_spec k bl), (Z.leb_spec (15 + 128 - 1) bl);
    simpl; split; intros; try done; lia.
Qed.

Definition blocks_for (len : Z) : Z := (len + SFS_BLOCKSIZE - 1) / SFS_BLOCKSIZE.

Lemma truncate_spec p sv len s I O : fs_rep s I O -> s_svs s !! p = Some sv -> 0 <= len <= 2 ^ 31 - 512 ->
  runs (sfs_truncate p len) s
    (fun _ s' => exists i' O', shrunk p sv (block_kept (blocks_for len)) s I O s' i' O' /\ sfi_size i' = len /\
       (blocks_for len < SFS_NDIRECT -> sfi_indirect i' = 0))
    (fun _ _ => False).
Proof.
  intros Hr Hp Hlen. unfold sfs_truncate, SFS_BLOCKSIZE. rewrite i32_small by lia.
  rewrite Z.quot_div_nonneg by lia. assert (0 <= (len + 512 - 1) / 512 < 2 ^ 31).
  { split; [apply Z.div_pos; lia|]. apply Z.div_lt_upper_bound; lia. }
  rewrite (u32_small ((len + 512 - 1) / 512)), (u32_small len) by lia.
  change ((len + 512 - 1) / 512) with (blocks_for len).
  apply runs_bind. eapply runs_mono; [by eapply direct_loop_runs| |done].
  intros [] s1 (i1 & O1 & Hs1 & _). destruct (shrunk_at _ _ _ _ _ _ _ _ _ Hs1) as (sv1 & Hp1 & Hi1 & Hino1 & Hv1).
  eapply runs_mono; [eapply tail_runs; [apply Hs1|exact Hp1|lia]| |done].
  intros [] s2 (i2 & O2 & Hs2 & Hsz & Hind). exists i2, O2. split; [|done]. by eapply shrunk_trans.
Qed.

End shrink.



(** *** Witnesses *)


