(* ===== verification/SfsReclaim.v ===== *)
(** The SFS file system: the end of a vnode's life ([sfs_reclaim] and VOP_DECREF
    of kern/fs/sfs/sfs_vnode.c).

    Reclaiming a vnode writes its inode back, or, if the file has no name any
    more, gives up its blocks and its inode; either way the vnode leaves the
    table and its memory is returned. *)

From Stdlib Require Import ZArith Lia.
From stdpp Require Import prelude gmap list.
From S2P Require Import Prelude Str Heap Array Bitmap SynchObj Vnode Pages Copy Uio Device Lhd SfsDisk SfsFile SfsRep SfsSample SfsBmap SfsIo SfsDir SfsVnode SfsSync SfsTrunc.
Import Flat SimCard.

#[local] Arguments replicate : simpl never.

Section reclaim.
Context {U D H : Type} `{BlockDevLaws U D} `{!Heap H} `{!HeapLaws H}.
Implicit Types (s : sfs U D H) (I : gmap Z sfs_inode) (O : gmap Z owner).

(** ** The table loses a vnode *)

Lemma vnode_index_eq s ps bs i p : table s ps bs -> ps !! i = Some p -> vnode_index p s = (Ret (Z.of_nat i), s).
Proof.
  intros Ht Hi. pose proof (tb_nodup _ _ _ Ht) as Hnd. unfold vnode_index, bind.
  assert (on_vnodes array_getnum s = (Ret (Z.of_nat (length ps)), s)) as ->.
  { unfold on_vnodes, zoom, array_getnum, gets. simpl. rewrite (table_num _ _ _ Ht). f_equal. by destruct s. }
  pose proof (lookup_lt_Some _ _ _ Hi). rewrite (seqZ_split _ (Z.of_nat i)) by lia.
  erewrite for_find_first; [done| |].
  - intros j Hj%elem_of_seqZ. destruct (lookup_lt_is_Some_2 ps (Z.to_nat j)) as [q Hq]; [lia|].
    unfold bind. rewrite <- (Z2Nat.id j) at 1 by lia. rewrite (table_guy _ _ _ _ _ Ht Hq).
    rewrite bool_decide_false; [done|]. intros [= ->]. assert (Z.to_nat j = i); [|lia].
    by eapply NoDup_lookup.
  - unfold bind. rewrite (table_guy _ _ _ _ _ Ht Hi). by rewrite bool_decide_true.
Qed.

Lemma sv_blocks_delete (m : gmap Z sfs_vnode) ps p : p ∉ ps ->
  ps ≫= sv_blocks (delete p m) = ps ≫= sv_blocks m.
Proof.
  intros Hp. induction ps as [|q ps IH]; [done|]. rewrite !bind_cons, not_elem_of_cons in *.
  rewrite IH by tauto. f_equal. unfold sv_blocks. by rewrite lookup_delete_ne by tauto.
Qed.

Lemma forget_runs s ps bs p sv : table s ps bs -> s_svs s !! p = Some sv -> vn_refcount (sv_v sv) = 1 ->
  vn_opencount (sv_v sv) = 0 ->
  runs (forget_vnode p) s
    (fun _ s' => exists a h ps', s' = with_svs (delete p (s_svs s)) (with_vnodes (a, h) s) /\
       table s' ps' bs /\ ps ≡ₚ p :: ps')
    (fun _ _ => False).
Proof.
  intros Ht Hp Hrc Hoc. pose proof Ht as [Hc Hnd Hd Ha Hv].
  assert (p ∈ ps) as [i Hi]%list_elem_of_lookup_1 by (apply Hd; by exists sv).
  assert (ps ≡ₚ p :: delete i ps) as Hperm by (by apply delete_Permutation).
  assert (p ∉ delete i ps) as Hpn by (rewrite Hperm in Hnd; by apply NoDup_cons in Hnd as [? _]).
  destruct (Hv _ _ Hp) as (_ & _ & (l & Hl & _) & _).
  unfold forget_vnode. apply runs_bind. eapply runs_intro_ret; [by eapply vnode_index_eq|].
  rewrite (proj2 (Z.ltb_ge _ 0)) by lia. run. apply runs_zoom.
  pose proof (lookup_lt_Some _ _ _ Hi). pose proof (table_num _ _ _ Ht) as Hnum.
  eapply runs_mono; [eapply array_remove_spec; [exact Ha|lia]| |done].
  intros [] [a h] (Ha' & Hh & _ & _ & Hc'). simpl in Ha', Hc', Hh. subst h. set (s1 := with_vnodes _ s).
  destruct (array_at_owns _ _ _ Ha') as [Hok Ho].
  assert (ps ≫= sv_blocks (s_svs s) ≡ₚ
    ((p, sizeof_sfs_vnode) :: lock_blocks l countlock_name) ++ (delete i ps ≫= sv_blocks (s_svs s))) as Hbl.
  { rewrite Hperm at 1. rewrite bind_cons. f_equiv. unfold sv_blocks. by rewrite Hp, Hl. }
  eapply runs_mono; [eapply (kill_drop s1 p sv l (blocks a ++ (delete i ps ≫= sv_blocks (s_svs s)) ++ bs)); try done| |done].
  { eapply owns_perm; [|exact Ho]. rewrite Hbl. solve_Permutation. }
  intros [] s2 (h2 & -> & Hok2 & Ho2). exists a, h2, (delete i ps). split; [done|]. split; [|done].
  split; simpl.
  - rewrite Hc', Hc, Nat2Z.id. symmetry. apply list_fmap_delete.
  - rewrite Hperm in Hnd. by apply NoDup_cons in Hnd as [_ ?].
  - intros q. destruct (decide (q = p)) as [->|Hne].
    + rewrite lookup_delete_eq. split; [by intros []|done].
    + rewrite lookup_delete_ne by done. rewrite Hd.
      assert (q ∈ ps <-> q ∈ p :: delete i ps) as -> by (by rewrite Hperm at 1). set_solver.
  - rewrite sv_blocks_delete by done. destruct Ha' as (? & ? & ? & ? & ? & _). by do 5 (split; [done|]).
  - intros q sw [_ Hq]%lookup_delete_Some. by eapply Hv.
Qed.

(** The count lock is free: it is taken and given back. *)
Lemma count_lock_eq s p sv : s_svs s !! p = Some sv -> vnode_ok (sv_v sv) ->
  exists s1 sv1, on_vnode p unit count_acquire s = (Ret tt, s1) /\ sv_get p s1 = (Ret sv1, s1) /\
    vn_refcount (sv_v sv1) = vn_refcount (sv_v sv) /\ on_vnode p unit count_release s1 = (Ret tt, s).
Proof.
  intros Hp (_ & _ & (l & Hl & Hh) & _). unfold on_vnode, sv_get. rewrite Hp.
  unfold count_acquire, count_release, on_countlock, lock_take, lock_drop. rewrite Hl, Hh.
  eexists _, _. split; [done|]. simpl. rewrite lookup_insert_eq. split; [done|]. split; [done|].
  do 2 f_equal. unfold with_svs, set_vnode, set_countlock. simpl.
  rewrite insert_insert_eq, insert_id; [by destruct s|]. rewrite Hp, lock_eta by done. rewrite <- Hl.
  by destruct sv as [[] ? ? ?].
Qed.

(** ** What is left of the file system *)

(** The vnode at [p] is gone; the other vnodes are as they were. *)
Record forgotten p s s' : Prop := {
  fg_svs : s_svs s' = delete p (s_svs s);
  fg_thread : s_thread s' = s_thread s;
  fg_self : s_self s' = s_self s;
  fg_super : s_super s' = s_super s;
  fg_dev : d_blocksize (s_dev s') = d_blocksize (s_dev s);
}.

(** A clean vnode is unloaded. *)
Lemma rep_unload s I O p sv x : fs_rep s I O -> s_svs s !! p = Some sv -> sv_dirty sv = false ->
  fs_rep (with_svs (delete p (s_svs s)) (with_vnodes x s)) I O.
Proof.
  intros [? ? ? ? ? ? Hmt ? ? ? Hlo Hun Hul] Hp Hd. split; try done; unfold with_svs, dk in *; simpl in *.
  - by apply (meta_same s).
  - intros q sw [_ Hq]%lookup_delete_Some. by apply (Hlo q).
  - intros q q' sw sw' [_ Hq]%lookup_delete_Some [_ Hq']%lookup_delete_Some. by apply Hun.
  - intros ino i Hi Hno. destruct (decide (sv_ino sv = ino)) as [<-|Hne].
    + destruct (Hlo _ _ Hp) as [Hi' Hcl]. simplify_eq. by apply Hcl.
    + apply (Hul _ _ Hi). intros q sw Hq E. destruct (decide (q = p)) as [->|]; [congruence|].
      apply (Hno q sw); [by rewrite lookup_delete_ne|done].
Qed.

(** A file without blocks is erased. *)
Lemma rep_erase s I O p sv x fm : fs_rep s I O -> s_svs s !! p = Some sv ->
  freed_map s [sv_ino sv] fm ->
  fs_rep (with_svs (delete p (s_svs s)) (with_vnodes x (with_freemapdirty true (with_freemap fm s))))
    (delete (sv_ino sv) I) (delete (sv_ino sv) O).
Proof.
  intros Hr Hp (Hok & Hnb & Hpl & Hmk). pose proof (rep_good _ _ _ _ _ Hr Hp) as Hg.
  pose proof (ig_self _ _ _ _ Hg) as Hself.
  pose proof Hr as [? ? ? Hnbl ? Hnbits Hmt Hres Hown Hin Hlo Hun Hul].
  assert (forall b o, delete (sv_ino sv) O !! b = Some o -> O !! b = Some o /\ b <> sv_ino sv) as Hdel.
  { intros b o [? ?]%lookup_delete_Some. done. }
  split; try done; unfold with_svs, dk, nblocks in *; simpl in *.
  - lia.
  - destruct Hmt as [? Hn ? ? _]. split; try done. simpl. by rewrite Hnb.
  - intros b Hb Hu. rewrite Hmk, Hres by (done || lia). rewrite bool_decide_false; [done|].
    intros ->%list_elem_of_singleton. by destruct (Hown _ _ Hself).
  - intros b o [Ho Hne]%Hdel. destruct (Hown _ _ Ho) as [Hu Hm]. split; [done|].
    destruct (rep_block _ _ _ _ _ Hr Ho) as (? & _). rewrite Hmk, Hm by lia.
    rewrite bool_decide_false; [done|]. by intros ->%list_elem_of_singleton.
  - intros ino i [Hne Hi]%lookup_delete_Some. destruct (Hin _ _ Hi) as [? ? Hs Hd1 Hd2]. split; try done.
    + by rewrite lookup_delete_ne.
    + intros Hz. rewrite lookup_delete_ne; [by apply Hd1|]. intros E. pose proof (Hd1 Hz) as Ho. rewrite <- E, Hself in Ho. done.
    + intros k Hk Hz. rewrite lookup_delete_ne; [by apply Hd2|]. intros E. pose proof (Hd2 _ Hk Hz) as Ho.
      rewrite <- E, Hself in Ho. done.
  - intros q sw [Hne Hq]%lookup_delete_Some. destruct (Hlo _ _ Hq) as [Hi Hcl]. split; [|done].
    rewrite lookup_delete_ne; [done|]. intros E. by destruct (Hne (Hun _ _ _ _ Hp Hq E)).
  - intros q q' sw sw' [_ Hq]%lookup_delete_Some [_ Hq']%lookup_delete_Some. by apply Hun.
  - intros ino i [Hne Hi]%lookup_delete_Some Hno. apply (Hul _ _ Hi). intros q sw Hq E.
    destruct (decide (q = p)) as [->|]; [congruence|]. apply (Hno q sw); [by rewrite lookup_delete_ne|done].
Qed.

(** ** [sfs_reclaim] *)

(** The blocks of a file: data and indirect block. *)
Definition block_of (dk : Z -> list Z) (i : sfs_inode) (b : Z) : Prop :=
  b <> 0 /\ (sfi_indirect i = b \/ exists k, 0 <= k < MAXBLOCKS /\ fblock dk i k = b).

Lemma vop_eq {A} s p sv ops (call : sfs_ops -> M (sfs U D H) A) : s_svs s !! p = Some sv -> vnode_ok (sv_v sv) ->
  vn_ops (sv_v sv) = Some ops -> vop p call s = call ops s.
Proof.
  intros Hp Hv Hops. unfold vop, bind, on_vnode. rewrite Hp, vnode_check_eq by done.
  replace (with_svs _ s) with s.
  - by rewrite (sv_get_eq _ _ _ Hp), Hops.
  - unfold with_svs. rewrite insert_id by (rewrite Hp; by destruct sv). symmetry. apply sfs_eta.
Qed.

(** Nobody has picked the vnode up again. *)
Lemma reclaim_last s p sv : s_svs s !! p = Some sv -> vnode_ok (sv_v sv) -> vn_refcount (sv_v sv) = 1 ->
  sfs_reclaim p s =
    ((if sfi_linkcount (sv_i sv) =? 0 then vop_truncate p 0 else ret tt) ;;;
     sfs_sync_inode p ;;;
     sv <- sv_get p ;;
     (if sfi_linkcount (sv_i sv) =? 0 then sfs_bfree (sv_ino sv) else ret tt) ;;;
     forget_vnode p) s.
Proof.
  intros Hp Hv Hrc. destruct (count_lock_eq _ _ _ Hp Hv) as (s1 & sv1 & E1 & E2 & E3 & E4).
  unfold sfs_reclaim. unfold bind at 1. rewrite E1. unfold bind at 1. rewrite E2, E3, Hrc. simpl.
  unfold bind at 1. rewrite E4. unfold bind at 1. by rewrite (sv_get_eq _ _ _ Hp).
Qed.

(** A file that still has a name: its inode is on disk and the vnode is gone. *)
Lemma reclaim_linked s I O ps bs p sv : fs_rep s I O -> table s ps bs -> s_svs s !! p = Some sv ->
  vn_refcount (sv_v sv) = 1 -> vn_opencount (sv_v sv) = 0 -> sfi_linkcount (sv_i sv) <> 0 ->
  runs (sfs_reclaim p) s
    (fun _ s' => fs_rep s' I O /\ same_files (dk s) I (dk s') I /\ forgotten p s s' /\
       s_freemap s' = s_freemap s /\ exists ps', table s' ps' bs /\ ps ≡ₚ p :: ps')
    (fun _ _ => False).
Proof.
  intros Hr Ht Hp Hrc Hoc Hl. pose proof (tb_ok _ _ _ Ht _ _ Hp) as Hv.
  eapply runs_eq; [by eapply reclaim_last|]. rewrite (proj2 (Z.eqb_neq _ _) Hl). run.
  eapply runs_mono; [by eapply sync_inode_runs| |done]. intros [] s1 [Hs1 Hsv1].
  assert (s_svs s1 !! p = Some (set_dirty false sv)) as Hp1 by (rewrite Hsv1; apply lookup_insert_eq).
  run. eapply runs_intro_ret; [by apply sv_get_eq|]. simpl. rewrite (proj2 (Z.eqb_neq _ _) Hl). run.
  eapply runs_mono; [eapply forget_runs; [by eapply synced_table|done..]| |done].
  intros [] s2 (a & h & ps' & -> & Ht' & Hperm).
  split; [by eapply rep_unload; [apply Hs1|..]|]. split; [apply Hs1|]. split; [|split; [apply Hs1|by exists ps']].
  destruct Hs1 as [_ _ ? _ (? & ? & _) _ _ ? _]. split; try done. simpl. by rewrite Hsv1, delete_insert_eq.
Qed.

Lemma block_of_owned dk O ino i b : inode_good dk O ino i -> block_of dk i b -> exists o, O !! b = Some o.
Proof.
  intros Hg [Hz [<-|(k & Hk & <-)]]; eexists; [by apply (ig_indirect _ _ _ _ Hg)|by apply (ig_data _ _ _ _ Hg)].
Qed.

(** Truncation to nothing gives up every block of the file. *)
Lemma truncated_blocks s I O p sv s' i' O' : fs_rep s I O -> s_svs s !! p = Some sv ->
  shrunk p sv (block_kept (blocks_for 0)) s I O s' i' O' -> sfi_indirect i' = 0 ->
  forall b, block_of (dk s) (sv_i sv) b -> O' !! b = None /\ marked (s_freemap s') b = false.
Proof.
  intros Hr Hp Hs Hi b Hb'. pose proof Hb' as [Hz Hb]. pose proof (rep_good _ _ _ _ _ Hr Hp) as Hg.
  assert (O' !! b = None /\ exists o, O !! b = Some o) as [Hn [o Ho]].
  { split; [|by eapply block_of_owned]. destruct Hb as [<-|(k & Hk & <-)].
    - by destruct (sh_indirect _ _ _ _ _ _ _ _ _ Hs) as [E|[_ Hn]]; [congruence|].
    - apply (sh_lost _ _ _ _ _ _ _ _ _ Hs); [done| |done]. apply not_true_iff_false. rewrite block_kept_spec.
      change (blocks_for 0) with 0. unfold SFS_NDIRECT, SFS_DBPERIDB. lia. }
  split; [done|]. destruct (sh_freed _ _ _ _ _ _ _ _ _ Hs _ _ Ho) as [?|[_ ?]]; [congruence|done].
Qed.

(** The end of the file: its inode is given up and its vnode forgotten. *)
Lemma erase_runs s I O ps bs p sv : fs_rep s I O -> table s ps bs -> s_svs s !! p = Some sv ->
  vn_refcount (sv_v sv) = 1 -> vn_opencount (sv_v sv) = 0 ->
  runs (sfs_bfree (sv_ino sv) ;;; forget_vnode p) s
    (fun _ s' => fs_rep s' (delete (sv_ino sv) I) (delete (sv_ino sv) O) /\ forgotten p s s' /\ dk s' = dk s /\
       (forall b, 0 <= b -> marked (s_freemap s') b = if b =? sv_ino sv then false else marked (s_freemap s) b) /\
       exists ps', table s' ps' bs /\ ps ≡ₚ p :: ps')
    (fun _ _ => False).
Proof.
  intros Hr Ht Hp Hrc Hoc. pose proof (rep_good _ _ _ _ _ Hr Hp) as Hg.
  destruct (rep_block _ _ _ _ _ Hr (ig_self _ _ _ _ Hg)) as (_ & _ & Hb & Hm).
  destruct (bfree_eq s (sv_ino sv)) as (fm & Hbf & Hok & Hnb & Hpl & Hmk); [apply Hr|done|done|].
  apply runs_bind. eapply runs_intro_ret; [exact Hbf|].
  eapply runs_mono; [eapply forget_runs; [by eapply table_same|done..]| |done].
  intros [] s' (a & h & ps' & -> & Ht' & Hperm). split_and!; [|by split|done|done|by exists ps'].
  apply (rep_erase s I O p sv (a, h) fm); [done|done|]. split_and!; try done. intros c Hc. rewrite Hmk by done.
  destruct (Z.eqb_spec c (sv_ino sv)) as [->|].
  - rewrite bool_decide_true by (by apply list_elem_of_singleton). by rewrite andb_false_r.
  - rewrite bool_decide_false by (by intros ?%list_elem_of_singleton). by rewrite andb_true_r.
Qed.

Lemma same_files_byte d d' I j i m : same_files d I d' I -> I !! j = Some i -> 0 <= m < MAXBLOCKS * SFS_BLOCKSIZE ->
  file_byte d' i m = file_byte d i m.
Proof.
  intros [_ Hs] Hi Hm. destruct (Hs _ _ _ Hi Hi) as (_ & _ & _ & Hb). rewrite Hb by done.
  destruct (Z.leb_spec 0 m), (Z.ltb_spec m (0 + 0)); rewrite ?andb_false_r; done || lia.
Qed.

Lemma forgotten_trunc s I O p sv keep s1 i1 O1 I1 s2 sv1 s3 : shrunk p sv keep s I O s1 i1 O1 ->
  synced s1 I1 O1 s2 -> s_svs s2 = <[p := sv1]> (s_svs s1) -> forgotten p s2 s3 -> forgotten p s s3.
Proof.
  intros Hs1 Hs2 Hsv [Hd ? ? ? ?]. destruct (sh_kept _ _ _ _ _ _ _ _ _ Hs1). pose proof (sh_thread _ _ _ _ _ _ _ _ _ Hs1).
  destruct (sh_sv _ _ _ _ _ _ _ _ _ Hs1) as [dt E]. destruct Hs2 as [_ _ ? _ (? & ? & _) _ _ ? _].
  destruct kp_dev. split; try congruence. by rewrite Hd, Hsv, E, !delete_insert_eq.
Qed.

(** A file without a name: its blocks and its inode are free, and the vnode is gone. *)
Lemma reclaim_erased s I O ps bs p sv : fs_rep s I O -> table s ps bs -> s_svs s !! p = Some sv ->
  vn_refcount (sv_v sv) = 1 -> vn_opencount (sv_v sv) = 0 -> vn_ops (sv_v sv) = Some sfs_fileops ->
  sfi_linkcount (sv_i sv) = 0 ->
  runs (sfs_reclaim p) s
    (fun _ s' => exists O', fs_rep s' (delete (sv_ino sv) I) O' /\ O' ⊆ O /\ forgotten p s s' /\
       (forall j i m, I !! j = Some i -> j <> sv_ino sv -> 0 <= m < MAXBLOCKS * SFS_BLOCKSIZE ->
          file_byte (dk s') i m = file_byte (dk s) i m) /\
       (forall b, b = sv_ino sv \/ block_of (dk s) (sv_i sv) b -> marked (s_freemap s') b = false) /\
       exists ps', table s' ps' bs /\ ps ≡ₚ p :: ps')
    (fun _ _ => False).
Proof.
  intros Hr Ht Hp Hrc Hoc Hops Hl. pose proof (tb_ok _ _ _ Ht _ _ Hp) as Hv.
  eapply runs_eq; [by eapply reclaim_last|]. rewrite Hl. cbn [Z.eqb]. apply runs_bind.
  eapply runs_eq; [by apply (vop_eq _ _ sv sfs_fileops)|].
  eapply runs_mono; [eapply truncate_spec; [done|done|lia]| |done]. intros [] s1 (i1 & O1 & Hs1 & _ & Hi1).
  destruct (shrunk_at _ _ _ _ _ _ _ _ _ Hs1) as (sv1 & Hp1 & E1 & Eino & Ev). pose proof (sh_kept _ _ _ _ _ _ _ _ _ Hs1) as Hk1.
  assert (table s1 ps bs) as Ht1.
  { eapply table_svs; [done|apply Hk1|apply Hk1|]. intros q. destruct (decide (q = p)) as [->|Hne].
    - rewrite Hp1, Hp. simpl. by rewrite Ev.
    - by rewrite (kp_svs _ _ _ Hk1). }
  apply runs_bind. eapply runs_mono; [eapply sync_inode_runs; [apply Hs1|done]| |done]. intros [] s2 [Hs2 Hsv2].
  assert (s_svs s2 !! p = Some (set_dirty false sv1)) as Hp2 by (rewrite Hsv2; apply lookup_insert_eq).
  apply runs_bind. eapply runs_intro_ret; [by apply sv_get_eq|]. simpl.
  assert (sfi_linkcount (sv_i sv1) = 0) as -> by (rewrite E1, (sh_link _ _ _ _ _ _ _ _ _ Hs1); done). cbn [Z.eqb].
  eapply runs_mono; [eapply (erase_runs s2 _ _ ps bs p (set_dirty false sv1));
    [apply Hs2|by eapply synced_table|done|simpl; congruence..]| |done].
  simpl. rewrite Eino, delete_insert_eq. intros [] s3 (Hr3 & Hf3 & Hd3 & Hm3 & Ht3).
  exists (delete (sv_ino sv) O1). split_and!; [done| | | | |done].
  - etrans; [apply delete_subseteq|apply Hs1].
  - eapply forgotten_trunc; done.
  - intros j i m Hi Hne Hm. rewrite <- (shrunk_other _ _ _ _ _ _ _ _ _ _ _ Hr Hs1 Hi Hne m Hm), Hd3.
    eapply same_files_byte; [apply Hs2|by rewrite lookup_insert_ne|done].
  - intros b Hb. assert (0 <= b) as Hb0.
    { pose proof (rep_good _ _ _ _ _ Hr Hp) as Hg. destruct Hb as [->|Hb].
      - destruct (rep_block _ _ _ _ _ Hr (ig_self _ _ _ _ Hg)) as (? & _). lia.
      - destruct (block_of_owned _ _ _ _ _ Hg Hb) as [o Ho]. destruct (rep_block _ _ _ _ _ Hr Ho) as (? & _). lia. }
    rewrite Hm3 by done. destruct (Z.eqb_spec b (sv_ino sv)) as [|Hne]; [done|].
    destruct (sy_fs _ _ _ _ Hs2) as (_ & _ & ->). destruct Hb as [?|Hb]; [done|].
    eapply truncated_blocks; [exact Hr|done|exact Hs1|by apply Hi1|done].
Qed.

(** ** VOP_DECREF *)

(** A reference that is not the last is taken off the count; the last one
    reclaims the vnode. *)
Lemma decref_eq s p sv : s_svs s !! p = Some sv -> vnode_ok (sv_v sv) ->
  vop_decref p s =
    if vn_refcount (sv_v sv) >? 1
    then (Ret tt, with_svs (<[p := set_vnode (set_refcount (vn_refcount (sv_v sv) - 1) (sv_v sv)) sv]> (s_svs s)) s)
    else (result_of (sfs_reclaim p) ;;; ret tt) s.
Proof.
  intros Hp Hv. pose proof Hv as (Hr & _ & (l & Hl & Hh) & _).
  assert ((on_vnode p unit (vnode_check true) ;;; sfs_reclaim p) s = sfs_reclaim p s) as Hchk.
  { unfold bind, on_vnode. rewrite Hp, vnode_check_eq by done. f_equal. unfold with_svs.
    rewrite insert_id by (rewrite Hp; by destruct sv). apply sfs_eta. }
  unfold vop_decref. revert Hchk. generalize (on_vnode p unit (vnode_check true) ;;; sfs_reclaim p). intros rc Hrc.
  transitivity (if vn_refcount (sv_v sv) >? 1
    then (Ret tt, with_svs (<[p := set_vnode (set_refcount (vn_refcount (sv_v sv) - 1) (sv_v sv)) sv]> (s_svs s)) s)
    else (result_of rc ;;; ret tt) s); [|unfold bind, result_of; by rewrite Hrc].
  clear Hrc Hv. destruct sv as [[r o cl f dt ops] i ino dirty], l as [ls ln lh]. simpl in *. subst cl lh.
  unfold vnode_decref, on_vnode, bind, count_acquire, count_release, on_countlock, lock_take, lock_drop, gets, modify, assert.
  rewrite Hp. cbn. rewrite lookup_insert_eq. cbn. rewrite (proj2 (Z.gtb_lt r 0)) by lia.
  destruct (Z.gtb_spec r 1); cbn; rewrite !lookup_insert_eq; cbn; rewrite ?lookup_insert_eq; cbn;
    rewrite !insert_insert_eq; unfold set_vnode, set_refcount, set_countlock; cbn; [done|].
  rewrite (insert_id _ _ _ Hp). unfold with_svs. cbn. by rewrite (sfs_eta s).
Qed.

End reclaim.
