(* ===== verification/SfsTree.v ===== *)
(** The SFS file system as a tree of names.

    The volume has one directory, the root.  [tree] says that its entries lead to
    files, that the link count of every file is the number of entries that name
    it, and that a file without a name is still in use by somebody.  What a user
    sees of such a volume is the map [dir_map] from names to inodes and the map
    [files] from inodes to sizes and contents. *)

From Stdlib Require Import ZArith Lia.
From stdpp Require Import prelude gmap list.
From S2P Require Import Prelude Str Heap Array Bitmap SynchObj Vnode Pages Copy Uio Device Lhd SfsDisk SfsFile SfsRep SfsSample SfsBmap SfsIo SfsDir SfsVnode SfsSync SfsTrunc SfsReclaim.
Import Flat SimCard.

#[local] Arguments replicate : simpl never.

(** ** Directories as maps *)

Definition live (sd : sfs_dir) : option (list Z * Z) :=
  if sfd_ino sd =? SFS_NOINO then None else Some (slot_name sd, sfd_ino sd).

Definition dir_map (l : list sfs_dir) : gmap (list Z) Z := list_to_map (omap live l).

(** How many entries name inode [ino]. *)
Definition nlinks (l : list sfs_dir) (ino : Z) : Z :=
  Z.of_nat (length (filter (fun sd => sfd_ino sd = ino) l)).

(** An entry that is not in use. *)
Definition blank : sfs_dir := mk_dir SFS_NOINO (replicate 60 0).

Lemma elem_live (l : list sfs_dir) name ino : (name, ino) ∈ omap live l <->
  exists sd, sd ∈ l /\ sfd_ino sd = ino /\ ino <> SFS_NOINO /\ slot_name sd = name.
Proof.
  rewrite list_elem_of_omap. unfold live. split.
  - intros (sd & Hsd & E). exists sd. destruct (Z.eqb_spec (sfd_ino sd) SFS_NOINO); simplify_eq. done.
  - intros (sd & Hsd & <- & Hnz & <-). exists sd. split; [done|]. by rewrite (proj2 (Z.eqb_neq _ _) Hnz).
Qed.

Lemma names_unique_elem (l : list sfs_dir) sd sd' : names_unique l -> sd ∈ l -> sd' ∈ l -> sfd_ino sd <> SFS_NOINO ->
  sfd_ino sd' <> SFS_NOINO -> slot_name sd = slot_name sd' -> sd = sd'.
Proof.
  intros Hu [j Hj]%list_elem_of_lookup [k Hk]%list_elem_of_lookup H1 H2 E.
  assert (j = k) as -> by (by eapply Hu). congruence.
Qed.

Lemma dir_map_elem (l : list sfs_dir) name ino : names_unique l -> dir_map l !! name = Some ino <->
  exists sd, sd ∈ l /\ sfd_ino sd = ino /\ ino <> SFS_NOINO /\ slot_name sd = name.
Proof.
  intros Hu. rewrite <- elem_live. split; [apply elem_of_list_to_map_2|].
  intros Hin. apply elem_of_list_to_map_1'; [|done]. intros ino' Hin'.
  apply elem_live in Hin as (sd & ? & <- & ? & <-), Hin' as (sd' & ? & <- & ? & E).
  by rewrite (names_unique_elem l sd' sd).
Qed.

(** What a lookup finds is what the map has. *)
Lemma entry_map (l : list sfs_dir) name r : names_unique l -> entry_at l name r -> dir_map l !! name = fst <$> r.
Proof.
  intros Hu. destruct r as [[ino k]|]; simpl.
  - intros (Hk & sd & Hsd & ? & ? & ?). apply dir_map_elem; [done|]. exists sd.
    split; [by eapply list_elem_of_lookup_2|done].
  - intros Hno. apply eq_None_not_Some. intros [ino (sd & ? & <- & ? & ?)%dir_map_elem]; [|done]. by destruct (Hno sd).
Qed.

Lemma map_eq_Some {A} (m1 m2 : gmap (list Z) A) :
  (forall i x, m1 !! i = Some x <-> m2 !! i = Some x) -> m1 = m2.
Proof. intros Hm. apply map_eq. intros i. apply option_eq. intros x. apply Hm. Qed.

Lemma put_slot_elem l k sd x : 0 <= k <= Z.of_nat (length l) ->
  x ∈ put_slot l k sd <-> x = sd \/ exists j, Z.of_nat j <> k /\ l !! j = Some x.
Proof.
  intros Hk. rewrite list_elem_of_lookup. pose proof (length_put_slot l k sd Hk) as Hlen. split.
  - intros [j Hj]. pose proof (lookup_lt_Some _ _ _ Hj). rewrite put_slot_lookup in Hj by done.
    destruct (Z.eqb_spec (Z.of_nat j) k); simplify_eq; [by left|]. right. by exists j.
  - intros [->|(j & Hne & Hj)].
    + exists (Z.to_nat k). rewrite put_slot_lookup by lia. rewrite Z2Nat.id by lia. by rewrite Z.eqb_refl.
    + pose proof (lookup_lt_Some _ _ _ Hj). exists j. rewrite put_slot_lookup by lia. by rewrite (proj2 (Z.eqb_neq _ _) Hne).
Qed.

(** An entry is taken out. *)
Lemma dir_map_blank l k name ino : names_unique l -> names_unique (put_slot l k blank) ->
  entry_at l name (Some (ino, k)) -> dir_map (put_slot l k blank) = delete name (dir_map l).
Proof.
  intros Hu Hu' (Hk & sd & Hsd & Hino & Hnz & Hnm). pose proof (lookup_lt_Some _ _ _ Hsd) as Hl.
  apply map_eq_Some. intros nm x. rewrite dir_map_elem, lookup_delete_Some, dir_map_elem by done. split.
  - intros (sx & [->|(j & Hne & Hj)]%put_slot_elem & Hx & Hxz & Hxn); [done| |lia].
    split; [|exists sx; split; [by eapply list_elem_of_lookup_2|done]]. intros E.
    assert (j = Z.to_nat k); [|lia]. eapply Hu; [done|done|congruence..].
  - intros (Hne & sx & [j Hj]%list_elem_of_lookup & Hx & Hxz & Hxn). exists sx. split; [|done].
    apply put_slot_elem; [lia|]. right. exists j. split; [|done]. intros E.
    rewrite <- E, Nat2Z.id in Hsd. congruence.
Qed.

(** An entry is made. *)
Lemma dir_map_new l k name ino : names_unique l -> names_unique (put_slot l k (new_entry ino name)) ->
  free_slot l k -> slot_name (new_entry ino name) = name -> ino <> SFS_NOINO ->
  dir_map (put_slot l k (new_entry ino name)) = <[name := ino]> (dir_map l).
Proof.
  intros Hu Hu' Hfree Hnm Hnz.
  assert (0 <= k <= Z.of_nat (length l)) as Hk.
  { destruct Hfree as [(? & sd & ?%lookup_lt_Some & _)| ->]; lia. }
  assert (forall j sx, l !! j = Some sx -> sfd_ino sx <> SFS_NOINO -> Z.of_nat j <> k) as Hother.
  { intros j sx Hj Hz E. destruct Hfree as [(_ & sd & Hsd & ?)| ->].
    - rewrite <- E, Nat2Z.id in Hsd. congruence.
    - apply lookup_lt_Some in Hj. lia. }
  apply map_eq_Some. intros nm x. rewrite dir_map_elem, lookup_insert_Some, dir_map_elem by done. split.
  - intros (sx & Hin & Hx & Hxz & Hxn). pose proof Hin as Hin'.
    apply put_slot_elem in Hin' as [->|(j & Hne & Hj)]; [|right|done].
    + left. split; [congruence|done].
    + split; [|exists sx; split; [by eapply list_elem_of_lookup_2|done]]. intros E.
      pose proof (lookup_lt_Some _ _ _ Hj). pose proof (length_put_slot l k (new_entry ino name) Hk).
      assert (j = Z.to_nat k); [|lia]. eapply (Hu' _ _ sx (new_entry ino name)); [..|congruence|done|congruence].
      * rewrite put_slot_lookup by lia. by rewrite (proj2 (Z.eqb_neq _ _) Hne).
      * rewrite put_slot_lookup by lia. by rewrite Z2Nat.id, Z.eqb_refl by lia.
  - intros [[<- <-]|(Hne & sx & [j Hj]%list_elem_of_lookup & Hx & Hxz & Hxn)].
    + exists (new_entry ino name). split; [|done]. apply put_slot_elem; [done|]. by left.
    + exists sx. split; [|done]. apply put_slot_elem; [done|]. right. exists j. split; [|done].
      eapply Hother; [done|congruence].
Qed.

(** *** Counting links *)

Definition names_ino (sd : sfs_dir) (ino : Z) : Z := if sfd_ino sd =? ino then 1 else 0.

Lemma nlinks_app l1 l2 ino : nlinks (l1 ++ l2) ino = nlinks l1 ino + nlinks l2 ino.
Proof. unfold nlinks. rewrite filter_app, length_app. lia. Qed.

Lemma nlinks_cons sd l ino : nlinks (sd :: l) ino = names_ino sd ino + nlinks l ino.
Proof.
  unfold nlinks, names_ino. rewrite filter_cons. destruct (Z.eqb_spec (sfd_ino sd) ino).
  - rewrite decide_True by done. simpl. lia.
  - rewrite decide_False by done. lia.
Qed.

Lemma nlinks_nil ino : nlinks [] ino = 0.
Proof. done. Qed.

Lemma nlinks_pos l ino : 0 <= nlinks l ino <= Z.of_nat (length l).
Proof. unfold nlinks. pose proof (length_filter (fun sd => sfd_ino sd = ino) l). lia. Qed.

Lemma nlinks_zero l ino : nlinks l ino = 0 <-> forall sd, sd ∈ l -> sfd_ino sd <> ino.
Proof.
  induction l as [|sd l IH]; [split; [by intros _ sd ?%not_elem_of_nil|done]|].
  rewrite nlinks_cons. unfold names_ino. pose proof (nlinks_pos l ino). setoid_rewrite elem_of_cons.
  destruct (Z.eqb_spec (sfd_ino sd) ino) as [E|E]; split.
  - lia.
  - intros Hn. destruct (Hn sd); auto.
  - intros Hz sx [->|Hin]; [done|]. apply IH; [lia|done].
  - intros Hn. rewrite (proj2 IH); [done|]. auto.
Qed.

Lemma nlinks_replace l k sd sd' ino : 0 <= k -> l !! Z.to_nat k = Some sd ->
  nlinks (put_slot l k sd') ino = nlinks l ino - names_ino sd ino + names_ino sd' ino.
Proof.
  intros Hk Hsd. pose proof (lookup_lt_Some _ _ _ Hsd). unfold put_slot. rewrite (proj2 (Z.ltb_lt _ _)) by lia.
  rewrite <- (take_drop_middle _ _ _ Hsd) at 2. rewrite insert_take_drop by lia.
  rewrite !nlinks_app, !nlinks_cons. lia.
Qed.

Lemma nlinks_new l k ino name j : free_slot l k -> j <> SFS_NOINO ->
  nlinks (put_slot l k (new_entry ino name)) j = nlinks l j + if ino =? j then 1 else 0.
Proof.
  intros [(Hk & sd & Hsd & Hno)| ->] Hj.
  - rewrite (nlinks_replace _ _ _ _ _ Hk Hsd). unfold names_ino. rewrite Hno, (proj2 (Z.eqb_neq _ _)) by done. simpl. lia.
  - unfold put_slot. rewrite Z.ltb_irrefl, nlinks_app, nlinks_cons, nlinks_nil. unfold names_ino. simpl. lia.
Qed.

Lemma nlinks_blank l k name ino j : entry_at l name (Some (ino, k)) -> j <> SFS_NOINO ->
  nlinks (put_slot l k blank) j = nlinks l j - if ino =? j then 1 else 0.
Proof.
  intros (Hk & sd & Hsd & Hino & _) Hj. rewrite (nlinks_replace _ _ _ _ _ Hk Hsd). unfold names_ino.
  rewrite Hino, (proj2 (Z.eqb_neq (sfd_ino blank) _)) by (by intros <-). lia.
Qed.

Section tree.
Context {U D H : Type} `{BlockDevLaws U D} `{!Heap H} `{!HeapLaws H}.
Implicit Types (s : sfs U D H) (I : gmap Z sfs_inode) (O : gmap Z owner).

(** ** The tree *)

(** The size of a file and its contents block by block, as far as a file can reach. *)
Definition file_data s (i : sfs_inode) : Z * list (list Z) :=
  (sfi_size i, map (fun k => file_bytes s i (k * SFS_BLOCKSIZE) SFS_BLOCKSIZE) (seqZ 0 MAXBLOCKS)).

(** The files of the volume: all inodes but the root. *)
Definition files s I : gmap Z (Z * list (list Z)) := file_data s <$> delete SFS_ROOT_LOCATION I.

(** The directory at [p] holds the slots [l] and inode [ino] has the link count
    [lk ino]. *)
Record tree_with (lk : Z -> Z) s I O (ps : list Z) (bs : list (Z * Z)) (p : Z) (l : list sfs_dir) : Prop := {
  tr_rep : fs_rep s I O;
  tr_table : table s ps bs;
  tr_root : exists sv, s_svs s !! p = Some sv /\ sv_ino sv = SFS_ROOT_LOCATION /\
    dir_good s (sv_i sv) /\ dir_slots s (sv_i sv) = l;
  tr_entries : forall sd, sd ∈ l -> sfd_ino sd <> SFS_NOINO ->
    sfd_ino sd <> SFS_ROOT_LOCATION /\ is_Some (I !! sfd_ino sd);
  tr_links : forall ino i, I !! ino = Some i -> ino <> SFS_ROOT_LOCATION ->
    sfi_type i = SFS_TYPE_FILE /\ sfi_linkcount i = lk ino;
  tr_held : forall ino i, I !! ino = Some i -> sfi_linkcount i = 0 ->
    exists q sw, s_svs s !! q = Some sw /\ sv_ino sw = ino;
  tr_vnodes : forall q sw, s_svs s !! q = Some sw ->
    vn_ops (sv_v sw) = ops_of (sfi_type (sv_i sw)) /\ vn_fs (sv_v sw) = s_self s;
}.

Definition tree s I O ps bs p l : Prop := tree_with (nlinks l) s I O ps bs p l.

(** Room for one more reference. *)
Definition refs_ok s : Prop := forall q sw, s_svs s !! q = Some sw -> vn_refcount (sv_v sw) < 2 ^ 31 - 2.

Lemma tree_ext lk lk' s I O ps bs p l : tree_with lk s I O ps bs p l ->
  (forall ino i, I !! ino = Some i -> ino <> SFS_ROOT_LOCATION -> lk' ino = lk ino) ->
  tree_with lk' s I O ps bs p l.
Proof.
  intros [? ? ? ? Hl ? ?] Hlk. split; try done. intros ino i Hi Hne. rewrite (Hlk _ _ Hi Hne). by apply Hl.
Qed.

Lemma files_lookup s I ino x : files s I !! ino = Some x <->
  ino <> SFS_ROOT_LOCATION /\ exists i, I !! ino = Some i /\ file_data s i = x.
Proof.
  unfold files. rewrite lookup_fmap, fmap_Some. setoid_rewrite lookup_delete_Some. naive_solver.
Qed.

Lemma file_data_eq s s' i i' : sfi_size i' = sfi_size i ->
  (forall m, 0 <= m < FILE_LIMIT -> file_byte (dk s') i' m = file_byte (dk s) i m) ->
  file_data s' i' = file_data s i.
Proof.
  intros Hs Hb. unfold file_data. rewrite Hs. apply (f_equal (pair _)). apply map_ext_in. intros k Hk.
  unfold file_bytes. apply map_ext_in. intros m Hm. apply Hb. apply list_elem_of_In, elem_of_seqZ in Hk, Hm.
  unfold FILE_LIMIT, MAXBLOCKS, SFS_BLOCKSIZE, SFS_NDIRECT, SFS_DBPERIDB in *. lia.
Qed.

Lemma files_same s I s' I' : dom I' = dom I ->
  (forall j i i', j <> SFS_ROOT_LOCATION -> I !! j = Some i -> I' !! j = Some i' -> file_data s' i' = file_data s i) ->
  files s' I' = files s I.
Proof.
  intros Hd Hf. apply map_eq. intros j. unfold files. rewrite !lookup_fmap.
  destruct (decide (j = SFS_ROOT_LOCATION)) as [->|Hne]; [by rewrite !lookup_delete_eq; simpl|].
  rewrite !lookup_delete_ne by done.
  assert (is_Some (I' !! j) <-> is_Some (I !! j)) as Hs by (by rewrite <- !elem_of_dom, Hd).
  destruct (I !! j) eqn:E, (I' !! j) eqn:E'; simpl.
  - apply (f_equal Some). by eapply Hf.
  - by destruct (proj2 Hs).
  - by destruct (proj1 Hs).
  - done.
Qed.

Lemma files_others s I s' I' : others_same SFS_ROOT_LOCATION s I s' I' -> files s' I' = files s I.
Proof.
  intros [Hd Ho]. apply files_same; [done|]. intros j i i' Hne Hi Hi'.
  destruct (Ho _ _ _ Hne Hi Hi') as (_ & _ & ? & ?). by apply file_data_eq.
Qed.

Lemma files_same_files s I s' : same_files (dk s) I (dk s') I -> files s' I = files s I.
Proof.
  intros Hs. apply files_same; [done|]. intros j i i' _ Hi Hi'. simplify_eq. apply file_data_eq; [done|].
  intros m Hm. by eapply same_files_byte.
Qed.

(** *** Steps of the tree *)

(** A vnode is loaded. *)
Lemma tree_loaded lk s I O ps bs p l s' ino i q : tree_with lk s I O ps bs p l -> looked s I s' bs ->
  loaded s s' ino i q -> I !! ino = Some i -> ino <> SFS_ROOT_LOCATION ->
  q <> p /\ exists O' ps', tree_with lk s' I O' ps' bs p l.
Proof.
  intros [Hr Ht (sv & Hp & Hino & Hg & Hsl) He Hl Hh Hv] ((O' & ps' & Hr' & Ht') & Hs & Hself) (sw & Hsv & Ew & Ei & Hq) Hi Hne.
  assert (q <> p) as Hqp.
  { intros ->. rewrite Hp in Hq. subst sw. simpl in Ew. congruence. }
  split; [done|]. exists O', ps'. split; try done.
  - exists sv. rewrite Hsv, lookup_insert_ne by done. split; [done|]. split; [done|].
    split; [by eapply dir_good_stepped|]. rewrite <- Hsl. by eapply dir_slots_stepped.
  - intros j ij Hj Hz. destruct (Hh _ _ Hj Hz) as (r & sr & Hr0 & Er). rewrite Hsv.
    destruct (decide (r = q)) as [->|]; [|exists r, sr; by rewrite lookup_insert_ne].
    exists q, sw. rewrite lookup_insert_eq. split; [done|]. rewrite Hr0 in Hq. by subst sw.
  - intros r sr. rewrite Hsv. intros [[<- <-]|[_ Hr0]]%lookup_insert_Some; [|rewrite Hself; by eapply Hv].
    rewrite Ei, Hself. destruct (s_svs s !! q) as [sv0|] eqn:E0.
    + destruct (Hv _ _ E0) as [? ?]. subst sw. simpl in *. by subst.
    + destruct Hq as (_ & _ & ? & ? & _). done.
Qed.

(** The directory is written. *)
Lemma tree_dir lk s I O ps bs p l sv l' s' : tree_with lk s I O ps bs p l -> s_svs s !! p = Some sv ->
  dir_now p sv l' s I s' -> names_unique l' ->
  (forall sd, sd ∈ l' -> sfd_ino sd <> SFS_NOINO -> sfd_ino sd <> SFS_ROOT_LOCATION /\ is_Some (I !! sfd_ino sd)) ->
  exists I' O', tree_with lk s' I' O' ps bs p l' /\ files s' I' = files s I /\ dom I' = dom I.
Proof.
  intros [Hr Ht (sv' & Hp' & Hino & Hg & Hsl) He Hl Hh Hv] Hp (Hk & Hth & I' & O' & sv1 & Hr' & Hp1 & Hino1 & Hty & Hlk & Hsz & Hlim & Hsl' & Ho) Hu He'.
  assert (sv' = sv) as -> by congruence. rewrite Hino in *. exists I', O'. split; [|split; [by apply files_others|apply Ho]].
  pose proof Ho as [Hd Ho'].
  assert (forall j i', I' !! j = Some i' -> exists i, I !! j = Some i) as Hold.
  { intros j i' Hi'. apply elem_of_dom. rewrite <- Hd. apply elem_of_dom. by exists i'. }
  split.
  - done.
  - eapply table_svs; [done|apply Hk|apply Hk|]. intros q. destruct (decide (q = p)) as [->|Hne].
    + destruct (kp_sv _ _ _ Hk _ Hp) as (sv2 & E2 & E3 & _). rewrite E2, Hp. simpl. by rewrite E3.
    + by rewrite (kp_svs _ _ _ Hk).
  - exists sv1. split; [done|]. split; [done|]. split; [|done]. split; [rewrite Hty; apply Hg| |done|by rewrite Hsl'].
    unfold nslots. rewrite Hsz, (Z.mul_comm 64), Z.div_mul by done. lia.
  - intros sd Hsd Hz. destruct (He' sd Hsd Hz) as [? Hs]. split; [done|].
    apply elem_of_dom. rewrite Hd. by apply elem_of_dom.
  - intros ino i' Hi' Hne. destruct (Hold _ _ Hi') as [i Hi]. destruct (Ho' _ _ _ Hne Hi Hi') as (-> & -> & _). by apply Hl.
  - intros ino i' Hi' Hz. destruct (decide (ino = SFS_ROOT_LOCATION)) as [->|Hne]; [by exists p, sv1|].
    destruct (Hold _ _ Hi') as [i Hi]. destruct (Ho' _ _ _ Hne Hi Hi') as (_ & E & _).
    destruct (Hh _ _ Hi) as (q & sw & Hq & Eq); [congruence|]. exists q, sw. split; [|done].
    rewrite (kp_svs _ _ _ Hk); [done|]. intros ->. congruence.
  - intros q sw Hq. rewrite (kp_self _ _ _ Hk). destruct (decide (q = p)) as [->|Hne].
    + destruct (kp_sv _ _ _ Hk _ Hp) as (sv2 & E2 & E3 & _). assert (sv2 = sv1) as -> by congruence.
      assert (sw = sv1) as -> by congruence. rewrite E3, Hty. by apply (Hv p).
    + rewrite (kp_svs _ _ _ Hk) in Hq by done. by eapply Hv.
Qed.

Lemma count_linkcount i n : 0 <= sfi_linkcount i + n < 2 ^ 16 ->
  linkcount_add n i = set_linkcount (sfi_linkcount i + n) i.
Proof. intros Hn. unfold linkcount_add. f_equal. unfold u16. apply Z.mod_small. lia. Qed.

(** A link count is changed. *)
Lemma tree_count lk s I O ps bs p l q sw n : tree_with lk s I O ps bs p l -> s_svs s !! q = Some sw ->
  q <> p -> 0 <= lk (sv_ino sw) + n < 2 ^ 16 ->
  exists s' sw', inode_modify q (linkcount_add n) s = (Ret tt, s') /\ s_svs s' = <[q := sw']> (s_svs s) /\
    sv_v sw' = sv_v sw /\ sv_ino sw' = sv_ino sw /\ sfi_linkcount (sv_i sw') = lk (sv_ino sw) + n /\
    exists I', tree_with (fun j => if j =? sv_ino sw then lk j + n else lk j) s' I' O ps bs p l /\
      files s' I' = files s I /\ dom I' = dom I.
Proof.
  intros [Hr Ht (sv & Hp & Hino & Hg & Hsl) He Hl Hh Hv] Hq Hqp Hn. pose proof (rep_at _ _ _ _ _ Hr Hq) as Hi.
  assert (sv_ino sw <> SFS_ROOT_LOCATION) as Hne.
  { intros E. destruct Hqp. apply (rep_unique _ _ _ Hr _ _ _ _ Hq Hp). congruence. }
  destruct (Hl _ _ Hi Hne) as [Hty Hlk]. pose proof (rep_good _ _ _ _ _ Hr Hq) as Hgo.
  rewrite (inode_modify_eq _ _ _ sw) by done. rewrite count_linkcount by lia.
  set (i' := set_linkcount _ (sv_i sw)). eexists _, (set_dirty true (set_inode i' sw)).
  split; [done|]. split; [done|]. split; [done|]. split; [done|]. split; [simpl; lia|].
  exists (<[sv_ino sw := i']> I).
  assert (dom (<[sv_ino sw := i']> I) = dom I) as Hd by (by rewrite dom_insert_lookup_L by (by exists (sv_i sw))).
  split; [|split; [|done]].
  2:{ apply files_same; [done|]. intros j x x' _ Hx [[<- <-]|[_ Hx']]%lookup_insert_Some; simplify_eq; by apply file_data_eq. }
  split.
  - apply (rep_set_inode s I O O); try done; [by apply Hr|]. destruct Hgo as [[? ? ? ? ? ?] ? ? ? ?]. split; try done.
    split; try done. simpl. lia.
  - apply (table_svs s); try done. intros r. simpl. destruct (decide (r = q)) as [->|]; [|by rewrite lookup_insert_ne].
    by rewrite lookup_insert_eq, Hq.
  - exists sv. split; [simpl; by rewrite lookup_insert_ne|]. split; [done|]. by split; [destruct Hg; split|].
  - intros sd Hsd Hz. destruct (He sd Hsd Hz) as [? Hs]. split; [done|].
    apply elem_of_dom. rewrite Hd. by apply elem_of_dom.
  - intros j x [[<- <-]|[Hj Hx]]%lookup_insert_Some Hjr.
    + rewrite Z.eqb_refl. split; [done|]. simpl. lia.
    + rewrite (proj2 (Z.eqb_neq _ _)) by done. by apply Hl.
  - intros j x [[<- <-]|[Hj Hx]]%lookup_insert_Some Hz; simpl.
    + eexists q, _. by rewrite lookup_insert_eq.
    + destruct (Hh _ _ Hx Hz) as (r & sr & Hr0 & Er). exists r, sr.
      rewrite lookup_insert_ne; [done|]. intros ->. congruence.
  - simpl. intros r sr [[<- <-]|[_ Hr0]]%lookup_insert_Some; [|by eapply Hv]. simpl. by apply (Hv q).
Qed.

(** The directory reads the same. *)
Lemma dir_bytes s s' i : dir_good s i -> 0 <= nslots i ->
  (forall m, 0 <= m < FILE_LIMIT -> file_byte (dk s') i m = file_byte (dk s) i m) ->
  dir_good s' i /\ dir_slots s' i = dir_slots s i.
Proof.
  intros [Ht Hsz Hlim Hu] Hpos Hb.
  assert (dir_slots s' i = dir_slots s i) as E.
  { unfold dir_slots. apply map_ext_in. intros k Hk. apply list_elem_of_In, elem_of_seqZ in Hk.
    unfold dir_slot. f_equal. unfold file_bytes. apply map_ext_in. intros m Hm.
    apply list_elem_of_In, elem_of_seqZ in Hm. apply Hb. lia. }
  split; [|done]. split; try done. by rewrite E.
Qed.

(** A vnode other than the root's is given up, and maybe its file with it. *)
Lemma tree_forget s I O ps bs p l q sw s' I' O' ps' : tree s I O ps bs p l -> s_svs s !! q = Some sw -> q <> p ->
  fs_rep s' I' O' -> forgotten q s s' -> table s' ps' bs ->
  I' = (if sfi_linkcount (sv_i sw) =? 0 then delete (sv_ino sw) I else I) ->
  (forall j i m, I !! j = Some i -> j <> sv_ino sw -> 0 <= m < FILE_LIMIT -> file_byte (dk s') i m = file_byte (dk s) i m) ->
  tree s' I' O' ps' bs p l.
Proof.
  intros [Hr Ht (sv & Hp & Hino & Hg & Hsl) He Hl Hh Hv] Hq Hqp Hr' Hf Ht' -> Hb.
  pose proof (rep_at _ _ _ _ _ Hr Hq) as Hi.
  assert (sv_ino sw <> SFS_ROOT_LOCATION) as Hne.
  { intros E. destruct Hqp. apply (rep_unique _ _ _ Hr _ _ _ _ Hq Hp). congruence. }
  destruct (Hl _ _ Hi Hne) as [_ Hlk].
  assert (forall j i, (if sfi_linkcount (sv_i sw) =? 0 then delete (sv_ino sw) I else I) !! j = Some i ->
    I !! j = Some i /\ (j = sv_ino sw -> sfi_linkcount (sv_i sw) <> 0)) as Hsub.
  { intros j i. destruct (Z.eqb_spec (sfi_linkcount (sv_i sw)) 0); [|done]. intros [? ?]%lookup_delete_Some. split; [done|]. intros ->. done. }
  assert (dir_good s' (sv_i sv) /\ dir_slots s' (sv_i sv) = dir_slots s (sv_i sv)) as [Hg' Hsl'].
  { apply dir_bytes; [done|exact (nslots_pos _ _ _ _ _ Hr Hp)|]. intros m Hm. apply (Hb (sv_ino sv)); [by eapply rep_at|congruence|done]. }
  pose proof (fg_svs _ _ _ Hf) as Hsv. split; try done.
  - exists sv. rewrite Hsv, lookup_delete_ne by done. by rewrite Hsl'.
  - intros sd Hsd Hz. destruct (He sd Hsd Hz) as [? Hs]. split; [done|].
    destruct (Z.eqb_spec (sfi_linkcount (sv_i sw)) 0) as [E|]; [|done]. rewrite lookup_delete_ne; [done|].
    intros E'. rewrite Hlk in E. destruct (proj1 (nlinks_zero _ _) E sd Hsd). done.
  - intros j i [Hj _]%Hsub. by apply Hl.
  - intros j i [Hj Hjn]%Hsub Hz. destruct (Hh _ _ Hj Hz) as (r & sr & Hr0 & Er). exists r, sr. rewrite Hsv.
    rewrite lookup_delete_ne; [done|]. intros ->. simplify_eq. by apply Hjn.
  - intros r sr. rewrite Hsv, (fg_self _ _ _ Hf). intros [_ Hr0]%lookup_delete_Some. by eapply Hv.
Qed.

(** What is left of the files. *)
Lemma files_forget s I s' (sw : sfs_vnode) :
  (forall j i m, I !! j = Some i -> j <> sv_ino sw -> 0 <= m < FILE_LIMIT -> file_byte (dk s') i m = file_byte (dk s) i m) ->
  files s' (delete (sv_ino sw) I) = delete (sv_ino sw) (files s I).
Proof.
  intros Hb. transitivity (files s (delete (sv_ino sw) I)).
  - apply files_same; [done|]. intros j i i' _ Hi Hi'. simplify_eq. apply lookup_delete_Some in Hi as [Hne Hi].
    apply file_data_eq; [done|]. intros m Hm. by eapply Hb.
  - unfold files. by rewrite delete_delete, fmap_delete.
Qed.

(** *** References *)

(** The reference count of the vnode at [q] has changed. *)
Lemma tree_vnode lk s I O ps bs p l q sw v : tree_with lk s I O ps bs p l -> s_svs s !! q = Some sw ->
  vnode_ok v -> vn_countlock v = vn_countlock (sv_v sw) -> vn_ops v = vn_ops (sv_v sw) -> vn_fs v = vn_fs (sv_v sw) ->
  tree_with lk (with_svs (<[q := set_vnode v sw]> (s_svs s)) s) I O ps bs p l.
Proof.
  intros [Hr Ht (sv & Hp & Hino & Hg & Hsl) He Hl Hh Hv] Hq Hok Hcl Hops Hfs.
  split; [by apply rep_vnode|by apply table_vnode| |done|done|..]; simpl.
  - destruct (decide (p = q)) as [->|].
    + assert (sv = sw) as -> by congruence. exists (set_vnode v sw). rewrite lookup_insert_eq. split; [done|]. split; [done|].
      by split; [destruct Hg; split|].
    + exists sv. rewrite lookup_insert_ne by done. split; [done|]. split; [done|]. by split; [destruct Hg; split|].
  - intros j i Hj Hz. destruct (Hh _ _ Hj Hz) as (r & sr & Hr0 & Er). destruct (decide (r = q)) as [->|].
    + exists q, (set_vnode v sw). rewrite lookup_insert_eq. split; [done|]. by simplify_eq.
    + exists r, sr. by rewrite lookup_insert_ne.
  - intros r sr [[<- <-]|[_ Hr0]]%lookup_insert_Some; [|by eapply Hv]. simpl. rewrite Hops, Hfs. by apply (Hv q).
Qed.

(** A reference is dropped: the last one takes the vnode with it, and the file
    if it has no name. *)
Definition dropped_ref (q : Z) (sw : sfs_vnode) s I s' I' : Prop :=
  (forall r, r <> q -> s_svs s' !! r = s_svs s !! r) /\
  if vn_refcount (sv_v sw) >? 1
  then I' = I /\ files s' I' = files s I /\
    s_svs s' !! q = Some (set_vnode (set_refcount (vn_refcount (sv_v sw) - 1) (sv_v sw)) sw)
  else s_svs s' !! q = None /\
    if sfi_linkcount (sv_i sw) =? 0
    then I' = delete (sv_ino sw) I /\ files s' I' = delete (sv_ino sw) (files s I)
    else I' = I /\ files s' I' = files s I.

Lemma tree_decref s I O ps bs p l q sw : tree s I O ps bs p l -> s_svs s !! q = Some sw ->
  (vn_refcount (sv_v sw) = 1 -> q <> p /\ vn_opencount (sv_v sw) = 0) ->
  runs (vop_decref q) s
    (fun _ s' => exists I' O' ps', tree s' I' O' ps' bs p l /\ dropped_ref q sw s I s' I')
    (fun _ _ => False).
Proof.
  intros Htr Hq Hlast. pose proof Htr as [Hr Ht _ _ Hl _ Hv]. pose proof (tb_ok _ _ _ Ht _ _ Hq) as Hok.
  pose proof (decref_eq _ _ _ Hq Hok) as E. unfold dropped_ref.
  destruct (Z.gtb_spec (vn_refcount (sv_v sw)) 1) as [Hrc|Hrc].
  { eapply runs_intro_ret; [exact E|]. exists I, O, ps. split.
    - apply tree_vnode; try done. destruct Hok as (? & ? & ? & ?). split; [simpl; lia|]. done.
    - simpl. split; [intros r Hne; by rewrite lookup_insert_ne|]. split; [done|]. split; [done|]. apply lookup_insert_eq. }
  pose proof Hok as (? & _). destruct Hlast as [Hqp Hoc]; [lia|]. assert (vn_refcount (sv_v sw) = 1) as Hrc1 by lia.
  eapply runs_eq; [exact E|]. apply runs_bind, runs_result_of.
  destruct (Z.eqb_spec (sfi_linkcount (sv_i sw)) 0) as [Hz|Hz].
  - eapply runs_mono; [eapply reclaim_erased; try done| |done].
    { destruct (Hv _ _ Hq) as [-> _]. destruct (Hl (sv_ino sw) (sv_i sw)) as [-> _]; [by eapply rep_at| |done].
      intros Er. destruct (tr_root _ _ _ _ _ _ _ _ Htr) as (sv & Hp & Hino & _). destruct Hqp.
      apply (rep_unique _ _ _ Hr _ _ _ _ Hq Hp). congruence. }
    intros [] s' (O' & Hr' & _ & Hf & Hb & _ & ps' & Ht' & _). run. exists (delete (sv_ino sw) I), O', ps'.
    pose proof (fg_svs _ _ _ Hf) as Hsv. split.
    + eapply tree_forget; try done. by rewrite Hz.
    + split; [intros r Hne; by rewrite Hsv, lookup_delete_ne|]. split; [by rewrite Hsv, lookup_delete_eq|]. split; [done|].
      by apply files_forget.
  - eapply runs_mono; [by eapply reclaim_linked| |done].
    intros [] s' (Hr' & Hs & Hf & _ & ps' & Ht' & _). run. exists I, O, ps'. pose proof (fg_svs _ _ _ Hf) as Hsv. split.
    + eapply tree_forget; try done; [by rewrite (proj2 (Z.eqb_neq _ _) Hz)|]. intros j i m Hi _ Hm. by eapply same_files_byte.
    + split; [intros r Hne; by rewrite Hsv, lookup_delete_ne|]. split; [by rewrite Hsv, lookup_delete_eq|]. split; [done|].
      by apply files_same_files.
Qed.

End tree.
