(* ===== verification/SfsNames.v ===== *)
(** The SFS file system: creating, linking, renaming and removing files
    ([sfs_creat], [sfs_link], [sfs_rename] and [sfs_remove] of
    kern/fs/sfs/sfs_vnode.c).

    Each operation keeps the tree of SfsTree and does to the map of names and to
    the files what its name says. *)

From Stdlib Require Import ZArith Lia.
From stdpp Require Import prelude gmap list.
From S2P Require Import Prelude Str Heap Array Bitmap SynchObj Vnode Pages Copy Uio Device Lhd SfsDisk SfsFile SfsRep SfsSample SfsBmap SfsIo SfsDir SfsVnode SfsSync SfsTrunc SfsReclaim SfsTree.
Import Flat SimCard.

#[local] Arguments replicate : simpl never.

Section names.
Context {U D H : Type} `{BlockDevLaws U D} `{!Heap H} `{!HeapLaws H}.
Implicit Types (s : sfs U D H) (I : gmap Z sfs_inode) (O : gmap Z owner).

(** Somebody has the file open. *)
Definition in_use s (ino : Z) : Prop := exists q sw, s_svs s !! q = Some sw /\ sv_ino sw = ino.

Lemma inode_nonzero s I O ino i : fs_rep s I O -> I !! ino = Some i -> ino <> SFS_NOINO.
Proof.
  intros Hr Hi ->. destruct (rep_block _ _ _ _ _ Hr (ig_self _ _ _ _ (rep_inode _ _ _ Hr _ _ Hi))) as (? & _).
  unfold SFS_NOINO in *. lia.
Qed.

(** ** Looking up *)

Lemma tree_entries_ok lk s I O ps bs p l : tree_with lk s I O ps bs p l ->
  (forall ino, nlinks l ino <> 0 -> ino <> SFS_NOINO -> lk ino <> 0) -> entries_ok I l.
Proof.
  intros [_ _ _ He Hl _ _] Hlk sd Hsd Hz. destruct (He sd Hsd Hz) as [Hne [i Hi]]. exists i. split; [done|].
  destruct (Hl _ _ Hi Hne) as [-> ->]. split; [done|]. apply Hlk; [|done]. rewrite nlinks_zero. intros Hn. by destruct (Hn sd).
Qed.

Lemma tree_looked lk s I O ps bs p l s' : tree_with lk s I O ps bs p l -> looked s I s' bs -> s_svs s' = s_svs s ->
  exists O' ps', tree_with lk s' I O' ps' bs p l.
Proof.
  intros [Hr Ht (sv & Hp & Hino & Hg & Hsl) He Hl Hh Hv] ((O' & ps' & Hr' & Ht') & Hs & Hself) Hsv.
  exists O', ps'. split; try done; rewrite ?Hsv, ?Hself; try done.
  exists sv. split; [done|]. split; [done|]. split; [by eapply dir_good_stepped|].
  rewrite <- Hsl. by eapply dir_slots_stepped.
Qed.

(** The vnode of the file with this name, with one reference more. *)
Lemma tree_lookonce s I O ps bs p l name : tree s I O ps bs p l -> refs_ok s -> name_ok name ->
  runs (sfs_lookonce p name) s
    (fun '(q, k) s' => exists ino i O' ps', entry_at l name (Some (ino, k)) /\ I !! ino = Some i /\
       loaded s s' ino i q /\ q <> p /\ tree s' I O' ps' bs p l /\ files s' I = files s I)
    (fun e s' => exists O' ps', tree s' I O' ps' bs p l /\ files s' I = files s I /\
       ((e = ENOENT /\ dir_map l !! name = None) \/ e = ENOMEM)).
Proof.
  intros Htr Hrc Hn. pose proof Htr as [Hr Ht (sv & Hp & Hino & Hg & Hsl) He _ _ _].
  eapply runs_mono; [eapply (lookonce_spec p sv s I O ps bs name); try done|..]; rewrite ?Hsl.
  - eapply tree_entries_ok; [exact Htr|done].
  - intros [q k] s' (Hlk & ino & i & Hent & Hi & Hld). pose proof Hent as (_ & sd & Hsd & <- & Hnz & _).
    destruct (He sd) as [Hne _]; [by eapply list_elem_of_lookup_2|done|].
    destruct (tree_loaded _ _ _ _ _ _ _ _ _ _ _ _ Htr Hlk Hld Hi Hne) as (? & O' & ps' & ?).
    exists (sfd_ino sd), i, O', ps'. split_and!; try done. apply files_same_files, Hlk.
  - intros e s' (Hlk & Hsv & He'). destruct (tree_looked _ _ _ _ _ _ _ _ _ Htr Hlk Hsv) as (O' & ps' & ?).
    exists O', ps'. split; [done|]. split; [apply files_same_files, Hlk|]. destruct He' as [[-> Hno]|]; [left|by right].
    split; [done|]. rewrite (entry_map l name None); [done| |done]. rewrite <- Hsl. apply Hg.
Qed.

(** ** Unlinking *)

Lemma entry_links s I O ps bs p l q sw k name : tree s I O ps bs p l -> s_svs s !! q = Some sw ->
  entry_at l name (Some (sv_ino sw, k)) ->
  sfi_linkcount (sv_i sw) = nlinks l (sv_ino sw) /\ 0 < nlinks l (sv_ino sw) < 2 ^ 16.
Proof.
  intros [Hr _ _ He Hl _ _] Hq (Hk & sd & Hsd & Ei & Hnz & _). apply list_elem_of_lookup_2 in Hsd.
  destruct (He sd Hsd) as [Hne _]; [congruence|].
  assert (sfi_linkcount (sv_i sw) = nlinks l (sv_ino sw)) as Hlc by (apply Hl; [by eapply rep_at|congruence]).
  split; [done|]. pose proof (ish_linkcount _ (ig_shape _ _ _ _ (rep_good _ _ _ _ _ Hr Hq))).
  destruct (decide (nlinks l (sv_ino sw) = 0)) as [E|]; [|lia]. by destruct (proj1 (nlinks_zero _ _) E sd).
Qed.

(** An entry is taken out and the link count of its file lowered. *)
Lemma tree_unlink s I O ps bs p l q sw ino k name : tree s I O ps bs p l -> s_svs s !! q = Some sw -> q <> p ->
  sv_ino sw = ino -> entry_at l name (Some (ino, k)) ->
  runs (sfs_dir_unlink p k) s
    (fun _ s1 => s_svs s1 !! q = Some sw /\ sfi_linkcount (sv_i sw) = nlinks l ino /\ 0 < nlinks l ino /\
       exists s2 sw' I' O' l', inode_modify q (linkcount_add (-1)) s1 = (Ret tt, s2) /\ s_svs s2 !! q = Some sw' /\
         sv_v sw' = sv_v sw /\ sv_ino sw' = ino /\ sfi_linkcount (sv_i sw') = nlinks l ino - 1 /\
         (forall r, r <> p -> r <> q -> s_svs s2 !! r = s_svs s !! r) /\
         tree s2 I' O' ps bs p l' /\ dir_map l' = delete name (dir_map l) /\ files s2 I' = files s I)
    (fun _ _ => False).
Proof.
  intros Htr Hq Hqp Hino Hent. pose proof Htr as [Hr Ht (sv & Hp & Hroot & Hg & Hsl) He Hl _ _].
  pose proof Hent as (Hk & sd & Hsd & Esd & Hlive & _). pose proof (lookup_lt_Some _ _ _ Hsd) as Hlt.
  assert (names_unique l) as Hu by (rewrite <- Hsl; apply Hg).
  destruct (entry_links _ _ _ _ _ _ _ q sw k name Htr Hq) as [Hlc [Hpos Hbig]]; [by rewrite Hino|]. rewrite Hino in Hlc, Hpos, Hbig.
  assert (0 <= k < nslots (sv_i sv)) as Hkn by (rewrite <- Hsl, length_dir_slots in Hlt; lia).
  eapply runs_mono; [eapply (dir_unlink_live p sv s I O k); try done| |done].
  - rewrite <- Hsl, dir_slots_at in Hsd by done. injection Hsd as E. by rewrite E, Esd.
  - intros [] s1 [Hu' Hd]. rewrite Hsl in *. change (mk_dir SFS_NOINO (replicate 60 0)) with blank in *.
    pose proof Hd as (Hkp & _). assert (s_svs s1 !! q = Some sw) as Hq1 by (by rewrite (kp_svs _ _ _ Hkp)).
    split; [done|]. split; [done|]. split; [done|].
    destruct (tree_dir _ _ _ _ _ _ _ _ sv (put_slot l k blank) s1 Htr Hp Hd Hu') as (I1 & O1 & Htr1 & Hf1 & _).
    { intros x Hx Hxz. apply put_slot_elem in Hx as [->|(j & _ & Hj)]; [done| |lia].
      apply He; [by eapply list_elem_of_lookup_2|done]. }
    destruct (tree_count _ _ _ _ _ _ _ _ q sw (-1) Htr1 Hq1 Hqp) as (s2 & sw' & Hm & Hsv2 & Hv' & Hi' & Hl' & I2 & Htr2 & Hf2 & _); [rewrite Hino; lia|].
    rewrite Hino in *. exists s2, sw', I2, O1, (put_slot l k blank). split_and!; try done.
    + by rewrite Hsv2, lookup_insert_eq.
    + intros r Hrp Hrq. by rewrite Hsv2, lookup_insert_ne, (kp_svs _ _ _ Hkp).
    + eapply tree_ext; [exact Htr2|]. intros j x Hx Hj. rewrite (nlinks_blank l k name ino); [|done|by apply (inode_nonzero _ _ _ _ _ (tr_rep _ _ _ _ _ _ _ _ Htr2) Hx)].
      destruct (Z.eqb_spec ino j), (Z.eqb_spec j ino); lia.
    + by eapply dir_map_blank.
    + congruence.
Qed.

(** ** Linking *)

Lemma dir_short s I O ps bs p l lk : tree_with lk s I O ps bs p l -> Z.of_nat (length l) <= 1144.
Proof.
  intros [Hr _ (sv & Hp & _ & [_ Hsz Hlim _] & <-) _ _ _ _]. rewrite length_dir_slots.
  pose proof (nslots_pos _ _ _ _ _ Hr Hp). assert (FILE_LIMIT = 73216) by done. lia.
Qed.

(** Why an entry cannot be made. *)
Definition link_error (l : list sfs_dir) (name : list Z) (e : Z) : Prop :=
  (e = EEXIST /\ is_Some (dir_map l !! name)) \/ (e = ENAMETOOLONG /\ (60 <= length name)%nat) \/
  e = ENOSPC \/ (e = EINVAL /\ length l = 1144%nat).

Lemma put_new_entry l k ino name : names_unique l -> free_slot l k -> slot_name (new_entry ino name) = name ->
  ino <> SFS_NOINO -> entry_at (put_slot l k (new_entry ino name)) name (Some (ino, k)).
Proof.
  intros Hu Hfree Hnm Hnz. assert (0 <= k <= Z.of_nat (length l)) as Hk.
  { destruct Hfree as [(? & sd & ?%lookup_lt_Some & _)| ->]; lia. }
  split; [lia|]. exists (new_entry ino name). split_and!; try done.
  pose proof (length_put_slot l k (new_entry ino name) Hk). rewrite put_slot_lookup by lia.
  by rewrite Z2Nat.id, Z.eqb_refl by lia.
Qed.

(** An entry is made and the link count of its file raised. *)
Lemma tree_link s I O ps bs p l q sw name : tree s I O ps bs p l -> s_svs s !! q = Some sw -> q <> p ->
  name_ok name -> Z.of_nat (length name) < 2 ^ 32 - 1 ->
  let ino := sv_ino sw in
  runs (sfs_dir_link p name ino) s
    (fun k s1 => s_svs s1 !! q = Some sw /\ dir_map l !! name = None /\ free_slot l k /\
       exists s2 sw' I' O', inode_modify q (linkcount_add 1) s1 = (Ret tt, s2) /\ s_svs s2 !! q = Some sw' /\
         sv_v sw' = sv_v sw /\ sv_ino sw' = ino /\ sfi_linkcount (sv_i sw') = nlinks l ino + 1 /\
         (forall r, r <> p -> r <> q -> s_svs s2 !! r = s_svs s !! r) /\
         let l' := put_slot l k (new_entry ino name) in
         tree s2 I' O' ps bs p l' /\ entry_at l' name (Some (ino, k)) /\
         dir_map l' = <[name := ino]> (dir_map l) /\ files s2 I' = files s I)
    (fun e s1 => link_error l name e /\ exists I' O', s_svs s1 !! q = Some sw /\
       tree s1 I' O' ps bs p l /\ files s1 I' = files s I /\ dom I' = dom I).
Proof.
  intros Htr Hq Hqp Hn Hlen ino. pose proof Htr as [Hr Ht (sv & Hp & Hroot & Hg & Hsl) He Hl _ _].
  assert (names_unique l) as Hu by (rewrite <- Hsl; apply Hg).
  pose proof (rep_at _ _ _ _ _ Hr Hq) as Hi. pose proof (inode_nonzero _ _ _ _ _ Hr Hi) as Hnz. fold ino in Hi, Hnz.
  assert (ino <> SFS_ROOT_LOCATION) as Hne.
  { intros E. destruct Hqp. apply (rep_unique _ _ _ Hr _ _ _ _ Hq Hp). fold ino. congruence. }
  assert (word32 ino) as Hw.
  { destruct (rep_block _ _ _ _ _ Hr (ig_self _ _ _ _ (rep_inode _ _ _ Hr _ _ Hi))) as (? & _).
    destruct (rep_nblocks _ _ _ Hr). unfold word32. lia. }
  pose proof (dir_short _ _ _ _ _ _ _ _ Htr) as Hshort. pose proof (nlinks_pos l ino) as Hpos.
  eapply runs_mono; [eapply (dir_link_spec p sv s I O name ino); done|..]; rewrite Hsl.
  - intros k s1 (Hno & Hlen' & Hfree & Hu' & Hd). destruct (new_entry_shape ino name Hw Hn Hlen') as [_ Hnm].
    pose proof Hd as (Hkp & _). assert (s_svs s1 !! q = Some sw) as Hq1 by (by rewrite (kp_svs _ _ _ Hkp)).
    split; [done|]. split; [by rewrite (entry_map l name None)|]. split; [done|].
    destruct (tree_dir _ _ _ _ _ _ _ _ sv (put_slot l k (new_entry ino name)) s1 Htr Hp Hd Hu') as (I1 & O1 & Htr1 & Hf1 & _).
    { intros x Hx Hxz. apply put_slot_elem in Hx as [->|(j & _ & Hj)]; [by split; [|eexists]| |].
      - apply He; [by eapply list_elem_of_lookup_2|done].
      - destruct Hfree as [(? & sd & ?%lookup_lt_Some & _)| ->]; lia. }
    destruct (tree_count _ _ _ _ _ _ _ _ q sw 1 Htr1 Hq1 Hqp) as (s2 & sw' & Hm & Hsv2 & Hv' & Hi' & Hl' & I2 & Htr2 & Hf2 & _); [fold ino; lia|].
    exists s2, sw', I2, O1. fold ino in Hi', Hl', Htr2. cbv zeta. split_and!; try done.
    + by rewrite Hsv2, lookup_insert_eq.
    + intros r Hrp Hrq. by rewrite Hsv2, lookup_insert_ne, (kp_svs _ _ _ Hkp).
    + eapply tree_ext; [exact Htr2|]. intros j x Hx Hj.
      rewrite nlinks_new; [|done|by apply (inode_nonzero _ _ _ _ _ (tr_rep _ _ _ _ _ _ _ _ Htr2) Hx)].
      destruct (Z.eqb_spec ino j), (Z.eqb_spec j ino); lia.
    + by apply put_new_entry.
    + by apply dir_map_new.
    + congruence.
  - intros e s1 [Hd Herr]. pose proof Hd as (Hkp & _). split.
    { destruct Herr as [[-> [r Hr0]]|[[-> ?]|[[[-> _]|[-> Hlim]]|[-> _]]]].
      - left. split; [done|]. rewrite (entry_map l name (Some r)) by done. by eexists.
      - right. left. done.
      - right. right. by left.
      - right. right. right. split; [done|]. assert (FILE_LIMIT = 73216) by done. lia.
      - right. right. by left. }
    destruct (tree_dir _ _ _ _ _ _ _ _ sv l s1 Htr Hp Hd Hu He) as (I1 & O1 & Htr1 & Hf1 & Hd1).
    exists I1, O1. by rewrite (kp_svs _ _ _ Hkp).
Qed.

(** The vnode that a lookup hands out. *)
Lemma loaded_refs s s' ino i q sw : loaded s s' ino i q -> s_svs s' !! q = Some sw ->
  (forall r sr, s_svs s !! r = Some sr -> 0 < vn_refcount (sv_v sr)) ->
  (forall r r' sr sr', s_svs s' !! r = Some sr -> s_svs s' !! r' = Some sr' -> sv_ino sr = sv_ino sr' -> r = r') ->
  sv_ino sw = ino /\ (vn_refcount (sv_v sw) = 1 -> vn_opencount (sv_v sw) = 0) /\ (1 < vn_refcount (sv_v sw) <-> in_use s ino).
Proof.
  intros (sv & Hsv & Hino & Hi & Hq) Hw Hpos Hun. rewrite Hsv, lookup_insert_eq in Hw. injection Hw as <-. split; [done|].
  destruct (s_svs s !! q) as [sv0|] eqn:E0.
  - specialize (Hpos _ _ E0). subst sv. simpl in *. split; [lia|]. split; [|lia]. intros _. by exists q, sv0.
  - destruct Hq as (Hrc & Hoc & _). split; [done|]. split; [lia|]. intros (r & sr & Hr & Er).
    assert (r = q) as ->; [|congruence]. apply (Hun r q sr sv); [|by rewrite Hsv, lookup_insert_eq|congruence].
    rewrite Hsv, lookup_insert_ne; [done|]. congruence.
Qed.

(** What a lookup hands out, in terms of the vnode. *)
Lemma looked_vnode s I O ps bs p l s1 O1 ps1 ino i q k name : tree s I O ps bs p l -> loaded s s1 ino i q ->
  tree s1 I O1 ps1 bs p l -> entry_at l name (Some (ino, k)) ->
  exists sw, s_svs s1 !! q = Some sw /\ sv_ino sw = ino /\
    sfi_linkcount (sv_i sw) = nlinks l ino /\ 0 < nlinks l ino /\ sfi_type (sv_i sw) = SFS_TYPE_FILE /\
    (vn_refcount (sv_v sw) = 1 -> vn_opencount (sv_v sw) = 0) /\ (1 < vn_refcount (sv_v sw) <-> in_use s ino) /\
    0 < vn_refcount (sv_v sw) /\ dir_map l !! name = Some ino.
Proof.
  intros Htr Hld Htr1 Hent.
  assert (exists sw, s_svs s1 !! q = Some sw) as [sw Hq1].
  { destruct Hld as (sw & -> & _). exists sw. apply lookup_insert_eq. }
  destruct (loaded_refs s s1 ino i q sw Hld Hq1) as (Hino & Hoc & Huse).
  { intros r sr Hr0. by destruct (tb_ok _ _ _ (tr_table _ _ _ _ _ _ _ _ Htr) _ _ Hr0) as ((? & _) & _). }
  { apply (rep_unique _ _ _ (tr_rep _ _ _ _ _ _ _ _ Htr1)). }
  destruct (entry_links _ _ _ _ _ _ _ q sw k name Htr1 Hq1) as [Hlc Hpos]; [by rewrite Hino|]. rewrite Hino in Hlc, Hpos.
  exists sw. split_and!; try done; try lia.
  - pose proof Htr1 as [Hr1 _ _ He Hl _ _]. apply (Hl ino); [rewrite <- Hino; by eapply rep_at|].
    pose proof Hent as (_ & sd & Hsd & <- & Hnz & _). apply (He sd); [by eapply list_elem_of_lookup_2|done].
  - by destruct (tb_ok _ _ _ (tr_table _ _ _ _ _ _ _ _ Htr1) _ _ Hq1) as ((? & _) & _).
  - rewrite (entry_map l name (Some (ino, k))); [done| |done].
    destruct (tr_root _ _ _ _ _ _ _ _ Htr) as (sv & _ & _ & Hg & <-). apply Hg.
Qed.

(** ** [sfs_remove] *)

Lemma remove_spec s I O ps bs p l name : tree s I O ps bs p l -> refs_ok s -> name_ok name ->
  runs (sfs_remove p name) s
    (fun _ s' => exists ino I' O' ps' l', dir_map l !! name = Some ino /\
       tree s' I' O' ps' bs p l' /\ dir_map l' = delete name (dir_map l) /\
       (nlinks l ino = 1 -> ~ in_use s ino -> files s' I' = delete ino (files s I)) /\
       (nlinks l ino <> 1 \/ in_use s ino -> files s' I' = files s I))
    (fun e s' => exists I' O' ps', tree s' I' O' ps' bs p l /\ files s' I' = files s I /\
       ((e = ENOENT /\ dir_map l !! name = None) \/ e = ENOMEM)).
Proof.
  intros Htr Hrc Hn. unfold sfs_remove. apply runs_bind. eapply runs_mono; [by eapply tree_lookonce|..].
  2:{ intros e s' (O' & ps' & ? & ? & Hex). exists I, O', ps'. tauto. }
  intros [q k] s1 (ino & i & O1 & ps1 & Hent & Hi & Hld & Hqp & Htr1 & Hf1).
  destruct (looked_vnode _ _ _ _ _ _ _ _ _ _ _ _ _ _ _ Htr Hld Htr1 Hent) as
    (sw & Hq1 & Hino & _ & _ & _ & Hoc & Huse & Hrpos & Hmap).
  run. eapply runs_mono; [by eapply tree_unlink| |done].
  intros [] s2 (Hq2 & Hlc & Hpos & s3 & sw' & I3 & O3 & l' & Hm & Hq3 & Hv3 & Hi3 & Hlc3 & _ & Htr3 & Hmap3 & Hf3).
    run. cbn [Z.eqb]. run. apply runs_bind. eapply runs_intro_ret; [by apply sv_get_eq|]. run; [lia|].
    eapply runs_intro_ret; [exact Hm|]. run.
    eapply runs_mono; [eapply tree_decref; [done|done|rewrite Hv3; auto]| |done].
    intros [] s4 (I4 & O4 & ps4 & Htr4 & _ & Hd). run. exists ino, I4, O4, ps4, l'. split_and!; try done.
    + intros Hone Hnu. rewrite Hv3, Hlc3, Hone, Hi3 in Hd. destruct (Z.gtb_spec (vn_refcount (sv_v sw)) 1); [tauto|].
      destruct Hd as (_ & _ & ->). congruence.
    + intros Hor. rewrite Hv3, Hlc3, Hi3 in Hd. destruct (Z.gtb_spec (vn_refcount (sv_v sw)) 1) as [|Hle]; [destruct Hd as (_ & -> & _); congruence|].
      destruct Hor as [Hne|Hu]; [|apply Huse in Hu; lia]. rewrite (proj2 (Z.eqb_neq _ _)) in Hd by lia.
      destruct Hd as (_ & _ & ->). congruence.
Qed.

(** ** [sfs_link] *)

Lemma link_spec s I O ps bs p l q sw name : tree s I O ps bs p l -> s_svs s !! q = Some sw -> q <> p ->
  name_ok name -> Z.of_nat (length name) < 2 ^ 32 - 1 ->
  runs (sfs_link p name q) s
    (fun _ s' => exists I' O' l', dir_map l !! name = None /\ tree s' I' O' ps bs p l' /\
       dir_map l' = <[name := sv_ino sw]> (dir_map l) /\ files s' I' = files s I)
    (fun e s' => link_error l name e /\ exists I' O', tree s' I' O' ps bs p l /\ files s' I' = files s I).
Proof.
  intros Htr Hq Hqp Hn Hlen. pose proof Htr as [_ _ (sv & Hp & _) _ _ _ Hv]. unfold sfs_link.
  apply runs_bind. eapply runs_intro_ret; [by apply sv_get_eq|].
  apply runs_bind. eapply runs_intro_ret; [by apply sv_get_eq|].
  destruct (Hv _ _ Hp) as [_ ->], (Hv _ _ Hq) as [_ ->]. run; [by rewrite Z.eqb_refl|].
  eapply runs_mono; [by eapply tree_link|..].
  - intros k s1 (_ & Hno & _ & s2 & sw' & I' & O' & Hm & _ & _ & _ & _ & _ & Htr' & _ & Hmap & Hf).
    eapply runs_intro_ret; [exact Hm|]. by exists I', O', (put_slot l k (new_entry (sv_ino sw) name)).
  - intros e s1 (He & I' & O' & _ & Htr' & Hf & _). split; [done|]. by exists I', O'.
Qed.

(** ** [sfs_rename] *)

(** Dropping the reference of a lookup, for a file that has a name. *)
Lemma drop_lookup F s I O ps bs p l q sw : tree s I O ps bs p l -> s_svs s !! q = Some sw -> q <> p ->
  sfi_linkcount (sv_i sw) <> 0 -> (vn_refcount (sv_v sw) = 1 -> vn_opencount (sv_v sw) = 0) -> files s I = F ->
  runs (vop_decref q) s
    (fun _ s' => exists I' O' ps', tree s' I' O' ps' bs p l /\ files s' I' = F) (fun _ _ => False).
Proof.
  intros Htr Hq Hqp Hlc Hoc <-. eapply runs_mono; [eapply tree_decref; [done|done|auto]| |done].
  intros [] s' (I' & O' & ps' & Htr' & _ & Hd). exists I', O', ps'. split; [done|].
  destruct (vn_refcount (sv_v sw) >? 1); [by destruct Hd as (_ & -> & _)|].
  rewrite (proj2 (Z.eqb_neq _ _) Hlc) in Hd. by destruct Hd as (_ & _ & ->).
Qed.

(** Another entry is where it was. *)
Lemma entry_put l k k' ino ino' name name' : free_slot l k' -> entry_at l name (Some (ino, k)) ->
  entry_at (put_slot l k' (new_entry ino' name')) name (Some (ino, k)).
Proof.
  intros Hfree (Hk & sd & Hsd & Hino & Hnz & Hnm). split; [done|]. exists sd. split; [|done].
  pose proof (lookup_lt_Some _ _ _ Hsd).
  assert (0 <= k' <= Z.of_nat (length l) /\ k <> k') as [Hk' Hne].
  { destruct Hfree as [(? & sx & Hsx & ?)| ->]; [|lia]. pose proof (lookup_lt_Some _ _ _ Hsx).
    split; [lia|]. intros ->. congruence. }
  pose proof (length_put_slot l k' (new_entry ino' name') Hk'). rewrite put_slot_lookup by lia.
  rewrite Z2Nat.id by lia. by rewrite (proj2 (Z.eqb_neq _ _) Hne).
Qed.

Lemma rename_spec s I O ps bs p l n1 n2 : tree s I O ps bs p l -> refs_ok s -> name_ok n1 -> name_ok n2 ->
  Z.of_nat (length n2) < 2 ^ 32 - 1 ->
  runs (sfs_rename p n1 p n2) s
    (fun _ s' => exists ino I' O' ps' l', dir_map l !! n1 = Some ino /\ dir_map l !! n2 = None /\
       tree s' I' O' ps' bs p l' /\ dir_map l' = delete n1 (<[n2 := ino]> (dir_map l)) /\ files s' I' = files s I)
    (fun e s' => exists I' O' ps', tree s' I' O' ps' bs p l /\ files s' I' = files s I /\
       ((e = ENOENT /\ dir_map l !! n1 = None) \/ e = ENOMEM \/ link_error l n2 e)).
Proof.
  intros Htr Hrc Hn1 Hn2 Hlen. pose proof Htr as [_ _ (sv & Hp & Hroot & _) _ _ _ _].
  unfold sfs_rename. run; [by rewrite Z.eqb_refl|]. eapply runs_intro_ret; [by apply sv_get_eq|].
  run; [by rewrite Hroot|]. eapply runs_mono; [by eapply tree_lookonce|..].
  2:{ intros e s' (O' & ps' & ? & ? & Hex). exists I, O', ps'. tauto. }
  intros [q k] s1 (ino & i & O1 & ps1 & Hent & Hi & Hld & Hqp & Htr1 & Hf1).
  destruct (looked_vnode _ _ _ _ _ _ _ _ _ _ _ _ _ _ _ Htr Hld Htr1 Hent) as
    (sw & Hq1 & Hino & Hlc & Hpos & Hty & Hoc & _ & _ & Hmap).
  apply runs_bind. eapply runs_intro_ret; [by apply sv_get_eq|]. run; [by rewrite Hty|]. rewrite Hino.
  pose proof (tree_link _ _ _ _ _ _ _ _ _ n2 Htr1 Hq1 Hqp Hn2 Hlen) as Hlink. cbv zeta in Hlink. rewrite Hino in Hlink.
  eapply runs_mono; [exact Hlink|..].
  2:{ intros e s2 (He & I2 & O2 & Hq2 & Htr2 & Hf2 & _). apply runs_bind.
      eapply runs_mono; [eapply (drop_lookup (files s I)); try done; [lia|congruence]| |done].
      intros [] s3 (I3 & O3 & ps3 & Htr3 & Hf3). run. exists I3, O3, ps3. auto. }
  intros k2 s2 (Hq2 & Hno & Hfree & s3 & sw3 & I3 & O3 & Hm3 & Hq3 & Hv3 & Hi3 & Hl3 & _ & Htr3 & Hent3 & Hmap3 & Hf3).
  apply runs_bind. eapply runs_intro_ret; [exact Hm3|]. run.
  pose proof (entry_put _ _ k2 _ ino _ n2 Hfree Hent) as Hent1.
  eapply runs_mono; [by eapply tree_unlink| |done].
  intros [] s4 (Hq4 & Hlc4 & Hpos4 & s5 & sw5 & I5 & O5 & l5 & Hm5 & Hq5 & Hv5 & Hi5 & Hl5 & _ & Htr5 & Hmap5 & Hf5).
  run. cbn [Z.eqb]. apply runs_bind. eapply runs_intro_ret; [by apply sv_get_eq|]. run; [lia|].
  eapply runs_intro_ret; [exact Hm5|].
  eapply runs_mono; [eapply (drop_lookup (files s I)); try done; [|by rewrite Hv5, Hv3|congruence]| |done].
  { rewrite Hl5. rewrite <- Hlc4, Hl3. lia. }
  intros [] s6 (I6 & O6 & ps6 & Htr6 & Hf6). exists ino, I6, O6, ps6, l5. split_and!; try done.
  by rewrite Hmap5, Hmap3.
Qed.

(** ** [sfs_makeobj] *)

(** The inode on a block of zeros, and the empty file. *)
Definition zero_inode : sfs_inode := mk_inode 0 SFS_TYPE_INVAL 0 (replicate 15 0) 0 (replicate 110 0).
Definition empty_file : Z * list (list Z) := (0, replicate 143 (replicate 512 0)).

Lemma encode_zero_inode : encode_inode zero_inode = zero_block.
Proof. vm_compute. reflexivity. Qed.

Lemma zero_inode_shape : inode_shape zero_inode.
Proof.
  assert (forall n, Forall word32 (replicate n 0)) as Hw by (intros; by apply Forall_replicate).
  split; simpl; try done; by split.
Qed.

Lemma fblock_zero d k : fblock d zero_inode k = 0.
Proof. unfold fblock. simpl. rewrite nth0_zero. by destruct (k <? SFS_NDIRECT). Qed.

Lemma zero_good d O b : O !! b = Some OInode -> inode_good d O b zero_inode.
Proof.
  intros Ho. split; [apply zero_inode_shape|done|done|done|]. intros k _. by rewrite fblock_zero.
Qed.

(** A block that is in use but belongs to nothing becomes an inode. *)
Lemma rep_new s I O b : fs_rep s I O -> O !! b = None -> usable (nblocks s) b -> marked (s_freemap s) b = true ->
  dk s b = zero_block -> I !! b = None /\ (forall q sw, s_svs s !! q = Some sw -> sv_ino sw <> b) /\
  fs_rep s (<[b := zero_inode]> I) (<[b := OInode]> O).
Proof.
  intros Hr Hob Hu Hm Hz. assert (I !! b = None) as Hib.
  { destruct (I !! b) eqn:E; [|done]. pose proof (ig_self _ _ _ _ (rep_inode _ _ _ Hr _ _ E)). congruence. }
  split; [done|]. pose proof Hr as [? ? ? ? ? ? ? ? Hown Hin Hlo Hun Hul].
  assert (O ⊆ <[b := OInode]> O) as Hsub by (by apply insert_subseteq). split.
  { intros q sw Hq <-. destruct (Hlo _ _ Hq). congruence. }
  split; try done.
  - intros c o [[<- <-]|[_ Ho]]%lookup_insert_Some; [done|by eapply Hown].
  - intros j i [[<- <-]|[_ Hi]]%lookup_insert_Some; [apply zero_good, lookup_insert_eq|].
    by eapply good_mono; [done| |by apply Hin].
  - intros q sw Hq. destruct (Hlo _ _ Hq) as [Hi ?]. split; [|done]. rewrite lookup_insert_ne; [done|]. congruence.
  - intros j i [[<- <-]|[_ Hi]]%lookup_insert_Some Hno; [|by apply Hul]. by rewrite encode_zero_inode.
Qed.

(** An inode that is not loaded and owns nothing is forgotten. *)
Lemma rep_drop s I O b i : fs_rep s (<[b := i]> I) (<[b := OInode]> O) -> I !! b = None -> O !! b = None ->
  (forall q sw, s_svs s !! q = Some sw -> sv_ino sw <> b) -> fs_rep s I O.
Proof.
  intros [? ? ? ? ? ? ? ? Hown Hin Hlo Hun Hul] Hi Ho Hno.
  assert (forall j x, I !! j = Some x -> j <> b /\ <[b := i]> I !! j = Some x) as Hj.
  { intros j x Hx. assert (j <> b) by congruence. by rewrite lookup_insert_ne. }
  assert (forall c o, <[b := OInode]> O !! c = Some o -> o <> OInode \/ c <> b -> O !! c = Some o) as Hc.
  { intros c o [[<- <-]|[_ ?]]%lookup_insert_Some [?|?]; done. }
  split; try done.
  - intros c o Hco. apply (Hown c o). rewrite lookup_insert_ne; [done|]. congruence.
  - intros j x [Hne Hx]%Hj. destruct (Hin _ _ Hx) as [? ? Hself Hd1 Hd2]. split; try done.
    + apply Hc; auto.
    + intros Hz. apply Hc; [by apply Hd1|by left].
    + intros k Hk Hz. apply Hc; [by apply Hd2|by left].
  - intros q sw Hq. destruct (Hlo _ _ Hq) as [Hx ?]. split; [|done]. rewrite lookup_insert_ne in Hx; [done|].
    intros E. by destruct (Hno _ _ Hq).
  - intros j x [_ Hx]%Hj. by apply Hul.
Qed.

(** The file system reads the same and has the same vnodes. *)
Lemma quiet_looked s I O s' ps bs : table s ps bs -> fs_rep s' I O -> same_files (dk s) I (dk s') I ->
  (exists p, kept p s s') -> s_svs s' = s_svs s -> looked s I s' bs.
Proof.
  intros Ht Hr Hs [p Hk] Hsv. split; [|split; [done|apply Hk]]. exists O, ps. split; [done|].
  eapply table_same; [done|apply Hk|apply Hk|done].
Qed.

Lemma file_data_zero s i : sfi_size i = 0 -> (forall k, fblock (dk s) i k = 0) -> file_data s i = empty_file.
Proof.
  intros Hsz Hb. unfold file_data, empty_file. rewrite Hsz. apply (f_equal (pair _)).
  apply list_eq. intros k. rewrite list_lookup_fmap. change MAXBLOCKS with 143.
  destruct (decide (k < 143)%nat) as [Hk|]; [|by rewrite lookup_seqZ_ge, lookup_ge_None_2 by (rewrite ?length_replicate; lia)].
  rewrite (proj2 (lookup_seqZ 0 143 k (Z.of_nat k))), lookup_replicate_2 by lia. simpl. apply (f_equal Some).
  apply (list_eq_nth _ _ 512); [unfold file_bytes; by rewrite length_map, length_seqZ|by rewrite length_replicate|].
  intros q Hq. unfold file_bytes. rewrite nth_map_seqZ by (unfold SFS_BLOCKSIZE; lia).
  fold (nth0 (replicate 512 0) q). rewrite nth0_zero. unfold file_byte. by rewrite Hb.
Qed.

(** A new file is entered in the tree. *)
Lemma tree_new s I O ps bs p l b q v s' O' ps' : tree s I O ps bs p l -> I !! b = None -> b <> SFS_ROOT_LOCATION ->
  s_svs s !! q = None -> vn_ops v = Some sfs_fileops -> vn_fs v = s_self s ->
  s_svs s' = <[q := mk_sv v (set_type SFS_TYPE_FILE zero_inode) b true]> (s_svs s) ->
  fs_rep s' (<[b := set_type SFS_TYPE_FILE zero_inode]> I) O' -> table s' ps' bs -> s_self s' = s_self s ->
  same_files (dk s) I (dk s') I ->
  tree s' (<[b := set_type SFS_TYPE_FILE zero_inode]> I) O' ps' bs p l /\
  files s' (<[b := set_type SFS_TYPE_FILE zero_inode]> I) = <[b := empty_file]> (files s I).
Proof.
  intros [Hr Ht (sv & Hp & Hino & Hg & Hsl) He Hl Hh Hv] Hb Hbr Hq Hops Hfs Hsv Hr' Ht' Hself Hs.
  assert (q <> p) as Hqp by congruence. split.
  - split; try done.
    + exists sv. rewrite Hsv, lookup_insert_ne by done. split; [done|]. split; [done|].
      split; [by eapply dir_good_stepped|]. rewrite <- Hsl. by eapply dir_slots_stepped.
    + intros sd Hsd Hz. destruct (He sd Hsd Hz) as [? [i Hi]]. split; [done|]. exists i.
      rewrite lookup_insert_ne; [done|]. congruence.
    + intros j i [[<- <-]|[_ Hi]]%lookup_insert_Some; [|by apply Hl]. intros _. split; [done|]. symmetry.
      apply nlinks_zero. intros sd Hsd E. assert (sfd_ino sd <> SFS_NOINO) as Hz.
      { rewrite E. intros ->. destruct (rep_block _ _ _ _ _ Hr' (ig_self _ _ _ _ (rep_inode _ _ _ Hr' _ _ (lookup_insert_eq _ _ _)))) as (? & _).
        unfold SFS_NOINO in *. lia. }
      destruct (He sd Hsd Hz) as [_ [i Hi]]. congruence.
    + intros j i [[<- <-]|[_ Hi]]%lookup_insert_Some Hz; rewrite Hsv.
      * eexists q, _. by rewrite lookup_insert_eq.
      * destruct (Hh _ _ Hi Hz) as (r & sr & Hr0 & Er). exists r, sr. rewrite lookup_insert_ne; [done|]. congruence.
    + intros r sr. rewrite Hsv, Hself. intros [[<- <-]|[_ Hr0]]%lookup_insert_Some; [done|by eapply Hv].
  - apply map_eq. intros j. destruct (decide (j = b)) as [->|Hne].
    + rewrite lookup_insert_eq. apply files_lookup. split; [done|]. eexists. rewrite lookup_insert_eq.
      split; [done|]. apply file_data_zero; [done|]. intros k. apply (fblock_zero (dk s')).
    + rewrite lookup_insert_ne by done. rewrite <- (files_same_files _ _ _ Hs). unfold files.
      rewrite !lookup_fmap. apply (f_equal (fmap _)). destruct (decide (j = SFS_ROOT_LOCATION)) as [->|].
      * by rewrite !lookup_delete_eq.
      * by rewrite !lookup_delete_ne, lookup_insert_ne.
Qed.

Lemma same_files_sub d d' I J : J ⊆ I -> same_files d I d' I -> same_files d J d' J.
Proof.
  intros Hsub Hs. apply same_files_intro. intros j i Hi m Hm. eapply same_files_byte; [done| |done].
  by eapply lookup_weaken.
Qed.

Lemma makeobj_spec s I O ps bs p l : tree s I O ps bs p l ->
  runs (sfs_makeobj SFS_TYPE_FILE) s
    (fun q s' => exists sw I' O' ps', s_svs s !! q = None /\ s_svs s' = <[q := sw]> (s_svs s) /\
       vn_refcount (sv_v sw) = 1 /\ vn_opencount (sv_v sw) = 0 /\ sfi_linkcount (sv_i sw) = 0 /\
       tree s' I' O' ps' bs p l /\ files s' I' = <[sv_ino sw := empty_file]> (files s I) /\ files s I !! sv_ino sw = None)
    (fun e s' => (e = ENOSPC \/ e = ENOMEM) /\ exists O' ps', tree s' I O' ps' bs p l /\ files s' I = files s I).
Proof.
  intros Htr. pose proof Htr as [Hr Ht _ _ _ _ _]. unfold sfs_makeobj. apply runs_bind.
  eapply runs_mono; [by eapply balloc_runs|..].
  2:{ intros e s' (-> & _ & ->). split; [by left|]. by exists O, ps. }
  intros b s1 (Hr1 & Hs1 & Hk1 & _ & Hsv1 & Hob & Hu & Hm & Hz & _).
  assert (looked s I s1 bs) as Hlk1 by (eapply quiet_looked; try done; by exists p).
  assert (usable (nblocks s1) b) as Hu1 by (unfold nblocks in *; by rewrite (kp_super _ _ _ (Hk1 p))).
  destruct (rep_new s1 I O b Hr1 Hob Hu1 Hm Hz) as (Hib & Hno & Hr1').
  assert (table s1 ps bs) as Ht1 by (eapply table_same; [done|apply (Hk1 p)|apply (Hk1 p)|done]).
  unfold sfs_loadvnode. apply runs_bind.
  eapply runs_intro_ret; [unfold on_vnodes, zoom, array_getnum, gets, with_vnodes; simpl; by rewrite sfs_eta|].
  apply runs_bind. destruct (search_runs s1 I O ps bs b Hr1 Ht1) as [(q & sw & _ & Hq & E & _)|[_ Hf]].
  { by destruct (Hno _ _ Hq). }
  eapply runs_intro_ret; [apply Hf|].
  eapply runs_mono; [eapply (load_new_runs s1 _ _ ps bs b zero_inode sfs_fileops SFS_TYPE_FILE Hr1' Ht1); try done;
    by apply lookup_insert_eq|..].
  - intros q s2 (Hqn & Hr2 & Ht2 & Hc & lk & Hsv2). rewrite insert_insert_eq in Hr2. rewrite Hsv1 in *.
    assert (b <> SFS_ROOT_LOCATION) as Hbr.
    { intros ->. destruct (tr_root _ _ _ _ _ _ _ _ Htr) as (sv & Hp & E & _). rewrite <- E in Hib.
      rewrite (rep_at _ _ _ _ _ Hr Hp) in Hib. done. }
    destruct (tree_new s I O ps bs p l b q (mk_vnode 1 0 (Some lk) (s_self s1) q (Some sfs_fileops)) s2
      (<[b := OInode]> O) (ps ++ [q])) as [Htr2 Hf2]; try done.
    + exact (kp_self _ _ _ (Hk1 p)).
    + by rewrite (cm_self _ _ _ Hc), (kp_self _ _ _ (Hk1 p)).
    + eapply same_files_trans; [done|]. eapply same_files_sub; [|apply Hc]. by apply insert_subseteq.
    + eexists _, _, _, _. split; [done|]. split; [exact Hsv2|]. split_and!; try done.
      apply eq_None_not_Some. intros [x (_ & i & ? & _)%files_lookup]. simpl in *. congruence.
  - intros e s2 (-> & Hr2 & Ht2 & Hc & Hsv2). split; [by right|].
    assert (fs_rep s2 I O) as Hr2'.
    { eapply rep_drop; try done. intros q sw. rewrite Hsv2. apply Hno. }
    assert (looked s I s2 bs) as Hlk2.
    { split; [by exists O, ps|]. split; [|by rewrite (cm_self _ _ _ Hc), (kp_self _ _ _ (Hk1 p))].
      eapply same_files_trans; [done|]. eapply same_files_sub; [|apply Hc]. by apply insert_subseteq. }
    destruct (tree_looked _ _ _ _ _ _ _ _ _ Htr Hlk2) as (O2 & ps2 & ?); [congruence|]. exists O2, ps2.
    split; [done|]. apply files_same_files, Hlk2.
Qed.


(** ** [sfs_creat] *)

(** The name is free: a new file is made. *)
Lemma creat_new s I O ps bs p l name : tree s I O ps bs p l -> name_ok name -> Z.of_nat (length name) < 2 ^ 32 - 1 ->
  runs (newguy <- sfs_makeobj SFS_TYPE_FILE ;;
        sv <- sv_get newguy ;;
        r <- try (sfs_dir_link p name (sv_ino sv)) ;;
        match r with
        | inl e => vop_decref newguy ;;; fail e
        | inr _ => inode_modify newguy (linkcount_add 1) ;;; ret newguy
        end) s
    (fun q s' => exists sw I' O' ps' l', s_svs s' !! q = Some sw /\ s_svs s !! q = None /\
       vn_refcount (sv_v sw) = 1 /\ files s I !! sv_ino sw = None /\
       tree s' I' O' ps' bs p l' /\ dir_map l' = <[name := sv_ino sw]> (dir_map l) /\
       files s' I' = <[sv_ino sw := empty_file]> (files s I))
    (fun e s' => (e = ENOMEM \/ e = ENOSPC \/ link_error l name e) /\
       exists I' O' ps', tree s' I' O' ps' bs p l /\ files s' I' = files s I).
Proof.
  intros Htr Hn Hlen. apply runs_bind. eapply runs_mono; [by eapply makeobj_spec|..].
  2:{ intros e s' [He (O' & ps' & ? & ?)]. split; [tauto|]. by exists I, O', ps'. }
  intros q s1 (sw & I1 & O1 & ps1 & Hqn & Hsv1 & Hrc & Hoc & Hl0 & Htr1 & Hf1 & Hfn).
  assert (s_svs s1 !! q = Some sw) as Hq1 by (by rewrite Hsv1, lookup_insert_eq).
  assert (q <> p) as Hqp by (destruct (tr_root _ _ _ _ _ _ _ _ Htr) as (sv & Hp & _); congruence).
  apply runs_bind. eapply runs_intro_ret; [by apply sv_get_eq|]. run.
  eapply runs_mono; [by eapply tree_link|..].
  - intros k s2 (_ & _ & _ & s3 & sw3 & I3 & O3 & Hm & Hq3 & Hv3 & Hi3 & _ & _ & Htr3 & _ & Hmap & Hf3).
    apply runs_bind. eapply runs_intro_ret; [exact Hm|]. run.
    exists sw3, I3, O3, ps1, (put_slot l k (new_entry (sv_ino sw) name)). rewrite Hi3, Hv3. split_and!; try done. congruence.
  - intros e s2 (He & I2 & O2 & Hq2 & Htr2 & Hf2 & Hd2). apply runs_bind.
    eapply runs_mono; [eapply tree_decref; [done|done|auto]| |done].
    intros [] s3 (I3 & O3 & ps3 & Htr3 & _ & Hd). run. split; [tauto|]. exists I3, O3, ps3. split; [done|].
    rewrite Hrc in Hd. cbn [Z.gtb Z.compare Pos.compare Pos.compare_cont] in Hd. destruct Hd as [_ Hd].
    rewrite Hl0 in Hd. destruct Hd as [_ ->]. rewrite Hf2, Hf1. by apply delete_insert_id.
Qed.


(** The vnode of the file that the name leads to afterwards. *)
Definition created s I s' (l : list sfs_dir) name q bs p : Prop :=
  exists sw I' O' ps' l', s_svs s' !! q = Some sw /\ tree s' I' O' ps' bs p l' /\
    match dir_map l !! name with
    | Some ino => sv_ino sw = ino /\ l' = l /\ files s' I' = files s I
    | None => s_svs s !! q = None /\ vn_refcount (sv_v sw) = 1 /\ files s I !! sv_ino sw = None /\
        dir_map l' = <[name := sv_ino sw]> (dir_map l) /\ files s' I' = <[sv_ino sw := empty_file]> (files s I)
    end.

Lemma creat_spec s I O ps bs p l name (excl : bool) : tree s I O ps bs p l -> refs_ok s -> name_ok name ->
  Z.of_nat (length name) < 2 ^ 32 - 1 ->
  runs (sfs_creat p name excl) s
    (fun q s' => created s I s' l name q bs p /\ (excl = true -> dir_map l !! name = None))
    (fun e s' => ((e = EEXIST /\ excl = true /\ is_Some (dir_map l !! name)) \/ e = ENOMEM \/ e = ENOSPC \/
       (link_error l name e /\ dir_map l !! name = None)) /\
       exists I' O' ps', tree s' I' O' ps' bs p l /\ files s' I' = files s I).
Proof.
  intros Htr Hrc Hn Hlen. pose proof Htr as [Hr Ht (sv & Hp & Hino & Hg & Hsl) He _ _ _].
  assert (names_unique l) as Hu by (rewrite <- Hsl; apply Hg).
  unfold sfs_creat. apply runs_bind. eapply runs_mono; [by eapply findname_spec| |done].
  intros [found empty] s1 (Hsv & (O1 & Hr1 & Hs1 & Hk1 & _) & Hent & _). rewrite Hsl in Hent.
  pose proof (entry_map _ _ _ Hu Hent) as Hmap.
  assert (looked s I s1 bs) as Hlk by (eapply quiet_looked; try done; by exists p).
  destruct (tree_looked _ _ _ _ _ _ _ _ _ Htr Hlk Hsv) as (O1' & ps1 & Htr1).
  pose proof (files_same_files _ _ _ Hs1) as Hf1. unfold created.
  destruct found as [[ino k]|]; simpl in Hmap; rewrite Hmap.
  - destruct excl.
    { run. split; [left; split_and!; [done|done|by eexists]|]. by exists I, O1', ps1. }
    pose proof Hent as (_ & sd & Hsd & Ei & Hnz & _). apply list_elem_of_lookup_2 in Hsd.
    destruct (tree_entries_ok _ _ _ _ _ _ _ _ Htr1 ltac:(done) sd Hsd) as (i & Hi & Hops & _); [congruence|]. rewrite Ei in Hi.
    destruct (He sd Hsd) as [Hne _]; [congruence|].
    eapply runs_mono; [eapply (loadvnode_spec s1 I O1' ps1 bs ino i); try done; [apply Htr1|apply Htr1|]|..].
    { intros q sw. rewrite Hsv. apply Hrc. }
    + intros q s2 (Hr2 & [ps2 Ht2] & Hc & Hld). split; [|done].
      assert (looked s1 I s2 bs) as Hlk2 by (split; [by exists O1', ps2|split; apply Hc]).
      destruct (tree_loaded _ _ _ _ _ _ _ _ _ _ _ _ Htr1 Hlk2 Hld Hi) as (_ & O2 & ps2' & Htr2); [congruence|].
      pose proof Hld as (sw & Hsv2 & Ew & _). exists sw, I, O2, ps2', l. rewrite Hsv2, lookup_insert_eq.
      split_and!; try done. rewrite <- Hf1. apply files_same_files, Hlk2.
    + intros e s2 (-> & Hr2 & Ht2 & Hc & Hsv2). split; [by auto|].
      assert (looked s1 I s2 bs) as Hlk2 by (split; [by exists O1', ps1|split; apply Hc]).
      destruct (tree_looked _ _ _ _ _ _ _ _ _ Htr1 Hlk2 Hsv2) as (O2 & ps2 & ?). exists I, O2, ps2.
      split; [done|]. rewrite <- Hf1. apply files_same_files, Hlk2.
  - eapply runs_mono; [eapply (creat_new s1); try done|..]; rewrite Hf1, ?Hsv.
    + intros q s2 (sw & I2 & O2 & ps2 & l2 & ? & ? & ? & ? & ? & ? & ?). split; [|done].
      exists sw, I2, O2, ps2, l2. split_and!; done.
    + intros e s2 [He2 Hex]. split; [tauto|done].
Qed.

End names.

(** ** The abstract file system *)

(** What the operations on names promise: a map from names to inode numbers and
    a map from inode numbers to contents.  [handles] are the vnodes in memory with
    the inode each stands for. *)
Record afs := mk_afs { names : gmap (list Z) Z; contents : gmap Z (Z * list (list Z)) }.

Inductive name_op :=
| Creat (name : list Z) (excl : bool)
| Link (name : list Z) (q : Z)
| Remove (name : list Z)
| Rename (n1 n2 : list Z).

(** The name an operation makes. *)
Definition makes (op : name_op) : option (list Z) :=
  match op with Creat n _ | Link n _ | Rename _ n => Some n | Remove _ => None end.

(** Reasons to fail that have nothing to do with the maps: no memory, no block,
    a name that is too long, a directory of the largest size. *)
Definition lacks (op : name_op) (e : Z) : Prop :=
  e = ENOMEM \/ (e = ENOSPC /\ makes op <> None) \/ (e = EINVAL /\ makes op <> None) \/
  (e = ENAMETOOLONG /\ exists n, makes op = Some n /\ (60 <= length n)%nat).

Inductive afs_step (handles : gmap Z Z) (a : afs) : name_op -> option Z -> afs -> Prop :=
| step_creat name excl ino : names a !! name = None -> contents a !! ino = None ->
    afs_step handles a (Creat name excl) None
      (mk_afs (<[name := ino]> (names a)) (<[ino := empty_file]> (contents a)))
| step_creat_old name ino : names a !! name = Some ino -> afs_step handles a (Creat name false) None a
| step_link name q ino : names a !! name = None -> handles !! q = Some ino ->
    afs_step handles a (Link name q) None (mk_afs (<[name := ino]> (names a)) (contents a))
| step_exists op name ino : makes op = Some name -> op <> Creat name false -> names a !! name = Some ino ->
    afs_step handles a op (Some EEXIST) a
| step_remove name ino : names a !! name = Some ino -> (forall n, names a !! n = Some ino -> n = name) ->
    (forall q, handles !! q <> Some ino) ->
    afs_step handles a (Remove name) None (mk_afs (delete name (names a)) (delete ino (contents a)))
| step_remove_kept name ino : names a !! name = Some ino ->
    (exists n, n <> name /\ names a !! n = Some ino) \/ (exists q, handles !! q = Some ino) ->
    afs_step handles a (Remove name) None (mk_afs (delete name (names a)) (contents a))
| step_remove_none name : names a !! name = None -> afs_step handles a (Remove name) (Some ENOENT) a
| step_rename n1 n2 ino : names a !! n1 = Some ino -> names a !! n2 = None ->
    afs_step handles a (Rename n1 n2) None (mk_afs (delete n1 (<[n2 := ino]> (names a))) (contents a))
| step_rename_none n1 n2 : names a !! n1 = None -> afs_step handles a (Rename n1 n2) (Some ENOENT) a
| step_lack op e : lacks op e -> afs_step handles a op (Some e) a.

(** Two entries name inode [ino] iff its link count is more than one. *)
Lemma nlinks_one l k name ino : names_unique l -> entry_at l name (Some (ino, k)) ->
  nlinks l ino = 1 <-> forall n, dir_map l !! n = Some ino -> n = name.
Proof.
  intros Hu Hent. pose proof Hent as (Hk & sd & Hsd & Hino & Hnz & Hnm). pose proof (lookup_lt_Some _ _ _ Hsd).
  pose proof (nlinks_blank l k name ino ino Hent Hnz) as Hb. rewrite Z.eqb_refl in Hb. split.
  - intros Hone n (sx & Hin & Hx & _ & <-)%dir_map_elem; [|done].
    apply list_elem_of_lookup in Hin as [j Hj]. destruct (decide (j = Z.to_nat k)) as [->|Hne]; [congruence|].
    assert (nlinks (put_slot l k blank) ino = 0) as Hz by lia. destruct (proj1 (nlinks_zero _ _) Hz sx); [|done].
    apply put_slot_elem; [lia|]. right. exists j. split; [lia|done].
  - intros Hone. assert (nlinks (put_slot l k blank) ino = 0); [|lia]. apply nlinks_zero.
    intros sx [->|(j & Hne & Hj)]%put_slot_elem; [by intros <-| |lia]. intros Hx. destruct Hne.
    assert (j = Z.to_nat k); [|lia]. eapply Hu; [done|done|congruence|congruence|].
    rewrite Hnm. apply Hone, dir_map_elem; [done|]. exists sx. split_and!; try done. by eapply list_elem_of_lookup_2.
Qed.

Section refinement.
Context {U D H : Type} `{BlockDevLaws U D} `{!Heap H} `{!HeapLaws H}.
Implicit Types (s : sfs U D H) (I : gmap Z sfs_inode) (O : gmap Z owner).

(** What a user sees of the volume. *)
Definition view s I (l : list sfs_dir) : afs := mk_afs (dir_map l) (files s I).
Definition handles s : gmap Z Z := sv_ino <$> s_svs s.

(** The call of an operation on the directory at [p]. *)
Definition call (p : Z) (op : name_op) : M (sfs U D H) unit :=
  match op with
  | Creat name excl => sfs_creat p name excl ;;; ret tt
  | Link name q => sfs_link p name q
  | Remove name => sfs_remove p name
  | Rename n1 n2 => sfs_rename p n1 p n2
  end.

Definition op_names (op : name_op) : list (list Z) :=
  match op with Creat n _ | Link n _ | Remove n => [n] | Rename n1 n2 => [n1; n2] end.

(** Names are C strings, and what is linked is a file in memory. *)
Definition op_ok s (p : Z) (op : name_op) : Prop :=
  Forall (fun n => name_ok n /\ Z.of_nat (length n) < 2 ^ 32 - 1) (op_names op) /\
  match op with Link _ q => q <> p /\ is_Some (s_svs s !! q) | _ => True end.

(** The tree afterwards is what the abstract operation makes of the tree before. *)
Definition refines s I l op (r : option Z) s' bs p : Prop :=
  exists I' O' ps' l', tree s' I' O' ps' bs p l' /\ afs_step (handles s) (view s I l) op r (view s' I' l').

Lemma link_lacks op name l e : makes op = Some name -> link_error l name e ->
  (is_Some (dir_map l !! name) -> op <> Creat name false) ->
  forall hs a, names a = dir_map l -> afs_step hs a op (Some e) a.
Proof.
  intros Hm [[-> [ino Hi]]|[[-> ?]|[->|[-> _]]]] Hex hs a Ha.
  - eapply step_exists; [done| |by rewrite Ha]. apply Hex. by exists ino.
  - apply step_lack. right. right. right. split; [done|]. by exists name.
  - apply step_lack. right. left. by rewrite Hm.
  - apply step_lack. right. right. left. by rewrite Hm.
Qed.

Lemma in_use_handles s ino : in_use s ino <-> exists q, handles s !! q = Some ino.
Proof. unfold in_use, handles. setoid_rewrite lookup_fmap_Some. naive_solver. Qed.

(** The files are the same. *)
Lemma refines_same s I O ps bs p l op r s' I' l' : tree s' I' O ps bs p l' -> files s' I' = files s I ->
  afs_step (handles s) (view s I l) op r (mk_afs (dir_map l') (files s I)) -> refines s I l op r s' bs p.
Proof. intros Htr Hf Hs. exists I', O, ps, l'. split; [done|]. unfold view at 2. by rewrite Hf. Qed.

Lemma creat_refines s I O ps bs p l name excl : tree s I O ps bs p l -> refs_ok s -> name_ok name ->
  Z.of_nat (length name) < 2 ^ 32 - 1 ->
  runs (call p (Creat name excl)) s
    (fun _ s' => refines s I l (Creat name excl) None s' bs p)
    (fun e s' => refines s I l (Creat name excl) (Some e) s' bs p).
Proof.
  intros Htr Hrc Hn Hlen. unfold call. apply runs_bind. eapply runs_mono; [by eapply creat_spec|..].
  - intros q s' [(sw & I' & O' & ps' & l' & _ & Htr' & Hm) Hex]. run.
    destruct (dir_map l !! name) as [ino|] eqn:E.
    + destruct Hm as (_ & -> & Hf). destruct excl; [by specialize (Hex eq_refl)|].
      eapply refines_same; [done|done|]. by eapply step_creat_old.
    + destruct Hm as (_ & _ & Hfn & Hmap & Hf). exists I', O', ps', l'. split; [done|].
      unfold view at 2. rewrite Hmap, Hf. by apply (step_creat (handles s) (view s I l)).
  - intros e s' [He (I' & O' & ps' & Htr' & Hf)]. eapply refines_same; [done|done|].
    destruct He as [(-> & -> & [ino Hi])|[->|[->|[He Hno]]]].
    + by eapply step_exists.
    + apply step_lack. by left.
    + apply step_lack. right. by left.
    + eapply link_lacks; try done. rewrite Hno. by intros [].
Qed.

Lemma remove_refines s I O ps bs p l name : tree s I O ps bs p l -> refs_ok s -> name_ok name ->
  runs (call p (Remove name)) s
    (fun _ s' => refines s I l (Remove name) None s' bs p)
    (fun e s' => refines s I l (Remove name) (Some e) s' bs p).
Proof.
  intros Htr Hrc Hn. assert (names_unique l) as Hu.
  { destruct (tr_root _ _ _ _ _ _ _ _ Htr) as (sv & _ & _ & Hg & <-). apply Hg. }
  eapply runs_mono; [by eapply remove_spec|..].
  - intros [] s' (ino & I' & O' & ps' & l' & Hm & Htr' & Hmap & Hgone & Hkept).
    assert (exists k, entry_at l name (Some (ino, k))) as [k Hent].
    { apply dir_map_elem in Hm as (sd & Hsd & ? & ? & ?); [|done]. apply list_elem_of_lookup in Hsd as [k Hk].
      exists (Z.of_nat k). split; [lia|]. exists sd. by rewrite Nat2Z.id. }
    pose proof (nlinks_one _ _ _ _ Hu Hent) as Hone. exists I', O', ps', l'. split; [done|]. unfold view at 2. rewrite Hmap.
    destruct (decide (nlinks l ino = 1)) as [E|E].
    2:{ rewrite Hkept by auto. apply (step_remove_kept (handles s) (view s I l) name ino Hm). left.
        destruct (decide (map_Exists (fun n i => n <> name /\ i = ino) (dir_map l))) as [(n & x & Hx & ? & ->)|Hn'].
        { by exists n. }
        destruct E. apply Hone. intros n Hni. destruct (decide (n = name)); [done|]. destruct Hn'. by exists n, ino. }
    destruct (decide (map_Exists (fun _ i => i = ino) (handles s))) as [Hb|Hb].
    + destruct Hb as (q & ? & Hq & ->). assert (exists q, handles s !! q = Some ino) as Hb by (by exists q).
      rewrite Hkept by (right; by apply in_use_handles).
      apply (step_remove_kept (handles s) (view s I l) name ino Hm). by right.
    + rewrite Hgone; [|done|intros [q Hq]%in_use_handles; apply Hb; by exists q, ino].
      apply (step_remove (handles s) (view s I l) name ino Hm); [by apply Hone|]. intros q Hq. apply Hb. by exists q, ino.
  - intros e s' (I' & O' & ps' & Htr' & Hf & He). eapply refines_same; [done|done|].
    destruct He as [[-> Hm]| ->]; [by apply step_remove_none|]. apply step_lack. by left.
Qed.

End refinement.

(** ** Theorems *)


(** *** Witness *)

Lemma sample_tree : tree (sample sample_heap) sample_I sample_O [1000; 2000] [] 1000 [root_entry].
Proof.
  split.
  - apply sample_rep.
  - apply sample_table.
  - exists root_sv. destruct sample_dir as [? ? ? Hu]. split_and!; [done|done| |exact sample_slots]. by split.
  - intros sd ->%list_elem_of_singleton _. split; [done|]. by exists file_inode.
  - intros ino i Hi Hne. unfold sample_I in Hi. in_map Hi; done.
  - intros ino i Hi. unfold sample_I in Hi. in_map Hi; done.
  - intros q sw Hq. simpl in Hq. in_map Hq; done.
Qed.

