(* ===== verification/SfsFs.v ===== *)
(** The SFS file system as a whole: mounting, syncing and unmounting
    (kern/fs/sfs/sfs_fs.c).

    [disk_rep] says that an unmounted disk holds a file system; its files are
    the same inode map [I] that [fs_rep] gives for a mounted one.  Mounting goes
    from [disk_rep] to [fs_rep], syncing writes everything that is only in
    memory, and unmounting goes back, so that files survive it. *)

From Stdlib Require Import ZArith Lia.
From stdpp Require Import prelude gmap list.
From S2P Require Import Prelude Str Heap Array Bitmap SynchObj Vnode Pages Copy Uio Device Lhd SfsDisk SfsFile SfsRep SfsSample SfsBmap SfsIo SfsDir SfsVnode SfsSync.
Import Flat SimCard.

#[local] Arguments replicate : simpl never.

(** ** Definitions *)

(** struct sfs_fs: struct fs, the superblock, two flags and three pointers. *)
Definition sizeof_sfs_fs : Z := 20 + SFS_BLOCKSIZE + 4 + 4 + 4 + 4 + 4.

(** Block [j] of the bytes of a bitmap; outside of them is a fault. *)
Definition map_block (j : Z) : M bitmap (list Z) := fun b =>
  if (j + 1) * SFS_BLOCKSIZE <=? Z.of_nat (length (b_v b))
  then (Ret (slice (j * SFS_BLOCKSIZE) SFS_BLOCKSIZE (b_v b)), b) else (Panic, b).
Definition set_map_block (j : Z) (data : list Z) : M bitmap unit := fun b =>
  if (j + 1) * SFS_BLOCKSIZE <=? Z.of_nat (length (b_v b))
  then (Ret tt, mk_bitmap (b_self b) (nbits b) (b_addr b) (splice (j * SFS_BLOCKSIZE) data (b_v b)))
  else (Panic, b).

Section fs_ops.
Context {U D H : Type} `{!UserMem U} `{!BlockDev U D} `{!Heap H}.

Definition with_super (sp : sfs_super) (s : sfs U D H) : sfs U D H :=
  mk_sfs (s_thread s) (s_dev s) (s_heap s) (s_self s) sp (s_superdirty s) (s_freemap s)
    (s_freemapdirty s) (s_vnodes s) (s_svs s).

(** One round of the loop over the blocks of the bitmap. *)
Definition mapio_block (rw : uio_rw_t) (j : Z) : M (sfs U D H) unit :=
  match rw with
  | UIO_READ =>
      bs <- on_disk (sfs_rblock (u32 (SFS_MAP_LOCATION + j))) ;;
      on_freemap (set_map_block j bs)
  | UIO_WRITE =>
      bs <- on_freemap (map_block j) ;;
      on_disk (sfs_wblock bs (u32 (SFS_MAP_LOCATION + j)))
  end.

Definition sfs_mapio (rw : uio_rw_t) : M (sfs U D H) unit :=
  mapsize <- gets (fun s => SFS_BITBLOCKS (sp_nblocks (s_super s))) ;;
  for_each (seqZ 0 mapsize) (mapio_block rw).

(** One round of the loop over the loaded vnodes; its result is ignored. *)
Definition sync_vnode (i : Z) : M (sfs U D H) unit :=
  guy <- on_vnodes (array_getguy i) ;;
  match guy with
  | None => panic
  | Some p => result_of (vop p (fun _ => sfs_fsync p)) ;;; ret tt
  end.

(** "If the free block map needs to be written, write it." *)
Definition sync_freemap : M (sfs U D H) unit :=
  freemapdirty <- gets s_freemapdirty ;;
  if freemapdirty : bool then
    sfs_mapio UIO_WRITE ;;; modify (with_freemapdirty false)
  else ret tt.

(** "If the superblock needs to be written, write it." *)
Definition sync_super : M (sfs U D H) unit :=
  superdirty <- gets s_superdirty ;;
  if superdirty : bool then
    super <- gets s_super ;;
    on_disk (sfs_wblock (encode_super super) SFS_SB_LOCATION) ;;;
    modify (with_superdirty false)
  else ret tt.

Definition sfs_sync : M (sfs U D H) unit :=
  num <- on_vnodes array_getnum ;;
  for_each (seqZ 0 num) sync_vnode ;;;
  sync_freemap ;;;
  sync_super.

Definition sfs_getvolname : M (sfs U D H) (list Z) := gets (fun s => sp_volname (s_super s)).

(** After a success the struct is gone; of the state only the thread, the device
    and the heap are left. *)
Definition sfs_unmount : M (sfs U D H) unit :=
  num <- on_vnodes array_getnum ;;
  if num >? 0 then fail EBUSY
  else
    superdirty <- gets s_superdirty ;;
    assert (negb superdirty) ;;;
    freemapdirty <- gets s_freemapdirty ;;
    assert (negb freemapdirty) ;;;
    on_vnodes array_destroy ;;;
    freemap <- gets s_freemap ;;
    on_heap (bitmap_destroy freemap) ;;;
    self <- gets s_self ;;
    on_heap (kfree self).

(** The end of the error paths of [sfs_domount]. *)
Definition mount_undo : M (sfs U D H) unit :=
  on_vnodes array_destroy ;;;
  self <- gets s_self ;;
  on_heap (kfree self).

(** The end of [sfs_domount], with the bitmap allocated. *)
Definition mount_map (bm : bitmap) : M (sfs U D H) unit :=
  modify (with_freemap bm) ;;;
  r <- result_of (sfs_mapio UIO_READ) ;;
  if negb (r =? 0) then
    bm <- gets s_freemap ;;
    on_heap (bitmap_destroy bm) ;;; mount_undo ;;; fail r
  else
    modify (with_superdirty false) ;;;
    modify (with_freemapdirty false).

(** [sfs_domount] from the reading of the superblock on. *)
Definition mount_load : M (sfs U D H) unit :=
  r <- try (on_disk (sfs_rblock SFS_SB_LOCATION)) ;;
  match r with
  | inl e => mount_undo ;;; fail e
  | inr bs =>
      modify (with_super (decode_super bs)) ;;;
      super <- gets s_super ;;
      if negb (sp_magic super =? SFS_MAGIC) then mount_undo ;;; fail EINVAL
      else
        modify (with_super (seal_volname super)) ;;;
        freemap <- on_heap (bitmap_create (SFS_BITMAPSIZE (sp_nblocks super))) ;;
        match freemap with
        | None => mount_undo ;;; fail ENOMEM
        | Some bm => mount_map bm
        end
  end.

(** The machine without the file system: a thread, the device and the heap. *)
Definition fresh_sfs (x : uthread U * D * H) (self : Z) (vnodes : array Z) : sfs U D H :=
  mk_sfs x.1.1 x.1.2 x.2 self (mk_super 0 0 [] []) false (mk_bitmap 0 0 0 []) false vnodes ∅.

(** Run [m] on the new [struct sfs_fs], and hand it back. *)
Definition on_fresh (self : Z) (vnodes : array Z) (m : M (sfs U D H) unit) : M (uthread U * D * H) (sfs U D H) :=
  fun x =>
    let '(r, s) := m (fresh_sfs x self vnodes) in
    let x' := ((s_thread s, s_dev s), s_heap s) in
    match r with
    | Ret _ => (Ret s, x')
    | Err e => (Err e, x')
    | Panic => (Panic, x')
    | Spin => (Spin, x')
    end.

Definition sfs_domount : M (uthread U * D * H) (sfs U D H) :=
  blocksize <- gets (fun x => d_blocksize x.1.2) ;;
  if negb (blocksize =? SFS_BLOCKSIZE) then fail ENXIO
  else
    self <- on_snd (kmalloc sizeof_sfs_fs) ;;
    if self =? 0 then fail ENOMEM
    else
      vnodes <- on_snd array_create ;;
      match vnodes with
      | None => on_snd (kfree self) ;;; fail ENOMEM
      | Some vnodes => on_fresh self vnodes mount_load
      end.

End fs_ops.

(** ** Sizes of the bitmap *)

Lemma bitmap_sizes n : 0 <= n < 2 ^ 31 ->
  SFS_BITBLOCKS n = (n + 4095) / 4096 /\ SFS_BITMAPSIZE n = 4096 * SFS_BITBLOCKS n /\
  n <= SFS_BITMAPSIZE n < n + 4096 /\ 0 <= SFS_BITBLOCKS n.
Proof.
  intros Hn. unfold SFS_BITBLOCKS, SFS_BITMAPSIZE, SFS_ROUNDUP, SFS_BLOCKBITS, SFS_BLOCKSIZE.
  change (512 * 8) with 4096. rewrite (u32_small (n + 4096 - 1)) by lia.
  replace (n + 4096 - 1) with (n + 4095) by lia.
  pose proof (Z.div_mod (n + 4095) 4096 ltac:(lia)). pose proof (Z.mod_pos_bound (n + 4095) 4096 ltac:(lia)).
  rewrite u32_small by lia. rewrite Z.div_mul by lia. lia.
Qed.

Lemma bitmap_words_of n : 0 <= n < 2 ^ 31 -> bitmap_words (SFS_BITMAPSIZE n) = 512 * SFS_BITBLOCKS n.
Proof.
  intros Hn. destruct (bitmap_sizes n Hn) as (_ & Hs & ? & ?). unfold bitmap_words, BITS_PER_WORD.
  rewrite u32_small by lia. rewrite Hs. symmetry. apply (Z.div_unique _ _ _ 7); lia.
Qed.

Lemma slice_splice_same a (x l : list Z) : 0 <= a -> a + Z.of_nat (length x) <= Z.of_nat (length l) ->
  slice a (Z.of_nat (length x)) (splice a x l) = x.
Proof.
  intros Ha Hl. unfold slice, splice. assert (length (take (Z.to_nat a) l) = Z.to_nat a) as Ht by (rewrite length_take; lia).
  rewrite drop_app_ge, Ht, Nat.sub_diag, drop_0 by lia. rewrite Nat2Z.id. by rewrite take_app_length.
Qed.

Lemma slice_splice_before a n b (x l : list Z) : 0 <= a -> 0 <= n -> a + n <= b -> b <= Z.of_nat (length l) ->
  slice a n (splice b x l) = slice a n l.
Proof.
  intros Ha Hn Hb Hl. unfold slice, splice. assert (length (take (Z.to_nat b) l) = Z.to_nat b) as Ht by (rewrite length_take; lia).
  rewrite drop_app_le by lia. rewrite take_app_le by (rewrite length_drop; lia).
  rewrite skipn_firstn_comm, take_take. f_equal. lia.
Qed.

Lemma decode_super_shape bs : length bs = 512%nat -> byte_list bs -> super_shape (decode_super bs).
Proof.
  intros Hl Hb. pose proof (words_of_range 128 bs Hl Hb) as Hw. pose proof (length_words_of 128 bs Hl) as Hwl.
  assert (forall k, (k < 128)%nat -> word32 (nth k (words_of bs) 0)) as Hn.
  { intros k Hk. destruct (lookup_lt_is_Some_2 (words_of bs) k) as [w E]; [lia|].
    rewrite nth_lookup, E. simpl. by eapply Forall_lookup_1 in Hw. }
  unfold super_shape, decode_super, SFS_VOLNAME_SIZE. cbn [sp_magic sp_nblocks sp_volname sp_reserved].
  split_and!; [by apply Hn; lia..|rewrite length_slice; lia|by apply byte_list_slice| |].
  - apply length_words_of. rewrite length_drop. lia.
  - apply (words_of_range 118); [rewrite length_drop; lia|by apply Forall_drop].
Qed.

Lemma seal_good sp : super_shape sp -> sp_magic sp = SFS_MAGIC -> super_good (seal_volname sp).
Proof.
  intros (? & ? & Hl & Hb & ? & ?) Hm. split; [|done|].
  - split_and!; try done; simpl; [by rewrite length_insert|]. by apply Forall_insert.
  - simpl. apply list_lookup_insert_eq. lia.
Qed.

(** Bit [b] of the bitmap of an unmounted disk. *)
Definition disk_bit (dk : Z -> list Z) (b : Z) : bool :=
  Z.testbit (nth0 (dk (SFS_MAP_LOCATION + b / 4096)) (b mod 4096 / 8)) (b mod 8).

Lemma marked_disk dk n bm b : 0 <= n < 2 ^ 31 -> map_on_disk dk n bm ->
  length (b_v bm) = Z.to_nat (512 * SFS_BITBLOCKS n) -> 0 <= b < SFS_BITMAPSIZE n ->
  marked bm b = disk_bit dk b.
Proof.
  intros Hn Hm Hl Hb. destruct (bitmap_sizes n Hn) as (_ & Hs & _ & Hk). unfold marked, disk_bit.
  pose proof (Z.div_mod b 4096 ltac:(lia)) as Hd. pose proof (Z.mod_pos_bound b 4096 ltac:(lia)).
  assert (0 <= b / 4096 < SFS_BITBLOCKS n) as Hj by (split; [apply Z.div_pos|apply Z.div_lt_upper_bound]; lia).
  assert (0 <= b mod 4096 / 8 < 512) by (split; [apply Z.div_pos|apply Z.div_lt_upper_bound]; lia).
  assert (b / 8 = b / 4096 * 512 + b mod 4096 / 8) as E.
  { rewrite <- Z.div_add_l by lia. f_equal. lia. }
  rewrite Hm by done. unfold nth0, SFS_BLOCKSIZE. rewrite nth_slice by lia.
  rewrite E. rewrite nth_lookup.
  destruct (b_v bm !! _) eqn:El; [done|]. apply lookup_ge_None in El. lia.
Qed.

(** ** Representation of an unmounted disk *)

Section fs.
Context {U D H : Type} `{BlockDevLaws U D} `{!Heap H} `{!HeapLaws H}.
Implicit Types (s : sfs U D H) (I : gmap Z sfs_inode) (O : gmap Z owner) (d : D).

Definition disk_super d : sfs_super := decode_super (dblock d SFS_SB_LOCATION).
Definition disk_blocks d : Z := sp_nblocks (disk_super d).

Record disk_rep d I O : Prop := {
  dr_dev : dev_ok d;
  dr_blocksize : d_blocksize d = SFS_BLOCKSIZE;
  dr_magic : sp_magic (disk_super d) = SFS_MAGIC;
  dr_nblocks : 1 < disk_blocks d <= d_blocks d /\ disk_blocks d < 2 ^ 22 - 1;
  dr_room : SFS_MAP_LOCATION + SFS_BITBLOCKS (disk_blocks d) <= disk_blocks d;
  dr_reserved : forall b, 0 <= b < SFS_BITMAPSIZE (disk_blocks d) -> ~ usable (disk_blocks d) b ->
    disk_bit (dblock d) b = true;
  dr_owned : forall b o, O !! b = Some o -> usable (disk_blocks d) b /\ disk_bit (dblock d) b = true;
  dr_inode : forall ino i, I !! ino = Some i ->
    inode_good (dblock d) O ino i /\ dblock d ino = encode_inode i;
}.

(** Nothing is left to write. *)
Record clean s : Prop := {
  cl_super : s_superdirty s = false;
  cl_freemap : s_freemapdirty s = false;
  cl_vnodes : forall p sv, s_svs s !! p = Some sv -> sv_dirty sv = false;
}.

(** A clean file system is on its disk. *)
Lemma clean_disk s I O : fs_rep s I O -> clean s -> d_blocksize (s_dev s) = SFS_BLOCKSIZE ->
  disk_rep (s_dev s) I O.
Proof.
  intros Hr [Hsd Hfd Hvd] Hbs. pose proof Hr as [_ _ ? Hnb [_ [Hlen _]] Hnbits Hmt Hres Hown Hin Hlo _ Hul].
  destruct Hmt as [[Hsh Hmg _] Hnb' Hroom Hsup Hmap].
  specialize (Hsup Hsd). specialize (Hmap Hfd).
  assert (disk_blocks (s_dev s) = nblocks s) as Hn by (unfold nblocks; by rewrite <- Hsup).
  assert (0 <= nblocks s < 2 ^ 31) as Hn31 by lia.
  assert (forall b, 0 <= b < SFS_BITMAPSIZE (nblocks s) -> marked (s_freemap s) b = disk_bit (dk s) b) as Hbit.
  { intros b Hb. apply (marked_disk _ (nblocks s)); try done. by rewrite Hlen, Hnb', bitmap_words_of. }
  destruct (bitmap_sizes _ Hn31) as (_ & _ & ? & _).
  split; rewrite ?Hn; try done.
  - unfold disk_super. rewrite <- Hmg, <- Hsup. done.
  - intros b Hb Hu. change (dblock (s_dev s)) with (dk s). rewrite <- Hbit by done. apply Hres; [|done]. by rewrite Hnb'.
  - intros b o Ho. destruct (Hown _ _ Ho) as [Hu Hm]. split; [done|].
    change (dblock (s_dev s)) with (dk s). pose proof (usable_range _ _ Hu ltac:(lia)). by rewrite <- Hbit by lia.
  - intros ino i Hi. split; [by apply Hin|].
    destruct (decide (exists p sv, s_svs s !! p = Some sv /\ sv_ino sv = ino)) as [(p & sv & Hp & <-)|Hno].
    + destruct (Hlo _ _ Hp) as [Hi' Hd]. simplify_eq. by apply Hd, (Hvd p).
    + apply (Hul _ _ Hi). intros p sv Hp E. apply Hno. by exists p, sv.
Qed.

(** ** Syncing *)

Lemma sync_vnode_runs s I O ps bs i p : fs_rep s I O -> table s ps bs -> ps !! i = Some p ->
  runs (sync_vnode (Z.of_nat i)) s (fun _ s' => synced s I O s' /\ inode_clean s' p) (fun _ _ => False).
Proof.
  intros Hr Ht Hi. destruct (table_sv _ _ _ _ _ Ht Hi) as [sv Hp]. pose proof (tb_ok _ _ _ Ht _ _ Hp) as Hv.
  unfold sync_vnode. apply runs_bind. eapply runs_intro_ret; [by eapply table_guy|].
  apply runs_bind, runs_result_of. unfold vop. apply runs_bind.
  eapply (runs_intro_ret _ _ tt s).
  { unfold on_vnode. rewrite Hp, vnode_check_eq by done. do 2 f_equal. unfold with_svs.
    rewrite insert_id by (rewrite Hp; by destruct sv). apply sfs_eta. }
  apply runs_bind. eapply runs_intro_ret; [by apply sv_get_eq|].
  destruct Hv as (_ & _ & _ & Hops). destruct (vn_ops (sv_v sv)); [|done].
  eapply runs_mono; [by eapply sync_inode_runs| |done]. intros [] s' [Hs' Hsv]. apply runs_ret. split; [done|].
  intros sw. rewrite Hsv, lookup_insert_eq. by intros [= <-].
Qed.

Lemma sync_loop_runs s I O ps bs : fs_rep s I O -> table s ps bs ->
  runs (for_each (seqZ 0 (Z.of_nat (length ps))) sync_vnode) s
    (fun _ s' => synced s I O s' /\ forall p, inode_clean s' p) (fun _ _ => False).
Proof.
  intros Hr Ht.
  eapply (runs_for_each (fun pre post s' => synced s I O s' /\
    forall i p, (i < length pre)%nat -> ps !! i = Some p -> inode_clean s' p)).
  - split; [by apply synced_refl|]. simpl. lia.
  - intros pre x post s' Hl [Hs Hc].
    assert (x = Z.of_nat (length pre) /\ (length pre < length ps)%nat) as [-> Hlt].
    { assert (seqZ 0 (Z.of_nat (length ps)) !! length pre = Some x) as Hx
        by (rewrite Hl, lookup_app_r, Nat.sub_diag by lia; done).
      apply lookup_seqZ in Hx. lia. }
    destruct (lookup_lt_is_Some_2 ps _ Hlt) as [p Hp].
    eapply runs_mono; [eapply (sync_vnode_runs s' I O ps bs); [apply Hs|by eapply synced_table|exact Hp]| |done].
    intros [] s'' [Hs'' Hcp]. split; [by eapply synced_trans|]. intros i q Hi Hq.
    rewrite length_app in Hi. simpl in Hi.
    destruct (decide (i = length pre)) as [->|]; [by simplify_eq|].
    eapply synced_clean; [done|]. apply (Hc i); [lia|done].
  - intros s' [Hs Hc]. split; [done|]. intros p sv Hp.
    assert (p ∈ ps) as [i Hi]%list_elem_of_lookup_1.
    { apply (tb_dom _ _ _ (synced_table _ _ _ _ _ _ Hs Ht)). by exists sv. }
    apply (Hc i p); [|done|done]. rewrite length_seqZ. apply lookup_lt_Some in Hi. lia.
Qed.

(** *** The free map *)

Lemma rep_map_length s I O : fs_rep s I O ->
  length (b_v (s_freemap s)) = Z.to_nat (512 * SFS_BITBLOCKS (nblocks s)) /\
  byte_list (b_v (s_freemap s)) /\ 0 <= SFS_BITBLOCKS (nblocks s).
Proof.
  intros Hr. pose proof (rep_nblocks _ _ _ Hr) as [Hn Hn'].
  destruct (rep_bitmap _ _ _ Hr) as (_ & Hl & Hb & _). destruct (bitmap_sizes (nblocks s)) as (_ & _ & _ & Hk); [lia|].
  split; [|split; [|done]].
  - rewrite Hl, (mt_nbits _ (rep_meta _ _ _ Hr)), bitmap_words_of by lia. done.
  - apply Forall_lookup. intros k w Hw. by apply Hb in Hw.
Qed.

(** The disk after the first [k] blocks of the bitmap have been written. *)
Definition map_written s (k c : Z) : list Z :=
  if (SFS_MAP_LOCATION <=? c) && (c <? SFS_MAP_LOCATION + k)
  then slice ((c - SFS_MAP_LOCATION) * SFS_BLOCKSIZE) SFS_BLOCKSIZE (b_v (s_freemap s)) else dk s c.

Lemma dev_now_ext (f g : Z -> list Z) d d' : (forall c, 0 <= c < d_blocks d -> f c = g c) ->
  dev_now (U := U) f d d' -> dev_now (U := U) g d d'.
Proof. intros Hfg (? & ? & ? & Hc). split_and!; try done. intros c Hcr. by rewrite Hc, Hfg. Qed.

Lemma dev_now_step (f : Z -> list Z) d d1 d2 b (x : list Z) : dev_now (U := U) f d d1 ->
  dev_now (U := U) (fun c => if c =? b then x else dblock d1 c) d1 d2 ->
  dev_now (U := U) (fun c => if c =? b then x else f c) d d2.
Proof.
  intros (? & Hn & Hz & Hc) (? & Hn2 & Hz2 & Hc2). split_and!; try congruence.
  intros c Hcr. rewrite Hc2 by (by rewrite Hn). by rewrite Hc.
Qed.

Lemma mapio_write_block s I O k d1 : fs_rep s I O -> 0 <= k < SFS_BITBLOCKS (nblocks s) ->
  dev_now (map_written s k) (s_dev s) d1 ->
  runs (mapio_block UIO_WRITE k) (with_io (s_thread s, d1) s)
    (fun _ s' => exists d2, s' = with_io (s_thread s, d2) s /\ dev_now (map_written s (k + 1)) (s_dev s) d2)
    (fun _ _ => False).
Proof.
  intros Hr Hk Hd1. destruct (rep_map_length _ _ _ Hr) as (Hl & Hb & _).
  pose proof (rep_nblocks _ _ _ Hr) as [Hn Hn']. pose proof (mt_room _ (rep_meta _ _ _ Hr)) as Hroom.
  unfold SFS_MAP_LOCATION in Hroom.
  unfold mapio_block. apply runs_bind, runs_zoom.
  eapply (runs_intro_ret _ _ (slice (k * SFS_BLOCKSIZE) SFS_BLOCKSIZE (b_v (s_freemap s))) (s_freemap s)).
  { unfold map_block. simpl. unfold SFS_BLOCKSIZE. by zbool. }
  rewrite u32_small by (unfold SFS_MAP_LOCATION; lia). apply runs_zoom. simpl.
  pose proof Hd1 as (Hok1 & Hn1 & Hz1 & _).
  eapply runs_mono; [apply sfs_wblock_runs; [apply Hr|apply Hr|done| | |]| |done].
  - unfold addressable, SFS_MAP_LOCATION. lia.
  - unfold SFS_BLOCKSIZE. rewrite length_slice by lia. lia.
  - by apply byte_list_slice.
  - intros [] [t' d2] [-> Hd2]. exists d2. split; [done|].
    eapply dev_now_ext; [|by eapply dev_now_step]. intros c Hc. unfold map_written. simpl.
    unfold SFS_MAP_LOCATION. destruct (Z.eqb_spec c (2 + k)) as [->|].
    + rewrite (proj2 (Z.leb_le _ _)), (proj2 (Z.ltb_lt _ _)) by lia. simpl. do 2 f_equal. lia.
    + destruct (Z.leb_spec 2 c), (Z.ltb_spec c (2 + k)), (Z.ltb_spec c (2 + (k + 1))); simpl; try done; lia.
Qed.

(** Position in the list of block numbers. *)
Lemma seqZ_position n pre x post : seqZ 0 n = pre ++ x :: post -> x = Z.of_nat (length pre) /\ 0 <= x < n.
Proof.
  intros Hl. assert (seqZ 0 n !! length pre = Some x) as Hx by (rewrite Hl, lookup_app_r, Nat.sub_diag by lia; done).
  apply lookup_seqZ in Hx. lia.
Qed.

Lemma mapio_write_runs s I O : fs_rep s I O ->
  runs (sfs_mapio UIO_WRITE) s
    (fun _ s' => exists d', s' = with_io (s_thread s, d') s /\
       dev_now (map_written s (SFS_BITBLOCKS (nblocks s))) (s_dev s) d')
    (fun _ _ => False).
Proof.
  intros Hr. destruct (rep_map_length _ _ _ Hr) as (_ & _ & Hk0). unfold sfs_mapio. run.
  eapply (runs_for_each (fun pre post s' => exists d', s' = with_io (s_thread s, d') s /\
    dev_now (map_written s (Z.of_nat (length pre))) (s_dev s) d')).
  - exists (s_dev s). split; [by destruct s|].
    eapply dev_now_ext; [|by eapply dev_now_refl]. intros c _. unfold map_written, SFS_MAP_LOCATION.
    destruct (Z.leb_spec 2 c), (Z.ltb_spec c (2 + Z.of_nat (length (@nil Z)))); simpl in *; try done; lia.
  - intros pre x post s' Hl (d1 & -> & Hd1). apply seqZ_position in Hl as [-> Hx].
    rewrite length_app. simpl. replace (Z.of_nat (length pre + 1)) with (Z.of_nat (length pre) + 1) by lia.
    by eapply mapio_write_block.
  - intros s' (d' & -> & Hd'). exists d'. split; [done|]. rewrite length_seqZ in Hd'.
    change (sp_nblocks (s_super s)) with (nblocks s) in Hd'. by rewrite Z2Nat.id in Hd' by done.
Qed.

(** The free map is on disk. *)
Lemma rep_map_synced s I O d' : fs_rep s I O ->
  dev_now (map_written s (SFS_BITBLOCKS (nblocks s))) (s_dev s) d' ->
  let s' := with_freemapdirty false (with_io (s_thread s, d') s) in
  fs_rep s' I O /\ same_files (dk s) I (dk s') I.
Proof.
  intros Hr (Hd & Hn & Hz & Hc) s'. pose proof (rep_nblocks _ _ _ Hr) as [Hnb _].
  assert (forall b o, O !! b = Some o -> dblock d' b = dk s b) as Hdk.
  { intros b o Ho. destruct (rep_block _ _ _ _ _ Hr Ho) as (_ & [Hb _] & _). rewrite Hc by done.
    destruct (rep_owned _ _ _ Hr _ _ Ho) as [[[Hu|Hu] _] _]; unfold map_written, SFS_ROOT_LOCATION in *;
      destruct (Z.leb_spec SFS_MAP_LOCATION b), (Z.ltb_spec b (SFS_MAP_LOCATION + SFS_BITBLOCKS (nblocks s)));
      simpl; try done; unfold SFS_MAP_LOCATION in *; lia. }
  assert (dblock d' SFS_SB_LOCATION = dk s SFS_SB_LOCATION) as Hsb.
  { rewrite Hc by (unfold SFS_SB_LOCATION; lia). done. }
  pose proof (rep_meta _ _ _ Hr) as [Hsu Hnbits Hroom Hsd _].
  assert (meta_rep s') as Hmt.
  { split; try done; unfold s', dk, nblocks in *; simpl in *.
    - by rewrite Hsb.
    - intros _ j Hj. rewrite Hc by (unfold SFS_MAP_LOCATION in *; lia). unfold map_written, nblocks.
      rewrite (proj2 (Z.leb_le _ _)), (proj2 (Z.ltb_lt _ _)) by lia. simpl. do 2 f_equal. lia. }
  assert (fs_rep (with_freemapdirty true s) I O) as Hr0.
  { destruct Hr. by split. }
  destruct (rep_quiet_meta (with_freemapdirty true s) I O (s_thread s) d' Hr0) as [Hr' Hs']; try done;
    [apply Hr|apply Hr| |].
  { destruct Hmt. by split. }
  split; [|done]. destruct Hr'. by split.
Qed.

(** ... and so is the superblock. *)
Lemma rep_super_synced s I O d' : fs_rep s I O ->
  dev_now (fun c => if c =? SFS_SB_LOCATION then encode_super (s_super s) else dk s c) (s_dev s) d' ->
  let s' := with_superdirty false (with_io (s_thread s, d') s) in
  fs_rep s' I O /\ same_files (dk s) I (dk s') I.
Proof.
  intros Hr (Hd & Hn & Hz & Hc) s'. pose proof (rep_nblocks _ _ _ Hr) as [Hnb _].
  assert (forall b, 0 < b < nblocks s -> dblock d' b = dk s b) as Hpos.
  { intros b Hb. rewrite Hc by lia. unfold SFS_SB_LOCATION. by zbool. }
  assert (forall b o, O !! b = Some o -> dblock d' b = dk s b) as Hdk.
  { intros b o Ho. apply Hpos. by destruct (rep_block _ _ _ _ _ Hr Ho). }
  pose proof (rep_meta _ _ _ Hr) as [Hsu Hnbits Hroom _ Hm].
  assert (meta_rep s') as Hmt.
  { split; try done; unfold s', dk, nblocks in *; simpl in *.
    - intros _. rewrite Hc by (unfold SFS_SB_LOCATION; lia). simpl. destruct Hsu as [Hsh _ Hse].
      rewrite decode_encode_super by done. unfold seal_volname. rewrite list_insert_id by done. by destruct (s_super s).
    - intros Hfd j Hj. rewrite Hpos; [by apply Hm|]. unfold SFS_MAP_LOCATION in *. lia. }
  assert (fs_rep (with_superdirty true s) I O) as Hr0.
  { destruct Hr. by split. }
  destruct (rep_quiet_meta (with_superdirty true s) I O (s_thread s) d' Hr0) as [Hr' Hs']; try done;
    [apply Hr|apply Hr| |].
  { destruct Hmt. by split. }
  split; [|done]. destruct Hr'. by split.
Qed.

(** What [sfs_sync] leaves: the same files, all on disk. *)
Record flushed s I O s' : Prop := {
  fl_rep : fs_rep s' I O;
  fl_clean : clean s';
  fl_files : same_files (dk s) I (dk s') I;
  fl_thread : s_thread s' = s_thread s;
  fl_heap : s_heap s' = s_heap s;
  fl_fs : s_self s' = s_self s /\ s_super s' = s_super s /\ s_freemap s' = s_freemap s;
  fl_vnodes : s_vnodes s' = s_vnodes s;
  fl_svs : forall q, s_svs s' !! q = set_dirty false <$> s_svs s !! q;
  fl_dev : d_blocksize (s_dev s') = d_blocksize (s_dev s);
}.

Lemma flushed_table s I O s' ps bs : flushed s I O s' -> table s ps bs -> table s' ps bs.
Proof.
  intros [_ _ _ _ Hh _ Hv Hs _] Ht. eapply table_svs; [done|done|done|].
  intros p. rewrite Hs. by destruct (s_svs s !! p).
Qed.

Lemma synced_flushed s I O s' s'' : synced s I O s' -> (forall p, inode_clean s' p) ->
  fs_rep s'' I O -> same_files (dk s') I (dk s'') I ->
  (exists d'', s'' = with_superdirty false (with_freemapdirty false (with_io (s_thread s', d'') s')) /\
     d_blocksize d'' = d_blocksize (s_dev s')) ->
  flushed s I O s''.
Proof.
  intros [Hr Hf ? ? (? & ? & ?) [? ?] ? ? Hs] Hc Hr' Hf' (d'' & -> & Hz).
  split; try done; simpl; try congruence.
  - by eapply same_files_trans.
  - intros q. specialize (Hc q). destruct (Hs q) as [E|E]; [|done]. unfold inode_clean in Hc.
    rewrite E in *. destruct (s_svs s !! q) as [sv|]; [|done]. simpl. specialize (Hc sv eq_refl).
    destruct sv; simpl in *; subst; done.
Qed.

Lemma sync_freemap_runs s I O : fs_rep s I O ->
  runs sync_freemap s
    (fun _ s' => fs_rep s' I O /\ same_files (dk s) I (dk s') I /\
       exists d', s' = with_freemapdirty false (with_io (s_thread s, d') s) /\
         d_blocksize d' = d_blocksize (s_dev s))
    (fun _ _ => False).
Proof.
  intros Hr. unfold sync_freemap. run. destruct (s_freemapdirty s) eqn:Ed.
  - apply runs_bind. eapply runs_mono; [by eapply mapio_write_runs| |done].
    intros [] s' (d' & -> & Hd'). destruct (rep_map_synced _ _ _ _ Hr Hd') as [Hr' Hs']. run.
    split_and!; try done. exists d'. by destruct Hd' as (_ & _ & ? & _).
  - run. split_and!; [done|by apply same_files_refl|]. exists (s_dev s). split; [|done].
    destruct s; simpl in *; by subst.
Qed.

Lemma sync_super_runs s I O : fs_rep s I O ->
  runs sync_super s
    (fun _ s' => fs_rep s' I O /\ same_files (dk s) I (dk s') I /\
       exists d', s' = with_superdirty false (with_io (s_thread s, d') s) /\
         d_blocksize d' = d_blocksize (s_dev s))
    (fun _ _ => False).
Proof.
  intros Hr. unfold sync_super. run. destruct (s_superdirty s) eqn:Ed.
  - run. apply runs_zoom. pose proof (rep_nblocks _ _ _ Hr) as [Hn _].
    destruct (encode_super_shape (s_super s)) as [Hl Hb]; [apply (sg_shape _ (mt_super _ (rep_meta _ _ _ Hr)))|].
    eapply runs_mono; [apply sfs_wblock_runs; [apply Hr|apply Hr|apply Hr| |done|done]| |done].
    { unfold addressable, SFS_SB_LOCATION. lia. }
    intros [] [t' d'] [-> Hd']. destruct (rep_super_synced _ _ _ _ Hr Hd') as [Hr' Hs']. run.
    split_and!; try done. exists d'. by destruct Hd' as (_ & _ & ? & _).
  - run. split_and!; [done|by apply same_files_refl|]. exists (s_dev s). split; [|done].
    destruct s; simpl in *; by subst.
Qed.

Lemma sync_spec s I O ps bs : fs_rep s I O -> table s ps bs ->
  runs sfs_sync s (fun _ s' => flushed s I O s') (fun _ _ => False).
Proof.
  intros Hr Ht. unfold sfs_sync. apply runs_bind.
  eapply (runs_intro_ret _ _ (Z.of_nat (length ps)) s).
  { unfold on_vnodes, zoom, array_getnum, gets. simpl. rewrite (table_num _ _ _ Ht). f_equal. by destruct s. }
  apply runs_bind. eapply runs_mono; [by eapply sync_loop_runs| |done]. intros [] s1 [Hs1 Hc1].
  apply runs_bind. eapply runs_mono; [eapply sync_freemap_runs, Hs1| |done].
  intros [] s2 (Hr2 & Hf2 & d2 & -> & Hz2).
  eapply runs_mono; [eapply sync_super_runs, Hr2| |done].
  intros [] s3 (Hr3 & Hf3 & d3 & -> & Hz3).
  eapply synced_flushed; [done|done|done|by eapply same_files_trans|]. exists d3. split; [done|]. simpl in *. congruence.
Qed.

(** ** Unmounting *)

(** The heap blocks of the mounted file system itself. *)
Definition fs_blocks s : list (Z * Z) :=
  [(b_addr (s_freemap s), bitmap_words (nbits (s_freemap s))); (b_self (s_freemap s), 8); (s_self s, sizeof_sfs_fs)].

Lemma vnodes_num_eq s ps bs : table s ps bs -> on_vnodes array_getnum s = (Ret (Z.of_nat (length ps)), s).
Proof.
  intros Ht. unfold on_vnodes, zoom, array_getnum, gets. simpl. rewrite (table_num _ _ _ Ht).
  f_equal. by destruct s.
Qed.

Lemma heap_free_runs s p n bs Q : heap_ok (s_heap s) -> owns (s_heap s) ((p, n) :: bs) ->
  (forall h, heap_ok h -> owns h bs -> Q tt (with_heap h s)) ->
  runs (on_heap (kfree p)) s Q (fun _ _ => False).
Proof.
  intros Hok Ho HQ. apply runs_zoom. eapply runs_mono; [by eapply kfree_owns| |done].
  intros [] h (? & ? & _). by apply HQ.
Qed.

Lemma unmount_spec s I O bs : clean s -> table s [] (fs_blocks s ++ bs) ->
  runs sfs_unmount s
    (fun _ s' => s_thread s' = s_thread s /\ s_dev s' = s_dev s /\ heap_ok (s_heap s') /\ owns (s_heap s') bs)
    (fun _ _ => False).
Proof.
  intros [Hs Hf _] Ht. pose proof (tb_array _ _ _ Ht) as Ha. simpl in Ha.
  unfold sfs_unmount. apply runs_bind. eapply runs_intro_ret; [by eapply vnodes_num_eq|]. simpl. run.
  { by rewrite Hs. } run. { by rewrite Hf. }
  apply runs_zoom. eapply runs_mono; [by eapply array_destroy_spec| |done].
  intros [] [a h1] [Hok1 Ho1]. simpl in *. run. unfold bitmap_destroy.
  apply runs_zoom. run. eapply runs_mono; [by eapply kfree_owns| |done]. intros [] h2 (Hok2 & Ho2 & _).
  eapply runs_mono; [by eapply kfree_owns| |done]. intros [] h3 (Hok3 & Ho3 & _). run.
  by eapply (heap_free_runs _ _ _ bs).
Qed.

Lemma unmount_busy s ps bs : table s ps bs -> ps <> [] -> sfs_unmount s = (Err EBUSY, s).
Proof.
  intros Ht Hne. unfold sfs_unmount, bind. rewrite (vnodes_num_eq _ _ _ Ht).
  destruct ps as [|p ps]; [done|]. by destruct (Z.gtb_spec (Z.of_nat (length (p :: ps))) 0); simpl in *; [|lia].
Qed.

(** ** Mounting *)

(** The free map while it is read: [v] are its bytes. *)
Definition with_map_bytes (v : list Z) s : sfs U D H :=
  with_freemap (mk_bitmap (b_self (s_freemap s)) (nbits (s_freemap s)) (b_addr (s_freemap s)) v) s.

(** The first [k] blocks have been read into [v]. *)
Record map_loaded s (k : Z) (v : list Z) : Prop := {
  ml_length : length v = Z.to_nat (512 * SFS_BITBLOCKS (nblocks s));
  ml_bytes : byte_list v;
  ml_blocks : forall j, 0 <= j < k -> slice (j * SFS_BLOCKSIZE) SFS_BLOCKSIZE v = dk s (SFS_MAP_LOCATION + j);
}.

(** What reading the bitmap needs. *)
Record map_readable s : Prop := {
  mr_umem : umem_ok (umem (s_thread s));
  mr_badfault : badfault (s_thread s) = false;
  mr_dev : dev_ok (s_dev s);
  mr_nblocks : 0 <= nblocks s < 2 ^ 22 - 1;
  mr_room : SFS_MAP_LOCATION + SFS_BITBLOCKS (nblocks s) <= d_blocks (s_dev s);
  mr_small : SFS_MAP_LOCATION + SFS_BITBLOCKS (nblocks s) <= nblocks s;
}.

Lemma mapio_read_block s k v d1 : map_readable s -> 0 <= k < SFS_BITBLOCKS (nblocks s) ->
  dev_now (dk s) (s_dev s) d1 -> map_loaded s k v ->
  runs (mapio_block UIO_READ k) (with_map_bytes v (with_io (s_thread s, d1) s))
    (fun _ s' => exists d2 v2, s' = with_map_bytes v2 (with_io (s_thread s, d2) s) /\
       dev_now (dk s) (s_dev s) d2 /\ map_loaded s (k + 1) v2)
    (fun _ _ => False).
Proof.
  intros [Hu Hbf Hd Hn Hroom Hsm] Hk Hd1 [Hl Hb Hbl]. unfold SFS_MAP_LOCATION in *.
  pose proof Hd1 as (Hok1 & Hn1 & Hz1 & Hc1).
  unfold mapio_block. unfold SFS_MAP_LOCATION. rewrite u32_small by lia. apply runs_bind, runs_zoom. simpl.
  eapply runs_mono; [apply sfs_rblock_runs; [done|done|done|unfold addressable; lia]| |done].
  intros x [t' d2] (-> & -> & Hok2 & Hn2 & Hz2 & Hc2). simpl.
  rewrite Hc1 by lia. destruct (dblock_len (s_dev s) (2 + k) Hd) as [Hxl Hxb]; [lia|].
  change (dblock (s_dev s) (2 + k)) with (dk s (2 + k)) in *.
  apply runs_zoom. unfold set_map_block, runs. simpl. unfold SFS_BLOCKSIZE in *. zbool.
  exists d2, (splice (k * 512) (dk s (2 + k)) v). split; [done|]. split.
  { split_and!; try congruence. intros c Hc. rewrite Hc2 by lia. by apply Hc1. }
  split.
  - rewrite length_splice; [done|lia|lia].
  - by apply byte_list_splice.
  - intros j Hj. unfold SFS_BLOCKSIZE. destruct (decide (j = k)) as [->|].
    + change 512 with (Z.of_nat 512) at 2. rewrite <- Hxl. by rewrite slice_splice_same by lia.
    + rewrite slice_splice_before by lia. apply Hbl. lia.
Qed.

Lemma mapio_read_runs s : map_readable s -> map_loaded s 0 (b_v (s_freemap s)) ->
  runs (sfs_mapio UIO_READ) s
    (fun _ s' => exists d' v, s' = with_map_bytes v (with_io (s_thread s, d') s) /\
       dev_now (dk s) (s_dev s) d' /\ map_loaded s (SFS_BITBLOCKS (nblocks s)) v)
    (fun _ _ => False).
Proof.
  intros Hs Hm. destruct (bitmap_sizes (nblocks s)) as (_ & _ & _ & Hk0); [pose proof (mr_nblocks _ Hs); lia|].
  unfold sfs_mapio. run.
  eapply (runs_for_each (fun pre post s' => exists d' v, s' = with_map_bytes v (with_io (s_thread s, d') s) /\
    dev_now (dk s) (s_dev s) d' /\ map_loaded s (Z.of_nat (length pre)) v)).
  - exists (s_dev s), (b_v (s_freemap s)). split; [by destruct s as [? ? ? ? ? ? [] ? ? ?]|].
    split; [split; [apply Hs|done]|done].
  - intros pre x post s' Hl (d1 & v & -> & Hd1 & Hv). apply seqZ_position in Hl as [-> Hx].
    rewrite length_app. simpl. replace (Z.of_nat (length pre + 1)) with (Z.of_nat (length pre) + 1) by lia.
    by apply mapio_read_block.
  - intros s' (d' & v & -> & Hd' & Hv). exists d', v. split_and!; [done|done|]. rewrite length_seqZ in Hv.
    change (sp_nblocks (s_super s)) with (nblocks s) in Hv. by rewrite Z2Nat.id in Hv by done.
Qed.

(** The state that mounting builds represents the file system of the disk. *)
Lemma mounted_rep s I O d : disk_rep d I O -> umem_ok (umem (s_thread s)) -> badfault (s_thread s) = false ->
  dev_now (dblock d) d (s_dev s) -> s_super s = seal_volname (disk_super d) -> s_svs s = ∅ ->
  nbits (s_freemap s) = SFS_BITMAPSIZE (disk_blocks d) ->
  length (b_v (s_freemap s)) = Z.to_nat (512 * SFS_BITBLOCKS (disk_blocks d)) ->
  byte_list (b_v (s_freemap s)) -> map_on_disk (dblock d) (disk_blocks d) (s_freemap s) ->
  fs_rep s I O /\ same_files (dblock d) I (dk s) I.
Proof.
  intros [Hdev Hbs Hmg [Hn1 Hn2] Hroom Hres Hown Hin] Hu Hbf (Hd & Hdn & Hz & Hc) Hsup Hsvs Hnb Hl Hby Hmap.
  assert (nblocks s = disk_blocks d) as Hn by (unfold nblocks; by rewrite Hsup).
  destruct (bitmap_sizes (disk_blocks d)) as (_ & Hsz & ? & ?); [lia|].
  pose proof (bitmap_words_of (disk_blocks d) ltac:(lia)) as Hw.
  assert (forall b, 0 <= b < SFS_BITMAPSIZE (disk_blocks d) -> marked (s_freemap s) b = disk_bit (dblock d) b) as Hbit.
  { intros b Hb. apply (marked_disk _ (disk_blocks d)); [lia|done..]. }
  assert (forall b, 0 <= b < disk_blocks d -> dk s b = dblock d b) as Hdk by (intros b Hb; apply Hc; lia).
  assert (forall b o, O !! b = Some o -> 0 < b < disk_blocks d) as Hor.
  { intros b o Ho. apply usable_range; [by apply (Hown _ _ Ho)|lia]. }
  assert (forall ino i, I !! ino = Some i -> sfi_indirect i <> 0 -> dk s (sfi_indirect i) = dblock d (sfi_indirect i)) as Hind.
  { intros ino i Hi Hnz. apply Hdk. destruct (Hin _ _ Hi) as [Hg _]. pose proof (Hor _ _ (ig_indirect _ _ _ _ Hg Hnz)). lia. }
  split.
  - split; try done; rewrite ?Hn, ?Hsvs; try done.
    + by rewrite Hdn.
    + split; [lia|]. rewrite Hnb, Hw. split; [done|]. split; [|lia].
      intros k w Hk. by eapply Forall_lookup_1 in Hby.
    + lia.
    + split; rewrite ?Hn, ?Hsup; try done.
      * apply seal_good; [|done]. apply decode_super_shape; apply dblock_len; unfold SFS_SB_LOCATION; lia || done.
      * intros _. rewrite Hdk by (unfold SFS_SB_LOCATION; lia). done.
      * intros _ j Hj. unfold SFS_MAP_LOCATION in *. rewrite Hdk by lia. by apply Hmap.
    + intros b Hb Hnu. rewrite Hbit by lia. by apply Hres; [lia|].
    + intros b o Ho. destruct (Hown _ _ Ho) as [? ?]. pose proof (Hor _ _ Ho). by rewrite Hbit by lia.
    + intros ino i Hi. destruct (Hin _ _ Hi) as [Hg _]. eapply good_mono; [done|by eapply Hind|done].
    + intros ino i Hi _. destruct (Hin _ _ Hi) as [Hg <-]. apply Hdk.
      pose proof (Hor _ _ (ig_self _ _ _ _ Hg)). lia.
  - apply same_files_intro. intros j i Hi m Hm.
    destruct (Hin _ _ Hi) as [Hg _]. apply file_byte_ext; [by eapply Hind|]. intros Hnz. apply Hdk.
    pose proof (Hor _ _ (ig_data _ _ _ _ Hg _ (block_range _ Hm) Hnz)). lia.
Qed.

(** What a failed mount leaves: the disk, and no memory. *)
Definition mount_failed (t : uthread U) d bs (s' : sfs U D H) : Prop :=
  s_thread s' = t /\ dev_now (dblock d) d (s_dev s') /\ heap_ok (s_heap s') /\ owns (s_heap s') bs.

Lemma mount_undo_runs t d s bs : s_thread s = t -> dev_now (dblock d) d (s_dev s) ->
  array_at (s_vnodes s) (s_heap s) ((s_self s, sizeof_sfs_fs) :: bs) ->
  runs mount_undo s (fun _ s' => mount_failed t d bs s') (fun _ _ => False).
Proof.
  intros Ht Hd Ha. unfold mount_undo. apply runs_bind, runs_zoom.
  eapply runs_mono; [by eapply array_destroy_spec| |done]. intros [] [a h1] [Hok1 Ho1]. simpl in *. run.
  by eapply (heap_free_runs _ _ _ bs).
Qed.

Definition mount_done (t : uthread U) d I O bs (s' : sfs U D H) : Prop :=
  fs_rep s' I O /\ same_files (dblock d) I (dk s') I /\ clean s' /\ s_svs s' = ∅ /\ s_thread s' = t /\
  d_blocksize (s_dev s') = SFS_BLOCKSIZE /\ table s' [] (fs_blocks s' ++ bs).

(** The bitmap has been allocated: read it. *)
Lemma mount_map_runs t d I O bs bm s : disk_rep d I O -> umem_ok (umem t) -> badfault t = false ->
  s_thread s = t -> dev_now (dblock d) d (s_dev s) -> s_super s = seal_volname (disk_super d) ->
  s_svs s = ∅ -> contents (s_vnodes s) = [] ->
  bitmap_ok bm -> nbits bm = SFS_BITMAPSIZE (disk_blocks d) ->
  array_at (s_vnodes s) (s_heap s) (fs_blocks (with_freemap bm s) ++ bs) ->
  runs (mount_map bm) s
    (fun _ s' => mount_done t d I O bs s') (fun _ _ => False).
Proof.
  intros Hdr Hu Hbf Ht Hd Hsup Hsvs Hcont Hbm Hnb Ha. unfold mount_map. run.
  pose proof Hdr as [Hdev Hbs _ [Hn1 Hn2] Hroom _ _ _].
  assert (nblocks (with_freemap bm s) = disk_blocks d) as Hn by (unfold nblocks; simpl; by rewrite Hsup).
  destruct (bitmap_sizes (disk_blocks d)) as (_ & Hsz & ? & ?); [lia|].
  pose proof (bitmap_words_of (disk_blocks d) ltac:(lia)) as Hw.
  destruct Hbm as (_ & Hl & Hby & _). rewrite Hnb, Hw in Hl. pose proof Hd as (Hd1 & Hd2 & Hd3 & Hd4).
  eapply runs_mono; [apply mapio_read_runs| |done].
  { split; rewrite ?Hn; simpl; rewrite ?Ht; try done; lia. }
  { split; rewrite ?Hn; [done| |lia]. apply Forall_lookup. intros k w Hk. by apply Hby in Hk. }
  intros [] s' (d' & v & -> & Hd' & [Hvl Hvb Hvm]). rewrite Hn in *. simpl in *. run.
  assert (dev_now (dblock d) d d') as Hdd.
  { destruct Hd' as (? & ? & ? & Hc'). split_and!; try congruence. intros c Hc. rewrite Hc' by lia. by apply Hd4. }
  set (s' := with_freemapdirty false _).
  destruct (mounted_rep s' I O d Hdr) as [Hr Hf]; try done; [simpl; by rewrite ?Ht..| |].
  { intros j Hj. simpl. unfold SFS_MAP_LOCATION in *. rewrite Hvm by lia. unfold dk. simpl. by rewrite Hd4 by lia. }
  unfold mount_done. split_and!; try done.
  - split; try done. simpl. rewrite Hsvs. intros p sv Hp. by apply lookup_empty_Some in Hp.
  - simpl. destruct Hdd as (_ & _ & Hz & _). congruence.
  - split; simpl; rewrite ?Hsvs; try done.
    + constructor.
    + intros p. split; [intros [? Hp]; by apply lookup_empty_Some in Hp|set_solver].
Qed.


Lemma mount_load_runs t d I O bs self a (h : H) : disk_rep d I O -> umem_ok (umem t) -> badfault t = false ->
  array_at a h ((self, sizeof_sfs_fs) :: bs) -> contents a = [] ->
  runs mount_load (fresh_sfs ((t, d), h) self a)
    (fun _ s' => mount_done t d I O bs s')
    (fun e s' => e = ENOMEM /\ mount_failed t d bs s').
Proof.
  intros Hdr Hu Hbf Ha Hcont. pose proof Hdr as [Hdev Hbs Hmg [Hn1 Hn2] Hroom _ _ _].
  unfold mount_load. apply runs_bind, runs_try, runs_zoom. simpl.
  eapply runs_mono; [apply sfs_rblock_runs; [done|done|done|unfold addressable, SFS_SB_LOCATION; lia]| |done].
  intros x [t' d1] (-> & -> & Hd1). run.
  change (decode_super (dblock d SFS_SB_LOCATION)) with (disk_super d).
  match goal with |- context [sp_magic (s_super ?s)] => change (s_super s) with (disk_super d) end. rewrite Hmg, Z.eqb_refl. cbn [negb]. run.
  set (s1 := with_super (U := U) (D := D) (H := H) (seal_volname (disk_super d)) _). apply runs_zoom. change (s_heap s1) with h.
  change (sp_nblocks (disk_super d)) with (disk_blocks d).
  pose proof Ha as (Hok & Hnum & Hmax & Hlen & Hv & Ho).
  destruct (bitmap_sizes (disk_blocks d)) as (_ & _ & ? & _); [lia|].
  eapply runs_mono; [eapply bitmap_create_correct; [done|exact Ho|lia]| |done].
  intros [bm|] h1 (Hok1 & Hbm).
  - destruct Hbm as (Hbm & Hnb & _ & Ho1). eapply runs_mono; [eapply (mount_map_runs t d I O bs); try done|by intros []|done].
    do 5 (split; [done|]). eapply owns_perm; [|exact Ho1]. simpl.
    rewrite Hnb. solve_Permutation.
  - destruct Hbm as [Ho1 _]. apply runs_bind. eapply runs_mono; [eapply (mount_undo_runs t d); [done|done|]| |done].
    { simpl. by do 5 (split; [done|]). }
    intros [] s' Hs'. by apply runs_fail.
Qed.

Lemma mount_spec t d I O bs (h : H) : disk_rep d I O -> umem_ok (umem t) -> badfault t = false ->
  heap_ok h -> owns h bs ->
  runs sfs_domount ((t, d), h)
    (fun s x' => mount_done t d I O bs s /\ x' = ((s_thread s, s_dev s), s_heap s))
    (fun e x' => e = ENOMEM /\ x'.1.1 = t /\ dev_now (dblock d) d x'.1.2 /\ heap_ok x'.2 /\ owns x'.2 bs).
Proof.
  intros Hdr Hu Hbf Hok Ho. pose proof Hdr as [Hdev Hbs _ _ _ _ _ _].
  unfold sfs_domount. run. simpl. rewrite Hbs, Z.eqb_refl. cbn [negb]. run. 
  assert (dev_now (dblock d) d d) as Hdd by (by split).
  eapply runs_mono; [by eapply kmalloc_owns; [..|unfold sizeof_sfs_fs, SFS_BLOCKSIZE; lia]| |done].
  intros self h1 (Hok1 & [(-> & Ho1 & _)|(Hnz & Ho1 & _)]); [by run|]. zbool. run. simpl.
  eapply runs_mono; [by eapply array_create_spec| |done]. intros [a|] h2 Ha.
  - destruct Ha as [Ha Hc]. pose proof (mount_load_runs t d I O bs self a h2 Hdr Hu Hbf Ha Hc) as Hr.
    unfold runs, on_fresh in *. simpl. destruct (mount_load _) as [[] s']; try done.
  - destruct Ha as [Hok2 Ho2]. run. simpl.
    eapply runs_mono; [by eapply kfree_owns| |done]. intros [] h3 (? & ? & _). by run.
Qed.

End fs.

(** ** Theorems *)

(** C12: [sfs_sync] never fails on a disk in good order.  It writes every inode
    that is only in memory, the free map and the superblock, so that the disk
    alone holds the file system afterwards; the vnodes stay loaded, and no file
    changes. *)
Theorem sfs_sync_correct {U D H : Type} `{BlockDevLaws U D} `{!Heap H} `{!HeapLaws H}
    (s : sfs U D H) I O ps bs :
  fs_rep s I O -> table s ps bs -> d_blocksize (s_dev s) = SFS_BLOCKSIZE ->
  runs sfs_sync s
    (fun _ s' => flushed s I O s' /\ table s' ps bs /\ disk_rep (s_dev s') I O)
    (fun _ _ => False).
Proof.
  intros Hr Ht Hz. eapply runs_mono; [by eapply sync_spec| |done]. intros [] s' Hf. split; [done|].
  split; [by eapply flushed_table|]. apply (clean_disk s'); [apply Hf|apply Hf|].
  by rewrite (fl_dev _ _ _ _ Hf).
Qed.


(** C5: files survive unmounting.  With no vnode loaded, syncing and unmounting
    succeed and return all memory, and mounting the disk again gives the same
    files with the same contents, unless memory runs out. *)
Theorem sfs_remount {U D H : Type} `{BlockDevLaws U D} `{!Heap H} `{!HeapLaws H}
    (s : sfs U D H) I O bs :
  fs_rep s I O -> table s [] (fs_blocks s ++ bs) -> d_blocksize (s_dev s) = SFS_BLOCKSIZE ->
  runs (sfs_sync ;;; sfs_unmount) s
    (fun _ s1 => owns (s_heap s1) bs /\
       runs sfs_domount ((s_thread s1, s_dev s1), s_heap s1)
         (fun s2 _ => fs_rep s2 I O /\ same_files (dk s) I (dk s2) I /\ clean s2 /\ s_svs s2 = ∅)
         (fun e x => e = ENOMEM /\ owns x.2 bs))
    (fun _ _ => False).
Proof.
  intros Hr Ht Hz. apply runs_bind. eapply runs_mono; [by eapply sync_spec| |done]. intros [] s' Hf.
  pose proof Hf as [Hr' Hc Hfi Hth _ (Hs1 & _ & Hs2) _ _ Hz'].
  assert (disk_rep (s_dev s') I O) as Hd by (apply clean_disk; [done|done|congruence]).
  eapply runs_mono; [apply (unmount_spec s' I O bs Hc)| |done].
  { replace (fs_blocks s') with (fs_blocks s) by (unfold fs_blocks; by rewrite Hs1, Hs2).
    by eapply flushed_table. }
  intros [] s1 (-> & -> & Hok & Ho). split; [done|].
  eapply runs_mono; [apply (mount_spec _ _ I O bs); [done|apply Hr'|apply Hr'|done|done]|..].
  - intros s2 x [(? & Hfi2 & ? & ? & _) _]. split_and!; try done. by eapply same_files_trans.
  - by intros e x (-> & _ & _ & _ & ?).
Qed.

(** *** Witnesses *)

Lemma sample_clean {H} (h : H) : clean (sample h).
Proof. split; [done|done|]. intros p sv Hp. simpl in Hp. in_map Hp; done. Qed.

Lemma sample_disk_rep : disk_rep sample_disk sample_I sample_O.
Proof. apply (clean_disk (sample tt)); [apply sample_rep|apply sample_clean|done]. Qed.

Lemma sfs_sync_correct_witness :
  runs sfs_sync (sample sample_heap)
    (fun _ s' => flushed (sample sample_heap) sample_I sample_O s' /\ table s' [1000; 2000] [] /\
       disk_rep (s_dev s') sample_I sample_O)
    (fun _ _ => False).
Proof.
  apply (sfs_sync_correct (sample sample_heap) sample_I sample_O [1000; 2000] []);
    [apply sample_rep|apply sample_table|done].
Defined.


(** The sample volume, mounted, with no file in memory. *)
Definition idle_heap : Quota.heap := Quota.mk 8000 9 (list_to_map [(5000, sizeof_sfs_fs); (70, 8); (1200, 512); (4000, 12)]).

Definition idle_volume : sfs flat (lhd_softc card) Quota.heap :=
  mk_sfs idle_thread sample_disk idle_heap 5000 sample_super false
    (mk_bitmap 70 4096 1200 (63 :: replicate 511 255)) false (mk_array 4000 0 0 0 []) ∅.

Lemma idle_rep : fs_rep idle_volume sample_I sample_O.
Proof.
  apply (mounted_rep idle_volume sample_I sample_O sample_disk); try done.
  - apply sample_disk_rep.
  - split; [apply sample_disk_ok|done].
  - apply Forall_cons. split; [lia|]. by apply byte_list_replicate.
  - intros j Hj. change (0 <= j < 1) in Hj. assert (j = 0) as -> by lia. by vm_compute.
Qed.

Lemma idle_table : table idle_volume [] (fs_blocks idle_volume ++ []).
Proof.
  split; [done|constructor| | |done].
  - intros p. split; [by intros []|by intros ?%not_elem_of_nil].
  - split; [apply heap_checks_ok; by vm_compute|]. split; [simpl; lia|]. split; [simpl; lia|]. split; [done|].
    split; [done|]. apply owns_checks_ok. by vm_compute.
Qed.

Lemma sfs_remount_witness :
  runs (sfs_sync ;;; sfs_unmount) idle_volume
    (fun _ s1 => owns (s_heap s1) [] /\
       runs sfs_domount ((s_thread s1, s_dev s1), s_heap s1)
         (fun s2 _ => fs_rep s2 sample_I sample_O /\ same_files (dk idle_volume) sample_I (dk s2) sample_I /\
            clean s2 /\ s_svs s2 = ∅)
         (fun e x => e = ENOMEM /\ owns x.2 []))
    (fun _ _ => False).
Proof.
  apply (sfs_remount idle_volume sample_I sample_O []); [apply idle_rep|apply idle_table|done].
Defined.
