(* ===== verification/VfsOps.v ===== *)
(** What the VFS layer asks of the file systems and devices below it: the vnode
    operations of kern/include/vnode.h and the file system operations of
    kern/include/fs.h.

    [Vops] is the interface, the function tables as the VFS code calls them.
    [VopsLaws] states how the operations account for references and opens, which
    is what the VFS layer relies on.  Dev.v implements both for the vnodes of
    devices. *)

From Stdlib Require Import ZArith Lia.
From stdpp Require Import prelude gmap gmultiset list.
From S2P Require Import Prelude Str Heap SynchObj Vnode Pages Copy Uio.

(** ** The operations *)

(** [W] is the state below the VFS layer: vnodes, file systems, devices, the heap
    and the memory of the current thread.  Vnodes and file systems are addresses;
    names and paths are strings, of which a NULL pointer is [None]. *)
Class Vops (U W : Type) := {
  VOP_INCREF : Z -> M W unit;
  VOP_DECREF : Z -> M W unit;
  VOP_INCOPEN : Z -> M W unit;
  VOP_DECOPEN : Z -> M W unit;
  VOP_OPEN : Z -> Z -> M W unit;
  VOP_READLINK : Z -> M (uio * W) unit;
  VOP_GETTYPE : Z -> M W Z;
  VOP_TRUNCATE : Z -> Z -> M W unit;
  VOP_NAMEFILE : Z -> M (uio * W) unit;
  VOP_CREAT : Z -> list Z -> bool -> M W Z;
  VOP_SYMLINK : Z -> list Z -> list Z -> M W unit;
  VOP_MKDIR : Z -> list Z -> M W unit;
  VOP_LINK : Z -> list Z -> Z -> M W unit;
  VOP_REMOVE : Z -> list Z -> M W unit;
  VOP_RMDIR : Z -> list Z -> M W unit;
  VOP_RENAME : Z -> list Z -> Z -> list Z -> M W unit;
  VOP_LOOKUP : Z -> list Z -> M W Z;
  (** The directory and what the buffer of the given length holds. *)
  VOP_LOOKPARENT : Z -> list Z -> Z -> M W (Z * list Z);
  VN_FS : Z -> M W Z;
  FSOP_SYNC : Z -> M W unit;
  FSOP_GETVOLNAME : Z -> M W (option (list Z));
  FSOP_GETROOT : Z -> M W Z;
  FSOP_UNMOUNT : Z -> M W unit;
  dev_create_vnode : Z -> M W Z;
  w_thread : W -> uthread U;
  with_thread : uthread U -> W -> W;
}.

(** ** References *)

(** A reference: a vnode and the file system it belongs to. *)
Abbreviation ref := (Z * Z)%type.

(** The clients hold the references [rs]; through the handles [hs] they hold a
    reference and have the vnode open; the file systems [ms] are mounted. *)
Record account := mk_account { rs : gmultiset ref; hs : gmultiset ref; ms : gset Z }.

Definition add_ref (r : ref) (a : account) : account := mk_account ({[+ r +]} ⊎ rs a) (hs a) (ms a).
Definition add_handle (r : ref) (a : account) : account := mk_account (rs a) ({[+ r +]} ⊎ hs a) (ms a).
Definition mount_fs (f : Z) (a : account) : account := mk_account (rs a) (hs a) ({[f]} ∪ ms a).
Definition unmount_fs (f : Z) (a : account) : account := mk_account (rs a) (hs a) (ms a ∖ {[f]}).

Definition held (a : account) : gmultiset ref := rs a ⊎ hs a.

(** Reference counts are of type int; a call takes a few references at most. *)
Definition ref_room (n : nat) (a : account) : Prop := Z.of_nat (size (held a) + n) < 2 ^ 31 - 1.

(** ** The laws *)

(** [fs_ok a own w]: the counts in [w] are those of the account [a]; [own] are the
    heap blocks of the vnodes and file systems.  [fs_live] are the blocks handed
    out, [fs_volname] the names of the file systems and [fs_device] the devices. *)
Class VopsModel (W : Type) := {
  fs_ok : account -> list (Z * Z) -> W -> Prop;
  fs_live : W -> gmap Z Z;
  fs_volname : W -> Z -> option (list Z);
  fs_device : W -> Z -> Prop;
}.

(** The file systems keep their names, and devices stay. *)
Definition keeps_names {W} `{!VopsModel W} (w w' : W) : Prop :=
  (forall f, fs_volname w' f = fs_volname w f) /\ forall d, fs_device w d -> fs_device w' d.

Lemma keeps_names_refl {W} `{!VopsModel W} (w : W) : keeps_names w w.
Proof. done. Qed.

Lemma keeps_names_trans {W} `{!VopsModel W} (w w' w'' : W) : keeps_names w w' -> keeps_names w' w'' -> keeps_names w w''.
Proof. intros [E D] [E' D']. split; [intros f; by rewrite E'|auto]. Qed.

Definition fs_owns {W} `{!VopsModel W} (w : W) (bs : list (Z * Z)) : Prop :=
  NoDup bs.*1 /\ forall p n, (p, n) ∈ bs -> fs_live w !! p = Some n.

(** The account is right, and the blocks [bs] belong to the clients. *)
Definition fsw {W} `{!VopsModel W} (a : account) (bs : list (Z * Z)) (w : W) : Prop :=
  exists own, fs_ok a own w /\ fs_owns w (own ++ bs).

(** A string in a buffer. *)
Definition is_cstr (s : list Z) : Prop := exists w, is_str s w.

Definition no_panic {S A} (m : M S A) (s : S) : Prop := (m s).1 <> Panic.

(** A part of a program that does not panic does not panic. *)
Lemma no_panic_head {S A B} (m : M S A) (k : A -> M S B) s : no_panic (bind m k) s -> no_panic m s.
Proof. unfold no_panic, bind. by destruct (m s) as [[] s']. Qed.

Lemma no_panic_bind {S A B} (m : M S A) (k : A -> M S B) s Q E : no_panic (bind m k) s -> runs m s Q E ->
  runs m s (fun x s' => Q x s' /\ no_panic (k x) s') E.
Proof. unfold no_panic, bind, runs. by destruct (m s) as [[] s']. Qed.

Section law_shapes.
Context {U W : Type} `{!Heap W} `{!Vops U W} `{!VopsModel W}.
Implicit Types (a : account) (w : W) (r : ref).

(** The operation leaves all counts as they are, whether it succeeds or not. *)
Definition keeps {A} (m : M W A) a (bs : list (Z * Z)) w : Prop :=
  runs m w (fun _ w' => fsw a bs w') (fun _ w' => fsw a bs w').

(** It gives a new reference to a vnode of file system [f]. *)
Definition gives (m : M W Z) (f : Z) a (bs : list (Z * Z)) w : Prop :=
  runs m w (fun v w' => v <> 0 /\ fsw (add_ref (v, f) a) bs w') (fun _ w' => fsw a bs w').

(** A mount routine: it makes a file system, or nothing. *)
Definition mounts (m : M W Z) a (bs : list (Z * Z)) w : Prop :=
  runs m w (fun f w' => f <> 0 /\ f ∉ ms a /\ fsw (mount_fs f a) bs w') (fun _ w' => fsw a bs w').

End law_shapes.

Class VopsLaws (U W : Type) `{!Heap W} `{!Vops U W} `{!VopsModel W} := {
  fs_live_nonnull : forall a own (w : W) p n, fs_ok a own w -> fs_live w !! p = Some n -> p <> 0;
  fs_live_disjoint : forall a own (w : W) p q n m, fs_ok a own w -> fs_live w !! p = Some n ->
    fs_live w !! q = Some m -> p <> q -> p + n <= q \/ q + m <= p;
  fs_device_nonnull : forall (w : W) d, fs_device w d -> d <> 0;
  fs_kmalloc : forall a own (w : W) sz, fs_ok a own w -> 0 <= sz < 2 ^ 31 ->
    runs (kmalloc sz) w
      (fun p w' => fs_ok a own w' /\
        ((p = 0 /\ fs_live w' = fs_live w) \/
         (p <> 0 /\ fs_live w !! p = None /\ fs_live w' = <[p := sz]> (fs_live w))))
      (fun _ _ => False);
  fs_kfree_null : forall a own (w : W), fs_ok a own w -> kfree 0 w = (Ret tt, w);
  fs_kfree : forall a own (w : W) p n, fs_ok a own w -> fs_live w !! p = Some n ->
    runs (kfree p) w (fun _ w' => fs_ok a own w' /\ fs_live w' = delete p (fs_live w)) (fun _ _ => False);
  names_kmalloc : forall (w : W) sz p w', kmalloc sz w = (Ret p, w') -> keeps_names w w';
  names_kfree : forall (w : W) p w', kfree p w = (Ret tt, w') -> keeps_names w w';
  fs_thread : forall a own (w : W) t, fs_ok a own w ->
    fs_ok a own (with_thread t w) /\ fs_live (with_thread t w) = fs_live w /\ w_thread (with_thread t w) = t;
  incref_thread : forall (w : W) v w', VOP_INCREF v w = (Ret tt, w') -> w_thread w' = w_thread w;
  (** Counting. *)
  fs_mounted : forall a bs (w : W) r, fsw a bs w -> r ∈ held a -> r.1 <> 0 /\ (r.2 = 0 \/ r.2 ∈ ms a);
  incref_law : forall a bs (w : W) r, fsw a bs w -> r ∈ held a -> ref_room 1 a ->
    runs (VOP_INCREF r.1) w (fun _ w' => fsw (add_ref r a) bs w') (fun _ _ => False);
  decref_law : forall a bs (w : W) r, fsw (add_ref r a) bs w ->
    runs (VOP_DECREF r.1) w (fun _ w' => fsw a bs w') (fun _ _ => False);
  incopen_law : forall a bs (w : W) r, fsw (add_ref r a) bs w ->
    runs (VOP_INCOPEN r.1) w (fun _ w' => fsw (add_handle r a) bs w') (fun _ _ => False);
  decopen_law : forall a bs (w : W) r, fsw (add_handle r a) bs w ->
    runs (VOP_DECOPEN r.1) w (fun _ w' => fsw (add_ref r a) bs w') (fun _ _ => False);
  vn_fs_law : forall a bs (w : W) r, fsw a bs w -> r ∈ held a -> VN_FS r.1 w = (Ret r.2, w);
  (** Operations on a vnode the caller holds. *)
  open_law : forall a bs (w : W) r flags, fsw a bs w -> r ∈ held a -> keeps (VOP_OPEN r.1 flags) a bs w;
  truncate_law : forall a bs (w : W) r len, fsw a bs w -> r ∈ held a -> keeps (VOP_TRUNCATE r.1 len) a bs w;
  remove_law : forall a bs (w : W) r n, fsw a bs w -> r ∈ held a -> ref_room 2 a -> is_cstr n ->
    keeps (VOP_REMOVE r.1 n) a bs w;
  mkdir_law : forall a bs (w : W) r n, fsw a bs w -> r ∈ held a -> ref_room 2 a -> is_cstr n ->
    keeps (VOP_MKDIR r.1 n) a bs w;
  rmdir_law : forall a bs (w : W) r n, fsw a bs w -> r ∈ held a -> ref_room 2 a -> is_cstr n ->
    keeps (VOP_RMDIR r.1 n) a bs w;
  symlink_law : forall a bs (w : W) r n c, fsw a bs w -> r ∈ held a -> ref_room 2 a -> is_cstr n -> is_cstr c ->
    keeps (VOP_SYMLINK r.1 n c) a bs w;
  link_law : forall a bs (w : W) r n r', fsw a bs w -> r ∈ held a -> r' ∈ held a -> r.2 = r'.2 ->
    ref_room 2 a -> is_cstr n -> keeps (VOP_LINK r.1 n r'.1) a bs w;
  rename_law : forall a bs (w : W) r n r' n', fsw a bs w -> r ∈ held a -> r' ∈ held a -> r.2 = r'.2 ->
    ref_room 2 a -> is_cstr n -> is_cstr n' -> keeps (VOP_RENAME r.1 n r'.1 n') a bs w;
  gettype_law : forall a bs (w : W) r, fsw a bs w -> r ∈ held a ->
    runs (VOP_GETTYPE r.1) w (fun t w' => fsw a bs w' /\ (S_ISDIR t = true -> r.2 <> 0)) (fun _ w' => fsw a bs w');
  readlink_law : forall a bs (w : W) r u, fsw a bs w -> r ∈ held a ->
    runs (VOP_READLINK r.1) (u, w) (fun _ x => fsw a bs x.2) (fun _ x => fsw a bs x.2);
  namefile_law : forall a bs (w : W) r u, fsw a bs w -> r ∈ held a ->
    runs (VOP_NAMEFILE r.1) (u, w) (fun _ x => fsw a bs x.2) (fun _ x => fsw a bs x.2);
  creat_law : forall a bs (w : W) r n excl, fsw a bs w -> r ∈ held a -> ref_room 2 a -> is_cstr n ->
    gives (VOP_CREAT r.1 n excl) r.2 a bs w;
  lookup_law : forall a bs (w : W) r path, fsw a bs w -> r ∈ held a -> ref_room 2 a -> is_cstr path ->
    gives (VOP_LOOKUP r.1 path) r.2 a bs w;
  lookparent_law : forall a bs (w : W) r path len, fsw a bs w -> r ∈ held a -> ref_room 2 a -> is_cstr path ->
    runs (VOP_LOOKPARENT r.1 path len) w
      (fun x w' => x.1 <> 0 /\ fsw (add_ref (x.1, r.2) a) bs w' /\ is_cstr x.2) (fun _ w' => fsw a bs w');
  (** File systems. *)
  sync_law : forall a bs (w : W) f, fsw a bs w -> f ∈ ms a -> keeps (FSOP_SYNC f) a bs w;
  volname_law : forall a bs (w : W) f, fsw a bs w -> f ∈ ms a ->
    FSOP_GETVOLNAME f w = (Ret (fs_volname w f), w) /\ forall n, fs_volname w f = Some n -> is_cstr n;
  getroot_law : forall a bs (w : W) f, fsw a bs w -> f ∈ ms a -> ref_room 1 a ->
    runs (FSOP_GETROOT f) w (fun v w' => v <> 0 /\ fsw (add_ref (v, f) a) bs w') (fun _ _ => False);
  unmount_law : forall a bs (w : W) f, fsw a bs w -> f ∈ ms a ->
    runs (FSOP_UNMOUNT f) w
      (fun _ w' => (forall r, r ∈ held a -> r.2 <> f) /\ fsw (unmount_fs f a) bs w') (fun _ w' => fsw a bs w');
  (** The vnode of a device, which panics when there is no memory for its lock, and
      giving the memory of a new one back. *)
  create_vnode_law : forall a bs (w : W) d, fsw a bs w -> ref_room 1 a -> fs_device w d ->
    no_panic (dev_create_vnode d) w ->
    runs (dev_create_vnode d) w
      (fun v w' => (if v =? 0 then fsw a bs w' else (v, 0) ∉ held a /\ fsw (add_ref (v, 0) a) bs w') /\
         keeps_names w w') (fun _ _ => False);
  free_vnode_law : forall a bs (w : W) v, fsw (add_ref (v, 0) a) bs w -> (v, 0) ∉ held a ->
    runs (kfree v) w (fun _ w' => fsw a bs w') (fun _ _ => False);
}.

(** The heap, with the account kept. *)
Definition fs_heap {U W : Type} `{VopsLaws U W} (a : account) (own : list (Z * Z)) : HeapLaws W := {|
  heap_ok := fs_ok a own;
  live := fs_live;
  live_nonnull := fs_live_nonnull a own;
  live_disjoint := fs_live_disjoint a own;
  kmalloc_spec := fs_kmalloc a own;
  kfree_null := fs_kfree_null a own;
  kfree_spec := fs_kfree a own;
|}.
