(* ===== verification/Vfs.v ===== *)
(** The VFS layer: the table of named devices (kern/fs/vfs/vfslist.c), the
    translation of path names (kern/fs/vfs/vfslookup.c), the current directory
    (kern/fs/vfs/vfscwd.c) and the operations on paths (kern/fs/vfs/vfspath.c).

    The state is the table, its lock, the boot file system and the current
    directory, over the state [W] of the file systems and devices below, which
    the code reaches through the operations of [Vops]. *)

From Stdlib Require Import ZArith Lia.
From stdpp Require Import prelude gmap list.
From S2P Require Import Prelude Str Printf Heap Array SynchObj Vnode Pages Copy Uio VfsOps.

(** ** Constants *)

Definition NAME_MAX : Z := 255.

(** ** State *)

(** [struct knowndev]: a name is the address of its memory and the string in it;
    a NULL raw name is [None], other NULL pointers are 0. *)
Record kname := mk_kname { kn_addr : Z; kn_chars : list Z }.
Record knowndev := mk_kd {
  kd_name : kname;
  kd_rawname : option kname;
  kd_device : Z;
  kd_vnode : Z;
  kd_fs : Z;
}.

Definition set_kd_fs (f : Z) (kd : knowndev) : knowndev :=
  mk_kd (kd_name kd) (kd_rawname kd) (kd_device kd) (kd_vnode kd) f.

Record vfs (W : Type) := mk_vfs {
  v_world : W;
  knowndevs : array Z;
  kds : gmap Z knowndev;           (* what the pointers in the table point at *)
  knowndevs_lock : lock;
  bootfs_vnode : Z;
  bootfs_lock : lock;
  t_cwd : Z;                       (* of the current thread *)
}.
Arguments mk_vfs {W}.
Arguments v_world {W}.
Arguments knowndevs {W}.
Arguments kds {W}.
Arguments knowndevs_lock {W}.
Arguments bootfs_vnode {W}.
Arguments bootfs_lock {W}.
Arguments t_cwd {W}.

Section vfs_ops.
Context {U W : Type} `{!UserMem U} `{!Heap W} `{!Vops U W}.

Definition with_world (w : W) (s : vfs W) : vfs W :=
  mk_vfs w (knowndevs s) (kds s) (knowndevs_lock s) (bootfs_vnode s) (bootfs_lock s) (t_cwd s).
Definition with_devs (a : array Z) (w : W) (s : vfs W) : vfs W :=
  mk_vfs w a (kds s) (knowndevs_lock s) (bootfs_vnode s) (bootfs_lock s) (t_cwd s).
Definition with_kds (m : gmap Z knowndev) (s : vfs W) : vfs W :=
  mk_vfs (v_world s) (knowndevs s) m (knowndevs_lock s) (bootfs_vnode s) (bootfs_lock s) (t_cwd s).
Definition with_knowndevs_lock (l : lock) (s : vfs W) : vfs W :=
  mk_vfs (v_world s) (knowndevs s) (kds s) l (bootfs_vnode s) (bootfs_lock s) (t_cwd s).
Definition with_bootfs (v : Z) (s : vfs W) : vfs W :=
  mk_vfs (v_world s) (knowndevs s) (kds s) (knowndevs_lock s) v (bootfs_lock s) (t_cwd s).
Definition with_bootfs_lock (l : lock) (s : vfs W) : vfs W :=
  mk_vfs (v_world s) (knowndevs s) (kds s) (knowndevs_lock s) (bootfs_vnode s) l (t_cwd s).
Definition with_cwd (v : Z) (s : vfs W) : vfs W :=
  mk_vfs (v_world s) (knowndevs s) (kds s) (knowndevs_lock s) (bootfs_vnode s) (bootfs_lock s) v.

Definition on_world {A} (m : M W A) : M (vfs W) A := zoom v_world with_world m.
Definition on_devs {A} (m : M (array Z * W) A) : M (vfs W) A :=
  zoom (fun s => (knowndevs s, v_world s)) (fun x s => with_devs x.1 x.2 s) m.
Definition devs_acquire : M (vfs W) unit := zoom knowndevs_lock with_knowndevs_lock lock_take.
Definition devs_release : M (vfs W) unit := zoom knowndevs_lock with_knowndevs_lock lock_drop.
Definition boot_acquire : M (vfs W) unit := zoom bootfs_lock with_bootfs_lock lock_take.
Definition boot_release : M (vfs W) unit := zoom bootfs_lock with_bootfs_lock lock_drop.

(** Reading past the end of a string is a fault. *)
Definition defined {S A} (o : option A) : M S A := match o with Some a => ret a | None => panic end.

(** [!strcmp(a, b)]. *)
Definition streq (a b : list Z) : M (vfs W) bool := c <- defined (strcmp a b) ;; ret (c =? 0).

(** Run [m], then [cleanup], and return what [m] did. *)
Definition finally {A} (m : M (vfs W) A) (cleanup : M (vfs W) unit) : M (vfs W) A :=
  r <- try m ;;
  cleanup ;;;
  match r with inl e => fail e | inr x => ret x end.

(** ** vfslist.c *)

(** [array_getguy(knowndevs, i)], and what it points at. *)
Definition kd_at (i : Z) : M (vfs W) (Z * knowndev) :=
  guy <- on_devs (array_getguy i) ;;
  match guy with
  | None => panic
  | Some p => m <- gets kds ;; kd <- defined (m !! p) ;; ret (p, kd)
  end.

Definition sync_dev (i : Z) : M (vfs W) unit :=
  '(_, kd) <- kd_at i ;;
  if negb (kd_fs kd =? 0) then result_of (on_world (FSOP_SYNC (kd_fs kd))) ;;; ret tt else ret tt.

Definition vfs_sync : M (vfs W) unit :=
  devs_acquire ;;;
  num <- on_devs array_getnum ;;
  for_each (seqZ 0 num) sync_dev ;;;
  devs_release.

Definition is_null {A} (o : option A) : bool := match o with None => true | Some _ => false end.

(** The end of [vfs_getroot]'s two ways to return the device itself. *)
Definition device_itself (kd : knowndev) : M (vfs W) (option (Z + Z)) :=
  assert (negb (kd_device kd =? 0)) ;;;
  on_world (VOP_INCREF (kd_vnode kd)) ;;;
  ret (Some (inr (kd_vnode kd))).

(** The device's file system, if [devname] names it. *)
Definition getroot_fs (devname : list Z) (kd : knowndev) : M (vfs W) (option (Z + Z)) :=
  volname <- on_world (FSOP_GETVOLNAME (kd_fs kd)) ;;
  b <- streq (kn_chars (kd_name kd)) devname ;;
  b <- (if b : bool then ret true
        else match volname with None => ret false | Some n => streq n devname end) ;;
  if b : bool then root <- on_world (FSOP_GETROOT (kd_fs kd)) ;; ret (Some (inr root))
  else ret None.

(** One round of the loop: an error or the vnode, if the device was named. *)
Definition getroot_dev (devname : list Z) (i : Z) : M (vfs W) (option (Z + Z)) :=
  '(_, kd) <- kd_at i ;;
  let name := kn_chars (kd_name kd) in
  r <- (if negb (kd_fs kd =? 0) then getroot_fs devname kd
        else if is_null (kd_rawname kd) then ret None
        else b <- streq name devname ;; ret (if b : bool then Some (inl ENXIO) else None)) ;;
  match r with
  | Some x => ret (Some x)
  | None =>
      b <- streq name devname ;;
      if b : bool then
        assert (kd_fs kd =? 0) ;;;
        assert (is_null (kd_rawname kd)) ;;;
        device_itself kd
      else
        match kd_rawname kd with
        | None => ret None
        | Some raw => b <- streq (kn_chars raw) devname ;; if b : bool then device_itself kd else ret None
        end
  end.

Definition vfs_getroot (devname : list Z) : M (vfs W) Z :=
  devs_acquire ;;;
  num <- on_devs array_getnum ;;
  r <- for_find (seqZ 0 num) (getroot_dev devname) ;;
  devs_release ;;;
  match r with
  | Some (inr v) => ret v
  | Some (inl e) => fail e
  | None => fail ENODEV
  end.

Definition devname_of (fs i : Z) : M (vfs W) (option (list Z)) :=
  '(_, kd) <- kd_at i ;;
  ret (if kd_fs kd =? fs then Some (kn_chars (kd_name kd)) else None).

Definition vfs_getdevname (fs : Z) : M (vfs W) (option (list Z)) :=
  assert (negb (fs =? 0)) ;;;
  devs_acquire ;;;
  num <- on_devs array_getnum ;;
  r <- for_find (seqZ 0 num) (devname_of fs) ;;
  devs_release ;;;
  ret r.

(** [kstrdup], with the copy; what the memory held before does not matter. *)
Definition kstrdup_str (s : list Z) : M (vfs W) (option kname) :=
  n <- defined (strlen s) ;;
  z <- on_world (kmalloc (u32 (n + 1))) ;;
  if z =? 0 then ret None
  else
    t <- defined (strcpy (replicate (Z.to_nat (n + 1)) 0) s) ;;
    ret (Some (mk_kname z t)).

(** "raw" *)
Definition raw_suffix : list Z := [114; 97; 119; 0].

Definition mkrawname (name : list Z) : M (vfs W) (option kname) :=
  n <- defined (strlen name) ;;
  s <- on_world (kmalloc (u32 (n + 3 + 1))) ;;
  if s =? 0 then ret None
  else
    t <- defined (strcpy (replicate (Z.to_nat (n + 3 + 1)) 0) name) ;;
    t <- defined (strcat t raw_suffix) ;;
    ret (Some (mk_kname s t)).

Definition samestring (a b : option (list Z)) : M (vfs W) bool :=
  match a, b with Some a, Some b => streq a b | _, _ => ret false end.

Definition samestring3 (a b c d : option (list Z)) : M (vfs W) bool :=
  r <- samestring a b ;;
  if r : bool then ret true
  else r <- samestring a c ;; if r : bool then ret true else samestring a d.

(** One round of the loop of [badnames]. *)
Definition badname_dev (n1 n2 n3 : option (list Z)) (i : Z) : M (vfs W) (option unit) :=
  '(_, kd) <- kd_at i ;;
  b <- (if negb (kd_fs kd =? 0) then
          volname <- on_world (FSOP_GETVOLNAME (kd_fs kd)) ;; samestring3 volname n1 n2 n3
        else ret false) ;;
  if b : bool then ret (Some tt)
  else
    b <- samestring3 (kn_chars <$> kd_rawname kd) n1 n2 n3 ;;
    b <- (if b : bool then ret true else samestring3 (Some (kn_chars (kd_name kd))) n1 n2 n3) ;;
    ret (if b : bool then Some tt else None).

Definition badnames (n1 n2 n3 : option (list Z)) : M (vfs W) bool :=
  l <- gets knowndevs_lock ;;
  assert (lk_held l) ;;;
  num <- on_devs array_getnum ;;
  r <- for_find (seqZ 0 num) (badname_dev n1 n2 n3) ;;
  ret (negb (is_null r)).

(** The code after [puke]; it is reached before [kd] is set. *)
Definition puke (name rawname : option kname) (vnode : Z) : M (vfs W) Z :=
  (match name with Some k => on_world (kfree (kn_addr k)) | None => ret tt end) ;;;
  (match rawname with Some k => on_world (kfree (kn_addr k)) | None => ret tt end) ;;;
  (if vnode =? 0 then ret tt else on_world (kfree vnode)) ;;;
  fail ENOMEM.

(** The end of [vfs_doadd], with everything allocated. *)
Definition doadd_table (kd : Z) (k : knowndev) : M (vfs W) unit :=
  modify (fun s => with_kds (<[kd := k]> (kds s)) s) ;;;
  volname <- (if negb (kd_fs k =? 0) then on_world (FSOP_GETVOLNAME (kd_fs k)) else ret None) ;;
  devs_acquire ;;;
  finally
    (bad <- badnames (Some (kn_chars (kd_name k))) (kn_chars <$> kd_rawname k) volname ;;
     if bad : bool then fail EEXIST else on_devs (array_add kd))
    devs_release.

Definition vfs_doadd (dname : list Z) (mountable : bool) (dev fs : Z) : M (vfs W) unit :=
  name <- kstrdup_str dname ;;
  match name with
  | None => puke None None 0 ;;; ret tt
  | Some name =>
      rawname <- (if mountable then
                    r <- mkrawname (kn_chars name) ;;
                    match r with
                    | None => puke (Some name) None 0 ;;; ret None
                    | Some raw => ret (Some raw)
                    end
                  else ret None) ;;
      vnode <- on_world (dev_create_vnode dev) ;;
      if vnode =? 0 then puke (Some name) rawname 0 ;;; ret tt
      else
        kd <- on_world (kmalloc 20) ;;
        if kd =? 0 then puke (Some name) rawname vnode ;;; ret tt
        else doadd_table kd (mk_kd name rawname dev vnode fs)
  end.

Definition vfs_adddev (devname : list Z) (dev : Z) (mountable : bool) : M (vfs W) unit :=
  vfs_doadd devname mountable dev 0.

Definition vfs_addfs (devname : list Z) (fs : Z) : M (vfs W) unit := vfs_doadd devname false 0 fs.

(** One round of the loop of [findmount]. *)
Definition findmount_dev (devname : list Z) (i : Z) : M (vfs W) (option (Z * knowndev)) :=
  '(p, kd) <- kd_at i ;;
  if is_null (kd_rawname kd) then ret None
  else
    b <- streq devname (kn_chars (kd_name kd)) ;;
    ret (if b : bool then Some (p, kd) else None).

Definition findmount (devname : list Z) : M (vfs W) (Z * knowndev) :=
  l <- gets knowndevs_lock ;;
  assert (lk_held l) ;;;
  num <- on_devs array_getnum ;;
  r <- for_find (seqZ 0 num) (findmount_dev devname) ;;
  match r with Some x => ret x | None => fail ENODEV end.

(** [mountfunc] is given the device, its data being closed over. *)
Definition vfs_mount (devname : list Z) (mountfunc : Z -> M W Z) : M (vfs W) unit :=
  devs_acquire ;;;
  finally
    ('(p, kd) <- findmount devname ;;
     if negb (kd_fs kd =? 0) then fail EBUSY
     else
       assert (negb (is_null (kd_rawname kd))) ;;;
       assert (negb (kd_device kd =? 0)) ;;;
       fs <- on_world (mountfunc (kd_device kd)) ;;
       assert (negb (fs =? 0)) ;;;
       modify (fun s => with_kds (<[p := set_kd_fs fs kd]> (kds s)) s) ;;;
       on_world (FSOP_GETVOLNAME fs) ;;;
       ret tt)
    devs_release.

Definition vfs_unmount (devname : list Z) : M (vfs W) unit :=
  devs_acquire ;;;
  finally
    ('(p, kd) <- findmount devname ;;
     if kd_fs kd =? 0 then fail EINVAL
     else
       assert (negb (is_null (kd_rawname kd))) ;;;
       assert (negb (kd_device kd =? 0)) ;;;
       on_world (FSOP_SYNC (kd_fs kd)) ;;;
       on_world (FSOP_UNMOUNT (kd_fs kd)) ;;;
       modify (fun s => with_kds (<[p := set_kd_fs 0 kd]> (kds s)) s))
    devs_release.

(** One round of the loop of [vfs_unmountall]; every failure only prints. *)
Definition unmount_dev (i : Z) : M (vfs W) unit :=
  '(p, kd) <- kd_at i ;;
  if is_null (kd_rawname kd) then ret tt
  else if kd_fs kd =? 0 then ret tt
  else
    r <- try (on_world (FSOP_SYNC (kd_fs kd))) ;;
    r <- match r with inl _ => try (on_world (FSOP_SYNC (kd_fs kd))) | inr x => ret (inr x) end ;;
    match r with
    | inl _ => ret tt
    | inr _ =>
        r <- try (on_world (FSOP_UNMOUNT (kd_fs kd))) ;;
        match r with
        | inl _ => ret tt
        | inr _ => modify (fun s => with_kds (<[p := set_kd_fs 0 kd]> (kds s)) s)
        end
    end.

Definition vfs_unmountall : M (vfs W) unit :=
  devs_acquire ;;;
  num <- on_devs array_getnum ;;
  for_each (seqZ 0 num) unmount_dev ;;;
  devs_release.

(** ** vfscwd.c: the current directory *)

Definition vfs_getcurdir : M (vfs W) Z :=
  cwd <- gets t_cwd ;;
  if negb (cwd =? 0) then on_world (VOP_INCREF cwd) ;;; ret cwd else fail ENOENT.

Definition vfs_setcurdir (dir : Z) : M (vfs W) unit :=
  vtype <- on_world (VOP_GETTYPE dir) ;;
  if negb (S_ISDIR vtype) then fail ENOTDIR
  else
    on_world (VOP_INCREF dir) ;;;
    old <- gets t_cwd ;;
    modify (with_cwd dir) ;;;
    if negb (old =? 0) then on_world (VOP_DECREF old) else ret tt.

Definition vfs_clearcurdir : M (vfs W) unit :=
  old <- gets t_cwd ;;
  modify (with_cwd 0) ;;;
  if negb (old =? 0) then on_world (VOP_DECREF old) else ret tt.

(** ** vfslookup.c: path names *)

Definition change_bootfs (newguy : Z) : M (vfs W) unit :=
  boot_acquire ;;;
  oldguy <- gets bootfs_vnode ;;
  modify (with_bootfs newguy) ;;;
  boot_release ;;;
  if negb (oldguy =? 0) then on_world (VOP_DECREF oldguy) else ret tt.

Definition vfs_clearbootfs : M (vfs W) unit := change_bootfs 0.

(** The loop of [getdevice]: the indices of the first slash and the first colon,
    -1 for the one that does not come first. *)
Fixpoint find_sep (i : Z) (path : list Z) : option (Z * Z) :=
  match path with
  | [] => None
  | c :: path =>
      if c =? 0 then Some (-1, -1)
      else if c =? 58 then Some (-1, i)
      else if c =? 47 then Some (i, -1)
      else find_sep (i + 1) path
  end.

(** [while (p[0]=='/') p++;] *)
Fixpoint skip_slashes (path : list Z) : list Z :=
  match path with
  | c :: path' => if c =? 47 then skip_slashes path' else path
  | [] => []
  end.

(** A character of the path; reading past its end is a fault. *)
Definition path_char (i : Z) (path : list Z) : M (vfs W) Z := defined (path !! Z.to_nat i).

(** The rest of the path and the vnode to start from. *)
Definition getdevice (path : list Z) : M (vfs W) (list Z * Z) :=
  '(slash, colon) <- defined (find_sep 0 path) ;;
  if (colon <? 0) && negb (slash =? 0) then
    startvn <- vfs_getcurdir ;; ret (path, startvn)
  else if colon >? 0 then
    let path := <[Z.to_nat colon := 0]> path in
    let subpath := skip_slashes (drop (Z.to_nat (colon + 1)) path) in
    startvn <- vfs_getroot path ;;
    ret (subpath, startvn)
  else
    assert ((colon =? 0) || (slash =? 0)) ;;;
    c <- path_char 0 path ;;
    startvn <-
      (if c =? 47 then
         boot_acquire ;;;
         boot <- gets bootfs_vnode ;;
         if boot =? 0 then boot_release ;;; fail ENOENT
         else on_world (VOP_INCREF boot) ;;; boot_release ;;; ret boot
       else
         assert (c =? 58) ;;;
         vn <- vfs_getcurdir ;;
         fs <- on_world (VN_FS vn) ;;
         assert (negb (fs =? 0)) ;;;
         root <- on_world (FSOP_GETROOT fs) ;;
         on_world (VOP_DECREF vn) ;;;
         ret root) ;;
    ret (skip_slashes (drop 1 path), startvn).

(** The directory and the last component of the path. *)
Definition vfs_lookparent (path : list Z) (buflen : Z) : M (vfs W) (Z * list Z) :=
  '(path, startvn) <- getdevice path ;;
  n <- defined (strlen path) ;;
  finally (if n =? 0 then fail EINVAL else on_world (VOP_LOOKPARENT startvn path buflen))
    (on_world (VOP_DECREF startvn)).

Definition vfs_lookup (path : list Z) : M (vfs W) Z :=
  '(path, startvn) <- getdevice path ;;
  n <- defined (strlen path) ;;
  if n =? 0 then ret startvn
  else finally (on_world (VOP_LOOKUP startvn path)) (on_world (VOP_DECREF startvn)).

Definition vfs_chdir (path : list Z) : M (vfs W) unit :=
  vn <- vfs_lookup path ;;
  finally (vfs_setcurdir vn) (on_world (VOP_DECREF vn)).

(** [uiomove] on the memory of the current thread. *)
Definition uiomove_world (data : list Z) : M (uio * vfs W) unit := fun x =>
  let '(r, (u, t)) := uiomove data 0 (Z.of_nat (length data)) (x.1, w_thread (v_world x.2)) in
  let x' := (u, with_world (with_thread t (v_world x.2)) x.2) in
  match r with Ret _ => (Ret tt, x') | Err e => (Err e, x') | Panic => (Panic, x') | Spin => (Spin, x') end.

(** The part of [vfs_getcwd] before [out]. *)
Definition getcwd_name (cwd : Z) : M (uio * vfs W) unit :=
  fs <- on_snd (on_world (VN_FS cwd)) ;;
  assert (negb (fs =? 0)) ;;;
  volname <- on_snd (on_world (FSOP_GETVOLNAME fs)) ;;
  name <- match volname with Some n => ret (Some n) | None => on_snd (vfs_getdevname fs) end ;;
  match name with
  | None => panic
  | Some name =>
      n <- defined (strlen name) ;;
      uiomove_world (take (Z.to_nat n) name) ;;;
      uiomove_world [58] ;;;
      zoom (fun x => (x.1, v_world x.2)) (fun y x => (y.1, with_world y.2 x.2)) (VOP_NAMEFILE cwd)
  end.

Definition vfs_getcwd : M (uio * vfs W) unit :=
  rw <- gets (fun x => uio_rw x.1) ;;
  assert (match rw with UIO_READ => true | UIO_WRITE => false end) ;;;
  cwd <- on_snd vfs_getcurdir ;;
  r <- try (getcwd_name cwd) ;;
  on_snd (on_world (VOP_DECREF cwd)) ;;;
  match r with inl e => fail e | inr x => ret x end.

(** [tmp] is the local buffer of NAME_MAX+1 characters. *)
Definition vfs_setbootfs (fsname : list Z) : M (vfs W) unit :=
  let '(r, tmp) := snprintf NAME_MAX [37; 115; 0] [AStr (Some fsname)] (replicate (Z.to_nat (NAME_MAX + 1)) 0) in
  (match r with Ret _ => ret tt | _ => panic end) ;;;
  s <- defined (strchr tmp 58) ;;
  tmp <- match s with
         | Some i =>
             n <- defined (strlen (drop (Z.to_nat i) tmp)) ;;
             if n >? 0 then fail EINVAL else ret tmp
         | None => defined (strcat tmp [58; 0])
         end ;;
  vfs_chdir tmp ;;;
  newguy <- vfs_getcurdir ;;
  change_bootfs newguy.

(** ** vfspath.c: operations on paths *)

(** Space for a name: [char name[NAME_MAX+1]]. *)
Definition namelen : Z := NAME_MAX + 1.

(** The vnode of [vfs_open], with the file made if it has to be. *)
Definition open_vnode (path : list Z) (openflags : Z) : M (vfs W) Z :=
  if negb (Z.land openflags O_CREAT =? 0) then
    let excl := negb (Z.land openflags O_EXCL =? 0) in
    '(dir, name) <- vfs_lookparent path namelen ;;
    finally (on_world (VOP_CREAT dir name excl)) (on_world (VOP_DECREF dir))
  else vfs_lookup path.

(** [vfs_open] after VOP_INCOPEN: truncation, undone if it fails. *)
Definition open_truncate (vn openflags : Z) (canwrite : bool) : M (vfs W) unit :=
  if negb (Z.land openflags O_TRUNC =? 0) then
    r <- try (if negb canwrite then fail EINVAL else on_world (VOP_TRUNCATE vn 0)) ;;
    match r with
    | inl e => on_world (VOP_DECOPEN vn) ;;; on_world (VOP_DECREF vn) ;;; fail e
    | inr _ => ret tt
    end
  else ret tt.

Definition vfs_open (path : list Z) (openflags : Z) : M (vfs W) Z :=
  let how := Z.land openflags O_ACCMODE in
  canwrite <-
    (if how =? O_RDONLY then ret false
     else if (how =? O_WRONLY) || (how =? O_RDWR) then ret true
     else fail EINVAL) ;;
  vn <- open_vnode path openflags ;;
  assert (negb (vn =? 0)) ;;;
  r <- try (on_world (VOP_OPEN vn openflags)) ;;
  match r with
  | inl e => on_world (VOP_DECREF vn) ;;; fail e
  | inr _ =>
      on_world (VOP_INCOPEN vn) ;;;
      open_truncate vn openflags canwrite ;;;
      ret vn
  end.

Definition vfs_close (vn : Z) : M (vfs W) unit :=
  on_world (VOP_DECOPEN vn) ;;; on_world (VOP_DECREF vn).

Definition vfs_remove (path : list Z) : M (vfs W) unit :=
  '(dir, name) <- vfs_lookparent path namelen ;;
  finally (on_world (VOP_REMOVE dir name)) (on_world (VOP_DECREF dir)).

(** The test for two vnodes of the same file system. *)
Definition same_fs (v1 v2 : Z) : M (vfs W) bool :=
  f1 <- on_world (VN_FS v1) ;;
  f2 <- on_world (VN_FS v2) ;;
  ret (negb ((f1 =? 0) || (f2 =? 0) || negb (f1 =? f2))).

Definition vfs_rename (oldpath newpath : list Z) : M (vfs W) unit :=
  '(olddir, oldname) <- vfs_lookparent oldpath namelen ;;
  r <- try (vfs_lookparent newpath namelen) ;;
  match r with
  | inl e => on_world (VOP_DECREF olddir) ;;; fail e
  | inr (newdir, newname) =>
      finally
        (same <- same_fs olddir newdir ;;
         if same : bool then on_world (VOP_RENAME olddir oldname newdir newname) else fail EXDEV)
        (on_world (VOP_DECREF newdir) ;;; on_world (VOP_DECREF olddir))
  end.

Definition vfs_link (oldpath newpath : list Z) : M (vfs W) unit :=
  oldfile <- vfs_lookup oldpath ;;
  r <- try (vfs_lookparent newpath namelen) ;;
  match r with
  | inl e => on_world (VOP_DECREF oldfile) ;;; fail e
  | inr (newdir, newname) =>
      finally
        (same <- same_fs oldfile newdir ;;
         if same : bool then on_world (VOP_LINK newdir newname oldfile) else fail EXDEV)
        (on_world (VOP_DECREF newdir) ;;; on_world (VOP_DECREF oldfile))
  end.

Definition vfs_symlink (contents path : list Z) : M (vfs W) unit :=
  '(newdir, newname) <- vfs_lookparent path namelen ;;
  finally (on_world (VOP_SYMLINK newdir newname contents)) (on_world (VOP_DECREF newdir)).

Definition vfs_readlink (path : list Z) : M (uio * vfs W) unit :=
  vn <- on_snd (vfs_lookup path) ;;
  r <- try (zoom (fun x => (x.1, v_world x.2)) (fun y x => (y.1, with_world y.2 x.2)) (VOP_READLINK vn)) ;;
  on_snd (on_world (VOP_DECREF vn)) ;;;
  match r with inl e => fail e | inr x => ret x end.

Definition vfs_mkdir (path : list Z) : M (vfs W) unit :=
  '(parent, name) <- vfs_lookparent path namelen ;;
  finally (on_world (VOP_MKDIR parent name)) (on_world (VOP_DECREF parent)).

Definition vfs_rmdir (path : list Z) : M (vfs W) unit :=
  '(parent, name) <- vfs_lookparent path namelen ;;
  finally (on_world (VOP_RMDIR parent name)) (on_world (VOP_DECREF parent)).

End vfs_ops.
