(* ===== verification/VfsInv.v ===== *)
(** The VFS layer's invariant, and what its device table and its own references
    give: the device a name stands for, the current directory, the locks.

    [vfs_inv] says that every reference the clients and the layer itself hold is
    accounted for in the world below, whose operations are known only through
    the laws of VfsOps.v. *)

From Stdlib Require Import ZArith Lia.
From stdpp Require Import prelude gmap gmultiset list.
From S2P Require Import Prelude Str Heap Array SynchObj Vnode Pages Copy Uio VfsOps Vfs.

(** A search whose unsuccessful rounds change nothing. *)
Lemma runs_for_find {S A B} (l : list A) (body : A -> M S (option B)) s (Q : B -> S -> Prop) E :
  (forall x, x ∈ l -> runs (body x) s (fun r s' => match r with None => s' = s | Some b => Q b s' end) E) ->
  runs (for_find l body) s (fun r s' => match r with None => s' = s | Some b => Q b s' end) E.
Proof.
  induction l as [|x l IH]; intros Hl; simpl; [by run|]. apply runs_bind.
  eapply runs_mono; [apply Hl; set_solver| |done]. intros [b|] s' Hb; [by run|]. subst s'.
  apply IH. intros y Hy. apply Hl. set_solver.
Qed.

(** A search through a list, by index, of which every round is known. *)
Lemma for_find_list {S K T B} (ks : list K) (body : Z -> M S (option B)) (g : K -> option T) (h : T -> M S (option B)) s z :
  (forall i k, ks !! i = Some k ->
     body (z + Z.of_nat i) s = match g k with None => (Ret None, s) | Some t => h t s end) ->
  (forall t r s', h t s = (Ret r, s') -> is_Some r) ->
  for_find (seqZ z (Z.of_nat (length ks))) body s =
    match head (omap g ks) with None => (Ret None, s) | Some t => h t s end.
Proof.
  intros Hb Hh. revert z Hb. induction ks as [|k ks IH]; intros z Hb; [done|].
  simpl length. rewrite seqZ_cons by lia. simpl for_find. unfold bind. pose proof (Hb 0%nat k eq_refl) as H0.
  rewrite Z.add_0_r in H0. rewrite H0. simpl omap. destruct (g k) as [t|]; simpl.
  - destruct (h t s) as [[[b|]| | |] s'] eqn:E; try done. by destruct (Hh _ _ _ E).
  - replace (Z.pred (Z.of_nat (Datatypes.S (length ks)))) with (Z.of_nat (length ks)) by lia. apply IH.
    intros i k' Hk. rewrite <- (Hb (Datatypes.S i) k' Hk). f_equal. lia.
Qed.

(** ** Strings *)

(** The characters of a string. *)
Fixpoint cstr (s : list Z) : list Z :=
  match s with c :: s => if c =? 0 then [] else c :: cstr s | [] => [] end.

Lemma is_str_cstr s w : is_str s w -> cstr s = w.
Proof.
  revert s. induction w as [|c w IH]; intros s Hs; apply is_str_inv in Hs.
  - by destruct Hs as [r ->].
  - destruct Hs as (Hc & s' & -> & Hs). simpl. zbool. by rewrite IH.
Qed.

Lemma strcmp_eqb a b : is_cstr a -> is_cstr b ->
  exists c, strcmp a b = Some c /\ (c =? 0) = bool_decide (cstr a = cstr b).
Proof.
  intros [x Hx] [y Hy]. rewrite (is_str_cstr _ _ Hx), (is_str_cstr _ _ Hy).
  destruct (strcmp_spec _ _ _ _ Hx Hy) as (c & -> & Hc). exists c. split; [done|].
  destruct (Z.eqb_spec c 0); symmetry; [apply bool_decide_eq_true|apply bool_decide_eq_false]; tauto.
Qed.

Lemma cstr_str s : is_cstr s -> is_str s (cstr s).
Proof. intros [w Hw]. by rewrite (is_str_cstr _ _ Hw). Qed.

Lemma strlen_cstr s : is_cstr s -> strlen s = Some (Z.of_nat (length (cstr s))).
Proof. intros Hs. apply strlen_spec, cstr_str, Hs. Qed.

(** *** Paths *)

(** Where a path starts: the current directory, the root of the boot file system,
    the root of the current file system, or a device. *)
Inductive start := Cwd | Boot | CwdRoot | Named (n : list Z).

(** The part before the first colon or slash, and the rest. *)
Fixpoint sep_split (w : list Z) : list Z * list Z :=
  match w with
  | [] => ([], [])
  | c :: w' => if (c =? 58) || (c =? 47) then ([], w) else let '(x, y) := sep_split w' in (c :: x, y)
  end.

Fixpoint strip (w : list Z) : list Z :=
  match w with c :: w' => if c =? 47 then strip w' else w | [] => [] end.

(** "dev:path", ":path", "/path" and "path"; slashes in front of the path do not count. *)
Definition parse_path (w : list Z) : start * list Z :=
  match sep_split w with
  | ([], 58 :: r) => (CwdRoot, strip r)
  | ([], 47 :: r) => (Boot, strip r)
  | (n, 58 :: r) => (Named n, strip r)
  | _ => (Cwd, w)
  end.

Lemma sep_split_app w x y : sep_split w = (x, y) -> w = x ++ y /\
  Forall (fun c => c <> 58 /\ c <> 47) x /\ match y with [] => True | c :: _ => c = 58 \/ c = 47 end.
Proof.
  revert x y. induction w as [|c w IH]; intros x y; simpl; [by intros [= <- <-]|].
  destruct (Z.eqb_spec c 58) as [->|Hc]; [intros [= <- <-]; auto|].
  destruct (Z.eqb_spec c 47) as [->|Hc']; [intros [= <- <-]; auto|]. simpl.
  destruct (sep_split w) as [x' y'] eqn:E. intros [= <- <-]. destruct (IH _ _ eq_refl) as (-> & Hx & Hy).
  split; [done|]. split; [by constructor|done].
Qed.

Lemma find_sep_spec i s x y : is_str s (x ++ y) -> Forall (fun c => c <> 58 /\ c <> 47) x ->
  match y with [] => True | c :: _ => c = 58 \/ c = 47 end ->
  find_sep i s = Some match y with
    | 58 :: _ => (-1, i + Z.of_nat (length x))
    | 47 :: _ => (i + Z.of_nat (length x), -1)
    | _ => (-1, -1)
    end.
Proof.
  revert i s. induction x as [|c x IH]; intros i s Hs Hx Hy; simpl in Hs; apply is_str_inv in Hs.
  - destruct y as [|c y]; [by destruct Hs as [r ->]|]. destruct Hs as (Hc & s' & -> & Hs). simpl.
    rewrite Z.add_0_r. by destruct Hy as [-> | ->].
  - destruct Hs as (Hc & s' & -> & Hs). apply Forall_cons in Hx as [[H1 H2] Hx]. simpl. zbool.
    rewrite (IH (i + 1) s' Hs Hx Hy). replace (i + 1 + Z.of_nat (length x)) with (i + Z.of_nat (S (length x))) by lia.
    done.
Qed.

Lemma is_str_drop s x y : is_str s (x ++ y) -> is_str (drop (length x) s) y.
Proof.
  intros [Hf [r ->]]. rewrite <- app_assoc, drop_app_length. apply Forall_app in Hf as [_ Hf]. split; [done|by exists r].
Qed.

Lemma is_str_cut s x y : is_str s (x ++ y) -> is_str (<[length x := 0]> s) x.
Proof.
  intros [Hf [r ->]]. apply Forall_app in Hf as [Hf _]. split; [done|]. rewrite <- app_assoc.
  rewrite insert_app_r_alt, Nat.sub_diag by done. destruct (y ++ 0 :: r) as [|c l] eqn:E; [by destruct y|].
  by exists l.
Qed.

Lemma skip_slashes_str s w : is_str s w -> is_str (skip_slashes s) (strip w).
Proof.
  revert s. induction w as [|c w IH]; intros s Hs; pose proof Hs as Hs'; apply is_str_inv in Hs'.
  - by destruct Hs' as [r ->].
  - destruct Hs' as (Hc & s' & -> & Hs'). simpl. destruct (c =? 47); [by apply IH|done].
Qed.

(** ** Accounts *)

(** The account of the clients, and the references [X] the VFS layer holds itself. *)
Definition plus (a : account) (X : gmultiset ref) : account := mk_account (rs a ⊎ X) (hs a) (ms a).

Lemma plus_ref r a X : plus (add_ref r a) X = add_ref r (plus a X).
Proof. unfold plus, add_ref. simpl. f_equal. multiset_solver. Qed.

Lemma plus_handle r a X : plus (add_handle r a) X = add_handle r (plus a X).
Proof. done. Qed.

Lemma plus_own r a X : plus a ({[+ r +]} ⊎ X) = add_ref r (plus a X).
Proof. unfold plus, add_ref. simpl. f_equal. multiset_solver. Qed.

Lemma held_plus r a X : r ∈ held a -> r ∈ held (plus a X).
Proof. unfold held, plus. simpl. multiset_solver. Qed.

Lemma held_own r a X : r ∈ X -> r ∈ held (plus a X).
Proof. unfold held, plus. simpl. multiset_solver. Qed.

Lemma held_ref r a : r ∈ held (add_ref r a).
Proof. unfold held, add_ref. simpl. multiset_solver. Qed.

Lemma held_handle r a : r ∈ held (add_handle r a).
Proof. unfold held, add_handle. simpl. multiset_solver. Qed.

Lemma held_add r r' a : r ∈ held a -> r ∈ held (add_ref r' a).
Proof. unfold held, add_ref. simpl. multiset_solver. Qed.

(** The clients do not hold very many references. *)
Definition few (n : Z) (a : account) : Prop := Z.of_nat (size (held a)) < 2 ^ 30 - n.

Lemma few_ref n r a : few n a -> few (n - 1) (add_ref r a).
Proof.
  unfold few, held, add_ref. simpl. rewrite !gmultiset_size_disj_union, gmultiset_size_singleton. lia.
Qed.

Lemma few_room k n a X : few n a -> 0 <= n -> Z.of_nat (size X) <= 2 ^ 28 -> (k <= 4)%nat -> ref_room k (plus a X).
Proof.
  unfold few, ref_room, held, plus. simpl. rewrite !gmultiset_size_disj_union. lia.
Qed.

(** ** The invariant *)

(** A reference in a variable that may be NULL. *)
Definition opt_ref (v f : Z) : gmultiset ref := if v =? 0 then ∅ else {[+ (v, f) +]}.

Definition name_block (k : kname) : Z * Z := (kn_addr k, Z.of_nat (length (kn_chars k))).
Definition kd_blocks (p : Z) (kd : knowndev) : list (Z * Z) :=
  (p, 20) :: name_block (kd_name kd) :: match kd_rawname kd with Some k => [name_block k] | None => [] end.

(** An entry of the device table. *)
Record kd_good (mounted : gset Z) (kd : knowndev) : Prop := {
  kg_name : is_cstr (kn_chars (kd_name kd));
  kg_raw : forall k, kd_rawname kd = Some k -> is_cstr (kn_chars k) /\ kd_device kd <> 0;
  kg_fs : kd_fs kd = 0 \/ kd_fs kd ∈ mounted;
  kg_use : kd_fs kd = 0 -> kd_device kd <> 0;
}.

(** The table: the entries are [ks], at the addresses [ps]. *)
Record devs_ok (mounted : gset Z) (m : gmap Z knowndev) (ps : list Z) (ks : list knowndev) : Prop := {
  dv_kds : Forall2 (fun p kd => m !! p = Some kd) ps ks;
  dv_good : Forall (kd_good mounted) ks;
  dv_fs : forall i j k k', ks !! i = Some k -> ks !! j = Some k' -> kd_fs k = kd_fs k' -> kd_fs k <> 0 -> i = j;
  dv_all : forall f, f ∈ mounted -> f <> 0 -> exists i k, ks !! i = Some k /\ kd_fs k = f;
}.

Definition arr_shape (a : array Z) : Prop :=
  0 <= num a <= max a /\ max a <= 2 ^ 28 /\ length (slots a) = Z.to_nat (max a) /\ (0 < max a -> v a <> 0).

(** The references the VFS layer holds: one for each device, the current
    directory and the boot file system. *)
Definition vfs_refs {W} (s : vfs W) (fc fb : Z) (ks : list knowndev) : gmultiset ref :=
  opt_ref (t_cwd s) fc ⊎ opt_ref (bootfs_vnode s) fb ⊎ list_to_set_disj ((fun kd => (kd_vnode kd, 0)) <$> ks).

Lemma size_refs (l : list ref) : size (list_to_set_disj l : gmultiset ref) = length l.
Proof.
  induction l as [|r l IH]; [done|]. simpl. by rewrite gmultiset_size_disj_union, gmultiset_size_singleton, IH.
Qed.

Lemma size_opt_ref v f : (size (opt_ref v f) <= 1)%nat.
Proof. unfold opt_ref. destruct (v =? 0); [rewrite gmultiset_size_empty|rewrite gmultiset_size_singleton]; lia. Qed.

Section safe.
Context {U W : Type} `{!UserMem U} `{VopsLaws U W}.
Implicit Types (s : vfs W) (a : account) (bs : list (Z * Z)).

Record vfs_at a bs s (fc fb : Z) (ps : list Z) (ks : list knowndev) : Prop := {
  va_fs : fsw (plus a (vfs_refs s fc fb ks))
    (blocks (knowndevs s) ++ concat (zip_with kd_blocks ps ks) ++ bs) (v_world s);
  va_arr : arr_shape (knowndevs s);
  va_contents : contents (knowndevs s) = map Some ps;
  va_few : Z.of_nat (length ps) < 2 ^ 27;
  va_devs : devs_ok (ms a) (kds s) ps ks;
  va_cwd : t_cwd s <> 0 -> fc <> 0;
}.

(** [vfs_inv ld lb a bs s]: the clients' account is [a], their blocks are [bs];
    [ld] and [lb] tell whether the two locks are held. *)
Definition vfs_inv (ld lb : bool) a bs s : Prop :=
  lk_held (knowndevs_lock s) = ld /\ lk_held (bootfs_lock s) = lb /\
  exists fc fb ps ks, vfs_at a bs s fc fb ps ks.

Lemma vfs_refs_size s fc fb ks : Z.of_nat (length ks) < 2 ^ 27 -> Z.of_nat (size (vfs_refs s fc fb ks)) <= 2 ^ 28.
Proof.
  intros Hl. unfold vfs_refs. rewrite !gmultiset_size_disj_union.
  rewrite size_refs, length_fmap.
  pose proof (size_opt_ref (t_cwd s) fc). pose proof (size_opt_ref (bootfs_vnode s) fb). lia.
Qed.

(** An operation on the world below that takes the clients' account [a] to [F x],
    or to [G] when it fails. *)
Lemma world_step {A} (m : M W A) ld lb a bs s (F : A -> account) (G : account) (R : A -> Prop) :
  vfs_inv ld lb a bs s ->
  (forall x, R x -> ms (F x) = ms a) -> ms G = ms a ->
  (forall X B, Z.of_nat (size X) <= 2 ^ 28 -> fsw (plus a X) B (v_world s) ->
     runs m (v_world s) (fun x w' => R x /\ fsw (plus (F x) X) B w') (fun e w' => fsw (plus G X) B w')) ->
  runs (on_world m) s (fun x s' => R x /\ vfs_inv ld lb (F x) bs s') (fun e s' => vfs_inv ld lb G bs s').
Proof.
  intros (Hld & Hlb & fc & fb & ps & ks & Hat) HF HG Hm. pose proof Hat as [Hfs Harr Hc Hfew Hd Hcwd].
  unfold on_world. apply runs_zoom.
  assert (length ks = length ps) as Hlen by (symmetry; eapply Forall2_length, dv_kds, Hd).
  eapply runs_mono; [apply Hm; [|exact Hfs]; apply vfs_refs_size; lia|..].
  - intros x w' [HR Hw]. split; [done|]. split; [done|]. split; [done|]. exists fc, fb, ps, ks.
    split; try done. by rewrite HF.
  - intros e w' Hw. split; [done|]. split; [done|]. exists fc, fb, ps, ks. split; try done. by rewrite HG.
Qed.

(** It does not fail. *)
Lemma world_step_sure {A} (m : M W A) ld lb a bs s (F : A -> account) (R : A -> Prop) :
  vfs_inv ld lb a bs s -> (forall x, R x -> ms (F x) = ms a) ->
  (forall X B, Z.of_nat (size X) <= 2 ^ 28 -> fsw (plus a X) B (v_world s) ->
     runs m (v_world s) (fun x w' => R x /\ fsw (plus (F x) X) B w') (fun _ _ => False)) ->
  runs (on_world m) s (fun x s' => R x /\ vfs_inv ld lb (F x) bs s') (fun _ _ => False).
Proof.
  intros Hinv HF Hm. apply runs_no_err with (E := fun _ s' => vfs_inv ld lb a bs s').
  - eapply (world_step m ld lb a bs s F a R); try done. intros X B HX Hw. eapply runs_mono; [by apply Hm|done|done].
  - destruct Hinv as (_ & _ & fc & fb & ps & ks & [Hfs _ _ Hfew Hd _]). intros e s' Hr.
    assert (length ks = length ps) as Hlen by (symmetry; eapply Forall2_length, dv_kds, Hd).
    specialize (Hm _ _ ltac:(eapply (vfs_refs_size s fc fb ks); lia) Hfs).
    unfold on_world, zoom in Hr. unfold runs in Hm. by destruct (m (v_world s)) as [[] ?].
Qed.

Lemma keep_step {A} (m : M W A) ld lb a bs s : vfs_inv ld lb a bs s ->
  (forall X B, Z.of_nat (size X) <= 2 ^ 28 -> fsw (plus a X) B (v_world s) -> keeps m (plus a X) B (v_world s)) ->
  runs (on_world m) s (fun _ s' => vfs_inv ld lb a bs s') (fun _ s' => vfs_inv ld lb a bs s').
Proof.
  intros Hinv Hm. eapply runs_mono; [apply (world_step m ld lb a bs s (fun _ => a) a (fun _ => True)); try done| |done].
  - intros X B HX Hw. eapply runs_mono; [by apply Hm|done|done].
  - by intros x s' [_ ?].
Qed.

Lemma give_step m f ld lb a bs s : vfs_inv ld lb a bs s ->
  (forall X B, Z.of_nat (size X) <= 2 ^ 28 -> fsw (plus a X) B (v_world s) -> gives m f (plus a X) B (v_world s)) ->
  runs (on_world m) s (fun v s' => v <> 0 /\ vfs_inv ld lb (add_ref (v, f) a) bs s') (fun _ s' => vfs_inv ld lb a bs s').
Proof.
  intros Hinv Hm. apply (world_step m ld lb a bs s (fun v => add_ref (v, f) a) a (fun v => v <> 0)); try done.
  intros X B HX Hw. eapply runs_mono; [by apply Hm| |done]. intros v w'. by rewrite plus_ref.
Qed.

Lemma decref_step r ld lb a bs s : vfs_inv ld lb (add_ref r a) bs s ->
  runs (on_world (VOP_DECREF r.1)) s (fun _ s' => vfs_inv ld lb a bs s') (fun _ _ => False).
Proof.
  intros Hinv. eapply runs_mono; [apply (world_step_sure _ _ _ _ _ _ (fun _ => a) (fun _ => True) Hinv); try done| |done].
  - intros X B HX Hw. rewrite plus_ref in Hw. eapply runs_mono; [by apply (decref_law (plus a X))|done|done].
  - by intros x s' [_ ?].
Qed.

Lemma incref_step r n ld lb a bs s : vfs_inv ld lb a bs s -> r ∈ held a -> few n a -> 0 <= n ->
  runs (on_world (VOP_INCREF r.1)) s (fun _ s' => vfs_inv ld lb (add_ref r a) bs s') (fun _ _ => False).
Proof.
  intros Hinv Hr Hn Hn0. eapply runs_mono; [apply (world_step_sure _ _ _ _ _ _ (fun _ => add_ref r a) (fun _ => True) Hinv); try done| |done].
  - intros X B HX Hw. eapply runs_mono; [apply (incref_law (plus a X)); [done|by apply held_plus|]| |done].
    + eapply few_room; try done. lia.
    + intros x w' Hx. by rewrite plus_ref.
  - by intros x s' [_ ?].
Qed.

Lemma incopen_step r ld lb a bs s : vfs_inv ld lb (add_ref r a) bs s ->
  runs (on_world (VOP_INCOPEN r.1)) s (fun _ s' => vfs_inv ld lb (add_handle r a) bs s') (fun _ _ => False).
Proof.
  intros Hinv. eapply runs_mono; [apply (world_step_sure _ _ _ _ _ _ (fun _ => add_handle r a) (fun _ => True) Hinv); try done| |done].
  - intros X B HX Hw. rewrite plus_ref in Hw. eapply runs_mono; [by apply (incopen_law (plus a X))|done|done].
  - by intros x s' [_ ?].
Qed.

Lemma decopen_step r ld lb a bs s : vfs_inv ld lb (add_handle r a) bs s ->
  runs (on_world (VOP_DECOPEN r.1)) s (fun _ s' => vfs_inv ld lb (add_ref r a) bs s') (fun _ _ => False).
Proof.
  intros Hinv. eapply runs_mono; [apply (world_step_sure _ _ _ _ _ _ (fun _ => add_ref r a) (fun _ => True) Hinv); try done| |done].
  - intros X B HX Hw. rewrite plus_handle in Hw. rewrite plus_ref. eapply runs_mono; [by apply (decopen_law (plus a X))|done|done].
  - by intros x s' [_ ?].
Qed.

(** A cleanup that gives a reference back. *)
Lemma finally_step {A} (m : M (vfs W) A) (c : M (vfs W) unit) s (P Q : A -> vfs W -> Prop) (E F : vfs W -> Prop) :
  runs m s P (fun _ s' => E s') ->
  (forall x s', P x s' -> runs c s' (fun _ s'' => Q x s'') (fun _ _ => False)) ->
  (forall s', E s' -> runs c s' (fun _ s'' => F s'') (fun _ _ => False)) ->
  runs (finally m c) s Q (fun _ s' => F s').
Proof.
  intros Hm HP HE. unfold finally. apply runs_bind, runs_try. eapply runs_mono; [exact Hm|..].
  - intros x s' Hx. apply runs_bind. eapply runs_mono; [by apply HP| |done]. intros [] s'' ?. by run.
  - intros e s' Hx. apply runs_bind. eapply runs_mono; [by apply HE| |done]. intros [] s'' ?. by run.
Qed.

(** *** Locks *)

Lemma devs_acquire_step lb a bs s : vfs_inv false lb a bs s ->
  runs devs_acquire s (fun _ s' => vfs_inv true lb a bs s') (fun _ _ => False).
Proof.
  intros (Hl & Hb & fc & fb & ps & ks & [])%id. unfold devs_acquire. apply runs_zoom. unfold lock_take, runs. rewrite Hl.
  split; [done|]. split; [done|]. exists fc, fb, ps, ks. by split.
Qed.

Lemma devs_release_step lb a bs s : vfs_inv true lb a bs s ->
  runs devs_release s (fun _ s' => vfs_inv false lb a bs s') (fun _ _ => False).
Proof.
  intros (Hl & Hb & fc & fb & ps & ks & [])%id. unfold devs_release. apply runs_zoom. unfold lock_drop, runs. rewrite Hl.
  split; [done|]. split; [done|]. exists fc, fb, ps, ks. by split.
Qed.

Lemma boot_acquire_step ld a bs s : vfs_inv ld false a bs s ->
  runs boot_acquire s (fun _ s' => bootfs_vnode s' = bootfs_vnode s /\ vfs_inv ld true a bs s') (fun _ _ => False).
Proof.
  intros (Hl & Hb & fc & fb & ps & ks & [])%id. unfold boot_acquire. apply runs_zoom. unfold lock_take, runs. rewrite Hb.
  split; [done|]. split; [done|]. split; [done|]. exists fc, fb, ps, ks. by split.
Qed.

Lemma boot_release_step ld a bs s : vfs_inv ld true a bs s ->
  runs boot_release s (fun _ s' => vfs_inv ld false a bs s') (fun _ _ => False).
Proof.
  intros (Hl & Hb & fc & fb & ps & ks & [])%id. unfold boot_release. apply runs_zoom. unfold lock_drop, runs. rewrite Hb.
  split; [done|]. split; [done|]. exists fc, fb, ps, ks. by split.
Qed.

(** *** The VFS layer's own references *)

Lemma own_incref_step r n ld lb a bs s fc fb ps ks : vfs_at a bs s fc fb ps ks ->
  lk_held (knowndevs_lock s) = ld -> lk_held (bootfs_lock s) = lb ->
  r ∈ vfs_refs s fc fb ks -> few n a -> 0 <= n ->
  runs (on_world (VOP_INCREF r.1)) s (fun _ s' => vfs_inv ld lb (add_ref r a) bs s') (fun _ _ => False).
Proof.
  intros Hat Hld Hlb Hr Hn Hn0. pose proof Hat as [Hfs Harr Hc Hfew Hd Hcwd].
  assert (length ks = length ps) as Hlen by (symmetry; eapply Forall2_length, dv_kds, Hd).
  pose proof (vfs_refs_size s fc fb ks ltac:(lia)). unfold on_world. apply runs_zoom.
  eapply runs_mono; [apply (incref_law _ _ _ r Hfs); [by apply held_own|eapply few_room; try done; lia]| |done].
  intros x w' Hw. rewrite <- plus_ref in Hw. split; [done|]. split; [done|]. exists fc, fb, ps, ks. by split.
Qed.

Lemma opt_ref_elem v f : v <> 0 -> (v, f) ∈ opt_ref v f.
Proof. intros Hv. unfold opt_ref. rewrite (proj2 (Z.eqb_neq _ _)) by done. multiset_solver. Qed.

Lemma cwd_elem s fc fb ks : t_cwd s <> 0 -> (t_cwd s, fc) ∈ vfs_refs s fc fb ks.
Proof. intros Hv. pose proof (opt_ref_elem _ fc Hv). unfold vfs_refs. multiset_solver. Qed.

Lemma boot_elem s fc fb ks : bootfs_vnode s <> 0 -> (bootfs_vnode s, fb) ∈ vfs_refs s fc fb ks.
Proof. intros Hv. pose proof (opt_ref_elem _ fb Hv). unfold vfs_refs. multiset_solver. Qed.

Lemma kd_elem s fc fb ks kd : kd ∈ ks -> (kd_vnode kd, 0) ∈ vfs_refs s fc fb ks.
Proof.
  intros Hk. assert ((kd_vnode kd, 0) ∈ (list_to_set_disj ((fun kd => (kd_vnode kd, 0)) <$> ks) : gmultiset ref)).
  { apply elem_of_list_to_set_disj, list_elem_of_fmap. by exists kd. }
  unfold vfs_refs. multiset_solver.
Qed.

(** The current directory, with a reference of its own. *)
Lemma getcurdir_step n ld lb a bs s : vfs_inv ld lb a bs s -> few n a -> 0 <= n ->
  runs vfs_getcurdir s
    (fun v s' => v <> 0 /\ exists f, f <> 0 /\ vfs_inv ld lb (add_ref (v, f) a) bs s')
    (fun _ s' => vfs_inv ld lb a bs s').
Proof.
  intros Hinv Hn Hn0. pose proof Hinv as (Hld & Hlb & fc & fb & ps & ks & Hat). unfold vfs_getcurdir. run.
  destruct (Z.eqb_spec (t_cwd s) 0) as [Hz|Hnz]; simpl; [by run|]. apply runs_bind.
  eapply runs_mono; [eapply (own_incref_step (t_cwd s, fc)); try done; by apply cwd_elem| |done].
  intros [] s' Hs'. run. split; [done|]. exists fc. split; [by eapply va_cwd|done].
Qed.

(** *** The device table *)

Lemma vfs_array a bs s fc fb ps ks : vfs_at a bs s fc fb ps ks -> exists own,
  fs_ok (plus a (vfs_refs s fc fb ks)) own (v_world s) /\
  @array_at Z W _ (fs_heap (plus a (vfs_refs s fc fb ks)) own) (knowndevs s) (v_world s)
    (own ++ concat (zip_with kd_blocks ps ks) ++ bs).
Proof.
  intros [(own & Hok & Ho) (Hn & Hm & Hl & Hv) _ _ _ _]. exists own. split; [done|].
  split; [exact Hok|]. do 4 (split; [done|]).
  eapply (@owns_perm W _ (fs_heap _ own)); [|exact Ho]. rewrite !(app_assoc _ (blocks _)), !app_assoc. do 2 f_equiv. apply Permutation_app_comm.
Qed.

Lemma vfs_num a bs s fc fb ps ks : vfs_at a bs s fc fb ps ks ->
  on_devs array_getnum s = (Ret (Z.of_nat (length ks)), s) /\ length ps = length ks /\ Z.of_nat (length ks) < 2 ^ 27.
Proof.
  intros Hat. pose proof Hat as [_ (Hn & Hm & Hl & _) Hc Hf Hd _].
  assert (length ps = length ks) as Hlen by (eapply Forall2_length, dv_kds, Hd). split; [|lia].
  assert (num (knowndevs s) = Z.of_nat (length ks)) as Hnum.
  { apply (f_equal length) in Hc. unfold contents in Hc. rewrite length_take, length_map in Hc. lia. }
  unfold on_devs, zoom, array_getnum, gets. simpl. rewrite Hnum. unfold with_devs. by destruct s.
Qed.

Lemma kd_at_eq a bs s fc fb ps ks i kd : vfs_at a bs s fc fb ps ks -> ks !! i = Some kd ->
  exists p, ps !! i = Some p /\ kds s !! p = Some kd /\ kd_good (ms a) kd /\ kd_at (Z.of_nat i) s = (Ret (p, kd), s).
Proof.
  intros Hat Hk. destruct (vfs_num _ _ _ _ _ _ _ Hat) as (_ & Hlen & _).
  pose proof (lookup_lt_Some _ _ _ Hk). destruct (lookup_lt_is_Some_2 ps i) as [p Hp]; [lia|].
  pose proof Hat as [_ _ Hc _ [Hd Hg _ _] _]. exists p. split; [done|].
  assert (kds s !! p = Some kd) as Hm by (by eapply (Forall2_lookup_lr _ _ _ _ _ _ Hd)). split; [done|].
  split; [by eapply Forall_lookup_1|]. destruct (vfs_array _ _ _ _ _ _ _ Hat) as (own & _ & Ha).
  assert (num (knowndevs s) = Z.of_nat (length ks)) as Hnum.
  { destruct (vfs_num _ _ _ _ _ _ _ Hat) as [E _]. unfold on_devs, zoom, array_getnum, gets in E. simpl in E. congruence. }
  destruct (array_getguy_spec _ _ _ (Z.of_nat i) Ha ltac:(lia)) as (x & Hx & Hguy).
  rewrite Hc, Nat2Z.id, list_lookup_fmap, Hp in Hx. injection Hx as <-.
  unfold kd_at, bind, on_devs, zoom. rewrite Hguy. unfold with_devs, gets, defined. simpl.
  destruct s as [w kd' m l b lb c]. simpl in *. by rewrite Hm.
Qed.

Lemma streq_eq (x y : list Z) s : is_cstr x -> is_cstr y -> streq x y s = (Ret (bool_decide (cstr x = cstr y)), s).
Proof.
  intros Hx Hy. destruct (strcmp_eqb x y Hx Hy) as (c & Hc & Hb). unfold streq, bind, defined. rewrite Hc. simpl.
  by rewrite Hb.
Qed.

(** *** What a device name stands for *)

Inductive target := TRoot (f : Z) | TUnmounted | TDevice (v : Z).

Definition dev_name (kd : knowndev) : list Z := cstr (kn_chars (kd_name kd)).
Definition dev_raw (kd : knowndev) : option (list Z) := cstr ∘ kn_chars <$> kd_rawname kd.
Definition dev_vol (w : W) (kd : knowndev) : option (list Z) :=
  if kd_fs kd =? 0 then None else cstr <$> fs_volname w (kd_fs kd).

(** A file system goes by the name of its device and by its volume name; a device
    that can hold a file system goes by its raw name, any other by its name. *)
Definition dev_target (w : W) (n : list Z) (kd : knowndev) : option target :=
  if decide (dev_name kd = n) then
    Some (if negb (kd_fs kd =? 0) then TRoot (kd_fs kd)
          else if is_null (kd_rawname kd) then TDevice (kd_vnode kd) else TUnmounted)
  else if decide (dev_vol w kd = Some n) then Some (TRoot (kd_fs kd))
  else if decide (dev_raw kd = Some n) then Some (TDevice (kd_vnode kd))
  else None.

Definition find_target (w : W) (n : list Z) (ks : list knowndev) : option target :=
  head (omap (dev_target w n) ks).

Definition visit (t : target) : M (vfs W) (option (Z + Z)) :=
  match t with
  | TRoot f => root <- on_world (FSOP_GETROOT f) ;; ret (Some (inr root))
  | TUnmounted => ret (Some (inl ENXIO))
  | TDevice v => on_world (VOP_INCREF v) ;;; ret (Some (inr v))
  end.

Lemma volname_eq a bs s fc fb ps ks f : vfs_at a bs s fc fb ps ks -> f ∈ ms a ->
  on_world (FSOP_GETVOLNAME f) s = (Ret (fs_volname (v_world s) f), s) /\
  forall n, fs_volname (v_world s) f = Some n -> is_cstr n.
Proof.
  intros [Hfs _ _ _ _ _] Hf. destruct (volname_law _ _ _ f Hfs Hf) as [E Hn]. split; [|done].
  unfold on_world, zoom. rewrite E. unfold with_world. by destruct s.
Qed.

Lemma getroot_fs_eq a bs s fc fb ps ks kd n : vfs_at a bs s fc fb ps ks -> kd_good (ms a) kd -> kd_fs kd <> 0 ->
  is_cstr n ->
  getroot_fs n kd s =
    if decide (dev_name kd = cstr n \/ dev_vol (v_world s) kd = Some (cstr n)) then visit (TRoot (kd_fs kd)) s
    else (Ret None, s).
Proof.
  intros Hat [Hname _ Hfs _] Hnz Hn. assert (kd_fs kd ∈ ms a) as Hm by (by destruct Hfs).
  destruct (volname_eq _ _ _ _ _ _ _ _ Hat Hm) as [Hv Hvn].
  unfold getroot_fs. unfold bind at 1. rewrite Hv. unfold bind at 1. rewrite streq_eq by done.
  unfold dev_vol. zbool. change (cstr (kn_chars (kd_name kd))) with (dev_name kd).
  destruct (decide (dev_name kd = cstr n)) as [Hd|Hd].
  - rewrite bool_decide_eq_true_2, decide_True by auto. done.
  - rewrite bool_decide_eq_false_2 by done. destruct (fs_volname (v_world s) (kd_fs kd)) as [vn|] eqn:Ev; simpl.
    + unfold bind at 1. rewrite streq_eq by eauto. destruct (decide (cstr vn = cstr n)) as [Hc|Hc].
      * rewrite bool_decide_eq_true_2, decide_True by (by auto || by right; f_equal). done.
      * rewrite bool_decide_eq_false_2, decide_False by (done || intros [?|[= ?]]; done). done.
    + unfold bind, ret. rewrite decide_False by (by intros [?|?]). done.
Qed.

Lemma device_itself_eq kd s : kd_device kd <> 0 -> device_itself kd s = visit (TDevice (kd_vnode kd)) s.
Proof. intros Hd. unfold device_itself, bind, assert. zbool. done. Qed.

Lemma raw_eq a bs s fc fb ps ks kd n : vfs_at a bs s fc fb ps ks -> kd_good (ms a) kd -> is_cstr n ->
  match kd_rawname kd with
  | None => ret None
  | Some raw => b <- streq (kn_chars raw) n ;; if b : bool then device_itself kd else ret None
  end s = if decide (dev_raw kd = Some (cstr n)) then visit (TDevice (kd_vnode kd)) s else (Ret None, s).
Proof.
  intros Hat [_ Hraw _ _] Hn. unfold dev_raw. destruct (kd_rawname kd) as [k|] eqn:Ek; simpl.
  - destruct (Hraw k eq_refl) as [Hc Hd]. unfold bind at 1. rewrite streq_eq by done.
    destruct (decide (cstr (kn_chars k) = cstr n)) as [E|E].
    + rewrite bool_decide_eq_true_2, decide_True by (done || by f_equal). by apply device_itself_eq.
    + rewrite bool_decide_eq_false_2, decide_False by (done || intros [= ?]; done). done.
  - done.
Qed.

Lemma getroot_dev_eq a bs s fc fb ps ks i kd n : vfs_at a bs s fc fb ps ks -> ks !! i = Some kd -> is_cstr n ->
  getroot_dev n (Z.of_nat i) s =
    match dev_target (v_world s) (cstr n) kd with None => (Ret None, s) | Some t => visit t s end.
Proof.
  intros Hat Hk Hn. destruct (kd_at_eq _ _ _ _ _ _ _ _ _ Hat Hk) as (p & _ & _ & Hg & Hat').
  unfold getroot_dev. unfold bind at 1. rewrite Hat'. cbv beta iota zeta. pose proof Hg as [Hname Hraw Hfs Huse].
  assert (forall (x : target) k, (bind (visit x) (fun r => match r with Some y => ret (Some y) | None => k end)) s = visit x s) as Hv.
  { intros x k. unfold bind. destruct x; simpl; unfold bind, ret; [destruct (on_world _ _) as [[] ?]|..|destruct (on_world _ _) as [[] ?]]; done. }
  pose proof (raw_eq _ _ _ _ _ _ _ _ _ Hat Hg Hn) as Hr.
  unfold dev_target. change (cstr (kn_chars (kd_name kd))) with (dev_name kd).
  destruct (Z.eqb_spec (kd_fs kd) 0) as [Hz|Hnz]; cbn [negb].
  - assert (dev_vol (v_world s) kd = None) as -> by (unfold dev_vol; by rewrite Hz).
    destruct (is_null (kd_rawname kd)) eqn:En.
    + unfold bind at 1. simpl. unfold bind at 1. rewrite streq_eq by done. change (cstr (kn_chars (kd_name kd))) with (dev_name kd).
      destruct (decide (dev_name kd = cstr n)) as [Hd|Hd].
      * rewrite bool_decide_eq_true_2 by done. zbool. unfold bind, assert. simpl. by apply device_itself_eq, Huse.
      * rewrite bool_decide_eq_false_2 by done. etransitivity; [exact Hr|]; by destruct (decide (dev_raw kd = _)).
    + unfold bind at 1. unfold bind at 1. rewrite streq_eq by done. change (cstr (kn_chars (kd_name kd))) with (dev_name kd).
      destruct (decide (dev_name kd = cstr n)) as [Hd|Hd].
      * rewrite bool_decide_eq_true_2 by done. done.
      * rewrite bool_decide_eq_false_2 by done. simpl. unfold bind at 1. rewrite streq_eq by done.
        change (cstr (kn_chars (kd_name kd))) with (dev_name kd). rewrite bool_decide_eq_false_2 by done. etransitivity; [exact Hr|]; by destruct (decide (dev_raw kd = _)).
  - unfold bind at 1. rewrite (getroot_fs_eq _ _ _ _ _ _ _ _ _ Hat Hg Hnz Hn).
    destruct (decide (dev_name kd = cstr n)) as [Hd|Hd].
    + rewrite decide_True by auto. exact (Hv (TRoot (kd_fs kd)) _).
    + destruct (decide (dev_vol (v_world s) kd = Some (cstr n))) as [Hvl|Hvl].
      * rewrite decide_True by auto. exact (Hv (TRoot (kd_fs kd)) _).
      * rewrite decide_False by tauto. unfold bind at 1. rewrite streq_eq by done.
        change (cstr (kn_chars (kd_name kd))) with (dev_name kd). rewrite bool_decide_eq_false_2 by done. etransitivity; [exact Hr|]; by destruct (decide (dev_raw kd = _)).
Qed.

Lemma find_target_elem w n ks t : find_target w n ks = Some t -> exists kd, kd ∈ ks /\ dev_target w n kd = Some t.
Proof. intros Ht. apply head_Some_elem_of, list_elem_of_omap in Ht. naive_solver. Qed.

Lemma dev_target_inv w n kd t : dev_target w n kd = Some t ->
  match t with TRoot f => kd_fs kd = f /\ f <> 0 | TUnmounted => True | TDevice v => v = kd_vnode kd end.
Proof.
  unfold dev_target, dev_vol. destruct (Z.eqb_spec (kd_fs kd) 0); cbn [negb];
    repeat case_decide; intros; simplify_eq/=; try done. by destruct (is_null _); simplify_eq.
Qed.

(** The vnode a name stands for. *)
Lemma visit_step n ld lb a bs s fc fb ps ks kd t : vfs_at a bs s fc fb ps ks ->
  lk_held (knowndevs_lock s) = ld -> lk_held (bootfs_lock s) = lb -> kd ∈ ks ->
  dev_target (v_world s) n kd = Some t -> few 1 a ->
  runs (visit t) s (fun r s' => match r with
    | Some (inr v) => v <> 0 /\ exists f, vfs_inv ld lb (add_ref (v, f) a) bs s' /\
        match t with TRoot f' => f' = f | TDevice v' => v' = v /\ f = 0 | TUnmounted => False end
    | Some (inl e) => e = ENXIO /\ t = TUnmounted /\ s' = s
    | None => False end) (fun _ _ => False).
Proof.
  intros Hat Hld Hlb Hk Ht Hn. pose proof (dev_target_inv _ _ _ _ Ht) as Hi.
  pose proof Hat as [Hfs _ _ Hf [_ Hg _] _]. rewrite Forall_forall in Hg. destruct (Hg kd Hk) as [_ _ Hkfs _].
  assert (vfs_inv ld lb a bs s) as Hinv by (split; [done|]; split; [done|]; eauto 10).
  destruct t as [f| |vn]; simpl.
  - destruct Hi as [<- Hnz]. destruct Hkfs as [?|Hms]; [done|]. apply runs_bind.
    eapply runs_mono; [apply (world_step_sure _ ld lb a bs s (fun v => add_ref (v, kd_fs kd) a) (fun v => v <> 0) Hinv); try done| |done].
    + intros X B HX Hw. eapply runs_mono; [apply (getroot_law _ _ _ _ Hw Hms); eapply few_room; try done; lia| |done].
      intros v w' [? ?]. by rewrite plus_ref.
    + intros v s' [Hv Hs']. run. split; [done|]. by exists (kd_fs kd).
  - by run.
  - subst vn. apply runs_bind.
    pose proof (fs_mounted _ _ _ (kd_vnode kd, 0) Hfs (held_own _ _ _ (kd_elem s fc fb ks kd Hk))) as [Hnz _].
    eapply runs_mono; [eapply (own_incref_step (kd_vnode kd, 0)); try done; by apply kd_elem| |done].
    intros [] s' Hs'. run. split; [done|]. by exists 0.
Qed.

(** With the table locked. *)
Definition locked s : vfs W :=
  with_knowndevs_lock (mk_lock (lk_self (knowndevs_lock s)) (lk_name (knowndevs_lock s)) true) s.

Lemma devs_acquire_eq s : lk_held (knowndevs_lock s) = false -> devs_acquire s = (Ret tt, locked s).
Proof. intros Hl. unfold devs_acquire, zoom, lock_take. by rewrite Hl. Qed.

Lemma locked_at a bs s fc fb ps ks : vfs_at a bs s fc fb ps ks -> vfs_at a bs (locked s) fc fb ps ks.
Proof. by destruct 1. Qed.

Lemma inv_at ld lb a bs s fc fb ps ks : vfs_at a bs s fc fb ps ks -> lk_held (knowndevs_lock s) = ld ->
  lk_held (bootfs_lock s) = lb -> vfs_inv ld lb a bs s.
Proof. intros. split; [done|]. split; [done|]. eauto 10. Qed.

(** What [vfs_getroot] gives for a name. *)
Lemma getroot_spec lb a bs s fc fb ps ks n : vfs_at a bs s fc fb ps ks ->
  lk_held (knowndevs_lock s) = false -> lk_held (bootfs_lock s) = lb -> is_cstr n -> few 1 a ->
  let t := find_target (v_world s) (cstr n) ks in
  runs (vfs_getroot n) s
    (fun v s' => v <> 0 /\ exists f, vfs_inv false lb (add_ref (v, f) a) bs s' /\
       (t = Some (TRoot f) \/ (t = Some (TDevice v) /\ f = 0)))
    (fun e s' => vfs_inv false lb a bs s' /\ ((e = ENXIO /\ t = Some TUnmounted) \/ (e = ENODEV /\ t = None))).
Proof.
  intros Hat Hld Hlb Hn Hfew t0. unfold vfs_getroot. apply runs_bind.
  eapply runs_intro_ret; [by apply devs_acquire_eq|]. apply locked_at in Hat.
  destruct (vfs_num _ _ _ _ _ _ _ Hat) as [Hnum _]. apply runs_bind. eapply runs_intro_ret; [exact Hnum|].
  assert (for_find (seqZ 0 (Z.of_nat (length ks))) (getroot_dev n) (locked s) =
    match t0 with None => (Ret None, locked s) | Some t => visit t (locked s) end) as Hfind.
  { apply (for_find_list ks _ (dev_target (v_world (locked s)) (cstr n)) visit).
    - intros i kd Hk. by eapply getroot_dev_eq.
    - intros [f| |vn] r s'; simpl; unfold bind, ret; [destruct (on_world _ _) as [[] ?]|
        |destruct (on_world _ _) as [[] ?]]; intros [= <- <-]; eauto. }
  apply runs_bind. unfold t0 in *. clear t0. destruct (find_target (v_world s) (cstr n) ks) as [t|] eqn:Et.
  - eapply runs_eq; [exact Hfind|]. destruct (find_target_elem _ _ _ _ Et) as (kd & Hk & Ht).
    eapply runs_mono; [by eapply (visit_step (cstr n) true lb a bs (locked s))| |done].
    intros [[e|vn]|] s' Hr; [|destruct Hr as (Hnz & f & Hinv & Hm)|done]; apply runs_bind.
    + destruct Hr as (-> & -> & ->). eapply runs_mono; [apply (devs_release_step lb a bs); by eapply inv_at| |done].
      intros [] s' Hs'. run. split; [done|]. by left.
    + eapply runs_mono; [by apply devs_release_step| |done]. intros [] s'' Hs''. run. split; [done|]. exists f.
      split; [done|]. destruct t as [f'| |v']; [|done|]; [subst; by left|destruct Hm as [-> ->]; by right].
  - eapply runs_intro_ret; [exact Hfind|]. apply runs_bind.
    eapply runs_mono; [apply (devs_release_step lb a bs); by eapply inv_at| |done].
    intros [] s' Hs'. run. split; [done|]. by right.
Qed.

Lemma getroot_step lb a bs s n : vfs_inv false lb a bs s -> is_cstr n -> few 1 a ->
  runs (vfs_getroot n) s (fun v s' => v <> 0 /\ exists f, vfs_inv false lb (add_ref (v, f) a) bs s')
    (fun _ s' => vfs_inv false lb a bs s').
Proof.
  intros (Hld & Hlb & fc & fb & ps & ks & Hat) Hn Hf.
  eapply runs_mono; [by eapply getroot_spec|..]; naive_solver.
Qed.

End safe.
