(* ===== verification/VfsSafe.v ===== *)
(** Reference safety of the VFS layer: against the laws of VfsOps.v, every
    operation of Vfs.v runs without panic or deadlock, leaves the device table
    well formed, and accounts for every reference it takes. *)

From Stdlib Require Import ZArith Lia.
From stdpp Require Import prelude gmap gmultiset list.
From S2P Require Import Prelude Str Heap Array SynchObj Vnode Pages Copy Uio VfsOps Vfs VfsInv.

Section safe.
Context {U W : Type} `{!UserMem U} `{VopsLaws U W}.
Implicit Types (s : vfs W) (a : account) (bs : list (Z * Z)).

(** *** Path names *)

(** The vnode and file system a path starts from. *)
Definition starts (st : start) s (fc fb : Z) (ks : list knowndev) (v f : Z) : Prop :=
  match st with
  | Cwd => v = t_cwd s /\ f = fc
  | Boot => v = bootfs_vnode s /\ f = fb
  | CwdRoot => f = fc
  | Named n => find_target (v_world s) n ks = Some (TRoot f) \/ (find_target (v_world s) n ks = Some (TDevice v) /\ f = 0)
  end.

(** Why there is none. *)
Definition no_start (st : start) s (ks : list knowndev) (e : Z) : Prop :=
  match st with
  | Cwd | CwdRoot => e = ENOENT /\ t_cwd s = 0
  | Boot => e = ENOENT /\ bootfs_vnode s = 0
  | Named n => (e = ENXIO /\ find_target (v_world s) n ks = Some TUnmounted) \/
      (e = ENODEV /\ find_target (v_world s) n ks = None)
  end.

Lemma getcurdir_spec ld lb a bs s fc fb ps ks : vfs_at a bs s fc fb ps ks ->
  lk_held (knowndevs_lock s) = ld -> lk_held (bootfs_lock s) = lb -> few 1 a ->
  runs vfs_getcurdir s
    (fun v s' => v <> 0 /\ v = t_cwd s /\ fc <> 0 /\ vfs_inv ld lb (add_ref (v, fc) a) bs s')
    (fun e s' => e = ENOENT /\ t_cwd s = 0 /\ vfs_inv ld lb a bs s').
Proof.
  intros Hat Hld Hlb Hn. unfold vfs_getcurdir. run.
  destruct (Z.eqb_spec (t_cwd s) 0) as [Hz|Hnz]; simpl.
  - run. split; [done|]. split; [done|]. by eapply inv_at.
  - apply runs_bind. eapply runs_mono; [eapply (own_incref_step (t_cwd s, fc)); try done; by apply cwd_elem| |done].
    intros [] s' Hs'. run. conj. by eapply va_cwd.
Qed.

(** The root of the current file system. *)
Lemma curroot_spec a bs s fc fb ps ks : vfs_at a bs s fc fb ps ks ->
  lk_held (knowndevs_lock s) = false -> lk_held (bootfs_lock s) = false -> few 2 a ->
  runs (vn <- vfs_getcurdir ;;
        fs <- on_world (VN_FS vn) ;;
        assert (negb (fs =? 0)) ;;;
        root <- on_world (FSOP_GETROOT fs) ;;
        on_world (VOP_DECREF vn) ;;;
        ret root) s
    (fun v s' => v <> 0 /\ vfs_inv false false (add_ref (v, fc) a) bs s')
    (fun e s' => e = ENOENT /\ t_cwd s = 0 /\ vfs_inv false false a bs s').
Proof.
  intros Hat Hld Hlb Hn. apply runs_bind.
  eapply runs_mono; [eapply getcurdir_spec; try done; unfold few in *; lia| |done].
  intros v s1 (Hv & -> & Hfc & Hinv). set (a1 := add_ref (t_cwd s, fc) a) in *.
  assert (few 1 a1) as Hn1 by exact (few_ref 2 _ a Hn). apply runs_bind.
  assert (on_world (VN_FS (t_cwd s)) s1 = (Ret fc, s1)) as Hfs.
  { pose proof Hinv as (_ & _ & fc' & fb' & ps' & ks' & [Hw _ _ _ _ _]).
    unfold on_world, zoom. rewrite (vn_fs_law _ _ _ (t_cwd s, fc) Hw) by apply held_plus, held_ref.
    unfold with_world. by destruct s1. }
  eapply runs_intro_ret; [exact Hfs|]. do 2 run_step; [by zbool|]. apply runs_bind.
  eapply runs_mono; [apply (world_step_sure _ false false a1 bs s1 (fun v => add_ref (v, fc) a1) (fun v => v <> 0) Hinv); try done| |done].
  - intros X B HX Hw. destruct (fs_mounted _ _ _ (t_cwd s, fc) Hw) as [_ [?|Hm]]; [apply held_plus, held_ref|done|].
    eapply runs_mono; [apply (getroot_law _ _ _ fc Hw Hm); eapply few_room; try done; lia| |done].
    intros v w' [? ?]. by rewrite plus_ref.
  - intros v s2 [Hv2 Hinv2]. apply runs_bind.
    assert (add_ref (v, fc) a1 = add_ref (t_cwd s, fc) (add_ref (v, fc) a)) as E.
    { unfold a1, add_ref. simpl. f_equal. multiset_solver. }
    rewrite E in Hinv2. eapply runs_mono; [by eapply (decref_step (t_cwd s, fc))| |done].
    intros [] s3 Hs3. by run.
Qed.

Lemma boot_spec a bs s fc fb ps ks : vfs_at a bs s fc fb ps ks ->
  lk_held (knowndevs_lock s) = false -> lk_held (bootfs_lock s) = false -> few 1 a ->
  runs (boot_acquire ;;;
        boot <- gets bootfs_vnode ;;
        if boot =? 0 then boot_release ;;; fail ENOENT
        else on_world (VOP_INCREF boot) ;;; boot_release ;;; ret boot) s
    (fun v s' => v <> 0 /\ v = bootfs_vnode s /\ vfs_inv false false (add_ref (v, fb) a) bs s')
    (fun e s' => e = ENOENT /\ bootfs_vnode s = 0 /\ vfs_inv false false a bs s').
Proof.
  intros Hat Hld Hlb Hn. apply runs_bind.
  set (s1 := with_bootfs_lock (mk_lock (lk_self (bootfs_lock s)) (lk_name (bootfs_lock s)) true) s).
  assert (boot_acquire s = (Ret tt, s1)) as E by (unfold boot_acquire, zoom, lock_take; by rewrite Hlb).
  assert (vfs_at a bs s1 fc fb ps ks) as Hat1 by (by destruct Hat).
  eapply runs_intro_ret; [exact E|]. apply runs_bind, runs_gets. change (bootfs_vnode s1) with (bootfs_vnode s).
  destruct (Z.eqb_spec (bootfs_vnode s) 0) as [Hz|Hnz]; apply runs_bind.
  - eapply runs_mono; [eapply (boot_release_step false a bs); by eapply inv_at| |done].
    intros [] s2 Hs2. run. done.
  - eapply runs_mono; [eapply (own_incref_step (bootfs_vnode s, fb) _ false true _ _ s1); try done; exact (boot_elem s1 fc fb ks Hnz)| |done].
    intros [] s2 Hs2. apply runs_bind. eapply runs_mono; [by apply boot_release_step| |done].
    intros [] s3 Hs3. by run.
Qed.

(** [getdevice] takes a path apart as [parse_path] does. *)
Lemma getdevice_spec a bs s fc fb ps ks path : vfs_at a bs s fc fb ps ks ->
  lk_held (knowndevs_lock s) = false -> lk_held (bootfs_lock s) = false -> is_cstr path -> few 2 a ->
  let '(st, w) := parse_path (cstr path) in
  runs (getdevice path) s
    (fun x s' => is_str x.1 w /\ x.2 <> 0 /\ exists f, starts st s fc fb ks x.2 f /\
       vfs_inv false false (add_ref (x.2, f) a) bs s')
    (fun e s' => no_start st s ks e /\ vfs_inv false false a bs s').
Proof.
  intros Hat Hld Hlb Hp Hn. assert (few 1 a) as Hn1 by (unfold few in *; lia).
  pose proof (cstr_str _ Hp) as Hs. unfold parse_path. destruct (sep_split (cstr path)) as [x y] eqn:Esp.
  destruct (sep_split_app _ _ _ Esp) as (Exy & Hx & Hy). rewrite Exy in Hs.
  pose proof (find_sep_spec 0 path x y Hs Hx Hy) as Hf. rewrite Z.add_0_l in Hf.
  unfold getdevice. rewrite Hf. unfold defined at 1.
  assert (forall c r, y = c :: r -> is_str (skip_slashes (drop (S (length x)) path)) (strip r)) as Hsub.
  { intros c r ->. apply skip_slashes_str. change (c :: r) with ([c] ++ r) in Hs. rewrite app_assoc in Hs.
    apply is_str_drop in Hs. by rewrite length_app, Nat.add_1_r in Hs. }
  assert (runs (startvn <- vfs_getcurdir ;; ret (path, startvn)) s
    (fun x0 s' => is_str x0.1 (cstr path) /\ x0.2 <> 0 /\ exists f, starts Cwd s fc fb ks x0.2 f /\
       vfs_inv false false (add_ref (x0.2, f) a) bs s')
    (fun e s' => no_start Cwd s ks e /\ vfs_inv false false a bs s')) as Hcwd.
  { apply runs_bind. eapply runs_mono; [by eapply getcurdir_spec|..].
    - intros v s' (Hv & -> & Hfc & Hinv). run. rewrite Exy. split; [done|]. split; [done|]. by exists fc.
    - intros e s' (-> & Hz & Hinv). done. }
  destruct y as [|c r].
  { destruct x; do 2 step; exact Hcwd. }
  assert (x = [] -> path_char 0 path s = (Ret c, s)) as Hchar.
  { intros ->. simpl in Hs. apply is_str_inv in Hs as (_ & s' & -> & _). done. }
  destruct Hy as [-> | ->]; (destruct x as [|d x]; do 2 step).
  - change (Z.of_nat (length [])) with 0. zbool. do 2 step; [done|]. apply runs_bind.
    eapply runs_intro_ret; [by apply Hchar|]. change (58 =? 47) with false. cbn iota. apply runs_bind.
    do 2 step; [done|]. eapply runs_mono; [by eapply curroot_spec|..].
    + intros v s' [Hv Hinv]. run. split; [by apply (Hsub 58)|]. split; [done|]. by exists fc.
    + intros e s' (-> & Hz & Hinv). done.
  - zbool. set (i := Z.of_nat (length (d :: x))). assert (0 < i) by (unfold i; simpl; lia). zbool.
    replace (Z.to_nat i) with (length (d :: x)) by lia. replace (Z.to_nat (i + 1)) with (S (length (d :: x))) by lia.
    pose proof (is_str_cut _ _ _ Hs) as Hcut. apply runs_bind.
    eapply runs_mono; [eapply (getroot_spec false a bs s fc fb ps ks); try done; by eexists|..].
    + intros v s' (Hv & f & Hinv & Ht). rewrite (is_str_cstr _ _ Hcut) in Ht. run.
      split; [rewrite drop_insert_lt by lia; by apply (Hsub 58)|]. split; [done|]. by exists f.
    + intros e s' [Hinv Ht]. rewrite (is_str_cstr _ _ Hcut) in Ht. done.
  - change (Z.of_nat (length [])) with 0. zbool. do 2 step; [done|]. apply runs_bind.
    eapply runs_intro_ret; [by apply Hchar|]. change (47 =? 47) with true. cbn iota. apply runs_bind.
    eapply runs_mono; [by eapply boot_spec|..].
    + intros v s' (Hv & -> & Hinv). run. split; [by apply (Hsub 47)|]. split; [done|]. by exists fb.
    + intros e s' (-> & Hz & Hinv). done.
  - zbool. exact Hcwd.
Qed.

Lemma getdevice_step a bs s path : vfs_inv false false a bs s -> is_cstr path -> few 2 a ->
  runs (getdevice path) s
    (fun x s' => is_cstr x.1 /\ x.2 <> 0 /\ exists f, vfs_inv false false (add_ref (x.2, f) a) bs s')
    (fun _ s' => vfs_inv false false a bs s').
Proof.
  intros (Hld & Hlb & fc & fb & ps & ks & Hat) Hp Hn.
  pose proof (getdevice_spec _ _ _ _ _ _ _ _ Hat Hld Hlb Hp Hn) as Hr. destruct (parse_path (cstr path)) as [st w].
  eapply runs_mono; [exact Hr|..].
  - intros x s' (Hx & Hv & f & _ & Hinv). split; [by eexists|]. split; [done|]. by exists f.
  - by intros e s' [_ ?].
Qed.

Lemma add_ref_comm r r' a : add_ref r (add_ref r' a) = add_ref r' (add_ref r a).
Proof. unfold add_ref. simpl. f_equal. multiset_solver. Qed.

Lemma few_le n n' a : few n a -> n' <= n -> few n' a.
Proof. unfold few. lia. Qed.

Lemma lookup_step a bs s path : vfs_inv false false a bs s -> is_cstr path -> few 4 a ->
  runs (vfs_lookup path) s
    (fun v s' => v <> 0 /\ exists f, vfs_inv false false (add_ref (v, f) a) bs s')
    (fun _ s' => vfs_inv false false a bs s').
Proof.
  intros Hinv Hp Hn. unfold vfs_lookup. apply runs_bind.
  eapply runs_mono; [apply (getdevice_step a bs); [done|done|by eapply few_le]| |done].
  intros [sub v0] s1 (Hsub & Hv0 & f & Hinv1). simpl in *. rewrite (strlen_cstr _ Hsub). unfold defined. do 2 step.
  destruct (Z.eqb_spec (Z.of_nat (length (cstr sub))) 0) as [Hz|Hnz]; [run; split; [done|]; by exists f|].
  eapply (finally_step _ _ _ (fun v s' => v <> 0 /\ vfs_inv false false (add_ref (v, f) (add_ref (v0, f) a)) bs s')
    _ (vfs_inv false false (add_ref (v0, f) a) bs)).
  - apply give_step; [done|]. intros X B HX Hw. apply (lookup_law _ _ _ (v0, f)); try done.
    + apply held_plus, held_ref.
    + eapply few_room; [exact (few_ref 4 _ a Hn)|lia|done|lia].
  - intros v s2 [Hv Hinv2]. rewrite add_ref_comm in Hinv2.
    eapply runs_mono; [by apply (decref_step (v0, f))| |done]. intros [] s3 Hs3. split; [done|]. by exists f.
  - intros s2 Hinv2. eapply runs_mono; [by apply (decref_step (v0, f))|done|done].
Qed.

Lemma lookparent_step a bs s path len : vfs_inv false false a bs s -> is_cstr path -> few 4 a ->
  runs (vfs_lookparent path len) s
    (fun x s' => x.1 <> 0 /\ is_cstr x.2 /\ exists f, vfs_inv false false (add_ref (x.1, f) a) bs s')
    (fun _ s' => vfs_inv false false a bs s').
Proof.
  intros Hinv Hp Hn. unfold vfs_lookparent. apply runs_bind.
  eapply runs_mono; [apply (getdevice_step a bs); [done|done|by eapply few_le]| |done].
  intros [sub v0] s1 (Hsub & Hv0 & f & Hinv1). simpl in *. rewrite (strlen_cstr _ Hsub). unfold defined. do 2 step.
  eapply (finally_step _ _ _ (fun x s' => x.1 <> 0 /\ is_cstr x.2 /\
    vfs_inv false false (add_ref (x.1, f) (add_ref (v0, f) a)) bs s') _ (vfs_inv false false (add_ref (v0, f) a) bs)).
  - destruct (Z.eqb_spec (Z.of_nat (length (cstr sub))) 0) as [Hz|Hnz]; [by run|].
    eapply runs_mono; [apply (world_step _ false false (add_ref (v0, f) a) bs s1
      (fun x => add_ref (x.1, f) (add_ref (v0, f) a)) (add_ref (v0, f) a) (fun x => x.1 <> 0 /\ is_cstr x.2)); try done| |done].
    + intros X B HX Hw. eapply runs_mono; [apply (lookparent_law _ _ _ (v0, f) sub len Hw); try done| |done].
      * apply held_plus, held_ref.
      * eapply few_room; [exact (few_ref 4 _ a Hn)|lia|done|lia].
      * intros x w' (? & ? & ?). by rewrite plus_ref.
    + intros x s2 [[? ?] ?]. done.
  - intros x s2 (Hx & Hc & Hinv2). rewrite add_ref_comm in Hinv2.
    eapply runs_mono; [by apply (decref_step (v0, f))| |done]. intros [] s3 Hs3. split; [done|]. split; [done|]. by exists f.
  - intros s2 Hinv2. eapply runs_mono; [by apply (decref_step (v0, f))|done|done].
Qed.

(** An operation on a name in a directory: look the directory up, run the
    operation, give the directory back. *)
Lemma name_op_step a bs s path (op : Z -> list Z -> M W unit) : vfs_inv false false a bs s -> is_cstr path -> few 4 a ->
  (forall a' B w r n, fsw a' B w -> r ∈ held a' -> ref_room 2 a' -> is_cstr n -> keeps (op r.1 n) a' B w) ->
  runs ('(dir, name) <- vfs_lookparent path namelen ;;
        finally (on_world (op dir name)) (on_world (VOP_DECREF dir))) s
    (fun _ s' => vfs_inv false false a bs s') (fun _ s' => vfs_inv false false a bs s').
Proof.
  intros Hinv Hp Hn Hop. apply runs_bind. eapply runs_mono; [by apply lookparent_step| |done].
  intros [d name] s1 (Hd & Hname & f & Hinv1). simpl in *.
  eapply (finally_step _ _ _ (fun _ => vfs_inv false false (add_ref (d, f) a) bs) _ (vfs_inv false false (add_ref (d, f) a) bs)).
  - apply keep_step; [done|]. intros X B HX Hw. apply (Hop _ _ _ (d, f)); try done; [apply held_plus, held_ref|].
    eapply few_room; [exact (few_ref 4 _ a Hn)|lia|done|lia].
  - intros x s2 Hinv2. eapply runs_mono; [by apply (decref_step (d, f))|done|done].
  - intros s2 Hinv2. eapply runs_mono; [by apply (decref_step (d, f))|done|done].
Qed.

(** *** Opening and closing *)

Lemma open_vnode_step a bs s path flags : vfs_inv false false a bs s -> is_cstr path -> few 4 a ->
  runs (open_vnode path flags) s
    (fun v s' => v <> 0 /\ exists f, vfs_inv false false (add_ref (v, f) a) bs s')
    (fun _ s' => vfs_inv false false a bs s').
Proof.
  intros Hinv Hp Hn. unfold open_vnode. destruct (negb _); [|by apply lookup_step].
  apply runs_bind. eapply runs_mono; [by apply lookparent_step| |done].
  intros [d name] s1 (Hd & Hname & f & Hinv1). simpl in *.
  eapply (finally_step _ _ _ (fun v s' => v <> 0 /\ vfs_inv false false (add_ref (v, f) (add_ref (d, f) a)) bs s')
    _ (vfs_inv false false (add_ref (d, f) a) bs)).
  - apply give_step; [done|]. intros X B HX Hw. apply (creat_law _ _ _ (d, f)); try done; [apply held_plus, held_ref|].
    eapply few_room; [exact (few_ref 4 _ a Hn)|lia|done|lia].
  - intros v s2 [Hv Hinv2]. rewrite add_ref_comm in Hinv2.
    eapply runs_mono; [by apply (decref_step (d, f))| |done]. intros [] s3 Hs3. split; [done|]. by exists f.
  - intros s2 Hinv2. eapply runs_mono; [by apply (decref_step (d, f))|done|done].
Qed.

Lemma close_step a bs s r : vfs_inv false false (add_handle r a) bs s ->
  runs (vfs_close r.1) s (fun _ s' => vfs_inv false false a bs s') (fun _ _ => False).
Proof.
  intros Hinv. unfold vfs_close. apply runs_bind. eapply runs_mono; [by apply decopen_step| |done].
  intros [] s1 Hs1. by apply decref_step.
Qed.

Lemma open_step a bs s path flags : vfs_inv false false a bs s -> is_cstr path -> few 4 a ->
  runs (vfs_open path flags) s
    (fun v s' => exists f, vfs_inv false false (add_handle (v, f) a) bs s')
    (fun _ s' => vfs_inv false false a bs s').
Proof.
  intros Hinv Hp Hn. unfold vfs_open. apply runs_bind.
  assert (runs (if Z.land flags O_ACCMODE =? O_RDONLY then ret false
     else if (Z.land flags O_ACCMODE =? O_WRONLY) || (Z.land flags O_ACCMODE =? O_RDWR) then ret true
     else fail EINVAL) s (fun _ s' => s' = s) (fun _ s' => s' = s)) as Hhow.
  { destruct (_ =? _); [by run|]. by destruct (_ || _); run. }
  eapply runs_mono; [exact Hhow| |by intros e s' ->]. intros canwrite s' ->.
  apply runs_bind. eapply runs_mono; [by apply open_vnode_step| |done].
  intros v s1 (Hv & f & Hinv1). do 2 step; [by zbool|]. do 2 step.
  eapply runs_mono; [apply (keep_step _ false false (add_ref (v, f) a) bs s1 Hinv1)|..].
  { intros X B HX Hw. apply (open_law _ _ _ (v, f)); [done|]. apply held_plus, held_ref. }
  2:{ intros e s2 Hinv2. apply runs_bind. eapply runs_mono; [exact (decref_step (v, f) _ _ _ _ _ Hinv2)| |done].
      intros [] s3 Hs3. by run. }
  intros [] s2 Hinv2. apply runs_bind. eapply runs_mono; [by apply (incopen_step (v, f))| |done].
  intros [] s3 Hinv3. apply runs_bind.
  assert (forall e s4, vfs_inv false false (add_handle (v, f) a) bs s4 ->
    runs (on_world (VOP_DECOPEN v) ;;; on_world (VOP_DECREF v) ;;; fail e) s4 (fun _ : unit => fun _ => False)
      (fun _ s' => vfs_inv false false a bs s')) as Hundo.
  { intros e s4 Hs4. apply runs_bind. eapply runs_mono; [by apply (decopen_step (v, f))| |done].
    intros [] s5 Hs5. apply runs_bind. eapply runs_mono; [by apply (decref_step (v, f))| |done]. intros [] s6 Hs6. by run. }
  unfold open_truncate. destruct (negb (Z.land flags O_TRUNC =? 0)); [|run; by exists f].
  do 2 step. destruct canwrite; cbn [negb].
  - eapply runs_mono; [apply (keep_step _ false false (add_handle (v, f) a) bs s3 Hinv3)|..].
    + intros X B HX Hw. apply (truncate_law _ _ _ (v, f)); [done|]. apply held_plus, held_handle.
    + intros [] s4 Hs4. run. by exists f.
    + intros e s4 Hs4. eapply runs_mono; [by apply Hundo|done|done].
  - step. eapply runs_mono; [by apply Hundo|done|done].
Qed.

(** *** Two paths *)

Lemma vn_fs_eq ld lb a bs s r : vfs_inv ld lb a bs s -> r ∈ held a -> on_world (VN_FS r.1) s = (Ret r.2, s).
Proof.
  intros (_ & _ & fc & fb & ps & ks & [Hw _ _ _ _ _]) Hr. unfold on_world, zoom.
  rewrite (vn_fs_law _ _ _ r Hw) by (by apply held_plus). unfold with_world. by destruct s.
Qed.

(** The end of [vfs_rename] and [vfs_link]. *)
Lemma two_vnodes_step a bs s r1 r2 (op : M W unit) : few 4 a ->
  vfs_inv false false (add_ref r2 (add_ref r1 a)) bs s ->
  (forall X B w, fsw (plus (add_ref r2 (add_ref r1 a)) X) B w -> ref_room 2 (plus (add_ref r2 (add_ref r1 a)) X) -> r1.2 = r2.2 ->
     keeps op (plus (add_ref r2 (add_ref r1 a)) X) B w) ->
  runs (finally
        (same <- same_fs r1.1 r2.1 ;;
         if same : bool then on_world op else fail EXDEV)
        (on_world (VOP_DECREF r2.1) ;;; on_world (VOP_DECREF r1.1))) s
    (fun _ s' => vfs_inv false false a bs s') (fun _ s' => vfs_inv false false a bs s').
Proof.
  intros Hn Hinv Hop. set (a2 := add_ref r2 (add_ref r1 a)) in *.
  assert (forall s', vfs_inv false false a2 bs s' ->
    runs (on_world (VOP_DECREF r2.1) ;;; on_world (VOP_DECREF r1.1)) s' (fun _ s'' => vfs_inv false false a bs s'')
      (fun _ _ => False)) as Hdrop.
  { intros s' Hs'. apply runs_bind. eapply runs_mono; [by apply decref_step| |done]. intros [] s'' Hs''. by apply decref_step. }
  eapply (finally_step _ _ _ (fun _ => vfs_inv false false a2 bs) _ (vfs_inv false false a2 bs));
    [|intros _; exact Hdrop|exact Hdrop].
  apply runs_bind. unfold same_fs. do 2 (apply runs_bind; eapply runs_intro_ret;
    [eapply vn_fs_eq; [exact Hinv|]; apply held_ref || apply held_add, held_ref|]).
  step. destruct (Z.eqb_spec r1.2 0), (Z.eqb_spec r2.2 0), (Z.eqb_spec r1.2 r2.2); cbn [orb negb]; try (by run).
  apply keep_step; [done|]. intros X B HX Hw. apply Hop; try done.
  eapply (few_room 2 2); [|lia|done|lia]. exact (few_ref 3 _ _ (few_ref 4 _ a Hn)).
Qed.

Lemma rename_step a bs s p1 p2 : vfs_inv false false a bs s -> is_cstr p1 -> is_cstr p2 -> few 5 a ->
  runs (vfs_rename p1 p2) s (fun _ s' => vfs_inv false false a bs s') (fun _ s' => vfs_inv false false a bs s').
Proof.
  intros Hinv H1 H2 Hn. assert (few 4 a) as Hn4 by (by eapply few_le). unfold vfs_rename. apply runs_bind.
  eapply runs_mono; [by apply lookparent_step| |done]. intros [d1 n1] s1 (Hd1 & Hn1 & f1 & Hinv1). simpl in *.
  do 2 step. eapply runs_mono; [apply (lookparent_step (add_ref (d1, f1) a)); try done; exact (few_ref 5 _ a Hn)|..].
  - intros [d2 n2] s2 (Hd2 & Hn2 & f2 & Hinv2). simpl in *.
    apply (two_vnodes_step a bs s2 (d1, f1) (d2, f2)); try done. intros X B w Hw Hroom E.
    apply (rename_law _ _ _ (d1, f1) n1 (d2, f2)); try done; apply held_plus; [apply held_add|]; apply held_ref.
  - intros e s2 Hinv2. apply runs_bind. eapply runs_mono; [exact (decref_step (d1, f1) _ _ _ _ _ Hinv2)| |done]. intros [] s3 Hs3. by run.
Qed.

Lemma link_step a bs s p1 p2 : vfs_inv false false a bs s -> is_cstr p1 -> is_cstr p2 -> few 5 a ->
  runs (vfs_link p1 p2) s (fun _ s' => vfs_inv false false a bs s') (fun _ s' => vfs_inv false false a bs s').
Proof.
  intros Hinv H1 H2 Hn. assert (few 4 a) as Hn4 by (by eapply few_le). unfold vfs_link. apply runs_bind.
  eapply runs_mono; [by apply lookup_step| |done]. intros d1 s1 (Hd1 & f1 & Hinv1).
  do 2 step. eapply runs_mono; [apply (lookparent_step (add_ref (d1, f1) a)); try done; exact (few_ref 5 _ a Hn)|..].
  - intros [d2 n2] s2 (Hd2 & Hn2 & f2 & Hinv2). simpl in *.
    apply (two_vnodes_step a bs s2 (d1, f1) (d2, f2)); try done. intros X B w Hw Hroom E.
    apply (link_law _ _ _ (d2, f2) n2 (d1, f1)); try done; apply held_plus; [|apply held_add]; apply held_ref.
  - intros e s2 Hinv2. apply runs_bind. eapply runs_mono; [exact (decref_step (d1, f1) _ _ _ _ _ Hinv2)| |done]. intros [] s3 Hs3. by run.
Qed.

(** *** The current directory and the boot file system *)

(** The account with the reference that was in a variable given to the client. *)
Definition give_back (v f : Z) a : account := if v =? 0 then a else add_ref (v, f) a.

Lemma plus_give v f a X : plus (give_back v f a) X = plus a (opt_ref v f ⊎ X).
Proof. unfold give_back, opt_ref, plus. destruct (v =? 0); simpl; f_equal; multiset_solver. Qed.

Lemma set_cwd a bs s fc fb ps ks v f : vfs_at (give_back v f a) bs s fc fb ps ks -> (v <> 0 -> f <> 0) ->
  vfs_at (give_back (t_cwd s) fc a) bs (with_cwd v s) f fb ps ks.
Proof.
  intros [Hfs Ha Hc Hn Hd Hcwd] Hf. assert (forall v f, ms (give_back v f a) = ms a) as Hms.
  { intros v' f'. unfold give_back. by destruct (v' =? 0). }
  split; try done; [|by rewrite Hms in *]. rewrite plus_give in *.
  replace (opt_ref (t_cwd s) fc ⊎ vfs_refs (with_cwd v s) f fb ks) with (opt_ref v f ⊎ vfs_refs s fc fb ks); [done|].
  unfold vfs_refs. simpl. multiset_solver.
Qed.

Lemma set_boot a bs s fc fb ps ks v f : vfs_at (give_back v f a) bs s fc fb ps ks ->
  vfs_at (give_back (bootfs_vnode s) fb a) bs (with_bootfs v s) fc f ps ks.
Proof.
  intros [Hfs Ha Hc Hn Hd Hcwd]. assert (forall v f, ms (give_back v f a) = ms a) as Hms.
  { intros v' f'. unfold give_back. by destruct (v' =? 0). }
  split; try done; [|by rewrite Hms in *]. rewrite plus_give in *.
  replace (opt_ref (bootfs_vnode s) fb ⊎ vfs_refs (with_bootfs v s) fc f ks) with (opt_ref v f ⊎ vfs_refs s fc fb ks); [done|].
  unfold vfs_refs. simpl. multiset_solver.
Qed.

(** Giving up what a variable held. *)
Lemma drop_old ld lb a bs s v f : vfs_inv ld lb (give_back v f a) bs s ->
  runs (if negb (v =? 0) then on_world (VOP_DECREF v) else ret tt) s
    (fun _ s' => vfs_inv ld lb a bs s') (fun _ _ => False).
Proof.
  unfold give_back. intros Hinv. destruct (v =? 0); cbn [negb]; [by run|]. by apply (decref_step (v, f)).
Qed.

Lemma setcurdir_step a bs s r n : vfs_inv false false a bs s -> r ∈ held a -> r.1 <> 0 -> few n a -> 0 <= n ->
  runs (vfs_setcurdir r.1) s (fun _ s' => vfs_inv false false a bs s') (fun _ s' => vfs_inv false false a bs s').
Proof.
  intros Hinv Hr Hv Hn Hn0. unfold vfs_setcurdir. apply runs_bind.
  eapply runs_mono; [apply (world_step _ false false a bs s (fun _ => a) a (fun t => S_ISDIR t = true -> r.2 <> 0) Hinv); try done| |done].
  { intros X B HX Hw. eapply runs_mono; [apply (gettype_law _ _ _ r Hw); by apply held_plus| |done]. naive_solver. }
  intros t s1 [Ht Hinv1]. destruct (S_ISDIR t); cbn [negb]; [|by run]. apply runs_bind.
  eapply runs_mono; [by eapply incref_step| |done]. intros [] s2 Hinv2. run.
  destruct Hinv2 as (Hl & Hb & fc & fb & ps & ks & Hat).
  eapply runs_mono; [apply (drop_old false false a bs _ (t_cwd s2) fc)|done|done].
  eapply inv_at; [|done|done]. apply (set_cwd _ _ _ _ _ _ _ r.1 r.2); [|auto].
  unfold give_back. zbool. by destruct r.
Qed.

Lemma chdir_step a bs s path : vfs_inv false false a bs s -> is_cstr path -> few 4 a ->
  runs (vfs_chdir path) s (fun _ s' => vfs_inv false false a bs s') (fun _ s' => vfs_inv false false a bs s').
Proof.
  intros Hinv Hp Hn. unfold vfs_chdir. apply runs_bind. eapply runs_mono; [by apply lookup_step| |done].
  intros v s1 (Hv & f & Hinv1).
  eapply (finally_step _ _ _ (fun _ => vfs_inv false false (add_ref (v, f) a) bs) _ (vfs_inv false false (add_ref (v, f) a) bs)).
  - apply (setcurdir_step _ _ _ (v, f) 3); try done; [apply held_ref|exact (few_ref 4 _ a Hn)].
  - intros [] s2 Hinv2. by apply (decref_step (v, f)).
  - intros s2 Hinv2. by apply (decref_step (v, f)).
Qed.

Lemma clearcurdir_step ld lb a bs s : vfs_inv ld lb a bs s ->
  runs vfs_clearcurdir s (fun _ s' => vfs_inv ld lb a bs s') (fun _ _ => False).
Proof.
  intros (Hl & Hb & fc & fb & ps & ks & Hat). unfold vfs_clearcurdir. run.
  eapply runs_mono; [apply (drop_old ld lb a bs _ (t_cwd s) fc)|done|done].
  eapply inv_at; [|done|done]. by apply (set_cwd _ _ _ _ _ _ _ 0 0).
Qed.

(** [newguy] is a reference the caller gives up, or NULL. *)
Lemma change_bootfs_step ld a bs s v f : vfs_inv ld false (give_back v f a) bs s ->
  runs (change_bootfs v) s (fun _ s' => vfs_inv ld false a bs s') (fun _ _ => False).
Proof.
  intros Hinv. unfold change_bootfs. apply runs_bind. eapply runs_mono; [by apply boot_acquire_step| |done].
  intros [] s1 [_ (Hl & Hb & fc & fb & ps & ks & Hat)]. do 4 step. apply runs_bind.
  eapply runs_mono; [apply (boot_release_step ld (give_back (bootfs_vnode s1) fb a) bs)| |done].
  { eapply inv_at; [|done|done]. by apply (set_boot _ _ _ _ _ _ _ v f). }
  intros [] s2 Hs2. by apply (drop_old _ _ _ _ _ _ fb).
Qed.

End safe.
