(* ===== verification/VfsTable.v ===== *)
(** The operations on the VFS layer's device table: syncing, mounting and
    unmounting, and adding devices. *)

From Stdlib Require Import ZArith Lia.
From stdpp Require Import prelude gmap gmultiset list.
From S2P Require Import Prelude Str Heap Array SynchObj Vnode Pages Copy Uio VfsOps Vfs VfsInv VfsSafe.

Section table.
Context {U W : Type} `{!UserMem U} `{VopsLaws U W}.
Implicit Types (s : vfs W) (a : account) (bs : list (Z * Z)).

(** *** The table under operations of the world *)

Lemma on_world_frame {A} (m : M W A) s Q E : runs (on_world m) s Q E ->
  runs (on_world m) s (fun x s' => Q x s' /\ knowndevs s' = knowndevs s /\ kds s' = kds s)
    (fun e s' => E e s' /\ knowndevs s' = knowndevs s /\ kds s' = kds s).
Proof. unfold runs, on_world, zoom. by destruct (m (v_world s)) as [[] w']. Qed.

Lemma vfs_num_ks a bs s fc fb ps ks : vfs_at a bs s fc fb ps ks -> num (knowndevs s) = Z.of_nat (length ks).
Proof.
  intros Hat. destruct (vfs_num _ _ _ _ _ _ _ Hat) as [E _]. unfold on_devs, zoom, array_getnum, gets in E.
  simpl in E. congruence.
Qed.

Lemma elem_kd_blocks p ps ks : p ∈ ps -> length ps = length ks -> p ∈ (concat (zip_with kd_blocks ps ks)).*1.
Proof.
  revert ks. induction ps as [|q ps IH]; intros [|kd ks] Hin Hl; simplify_eq/=; [by apply not_elem_of_nil in Hin|].
  apply elem_of_cons in Hin as [->|Hin]; [by left|]. right. right. change (p ∈ fst <$> (match kd_rawname kd with
    Some k => [name_block k] | None => [] end ++ concat (zip_with kd_blocks ps ks))).
  rewrite fmap_app, elem_of_app. right. by apply IH.
Qed.

Lemma nodup_kd_blocks ps ks : length ps = length ks -> NoDup (concat (zip_with kd_blocks ps ks)).*1 -> NoDup ps.
Proof.
  revert ks. induction ps as [|p ps IH]; intros [|kd ks] Hl Hnd; simplify_eq/=; [constructor|].
  change (NoDup (fst <$> (kd_blocks p kd ++ concat (zip_with kd_blocks ps ks)))) in Hnd.
  rewrite fmap_app in Hnd. apply NoDup_app in Hnd as (_ & Hdis & Hnd). apply NoDup_cons. split; [|by eapply IH].
  intros Hin. apply (Hdis p); [by left|]. by apply elem_kd_blocks.
Qed.

Lemma vfs_nodup a bs s fc fb ps ks : vfs_at a bs s fc fb ps ks -> NoDup ps.
Proof.
  intros Hat. destruct (vfs_num _ _ _ _ _ _ _ Hat) as (_ & Hl & _). pose proof Hat as [(own & _ & Hnd & _) _ _ _ _ _].
  apply (nodup_kd_blocks ps ks Hl).
  rewrite !fmap_app in Hnd. apply NoDup_app in Hnd as (_ & _ & Hnd). apply NoDup_app in Hnd as (_ & _ & Hnd).
  by apply NoDup_app in Hnd as (Hnd & _ & _).
Qed.

Lemma kd_at_inv ld lb a bs s i : vfs_inv ld lb a bs s -> 0 <= i < num (knowndevs s) ->
  exists fc fb ps ks j p kd, vfs_at a bs s fc fb ps ks /\ ps !! j = Some p /\ ks !! j = Some kd /\
    kd_good (ms a) kd /\ kd_at i s = (Ret (p, kd), s).
Proof.
  intros (_ & _ & fc & fb & ps & ks & Hat) Hi. rewrite (vfs_num_ks _ _ _ _ _ _ _ Hat) in Hi.
  destruct (lookup_lt_is_Some_2 ks (Z.to_nat i)) as [kd Hk]; [lia|].
  destruct (kd_at_eq _ _ _ _ _ _ _ _ _ Hat Hk) as (p & Hp & _ & Hg & E). rewrite Z2Nat.id in E by lia.
  by exists fc, fb, ps, ks, (Z.to_nat i), p, kd.
Qed.

(** *** Syncing *)

Lemma sync_dev_step lb a bs s i : vfs_inv true lb a bs s -> 0 <= i < num (knowndevs s) ->
  runs (sync_dev i) s (fun _ s' => vfs_inv true lb a bs s' /\ knowndevs s' = knowndevs s) (fun _ _ => False).
Proof.
  intros Hinv Hi. destruct (kd_at_inv _ _ _ _ _ _ Hinv Hi) as (fc & fb & ps & ks & j & p & kd & Hat & Hp & Hk & Hg & E).
  unfold sync_dev. apply runs_bind. eapply runs_intro_ret; [exact E|]. cbv beta iota.
  destruct (Z.eqb_spec (kd_fs kd) 0) as [Hz|Hnz]; cbn [negb]; [by run|].
  destruct (kg_fs _ _ Hg) as [?|Hm]; [done|]. apply runs_bind, runs_result_of.
  eapply runs_mono; [apply on_world_frame, (keep_step _ true lb a bs s Hinv)|..].
  - intros X B HX Hw. by apply sync_law.
  - intros [] s' (? & ? & _). by run.
  - intros e s' (? & ? & _). by run.
Qed.

Lemma sync_step lb a bs s : vfs_inv false lb a bs s ->
  runs vfs_sync s (fun _ s' => vfs_inv false lb a bs s') (fun _ _ => False).
Proof.
  intros Hinv. unfold vfs_sync. apply runs_bind. eapply runs_mono; [by apply devs_acquire_step| |done].
  intros [] s1 Hinv1. pose proof Hinv1 as (_ & _ & fc & fb & ps & ks & Hat).
  destruct (vfs_num _ _ _ _ _ _ _ Hat) as [En _]. apply runs_bind. eapply runs_intro_ret; [exact En|].
  rewrite <- (vfs_num_ks _ _ _ _ _ _ _ Hat). apply runs_bind.
  apply (runs_for_each (fun _ _ s' => vfs_inv true lb a bs s' /\ knowndevs s' = knowndevs s1)); [done|..].
  - intros pre x post s' Hl [Hs' Ek]. eapply runs_mono; [apply (sync_dev_step lb a bs s' x Hs')| |done].
    + rewrite Ek. assert (x ∈ seqZ 0 (num (knowndevs s1))) as Hx by (rewrite Hl; set_solver).
      apply elem_of_seqZ in Hx. lia.
    + intros [] s'' [? ?]. split; [done|congruence].
  - intros s' [Hs' _]. by apply devs_release_step.
Qed.

(** *** Finding a device that can hold a file system *)

Definition mountable_as (n : list Z) (x : Z * knowndev) : option (Z * knowndev) :=
  if is_null (kd_rawname x.2) then None else if decide (n = dev_name x.2) then Some x else None.

Lemma findmount_eq a bs s fc fb ps ks n : vfs_at a bs s fc fb ps ks -> lk_held (knowndevs_lock s) = true -> is_cstr n ->
  findmount n s = match head (omap (mountable_as (cstr n)) (zip ps ks)) with
    | Some x => (Ret x, s) | None => (Err ENODEV, s) end.
Proof.
  intros Hat Hl Hn. destruct (vfs_num _ _ _ _ _ _ _ Hat) as (En & Hlen & _).
  unfold findmount. unfold bind at 1, gets at 1. unfold bind at 1, assert. rewrite Hl.
  unfold bind at 1. rewrite En. unfold bind at 1.
  assert (length (zip ps ks) = length ks) as Hz by (rewrite length_zip_with; lia). rewrite <- Hz.
  rewrite (for_find_list (zip ps ks) (findmount_dev n) (mountable_as (cstr n)) (fun x => ret (Some x)) s 0).
  - by destruct (head _).
  - intros i [p kd] Hi. apply lookup_zip_Some in Hi as [Hp Hk]. rewrite Z.add_0_l.
    destruct (kd_at_eq _ _ _ _ _ _ _ _ _ Hat Hk) as (p' & Hp' & _ & Hg & E). simplify_eq.
    unfold findmount_dev. unfold bind at 1. rewrite E. unfold mountable_as. simpl.
    destruct (is_null (kd_rawname kd)); [done|]. unfold bind at 1. rewrite streq_eq by (done || apply Hg).
    change (cstr (kn_chars (kd_name kd))) with (dev_name kd). by destruct (decide (cstr n = dev_name kd)); [rewrite bool_decide_eq_true_2|rewrite bool_decide_eq_false_2].
  - intros x r s' [= <- <-]. eauto.
Qed.

Lemma findmount_found (n : list Z) ps ks p kd : head (omap (mountable_as n) (zip ps ks)) = Some (p, kd) ->
  exists j, ps !! j = Some p /\ ks !! j = Some kd /\ kd_rawname kd <> None /\ dev_name kd = n.
Proof.
  intros Hh. apply head_Some_elem_of, list_elem_of_omap in Hh as ([p' kd'] & Hin & Hm).
  apply list_elem_of_lookup in Hin as [j [Hp Hk]%lookup_zip_Some]. unfold mountable_as in Hm. simpl in Hm.
  destruct (kd_rawname kd') eqn:Er; simpl in Hm; [|done]. case_decide; simplify_eq. exists j. rewrite Er. done.
Qed.

Lemma findmount_runs a bs s fc fb ps ks n : vfs_at a bs s fc fb ps ks -> lk_held (knowndevs_lock s) = true -> is_cstr n ->
  runs (findmount n) s
    (fun x s' => s' = s /\ exists j, ps !! j = Some x.1 /\ ks !! j = Some x.2 /\ kd_rawname x.2 <> None /\ dev_name x.2 = cstr n)
    (fun _ s' => s' = s).
Proof.
  intros Hat Hl Hn. unfold runs. rewrite (findmount_eq _ _ _ _ _ _ _ _ Hat Hl Hn).
  destruct (head _) as [[p kd]|] eqn:Hh; [|done]. split; [done|]. by apply findmount_found.
Qed.

(** An entry gets another file system. *)
Lemma set_fs a a' bs s fc fb ps ks j p kd f : vfs_at a bs s fc fb ps ks -> rs a' = rs a -> hs a' = hs a ->
  forall w', fsw (plus a' (vfs_refs s fc fb ks)) (blocks (knowndevs s) ++ concat (zip_with kd_blocks ps ks) ++ bs) w' ->
  ps !! j = Some p -> ks !! j = Some kd -> kd_rawname kd <> None -> f = 0 \/ f ∈ ms a' ->
  (forall i k, i <> j -> ks !! i = Some k -> kd_fs k = 0 \/ (kd_fs k ∈ ms a' /\ kd_fs k <> f)) ->
  (forall f', f' ∈ ms a' -> f' <> f -> f' <> 0 -> f' ∈ ms a /\ f' <> kd_fs kd) ->
  vfs_at a' bs (with_kds (<[p := set_kd_fs f kd]> (kds s)) (with_world w' s)) fc fb ps (<[j := set_kd_fs f kd]> ks).
Proof.
  intros Hat Hrs Hhs w' Hw Hp Hk Hraw Hf Hoth Hall. pose proof (vfs_nodup _ _ _ _ _ _ _ Hat) as Hnd.
  pose proof Hat as [_ Harr Hc Hn [Hkds Hg Hfs Hlist] Hcwd]. pose proof (lookup_lt_Some _ _ _ Hk) as Hj.
  assert (zip_with kd_blocks ps (<[j:=set_kd_fs f kd]> ks) = zip_with kd_blocks ps ks) as Hb.
  { apply list_eq. intros i. rewrite !lookup_zip_with. destruct (decide (i = j)) as [->|Hne].
    - rewrite list_lookup_insert_eq by done. by rewrite Hp, Hk.
    - by rewrite list_lookup_insert_ne. }
  assert ((fun kd => (kd_vnode kd, 0)) <$> <[j:=set_kd_fs f kd]> ks = (fun kd => (kd_vnode kd, 0)) <$> ks) as Hv.
  { rewrite list_fmap_insert. apply list_insert_id. by rewrite list_lookup_fmap, Hk. }
  split; try done.
  - simpl. rewrite Hb. unfold vfs_refs in *. rewrite Hv. exact Hw.
  - split.
    + simpl. apply Forall2_lookup. intros i. destruct (decide (i = j)) as [->|Hne].
      * rewrite list_lookup_insert_eq, Hp by done. constructor. apply lookup_insert_eq.
      * rewrite list_lookup_insert_ne by done. pose proof (proj1 (Forall2_lookup _ _ _) Hkds i) as Hi.
        inversion Hi as [q k Hq E1 E2|]; constructor. rewrite lookup_insert_ne; [done|]. intros ->.
        apply Hne. by eapply NoDup_lookup.
    + apply Forall_lookup. intros i k Hi. destruct (decide (i = j)) as [->|Hne].
      * rewrite list_lookup_insert_eq in Hi by done. simplify_eq. destruct (Forall_lookup_1 _ _ _ _ Hg Hk) as [? Hr ? ?].
        split; try done. simpl. intros _. destruct (kd_rawname kd) as [k|] eqn:E; [|done]. by apply (Hr k).
      * rewrite list_lookup_insert_ne in Hi by done. destruct (Forall_lookup_1 _ _ _ _ Hg Hi) as [? ? ? ?].
        split; try done. destruct (Hoth _ _ Hne Hi) as [?|[? _]]; auto.
    + intros i i' k k' Hi Hi' E Hnz. destruct (decide (i = j)) as [->|Hne], (decide (i' = j)) as [->|Hne']; [done|..].
      * rewrite list_lookup_insert_eq in Hi by done. rewrite list_lookup_insert_ne in Hi' by done. simplify_eq. simpl in *.
        destruct (Hoth _ _ Hne' Hi') as [?|[_ ?]]; congruence.
      * rewrite list_lookup_insert_eq in Hi' by done. rewrite list_lookup_insert_ne in Hi by done. simplify_eq. simpl in *.
        destruct (Hoth _ _ Hne Hi) as [?|[_ ?]]; congruence.
      * rewrite list_lookup_insert_ne in Hi, Hi' by done. by eapply Hfs.
    + intros f' Hf' Hnz. destruct (decide (f' = f)) as [->|Hff].
      * exists j, (set_kd_fs f kd). by rewrite list_lookup_insert_eq.
      * destruct (Hall f' Hf' Hff Hnz) as [Hm Hne]. destruct (Hlist f' Hm Hnz) as (i & k & Hi & <-).
        exists i, k. rewrite list_lookup_insert_ne; [done|]. intros ->. congruence.
Qed.

(** *** Mounting and unmounting *)

Lemma mount_step lb a bs s n (mf : Z -> M W Z) : vfs_inv false lb a bs s -> is_cstr n ->
  (forall d X B w, fsw (plus a X) B w -> mounts (mf d) (plus a X) B w) ->
  runs (vfs_mount n mf) s (fun _ s' => exists f, vfs_inv false lb (mount_fs f a) bs s')
    (fun _ s' => vfs_inv false lb a bs s').
Proof.
  intros Hinv Hn Hmf. unfold vfs_mount. apply runs_bind. eapply runs_mono; [by apply devs_acquire_step| |done].
  intros [] s1 (Hl & Hb & fc & fb & ps & ks & Hat).
  eapply (finally_step _ _ _ (fun _ s' => exists f, vfs_inv true lb (mount_fs f a) bs s') _ (vfs_inv true lb a bs)).
  2:{ intros [] s2 [f Hs2]. eapply runs_mono; [by apply devs_release_step| |done]. intros [] s3 ?. by exists f. }
  2:{ intros s2 Hs2. by apply devs_release_step. }
  assert (vfs_inv true lb a bs s1) as Hinv1 by (by eapply inv_at).
  apply runs_bind. eapply runs_mono; [by eapply findmount_runs|..].
  - intros [p kd] s' (-> & j & Hp & Hk & Hraw & _). simpl in Hp, Hk, Hraw. cbv beta iota.
    pose proof Hat as [Hw _ _ _ [_ Hg Hfsd _] _]. pose proof (Forall_lookup_1 _ _ _ _ Hg Hk) as Hgk.
    destruct (Z.eqb_spec (kd_fs kd) 0) as [Hz|Hnz]; cbn [negb]; [|by run].
    do 2 step; [by destruct (kd_rawname kd)|]. do 2 step; [by pose proof (kg_use _ _ Hgk Hz); zbool|].
    apply runs_bind. unfold on_world at 1. apply runs_zoom. eapply runs_mono; [by apply Hmf|..].
    + intros f w' (Hf & Hfn & Hw'). do 2 step; [by zbool|]. do 2 step.
      set (s2 := with_kds _ _). assert (vfs_at (mount_fs f a) bs s2 fc fb ps (<[j:=set_kd_fs f kd]> ks)) as Hat2.
      { refine (set_fs a (mount_fs f a) bs s1 fc fb ps ks j p kd f Hat eq_refl eq_refl w' Hw' Hp Hk Hraw _ _ _);
          [right; simpl; set_solver| |simpl; intros; split; [set_solver|congruence]]. intros i k Hne Hi.
        destruct (kg_fs _ _ (Forall_lookup_1 _ _ _ _ Hg Hi)) as [?|Hm]; [by left|]. right. simpl. split; [set_solver|].
        intros E. apply Hfn. simpl. by rewrite <- E. }
      apply runs_bind. destruct (volname_eq _ _ _ _ _ _ _ f Hat2 ltac:(simpl; set_solver)) as [Ev _].
      eapply runs_intro_ret; [exact Ev|]. run. exists f. by eapply inv_at.
    + intros e w' Hw'. split; [done|]. split; [done|]. exists fc, fb, ps, ks. by destruct Hat.
  - intros e s' ->. done.
Qed.

(** The file system of an entry goes. *)
Lemma unmounted_at a bs s fc fb ps ks j p kd w' : vfs_at a bs s fc fb ps ks -> ps !! j = Some p -> ks !! j = Some kd ->
  kd_rawname kd <> None -> kd_fs kd <> 0 ->
  fsw (unmount_fs (kd_fs kd) (plus a (vfs_refs s fc fb ks)))
    (blocks (knowndevs s) ++ concat (zip_with kd_blocks ps ks) ++ bs) w' ->
  vfs_at (unmount_fs (kd_fs kd) a) bs (with_kds (<[p := set_kd_fs 0 kd]> (kds s)) (with_world w' s)) fc fb ps
    (<[j:=set_kd_fs 0 kd]> ks).
Proof.
  intros Hat Hp Hk Hraw Hnz Hw. eapply (set_fs a); try done; [by left| |simpl; set_solver]. intros i k Hne Hi.
  pose proof Hat as [_ _ _ _ [_ Hg Hfsd _] _]. destruct (Z.eqb_spec (kd_fs k) 0) as [?|Hkz]; [by left|]. right.
  destruct (kg_fs _ _ (Forall_lookup_1 _ _ _ _ Hg Hi)) as [?|Hm]; [done|]. split; [|done]. simpl.
  apply elem_of_difference. split; [done|]. intros E%elem_of_singleton. apply Hne. by eapply Hfsd.
Qed.

Lemma unmount_fs_step ld lb a bs s fc fb ps ks j p kd : vfs_at a bs s fc fb ps ks ->
  lk_held (knowndevs_lock s) = ld -> lk_held (bootfs_lock s) = lb -> ps !! j = Some p -> ks !! j = Some kd ->
  kd_rawname kd <> None -> kd_fs kd <> 0 ->
  runs (on_world (FSOP_UNMOUNT (kd_fs kd))) s
    (fun _ s' => knowndevs s' = knowndevs s /\
       vfs_inv ld lb (unmount_fs (kd_fs kd) a) bs (with_kds (<[p := set_kd_fs 0 kd]> (kds s')) s'))
    (fun _ s' => vfs_inv ld lb a bs s' /\ knowndevs s' = knowndevs s).
Proof.
  intros Hat Hl Hb Hp Hk Hraw Hnz. pose proof Hat as [Hw _ _ _ [_ Hg _ _] _].
  destruct (kg_fs _ _ (Forall_lookup_1 _ _ _ _ Hg Hk)) as [?|Hm]; [done|].
  unfold on_world. apply runs_zoom. eapply runs_mono; [by apply (unmount_law _ _ _ _ Hw)|..].
  - intros [] w' [_ Hw']. split; [done|]. eapply inv_at; [exact (unmounted_at _ _ _ _ _ _ _ _ _ _ _ Hat Hp Hk Hraw Hnz Hw')|done|done].
  - intros e w' Hw'. split; [|done]. split; [done|]. split; [done|]. exists fc, fb, ps, ks. by destruct Hat.
Qed.

Lemma unmount_step lb a bs s n : vfs_inv false lb a bs s -> is_cstr n ->
  runs (vfs_unmount n) s (fun _ s' => exists f, vfs_inv false lb (unmount_fs f a) bs s')
    (fun _ s' => vfs_inv false lb a bs s').
Proof.
  intros Hinv Hn. unfold vfs_unmount. apply runs_bind. eapply runs_mono; [by apply devs_acquire_step| |done].
  intros [] s1 (Hl & Hb & fc & fb & ps & ks & Hat).
  eapply (finally_step _ _ _ (fun _ s' => exists f, vfs_inv true lb (unmount_fs f a) bs s') _ (vfs_inv true lb a bs)).
  2:{ intros [] s2 [f Hs2]. eapply runs_mono; [by apply devs_release_step| |done]. intros [] s3 ?. by exists f. }
  2:{ intros s2 Hs2. by apply devs_release_step. }
  assert (vfs_inv true lb a bs s1) as Hinv1 by (by eapply inv_at).
  apply runs_bind. eapply runs_mono; [by eapply findmount_runs|..].
  - intros [p kd] s' (-> & j & Hp & Hk & Hraw & _). simpl in Hp, Hk, Hraw. cbv beta iota.
    pose proof Hat as [Hw _ _ _ [_ Hg Hfsd _] _]. pose proof (Forall_lookup_1 _ _ _ _ Hg Hk) as Hgk.
    destruct (Z.eqb_spec (kd_fs kd) 0) as [Hz|Hnz]; [by run|]. destruct (kg_fs _ _ Hgk) as [?|Hm]; [done|].
    do 2 step; [by destruct (kd_rawname kd)|]. do 2 step.
    { destruct (kd_rawname kd) as [k|] eqn:Er; [|done]. destruct (kg_raw _ _ Hgk k Er). by zbool. }
    apply runs_bind. unfold on_world at 1. apply runs_zoom. eapply runs_mono; [by apply (sync_law _ _ _ _ Hw)|..].
    + intros [] w' Hw'. apply runs_bind.
      eapply runs_mono; [apply (unmount_fs_step true lb a bs (with_world w' s1) fc fb ps ks j p kd); try done; by destruct Hat|..].
      * intros [] s2 [_ Hs2]. run. by exists (kd_fs kd).
      * by intros e s2 [? _].
    + intros e w' Hw'. split; [done|]. split; [done|]. exists fc, fb, ps, ks. by destruct Hat.
  - intros e s' ->. done.
Qed.

(** Some file systems are mounted. *)
Definition with_ms (m : gset Z) a : account := mk_account (rs a) (hs a) m.

Definition mounted_inv (ld lb : bool) a bs s : Prop := exists m, vfs_inv ld lb (with_ms m a) bs s.

Lemma unmount_dev_step lb a bs s i : mounted_inv true lb a bs s -> 0 <= i < num (knowndevs s) ->
  runs (unmount_dev i) s (fun _ s' => mounted_inv true lb a bs s' /\ knowndevs s' = knowndevs s) (fun _ _ => False).
Proof.
  intros [m Hinv] Hi. destruct (kd_at_inv _ _ _ _ _ _ Hinv Hi) as (fc & fb & ps & ks & j & p & kd & Hat & Hp & Hk & Hg & E).
  unfold unmount_dev. apply runs_bind. eapply runs_intro_ret; [exact E|]. cbv beta iota.
  assert (mounted_inv true lb a bs s) as Hm0 by by exists m.
  destruct (kd_rawname kd) as [k|] eqn:Er; cbn [is_null]; [|by run].
  destruct (Z.eqb_spec (kd_fs kd) 0) as [Hz|Hnz]; [by run|]. destruct (kg_fs _ _ Hg) as [?|Hm]; [done|].
  pose proof Hinv as (Hl & Hb & _). pose proof Hat as [Hw _ _ _ _ _].
  assert (forall w B, fsw (plus (with_ms m a) (vfs_refs s fc fb ks)) B w ->
    runs (FSOP_SYNC (kd_fs kd)) w (fun _ w' => fsw (plus (with_ms m a) (vfs_refs s fc fb ks)) B w')
      (fun _ w' => fsw (plus (with_ms m a) (vfs_refs s fc fb ks)) B w')) as Hsync by (intros; by apply sync_law).
  set (B := blocks (knowndevs s) ++ concat (zip_with kd_blocks ps ks) ++ bs) in *.
  assert (forall w', fsw (plus (with_ms m a) (vfs_refs s fc fb ks)) B w' ->
    vfs_at (with_ms m a) bs (with_world w' s) fc fb ps ks) as Hat' by (intros; by destruct Hat).
  assert (forall r w', fsw (plus (with_ms m a) (vfs_refs s fc fb ks)) B w' ->
    runs (match r : Z + unit with
    | inl _ => ret tt
    | inr _ =>
        r <- try (on_world (FSOP_UNMOUNT (kd_fs kd))) ;;
        match r with
        | inl _ => ret tt
        | inr _ => modify (fun s => with_kds (<[p := set_kd_fs 0 kd]> (kds s)) s)
        end
    end) (with_world w' s) (fun _ s' => mounted_inv true lb a bs s' /\ knowndevs s' = knowndevs s) (fun _ _ => False)) as Hrest.
  { intros [e|[]] w' Hw'.
    - run. split; [|done]. exists m. by eapply inv_at; [apply Hat'|..].
    - do 2 step. eapply runs_mono; [eapply (unmount_fs_step true lb (with_ms m a) bs); [by apply Hat'|done..| |done]; by rewrite Er|..].
      + intros [] s2 [Ek Hs2]. run. split; [|done]. by eexists.
      + intros e s2 [Hs2 Ek]. run. split; [|done]. by exists m. }
  apply runs_bind, runs_try. unfold on_world at 1. apply runs_zoom. eapply runs_mono; [exact (Hsync _ _ Hw)|..].
  - intros [] w' Hw'. do 2 step. exact (Hrest (inr tt) w' Hw').
  - intros e w' Hw'. apply runs_bind, runs_try. unfold on_world at 1. apply runs_zoom. eapply runs_mono; [exact (Hsync _ _ Hw')|..].
    + intros [] w2 Hw2. exact (Hrest (inr tt) w2 Hw2).
    + intros e2 w2 Hw2. exact (Hrest (inl e2) w2 Hw2).
Qed.

Lemma unmountall_step lb a bs s : mounted_inv false lb a bs s ->
  runs vfs_unmountall s (fun _ s' => mounted_inv false lb a bs s') (fun _ _ => False).
Proof.
  intros [m Hinv]. unfold vfs_unmountall. apply runs_bind. eapply runs_mono; [by apply devs_acquire_step| |done].
  intros [] s1 Hinv1. pose proof Hinv1 as (_ & _ & fc & fb & ps & ks & Hat).
  destruct (vfs_num _ _ _ _ _ _ _ Hat) as [En _]. apply runs_bind. eapply runs_intro_ret; [exact En|].
  rewrite <- (vfs_num_ks _ _ _ _ _ _ _ Hat). apply runs_bind.
  apply (runs_for_each (fun _ _ s' => mounted_inv true lb a bs s' /\ knowndevs s' = knowndevs s1)).
  - split; [by exists m|done].
  - intros pre x post s' Hl [Hs' Ek]. eapply runs_mono; [apply (unmount_dev_step lb a bs s' x Hs')| |done].
    + rewrite Ek. assert (x ∈ seqZ 0 (num (knowndevs s1))) as Hx by (rewrite Hl; set_solver).
      apply elem_of_seqZ in Hx. lia.
    + intros [] s'' [? ?]. split; [done|congruence].
  - intros s' [[m' Hs'] _]. eapply runs_mono; [by apply devs_release_step| |done]. intros [] s'' ?. by exists m'.
Qed.

End table.
