(* ===== verification/VfsAdd.v ===== *)
(** Adding devices to the VFS layer's table (vfs_doadd of kern/fs/vfs/vfslist.c):
    names stay unique, and what is lost when a name is taken. *)

From Stdlib Require Import ZArith Lia.
From stdpp Require Import prelude gmap gmultiset list.
From S2P Require Import Prelude Str Heap Array SynchObj Vnode Pages Copy Uio VfsOps Vfs VfsInv VfsSafe VfsTable.

(** *** Names that are taken *)

Definition same (x y : option (list Z)) : bool :=
  match x, y with Some x, Some y => bool_decide (cstr x = cstr y) | _, _ => false end.
Definition same3 (x n1 n2 n3 : option (list Z)) : bool := same x n1 || same x n2 || same x n3.

Definition opt_cstr (o : option (list Z)) : Prop := forall s, o = Some s -> is_cstr s.

Section add.
Context {U W : Type} `{!UserMem U} `{VopsLaws U W}.
Implicit Types (s : vfs W) (a : account) (bs : list (Z * Z)).

Lemma samestring_eq x y s : opt_cstr x -> opt_cstr y -> samestring x y s = (Ret (same x y), s).
Proof.
  intros Hx Hy. unfold samestring, same. destruct x as [x|], y as [y|]; try done.
  by rewrite streq_eq by auto.
Qed.

Lemma samestring3_eq x n1 n2 n3 s : opt_cstr x -> opt_cstr n1 -> opt_cstr n2 -> opt_cstr n3 ->
  samestring3 x n1 n2 n3 s = (Ret (same3 x n1 n2 n3), s).
Proof.
  intros Hx H1 H2 H3. unfold samestring3, same3, bind. rewrite samestring_eq by done. destruct (same x n1); [done|].
  rewrite samestring_eq by done. destruct (same x n2); [done|]. by rewrite samestring_eq.
Qed.

Definition bad (w : W) (n1 n2 n3 : option (list Z)) (kd : knowndev) : bool :=
  (negb (kd_fs kd =? 0) && same3 (fs_volname w (kd_fs kd)) n1 n2 n3) ||
  same3 (kn_chars <$> kd_rawname kd) n1 n2 n3 || same3 (Some (kn_chars (kd_name kd))) n1 n2 n3.

Lemma badname_dev_eq a bs s fc fb ps ks i kd n1 n2 n3 : vfs_at a bs s fc fb ps ks -> ks !! i = Some kd ->
  opt_cstr n1 -> opt_cstr n2 -> opt_cstr n3 ->
  badname_dev n1 n2 n3 (Z.of_nat i) s = (Ret (if bad (v_world s) n1 n2 n3 kd then Some tt else None), s).
Proof.
  intros Hat Hk H1 H2 H3. destruct (kd_at_eq _ _ _ _ _ _ _ _ _ Hat Hk) as (p & _ & _ & [Hn Hr Hf _] & E).
  unfold badname_dev. unfold bind at 1. rewrite E. cbv beta iota. unfold bad.
  assert (opt_cstr (kn_chars <$> kd_rawname kd)) as Hraw.
  { intros x. destruct (kd_rawname kd) as [k|] eqn:Ek; [|done]. intros [= <-]. by apply (Hr k). }
  assert (opt_cstr (Some (kn_chars (kd_name kd)))) as Hname by (by intros x [= <-]).
  assert ((if negb (kd_fs kd =? 0) then volname <- on_world (FSOP_GETVOLNAME (kd_fs kd)) ;; samestring3 volname n1 n2 n3
    else ret false) s = (Ret (negb (kd_fs kd =? 0) && same3 (fs_volname (v_world s) (kd_fs kd)) n1 n2 n3), s)) as Hv.
  { destruct (Z.eqb_spec (kd_fs kd) 0) as [Hz|Hnz]; cbn [negb andb]; [done|]. destruct Hf as [?|Hm]; [done|].
    destruct (volname_eq _ _ _ _ _ _ _ _ Hat Hm) as [Ev Hvn]. unfold bind. rewrite Ev.
    by rewrite samestring3_eq by (done || intros ? ?; auto). }
  unfold bind at 1. rewrite Hv. destruct (negb (kd_fs kd =? 0) && _); [done|].
  unfold bind at 1. rewrite samestring3_eq by done. destruct (same3 (kn_chars <$> kd_rawname kd) n1 n2 n3); [done|].
  unfold bind. rewrite samestring3_eq by done. by destruct (same3 _ _ _ _).
Qed.

Lemma badnames_eq a bs s fc fb ps ks n1 n2 n3 : vfs_at a bs s fc fb ps ks -> lk_held (knowndevs_lock s) = true ->
  opt_cstr n1 -> opt_cstr n2 -> opt_cstr n3 ->
  badnames n1 n2 n3 s = (Ret (existsb (bad (v_world s) n1 n2 n3) ks), s).
Proof.
  intros Hat Hl H1 H2 H3. destruct (vfs_num _ _ _ _ _ _ _ Hat) as (En & _ & _).
  unfold badnames, bind, gets, assert. rewrite Hl, En.
  set (g := fun kd => if bad (v_world s) n1 n2 n3 kd then Some tt else None).
  rewrite (for_find_list ks (badname_dev n1 n2 n3) g (fun x => ret (Some x)) s 0).
  - assert (head (omap g ks) = if existsb (bad (v_world s) n1 n2 n3) ks then Some tt else None) as ->.
    { clear. induction ks as [|k ks IH]; [done|]. simpl. unfold g at 1. by destruct (bad _ _ _ _ k). }
    by destruct (existsb _ _).
  - intros i kd Hk. rewrite Z.add_0_l. rewrite (badname_dev_eq _ _ _ _ _ _ _ _ _ _ _ _ Hat Hk) by done.
    unfold g. by destruct (bad _ _ _ _ kd).
  - intros x r s' [= <- <-]. eauto.
Qed.

(** *** Memory *)

Lemma fsw_perm a (B B' : list (Z * Z)) (w : W) : B ≡ₚ B' -> fsw a B w -> fsw a B' w.
Proof.
  intros HB (own & Hok & Ho). exists own. split; [done|].
  eapply (@owns_perm W _ (fs_heap a own)); [|exact Ho]. by rewrite HB.
Qed.

Lemma fsw_kmalloc a (B : list (Z * Z)) (w : W) sz : fsw a B w -> 0 <= sz < 2 ^ 31 ->
  runs (kmalloc sz) w (fun p w' => fsw a (if p =? 0 then B else (p, sz) :: B) w' /\
    keeps_names w w') (fun _ _ => False).
Proof.
  intros (own & Hok & Ho) Hsz. pose proof (fs_kmalloc a own w sz Hok Hsz) as Hr.
  destruct (runs_elim _ _ _ _ Hr) as [(p & w' & E & Hok' & Hp)|(e & w' & _ & [])].
  eapply runs_intro_ret; [exact E|]. split; [|by eapply names_kmalloc]. exists own. split; [done|].
  destruct Hp as [(-> & Hl)|(Hp & Hn & Hl)]; zbool.
  - exact (@owns_same W _ (fs_heap a own) _ _ _ Ho Hl).
  - eapply (@owns_perm W _ (fs_heap a own)); [|exact (@owns_alloc W _ (fs_heap a own) _ _ _ _ _ Ho Hn Hl)].
    by rewrite Permutation_middle.
Qed.

Lemma fsw_kfree a (B : list (Z * Z)) (w : W) p n : fsw a ((p, n) :: B) w ->
  runs (kfree p) w (fun _ w' => fsw a B w' /\ keeps_names w w') (fun _ _ => False).
Proof.
  intros (own & Hok & Ho). assert (fs_live w !! p = Some n) as Hl by (destruct Ho as [_ Ho]; apply Ho; set_solver).
  pose proof (fs_kfree a own w p n Hok Hl) as Hr.
  destruct (runs_elim _ _ _ _ Hr) as [(x & w' & E & Hok' & Hl')|(e & w' & _ & [])]. destruct x.
  eapply runs_intro_ret; [exact E|]. split; [|by eapply names_kfree]. exists own. split; [done|].
  eapply (@owns_free W _ (fs_heap a own)); [|exact Hl'].
  eapply (@owns_perm W _ (fs_heap a own)); [|exact Ho]. by rewrite Permutation_middle.
Qed.

(** *** Steps with the table fixed *)

(** Only the world changed, and the volume names not. *)
Definition same_names s s' : Prop :=
  s' = with_world (v_world s') s /\ keeps_names (v_world s) (v_world s').

Lemma same_names_refl s : same_names s s.
Proof. split; [by destruct s|done]. Qed.

Lemma same_names_trans s s' s'' : same_names s s' -> same_names s' s'' -> same_names s s''.
Proof.
  intros [E1 E2] [E1' E2']. split; [|by eapply keeps_names_trans].
  destruct s, s', s''. unfold with_world in *. simpl in *. congruence.
Qed.

Lemma at_world a a' bs bs' s fc fb ps ks (w' : W) : vfs_at a bs s fc fb ps ks -> ms a' = ms a ->
  fsw (plus a' (vfs_refs s fc fb ks)) (blocks (knowndevs s) ++ concat (zip_with kd_blocks ps ks) ++ bs') w' ->
  vfs_at a' bs' (with_world w' s) fc fb ps ks.
Proof. intros [] Hm Hw. split; try done. by rewrite Hm. Qed.

Lemma at_perm a bs bs' s fc fb ps ks : bs ≡ₚ bs' -> vfs_at a bs s fc fb ps ks -> vfs_at a bs' s fc fb ps ks.
Proof. intros Hp []. split; try done. eapply fsw_perm; [|done]. by rewrite Hp. Qed.

Lemma kmalloc_at a bs s fc fb ps ks sz : vfs_at a bs s fc fb ps ks -> 0 <= sz < 2 ^ 31 ->
  runs (on_world (kmalloc sz)) s
    (fun p s' => vfs_at a (if p =? 0 then bs else (p, sz) :: bs) s' fc fb ps ks /\ same_names s s') (fun _ _ => False).
Proof.
  intros Hat Hsz. pose proof (va_fs _ _ _ _ _ _ _ Hat) as Hw. unfold on_world. apply runs_zoom.
  eapply runs_mono; [by apply (fsw_kmalloc _ _ _ sz Hw)| |done]. intros p w' [Hw' Hv]. split; [|by split].
  eapply at_world; [exact Hat|done|]. destruct (p =? 0); [done|]. eapply fsw_perm; [|exact Hw'].
  by rewrite !app_assoc, Permutation_middle.
Qed.

Lemma kfree_at a bs s fc fb ps ks p n : vfs_at a ((p, n) :: bs) s fc fb ps ks ->
  runs (on_world (kfree p)) s (fun _ s' => vfs_at a bs s' fc fb ps ks /\ same_names s s') (fun _ _ => False).
Proof.
  intros Hat. pose proof (va_fs _ _ _ _ _ _ _ Hat) as Hw. unfold on_world. apply runs_zoom.
  eapply runs_mono; [eapply (fsw_kfree _ (blocks (knowndevs s) ++ concat (zip_with kd_blocks ps ks) ++ bs) _ p n)| |done].
  - eapply fsw_perm; [|exact Hw]. by rewrite !app_assoc, Permutation_middle.
  - intros [] w' [Hw' Hv]. split; [|done]. by eapply at_world.
Qed.

(** A copy of a string in memory of its own. *)
Definition fresh_name (k : kname) (n : list Z) : Prop :=
  kn_addr k <> 0 /\ is_str (kn_chars k) n /\ length (kn_chars k) = S (length n).

Lemma kstrdup_at a bs s fc fb ps ks x n : vfs_at a bs s fc fb ps ks -> is_str x n -> Z.of_nat (length n) < 2 ^ 30 ->
  runs (kstrdup_str x) s
    (fun r s' => same_names s s' /\ match r with
       | None => vfs_at a bs s' fc fb ps ks
       | Some k => fresh_name k n /\ vfs_at a (name_block k :: bs) s' fc fb ps ks
       end) (fun _ _ => False).
Proof.
  intros Hat Hx Hl. unfold kstrdup_str. rewrite (strlen_spec _ _ Hx). unfold defined at 1. do 2 step.
  rewrite u32_small by lia. apply runs_bind. eapply runs_mono; [apply kmalloc_at; [done|lia]| |done].
  intros p s1 [Hat1 Hn]. destruct (Z.eqb_spec p 0) as [->|Hp]; [by run|].
  set (buf := replicate _ 0). assert (length buf = S (length n)) as Hb by (unfold buf; rewrite length_replicate; lia).
  rewrite (strcpy_spec buf x n Hx) by lia. unfold defined. run. split; [done|].
  assert (drop (S (length n)) buf = []) as -> by (by rewrite drop_ge by lia).
  assert (length (n ++ [0]) = S (length n)) as Hl2 by (rewrite length_app; simpl; lia).
  split; [|unfold name_block; simpl; rewrite Hl2; by replace (Z.of_nat (S (length n))) with (Z.of_nat (length n) + 1) by lia].
  split; [done|]. split; [|done]. split; [apply Hx|by exists []].
Qed.

Definition raw_chars : list Z := [114; 97; 119].

Lemma mkrawname_at a bs s fc fb ps ks x n : vfs_at a bs s fc fb ps ks -> is_str x n -> Z.of_nat (length n) < 2 ^ 30 ->
  runs (mkrawname x) s
    (fun r s' => same_names s s' /\ match r with
       | None => vfs_at a bs s' fc fb ps ks
       | Some k => fresh_name k (n ++ raw_chars) /\ vfs_at a (name_block k :: bs) s' fc fb ps ks
       end) (fun _ _ => False).
Proof.
  intros Hat Hx Hl. unfold mkrawname. rewrite (strlen_spec _ _ Hx). unfold defined at 1. do 2 step.
  rewrite u32_small by lia. apply runs_bind. eapply runs_mono; [apply kmalloc_at; [done|lia]| |done].
  intros p s1 [Hat1 Hn]. destruct (Z.eqb_spec p 0) as [->|Hp]; [by run|].
  set (buf := replicate _ 0). assert (length buf = (length n + 4)%nat) as Hb by (unfold buf; rewrite length_replicate; lia).
  rewrite (strcpy_spec buf x n Hx) by lia. unfold defined at 1. do 2 step.
  set (t := n ++ 0 :: drop (S (length n)) buf).
  assert (length t = (length n + 4)%nat) as Ht by (unfold t; rewrite length_app; simpl; rewrite length_drop; lia).
  assert (is_str t n) as Htn by (split; [apply Hx|by eexists]).
  assert (is_str raw_suffix raw_chars) as Hraw by (split; [by repeat constructor|by exists []]).
  rewrite (strcat_spec t raw_suffix n raw_chars Htn Hraw) by (rewrite Ht; simpl; lia). unfold defined. run. split; [done|].
  assert (drop (S (length n + length raw_chars)) t = []) as -> by (rewrite drop_ge by (rewrite Ht; simpl; lia); done).
  rewrite app_assoc.
  assert (length ((n ++ raw_chars) ++ [0]) = (length n + 4)%nat) as Hl2 by (rewrite !length_app; simpl; lia).
  split; [|unfold name_block; simpl; rewrite Hl2; by replace (Z.of_nat (length n + 4)) with (Z.of_nat (length n) + 3 + 1) by lia].
  split; [done|]. split; [|simpl; rewrite Hl2, length_app; simpl; lia]. split; [|by exists []].
  apply Forall_app. split; [apply Hx|by repeat constructor].
Qed.

Lemma create_vnode_at a bs s fc fb ps ks d n : vfs_at a bs s fc fb ps ks -> few n a -> 0 <= n ->
  fs_device (v_world s) d -> no_panic (on_world (dev_create_vnode d)) s ->
  runs (on_world (dev_create_vnode d)) s
    (fun v s' => same_names s s' /\
       if v =? 0 then vfs_at a bs s' fc fb ps ks
       else (v, 0) ∉ held (plus a (vfs_refs s' fc fb ks)) /\ vfs_at (add_ref (v, 0) a) bs s' fc fb ps ks)
    (fun _ _ => False).
Proof.
  intros Hat Hn Hn0 Hd Hp. pose proof (va_fs _ _ _ _ _ _ _ Hat) as Hw. destruct (vfs_num _ _ _ _ _ _ _ Hat) as (_ & _ & Hl).
  pose proof (vfs_refs_size s fc fb ks ltac:(lia)). unfold on_world. apply runs_zoom.
  eapply runs_mono; [apply (create_vnode_law _ _ _ d Hw); [eapply few_room; try done; lia|done|]| |done].
  { unfold no_panic, on_world, zoom in *. by destruct (dev_create_vnode d (v_world s)). }
  intros v w' [Hv Hvol]. split; [done|]. destruct (v =? 0); [by eapply at_world|]. destruct Hv as [Hv Hw'].
  split; [exact Hv|]. eapply at_world; [exact Hat|done|]. by rewrite plus_ref.
Qed.

Lemma free_vnode_at a bs s fc fb ps ks v : vfs_at (add_ref (v, 0) a) bs s fc fb ps ks ->
  (v, 0) ∉ held (plus a (vfs_refs s fc fb ks)) ->
  runs (on_world (kfree v)) s (fun _ s' => same_names s s' /\ vfs_at a bs s' fc fb ps ks) (fun _ _ => False).
Proof.
  intros Hat Hv. pose proof (va_fs _ _ _ _ _ _ _ Hat) as Hw. rewrite plus_ref in Hw. unfold on_world. apply runs_zoom.
  pose proof (free_vnode_law _ _ _ v Hw Hv) as Hr.
  destruct (runs_elim _ _ _ _ Hr) as [(x & w' & E & Hw')|(e & w' & _ & [])]. destruct x.
  eapply runs_intro_ret; [exact E|]. split; [split; [done|by eapply names_kfree]|]. by eapply at_world.
Qed.

(** *** Giving up *)

Definition raw_blocks (raw : option kname) : list (Z * Z) := match raw with Some k => [name_block k] | None => [] end.

Lemma puke_at a bs s fc fb ps ks name raw v :
  (if v =? 0 then vfs_at a (name_block name :: raw_blocks raw ++ bs) s fc fb ps ks
   else (v, 0) ∉ held (plus a (vfs_refs s fc fb ks)) /\
        vfs_at (add_ref (v, 0) a) (name_block name :: raw_blocks raw ++ bs) s fc fb ps ks) ->
  runs (puke (Some name) raw v) s (fun _ _ => False)
    (fun e s' => e = ENOMEM /\ same_names s s' /\ vfs_at a bs s' fc fb ps ks).
Proof.
  set (a0 := if v =? 0 then a else add_ref (v, 0) a). intros Hat.
  assert (vfs_at a0 (name_block name :: raw_blocks raw ++ bs) s fc fb ps ks) as Hat0.
  { unfold a0. destruct (v =? 0); [done|by destruct Hat]. }
  unfold puke. apply runs_bind. eapply runs_mono; [by eapply kfree_at| |done]. intros [] s1 [Hat1 Hn1].
  assert (runs match raw with Some k => on_world (kfree (kn_addr k)) | None => ret tt end s1
    (fun _ s2 => vfs_at a0 bs s2 fc fb ps ks /\ same_names s s2) (fun _ _ => False)) as Hr.
  { destruct raw as [k|]; [|run; by split]. eapply runs_mono; [eapply (kfree_at _ _ _ _ _ _ _ _ _ Hat1)| |done].
    intros [] s2 [Hat2 Hn2]. split; [done|]. by eapply same_names_trans. }
  apply runs_bind. eapply runs_mono; [exact Hr| |done]. intros [] s2 [Hat2 Hn2].
  apply runs_bind. unfold a0 in *. destruct (v =? 0); [by run|]. destruct Hat as [Hv _].
  eapply runs_mono; [eapply free_vnode_at; [exact Hat2|]| |done].
  - destruct Hn2 as [-> _]. exact Hv.
  - intros [] s3 [Hn3 Hat3]. run. split; [done|]. split; [by eapply same_names_trans|done].
Qed.

(** *** The table gets an entry *)

(** The heap, with the account and the volume names kept. *)
Definition names_heap (a : account) (own : list (Z * Z)) (w0 : W) : HeapLaws W.
Proof.
  refine {| heap_ok := fun w => fs_ok a own w /\ keeps_names w0 w; live := fs_live |}.
  - intros h p n [Hok _]. by eapply fs_live_nonnull.
  - intros h p q n m [Hok _]. by eapply fs_live_disjoint.
  - intros h sz [Hok Hn] Hsz. pose proof (fs_kmalloc a own h sz Hok Hsz) as Hr.
    destruct (runs_elim _ _ _ _ Hr) as [(p & w' & E & Hok' & Hp)|(e & w' & _ & [])].
    eapply runs_intro_ret; [exact E|]. split; [|done]. split; [done|]. eapply keeps_names_trans; [exact Hn|by eapply names_kmalloc].
  - intros h [Hok _]. by eapply fs_kfree_null.
  - intros h p n [Hok Hn] Hl. pose proof (fs_kfree a own h p n Hok Hl) as Hr.
    destruct (runs_elim _ _ _ _ Hr) as [(x & w' & E & Hok' & Hp)|(e & w' & _ & [])]. destruct x.
    eapply runs_intro_ret; [exact E|]. split; [|done]. split; [done|]. eapply keeps_names_trans; [exact Hn|by eapply names_kfree].
Defined.

Lemma vfs_fresh a bs s fc fb ps ks p n : vfs_at a ((p, n) :: bs) s fc fb ps ks -> p ∉ ps.
Proof.
  intros Hat. destruct (vfs_num _ _ _ _ _ _ _ Hat) as (_ & Hl & _). pose proof Hat as [(own & _ & Hnd & _) _ _ _ _ _].
  intros Hp. apply (elem_kd_blocks p ps ks) in Hp; [|done].
  rewrite !fmap_app in Hnd. apply NoDup_app in Hnd as (_ & _ & Hnd). apply NoDup_app in Hnd as (_ & _ & Hnd).
  apply NoDup_app in Hnd as (_ & Hdis & _). apply (Hdis p Hp). simpl. by left.
Qed.

(** The table's storage, and the entry behind it. *)
Lemma array_add_at a bs s fc fb ps ks p : vfs_at a bs s fc fb ps ks -> Z.of_nat (length ps) + 1 < 2 ^ 27 ->
  runs (on_devs (array_add p)) s
    (fun _ s' => exists arr w', s' = with_devs arr w' s /\ keeps_names (v_world s) w' /\
       arr_shape arr /\ contents arr = map Some (ps ++ [p]) /\
       fsw (plus a (vfs_refs s fc fb ks)) (blocks arr ++ concat (zip_with kd_blocks ps ks) ++ bs) w')
    (fun e s' => e = ENOMEM /\ same_names s s' /\ vfs_at a bs s' fc fb ps ks).
Proof.
  intros Hat Hn. destruct (vfs_array _ _ _ _ _ _ _ Hat) as (own & Hok & Hsh).
  set (N := v_world s). set (B := own ++ concat (zip_with kd_blocks ps ks) ++ bs) in *.
  assert (forall arr w', @array_at Z W _ (names_heap (plus a (vfs_refs s fc fb ks)) own N) arr w' B ->
    keeps_names N w' /\ arr_shape arr /\
    fsw (plus a (vfs_refs s fc fb ks)) (blocks arr ++ concat (zip_with kd_blocks ps ks) ++ bs) w') as Hback.
  { intros arr w' ((Hok' & HN) & H1 & H2 & H3 & H4 & Ho). split; [done|]. split; [done|]. exists own. split; [done|].
    eapply (@owns_perm W _ (fs_heap (plus a (vfs_refs s fc fb ks)) own)); [|exact Ho]. unfold B. solve_Permutation. }
  assert (@array_at Z W _ (names_heap (plus a (vfs_refs s fc fb ks)) own N) (knowndevs s) (v_world s) B) as Ha.
  { destruct Hsh as (_ & H1 & H2 & H3 & H4 & Ho). split; [by split|]. done. }
  unfold on_devs. apply runs_zoom. eapply runs_mono; [apply (array_add_spec _ _ _ p Ha)|..].
  - rewrite (vfs_num_ks _ _ _ _ _ _ _ Hat). destruct (vfs_num _ _ _ _ _ _ _ Hat) as (_ & <- & _). lia.
  - intros [] [arr w'] (Ha' & _ & Hc). simpl in *. destruct (Hback _ _ Ha') as (HN & Hs & Hf).
    exists arr, w'. split; [done|]. split; [done|]. split; [done|]. split; [|done].
    by rewrite Hc, (va_contents _ _ _ _ _ _ _ Hat), map_app.
  - intros e [arr w'] (-> & E & Ha' & _). simpl in *. subst arr. destruct (Hback _ _ Ha') as (HN & Hs & Hf).
    split; [done|]. split; [by split|]. by destruct Hat.
Qed.

(** Everything but the table, the heap and the devices is as before. *)
Definition calm s s' : Prop :=
  knowndevs_lock s' = knowndevs_lock s /\ bootfs_lock s' = bootfs_lock s /\ t_cwd s' = t_cwd s /\
  bootfs_vnode s' = bootfs_vnode s /\ keeps_names (v_world s) (v_world s').

Lemma calm_names s s' : same_names s s' -> calm s s'.
Proof. intros [-> Hn]. split; [done|]; split; [done|]; split; [done|]; by split. Qed.

Lemma table_calm_trans s s' s'' : calm s s' -> calm s' s'' -> calm s s''.
Proof.
  intros (E1 & E2 & E3 & E4 & E5) (E1' & E2' & E3' & E4' & E5'). repeat (split; [congruence|]). by eapply keeps_names_trans.
Qed.

Definition vfs_add (p : Z) (k : knowndev) s : vfs W := with_kds (<[p := k]> (kds s)) s.

Lemma kds_fresh_at a bs s fc fb ps ks p n k : vfs_at a ((p, n) :: bs) s fc fb ps ks ->
  vfs_at a ((p, n) :: bs) (vfs_add p k s) fc fb ps ks.
Proof.
  intros Hat. pose proof (vfs_fresh _ _ _ _ _ _ _ _ _ Hat) as Hp. destruct Hat as [? ? ? ? [Hd Hg Hf Ha] ?].
  split; try done. split; [|done|done|done]. apply Forall2_lookup. intros i.
  pose proof (proj1 (Forall2_lookup _ _ _) Hd i) as Hi. inversion Hi as [q k' Hq E1 E2|]; constructor. simpl.
  rewrite lookup_insert_ne; [done|]. intros ->. apply Hp. by eapply list_elem_of_lookup_2.
Qed.

Lemma entry_at a bs s fc fb ps ks p k arr w' : kds s !! p = Some k ->
  vfs_at (add_ref (kd_vnode k, 0) a) (kd_blocks p k ++ bs) s fc fb ps ks ->
  kd_good (ms a) k -> kd_fs k = 0 -> Z.of_nat (length ps) + 1 < 2 ^ 27 ->
  arr_shape arr -> contents arr = map Some (ps ++ [p]) ->
  fsw (plus (add_ref (kd_vnode k, 0) a) (vfs_refs s fc fb ks))
    (blocks arr ++ concat (zip_with kd_blocks ps ks) ++ kd_blocks p k ++ bs) w' ->
  vfs_at a bs (with_devs arr w' s) fc fb (ps ++ [p]) (ks ++ [k]).
Proof.
  intros Hk Hat Hg Hnew Hl Harr Hc Hw. destruct (vfs_num _ _ _ _ _ _ _ Hat) as (_ & Hlen & _).
  destruct Hat as [_ _ _ _ [Hd Hgs Hfs Hall] Hcwd]. split; try done.
  - simpl. rewrite zip_with_app, concat_app by done. simpl. rewrite app_nil_r, <- !app_assoc.
    assert (plus a (vfs_refs (with_devs arr w' s) fc fb (ks ++ [k])) =
      plus (add_ref (kd_vnode k, 0) a) (vfs_refs s fc fb ks)) as ->; [|done].
    rewrite plus_ref. unfold plus, add_ref, vfs_refs. simpl. f_equal. rewrite fmap_app, list_to_set_disj_app. simpl.
    multiset_solver.
  - rewrite length_app. simpl. lia.
  - split; [apply Forall2_app; [done|by constructor]|apply Forall_app; split; [done|by constructor]|..].
    2:{ intros f Hf Hnz. destruct (Hall f Hf Hnz) as (i & k' & Hi & E). exists i, k'. split; [|done].
        by apply lookup_app_l_Some. }
    intros i j k1 k2 Hi Hj E Hnz. apply lookup_snoc_Some in Hi as [[Hi Hk1]|[-> ->]], Hj as [[Hj Hk2]|[-> ->]]; [|exfalso|exfalso|done].
    + by eapply Hfs.
    + congruence.
    + congruence.
Qed.

(** The three names an entry goes by, as pointers. *)
Definition vol_ptr (w : W) (k : knowndev) : option (list Z) := if kd_fs k =? 0 then None else fs_volname w (kd_fs k).
Definition clash (w : W) (k : knowndev) (ks : list knowndev) : bool :=
  existsb (bad w (Some (kn_chars (kd_name k))) (kn_chars <$> kd_rawname k) (vol_ptr w k)) ks.

Lemma clash_names (w w' : W) k ks : keeps_names w w' -> clash w' k ks = clash w k ks.
Proof.
  intros [E _]. unfold clash, vol_ptr. rewrite E. clear -E. induction ks as [|k' ks IH]; [done|]. simpl. rewrite IH.
  unfold bad. by rewrite E.
Qed.

Lemma good_ptrs a bs s fc fb ps ks k : vfs_at a bs s fc fb ps ks -> kd_good (ms a) k ->
  opt_cstr (Some (kn_chars (kd_name k))) /\ opt_cstr (kn_chars <$> kd_rawname k) /\ opt_cstr (vol_ptr (v_world s) k).
Proof.
  intros Hat [Hn Hr Hf _]. split; [by intros x [= <-]|]. split.
  - intros x. destruct (kd_rawname k) as [r|] eqn:Er; [|done]. intros [= <-]. by apply (Hr r).
  - intros x. unfold vol_ptr. destruct (Z.eqb_spec (kd_fs k) 0); [done|]. destruct Hf as [?|Hm]; [done|].
    destruct (volname_eq _ _ _ _ _ _ _ _ Hat Hm) as [_ Hv]. apply Hv.
Qed.

Lemma vol_ptr_eq a bs s fc fb ps ks k : vfs_at a bs s fc fb ps ks -> kd_good (ms a) k ->
  (if negb (kd_fs k =? 0) then on_world (FSOP_GETVOLNAME (kd_fs k)) else ret None) s = (Ret (vol_ptr (v_world s) k), s).
Proof.
  intros Hat [_ _ Hf _]. unfold vol_ptr. destruct (Z.eqb_spec (kd_fs k) 0); [done|]. destruct Hf as [?|Hm]; [done|].
  apply (volname_eq _ _ _ _ _ _ _ _ Hat Hm).
Qed.

Lemma devs_release_eq s : lk_held (knowndevs_lock s) = true ->
  devs_release s = (Ret tt, with_knowndevs_lock (mk_lock (lk_self (knowndevs_lock s)) (lk_name (knowndevs_lock s)) false) s).
Proof. intros Hl. unfold devs_release, zoom, lock_drop. by rewrite Hl. Qed.

Lemma lock_at a bs s fc fb ps ks l : vfs_at a bs s fc fb ps ks -> vfs_at a bs (with_knowndevs_lock l s) fc fb ps ks.
Proof. by destruct 1. Qed.

(** What a section under the table's lock does to the table. *)
Lemma devs_section {A} (m : M (vfs W) A) s (Q : A -> vfs W -> Prop) (E : Z -> vfs W -> Prop) :
  lk_held (knowndevs_lock s) = false ->
  (forall x s' l, Q x s' -> Q x (with_knowndevs_lock l s')) ->
  (forall e s' l, E e s' -> E e (with_knowndevs_lock l s')) ->
  runs m (locked s) (fun x s' => Q x s' /\ calm (locked s) s') (fun e s' => E e s' /\ calm (locked s) s') ->
  runs (devs_acquire ;;; finally m devs_release) s (fun x s' => Q x s' /\ calm s s') (fun e s' => E e s' /\ calm s s').
Proof.
  intros Hl HQ HE Hm. apply runs_bind. eapply runs_intro_ret; [by apply devs_acquire_eq|].
  assert (forall s', calm (locked s) s' -> lk_held (knowndevs_lock s') = true /\
    calm s (with_knowndevs_lock (mk_lock (lk_self (knowndevs_lock s')) (lk_name (knowndevs_lock s')) false) s')) as Hr.
  { intros s' (E1 & E2 & E3 & E4 & E5). rewrite E1. split; [done|]. split; [|by split; [|split; [|split]]].
    simpl. destruct (knowndevs_lock s). simpl in *. by rewrite Hl. }
  unfold finally. apply runs_bind, runs_try. eapply runs_mono; [exact Hm|..].
  - intros x s' [Hx Hc]. destruct (Hr s' Hc) as [Hh Hcalm]. apply runs_bind.
    eapply runs_intro_ret; [by apply devs_release_eq|]. run. auto.
  - intros e s' [Hx Hc]. destruct (Hr s' Hc) as [Hh Hcalm]. apply runs_bind.
    eapply runs_intro_ret; [by apply devs_release_eq|]. run. auto.
Qed.

Lemma doadd_table_at a bs s fc fb ps ks p k :
  vfs_at (add_ref (kd_vnode k, 0) a) (kd_blocks p k ++ bs) s fc fb ps ks -> lk_held (knowndevs_lock s) = false ->
  kd_good (ms a) k -> kd_fs k = 0 -> Z.of_nat (length ps) + 1 < 2 ^ 27 ->
  runs (doadd_table p k) s
    (fun _ s' => (clash (v_world s) k ks = false /\ vfs_at a bs s' fc fb (ps ++ [p]) (ks ++ [k])) /\ calm s s')
    (fun e s' => (e = (if clash (v_world s) k ks then EEXIST else ENOMEM) /\
       vfs_at (add_ref (kd_vnode k, 0) a) (kd_blocks p k ++ bs) s' fc fb ps ks) /\ calm s s').
Proof.
  intros Hat Hl Hg Hnew Hn. unfold doadd_table. do 2 step. set (s1 := with_kds _ s).
  assert (vfs_at (add_ref (kd_vnode k, 0) a) (kd_blocks p k ++ bs) s1 fc fb ps ks) as Hat1 by (by apply kds_fresh_at).
  apply runs_bind. eapply runs_intro_ret; [by apply (vol_ptr_eq _ _ _ _ _ _ _ _ Hat1)|].
  change (calm s) with (calm s1). change (v_world s) with (v_world s1). apply devs_section; [done|..].
  - intros [] s' l [? ?]. split; [done|by apply lock_at].
  - intros e s' l [? ?]. split; [done|by apply lock_at].
  - pose proof (locked_at _ _ _ _ _ _ _ Hat1) as Hat2. destruct (good_ptrs _ _ _ _ _ _ _ k Hat2 Hg) as (H1 & H2 & H3).
    apply runs_bind. eapply runs_intro_ret; [by eapply badnames_eq|]. change (v_world (locked s1)) with (v_world s1).
    fold (clash (v_world s1) k ks). destruct (clash (v_world s1) k ks) eqn:Ec; [by run|].
    eapply runs_mono; [by eapply array_add_at|..].
    + intros [] s' (arr & w' & -> & Hv & Hs & Hc & Hw). split; [|by split; [|split; [|split; [|split]]]]. split; [done|].
      eapply entry_at; try done. simpl. apply lookup_insert_eq.
    + intros e s' (-> & Hs & Hat3). split; [done|]. by apply calm_names.
Qed.

(** *** The names an entry goes by *)

Definition opt_list {A} (o : option A) : list A := match o with Some x => [x] | None => [] end.

Definition dev_names (w : W) (kd : knowndev) : list (list Z) :=
  dev_name kd :: opt_list (dev_raw kd) ++ opt_list (dev_vol w kd).

Lemma same_spec x y : same x y = true <-> exists n, n ∈ opt_list (cstr <$> x) /\ n ∈ opt_list (cstr <$> y).
Proof.
  unfold same. destruct x as [x|], y as [y|]; simpl; rewrite ?bool_decide_eq_true; set_solver.
Qed.

Lemma same3_spec x n1 n2 n3 : same3 x n1 n2 n3 = true <->
  exists n, n ∈ opt_list (cstr <$> x) /\ n ∈ opt_list (cstr <$> n1) ++ opt_list (cstr <$> n2) ++ opt_list (cstr <$> n3).
Proof. unfold same3. rewrite !orb_true_iff, !same_spec. set_solver. Qed.

Lemma dev_names_ptrs (w : W) kd : dev_names w kd = opt_list (cstr <$> Some (kn_chars (kd_name kd))) ++
  opt_list (cstr <$> (kn_chars <$> kd_rawname kd)) ++ opt_list (cstr <$> vol_ptr w kd).
Proof. unfold dev_names, dev_raw, dev_vol, vol_ptr. destruct (kd_rawname kd), (kd_fs kd =? 0); done. Qed.

Lemma bad_spec (w : W) k kd : bad w (Some (kn_chars (kd_name k))) (kn_chars <$> kd_rawname k) (vol_ptr w k) kd = true <->
  exists n, n ∈ dev_names w kd /\ n ∈ dev_names w k.
Proof.
  unfold bad. rewrite !orb_true_iff, !same3_spec, !dev_names_ptrs.
  assert (negb (kd_fs kd =? 0) && same3 (fs_volname w (kd_fs kd)) (Some (kn_chars (kd_name k))) (kn_chars <$> kd_rawname k) (vol_ptr w k)
    = same3 (vol_ptr w kd) (Some (kn_chars (kd_name k))) (kn_chars <$> kd_rawname k) (vol_ptr w k)) as ->.
  { unfold vol_ptr at 2. by destruct (kd_fs kd =? 0). }
  rewrite same3_spec. set_solver.
Qed.

Lemma clash_spec (w : W) k ks : clash w k ks = true <-> exists kd n, kd ∈ ks /\ n ∈ dev_names w kd /\ n ∈ dev_names w k.
Proof.
  unfold clash. rewrite existsb_exists. setoid_rewrite bad_spec. setoid_rewrite <- list_elem_of_In. naive_solver.
Qed.

(** No name belongs to two entries. *)
Definition names_unique (w : W) (ks : list knowndev) : Prop :=
  forall i j k k' n, ks !! i = Some k -> ks !! j = Some k' -> n ∈ dev_names w k -> n ∈ dev_names w k' -> i = j.

Lemma names_unique_snoc (w : W) ks k : names_unique w ks -> clash w k ks = false -> names_unique w (ks ++ [k]).
Proof.
  intros Hu Hc. assert (forall kd n, kd ∈ ks -> n ∈ dev_names w kd -> n ∈ dev_names w k -> False) as Hno.
  { intros kd n Hk H1 H2. assert (clash w k ks = true) by (apply clash_spec; eauto). congruence. }
  intros i j k1 k2 n Hi Hj H1 H2.
  apply lookup_snoc_Some in Hi as [[Hi Hk1]|[-> ->]], Hj as [[Hj Hk2]|[-> ->]]; [by eapply Hu|exfalso|exfalso|done];
    eapply Hno; eauto using list_elem_of_lookup_2.
Qed.

Lemma names_unique_eq (w w' : W) ks : keeps_names w w' -> names_unique w ks -> names_unique w' ks.
Proof.
  intros [E _] Hu i j k k' n Hi Hj H1 H2. apply (Hu i j k k' n Hi Hj); unfold dev_names, dev_vol in *;
    [by rewrite <- E|by rewrite <- E].
Qed.

(** *** The whole of [vfs_doadd] *)

(** An entry for a device of the given name. *)
Definition entry_for (k : knowndev) (n : list Z) (mountable : bool) (dev : Z) : Prop :=
  dev_name k = n /\ dev_raw k = (if mountable then Some (n ++ raw_chars) else None) /\ kd_device k = dev /\ kd_fs k = 0.

(** How [vfs_doadd] ends. *)
Definition doadd_ok a bs s fc fb ps ks (n : list Z) (mountable : bool) (dev : Z) s' : Prop :=
  calm s s' /\ exists p k, vfs_at a bs s' fc fb (ps ++ [p]) (ks ++ [k]) /\
    entry_for k n mountable dev /\ clash (v_world s) k ks = false.
Definition doadd_err a bs s fc fb ps ks (n : list Z) (mountable : bool) (dev : Z) (e : Z) s' : Prop :=
  calm s s' /\ ((e = ENOMEM /\ vfs_at a bs s' fc fb ps ks) \/
    exists p k, entry_for k n mountable dev /\
      vfs_at (add_ref (kd_vnode k, 0) a) (kd_blocks p k ++ bs) s' fc fb ps ks /\
      e = if clash (v_world s) k ks then EEXIST else ENOMEM).

Lemma fresh_cstr k n : fresh_name k n -> is_cstr (kn_chars k) /\ cstr (kn_chars k) = n.
Proof. intros (_ & Hs & _). split; [by exists n|by apply is_str_cstr]. Qed.

Lemma doadd_entry_at a bs s fc fb ps ks name raw v n (mountable : bool) dev :
  vfs_at (add_ref (v, 0) a) (name_block name :: raw_blocks raw ++ bs) s fc fb ps ks ->
  (v, 0) ∉ held (plus a (vfs_refs s fc fb ks)) -> v <> 0 -> lk_held (knowndevs_lock s) = false ->
  fresh_name name n -> (if mountable then exists r, raw = Some r /\ fresh_name r (n ++ raw_chars) else raw = None) ->
  dev <> 0 -> Z.of_nat (length ps) + 1 < 2 ^ 27 ->
  runs (kd <- on_world (kmalloc 20) ;;
        if kd =? 0 then puke (Some name) raw v ;;; ret tt else doadd_table kd (mk_kd name raw dev v 0)) s
    (fun _ s' => doadd_ok a bs s fc fb ps ks n mountable dev s')
    (fun e s' => doadd_err a bs s fc fb ps ks n mountable dev e s').
Proof.
  intros Hat Hv Hv0 Hl Hname Hraw Hdev Hn. apply runs_bind.
  eapply runs_mono; [apply kmalloc_at; [exact Hat|lia]| |done]. intros p s1 [Hat1 Hs1].
  destruct (fresh_cstr _ _ Hname) as [Hc Hcn].
  destruct (Z.eqb_spec p 0) as [->|Hp].
  - apply runs_bind. eapply runs_mono; [apply (puke_at a bs); zbool; split; [|exact Hat1]| |]; [|done|].
    + destruct Hs1 as [-> _]. exact Hv.
    + intros e s2 (-> & Hs2 & Hat2). split; [|by left]. eapply table_calm_trans; by apply calm_names.
  - set (k := mk_kd name raw dev v 0).
    assert (entry_for k n mountable dev) as He.
    { split; [done|]. split; [|done]. unfold dev_raw. simpl. destruct mountable; [|by rewrite Hraw].
      destruct Hraw as (r & -> & Hr). simpl. f_equal. by apply fresh_cstr. }
    assert (kd_good (ms a) k) as Hg.
    { split; [done|..|done]; [|by left]. simpl. intros r Er. destruct mountable; [|by simplify_eq].
      destruct Hraw as (r' & -> & Hr). simplify_eq. split; [by apply (fresh_cstr _ _ Hr)|done]. }
    eapply runs_mono; [eapply (doadd_table_at a bs s1 fc fb ps ks p k); try done|..].
    + by destruct Hs1 as [-> _].
    + intros [] s2 ([Hcl Hat2] & Hs2). split; [eapply table_calm_trans; [by apply calm_names|done]|].
      exists p, k. split; [done|]. split; [done|]. by rewrite <- (clash_names _ _ _ _ (proj2 Hs1)).
    + intros e s2 ([Hcl Hat2] & Hs2). split; [eapply table_calm_trans; [by apply calm_names|done]|]. right.
      exists p, k. split; [done|]. split; [done|]. by rewrite <- (clash_names _ _ _ _ (proj2 Hs1)).
Qed.

Lemma doadd_ok_calm a bs s1 s fc fb ps ks n mountable dev s' : calm s1 s ->
  doadd_ok a bs s fc fb ps ks n mountable dev s' -> doadd_ok a bs s1 fc fb ps ks n mountable dev s'.
Proof.
  intros Hc [Hc' (p & k & ? & ? & Hcl)]. split; [by eapply table_calm_trans|]. exists p, k. split; [done|]. split; [done|].
  rewrite <- Hcl. symmetry. apply clash_names. apply Hc.
Qed.

Lemma doadd_err_calm a bs s1 s fc fb ps ks n mountable dev e s' : calm s1 s ->
  doadd_err a bs s fc fb ps ks n mountable dev e s' -> doadd_err a bs s1 fc fb ps ks n mountable dev e s'.
Proof.
  intros Hc [Hc' Hor]. split; [by eapply table_calm_trans|]. destruct Hor as [?|(p & k & ? & ? & Hcl)]; [by left|]. right.
  exists p, k. split; [done|]. split; [done|]. rewrite Hcl, (clash_names (v_world s1) (v_world s) k ks); [done|]. apply Hc.
Qed.

Lemma doadd_vnode_at a bs s fc fb ps ks name raw n (mountable : bool) dev :
  vfs_at a (name_block name :: raw_blocks raw ++ bs) s fc fb ps ks -> few 1 a -> lk_held (knowndevs_lock s) = false ->
  fresh_name name n -> (if mountable then exists r, raw = Some r /\ fresh_name r (n ++ raw_chars) else raw = None) ->
  fs_device (v_world s) dev -> Z.of_nat (length ps) + 1 < 2 ^ 27 ->
  let m := (vnode <- on_world (dev_create_vnode dev) ;;
        if vnode =? 0 then puke (Some name) raw 0 ;;; ret tt
        else kd <- on_world (kmalloc 20) ;;
             if kd =? 0 then puke (Some name) raw vnode ;;; ret tt
             else doadd_table kd (mk_kd name raw dev vnode 0)) in
  no_panic m s ->
  runs m s
    (fun _ s' => doadd_ok a bs s fc fb ps ks n mountable dev s')
    (fun e s' => doadd_err a bs s fc fb ps ks n mountable dev e s').
Proof.
  intros Hat Hfew Hl Hname Hraw Hdev Hn m Hp. apply no_panic_head in Hp. unfold m. apply runs_bind.
  eapply runs_mono; [by eapply (create_vnode_at _ _ _ _ _ _ _ dev 1)| |done]. intros v s1 [Hs1 Hv].
  pose proof (calm_names _ _ Hs1) as Hc1. destruct (Z.eqb_spec v 0) as [->|Hv0].
  - apply runs_bind. eapply runs_mono; [exact (puke_at a bs s1 fc fb ps ks name raw 0 Hv)|done|].
    intros e s2 (-> & Hs2 & Hat2). split; [|by left]. eapply table_calm_trans; [done|by apply calm_names].
  - destruct Hv as [Hv Hat1]. eapply runs_mono; [eapply (doadd_entry_at a bs s1 fc fb ps ks name raw v n mountable dev); try done; [..|by eapply fs_device_nonnull]|..].
    + by destruct Hc1 as [-> _].
    + intros [] s2 Hs2. by eapply doadd_ok_calm.
    + intros e s2 Hs2. by eapply doadd_err_calm.
Qed.

Lemma doadd_at a bs s fc fb ps ks x n (mountable : bool) dev :
  vfs_at a bs s fc fb ps ks -> few 1 a -> lk_held (knowndevs_lock s) = false ->
  is_str x n -> Z.of_nat (length n) < 2 ^ 30 ->
  fs_device (v_world s) dev -> Z.of_nat (length ps) + 1 < 2 ^ 27 ->
  no_panic (vfs_doadd x mountable dev 0) s ->
  runs (vfs_doadd x mountable dev 0) s
    (fun _ s' => doadd_ok a bs s fc fb ps ks n mountable dev s')
    (fun e s' => doadd_err a bs s fc fb ps ks n mountable dev e s').
Proof.
  intros Hat Hfew Hl Hx Hxl Hdev Hn Hp. unfold vfs_doadd in *. apply runs_bind.
  eapply runs_mono; [eapply no_panic_bind; [exact Hp|by eapply (kstrdup_at _ _ _ _ _ _ _ x n Hat)]| |done].
  clear Hp. intros [name|] s1 [[Hs1 Hk] Hp]; pose proof (calm_names _ _ Hs1) as Hc1.
  2:{ unfold puke. simpl. run. split; [done|]. by left. }
  destruct Hk as [Hname Hat1]. pose proof (fresh_cstr _ _ Hname) as [[n' Hn'] Hcn].
  rewrite (is_str_cstr _ _ Hn') in Hcn. subst n'. apply runs_bind.
  assert (runs (if mountable then r <- mkrawname (kn_chars name) ;;
       match r with None => puke (Some name) None 0 ;;; ret None | Some raw => ret (Some raw) end else ret None) s1
     (fun raw s2 => calm s s2 /\ (if mountable then exists r, raw = Some r /\ fresh_name r (n ++ raw_chars) else raw = None) /\
        vfs_at a (name_block name :: raw_blocks raw ++ bs) s2 fc fb ps ks)
     (fun e s2 => doadd_err a bs s fc fb ps ks n mountable dev e s2)) as Hr.
  { destruct mountable; [|by run]. apply runs_bind.
    eapply runs_mono; [by eapply (mkrawname_at _ _ _ _ _ _ _ _ n Hat1)| |done].
    intros [r|] s2 [Hs2 Hr]; (assert (calm s s2) as Hc2 by (eapply table_calm_trans; [done|by apply calm_names])).
    - destruct Hr as [Hr Hat2]. run. split; [done|]. split; [by exists r|]. eapply at_perm; [|exact Hat2]. simpl. apply Permutation_swap.
    - apply runs_bind. eapply runs_mono; [exact (puke_at a bs s2 fc fb ps ks name None 0 Hr)|done|].
      intros e s3 (-> & Hs3 & Hat3). split; [|by left]. eapply table_calm_trans; [done|by apply calm_names]. }
  eapply runs_mono; [eapply no_panic_bind; [exact Hp|exact Hr]| |done]. intros raw s2 [(Hc2 & Hraw & Hat2) Hp2].
  eapply runs_mono; [eapply doadd_vnode_at; try done|..].
  - by destruct Hc2 as [-> _].
  - by apply Hc2.
  - intros [] s3 Hs3. by eapply doadd_ok_calm.
  - intros e s3 Hs3. by eapply doadd_err_calm.
Qed.

End add.
