(* ===== verification/VfsCwd.v ===== *)
(** The VFS calls that go through a uio: vfs_getcwd (kern/fs/vfs/vfscwd.c) and
    vfs_readlink (kern/fs/vfs/vfspath.c). *)

From Stdlib Require Import ZArith Lia.
From stdpp Require Import prelude gmap gmultiset list.
From S2P Require Import Prelude Str Heap Array SynchObj Vnode Pages Copy Uio VfsOps Vfs VfsInv VfsSafe VfsTable.

Section cwd.
Context {U W : Type} `{!UserMem U} `{!UserMemLaws U} `{VopsLaws U W}.
Implicit Types (s : vfs W) (a : account) (bs : list (Z * Z)).

(** A uio made by [mk_kuio] or for a system call: the whole region is wanted. *)
Definition uio_good (u : uio) s : Prop := uio_ok (u, w_thread (v_world s)) /\ iov_len u = uio_resid u.

Lemma uiomove_all (data : list Z) x : uio_ok x -> iov_len x.1 = uio_resid x.1 -> byte_list data ->
  let done_ := fun x' : uio * uthread U => uio_ok x' /\ iov_len x'.1 = uio_resid x'.1 in
  runs (uiomove data 0 (Z.of_nat (length data))) x (fun _ x' => done_ x') (fun _ x' => done_ x').
Proof.
  intros Hok Hl Hb done_. set (n := Z.of_nat (length data)).
  assert (forall m buf' x', transferred data 0 m x buf' x' -> done_ x') as Ht.
  { intros m buf' x' ([] & Hok' & _). split; [done|]. lia. }
  assert (forall m x', faulted m x x' -> done_ x') as Hf.
  { intros m x' []. split; [done|]. by rewrite fl_uio. }
  destruct (decide (n <= uio_resid x.1)) as [Hle|Hgt].
  - eapply runs_mono; [apply uiomove_spec; try done; lia|..]; [eauto|]. intros e x' [_ ?]. eauto.
  - eapply runs_mono; [apply (uiomove_cut data 0 n x); try done; lia|..]; [eauto|]. intros e x' [_ ?]. eauto.
Qed.

Lemma inv_thread ld lb a bs s t : vfs_inv ld lb a bs s -> vfs_inv ld lb a bs (with_world (with_thread t (v_world s)) s).
Proof.
  intros (Hld & Hlb & fc & fb & ps & ks & [Hw ? ? ? ? ?]). split; [done|]. split; [done|]. exists fc, fb, ps, ks.
  split; try done. destruct Hw as (own & Hok & Ho). destruct (fs_thread _ _ _ t Hok) as (Hok' & Hl & _).
  exists own. split; [done|]. exact (@owns_same W _ (fs_heap (plus a (vfs_refs s fc fb ks)) own) _ _ _ Ho Hl).
Qed.

Lemma thread_eq ld lb a bs s t : vfs_inv ld lb a bs s -> w_thread (with_thread t (v_world s)) = t.
Proof.
  intros (_ & _ & fc & fb & ps & ks & [(own & Hok & _) _ _ _ _ _]). by destruct (fs_thread _ _ _ t Hok) as (_ & _ & ?).
Qed.

Lemma uiomove_step ld lb a bs u s (data : list Z) : vfs_inv ld lb a bs s -> uio_good u s -> byte_list data ->
  let good := fun x : uio * vfs W => vfs_inv ld lb a bs x.2 /\ uio_good x.1 x.2 in
  runs (uiomove_world data) (u, s) (fun _ x => good x) (fun _ x => good x).
Proof.
  intros Hinv [Hok Hl] Hb good. pose proof (uiomove_all data (u, w_thread (v_world s)) Hok Hl Hb) as Hr.
  unfold runs, uiomove_world in *. simpl. destruct (uiomove _ _ _ _) as [[] [u' t]]; try done;
    (split; [by apply inv_thread|]; unfold uio_good; simpl; by rewrite (thread_eq _ _ _ _ _ _ Hinv)).
Qed.

(** *** The name of a file system's device *)

Definition holds_fs (f : Z) (kd : knowndev) : option (list Z) :=
  if kd_fs kd =? f then Some (kn_chars (kd_name kd)) else None.

Lemma unlocked_eq s : lk_held (knowndevs_lock s) = false -> devs_release (locked s) = (Ret tt, s).
Proof.
  intros Hl. unfold devs_release, zoom, lock_drop. simpl. destruct s as [w d m l b lb c]. simpl in *.
  unfold locked, with_knowndevs_lock. simpl. destruct l. simpl in *. by rewrite Hl.
Qed.

Lemma getdevname_eq a bs s fc fb ps ks f : vfs_at a bs s fc fb ps ks -> lk_held (knowndevs_lock s) = false -> f <> 0 ->
  vfs_getdevname f s = (Ret (head (omap (holds_fs f) ks)), s).
Proof.
  intros Hat Hl Hf. pose proof (locked_at _ _ _ _ _ _ _ Hat) as Hat1. destruct (vfs_num _ _ _ _ _ _ _ Hat1) as (En & _ & _).
  unfold vfs_getdevname, bind, assert. zbool. rewrite devs_acquire_eq, En by done.
  rewrite (for_find_list ks (devname_of f) (holds_fs f) (fun x => ret (Some x)) (locked s) 0).
  - destruct (head _); unfold ret; by rewrite unlocked_eq.
  - intros i kd Hk. rewrite Z.add_0_l. destruct (kd_at_eq _ _ _ _ _ _ _ _ _ Hat1 Hk) as (p & _ & _ & _ & E).
    unfold devname_of, bind. rewrite E. unfold holds_fs. by destruct (kd_fs kd =? f).
  - intros x r s' [= <- <-]. eauto.
Qed.

(** A mounted file system has a name. *)
Lemma getdevname_some a bs s fc fb ps ks f : vfs_at a bs s fc fb ps ks -> f ∈ ms a -> f <> 0 ->
  exists n, head (omap (holds_fs f) ks) = Some n /\ is_cstr n.
Proof.
  intros Hat Hf Hnz. pose proof Hat as [_ _ _ _ [_ Hg _ Hall] _]. destruct (Hall f Hf Hnz) as (i & k & Hi & Hk).
  assert (kn_chars (kd_name k) ∈ omap (holds_fs f) ks) as Hin.
  { apply list_elem_of_omap. exists k. split; [by eapply list_elem_of_lookup_2|]. unfold holds_fs. by zbool. }
  destruct (omap (holds_fs f) ks) as [|n l] eqn:E; [by apply not_elem_of_nil in Hin|]. exists n. split; [done|].
  assert (n ∈ omap (holds_fs f) ks) as Hn by (rewrite E; by left). apply list_elem_of_omap in Hn as (k' & Hk' & Hn).
  unfold holds_fs in Hn. destruct (kd_fs k' =? f); simplify_eq. apply (kg_name (ms a)).
  rewrite Forall_forall in Hg. by apply Hg.
Qed.

(** *** vfs_getcwd *)

Lemma getcurdir_thread s v s' : vfs_getcurdir s = (Ret v, s') -> w_thread (v_world s') = w_thread (v_world s).
Proof.
  unfold vfs_getcurdir, bind, gets. destruct (negb _); [|done]. unfold on_world, zoom.
  destruct (VOP_INCREF _ _) as [[[]| | |] w'] eqn:E; intros [= <- <-]. by eapply incref_thread.
Qed.

Lemma getcwd_name_step a bs u s v f : vfs_inv false false (add_ref (v, f) a) bs s -> uio_good u s -> f <> 0 ->
  runs (getcwd_name v) (u, s) (fun _ x => vfs_inv false false (add_ref (v, f) a) bs x.2)
    (fun _ x => vfs_inv false false (add_ref (v, f) a) bs x.2).
Proof.
  intros Hinv Hu Hf. pose proof Hinv as (Hld & Hlb & fc & fb & ps & ks & Hat). pose proof (va_fs _ _ _ _ _ _ _ Hat) as Hw.
  destruct (fs_mounted _ _ _ (v, f) Hw) as [_ [?|Hm]]; [by apply held_plus, held_ref|done|]. simpl in Hm.
  destruct (volname_eq _ _ _ _ _ _ _ f Hat Hm) as [Ev Hvn]. unfold getcwd_name. apply runs_bind, runs_on_snd.
  eapply runs_intro_ret; [apply (vn_fs_eq false false _ bs _ (v, f) Hinv), held_ref|]. simpl. do 2 step; [by zbool|].
  apply runs_bind, runs_on_snd. eapply runs_intro_ret; [exact Ev|]. simpl.
  assert (runs match fs_volname (v_world s) f with Some n => ret (Some n) | None => on_snd (vfs_getdevname f) end (u, s)
    (fun r x => x = (u, s) /\ exists n, r = Some n /\ is_cstr n) (fun _ _ => False)) as Hn.
  { destruct (fs_volname (v_world s) f) as [n|] eqn:En; [run; split; [done|]; exists n; auto|].
    apply runs_on_snd. eapply runs_intro_ret; [by eapply getdevname_eq|]. simpl. split; [done|]. by eapply getdevname_some. }
  apply runs_bind. eapply runs_mono; [exact Hn| |done]. intros r x (-> & n & -> & Hc).
  rewrite (strlen_cstr _ Hc). unfold defined. do 2 step. rewrite Nat2Z.id. destruct (cstr_str _ Hc) as [Hb [rest Hrest]].
  assert (byte_list (take (length (cstr n)) n)) as Hbytes.
  { rewrite Hrest at 2. rewrite take_app_length. eapply Forall_impl; [exact Hb|]. simpl. lia. }
  assert (forall x : uio * vfs W, vfs_inv false false (add_ref (v, f) a) bs x.2 /\ uio_good x.1 x.2 ->
    vfs_inv false false (add_ref (v, f) a) bs x.2) as Hfst by (by intros x [? _]).
  apply runs_bind. eapply runs_mono; [by apply (uiomove_step false false (add_ref (v, f) a) bs u s)| |by auto].
  intros [] [u1 s1] [Hinv1 Hu1]. apply runs_bind.
  eapply runs_mono; [apply (uiomove_step false false (add_ref (v, f) a) bs u1 s1 [58] Hinv1 Hu1)| |by auto].
  { constructor; [lia|constructor]. }
  intros [] [u2 s2] [Hinv2 _]. apply runs_zoom. simpl.
  pose proof Hinv2 as (Hld2 & Hlb2 & fc2 & fb2 & ps2 & ks2 & Hat2). pose proof (va_fs _ _ _ _ _ _ _ Hat2) as Hw2.
  eapply runs_mono; [apply (namefile_law _ _ _ (v, f) u2 Hw2); by apply held_plus, held_ref|..];
    intros ? [u3 w3] Hw3; (split; [done|]; split; [done|]; exists fc2, fb2, ps2, ks2; simpl; by destruct Hat2).
Qed.

Lemma getcwd_step a bs u s : vfs_inv false false a bs s -> few 1 a -> uio_good u s -> uio_rw u = UIO_READ ->
  runs vfs_getcwd (u, s) (fun _ x => vfs_inv false false a bs x.2) (fun _ x => vfs_inv false false a bs x.2).
Proof.
  intros Hinv Hn Hu Hrw. pose proof Hinv as (Hld & Hlb & fc & fb & ps & ks & Hat). unfold vfs_getcwd.
  do 2 step. simpl. rewrite Hrw. do 2 step; [done|]. apply runs_bind, runs_on_snd. simpl.
  pose proof (getcurdir_spec _ _ _ _ _ _ _ _ _ Hat Hld Hlb Hn) as Hr.
  destruct (runs_elim _ _ _ _ Hr) as [(v & s1 & E & Hv & _ & Hfc & Hinv1)|(e & s1 & E & _ & _ & Hinv1)].
  - eapply runs_intro_ret; [exact E|]. simpl. assert (uio_good u s1) as Hu1.
    { destruct Hu as [Hok Hl]. split; [|done]. by rewrite (getcurdir_thread _ _ _ E). }
    do 2 step. eapply runs_mono; [by apply getcwd_name_step|..].
    + intros [] [u2 s2] Hinv2. apply runs_bind, runs_on_snd. simpl in *.
      eapply runs_mono; [by apply (decref_step (v, fc))| |done]. intros [] s3 Hs3. by run.
    + intros e [u2 s2] Hinv2. apply runs_bind, runs_on_snd. simpl in *.
      eapply runs_mono; [by apply (decref_step (v, fc))| |done]. intros [] s3 Hs3. by run.
  - unfold runs. by rewrite E.
Qed.

(** *** vfs_readlink *)

Lemma readlink_step a bs u s path : vfs_inv false false a bs s -> is_cstr path -> few 4 a ->
  runs (vfs_readlink path) (u, s) (fun _ x => vfs_inv false false a bs x.2) (fun _ x => vfs_inv false false a bs x.2).
Proof.
  intros Hinv Hp Hn. unfold vfs_readlink. apply runs_bind, runs_on_snd.
  eapply runs_mono; [by apply (lookup_step a bs s path)| |done]. intros v s1 (Hv & f & Hinv1). simpl.
  pose proof Hinv1 as (Hld & Hlb & fc & fb & ps & ks & Hat). pose proof (va_fs _ _ _ _ _ _ _ Hat) as Hw.
  do 2 step. apply runs_zoom. simpl.
  eapply runs_mono; [apply (readlink_law _ _ _ (v, f) u Hw); by apply held_plus, held_ref|..];
    intros r [u2 w2] Hw2; (assert (vfs_inv false false (add_ref (v, f) a) bs (with_world w2 s1)) as Hinv2 by
      (split; [done|]; split; [done|]; exists fc, fb, ps, ks; by destruct Hat)); simpl; apply runs_bind, runs_on_snd; simpl;
    (eapply runs_mono; [by apply (decref_step (v, f))| |done]); intros [] s3 Hs3; destruct r; by run.
Qed.

End cwd.
