(* ===== verification/VfsBoot.v ===== *)
(** The boot file system: vfs_setbootfs and vfs_clearbootfs of
    kern/fs/vfs/vfslookup.c. *)

From Stdlib Require Import ZArith Lia.
From stdpp Require Import prelude gmap gmultiset list.
From S2P Require Import Prelude Str Printf Heap Array SynchObj Vnode Pages Copy Uio VfsOps Vfs VfsInv VfsSafe.

Section boot.
Context {U W : Type} `{!UserMem U} `{VopsLaws U W}.
Implicit Types (s : vfs W) (a : account) (bs : list (Z * Z)).

(** What [tmp] holds: the name, cut to the 254 characters [snprintf] has room for. *)
Definition boot_name (n : list Z) : list Z := take 254 n.

Lemma setbootfs_tmp x n : is_str x n -> Z.of_nat (length n) < 2 ^ 31 -> exists tmp,
  snprintf NAME_MAX [37; 115; 0] [AStr (Some x)] (replicate (Z.to_nat (NAME_MAX + 1)) 0) =
    (Ret (Z.of_nat (length n)), tmp) /\ is_str tmp (boot_name n) /\ length tmp = 256%nat.
Proof.
  intros Hx Hl. eexists. split; [apply (snprintf_string x n); [done|done|by vm_compute]|].
  change (Z.to_nat NAME_MAX - 1)%nat with 254%nat. fold (boot_name n).
  split.
  - split; [|by eexists]. unfold boot_name. apply Forall_take, Hx.
  - change (Z.to_nat (NAME_MAX + 1)) with 256%nat. rewrite length_app, length_cons, length_drop, length_replicate.
    unfold boot_name. rewrite length_take. lia.
Qed.

(** With a colon in the name there is nothing to do but refuse. *)
Lemma setbootfs_colon x n s : is_str x n -> Z.of_nat (length n) < 2 ^ 31 -> 58 ∈ boot_name n ->
  vfs_setbootfs x s = (Err EINVAL, s).
Proof.
  intros Hx Hl Hc. destruct (setbootfs_tmp x n Hx Hl) as (tmp & E & Ht & _). unfold vfs_setbootfs. rewrite E.
  unfold bind, ret at 1, defined. pose proof Ht as [Hb [rest ->]].
  destruct (strchr_spec _ _ 58 Ht) as [(i & c & -> & Hi & Hch & Hil & _)|(_ & _ & Hno)]; [|by destruct (Hno 58 Hc)].
  unfold ret. rewrite Nat2Z.id.
  assert (i < length (boot_name n))%nat as Hlt.
  { destruct (decide (i = length (boot_name n))) as [->|]; [|lia]. rewrite list_lookup_middle in Hi by done. by simplify_eq. }
  assert (is_str (drop i (boot_name n ++ 0 :: rest)) (drop i (boot_name n))) as Hd.
  { rewrite <- (take_drop i (boot_name n)) in Ht at 2. apply is_str_drop in Ht.
    by rewrite length_take_le in Ht by lia. }
  rewrite (strlen_spec _ _ Hd), length_drop. destruct (Z.gtb_spec (Z.of_nat (length (boot_name n) - i)) 0); [done|lia].
Qed.

(** Without one, the current directory moves to the file system's root and becomes
    the boot file system. *)
Lemma setbootfs_plain x n s : is_str x n -> Z.of_nat (length n) < 2 ^ 31 -> 58 ∉ boot_name n -> exists tmp,
  is_str tmp (boot_name n ++ [58]) /\
  vfs_setbootfs x s = (vfs_chdir tmp ;;; newguy <- vfs_getcurdir ;; change_bootfs newguy) s.
Proof.
  intros Hx Hl Hc. destruct (setbootfs_tmp x n Hx Hl) as (tmp & E & Ht & Hlen).
  assert (is_str [58; 0] [58]) as Hcolon by (split; [by repeat constructor|by exists []]).
  exists (boot_name n ++ [58] ++ 0 :: drop (S (length (boot_name n) + length [58])) tmp). split.
  - rewrite app_assoc. split; [|by eexists]. apply Forall_app. split; [apply Ht|by repeat constructor].
  - unfold vfs_setbootfs. rewrite E. unfold bind at 1, ret at 1. unfold bind at 1.
    destruct (strchr_spec _ _ 58 Ht) as [(i & c & _ & Hi & Hch & Hil & _)|(-> & _ & _)].
    + exfalso. destruct Ht as [Hb [rest ->]].
      destruct (decide (i = length (boot_name n))) as [->|]; [rewrite list_lookup_middle in Hi by done; by simplify_eq|].
      rewrite lookup_app_l in Hi by lia. assert (0 < c < 256) by (by eapply (Forall_lookup_1 _ _ _ _ Hb)).
      apply Hc. assert (c = 58) as <- by (apply char_inj; [lia|lia|by rewrite Hch]). by eapply list_elem_of_lookup_2.
    + unfold defined at 1. unfold ret at 1. unfold bind at 1.
      rewrite (strcat_spec tmp [58; 0] (boot_name n) [58] Ht Hcolon); [done|].
      rewrite Hlen. unfold boot_name. rewrite length_take. change (length [58]) with 1%nat. lia.
Qed.

Lemma setbootfs_step a bs s x n : vfs_inv false false a bs s -> is_str x n -> Z.of_nat (length n) < 2 ^ 31 -> few 4 a ->
  runs (vfs_setbootfs x) s (fun _ s' => vfs_inv false false a bs s') (fun _ s' => vfs_inv false false a bs s').
Proof.
  intros Hinv Hx Hl Hn. destruct (decide (58 ∈ boot_name n)) as [Hc|Hc].
  - unfold runs. by rewrite (setbootfs_colon x n).
  - destruct (setbootfs_plain x n s Hx Hl Hc) as (tmp & Ht & E). eapply runs_eq; [exact E|].
    apply runs_bind. eapply runs_mono; [apply (chdir_step a bs); [done|by eexists|done]| |done]. intros [] s1 Hinv1.
    apply runs_bind. eapply runs_mono; [apply (getcurdir_step 1 false false a bs); [done|by eapply few_le|lia]| |done].
    intros v s2 (Hv & f & _ & Hinv2).
    eapply runs_mono; [apply (change_bootfs_step false a bs s2 v f)|done|done].
    unfold give_back. by zbool.
Qed.

Lemma clearbootfs_step a bs s : vfs_inv false false a bs s ->
  runs vfs_clearbootfs s (fun _ s' => vfs_inv false false a bs s') (fun _ _ => False).
Proof. intros Hinv. by apply (change_bootfs_step false a bs s 0 0). Qed.

End boot.
