(* ===== verification/VfsCalls.v ===== *)
(** The VFS layer as its clients see it: any sequence of calls is safe, paths mean
    what they say, and device names stay unique. *)

From Stdlib Require Import ZArith Lia.
From stdpp Require Import prelude gmap gmultiset list.
From S2P Require Import Prelude Str Heap Array SynchObj Vnode Pages Copy Uio VfsOps Vfs VfsInv VfsSafe VfsTable VfsAdd VfsCwd VfsBoot.

(** ** Calls *)

(** The calls of kern/include/vfs.h that clients make; [r] is a reference they hold. *)
Inductive vcall (W : Type) :=
  | COpen (path : list Z) (flags : Z) | CClose (r : ref) | CLookup (path : list Z) | CLookparent (path : list Z)
  | CRelease (r : ref)
  | CRemove (path : list Z) | CRename (p1 p2 : list Z) | CLink (p1 p2 : list Z) | CSymlink (contents path : list Z)
  | CReadlink (path : list Z) (u : uio) | CMkdir (path : list Z) | CRmdir (path : list Z)
  | CChdir (path : list Z) | CSetcurdir (r : ref) | CGetcurdir | CClearcurdir | CGetcwd (u : uio)
  | CSync | CGetroot (name : list Z) | CMount (name : list Z) (mountfunc : Z -> M W Z) | CUnmount (name : list Z) | CUnmountall
  | CSetbootfs (name : list Z) | CClearbootfs.
Arguments COpen {W}.
Arguments CClose {W}.
Arguments CLookup {W}.
Arguments CLookparent {W}.
Arguments CRelease {W}.
Arguments CRemove {W}.
Arguments CRename {W}.
Arguments CLink {W}.
Arguments CSymlink {W}.
Arguments CReadlink {W}.
Arguments CMkdir {W}.
Arguments CRmdir {W}.
Arguments CChdir {W}.
Arguments CSetcurdir {W}.
Arguments CGetcurdir {W}.
Arguments CClearcurdir {W}.
Arguments CGetcwd {W}.
Arguments CSync {W}.
Arguments CGetroot {W}.
Arguments CMount {W}.
Arguments CUnmount {W}.
Arguments CUnmountall {W}.
Arguments CSetbootfs {W}.
Arguments CClearbootfs {W}.

Section calls.
Context {U W : Type} `{!UserMem U} `{!UserMemLaws U} `{VopsLaws U W}.
Implicit Types (s : vfs W) (a : account) (bs : list (Z * Z)) (c : vcall W).

Definition no_vnode (m : M (vfs W) unit) : M (vfs W) Z := m ;;; ret 0.

(** Run with a uio of the caller's. *)
Definition with_uio {A} (u : uio) (m : M (uio * vfs W) A) : M (vfs W) A := fun s => let '(r, x) := m (u, s) in (r, x.2).

(** The call, and the vnode it returns, if any. *)
Definition do_call c : M (vfs W) Z :=
  match c with
  | COpen path flags => vfs_open path flags
  | CClose r => no_vnode (vfs_close r.1)
  | CLookup path => vfs_lookup path
  | CLookparent path => '(v, _) <- vfs_lookparent path namelen ;; ret v
  | CRelease r => no_vnode (on_world (VOP_DECREF r.1))
  | CRemove path => no_vnode (vfs_remove path)
  | CRename p1 p2 => no_vnode (vfs_rename p1 p2)
  | CLink p1 p2 => no_vnode (vfs_link p1 p2)
  | CSymlink contents path => no_vnode (vfs_symlink contents path)
  | CReadlink path u => no_vnode (with_uio u (vfs_readlink path))
  | CMkdir path => no_vnode (vfs_mkdir path)
  | CRmdir path => no_vnode (vfs_rmdir path)
  | CChdir path => no_vnode (vfs_chdir path)
  | CSetcurdir r => no_vnode (vfs_setcurdir r.1)
  | CGetcurdir => vfs_getcurdir
  | CClearcurdir => no_vnode vfs_clearcurdir
  | CGetcwd u => no_vnode (with_uio u vfs_getcwd)
  | CSync => no_vnode vfs_sync
  | CGetroot name => vfs_getroot name
  | CMount name mountfunc => no_vnode (vfs_mount name mountfunc)
  | CUnmount name => no_vnode (vfs_unmount name)
  | CUnmountall => no_vnode vfs_unmountall
  | CSetbootfs name => no_vnode (vfs_setbootfs name)
  | CClearbootfs => no_vnode vfs_clearbootfs
  end.

(** What the caller has to see to: strings are terminated, references are held,
    buffers are in order, a mount routine mounts. *)
Definition legal c a s : Prop :=
  few 5 a /\
  match c with
  | COpen path _ | CLookup path | CLookparent path | CRemove path | CReadlink path _ | CMkdir path | CRmdir path | CChdir path
    | CGetroot path | CUnmount path => is_cstr path
  | CRename p1 p2 | CLink p1 p2 | CSymlink p1 p2 => is_cstr p1 /\ is_cstr p2
  | CClose r => r ∈ hs a
  | CRelease r | CSetcurdir r => r ∈ rs a
  | CGetcwd u => uio_good u s /\ uio_rw u = UIO_READ
  | CMount name mountfunc => is_cstr name /\ forall d X B w, fsw (plus a X) B w -> mounts (mountfunc d) (plus a X) B w
  | CSetbootfs name => exists n, is_str name n /\ Z.of_nat (length n) < 2 ^ 31
  | CGetcurdir | CClearcurdir | CSync | CUnmountall | CClearbootfs => True
  end.

Definition drop_ref (r : ref) a : account := mk_account (rs a ∖ {[+ r +]}) (hs a) (ms a).
Definition drop_handle (r : ref) a : account := mk_account (rs a) (hs a ∖ {[+ r +]}) (ms a).

(** The caller's references and the mounted file systems after a call that
    returned [v]. *)
Definition after c (v : Z) a a' : Prop :=
  match c with
  | COpen _ _ => exists f, a' = add_handle (v, f) a
  | CClose r => a' = drop_handle r a
  | CLookup _ | CLookparent _ | CGetcurdir | CGetroot _ => exists f, a' = add_ref (v, f) a
  | CRelease r => a' = drop_ref r a
  | CMount _ _ => exists f, a' = mount_fs f a
  | CUnmount _ => exists f, a' = unmount_fs f a
  | CUnmountall => exists m, a' = with_ms m a
  | _ => a' = a
  end.

(** [n] legal calls: every one returns, a value or an error, to a state in which
    all references are accounted for. *)
Fixpoint safe (n : nat) a bs s : Prop :=
  vfs_inv false false a bs s /\
  match n with
  | O => True
  | S n => forall c, legal c a s ->
      runs (do_call c) s (fun v s' => exists a', after c v a a' /\ safe n a' bs s') (fun _ s' => safe n a bs s')
  end.

(** ** Proofs *)

Lemma drop_ref_add r a : r ∈ rs a -> add_ref r (drop_ref r a) = a.
Proof. intros Hr. destruct a. unfold add_ref, drop_ref. simpl in *. f_equal. multiset_solver. Qed.

Lemma drop_handle_add r a : r ∈ hs a -> add_handle r (drop_handle r a) = a.
Proof. intros Hr. destruct a. unfold add_handle, drop_handle. simpl in *. f_equal. multiset_solver. Qed.

Definition call_ok c a bs s : Prop :=
  runs (do_call c) s (fun v s' => exists a', after c v a a' /\ vfs_inv false false a' bs s') (fun _ s' => vfs_inv false false a bs s').

Lemma nov_ok (m : M (vfs W) unit) c a bs s (F : vfs W -> Prop) : do_call c = no_vnode m ->
  runs m s (fun _ s' => exists a', after c 0 a a' /\ vfs_inv false false a' bs s') (fun _ s' => F s') ->
  (forall s', F s' -> vfs_inv false false a bs s') -> call_ok c a bs s.
Proof.
  intros E Hm HF. unfold call_ok. rewrite E. unfold no_vnode. apply runs_bind. eapply runs_mono; [exact Hm| |by auto].
  intros [] s' Hs'. by run.
Qed.

Lemma keep_ok (m : M (vfs W) unit) c a bs s : do_call c = no_vnode m -> (forall v, after c v a a) ->
  runs m s (fun _ s' => vfs_inv false false a bs s') (fun _ s' => vfs_inv false false a bs s') -> call_ok c a bs s.
Proof.
  intros E Ha Hm. eapply (nov_ok m _ _ _ _ (vfs_inv false false a bs)); [done| |done].
  eapply runs_mono; [exact Hm| |done]. intros [] s' ?. by exists a.
Qed.

Lemma uio_runs {A} u (m : M (uio * vfs W) A) s (Q : A -> vfs W -> Prop) (E : Z -> vfs W -> Prop) :
  runs m (u, s) (fun v x => Q v x.2) (fun e x => E e x.2) -> runs (with_uio u m) s Q E.
Proof. unfold runs, with_uio. by destruct (m (u, s)) as [[] x]. Qed.

Lemma sure_ok (m : M (vfs W) unit) s (Q R : vfs W -> Prop) :
  runs m s (fun _ s' => Q s') (fun _ _ => False) -> runs m s (fun _ s' => Q s') (fun _ s' => R s').
Proof. intros Hm. by eapply runs_mono; [exact Hm|..]. Qed.

(** A call that gives a reference. *)
Lemma ref_ok c a bs s (m : M (vfs W) Z) : do_call c = m -> (forall v f, after c v a (add_ref (v, f) a)) ->
  runs m s (fun v s' => v <> 0 /\ exists f, vfs_inv false false (add_ref (v, f) a) bs s') (fun _ s' => vfs_inv false false a bs s') ->
  call_ok c a bs s.
Proof.
  intros E Ha Hm. unfold call_ok. rewrite E. eapply runs_mono; [exact Hm| |done]. intros v s' (_ & f & Hs').
  by exists (add_ref (v, f) a).
Qed.

Lemma path_call c a bs s : vfs_inv false false a bs s -> few 5 a ->
  match c with
  | COpen path _ | CLookup path | CLookparent path | CRemove path | CReadlink path _ | CMkdir path | CRmdir path | CChdir path
    | CGetroot path => is_cstr path
  | CRename p1 p2 | CLink p1 p2 | CSymlink p1 p2 => is_cstr p1 /\ is_cstr p2
  | _ => False
  end -> call_ok c a bs s.
Proof.
  intros Hinv Hn Hc. assert (few 4 a) as Hn4 by (eapply few_le; [done|lia]).
  destruct c as [path flags| |path|path| |path|p1 p2|p1 p2|contents path|path u|path|path|path| | | | | |name| | | | |]; try done.
  - unfold call_ok. simpl. eapply runs_mono; [by apply (open_step a bs s path flags)| |done]. intros v s' [f Hs'].
    exists (add_handle (v, f) a). split; [by exists f|done].
  - eapply ref_ok; [done| |by apply lookup_step]. by eexists.
  - eapply ref_ok; [done|by eexists|]. apply runs_bind. eapply runs_mono; [by apply lookparent_step| |done].
    intros [v name] s' (Hv & _ & f & Hs'). run. split; [done|]. by exists f.
  - eapply keep_ok; [done|done|]. apply (name_op_step a bs s path VOP_REMOVE); try done. intros. by apply remove_law.
  - destruct Hc. eapply keep_ok; [done|done|]. by apply rename_step.
  - destruct Hc. eapply keep_ok; [done|done|]. by apply link_step.
  - destruct Hc. eapply keep_ok; [done|done|].
    apply (name_op_step a bs s path (fun d n => VOP_SYMLINK d n contents)); try done. intros. by apply symlink_law.
  - eapply keep_ok; [done|done|]. by apply uio_runs, readlink_step.
  - eapply keep_ok; [done|done|]. apply (name_op_step a bs s path VOP_MKDIR); try done. intros. by apply mkdir_law.
  - eapply keep_ok; [done|done|]. apply (name_op_step a bs s path VOP_RMDIR); try done. intros. by apply rmdir_law.
  - eapply keep_ok; [done|done|]. by apply chdir_step.
  - eapply ref_ok; [done|by eexists|]. apply (getroot_step false); try done. by eapply few_le.
Qed.

Lemma table_call c a bs s : vfs_inv false false a bs s -> few 5 a ->
  match c with
  | CSync | CUnmountall => True
  | CUnmount name => is_cstr name
  | CMount name mountfunc => is_cstr name /\ forall d X B w, fsw (plus a X) B w -> mounts (mountfunc d) (plus a X) B w
  | _ => False
  end -> call_ok c a bs s.
Proof.
  intros Hinv Hn Hc. destruct c as [| | | | | | | | | | | | | | | | | | |name mf|name| | |]; try done.
  - eapply keep_ok; [done|done|]. by apply sure_ok, sync_step.
  - destruct Hc. eapply (nov_ok _ _ _ _ _ (vfs_inv false false a bs)); [done| |done].
    eapply runs_mono; [by apply (mount_step false a bs s name mf)| |done]. intros [] s' [f Hs'].
    exists (mount_fs f a). split; [by exists f|done].
  - eapply (nov_ok _ _ _ _ _ (vfs_inv false false a bs)); [done| |done].
    eapply runs_mono; [by apply (unmount_step false a bs s name)| |done]. intros [] s' [f Hs'].
    exists (unmount_fs f a). split; [by exists f|done].
  - eapply (nov_ok _ _ _ _ _ (vfs_inv false false a bs)); [done| |done].
    eapply runs_mono; [apply (unmountall_step false a bs s); exists (ms a); by destruct a| |done].
    intros [] s' [m Hs']. exists (with_ms m a). split; [by exists m|done].
Qed.

Lemma ref_call c a bs s : vfs_inv false false a bs s -> few 5 a ->
  match c with
  | CClose r => r ∈ hs a
  | CRelease r | CSetcurdir r => r ∈ rs a
  | CGetcwd u => uio_good u s /\ uio_rw u = UIO_READ
  | CSetbootfs name => exists n, is_str name n /\ Z.of_nat (length n) < 2 ^ 31
  | CGetcurdir | CClearcurdir | CClearbootfs => True
  | _ => False
  end -> call_ok c a bs s.
Proof.
  intros Hinv Hn Hc. assert (few 4 a) as Hn4 by (eapply few_le; [done|lia]). assert (few 1 a) as Hn1 by (eapply few_le; [done|lia]).
  destruct c as [|r| | |r| | | | | | | | |r| | |u| | | | | |name|]; try done.
  - eapply (nov_ok _ _ _ _ _ (fun _ => False)); [done| |done]. rewrite <- (drop_handle_add r a Hc) in Hinv.
    eapply runs_mono; [by apply close_step| |done]. intros [] s' ?. by exists (drop_handle r a).
  - eapply (nov_ok _ _ _ _ _ (fun _ => False)); [done| |done]. rewrite <- (drop_ref_add r a Hc) in Hinv.
    eapply runs_mono; [by apply (decref_step r)| |done]. intros [] s' ?. by exists (drop_ref r a).
  - assert (r ∈ held a) as Hr by (unfold held; multiset_solver).
    pose proof Hinv as (_ & _ & fc & fb & ps & ks & Hat).
    destruct (fs_mounted _ _ _ r (va_fs _ _ _ _ _ _ _ Hat)) as [Hnz _]; [by apply held_plus|].
    eapply keep_ok; [done|done|]. by apply (setcurdir_step a bs s r 5).
  - eapply ref_ok; [done|by eexists|]. eapply runs_mono; [by apply (getcurdir_step 5 false false a bs)| |done].
    intros v s' (? & f & _ & ?). split; [done|]. by exists f.
  - eapply keep_ok; [done|done|]. by apply sure_ok, clearcurdir_step.
  - destruct Hc. eapply keep_ok; [done|done|]. by apply uio_runs, getcwd_step.
  - destruct Hc as (n & Hx & Hl). eapply keep_ok; [done|done|]. by eapply setbootfs_step.
  - eapply keep_ok; [done|done|]. by apply sure_ok, clearbootfs_step.
Qed.

Lemma vfs_call_step c a bs s : vfs_inv false false a bs s -> legal c a s -> call_ok c a bs s.
Proof.
  intros Hinv [Hn Hc]. destruct c; (by apply path_call) || (by apply table_call) || (by apply ref_call).
Qed.


(** ** The device table *)

(** The entries of the table. *)
Definition devices s : list knowndev := omap (fun o => p ← o; kds s !! p) (contents (knowndevs s)).

Lemma devices_at a bs s fc fb ps ks : vfs_at a bs s fc fb ps ks -> devices s = ks.
Proof.
  intros [_ _ Hc _ [Hd _ _ _] _]. unfold devices. rewrite Hc. clear -Hd. induction Hd as [|p k ps ks Hp Hd IH]; [done|].
  simpl. rewrite Hp. f_equal. exact IH.
Qed.


(** The names of the new entry are taken. *)
Definition taken (n : list Z) (mountable : bool) s : Prop :=
  exists kd x, kd ∈ devices s /\ x ∈ dev_names (v_world s) kd /\ (x = n \/ (mountable = true /\ x = n ++ raw_chars)).

Lemma entry_names (w : W) k n mountable dev x : entry_for k n mountable dev ->
  x ∈ dev_names w k <-> x = n \/ (mountable = true /\ x = n ++ raw_chars).
Proof.
  intros (H1 & H2 & _ & H4). unfold dev_names, dev_vol. rewrite H1, H2, H4. destruct mountable; simpl; set_solver.
Qed.

Lemma clash_taken s k n mountable dev : entry_for k n mountable dev ->
  clash (v_world s) k (devices s) = true <-> taken n mountable s.
Proof.
  intros He. rewrite clash_spec. unfold taken. setoid_rewrite (entry_names (v_world s) k n mountable dev _ He). naive_solver.
Qed.

(** C14: [vfs_adddev] adds one entry at the end of the table, and only if neither
    its name nor its raw name is a name an entry goes by already; names stay
    unique.  When a name is taken it answers EEXIST and when memory runs out ENOMEM,
    with the table as it was; but past the allocations it frees nothing, so that the
    entry, its names and its vnode are lost. *)
Theorem vfs_adddev_correct a bs s x n dev mountable :
  vfs_inv false false a bs s -> names_unique (v_world s) (devices s) ->
  is_str x n -> Z.of_nat (length n) < 2 ^ 30 -> fs_device (v_world s) dev -> few 1 a -> Z.of_nat (length (devices s)) + 1 < 2 ^ 27 ->
  no_panic (vfs_adddev x dev mountable) s ->
  runs (vfs_adddev x dev mountable) s
    (fun _ s' => ~ taken n mountable s /\ vfs_inv false false a bs s' /\ names_unique (v_world s') (devices s') /\
       exists k, devices s' = devices s ++ [k] /\ entry_for k n mountable dev)
    (fun e s' => devices s' = devices s /\ names_unique (v_world s') (devices s') /\
       ((e = ENOMEM /\ vfs_inv false false a bs s') \/
        exists v lost, vfs_inv false false (add_ref (v, 0) a) (lost ++ bs) s' /\
          length lost = (if mountable then 3 else 2)%nat /\
          ((e = EEXIST /\ taken n mountable s) \/ (e = ENOMEM /\ ~ taken n mountable s)))).
Proof.
  intros (Hld & Hlb & fc & fb & ps & ks & Hat) Hu Hx Hxl Hd Hn Hl Hp. pose proof (devices_at _ _ _ _ _ _ _ Hat) as Ed.
  destruct (vfs_num _ _ _ _ _ _ _ Hat) as (_ & Hlen & _).
  eapply runs_mono; [eapply (doadd_at a bs s fc fb ps ks x n mountable dev Hat); try done; rewrite Hlen, <- Ed; done|..].
  - intros [] s' [(E1 & E2 & E3 & E4 & E5) (p & k & Hat' & He & Hc)]. rewrite (devices_at _ _ _ _ _ _ _ Hat').
    rewrite <- Ed in Hc. split; [rewrite <- (clash_taken _ _ _ _ _ He); congruence|].
    split; [by eapply inv_at; [|rewrite E1|rewrite E2]|].
    split; [|rewrite Ed; eauto]. eapply names_unique_eq; [exact E5|]. rewrite <- Ed. by apply names_unique_snoc.
  - intros e s' [(E1 & E2 & E3 & E4 & E5) Hor]. destruct Hor as [(-> & Hat')|(p & k & He & Hat' & Hc)];
      rewrite (devices_at _ _ _ _ _ _ _ Hat'), Ed.
    + split; [done|]. split; [eapply names_unique_eq; [exact E5|by rewrite <- Ed]|]. left. split; [done|].
      by eapply inv_at; [|rewrite E1|rewrite E2].
    + split; [done|]. split; [eapply names_unique_eq; [exact E5|by rewrite <- Ed]|]. right.
      exists (kd_vnode k), (kd_blocks p k). split; [by eapply inv_at; [|rewrite E1|rewrite E2]|].
      split. { destruct He as (_ & Hr & _). unfold dev_raw in Hr. unfold kd_blocks. by destruct (kd_rawname k), mountable. }
      rewrite <- Ed in Hc. rewrite <- (clash_taken _ _ _ _ _ He). destruct (clash _ _ _); [by left|right; by split].
Qed.


End calls.
