(* ===== verification/Dev.v ===== *)
(** Devices as vnodes: kern/fs/vfs/device.c, kern/fs/vfs/devnull.c, and the start
    of the VFS layer.

    [dworld] is a system whose only vnodes are those of devices.  It implements the
    interface of VfsOps.v, so that what VfsCalls.v proves of the VFS layer holds of
    it, from [vfs_bootstrap] on. *)

From Stdlib Require Import ZArith Lia.
From stdpp Require Import prelude gmap gmultiset list.
From S2P Require Import Prelude Str Heap Array SynchObj Vnode Pages Copy Uio Device VfsOps Vfs VfsInv VfsSafe VfsTable VfsAdd VfsCwd VfsBoot VfsCalls.

(** ** Devices *)

(** [struct device] of kern/include/dev.h: what [BlockDev] does not have.  An ioctl
    gets the operation and the user's pointer. *)
Class CharDev (U D : Type) `{!BlockDev U D} := {
  d_open : Z -> M D unit;
  d_close : M D unit;
  d_ioctl : Z -> Z -> M (uthread U * D) Z;
}.

(** The functions a device provides return. *)
Class CharDevLaws (U D : Type) `{CharDev U D} := {
  char_ok : D -> Prop;
  d_open_ok : forall flags d, char_ok d -> runs (d_open flags) d (fun _ d' => char_ok d') (fun _ d' => char_ok d');
  d_close_ok : forall d, char_ok d -> runs d_close d (fun _ d' => char_ok d') (fun _ d' => char_ok d');
}.

(** The null device, or a device of another kind. *)
Inductive device (D : Type) := NullDev | OtherDev (d : D).
Arguments NullDev {D}.
Arguments OtherDev {D}.

Section null.
Context {U D : Type} `{!BlockDev U D} `{!CharDev U D}.

Definition nullopen (openflags : Z) : M (device D) unit := ret tt.
Definition nullclose : M (device D) unit := ret tt.

(** Everything written is gone; a read meets the end of the file at once. *)
Definition nullio : M (uio * (uthread U * device D)) unit :=
  u <- gets fst ;;
  match uio_rw u with
  | UIO_WRITE =>
      on_fst (put (mk_uio (iov_base u) (iov_len u) (uio_offset u) 0 (uio_segflg u) (uio_rw u) (uio_space u) (kbuf u)))
  | UIO_READ => ret tt
  end.

Definition nullioctl (op data : Z) : M (uthread U * device D) Z := fail EINVAL.

#[export] Instance device_block : BlockDev U (device D) := {|
  d_blocks dev := match dev with NullDev => 0 | OtherDev d => d_blocks d end;
  d_blocksize dev := match dev with NullDev => 1 | OtherDev d => d_blocksize d end;
  d_io := fun x => match x.2.2 with
    | NullDev => nullio x
    | OtherDev d => let '(r, (u, (t, d'))) := d_io (x.1, (x.2.1, d)) in (r, (u, (t, OtherDev d')))
    end;
|}.

#[export] Instance device_char : CharDev U (device D) := {|
  d_open flags := fun dev => match dev with
    | NullDev => nullopen flags dev
    | OtherDev d => let '(r, d') := d_open flags d in (r, OtherDev d')
    end;
  d_close := fun dev => match dev with
    | NullDev => nullclose dev
    | OtherDev d => let '(r, d') := d_close d in (r, OtherDev d')
    end;
  d_ioctl op data := fun x => match x.2 with
    | NullDev => nullioctl op data x
    | OtherDev d => let '(r, (t, d')) := d_ioctl op data (x.1, d) in (r, (t, OtherDev d'))
    end;
|}.

#[export] Instance device_laws `{!CharDevLaws U D} : CharDevLaws U (device D).
Proof.
  refine {| char_ok dev := match dev with NullDev => True | OtherDev d => char_ok d end |}.
  - intros flags [|d] Hd; [done|]. pose proof (d_open_ok flags d Hd) as Hr. unfold runs in *. simpl.
    by destruct (d_open flags d) as [[] d'].
  - intros [|d] Hd; [done|]. pose proof (d_close_ok d Hd) as Hr. unfold runs in *. simpl. by destruct (d_close d) as [[] d'].
Defined.

End null.

(** ** The world *)

Inductive dev_ops := dev_vnode_ops.

(** The devices and vnodes by address, the heap, and the current thread. *)
Record dworld (U D H : Type) := mk_dworld {
  dw_heap : H;
  dw_vnodes : gmap Z (vnode dev_ops);
  dw_devs : gmap Z D;
  dw_thread : uthread U;
}.
Arguments mk_dworld {U D H}.
Arguments dw_heap {U D H}.
Arguments dw_vnodes {U D H}.
Arguments dw_devs {U D H}.
Arguments dw_thread {U D H}.

Section dev_ops.
Context {U D H : Type} `{!BlockDev U D} `{!CharDev U D} `{!Heap H}.
#[local] Abbreviation W := (dworld U D H).

Definition with_heap (h : H) (w : W) : W := mk_dworld h (dw_vnodes w) (dw_devs w) (dw_thread w).
Definition with_vnode (v : Z) (vn : vnode dev_ops) (w : W) : W :=
  mk_dworld (dw_heap w) (<[v := vn]> (dw_vnodes w)) (dw_devs w) (dw_thread w).
Definition with_dev (p : Z) (d : D) (w : W) : W := mk_dworld (dw_heap w) (dw_vnodes w) (<[p := d]> (dw_devs w)) (dw_thread w).
Definition with_uthread (t : uthread U) (w : W) : W := mk_dworld (dw_heap w) (dw_vnodes w) (dw_devs w) t.

Definition on_heap {A} (m : M H A) : M W A := zoom dw_heap with_heap m.

#[export] Instance dev_heap : Heap W := {| kmalloc sz := on_heap (kmalloc sz); kfree p := on_heap (kfree p) |}.

Definition on_vnode (v : Z) {A} (m : M (vnode dev_ops) A) : M W A := fun w =>
  match dw_vnodes w !! v with
  | None => (Panic, w)
  | Some vn => let '(r, vn') := m vn in (r, with_vnode v vn' w)
  end.

(** On the device [v->vn_data]. *)
Definition on_dev (v : Z) {A} (m : M D A) : M W A :=
  p <- on_vnode v (gets vn_data) ;;
  fun w => match dw_devs w !! p with
  | None => (Panic, w)
  | Some d => let '(r, d') := m d in (r, with_dev p d' w)
  end.

(** On the device and the thread's memory. *)
Definition on_dev_thread (v : Z) {A} (m : M (uthread U * D) A) : M W A :=
  p <- on_vnode v (gets vn_data) ;;
  fun w => match dw_devs w !! p with
  | None => (Panic, w)
  | Some d => let '(r, (t, d')) := m (dw_thread w, d) in (r, with_uthread t (with_dev p d' w))
  end.

(** ** device.c *)

Definition dev_open (v flags : Z) : M W unit :=
  if negb (Z.land flags (Z.lor (Z.lor (Z.lor O_CREAT O_TRUNC) O_EXCL) O_APPEND) =? 0) then fail EINVAL
  else on_dev v (d_open flags).

Definition dev_close (v : Z) : M W unit := on_dev v d_close.

Definition dev_reclaim (v : Z) : M W unit := ret tt.

(** [d->d_io(d, uio)] *)
Definition hand_io (v : Z) : M (uio * W) unit := fun x =>
  match on_vnode v (gets vn_data) x.2 with
  | (Ret p, w) =>
      match dw_devs w !! p with
      | None => (Panic, x)
      | Some d => let '(r, (u, (t, d'))) := d_io (x.1, (dw_thread w, d)) in (r, (u, with_uthread t (with_dev p d' w)))
      end
  | _ => (Panic, x)
  end.

Definition dev_read (v : Z) : M (uio * W) unit :=
  u <- gets fst ;;
  assert (bool_decide (uio_rw u = UIO_READ)) ;;;
  hand_io v.

Definition null_io (v : Z) : M (uio * W) unit := fail EINVAL.

Definition dev_write (v : Z) : M (uio * W) unit :=
  u <- gets fst ;;
  assert (bool_decide (uio_rw u = UIO_WRITE)) ;;;
  hand_io v.

Definition dev_ioctl (v op data : Z) : M W Z := on_dev_thread v (d_ioctl op data).

(** [__VOP(vn, sym)]: the check before every call. *)
Definition vop {A} (v : Z) (m : M W A) : M W A := on_vnode v (vnode_check false) ;;; m.

Definition dev_gettype (v : Z) : M W Z :=
  on_dev v (d <- get ;; ret (if d_blocks d >? 0 then S_IFBLK else S_IFCHR)).

Definition dev_stat (v : Z) : M W stat :=
  mode <- vop v (dev_gettype v) ;;
  on_dev v (d <- get ;;
    ret (mk_stat mode (if d_blocks d >? 0 then i32 (d_blocks d * d_blocksize d) else 0) 1 (d_blocks d))).

(** The position is converted to unsigned for the division. *)
Definition dev_tryseek (v pos : Z) : M W unit :=
  on_dev v
    (d <- get ;;
     if d_blocks d >? 0 then
       if negb (u32 pos mod d_blocksize d =? 0) then fail EINVAL
       else if pos <? 0 then fail EINVAL
       else if u32 pos / d_blocksize d >=? d_blocks d then fail EINVAL
       else ret tt
     else fail ESPIPE).

Definition null_fsync (v : Z) : M W unit := ret tt.

Definition dev_mmap (v : Z) : M W unit := fail EUNIMP.

Definition dev_truncate (v len : Z) : M W unit :=
  on_dev v
    (d <- get ;;
     if (d_blocks d >? 0) && (i32 (d_blocks d * d_blocksize d) =? len) then ret tt else fail EINVAL).

Definition dev_namefile (v : Z) : M (uio * W) unit := ret tt.

Definition null_creat (v : Z) (name : list Z) (excl : bool) : M W Z := fail ENOTDIR.
Definition null_symlink (v : Z) (contents name : list Z) : M W unit := fail ENOTDIR.
Definition null_nameop (v : Z) (name : list Z) : M W unit := fail ENOTDIR.
Definition null_link (v : Z) (name : list Z) (file : Z) : M W unit := fail ENOTDIR.
Definition null_rename (v : Z) (n1 : list Z) (v2 : Z) (n2 : list Z) : M W unit := fail ENOTDIR.

(** A path after "device:" is an error, none means the device. *)
Definition dev_lookup (dir : Z) (pathname : list Z) : M W Z :=
  n <- defined (strlen pathname) ;;
  if n >? 0 then fail ENOENT
  else on_vnode dir vnode_incref ;;; ret dir.

Definition dev_lookparent (dir : Z) (pathname : list Z) (buflen : Z) : M W (Z * list Z) := fail ENOTDIR.

(** A failing VOP_INIT is a panic. *)
Definition dev_create_vnode (dev : Z) : M W Z :=
  v <- kmalloc 24 ;;
  if v =? 0 then ret 0
  else
    r <- try (on_heap (vnode_init dev_vnode_ops 0 dev)) ;;
    match r with
    | inl _ => panic
    | inr vn => modify (with_vnode v vn) ;;; ret v
    end.

Definition vop_uio (v : Z) (m : M (uio * W) unit) : M (uio * W) unit := on_snd (on_vnode v (vnode_check false)) ;;; m.

(** The function table, behind the VOP_* macros.  There are no file systems: a
    [struct fs] pointer would be one to nothing. *)
#[export] Instance dev_vops : Vops U W := {|
  VOP_INCREF v := on_vnode v vnode_incref;
  VOP_DECREF v := vnode_decref (fun A => @on_vnode v A) (on_vnode v (vnode_check true) ;;; dev_reclaim v);
  VOP_INCOPEN v := on_vnode v vnode_incopen;
  VOP_DECOPEN v := vnode_decopen (fun A => @on_vnode v A) (vop v (dev_close v));
  VOP_OPEN v flags := vop v (dev_open v flags);
  VOP_READLINK v := vop_uio v (null_io v);
  VOP_GETTYPE v := vop v (dev_gettype v);
  VOP_TRUNCATE v len := vop v (dev_truncate v len);
  VOP_NAMEFILE v := vop_uio v (dev_namefile v);
  VOP_CREAT v name excl := vop v (null_creat v name excl);
  VOP_SYMLINK v name contents := vop v (null_symlink v name contents);
  VOP_MKDIR v name := vop v (null_nameop v name);
  VOP_LINK v name file := vop v (null_link v name file);
  VOP_REMOVE v name := vop v (null_nameop v name);
  VOP_RMDIR v name := vop v (null_nameop v name);
  VOP_RENAME v n1 v2 n2 := vop v (null_rename v n1 v2 n2);
  VOP_LOOKUP v path := vop v (dev_lookup v path);
  VOP_LOOKPARENT v path len := vop v (dev_lookparent v path len);
  VN_FS v := on_vnode v (gets vn_fs);
  FSOP_SYNC _ := panic;
  FSOP_GETVOLNAME _ := panic;
  FSOP_GETROOT _ := panic;
  FSOP_UNMOUNT _ := panic;
  VfsOps.dev_create_vnode := dev_create_vnode;
  w_thread := dw_thread;
  with_thread := with_uthread;
|}.

End dev_ops.

(** ** The laws *)

Definition vn_blocks (x : Z * lock) : list (Z * Z) := (x.1, 24) :: lock_blocks x.2 countlock_name.

(** The vnode of a reference: its counts are those of the account. *)
Record counted (a : account) (r : ref) (known : Z -> Prop) (vn : vnode dev_ops) (l : lock) : Prop := {
  ct_lock : vn_countlock vn = Some l;
  ct_free : lk_held l = false;
  ct_ref : vn_refcount vn = Z.of_nat (multiplicity r (held a));
  ct_open : vn_opencount vn = Z.of_nat (multiplicity r (hs a));
  ct_room : vn_refcount vn < 2 ^ 31 - 1;
  ct_fs : vn_fs vn = 0;
  ct_ops : vn_ops vn = Some dev_vnode_ops;
  ct_data : known (vn_data vn);
}.

Section dev_laws.
Context {U D H : Type} `{!BlockDev U D} `{!CharDev U D} `{!CharDevLaws U D} `{HeapLaws H}.
#[local] Abbreviation W := (dworld U D H).
Implicit Types (w : W) (a : account).

Definition known_dev w (p : Z) : Prop := p <> 0 /\ is_Some (dw_devs w !! p).

Record dev_ok_at a (vl : list (Z * lock)) w : Prop := {
  da_heap : heap_ok (dw_heap w);
  da_ms : ms a = ∅;
  da_devs : forall p d, dw_devs w !! p = Some d -> char_ok d;
  da_refs : forall r, r ∈ held a -> r.2 = 0 /\ r.1 <> 0 /\
    exists vn l, dw_vnodes w !! r.1 = Some vn /\ (r.1, l) ∈ vl /\ counted a r (known_dev w) vn l;
}.

#[export] Instance dev_model : VopsModel W := {|
  fs_ok a own w := exists vl junk, own ≡ₚ concat (vn_blocks <$> vl) ++ junk /\ dev_ok_at a vl w;
  fs_live w := live (dw_heap w);
  fs_volname _ _ := None;
  fs_device w p := known_dev w p;
|}.

Lemma counted_ok a r known vn l : counted a r known vn l -> r ∈ held a -> vnode_ok vn.
Proof.
  intros [] Hr. rewrite elem_of_multiplicity in Hr. split; [lia|]. split; [|split; [by exists l|by rewrite ct_ops0]].
  assert (multiplicity r (hs a) <= multiplicity r (held a))%nat by (unfold held; rewrite multiplicity_disj_union; lia). lia.
Qed.

Lemma counted_mono a r (known known' : Z -> Prop) vn l : (forall p, known p -> known' p) -> counted a r known vn l ->
  counted a r known' vn l.
Proof. intros Hk []. split; auto. Qed.

(** A state that differs in the heap, the thread or the state of a device. *)
Lemma dev_ok_other a vl w w' : dev_ok_at a vl w -> dw_vnodes w' = dw_vnodes w -> heap_ok (dw_heap w') ->
  (forall p d, dw_devs w' !! p = Some d -> char_ok d) -> (forall p, known_dev w p -> known_dev w' p) -> dev_ok_at a vl w'.
Proof.
  intros [] E Hh Hd Hk. split; try done. intros r Hr. destruct (da_refs0 r Hr) as (? & ? & vn & l & Hv & ? & Hc).
  split; [done|]. split; [done|]. exists vn, l. rewrite E. split; [done|]. split; [done|]. by eapply counted_mono.
Qed.

(** The counts of one vnode change. *)
Lemma dev_ok_count a a' vl w r vn l vn' : dev_ok_at a vl w -> r ∈ held a -> dw_vnodes w !! r.1 = Some vn -> (r.1, l) ∈ vl ->
  ms a' = ms a -> (forall r', r' <> r -> multiplicity r' (held a') = multiplicity r' (held a)) ->
  (forall r', r' <> r -> multiplicity r' (hs a') = multiplicity r' (hs a)) ->
  (r ∈ held a' -> counted a' r (known_dev w) vn' l) -> dev_ok_at a' vl (with_vnode r.1 vn' w).
Proof.
  intros [Hh Hm Hd Hrs] Hr Hv Hl Em E1 E2 Hc. split; try done; [by rewrite Em|]. intros r' Hr'.
  destruct (Hrs r Hr) as (Hz & Hnz & _). destruct (decide (r' = r)) as [->|Hne].
  - split; [done|]. split; [done|]. exists vn', l. simpl. rewrite lookup_insert_eq. auto.
  - assert (r' ∈ held a) as Hin by (rewrite elem_of_multiplicity in *; by rewrite <- E1).
    destruct (Hrs r' Hin) as (Hz' & ? & vn2 & l2 & Hv2 & ? & []). split; [done|]. split; [done|]. exists vn2, l2.
    split. { simpl. rewrite lookup_insert_ne; [done|]. intros E. apply Hne. destruct r, r'. simpl in *. congruence. }
    split; [done|]. split; try done; [by rewrite E1|by rewrite E2].
Qed.

Lemma fsw_dev a bs w : fsw a bs w <-> exists vl junk, dev_ok_at a vl w /\ owns (dw_heap w) (concat (vn_blocks <$> vl) ++ junk ++ bs).
Proof.
  split.
  - intros (own & (vl & junk & Hp & Hok) & Ho). exists vl, junk. split; [done|].
    eapply owns_perm; [|exact Ho]. by rewrite Hp, app_assoc.
  - intros (vl & junk & Hok & Ho). exists (concat (vn_blocks <$> vl) ++ junk). split; [by exists vl, junk|].
    change (owns (dw_heap w) ((concat (vn_blocks <$> vl) ++ junk) ++ bs)). by rewrite <- app_assoc.
Qed.

(** The vnode of a reference. *)
Lemma dev_vnode a vl w r : dev_ok_at a vl w -> r ∈ held a -> exists vn l, dw_vnodes w !! r.1 = Some vn /\ (r.1, l) ∈ vl /\
  counted a r (known_dev w) vn l /\ vnode_ok vn.
Proof.
  intros Hok Hr. destruct (da_refs _ _ _ Hok r Hr) as (_ & _ & vn & l & ? & ? & Hc). exists vn, l. split; [done|]. split; [done|].
  split; [done|]. by eapply counted_ok.
Qed.

Lemma on_vnode_eq {A} v vn (m : M (vnode dev_ops) A) w : dw_vnodes w !! v = Some vn ->
  on_vnode v m w = ((m vn).1, with_vnode v (m vn).2 w).
Proof. intros Hv. unfold on_vnode. rewrite Hv. by destruct (m vn). Qed.

Lemma with_vnode_id v vn w : dw_vnodes w !! v = Some vn -> with_vnode v vn w = w.
Proof. intros Hv. unfold with_vnode. rewrite insert_id by done. by destruct w. Qed.

Lemma dev_vop_eq {A} a vl w r (m : M W A) : dev_ok_at a vl w -> r ∈ held a -> vop r.1 m w = m w.
Proof.
  intros Hok Hr. destruct (dev_vnode _ _ _ _ Hok Hr) as (vn & l & Hv & _ & _ & Hvok). unfold vop, bind.
  rewrite (on_vnode_eq _ _ _ _ Hv), vnode_check_eq by done. simpl. by rewrite with_vnode_id.
Qed.

(** *** Counting *)

Lemma with_vnode_twice v vn vn' w : with_vnode v vn (with_vnode v vn' w) = with_vnode v vn w.
Proof. unfold with_vnode. simpl. by rewrite insert_insert_eq. Qed.

Lemma on_vnode_with {A} v vn (m : M (vnode dev_ops) A) w :
  on_vnode v m (with_vnode v vn w) = ((m vn).1, with_vnode v (m vn).2 w).
Proof. rewrite (on_vnode_eq v vn) by apply lookup_insert_eq. by rewrite with_vnode_twice. Qed.

Lemma dev_decref_eq v vn w (reclaim : M W unit) : dw_vnodes w !! v = Some vn -> vnode_ok vn ->
  vnode_decref (fun A => @on_vnode _ _ _ v A) reclaim w =
    if vn_refcount vn >? 1 then (Ret tt, with_vnode v (set_refcount (vn_refcount vn - 1) vn) w)
    else bind (result_of reclaim) (fun _ => ret tt) w.
Proof.
  intros Hv (Hr & _ & (l & Hl & Hh) & _). destruct vn as [rc oc cl f dt ops]. simpl in *. subst cl.
  destruct l as [ls ln lh]. simpl in Hh. subst lh.
  assert (with_vnode v (mk_vnode rc oc (Some (mk_lock ls ln false)) f dt ops) w = w) as Hid by (by apply with_vnode_id).
  unfold vnode_decref, bind. rewrite (on_vnode_eq _ _ _ _ Hv). cbn. rewrite on_vnode_with. cbn.
  unfold assert. zbool. cbn. destruct (Z.gtb_spec rc 1); cbn; rewrite !on_vnode_with; cbn.
  - rewrite on_vnode_with. done.
  - unfold set_countlock. cbn. by rewrite Hid.
Qed.

Lemma decopen_eq v vn w (close : M W unit) : dw_vnodes w !! v = Some vn -> vnode_ok vn -> 0 < vn_opencount vn ->
  vnode_decopen (fun A => @on_vnode _ _ _ v A) close w =
    if vn_opencount vn - 1 >? 0 then (Ret tt, with_vnode v (set_opencount (vn_opencount vn - 1) vn) w)
    else bind (result_of close) (fun _ => ret tt) (with_vnode v (set_opencount (vn_opencount vn - 1) vn) w).
Proof.
  intros Hv (_ & Ho & (l & Hl & Hh) & _) Hpos. destruct vn as [rc oc cl f dt ops]. simpl in *. subst cl.
  destruct l as [ls ln lh]. simpl in Hh. subst lh.
  unfold vnode_decopen, bind. rewrite (on_vnode_eq _ _ _ _ Hv). cbn. rewrite on_vnode_with. cbn.
  unfold assert. zbool. cbn. rewrite !on_vnode_with. cbn. by destruct (oc - 1 >? 0).
Qed.

Lemma mult_held_add r r' a : multiplicity r' (held (add_ref r a)) = (multiplicity r' (held a) + if decide (r' = r) then 1 else 0)%nat.
Proof. unfold held, add_ref. simpl. rewrite !multiplicity_disj_union, multiplicity_singleton. repeat case_decide; (done || lia). Qed.

Lemma mult_handle_add r r' a : multiplicity r' (held (add_handle r a)) = (multiplicity r' (held a) + if decide (r' = r) then 1 else 0)%nat.
Proof. unfold held, add_handle. simpl. rewrite !multiplicity_disj_union, multiplicity_singleton. repeat case_decide; (done || lia). Qed.

Lemma mult_hs_add r r' a : multiplicity r' (hs (add_handle r a)) = (multiplicity r' (hs a) + if decide (r' = r) then 1 else 0)%nat.
Proof. unfold add_handle. simpl. rewrite multiplicity_disj_union, multiplicity_singleton. repeat case_decide; (done || lia). Qed.

Lemma mult_size (r : ref) (X : gmultiset ref) : (multiplicity r X <= size X)%nat.
Proof.
  induction X as [|r' X IH] using gmultiset_ind; [rewrite multiplicity_empty; lia|].
  rewrite multiplicity_disj_union, gmultiset_size_disj_union, gmultiset_size_singleton.
  rewrite multiplicity_singleton. case_decide; lia.
Qed.

Lemma mult_room r n a : ref_room n a -> Z.of_nat (multiplicity r (held a)) + Z.of_nat n < 2 ^ 31 - 1.
Proof. unfold ref_room. pose proof (mult_size r (held a)). lia. Qed.

(** Counts change by one. *)
Lemma add_ref_ok a vl w r vn l : dev_ok_at a vl w -> r ∈ held a -> ref_room 1 a -> dw_vnodes w !! r.1 = Some vn -> (r.1, l) ∈ vl ->
  counted a r (known_dev w) vn l -> dev_ok_at (add_ref r a) vl (with_vnode r.1 (set_refcount (vn_refcount vn + 1) vn) w).
Proof.
  intros Hok Hr Hroom Hv Hl Hc. pose proof (mult_room r 1 a Hroom). eapply dev_ok_count; try done.
  - intros r' Hne. rewrite mult_held_add, decide_False by done. lia.
  - intros _. destruct Hc. split; try done; simpl; rewrite ?mult_held_add, ?decide_True by done; lia.
Qed.

Lemma drop_ref_ok a vl w r vn l : dev_ok_at (add_ref r a) vl w -> dw_vnodes w !! r.1 = Some vn -> (r.1, l) ∈ vl ->
  counted (add_ref r a) r (known_dev w) vn l -> 1 < vn_refcount vn ->
  dev_ok_at a vl (with_vnode r.1 (set_refcount (vn_refcount vn - 1) vn) w).
Proof.
  intros Hok Hv Hl Hc Hgt. eapply (dev_ok_count (add_ref r a)); try done; [apply held_ref|..].
  - intros r' Hne. rewrite mult_held_add, decide_False by done. lia.
  - intros _. destruct Hc. rewrite mult_held_add, decide_True in ct_ref0 by done. split; try done; simpl; lia.
Qed.

(** The last reference goes, and the vnode stays. *)
Lemma last_ref_ok a vl w r vn l : dev_ok_at (add_ref r a) vl w -> dw_vnodes w !! r.1 = Some vn -> (r.1, l) ∈ vl ->
  counted (add_ref r a) r (known_dev w) vn l -> vn_refcount vn <= 1 -> dev_ok_at a vl w.
Proof.
  intros Hok Hv Hl Hc Hle. rewrite <- (with_vnode_id _ _ _ Hv). eapply (dev_ok_count (add_ref r a)); try done; [apply held_ref|..].
  - intros r' Hne. rewrite mult_held_add, decide_False by done. lia.
  - intros Hr. exfalso. destruct Hc. rewrite mult_held_add, decide_True in ct_ref0 by done.
    rewrite elem_of_multiplicity in Hr. lia.
Qed.

Lemma open_ok a vl w r vn l : dev_ok_at (add_ref r a) vl w -> dw_vnodes w !! r.1 = Some vn -> (r.1, l) ∈ vl ->
  counted (add_ref r a) r (known_dev w) vn l ->
  dev_ok_at (add_handle r a) vl (with_vnode r.1 (set_opencount (vn_opencount vn + 1) vn) w).
Proof.
  intros Hok Hv Hl Hc. eapply (dev_ok_count (add_ref r a)); try done; [apply held_ref|..].
  - intros r' Hne. by rewrite mult_held_add, mult_handle_add.
  - intros r' Hne. rewrite mult_hs_add, decide_False by done. simpl. lia.
  - intros _. destruct Hc. rewrite mult_held_add, decide_True in ct_ref0 by done. simpl in ct_open0.
    split; try done; unfold set_opencount; cbn [vn_refcount vn_opencount]; rewrite ?mult_handle_add, ?mult_hs_add, ?decide_True by done; lia.
Qed.

Lemma close_ok a vl w r vn l : dev_ok_at (add_handle r a) vl w -> dw_vnodes w !! r.1 = Some vn -> (r.1, l) ∈ vl ->
  counted (add_handle r a) r (known_dev w) vn l ->
  dev_ok_at (add_ref r a) vl (with_vnode r.1 (set_opencount (vn_opencount vn - 1) vn) w).
Proof.
  intros Hok Hv Hl Hc. eapply (dev_ok_count (add_handle r a)); try done; [apply held_handle|..].
  - intros r' Hne. by rewrite mult_held_add, mult_handle_add.
  - intros r' Hne. rewrite mult_hs_add, decide_False by done. simpl. lia.
  - intros _. destruct Hc. rewrite mult_handle_add, decide_True in ct_ref0 by done. rewrite mult_hs_add, decide_True in ct_open0 by done.
    split; try done; unfold set_opencount; cbn [vn_refcount vn_opencount]; rewrite ?mult_held_add, ?decide_True by done; simpl; lia.
Qed.

(** *** The laws of the interface *)

(** Running on devices: everything else stays. *)
Definition dev_keeps {A} (m : M W A) a w : Prop := forall vl, dev_ok_at a vl w ->
  runs m w (fun _ w' => dev_ok_at a vl w' /\ dw_heap w' = dw_heap w) (fun _ w' => dev_ok_at a vl w' /\ dw_heap w' = dw_heap w).

Lemma dev_keeps_fsw {A} (m : M W A) a bs w : fsw a bs w -> dev_keeps m a w -> keeps m a bs w.
Proof.
  rewrite fsw_dev. intros (vl & junk & Hok & Ho) Hm. eapply runs_mono; [by apply Hm|..];
    intros ? w' [Hok' E]; apply fsw_dev; exists vl, junk; (split; [done|]); by rewrite E.
Qed.

Lemma keeps_vop {A} (m : M W A) a bs w r : fsw a bs w -> r ∈ held a -> dev_keeps m a w -> keeps (vop r.1 m) a bs w.
Proof.
  intros Hw Hr Hm. pose proof Hw as (vl & junk & Hok & _)%fsw_dev. unfold keeps.
  eapply runs_eq; [by eapply dev_vop_eq|]. by apply dev_keeps_fsw.
Qed.

Lemma fail_keeps {A} e a w : dev_keeps (fail e : M W A) a w.
Proof. intros vl Hok. by run. Qed.

(** The device of a vnode. *)
Lemma on_dev_runs {A} (m : M D A) a vl w r (Q : A -> Prop) : dev_ok_at a vl w -> r ∈ held a ->
  (forall d, char_ok d -> runs m d (fun x d' => Q x /\ char_ok d') (fun _ d' => char_ok d')) ->
  runs (on_dev r.1 m) w (fun x w' => Q x /\ dev_ok_at a vl w' /\ dw_heap w' = dw_heap w)
    (fun _ w' => dev_ok_at a vl w' /\ dw_heap w' = dw_heap w).
Proof.
  intros Hok Hr Hm. destruct (dev_vnode _ _ _ _ Hok Hr) as (vn & l & Hv & _ & [] & _). unfold on_dev. apply runs_bind.
  unfold runs. rewrite (on_vnode_eq _ _ _ _ Hv). simpl. rewrite with_vnode_id by done.
  destruct ct_data0 as [Hp [d Hd]]. rewrite Hd. specialize (Hm d (da_devs _ _ _ Hok _ _ Hd)). unfold runs in Hm.
  assert (forall d', char_ok d' -> dev_ok_at a vl (with_dev (vn_data vn) d' w)) as Hd'.
  { intros d' Hc. eapply dev_ok_other; [exact Hok|done|apply Hok|..]; simpl.
    - intros p d2. destruct (decide (p = vn_data vn)) as [->|Hne]; [rewrite lookup_insert_eq; congruence|].
      rewrite lookup_insert_ne by done. apply Hok.
    - intros p [Hnz Hs]. split; [done|]. simpl. destruct (decide (p = vn_data vn)) as [->|Hne];
        [rewrite lookup_insert_eq; eauto|by rewrite lookup_insert_ne]. }
  destruct (m d) as [[] d']; try done; [destruct Hm|]; auto.
Qed.

Lemma on_dev_keeps {A} (m : M D A) a w r : r ∈ held a ->
  (forall d, char_ok d -> runs m d (fun x d' => char_ok d') (fun _ d' => char_ok d')) ->
  dev_keeps (on_dev r.1 m) a w.
Proof.
  intros Hr Hm vl Hok. eapply runs_mono; [apply (on_dev_runs m a vl w r (fun _ => True)); [done|done|]|..].
  - intros d Hd. eapply runs_mono; [by apply Hm|..]; auto.
  - intros x w' (_ & ?). done.
  - done.
Qed.

Lemma incref_dev a bs w r : fsw a bs w -> r ∈ held a -> ref_room 1 a ->
  runs (on_vnode r.1 vnode_incref) w (fun _ w' => fsw (add_ref r a) bs w') (fun _ _ => False).
Proof.
  intros (vl & junk & Hok & Ho)%fsw_dev Hr Hn. destruct (dev_vnode _ _ _ _ Hok Hr) as (vn & l & Hv & Hl & Hc & Hvok).
  unfold runs. rewrite (on_vnode_eq _ _ _ _ Hv), vnode_incref_eq by done. apply fsw_dev. exists vl, junk. split; [|done].
  by eapply add_ref_ok.
Qed.

Lemma decref_dev a bs w r : fsw (add_ref r a) bs w -> runs (VOP_DECREF r.1) w (fun _ w' => fsw a bs w') (fun _ _ => False).
Proof.
  intros (vl & junk & Hok & Ho)%fsw_dev. destruct (dev_vnode _ _ _ _ Hok (held_ref r a)) as (vn & l & Hv & Hl & Hc & Hvok).
  unfold runs. cbn [VOP_DECREF dev_vops]. rewrite (dev_decref_eq _ _ _ _ Hv Hvok).
  destruct (Z.gtb_spec (vn_refcount vn) 1) as [Hgt|Hle].
  - apply fsw_dev. exists vl, junk. split; [|done]. by eapply drop_ref_ok.
  - unfold bind, result_of. rewrite (on_vnode_eq _ _ _ _ Hv), vnode_check_eq by done. simpl. rewrite with_vnode_id by done.
    apply fsw_dev. exists vl, junk. split; [|done]. by eapply last_ref_ok.
Qed.

Lemma incopen_dev a bs w r : fsw (add_ref r a) bs w ->
  runs (on_vnode r.1 vnode_incopen) w (fun _ w' => fsw (add_handle r a) bs w') (fun _ _ => False).
Proof.
  intros (vl & junk & Hok & Ho)%fsw_dev. destruct (dev_vnode _ _ _ _ Hok (held_ref r a)) as (vn & l & Hv & Hl & Hc & Hvok).
  unfold runs. rewrite (on_vnode_eq _ _ _ _ Hv), vnode_incopen_eq by done. apply fsw_dev. exists vl, junk. split; [|done].
  by eapply open_ok.
Qed.

Lemma decopen_dev a bs w r : fsw (add_handle r a) bs w ->
  runs (VOP_DECOPEN r.1) w (fun _ w' => fsw (add_ref r a) bs w') (fun _ _ => False).
Proof.
  intros (vl & junk & Hok & Ho)%fsw_dev. destruct (dev_vnode _ _ _ _ Hok (held_handle r a)) as (vn & l & Hv & Hl & Hc & Hvok).
  pose proof (close_ok _ _ _ _ _ _ Hok Hv Hl Hc) as Hok'.
  assert (0 < vn_opencount vn) as Hpos. { destruct Hc. rewrite ct_open0, mult_hs_add, decide_True by done. lia. }
  pose proof (decopen_eq r.1 vn w (vop r.1 (dev_close r.1)) Hv Hvok Hpos) as E.
  destruct (vn_opencount vn - 1 >? 0); [eapply runs_intro_ret; [exact E|]|eapply runs_eq; [exact E|]]; clear E.
  - apply fsw_dev. by exists vl, junk.
  - apply runs_bind, runs_result_of. eapply runs_eq; [eapply dev_vop_eq; [exact Hok'|apply held_ref]|].
    eapply runs_mono; [apply (on_dev_keeps d_close (add_ref r a) _ r); [apply held_ref|apply d_close_ok|exact Hok']|..];
      intros x w' [Hok2 E]; run; apply fsw_dev; exists vl, junk; (split; [done|]); by rewrite E.
Qed.

Lemma lookup_dev a bs w r path : fsw a bs w -> r ∈ held a -> ref_room 2 a -> is_cstr path ->
  gives (VOP_LOOKUP r.1 path) r.2 a bs w.
Proof.
  intros Hw Hr Hn Hp. pose proof Hw as (vl & junk & Hok & Ho)%fsw_dev. unfold gives. eapply runs_eq; [by eapply dev_vop_eq|].
  unfold dev_lookup. rewrite (strlen_cstr _ Hp). unfold defined. do 2 step. destruct (_ >? 0); [by run|].
  apply runs_bind. eapply runs_mono; [apply (incref_dev a bs w r Hw Hr)| |done].
  - unfold ref_room in *. lia.
  - intros [] w' Hw'. run. destruct (da_refs _ _ _ Hok r Hr) as (Hz & Hnz & _). split; [done|].
    by replace (r.1, r.2) with r by (by destruct r).
Qed.

Lemma gettype_dev a bs w r : fsw a bs w -> r ∈ held a ->
  runs (VOP_GETTYPE r.1) w (fun t w' => fsw a bs w' /\ (S_ISDIR t = true -> r.2 <> 0)) (fun _ w' => fsw a bs w').
Proof.
  intros (vl & junk & Hok & Ho)%fsw_dev Hr. eapply runs_eq; [by eapply dev_vop_eq|].
  eapply runs_mono; [apply (on_dev_runs _ a vl w r (fun t => S_ISDIR t = false)); [done|done|]|..].
  - intros d Hd. run. by destruct (d_blocks d >? 0).
  - intros t w' (Ht & Hok' & E). split; [|congruence]. apply fsw_dev. exists vl, junk. by rewrite E.
  - intros e w' (Hok' & E). apply fsw_dev. exists vl, junk. by rewrite E.
Qed.

Lemma vop_uio_eq a bs w r u (m : M (uio * W) unit) : fsw a bs w -> r ∈ held a -> vop_uio r.1 m (u, w) = m (u, w).
Proof.
  intros (vl & junk & Hok & Ho)%fsw_dev Hr. destruct (dev_vnode _ _ _ _ Hok Hr) as (vn & l & Hv & _ & _ & Hvok).
  unfold vop_uio, bind, on_snd, zoom. simpl. rewrite (on_vnode_eq _ _ _ _ Hv), vnode_check_eq by done. simpl.
  by rewrite with_vnode_id.
Qed.

Lemma fail_vop {A} a bs w r e (Q : A -> W -> Prop) : fsw a bs w -> r ∈ held a ->
  runs (vop r.1 (fail e)) w Q (fun _ w' => fsw a bs w').
Proof. intros Hw Hr. pose proof Hw as (vl & junk & Hok & _)%fsw_dev. eapply runs_eq; [by eapply dev_vop_eq|]. by run. Qed.

(** *** Memory *)

Lemma with_heap_ok a vl w h : dev_ok_at a vl w -> heap_ok h -> dev_ok_at a vl (with_heap h w).
Proof. intros Hok Hh. by eapply dev_ok_other; [exact Hok|done|done|apply Hok|done]. Qed.

Lemma kmalloc_dev a own w sz : fs_ok a own w -> 0 <= sz < 2 ^ 31 ->
  runs (kmalloc sz) w
    (fun p w' => fs_ok a own w' /\
      ((p = 0 /\ fs_live w' = fs_live w) \/ (p <> 0 /\ fs_live w !! p = None /\ fs_live w' = <[p := sz]> (fs_live w))))
    (fun _ _ => False).
Proof.
  intros (vl & junk & Hp & Hok) Hsz. apply runs_zoom. eapply runs_mono; [apply (kmalloc_spec _ _ (da_heap _ _ _ Hok) Hsz)| |done].
  intros p h (Hh & Hl). split; [|done]. exists vl, junk. split; [done|]. by apply with_heap_ok.
Qed.

Lemma kfree_dev a own w p n : fs_ok a own w -> fs_live w !! p = Some n ->
  runs (kfree p) w (fun _ w' => fs_ok a own w' /\ fs_live w' = delete p (fs_live w)) (fun _ _ => False).
Proof.
  intros (vl & junk & Hp & Hok) Hl. apply runs_zoom. eapply runs_mono; [apply (kfree_spec _ _ _ (da_heap _ _ _ Hok) Hl)| |done].
  intros [] h (Hh & Hl'). split; [|done]. exists vl, junk. split; [done|]. by apply with_heap_ok.
Qed.

Lemma vl_block (v : Z) l vl : (v, l) ∈ vl -> (v, 24) ∈ concat (vn_blocks <$> vl).
Proof.
  intros Hl. rewrite list_elem_of_In, in_concat. exists (vn_blocks (v, l)). rewrite <- !list_elem_of_In. split; [|by left].
  apply list_elem_of_fmap. by exists (v, l).
Qed.

(** A new vnode, with the one reference of its creator. *)
Lemma new_vnode_ok a vl w v l dev : dev_ok_at a vl w -> v <> 0 -> (v, 0) ∉ held a -> lk_held l = false -> known_dev w dev ->
  dev_ok_at (add_ref (v, 0) a) ((v, l) :: vl) (with_vnode v (mk_vnode 1 0 (Some l) 0 dev (Some dev_vnode_ops)) w).
Proof.
  intros [Hh Hm Hd Hrs] Hv Hnew Hl Hdev. split; try done. intros r Hr. destruct (decide (r = (v, 0))) as [->|Hne].
  - split; [done|]. split; [done|]. eexists _, l. split; [apply lookup_insert_eq|]. split; [by left|].
    assert (multiplicity (v, 0) (held a) = 0%nat) as Hz by (by apply not_elem_of_multiplicity).
    assert (multiplicity (v, 0) (hs a) = 0%nat) as Hz' by (unfold held in Hz; rewrite multiplicity_disj_union in Hz; lia).
    split; try done; cbn [vn_refcount vn_opencount]; [rewrite mult_held_add, decide_True, Hz by done; done|].
    simpl. by rewrite Hz'.
  - rewrite elem_of_multiplicity, mult_held_add, decide_False, Nat.add_0_r in Hr by done.
    apply elem_of_multiplicity in Hr. destruct (Hrs r Hr) as (Hz & Hnz & vn & l' & Hvn & Hin & []).
    split; [done|]. split; [done|]. exists vn, l'. split.
    { simpl. rewrite lookup_insert_ne; [done|]. intros ->. apply Hne. destruct r. simpl in *. congruence. }
    split; [by right|]. split; try done. by rewrite mult_held_add, decide_False, Nat.add_0_r.
Qed.

Lemma init_vnode w h d B : heap_ok h -> owns h B ->
  runs (try (on_heap (vnode_init dev_vnode_ops 0 d))) (with_heap h w)
    (fun r w' => exists h', w' = with_heap h' w /\ heap_ok h' /\ match r with
       | inl _ => True
       | inr vn => exists l, vn = mk_vnode 1 0 (Some l) 0 d (Some dev_vnode_ops) /\ lk_held l = false /\
           owns h' (lock_blocks l countlock_name ++ B)
       end) (fun _ _ => False).
Proof.
  intros Hh Ho. apply runs_try, runs_zoom. simpl. unfold vnode_init. apply runs_bind.
  eapply runs_mono; [apply (lock_create_owns _ _ countlock_name Hh Ho); unfold countlock_name; lia| |done].
  intros [l|] h' [Hh' Hl]; run; [|by exists h']. exists h'. split; [done|]. split; [done|]. exists l. by destruct Hl.
Qed.

Lemma create_dev a bs w d : fsw a bs w -> ref_room 1 a -> fs_device w d -> no_panic (dev_create_vnode d) w ->
  runs (dev_create_vnode d) w
    (fun v w' => (if v =? 0 then fsw a bs w' else (v, 0) ∉ held a /\ fsw (add_ref (v, 0) a) bs w') /\ keeps_names w w')
    (fun _ _ => False).
Proof.
  intros (vl & junk & Hok & Ho)%fsw_dev Hn Hd Hp. unfold dev_create_vnode in *. apply runs_bind.
  assert (runs (kmalloc 24) w (fun v w1 => exists h, w1 = with_heap h w /\ heap_ok h /\
    (if v =? 0 then owns h (concat (vn_blocks <$> vl) ++ junk ++ bs)
     else live (dw_heap w) !! v = None /\ owns h ((v, 24) :: concat (vn_blocks <$> vl) ++ junk ++ bs))) (fun _ _ => False)) as Hk.
  { apply runs_zoom. eapply runs_mono; [apply (kmalloc_spec _ 24 (da_heap _ _ _ Hok)); lia| |done].
    intros v h [Hh [(-> & E)|(Hv & Hnew & E)]]; exists h; (split; [done|]; split; [done|]).
    - by eapply owns_same.
    - zbool. split; [done|]. by eapply owns_alloc. }
  eapply runs_mono; [eapply no_panic_bind; [exact Hp|exact Hk]| |done]. clear Hp Hk.
  intros v w1 [(h & -> & Hh & Hv) Hp]. destruct (Z.eqb_spec v 0) as [->|Hv0].
  - run. split; [|done]. apply fsw_dev. exists vl, junk. split; [by apply with_heap_ok|done].
  - destruct Hv as [Hnew Ho1]. apply runs_bind.
    eapply runs_mono; [eapply no_panic_bind; [exact Hp|exact (init_vnode w h d _ Hh Ho1)]| |done]. clear Hp.
    intros [e|vn] w2 [(h2 & -> & Hh2 & Hl) Hp]; [by destruct Hp|]. destruct Hl as (l & -> & Hfree & Ho2). run. zbool.
    assert ((v, 0) ∉ held a) as Hnot.
    { intros Hin. destruct (da_refs _ _ _ Hok _ Hin) as (_ & _ & _ & l' & _ & Hin' & _).
      destruct Ho as [_ Hlive]. assert (live (dw_heap w) !! v = Some 24) by (apply Hlive, elem_of_app; left; by eapply vl_block).
      congruence. }
    split; [|done]. split; [done|]. apply fsw_dev. exists ((v, l) :: vl), junk.
    split; [by apply new_vnode_ok; [apply with_heap_ok|..]|].
    eapply owns_perm; [|exact Ho2]. simpl. solve_Permutation.
Qed.

Lemma free_dev a bs w v : fsw (add_ref (v, 0) a) bs w -> (v, 0) ∉ held a ->
  runs (kfree v) w (fun _ w' => fsw a bs w') (fun _ _ => False).
Proof.
  intros (vl & junk & Hok & Ho)%fsw_dev Hnot. destruct (dev_vnode _ _ _ _ Hok (held_ref (v, 0) a)) as (vn & l & Hv & Hl & _).
  simpl in *. apply elem_of_Permutation in Hl as [vl' Hp].
  assert (owns (dw_heap w) ((v, 24) :: concat (vn_blocks <$> vl') ++ (lock_blocks l countlock_name ++ junk) ++ bs)) as Ho1.
  { eapply owns_perm; [|exact Ho]. rewrite Hp. simpl. solve_Permutation. }
  apply runs_zoom. eapply runs_mono; [apply (kfree_owns _ _ _ _ (da_heap _ _ _ Hok) Ho1)| |done].
  intros [] h (Hh & Ho2 & _). apply fsw_dev. exists vl', (lock_blocks l countlock_name ++ junk). split; [|done].
  destruct Hok as [_ Hm Hd Hrs]. split; try done. intros r Hr.
  destruct (Hrs r) as (Hz & Hnz & vn' & l' & Hvn & Hin & Hc); [by apply held_add|]. split; [done|]. split; [done|].
  assert (r <> (v, 0)) as Hne by (intros ->; done).
  exists vn', l'. split; [done|]. split.
  - rewrite Hp in Hin. apply elem_of_cons in Hin as [E|Hin]; [|done]. destruct r. simpl in *. congruence.
  - destruct Hc. split; try done. by rewrite mult_held_add, decide_False, Nat.add_0_r in ct_ref0.
Qed.

#[export] Instance dev_vops_laws : VopsLaws U W.
Proof.
  split.
  - intros a own w p n (vl & junk & _ & Hok) Hl. by eapply live_nonnull; [apply Hok|].
  - intros a own w p q n m (vl & junk & _ & Hok) Hp Hq Hne. by eapply live_disjoint; [apply Hok|..].
  - by intros w d [? _].
  - apply kmalloc_dev.
  - intros a own w (vl & junk & _ & Hok). cbn [kfree dev_heap]. unfold on_heap, zoom. rewrite kfree_null by apply Hok.
    unfold with_heap. by destruct w.
  - apply kfree_dev.
  - intros w sz p w'. cbn [kmalloc dev_heap]. unfold on_heap, zoom. destruct (kmalloc sz (dw_heap w)). by intros [= _ <-].
  - intros w p w'. cbn [kfree dev_heap]. unfold on_heap, zoom. destruct (kfree p (dw_heap w)). by intros [= _ <-].
  - intros a own w t (vl & junk & Hp & Hok). split; [|done]. exists vl, junk. split; [done|]. by destruct Hok.
  - intros w v w'. cbn [VOP_INCREF dev_vops]. unfold on_vnode. destruct (dw_vnodes w !! v); [|done].
    destruct (vnode_incref v0). by intros [= _ <-].
  - intros a bs w r (vl & junk & Hok & _)%fsw_dev Hr. destruct (da_refs _ _ _ Hok r Hr) as (? & ? & _). auto.
  - apply incref_dev.
  - apply decref_dev.
  - apply incopen_dev.
  - apply decopen_dev.
  - intros a bs w r (vl & junk & Hok & _)%fsw_dev Hr. destruct (dev_vnode _ _ _ _ Hok Hr) as (vn & l & Hv & _ & [] & _).
    cbn [VN_FS dev_vops]. rewrite (on_vnode_eq _ _ _ _ Hv). simpl. rewrite with_vnode_id by done.
    destruct (da_refs _ _ _ Hok r Hr) as (Hz & _ & _). congruence.
  - intros a bs w r flags Hw Hr. apply keeps_vop; try done. unfold dev_open. destruct (negb _); [apply fail_keeps|].
    apply on_dev_keeps; [done|]. apply d_open_ok.
  - intros a bs w r len Hw Hr. apply keeps_vop; try done. apply on_dev_keeps; [done|]. intros d Hd. run. by destruct (_ && _); run.
  - intros. by apply keeps_vop, fail_keeps.
  - intros. by apply keeps_vop, fail_keeps.
  - intros. by apply keeps_vop, fail_keeps.
  - intros. by apply keeps_vop, fail_keeps.
  - intros. by apply keeps_vop, fail_keeps.
  - intros. by apply keeps_vop, fail_keeps.
  - apply gettype_dev.
  - intros a bs w r u Hw Hr. eapply runs_eq; [by eapply vop_uio_eq|]. by run.
  - intros a bs w r u Hw Hr. eapply runs_eq; [by eapply vop_uio_eq|]. by run.
  - intros a bs w r n excl Hw Hr _ _. by eapply fail_vop.
  - intros. by apply lookup_dev.
  - intros a bs w r path len Hw Hr _ _. by eapply fail_vop.
  - intros a bs w f (vl & junk & Hok & _)%fsw_dev. rewrite (da_ms _ _ _ Hok). set_solver.
  - intros a bs w f (vl & junk & Hok & _)%fsw_dev. rewrite (da_ms _ _ _ Hok). set_solver.
  - intros a bs w f (vl & junk & Hok & _)%fsw_dev. rewrite (da_ms _ _ _ Hok). set_solver.
  - intros a bs w f (vl & junk & Hok & _)%fsw_dev. rewrite (da_ms _ _ _ Hok). set_solver.
  - intros. by apply create_dev.
  - intros. by apply free_dev.
Qed.

End dev_laws.
