(* ===== verification/DevBoot.v ===== *)
(** The start of the VFS layer: vfs_bootstrap (kern/fs/vfs/vfslist.c),
    vfs_initbootfs (kern/fs/vfs/vfslookup.c) and devnull_create
    (kern/fs/vfs/devnull.c), and runs of the layer on devices. *)

From Stdlib Require Import ZArith Lia.
From stdpp Require Import prelude gmap gmultiset list.
From S2P Require Import Prelude Str Heap Array SynchObj Vnode Pages Copy Uio Device VfsOps Vfs VfsInv VfsSafe VfsTable VfsAdd VfsCwd VfsBoot VfsCalls Dev.

Section start.
Context {U D H : Type} `{!UserMem U} `{!BlockDev U D} `{!CharDev U D} `{!Heap H}.
#[local] Abbreviation W := (dworld U (device D) H).

(** "null" *)
Definition null_name : list Z := [110; 117; 108; 108; 0].

(** Any failure is a panic. *)
Definition or_panic {S A} (m : M S A) : M S A :=
  r <- try m ;; match r with inl _ => panic | inr x => ret x end.

Definition devnull_create : M (vfs W) unit :=
  dev <- on_world (kmalloc 28) ;;
  if dev =? 0 then panic
  else
    on_world (modify (with_dev dev NullDev)) ;;;
    or_panic (vfs_adddev null_name dev false).

(** "bootfs_lock" and "knowndevs" have 11 and 9 characters. *)
Definition vfs_initbootfs : M (vfs W) unit :=
  l <- on_world (lock_create 11) ;;
  match l with None => panic | Some l => modify (with_bootfs_lock l) end.

Definition vfs_bootstrap : M (vfs W) unit :=
  a <- on_world array_create ;;
  match a with
  | None => panic
  | Some a =>
      modify (fun s => with_devs a (v_world s) s) ;;;
      l <- on_world (lock_create 9) ;;
      match l with
      | None => panic
      | Some l =>
          modify (with_knowndevs_lock l) ;;;
          vfs_initbootfs ;;;
          devnull_create
      end
  end.

End start.

Lemma or_panic_runs {S A} (m : M S A) s (Q : A -> S -> Prop) E : no_panic (or_panic m) s ->
  (no_panic m s -> runs m s Q E) -> runs (or_panic m) s Q (fun _ _ => False).
Proof.
  unfold no_panic, runs, or_panic, bind, try, ret, panic. intros Hp Hm.
  destruct (m s) as [[] s'] eqn:Em; simpl in *; try done; by apply Hm.
Qed.

Section start_ok.
Context {U D H : Type} `{!UserMem U} `{!UserMemLaws U} `{!BlockDev U D} `{!CharDev U D} `{!CharDevLaws U D} `{HeapLaws H}.
#[local] Abbreviation W := (dworld U (device D) H).
Implicit Types (s : vfs W).

Definition nobody : account := mk_account ∅ ∅ ∅.

(** Before the VFS layer starts: nobody holds a vnode. *)
Definition pristine (bs : list (Z * Z)) s : Prop := fsw nobody bs (v_world s) /\ t_cwd s = 0 /\ bootfs_vnode s = 0.

Lemma pristine_intro bs s : heap_ok (dw_heap (v_world s)) -> owns (dw_heap (v_world s)) bs ->
  (forall (p : Z) (d : device D), dw_devs (v_world s) !! p = Some d -> char_ok d) -> t_cwd s = 0 -> bootfs_vnode s = 0 ->
  pristine bs s.
Proof.
  intros Hh Ho Hd Hc Hb. split; [|done]. apply fsw_dev. exists [], []. split; [|done]. split; try done.
  intros r Hr. unfold held in Hr. simpl in Hr. multiset_solver.
Qed.

(** A step of the start: an object, or panic. *)
Lemma create_step {X} (m : M W (option X)) (k : X -> M (vfs W) unit) s (P : X -> W -> Prop) (Q : unit -> vfs W -> Prop) :
  runs m (v_world s) (fun r w' => match r with Some x => P x w' | None => True end) (fun _ _ => False) ->
  no_panic (r <- on_world m ;; match r with None => panic | Some x => k x end) s ->
  (forall x w', P x w' -> no_panic (k x) (with_world w' s) -> runs (k x) (with_world w' s) Q (fun _ _ => False)) ->
  runs (r <- on_world m ;; match r with None => panic | Some x => k x end) s Q (fun _ _ => False).
Proof.
  intros Hm Hp Hk. unfold runs, no_panic, bind, on_world, zoom in *.
  destruct (m (v_world s)) as [[[x|]| | |] w'] eqn:E; try done. by apply (Hk x w').
Qed.

Lemma new_lock bs (w : W) len : fsw nobody bs w -> 0 <= len < 2 ^ 31 - 1 ->
  runs (lock_create len) w (fun r w' => match r with
      | Some l => lk_held l = false /\ fsw nobody (lock_blocks l len ++ bs) w'
      | None => True end) (fun _ _ => False).
Proof.
  intros (own & Hok & Ho) Hlen.
  eapply runs_mono; [exact (@lock_create_owns W _ (fs_heap nobody own) w (own ++ bs) len Hok Ho Hlen)| |done].
  intros [l|] w' [Hok' Hl]; [|done]. destruct Hl as [Hf Hl]. split; [done|]. exists own. split; [done|].
  eapply (@owns_perm W _ (fs_heap nobody own)); [|exact Hl]. solve_Permutation.
Qed.

Lemma new_array bs (w : W) : fsw nobody bs w ->
  runs array_create w (fun r w' => match r with
      | Some a => arr_shape a /\ contents a = [] /\ fsw nobody (blocks (A := Z) a ++ bs) w'
      | None => True end) (fun _ _ => False).
Proof.
  intros (own & Hok & Ho).
  eapply runs_mono; [exact (@array_create_spec Z W _ (fs_heap nobody own) w (own ++ bs) Hok Ho)| |done].
  intros [a|] w'; [|done]. intros ((Hok' & H1' & H2 & H3 & H4 & Ho') & Hc). split; [done|]. split; [done|].
  exists own. split; [done|]. eapply (@owns_perm W _ (fs_heap nobody own)); [|exact Ho']. solve_Permutation.
Qed.

(** The empty table. *)
Lemma empty_at bs s : arr_shape (knowndevs s) -> contents (knowndevs s) = [] -> t_cwd s = 0 -> bootfs_vnode s = 0 ->
  fsw nobody (blocks (knowndevs s) ++ bs) (v_world s) -> vfs_at nobody bs s 0 0 [] [].
Proof.
  intros Ha Hc Ht Hb Hw. assert (plus nobody (vfs_refs s 0 0 []) = nobody) as E.
  { unfold vfs_refs, opt_ref, plus. rewrite Ht, Hb. simpl. unfold nobody. f_equal. }
  split; [by rewrite E|done|done|done| |done]. split; [constructor|constructor|done|]. intros f Hf. set_solver.
Qed.

Lemma fsw_with_dev a B (w : W) p (d : device D) : fsw a B w -> char_ok d -> fsw a B (with_dev p d w).
Proof.
  rewrite !fsw_dev. intros (vl & junk & Hok & Ho) Hd. exists vl, junk. split; [|done].
  eapply dev_ok_other; [exact Hok|done|apply Hok|..].
  - intros q d'. simpl. destruct (decide (q = p)) as [->|]; [rewrite lookup_insert_eq; by intros [= <-]|].
    rewrite lookup_insert_ne by done. apply Hok.
  - intros q [Hq Hs]. split; [done|]. simpl. destruct (decide (q = p)) as [->|]; [rewrite lookup_insert_eq; eauto|].
    by rewrite lookup_insert_ne.
Qed.

(** The device table after [devnull_create]. *)
Lemma devnull_step bs s : vfs_at nobody bs s 0 0 [] [] -> lk_held (knowndevs_lock s) = false -> lk_held (bootfs_lock s) = false ->
  no_panic devnull_create s ->
  runs devnull_create s
    (fun _ s' => exists dev k, vfs_inv false false nobody ((dev, 28) :: bs) s' /\ devices s' = [k] /\
       entry_for k [110; 117; 108; 108] false dev)
    (fun _ _ => False).
Proof.
  intros Hat Hl Hb Hp. unfold devnull_create in *. apply runs_bind.
  eapply runs_mono; [eapply no_panic_bind; [exact Hp|by apply (kmalloc_at _ _ _ _ _ _ _ 28 Hat)]| |done]. clear Hp.
  intros dev s1 [[Hat1 Hs1] Hp]. destruct (Z.eqb_spec dev 0) as [->|Hdev]; [by destruct Hp|].
  set (s2 := with_world (with_dev dev NullDev (v_world s1)) s1).
  assert (vfs_at nobody ((dev, 28) :: bs) s2 0 0 [] []) as Hat2.
  { pose proof Hat1 as [Hw ? ? ? ? ?]. split; try done. by apply fsw_with_dev. }
  assert (lk_held (knowndevs_lock s2) = false /\ lk_held (bootfs_lock s2) = false) as [Hl2 Hb2].
  { unfold s2. by destruct Hs1 as [-> _]. }
  apply runs_bind. eapply runs_intro_ret; [done|]. change (no_panic (or_panic (vfs_adddev null_name dev false)) s2) in Hp.
  eapply or_panic_runs; [exact Hp|]. clear Hp. intros Hp.
  eapply runs_mono; [apply (doadd_at nobody _ s2 0 0 [] [] null_name [110; 117; 108; 108] false dev Hat2); try done|..].
  - split; [by repeat constructor|by exists []].
  - split; [done|]. exists NullDev. apply lookup_insert_eq.
  - intros [] s3 [(E1 & E2 & _) (p & k & Hat3 & He & _)]. exists dev, k.
    split; [eapply inv_at; [exact Hat3|by rewrite E1|by rewrite E2]|]. split; [|done]. by apply (devices_at _ _ _ _ _ _ _ Hat3).
  - intros e s3 He. exact He.
Qed.

Lemma bootstrap_runs bs s : pristine bs s -> no_panic vfs_bootstrap s ->
  runs vfs_bootstrap s
    (fun _ s' => exists dev k statics, vfs_inv false false nobody (statics ++ bs) s' /\ devices s' = [k] /\
       names_unique (v_world s') (devices s') /\ entry_for k [110; 117; 108; 108] false dev)
    (fun _ _ => False).
Proof.
  intros (Hw & Hc & Hb) Hp. unfold vfs_bootstrap in *.
  refine (create_step array_create _ s _ _ (new_array _ _ Hw) Hp _). clear Hp. intros a w1 (Ha & Hca & Hw1) Hp.
  apply runs_bind, runs_modify. set (s1 := with_devs a _ _).
  refine (create_step (lock_create 9) _ s1 _ _ (new_lock _ _ 9 Hw1 ltac:(lia)) Hp _). clear Hp. intros l w2 (Hl & Hw2) Hp.
  apply runs_bind, runs_modify. set (s2 := with_knowndevs_lock l _). apply runs_bind.
  assert (no_panic (vfs_initbootfs ;;; devnull_create) s2) as Hp2 by exact Hp.
  eapply (runs_mono _ _ (fun _ s3 => (exists l' w3, s3 = with_bootfs_lock l' (with_world w3 s2) /\ lk_held l' = false /\
    fsw nobody (lock_blocks l' 11 ++ lock_blocks l 9 ++ blocks a ++ bs) w3) /\ no_panic devnull_create s3)
    _ (fun _ _ => False)); [eapply no_panic_bind; [exact Hp2|]| |done].
  - apply (create_step (lock_create 11) _ s2 _ _ (new_lock _ _ 11 Hw2 ltac:(lia)) (no_panic_head _ _ _ Hp2)).
    intros l' w3 [Hl' Hw3] _. apply runs_modify. by exists l', w3.
  - intros [] s3 [(l' & w3 & -> & Hl' & Hw3) Hp3].
    eapply runs_mono; [apply (devnull_step (lock_blocks l' 11 ++ lock_blocks l 9 ++ bs)); [|done..]| |done].
    + apply empty_at; try done. eapply fsw_perm; [|exact Hw3]. simpl. solve_Permutation.
    + intros [] s4 (dev & k & Hinv & Hd & He). exists dev, k, ((dev, 28) :: lock_blocks l' 11 ++ lock_blocks l 9).
      rewrite Hd. split; [simpl in *; by rewrite ?app_assoc|]. split; [done|]. split; [|done].
      intros i j k1 k2 n Hi Hj _ _. apply list_lookup_singleton_Some in Hi as [-> _], Hj as [-> _]. done.
Qed.

(** C16: Unless it panics for want of memory, [vfs_bootstrap] leaves the layer in
    the state every other theorem about it starts from: both locks are there and
    free, nobody holds a reference, and the table has one entry, the device
    "null". *)
Theorem vfs_bootstrap_correct bs s : pristine bs s -> no_panic vfs_bootstrap s ->
  runs vfs_bootstrap s
    (fun _ s' => exists dev k statics, vfs_inv false false nobody (statics ++ bs) s' /\ devices s' = [k] /\
       names_unique (v_world s') (devices s') /\ entry_for k [110; 117; 108; 108] false dev)
    (fun _ _ => False).
Proof. apply bootstrap_runs. Qed.

End start_ok.

(** ** A closed system: the null device, and memory for 30 requests *)

Module Sample.
Import Copy.Flat.

(** No other devices. *)
Definition none {A : Type} (d : Empty_set) : A := match d with end.

#[export] Instance no_block : BlockDev flat Empty_set := {| d_blocks := none; d_blocksize := none; d_io := fun x => none x.2.2 |}.
#[export] Instance no_char : CharDev flat Empty_set := {|
  d_open flags := fun d => none d; d_close := fun d => none d; d_ioctl op data := fun x => none x.2 |}.
#[export] Instance no_laws : CharDevLaws flat Empty_set.
Proof. refine {| char_ok := fun d : Empty_set => True |}; by intros. Defined.

Definition world0 : dworld flat (device Empty_set) Quota.heap := mk_dworld (Quota.start 30) ∅ ∅ (flat_thread 4096 [1; 2; 3]).
Definition start0 : vfs (dworld flat (device Empty_set) Quota.heap) :=
  mk_vfs world0 (mk_array 0 0 0 0 []) ∅ (mk_lock 0 0 false) 0 (mk_lock 0 0 false) 0.

Lemma start0_pristine : pristine [] start0.
Proof. apply pristine_intro; try done. apply owns_nil. Qed.

Lemma boot_returns : (vfs_bootstrap start0).1 = Ret tt.
Proof. by vm_compute. Qed.

Lemma boot_no_panic : no_panic vfs_bootstrap start0.
Proof. unfold no_panic. by rewrite boot_returns. Qed.

Lemma vfs_bootstrap_correct_witness :
  runs vfs_bootstrap start0
    (fun _ s' => exists dev k statics, vfs_inv false false nobody (statics ++ []) s' /\ devices s' = [k] /\
       names_unique (v_world s') (devices s') /\ entry_for k [110; 117; 108; 108] false dev)
    (fun _ _ => False).
Proof. apply vfs_bootstrap_correct; [apply start0_pristine|apply boot_no_panic]. Defined.

(** After the start. *)
Definition booted : vfs (dworld flat (device Empty_set) Quota.heap) := (vfs_bootstrap start0).2.

Lemma booted_ok : exists bs, vfs_inv false false nobody bs booted /\ names_unique (v_world booted) (devices booted).
Proof.
  destruct (runs_ret_value _ _ _ _ _ (bootstrap_runs [] start0 start0_pristine boot_no_panic) boot_returns)
    as (dev & k & st & Hinv & _ & Hu & _). exists (st ++ []). exact (conj Hinv Hu).
Qed.

Definition null_path : list Z := [110; 117; 108; 108; 58; 0].

Lemma few_nobody n : 0 <= n < 2 ^ 29 -> few n nobody.
Proof. intros Hn. unfold few. assert (held nobody = ∅) as -> by (unfold held; multiset_solver). rewrite gmultiset_size_empty. lia. Qed.

Lemma null_path_cstr : is_cstr null_path.
Proof. exists [110; 117; 108; 108; 58]. split; [by repeat constructor|by exists []]. Qed.



(** A second device, "zero" with "zeroraw"; and "null" again, which is taken. *)
Definition zero_name : list Z := [122; 101; 114; 111; 0].

Definition adds (x n : list Z) (mountable : bool) (bs : list (Z * Z)) : Prop :=
  runs (vfs_adddev x 4151 mountable) booted
    (fun _ s' => ~ taken n mountable booted /\ vfs_inv false false nobody bs s' /\ names_unique (v_world s') (devices s') /\
       exists k, devices s' = devices booted ++ [k] /\ entry_for k n mountable 4151)
    (fun e s' => devices s' = devices booted /\ names_unique (v_world s') (devices s') /\
       ((e = ENOMEM /\ vfs_inv false false nobody bs s') \/
        exists v lost, vfs_inv false false (add_ref (v, 0) nobody) (lost ++ bs) s' /\
          length lost = (if mountable then 3 else 2)%nat /\
          ((e = EEXIST /\ taken n mountable booted) \/ (e = ENOMEM /\ ~ taken n mountable booted)))).

Lemma null_known : fs_device (v_world booted) 4151.
Proof. split; [done|]. exists NullDev. by vm_compute. Qed.

Lemma booted_short : Z.of_nat (length (devices booted)) + 1 < 2 ^ 27.
Proof. by vm_compute. Qed.

Lemma add_zero : (vfs_adddev zero_name 4151 true booted).1 = Ret tt.
Proof. by vm_compute. Qed.

Lemma add_null : (vfs_adddev null_name 4151 false booted).1 = Err EEXIST.
Proof. by vm_compute. Qed.

Lemma returned_no_panic {S A} (m : M S A) s o : (m s).1 = o -> o <> Panic -> no_panic m s.
Proof. intros E. unfold no_panic. by rewrite E. Qed.

Lemma vfs_adddev_correct_witness : exists bs,
  adds zero_name [122; 101; 114; 111] true bs /\ (vfs_adddev zero_name 4151 true booted).1 = Ret tt /\
  adds null_name [110; 117; 108; 108] false bs /\ (vfs_adddev null_name 4151 false booted).1 = Err EEXIST.
Proof.
  destruct booted_ok as (bs & Hinv & Hu). exists bs. split; [|split; [exact add_zero|split; [|exact add_null]]].
  - refine (vfs_adddev_correct nobody bs booted zero_name [122; 101; 114; 111] 4151 true Hinv Hu _ _ null_known _ booted_short
      (returned_no_panic _ _ _ add_zero _)); [split; [by repeat constructor|by exists []]|done|by apply few_nobody|done].
  - refine (vfs_adddev_correct nobody bs booted null_name [110; 117; 108; 108] 4151 false Hinv Hu _ _ null_known _ booted_short
      (returned_no_panic _ _ _ add_null _)); [split; [by repeat constructor|by exists []]|done|by apply few_nobody|done].
Defined.


End Sample.
