(* ===== verification/Threads.v ===== *)
(** Threads and the scheduler: kern/thread/thread.c and kern/thread/scheduler.c,
    with the parts of kern/arch/mips/mips/pcb.c that save and restore a thread.

    [kern] holds the file-scope variables of both files, the thread structures
    by address, and what each thread will do when it runs next: [stacks] maps a
    thread to the frames of its suspended calls, innermost first.  A routine
    that may switch threads is cut at the switch: [mi_switch] puts the thread on
    its list, pushes the frame for the code after [md_switch] and leaves the
    processor in the scheduler ([curthread = 0], [prevthread] the thread being
    left); [dispatch] is the end of the scheduler and [md_switch].  What the
    frames do is in Synch.v, next to the routines that push them.

    Address spaces and vnodes belong to other components, reached through
    [ProcEnv]. *)

From Stdlib Require Import ZArith Lia.
From stdpp Require Import prelude gmap list.
From S2P Require Import Prelude Heap Spl Array Queue SynchObj.

(** ** Definitions *)

Inductive threadstate_t := S_RUN | S_READY | S_SLEEP | S_ZOMB.

(** The routines of the address space and vnode layers that this code calls. *)
Class ProcEnv (R : Type) := {
  env_as_activate : Z -> M R unit;
  env_as_destroy : Z -> M R unit;
  env_vop_incref : Z -> M R unit;
  env_vop_decref : Z -> M R unit;
}.

(** [struct thread].  The name is represented by its block and length, the stack
    by its block and the four bytes at its bottom end; [pcb_ininterrupt] is the
    one field of [struct pcb] that is switched.  The two fields that
    [thread_create] does not initialise are left out: nothing reads them. *)
Record thread := mk_thread {
  t_name : Z;
  t_namelen : Z;
  t_sleepaddr : Z;
  t_stack : Z;
  t_guard : list Z;
  pcb_ininterrupt : Z;
  lk : option lock;
  Waitonexit : option cv;
  Waittoexit : option cv;
  parent : Z;
  child : list Z;
  exitcode : Z;
  status : Z;
  pid : Z;
  t_vmspace : Z;
  t_cwd : Z;
}.

Definition set_sleepaddr (a : Z) (t : thread) : thread :=
  mk_thread (t_name t) (t_namelen t) a (t_stack t) (t_guard t) (pcb_ininterrupt t) (lk t)
    (Waitonexit t) (Waittoexit t) (parent t) (child t) (exitcode t) (status t) (pid t)
    (t_vmspace t) (t_cwd t).
Definition set_stack (a : Z) (g : list Z) (t : thread) : thread :=
  mk_thread (t_name t) (t_namelen t) (t_sleepaddr t) a g (pcb_ininterrupt t) (lk t)
    (Waitonexit t) (Waittoexit t) (parent t) (child t) (exitcode t) (status t) (pid t)
    (t_vmspace t) (t_cwd t).
Definition set_ininterrupt (n : Z) (t : thread) : thread :=
  mk_thread (t_name t) (t_namelen t) (t_sleepaddr t) (t_stack t) (t_guard t) n (lk t)
    (Waitonexit t) (Waittoexit t) (parent t) (child t) (exitcode t) (status t) (pid t)
    (t_vmspace t) (t_cwd t).
Definition set_family (p : Z) (c : list Z) (t : thread) : thread :=
  mk_thread (t_name t) (t_namelen t) (t_sleepaddr t) (t_stack t) (t_guard t) (pcb_ininterrupt t)
    (lk t) (Waitonexit t) (Waittoexit t) p c (exitcode t) (status t) (pid t)
    (t_vmspace t) (t_cwd t).
Definition set_resources (vm cwd : Z) (t : thread) : thread :=
  mk_thread (t_name t) (t_namelen t) (t_sleepaddr t) (t_stack t) (t_guard t) (pcb_ininterrupt t)
    (lk t) (Waitonexit t) (Waittoexit t) (parent t) (child t) (exitcode t) (status t) (pid t)
    vm cwd.

Definition sizeof_thread : Z := 196.
Definition STACK_SIZE : Z := 4096.
Definition stack_magic : list Z := [0xae; 0x11; 0xda; 0x33].

(** The suspended calls of a thread: each frame is the rest of a routine after
    the call in its comment returns. *)
Inductive frame :=
| F_switch                               (* mi_switch: md_switch(...) *)
| F_threadstart                          (* a new thread, before mi_threadstart *)
| F_sleep                                (* thread_sleep: mi_switch(S_SLEEP) *)
| F_yield (spl : Z)                      (* thread_yield: mi_switch(S_READY) *)
| F_exit                                 (* thread_exit: mi_switch(S_ZOMB) *)
| F_fork (newguy : Z)                    (* thread_fork: md_initpcb(...) *)
| F_trap (old_in savespl : Z)            (* mips_interrupt, called from mips_trap *)
| F_P (sem spl : Z)                      (* P: thread_sleep(sem) *)
| F_acquire (lock spl : Z)               (* lock_acquire: thread_sleep(lock) *)
| F_release (lock : Z)                   (* lock_release: the assertions *)
| F_cv_wait (lock spl : Z)               (* cv_wait: thread_sleep(cv) *)
| F_splx (spl : Z)                       (* cv_wait: lock_acquire(lock) *)
| F_clocksleep (num_secs spl : Z).       (* clocksleep: thread_sleep(&lbolt) *)

(** A lock between threads: its owner, 0 if it is free. *)
Record kern (H R : Type) := mk_kern {
  k_heap : H;
  k_env : R;
  k_cpu : cpu;
  in_interrupt : Z;
  threads : gmap Z thread;
  stacks : gmap Z (list frame);
  curthread : Z;
  prevthread : Z;
  sleepers : option (array Z);
  zombies : option (array Z);
  numthreads : Z;
  pid_assign : Z;
  runqueue : option (queue Z);
  sems : gmap Z Z;                       (* count of each semaphore *)
  locks : gmap Z Z;                      (* own of each lock *)
  lbolt : Z;                             (* address of lbolt *)
  lbolt_counter : Z;
}.
Arguments mk_kern {H R}.
Arguments k_heap {H R}.
Arguments k_env {H R}.
Arguments k_cpu {H R}.
Arguments in_interrupt {H R}.
Arguments threads {H R}.
Arguments stacks {H R}.
Arguments curthread {H R}.
Arguments prevthread {H R}.
Arguments sleepers {H R}.
Arguments zombies {H R}.
Arguments numthreads {H R}.
Arguments pid_assign {H R}.
Arguments runqueue {H R}.
Arguments sems {H R}.
Arguments locks {H R}.
Arguments lbolt {H R}.
Arguments lbolt_counter {H R}.

Section kern_set.
Context {H R : Type}.
Implicit Types (k : kern H R).

Definition with_kheap (x : H) k : kern H R :=
  mk_kern x (k_env k) (k_cpu k) (in_interrupt k) (threads k) (stacks k) (curthread k)
    (prevthread k) (sleepers k) (zombies k) (numthreads k) (pid_assign k) (runqueue k) (sems k)
    (locks k) (lbolt k) (lbolt_counter k).
Definition with_env (x : R) k : kern H R :=
  mk_kern (k_heap k) x (k_cpu k) (in_interrupt k) (threads k) (stacks k) (curthread k)
    (prevthread k) (sleepers k) (zombies k) (numthreads k) (pid_assign k) (runqueue k) (sems k)
    (locks k) (lbolt k) (lbolt_counter k).
Definition with_kcpu (x : cpu) k : kern H R :=
  mk_kern (k_heap k) (k_env k) x (in_interrupt k) (threads k) (stacks k) (curthread k)
    (prevthread k) (sleepers k) (zombies k) (numthreads k) (pid_assign k) (runqueue k) (sems k)
    (locks k) (lbolt k) (lbolt_counter k).
Definition with_in_interrupt (x : Z) k : kern H R :=
  mk_kern (k_heap k) (k_env k) (k_cpu k) x (threads k) (stacks k) (curthread k) (prevthread k)
    (sleepers k) (zombies k) (numthreads k) (pid_assign k) (runqueue k) (sems k) (locks k)
    (lbolt k) (lbolt_counter k).
Definition with_threads (x : gmap Z thread) k : kern H R :=
  mk_kern (k_heap k) (k_env k) (k_cpu k) (in_interrupt k) x (stacks k) (curthread k)
    (prevthread k) (sleepers k) (zombies k) (numthreads k) (pid_assign k) (runqueue k) (sems k)
    (locks k) (lbolt k) (lbolt_counter k).
Definition with_stacks (x : gmap Z (list frame)) k : kern H R :=
  mk_kern (k_heap k) (k_env k) (k_cpu k) (in_interrupt k) (threads k) x (curthread k)
    (prevthread k) (sleepers k) (zombies k) (numthreads k) (pid_assign k) (runqueue k) (sems k)
    (locks k) (lbolt k) (lbolt_counter k).
Definition with_curthread (x : Z) k : kern H R :=
  mk_kern (k_heap k) (k_env k) (k_cpu k) (in_interrupt k) (threads k) (stacks k) x
    (prevthread k) (sleepers k) (zombies k) (numthreads k) (pid_assign k) (runqueue k) (sems k)
    (locks k) (lbolt k) (lbolt_counter k).
Definition with_prevthread (x : Z) k : kern H R :=
  mk_kern (k_heap k) (k_env k) (k_cpu k) (in_interrupt k) (threads k) (stacks k) (curthread k) x
    (sleepers k) (zombies k) (numthreads k) (pid_assign k) (runqueue k) (sems k) (locks k)
    (lbolt k) (lbolt_counter k).
Definition with_sleepers (x : option (array Z)) k : kern H R :=
  mk_kern (k_heap k) (k_env k) (k_cpu k) (in_interrupt k) (threads k) (stacks k) (curthread k)
    (prevthread k) x (zombies k) (numthreads k) (pid_assign k) (runqueue k) (sems k) (locks k)
    (lbolt k) (lbolt_counter k).
Definition with_zombies (x : option (array Z)) k : kern H R :=
  mk_kern (k_heap k) (k_env k) (k_cpu k) (in_interrupt k) (threads k) (stacks k) (curthread k)
    (prevthread k) (sleepers k) x (numthreads k) (pid_assign k) (runqueue k) (sems k) (locks k)
    (lbolt k) (lbolt_counter k).
Definition with_numthreads (x : Z) k : kern H R :=
  mk_kern (k_heap k) (k_env k) (k_cpu k) (in_interrupt k) (threads k) (stacks k) (curthread k)
    (prevthread k) (sleepers k) (zombies k) x (pid_assign k) (runqueue k) (sems k) (locks k)
    (lbolt k) (lbolt_counter k).
Definition with_pid_assign (x : Z) k : kern H R :=
  mk_kern (k_heap k) (k_env k) (k_cpu k) (in_interrupt k) (threads k) (stacks k) (curthread k)
    (prevthread k) (sleepers k) (zombies k) (numthreads k) x (runqueue k) (sems k) (locks k)
    (lbolt k) (lbolt_counter k).
Definition with_runqueue (x : option (queue Z)) k : kern H R :=
  mk_kern (k_heap k) (k_env k) (k_cpu k) (in_interrupt k) (threads k) (stacks k) (curthread k)
    (prevthread k) (sleepers k) (zombies k) (numthreads k) (pid_assign k) x (sems k) (locks k)
    (lbolt k) (lbolt_counter k).
Definition with_sems (x : gmap Z Z) k : kern H R :=
  mk_kern (k_heap k) (k_env k) (k_cpu k) (in_interrupt k) (threads k) (stacks k) (curthread k)
    (prevthread k) (sleepers k) (zombies k) (numthreads k) (pid_assign k) (runqueue k) x
    (locks k) (lbolt k) (lbolt_counter k).
Definition with_locks (x : gmap Z Z) k : kern H R :=
  mk_kern (k_heap k) (k_env k) (k_cpu k) (in_interrupt k) (threads k) (stacks k) (curthread k)
    (prevthread k) (sleepers k) (zombies k) (numthreads k) (pid_assign k) (runqueue k) (sems k)
    x (lbolt k) (lbolt_counter k).
Definition with_lbolt_counter (x : Z) k : kern H R :=
  mk_kern (k_heap k) (k_env k) (k_cpu k) (in_interrupt k) (threads k) (stacks k) (curthread k)
    (prevthread k) (sleepers k) (zombies k) (numthreads k) (pid_assign k) (runqueue k) (sems k)
    (locks k) (lbolt k) x.

End kern_set.

#[export] Program Instance kern_has_cpu {H R} : HasCpu (kern H R) :=
  { cpu_of := k_cpu; with_cpu := with_kcpu }.
Solve Obligations with by intros ?? []; simpl; try intros [].

Section thread_ops.
Context {H R : Type} `{!Heap H} `{!ProcEnv R}.

Definition on_kheap {A} (m : M H A) : M (kern H R) A := zoom k_heap with_kheap m.
Definition on_env {A} (m : M R A) : M (kern H R) A := zoom k_env with_env m.

(** Using a list through its pointer; a null pointer is a fault. *)
Definition on_runqueue {A} (m : M (queue Z * H) A) : M (kern H R) A := fun k =>
  match runqueue k with
  | None => (Panic, k)
  | Some q => let '(r, (q', h)) := m (q, k_heap k) in (r, with_runqueue (Some q') (with_kheap h k))
  end.
Definition on_sleepers {A} (m : M (array Z * H) A) : M (kern H R) A := fun k =>
  match sleepers k with
  | None => (Panic, k)
  | Some a => let '(r, (a', h)) := m (a, k_heap k) in (r, with_sleepers (Some a') (with_kheap h k))
  end.
Definition on_zombies {A} (m : M (array Z * H) A) : M (kern H R) A := fun k =>
  match zombies k with
  | None => (Panic, k)
  | Some a => let '(r, (a', h)) := m (a, k_heap k) in (r, with_zombies (Some a') (with_kheap h k))
  end.

(** The struct at [p]; a pointer to no thread is a fault. *)
Definition thr (p : Z) : M (kern H R) thread := fun k =>
  match threads k !! p with Some t => (Ret t, k) | None => (Panic, k) end.
Definition thr_set (p : Z) (f : thread -> thread) : M (kern H R) unit :=
  t <- thr p ;; modify (fun k => with_threads (<[p := f t]> (threads k)) k).
Definition push (p : Z) (fs : list frame) : M (kern H R) unit :=
  modify (fun k => with_stacks (<[p := fs ++ default [] (stacks k !! p)]> (stacks k)) k).

Definition assert_splhigh : M (kern H R) unit :=
  c <- gets k_cpu ;; assert (curspl c >? 0).

(** *** scheduler.c *)

Definition scheduler_bootstrap : M (kern H R) unit :=
  q <- on_kheap (q_create 32) ;;
  match q with
  | None => panic
  | Some q => modify (with_runqueue (Some q))
  end.

Definition scheduler_preallocate (nthreads : Z) : M (kern H R) unit :=
  assert_splhigh ;;;
  on_runqueue (q_preallocate nthreads).

(** [while (!q_empty(runqueue)) q_remhead(runqueue);] *)
Fixpoint drop_all (fuel : nat) : M (kern H R) unit :=
  empty <- on_runqueue (gets (fun s => q_empty s.1)) ;;
  if empty : bool then ret tt
  else match fuel with
  | O => spin
  | S fuel => on_runqueue q_remhead ;;; drop_all fuel
  end.

Definition scheduler_killall : M (kern H R) unit :=
  assert_splhigh ;;;
  n <- on_runqueue q_getsize ;;
  drop_all (Z.to_nat n).

Definition scheduler_shutdown : M (kern H R) unit :=
  scheduler_killall ;;;
  assert_splhigh ;;;
  on_runqueue q_destroy ;;;
  modify (with_runqueue None).

(** The scheduler finds a thread, or none: then the processor idles, with
    interrupts on, and the loop runs again. *)
Definition scheduler : M (kern H R) (option Z) :=
  assert_splhigh ;;;
  empty <- on_runqueue (gets (fun s => q_empty s.1)) ;;
  if empty : bool then ret None
  else
    t <- on_runqueue q_remhead ;;
    match t with None => panic | Some t => ret (Some t) end.

Definition make_runnable (t : Z) : M (kern H R) unit :=
  assert_splhigh ;;;
  on_runqueue (q_addtail t).

(** *** thread.c: creating and destroying *)

(** [namelen] is the length of the name. *)
Definition thread_create (namelen : Z) : M (kern H R) Z :=
  p <- on_kheap (kmalloc sizeof_thread) ;;
  if p =? 0 then ret 0
  else
    name <- on_kheap (kstrdup namelen) ;;
    if name =? 0 then on_kheap (kfree p) ;;; ret 0
    else
      l <- on_kheap (lock_create 4) ;;
      onexit <- on_kheap (cv_create 6) ;;
      toexit <- on_kheap (cv_create 6) ;;
      cur <- gets curthread ;;
      interrupt <- splhigh ;;
      n <- gets pid_assign ;;
      modify (fun k => with_threads (<[p :=
        mk_thread name namelen 0 0 [] 0 l onexit toexit cur (replicate 20 0) 100 0 n 0 0]>
        (threads k)) k) ;;;
      modify (with_pid_assign (i32 (n + 1))) ;;;
      splx interrupt ;;;
      ret p.

Definition cv_destroy_ptr (c : option cv) : M (kern H R) unit :=
  match c with None => panic | Some c => on_kheap (cv_destroy c) end.

Definition thread_destroy (p : Z) : M (kern H R) unit :=
  cur <- gets curthread ;;
  assert (negb (p =? cur)) ;;;
  t <- thr p ;;
  assert (t_vmspace t =? 0) ;;;
  assert (t_cwd t =? 0) ;;;
  (if t_stack t =? 0 then ret tt else on_kheap (kfree (t_stack t))) ;;;
  on_kheap (kfree (t_name t)) ;;;
  cv_destroy_ptr (Waitonexit t) ;;;
  cv_destroy_ptr (Waittoexit t) ;;;
  match lk t with
  | None => panic
  | Some l =>
      on_kheap (lock_destroy l) ;;;
      on_kheap (kfree p) ;;;
      modify (fun k => with_stacks (delete p (stacks k)) (with_threads (delete p (threads k)) k))
  end.

Definition exorcise : M (kern H R) unit :=
  assert_splhigh ;;;
  n <- on_zombies array_getnum ;;
  for_each (seqZ 0 n) (fun i =>
    z <- on_zombies (array_getguy i) ;;
    match z with
    | None => panic
    | Some z =>
        cur <- gets curthread ;;
        assert (negb (z =? cur)) ;;;
        thread_destroy z
    end) ;;;
  result <- result_of (on_zombies (array_setsize 0)) ;;
  assert (result =? 0).

Definition thread_killall : M (kern H R) unit :=
  assert_splhigh ;;;
  result <- result_of (on_sleepers (array_setsize 0)) ;;
  assert (result =? 0).

Definition thread_panic : M (kern H R) unit :=
  assert_splhigh ;;;
  thread_killall ;;;
  scheduler_killall.

(** "<boot/menu>" has 11 characters.  [md_initpcb0] leaves the thread in its own
    code, with nothing suspended. *)
Definition thread_bootstrap : M (kern H R) Z :=
  a <- on_kheap array_create ;;
  modify (with_sleepers a) ;;;
  match a with None => panic | Some _ => ret tt end ;;;
  a <- on_kheap array_create ;;
  modify (with_zombies a) ;;;
  match a with None => panic | Some _ => ret tt end ;;;
  me <- thread_create 11 ;;
  (if me =? 0 then panic else ret tt) ;;;
  thr_set me (set_ininterrupt 0) ;;;
  push me [] ;;;
  modify (with_curthread me) ;;;
  modify (with_numthreads 1) ;;;
  modify (with_pid_assign 0) ;;;
  ret me.

Definition thread_shutdown : M (kern H R) unit :=
  on_sleepers array_destroy ;;;
  modify (with_sleepers None) ;;;
  on_zombies array_destroy ;;;
  modify (with_zombies None).

(** The first part of [thread_fork], up to [md_initpcb]: the new thread. *)
Definition fork_create (namelen : Z) : M (kern H R) Z :=
  newguy <- thread_create namelen ;;
  if newguy =? 0 then fail ENOMEM
  else
    stack <- on_kheap (kmalloc STACK_SIZE) ;;
    if stack =? 0 then
      t <- thr newguy ;;
      on_kheap (kfree (t_name t)) ;;;
      on_kheap (kfree newguy) ;;;
      modify (fun k => with_threads (delete newguy (threads k)) k) ;;;
      fail ENOMEM
    else
      thr_set newguy (set_stack stack stack_magic) ;;;
      cur <- gets curthread ;;
      c <- thr cur ;;
      (if t_cwd c =? 0 then ret tt
       else
         on_env (env_vop_incref (t_cwd c)) ;;;
         thr_set newguy (set_resources 0 (t_cwd c))) ;;;
      push newguy [F_threadstart] ;;;
      ret newguy.

(** The first empty slot of the child table, if there is one. *)
Fixpoint add_child (p : Z) (c : list Z) : list Z :=
  match c with
  | [] => []
  | x :: c => if x =? 0 then p :: c else x :: add_child p c
  end.

(** The second part, from [splhigh] on. *)
Definition fork_start (newguy : Z) : M (kern H R) Z :=
  s <- splhigh ;;
  n <- gets numthreads ;;
  result <- result_of (
    on_sleepers (array_preallocate (n + 1)) ;;;
    on_zombies (array_preallocate (n + 1)) ;;;
    scheduler_preallocate (n + 1) ;;;
    make_runnable newguy) ;;
  if result =? 0 then
    modify (with_numthreads (n + 1)) ;;;
    cur <- gets curthread ;;
    t <- thr newguy ;;
    thr_set newguy (set_family cur (child t)) ;;;
    c <- thr cur ;;
    thr_set cur (set_family (parent c) (add_child newguy (child c))) ;;;
    splx s ;;;
    ret newguy
  else
    splx s ;;;
    t <- thr newguy ;;
    (if t_cwd t =? 0 then ret tt else on_env (env_vop_decref (t_cwd t))) ;;;
    on_kheap (kfree (t_stack t)) ;;;
    on_kheap (kfree (t_name t)) ;;;
    on_kheap (kfree newguy) ;;;
    modify (fun k => with_stacks (delete newguy (stacks k))
                       (with_threads (delete newguy (threads k)) k)) ;;;
    fail result.

(** *** thread.c: switching *)

Definition check_guard (t : thread) : M (kern H R) unit :=
  if t_stack t =? 0 then ret tt else assert (bool_decide (t_guard t = stack_magic)).

(** [mi_switch(nextstate)] up to the call of the scheduler.  [rest] are the
    frames of the routines that called it.  Answers whether the processor left
    the thread: it does not when it is in the scheduler already. *)
Definition mi_switch (nextstate : threadstate_t) (rest : list frame) : M (kern H R) bool :=
  assert_splhigh ;;;
  cur <- gets curthread ;;
  if cur =? 0 then ret false
  else
    t <- thr cur ;;
    check_guard t ;;;
    modify (with_curthread 0) ;;;
    modify (with_prevthread cur) ;;;
    push cur (F_switch :: rest) ;;;
    result <- result_of (match nextstate with
      | S_READY => make_runnable cur
      | S_SLEEP => on_sleepers (array_add cur)
      | S_ZOMB => on_zombies (array_add cur)
      | S_RUN => panic
      end) ;;
    assert (result =? 0) ;;;
    ret true.

(** The end of the scheduler and [md_switch]: [None] while there is nothing to
    run. *)
Definition dispatch : M (kern H R) (option Z) :=
  next <- scheduler ;;
  match next with
  | None => ret None
  | Some next =>
      modify (with_curthread next) ;;;
      prev <- gets prevthread ;;
      (if prev =? next then ret tt
       else
         i <- gets in_interrupt ;;
         thr_set prev (set_ininterrupt i) ;;;
         t <- thr next ;;
         modify (with_in_interrupt (pcb_ininterrupt t))) ;;;
      ret (Some next)
  end.

(** [mi_switch] after [md_switch]. *)
Definition mi_switch_return : M (kern H R) unit :=
  exorcise ;;;
  cur <- gets curthread ;;
  t <- thr cur ;;
  if t_vmspace t =? 0 then ret tt else on_env (env_as_activate (t_vmspace t)).

(** [thread_exit()], up to the switch it does not return from. *)
Definition thread_exit : M (kern H R) unit :=
  cur <- gets curthread ;;
  t <- thr cur ;;
  check_guard t ;;;
  splhigh ;;;
  (if t_vmspace t =? 0 then ret tt
   else
     thr_set cur (set_resources 0 (t_cwd t)) ;;;
     on_env (env_as_destroy (t_vmspace t))) ;;;
  (if t_cwd t =? 0 then ret tt
   else
     on_env (env_vop_decref (t_cwd t)) ;;;
     thr_set cur (set_resources 0 0)) ;;;
  n <- gets numthreads ;;
  assert (n >? 0) ;;;
  modify (with_numthreads (n - 1)) ;;;
  mi_switch S_ZOMB [F_exit] ;;;
  ret tt.

Definition thread_yield (rest : list frame) : M (kern H R) bool :=
  spl <- splhigh ;;
  k <- get ;;
  (match sleepers k with None => panic | Some _ => ret tt end) ;;;
  away <- mi_switch S_READY (F_yield spl :: rest) ;;
  if away : bool then ret true else splx spl ;;; ret false.

Definition thread_sleep (addr : Z) (rest : list frame) : M (kern H R) unit :=
  i <- gets in_interrupt ;;
  assert (i =? 0) ;;;
  cur <- gets curthread ;;
  thr_set cur (set_sleepaddr addr) ;;;
  mi_switch S_SLEEP (F_sleep :: rest) ;;;
  ret tt.

(** The loop of [thread_wakeup]; [i] stays where it is after a removal. *)
Fixpoint wakeup_loop (fuel : nat) (addr i : Z) : M (kern H R) unit :=
  n <- on_sleepers array_getnum ;;
  if i <? n then
    match fuel with
    | O => spin
    | S fuel =>
        g <- on_sleepers (array_getguy i) ;;
        match g with
        | None => panic
        | Some p =>
            t <- thr p ;;
            if t_sleepaddr t =? addr then
              on_sleepers (array_remove i) ;;;
              result <- result_of (make_runnable p) ;;
              assert (result =? 0) ;;;
              wakeup_loop fuel addr i
            else wakeup_loop fuel addr (i + 1)
        end
    end
  else ret tt.

Definition thread_wakeup (addr : Z) : M (kern H R) unit :=
  assert_splhigh ;;;
  n <- on_sleepers array_getnum ;;
  wakeup_loop (Z.to_nat n) addr 0.

Definition thread_wakeone (addr : Z) : M (kern H R) unit :=
  assert_splhigh ;;;
  n <- on_sleepers array_getnum ;;
  for_find (seqZ 0 n) (fun i =>
    g <- on_sleepers (array_getguy i) ;;
    match g with
    | None => panic
    | Some p =>
        t <- thr p ;;
        if t_sleepaddr t =? addr then
          on_sleepers (array_remove i) ;;;
          result <- result_of (make_runnable p) ;;
          assert (result =? 0) ;;;
          ret (Some tt)
        else ret None
    end) ;;;
  ret tt.

Definition thread_hassleepers (addr : Z) : M (kern H R) bool :=
  assert_splhigh ;;;
  n <- on_sleepers array_getnum ;;
  r <- for_find (seqZ 0 n) (fun i =>
    g <- on_sleepers (array_getguy i) ;;
    match g with
    | None => panic
    | Some p =>
        t <- thr p ;;
        ret (if t_sleepaddr t =? addr then Some tt else None)
    end) ;;
  ret (match r with Some _ => true | None => false end).

End thread_ops.

(** ** The lists of threads

    [lists] are the three lists with the heap they live in; states are written
    [put_lists L k].  [trep L T rq sl zb bs]: the run queue holds [rq], the
    sleepers are [sl], the zombies [zb]; the heap blocks of the lists and of the
    threads [T] are accounted for, next to the blocks [bs] of other owners. *)

Record lists (H : Type) := mk_lists {
  l_heap : H;
  l_runqueue : queue Z;
  l_sleepers : array Z;
  l_zombies : array Z;
}.
Arguments mk_lists {H}.
Arguments l_heap {H}.
Arguments l_runqueue {H}.
Arguments l_sleepers {H}.
Arguments l_zombies {H}.

Definition put_lists {H R} (L : lists H) (k : kern H R) : kern H R :=
  with_kheap (l_heap L) (with_runqueue (Some (l_runqueue L))
    (with_sleepers (Some (l_sleepers L)) (with_zombies (Some (l_zombies L)) k))).

Definition cv_blocks (c : cv) (len : Z) : list (Z * Z) := [(cv_name c, len + 1); (cv_self c, 4)].

Definition tblocks (p : Z) (t : thread) : list (Z * Z) :=
  [(p, sizeof_thread); (t_name t, t_namelen t + 1)] ++
  (if t_stack t =? 0 then [] else [(t_stack t, STACK_SIZE)]) ++
  (match lk t with Some l => lock_blocks l 4 | None => [] end) ++
  (match Waitonexit t with Some c => cv_blocks c 6 | None => [] end) ++
  (match Waittoexit t with Some c => cv_blocks c 6 | None => [] end).

Definition all_tblocks (T : gmap Z thread) : list (Z * Z) :=
  map_to_list T ≫= fun x => tblocks x.1 x.2.

Definition qshape (q : queue Z) (l : list Z) : Prop := ring_ok q /\ size q <= 2 ^ 26 /\ holds q l.

Definition ashape (a : array Z) (l : list Z) : Prop :=
  0 <= num a <= max a /\ max a <= 2 ^ 28 /\ length (slots a) = Z.to_nat (max a) /\
  (0 < max a -> v a <> 0) /\ contents a = Some <$> l.

Lemma all_tblocks_lookup T p t : T !! p = Some t ->
  all_tblocks T ≡ₚ tblocks p t ++ all_tblocks (delete p T).
Proof.
  intros Hp. unfold all_tblocks. rewrite <- (insert_delete_id T p t Hp) at 1.
  rewrite map_to_list_insert by apply lookup_delete_eq. by rewrite bind_cons.
Qed.

Lemma all_tblocks_insert T p t : T !! p = None ->
  all_tblocks (<[p := t]> T) ≡ₚ tblocks p t ++ all_tblocks T.
Proof. intros Hp. unfold all_tblocks. rewrite map_to_list_insert by done. by rewrite bind_cons. Qed.

(** Changing a thread without touching its blocks. *)
Lemma all_tblocks_update T p t t' : T !! p = Some t -> tblocks p t' = tblocks p t ->
  all_tblocks (<[p := t']> T) ≡ₚ all_tblocks T.
Proof.
  intros Hp Hb. rewrite (all_tblocks_lookup (<[p := t']> T) p t') by apply lookup_insert_eq.
  rewrite (all_tblocks_lookup T p t Hp), Hb, delete_insert_eq. done.
Qed.

Lemma ashape_length a l : ashape a l -> num a = Z.of_nat (length l).
Proof.
  intros (? & ? & Hl & _ & Hc). apply (f_equal length) in Hc.
  rewrite contents_length, length_fmap in Hc by done. lia.
Qed.

Section lists.
Context {H R : Type} `{HeapLaws H} `{!ProcEnv R}.
Implicit Types (L : lists H) (k : kern H R) (T : gmap Z thread) (rq sl zb : list Z).

Record trep L T rq sl zb (bs : list (Z * Z)) : Prop := {
  tr_heap : heap_ok (l_heap L);
  tr_owns : owns (l_heap L) (q_blocks (l_runqueue L) ++ blocks (l_sleepers L) ++
              blocks (l_zombies L) ++ all_tblocks T ++ bs);
  tr_rq : qshape (l_runqueue L) rq;
  tr_sl : ashape (l_sleepers L) sl;
  tr_zb : ashape (l_zombies L) zb;
}.

Lemma trep_queue L T rq sl zb bs : trep L T rq sl zb bs ->
  queue_at (l_runqueue L) (l_heap L)
    (blocks (l_sleepers L) ++ blocks (l_zombies L) ++ all_tblocks T ++ bs) rq.
Proof.
  intros [Hok Ho ((? & ? & ? & ?) & ? & ?) _ _]. unfold queue_at. conj.
Qed.

Lemma trep_queue_put L T rq sl zb bs q h rq' : trep L T rq sl zb bs ->
  queue_at q h (blocks (l_sleepers L) ++ blocks (l_zombies L) ++ all_tblocks T ++ bs) rq' ->
  size q <= 2 ^ 26 ->
  trep (mk_lists h q (l_sleepers L) (l_zombies L)) T rq' sl zb bs.
Proof.
  intros [_ _ _ Hsl Hzb] (Hok & Hs & Hl & Hr & Hw & Ho & Hh) Hsz. split; simpl; [done|done| |done|done].
  unfold qshape, ring_ok. conj.
Qed.

Lemma trep_sleepers L T rq sl zb bs : trep L T rq sl zb bs ->
  array_at (l_sleepers L) (l_heap L)
    (q_blocks (l_runqueue L) ++ blocks (l_zombies L) ++ all_tblocks T ++ bs).
Proof.
  intros [Hok Ho _ (? & ? & ? & ? & _) _]. unfold array_at. conj.
  eapply owns_perm; [|exact Ho]. solve_Permutation.
Qed.

Lemma trep_sleepers_put L T rq sl zb bs a h sl' : trep L T rq sl zb bs ->
  array_at a h (q_blocks (l_runqueue L) ++ blocks (l_zombies L) ++ all_tblocks T ++ bs) ->
  contents a = Some <$> sl' ->
  trep (mk_lists h (l_runqueue L) a (l_zombies L)) T rq sl' zb bs.
Proof.
  intros [_ _ Hrq _ Hzb] (Hok & ? & ? & ? & ? & Ho) Hc. split; simpl; [done| |done| |done].
  - eapply owns_perm; [|exact Ho]. solve_Permutation.
  - unfold ashape. conj.
Qed.

Lemma trep_zombies L T rq sl zb bs : trep L T rq sl zb bs ->
  array_at (l_zombies L) (l_heap L)
    (q_blocks (l_runqueue L) ++ blocks (l_sleepers L) ++ all_tblocks T ++ bs).
Proof.
  intros [Hok Ho _ _ (? & ? & ? & ? & _)]. unfold array_at. conj.
  eapply owns_perm; [|exact Ho]. solve_Permutation.
Qed.

Lemma trep_zombies_put L T rq sl zb bs a h zb' : trep L T rq sl zb bs ->
  array_at a h (q_blocks (l_runqueue L) ++ blocks (l_sleepers L) ++ all_tblocks T ++ bs) ->
  contents a = Some <$> zb' ->
  trep (mk_lists h (l_runqueue L) (l_sleepers L) a) T rq sl zb' bs.
Proof.
  intros [_ _ Hrq Hsl _] (Hok & ? & ? & ? & ? & Ho) Hc. split; simpl; [done| |done|done|].
  - eapply owns_perm; [|exact Ho]. solve_Permutation.
  - unfold ashape. conj.
Qed.

(** *** Running on one of the lists *)

Lemma runs_runqueue {A} (m : M (queue Z * H) A) L k Q E :
  runs m (l_runqueue L, l_heap L)
    (fun a s => Q a (put_lists (mk_lists s.2 s.1 (l_sleepers L) (l_zombies L)) k))
    (fun e s => E e (put_lists (mk_lists s.2 s.1 (l_sleepers L) (l_zombies L)) k)) ->
  runs (on_runqueue m) (put_lists L k) Q E.
Proof. unfold runs, on_runqueue. simpl. by destruct (m _) as [[] []]. Qed.

Lemma runs_sleepers {A} (m : M (array Z * H) A) L k Q E :
  runs m (l_sleepers L, l_heap L)
    (fun a s => Q a (put_lists (mk_lists s.2 (l_runqueue L) s.1 (l_zombies L)) k))
    (fun e s => E e (put_lists (mk_lists s.2 (l_runqueue L) s.1 (l_zombies L)) k)) ->
  runs (on_sleepers m) (put_lists L k) Q E.
Proof. unfold runs, on_sleepers. simpl. by destruct (m _) as [[] []]. Qed.

Lemma runs_zombies {A} (m : M (array Z * H) A) L k Q E :
  runs m (l_zombies L, l_heap L)
    (fun a s => Q a (put_lists (mk_lists s.2 (l_runqueue L) (l_sleepers L) s.1) k))
    (fun e s => E e (put_lists (mk_lists s.2 (l_runqueue L) (l_sleepers L) s.1) k)) ->
  runs (on_zombies m) (put_lists L k) Q E.
Proof. unfold runs, on_zombies. simpl. by destruct (m _) as [[] []]. Qed.

Lemma put_lists_eta L k : put_lists (mk_lists (l_heap L) (l_runqueue L) (l_sleepers L) (l_zombies L)) k
  = put_lists L k.
Proof. done. Qed.

(** *** Room for threads

    [can_queue L n]: the run queue can be made to hold [n] threads, with at most
    one allocation, for which there is memory. *)

Definition can_queue L (n : Z) : Prop :=
  n < size (l_runqueue L) \/ (mem_left (l_heap L) /\ n < size (l_runqueue L) * 2).

(** Only the run queue and the sleepers change; the run queue does not shrink. *)
Definition relist L L' : Prop :=
  l_zombies L' = l_zombies L /\ size (l_runqueue L) <= size (l_runqueue L').

Lemma relist_trans L1 L2 L3 : relist L1 L2 -> relist L2 L3 -> relist L1 L3.
Proof. unfold relist. intros [] []. split; [congruence|lia]. Qed.

(** The same for a step that queues threads, and still [n] threads can be queued.
    It takes no memory if the queue has room for [n]. *)
Record requeue (n : Z) L L' : Prop := {
  kp_moved : relist L L';
  kp_queue : can_queue L' n;
  kp_heap : n < size (l_runqueue L) -> l_heap L' = l_heap L;
  kp_max : max (l_sleepers L') = max (l_sleepers L);
}.

Lemma requeue_refl n L : can_queue L n -> requeue n L L.
Proof. split; [by split|done..]. Qed.

Lemma requeue_trans n L1 L2 L3 : requeue n L1 L2 -> requeue n L2 L3 -> requeue n L1 L3.
Proof.
  intros [[] ? Hh ?] [[] ? Hh' ?]. split; [split; [congruence|lia]|done| |congruence].
  intros ?. rewrite Hh', Hh by lia. done.
Qed.

Lemma make_runnable_runs L k T rq sl zb bs t n :
  trep L T rq sl zb bs -> 0 < curspl (k_cpu k) ->
  Z.of_nat (length rq) < n <= 2 ^ 24 -> can_queue L n ->
  runs (make_runnable t) (put_lists L k)
    (fun _ k' => exists L', k' = put_lists L' k /\ trep L' T (rq ++ [t]) sl zb bs /\
       requeue n L L' /\ l_sleepers L' = l_sleepers L)
    (fun _ _ => False).
Proof.
  intros Hr Hspl Hn Hc. pose proof (trep_queue _ _ _ _ _ _ Hr) as Hq.
  pose proof (queue_at_ring _ _ _ _ Hq) as Hring.
  pose proof Hr as [_ _ (_ & Hs26 & Hh) _ _].
  pose proof (holds_length _ _ Hring Hh) as Hlen. pose proof Hring as (Hpos & _).
  unfold make_runnable, assert_splhigh. run; [simpl; lia|]. apply runs_runqueue.
  destruct (decide (Z.of_nat (length rq) < size (l_runqueue L) - 1)) as [Hlt|Hfull].
  - eapply runs_intro_ret; [by eapply q_addtail_spare|].
    eexists. split; [done|]. split_and!; [|split; [split; simpl; [done|lia]|done..]|done].
    by eapply trep_queue_put; [done|apply write_tail_at|].
  - destruct Hc as [Hc|[Hmem Hc]]; [lia|].
    eapply runs_mono; [eapply (q_addtail_full _ _ _ _ t Hq); lia| |].
    + intros [] [q' h'] [Hq' Hs']; simpl in *. eexists. split; [done|].
      split_and!; [|split; [split; simpl; [done|lia]|left; simpl; lia|lia|done]|done].
      eapply trep_queue_put; [done|done|lia].
    + intros e s (_ & _ & _ & Hk). exfalso. eapply Hmem; [|exact Hk]. lia.
Qed.

(** *** Waking up *)

Definition sleeps_on T (addr p : Z) : bool :=
  match T !! p with Some t => t_sleepaddr t =? addr | None => false end.
Definition awake T addr (l : list Z) : list Z := filter (fun p => sleeps_on T addr p = true) l.
Definition asleep T addr (l : list Z) : list Z := filter (fun p => sleeps_on T addr p = false) l.

Lemma awake_cons T addr p l : awake T addr (p :: l) =
  if sleeps_on T addr p then p :: awake T addr l else awake T addr l.
Proof.
  unfold awake. rewrite filter_cons. by destruct (sleeps_on T addr p); case_decide.
Qed.

Lemma asleep_cons T addr p l : asleep T addr (p :: l) =
  if sleeps_on T addr p then asleep T addr l else p :: asleep T addr l.
Proof.
  unfold asleep. rewrite filter_cons. by destruct (sleeps_on T addr p); case_decide.
Qed.

Lemma awake_asleep T addr l : l ≡ₚ awake T addr l ++ asleep T addr l.
Proof.
  induction l as [|p l IH]; [done|]. rewrite awake_cons, asleep_cons.
  destruct (sleeps_on T addr p); simpl; [by rewrite <- IH|]. rewrite IH at 1. by rewrite Permutation_middle.
Qed.

Lemma thr_runs p k t (Q : thread -> kern H R -> Prop) E :
  threads k !! p = Some t -> Q t k -> runs (thr p) k Q E.
Proof. unfold runs, thr. by intros ->. Qed.

Lemma getguy_runs L k T rq sl zb bs i p (Q : option Z -> kern H R -> Prop) E :
  trep L T rq sl zb bs -> sl !! i = Some p -> Q (Some p) (put_lists L k) ->
  runs (on_sleepers (array_getguy (Z.of_nat i))) (put_lists L k) Q E.
Proof.
  intros Hr Hp HQ. pose proof (trep_sleepers _ _ _ _ _ _ Hr) as Ha.
  destruct Hr as [_ _ _ Hsl _]. pose proof (ashape_length _ _ Hsl) as Hl.
  destruct Hsl as (_ & _ & _ & _ & Hc). pose proof (lookup_lt_Some _ _ _ Hp).
  destruct (array_getguy_spec _ _ _ (Z.of_nat i) Ha) as (x & Hx & He); [lia|].
  rewrite Nat2Z.id, Hc, list_lookup_fmap, Hp in Hx. simplify_eq/=.
  apply runs_sleepers. by eapply runs_intro_ret.
Qed.

Lemma runs_then {S A B C} (m1 : M S A) (m2 : M S B) (f : B -> M S unit) (g : M S C) (s : S) Q E :
  runs (m1 ;;; r <- m2 ;; f r) s (fun _ s' => runs g s' Q E) E ->
  runs (m1 ;;; r <- m2 ;; f r ;;; g) s Q E.
Proof.
  unfold runs, bind. destruct (m1 s) as [[] s1]; try done. destruct (m2 s1) as [[b| | |] s2]; try done.
  by destruct (f b s2) as [[] ?].
Qed.

(** Taking a sleeper off the list and making it runnable. *)
Lemma wake_one_runs L k T rq pre p post zb bs n :
  trep L T rq (pre ++ p :: post) zb bs -> 0 < curspl (k_cpu k) ->
  Z.of_nat (length rq) < n <= 2 ^ 24 -> can_queue L n ->
  runs (on_sleepers (array_remove (Z.of_nat (length pre))) ;;;
        result <- result_of (make_runnable p) ;; assert (result =? 0)) (put_lists L k)
    (fun _ k' => exists L', k' = put_lists L' k /\ trep L' T (rq ++ [p]) (pre ++ post) zb bs /\
       requeue n L L')
    (fun _ _ => False).
Proof.
  intros Hr Hspl Hn Hc. pose proof (trep_sleepers _ _ _ _ _ _ Hr) as Ha.
  pose proof Hr as [_ _ _ Hsl _]. pose proof (ashape_length _ _ Hsl) as Hl.
  pose proof Hsl as (_ & _ & _ & _ & Hco). rewrite length_app in Hl; simpl in Hl.
  apply runs_bind. apply runs_sleepers.
  eapply runs_mono; [eapply array_remove_spec; [exact Ha|lia]| |done].
  intros [] [a' h'] (Ha' & Hh & Hn' & Hmx & Hc'); simpl in *. subst h'.
  set (L1 := mk_lists _ _ _ _).
  assert (trep L1 T rq (pre ++ post) zb bs) as Hr1.
  { eapply trep_sleepers_put; [done|done|].
    rewrite Hc', Hco, Nat2Z.id, <- (length_fmap Some pre), !fmap_app, fmap_cons. apply delete_middle. }
  apply runs_bind, runs_result_of.
  eapply runs_mono; [by eapply (make_runnable_runs L1 k T rq)| |done].
  intros [] k' (L' & -> & Hr' & Hm & _). apply runs_assert; [done|].
  exists L'. split_and!; [done|done|]. eapply requeue_trans; [|exact Hm]. by split; [split|..].
Qed.

Lemma wakeup_loop_runs fuel L k rq pre post zb bs addr n :
  trep L (threads k) rq (pre ++ post) zb bs -> 0 < curspl (k_cpu k) ->
  (forall p, p ∈ post -> is_Some (threads k !! p)) ->
  (length post <= fuel)%nat ->
  Z.of_nat (length rq + length (awake (threads k) addr post)) <= n <= 2 ^ 24 -> can_queue L n ->
  runs (wakeup_loop fuel addr (Z.of_nat (length pre))) (put_lists L k)
    (fun _ k' => exists L', k' = put_lists L' k /\
       trep L' (threads k) (rq ++ awake (threads k) addr post)
         (pre ++ asleep (threads k) addr post) zb bs /\
       requeue n L L')
    (fun _ _ => False).
Proof.
  revert L rq pre fuel. induction post as [|p post IH]; intros L rq pre fuel Hr Hspl Hex Hf Hn Hc.
  - pose proof Hr as [_ _ _ Hsl _]. pose proof (ashape_length _ _ Hsl) as Hl.
    rewrite app_nil_r in Hl. destruct fuel as [|fuel]; simpl;
    (apply runs_bind, runs_sleepers; eapply runs_intro_ret; [reflexivity|]; simpl; zbool;
     apply runs_ret; exists L; unfold awake, asleep; rewrite !filter_nil, !app_nil_r in *; split_and!; [done|done|by apply requeue_refl]).
  - simpl in Hf. destruct fuel as [|fuel]; [lia|]. simpl.
    pose proof Hr as [_ _ _ Hsl _]. pose proof (ashape_length _ _ Hsl) as Hl.
    rewrite length_app in Hl; simpl in Hl.
    apply runs_bind, runs_sleepers; eapply runs_intro_ret; [reflexivity|]; simpl. zbool.
    rewrite put_lists_eta.
    apply runs_bind. eapply getguy_runs; [done|by apply list_lookup_middle|].
    destruct (Hex p) as [t Ht]; [set_solver|].
    apply runs_bind. eapply thr_runs; [exact Ht|].
    rewrite awake_cons in Hn |- *. rewrite asleep_cons.
    assert (sleeps_on (threads k) addr p = (t_sleepaddr t =? addr)) as Hs
      by (unfold sleeps_on; by rewrite Ht). rewrite Hs in *.
    destruct (t_sleepaddr t =? addr).
    + eapply runs_then, runs_mono; [eapply wake_one_runs; [done..| |done]; simpl in Hn; lia| |done].
      intros [] k' (L1 & -> & Hr1 & Hm1).
      eapply runs_mono; [eapply (IH L1); [done|done|set_solver|lia| |apply Hm1]| |done].
      { rewrite length_app. simpl in Hn |- *. lia. }
      intros [] k' (L2 & -> & Hr2 & Hm2). exists L2.
      rewrite <- app_assoc in Hr2. split_and!; [done|done|by eapply requeue_trans].
    + replace (Z.of_nat (length pre) + 1) with (Z.of_nat (length (pre ++ [p])))
        by (rewrite length_app; simpl; lia).
      rewrite (cons_middle p pre), (app_assoc pre) in Hr.
      eapply runs_mono; [eapply (IH L rq (pre ++ [p]) fuel); [done|done|set_solver|lia|lia|done]| |done].
      intros [] k' (L2 & -> & Hr2 & ?). exists L2. by rewrite <- app_assoc in Hr2.
Qed.

Lemma thread_wakeup_runs L k rq sl zb bs addr n :
  trep L (threads k) rq sl zb bs -> 0 < curspl (k_cpu k) ->
  (forall p, p ∈ sl -> is_Some (threads k !! p)) ->
  Z.of_nat (length rq + length (awake (threads k) addr sl)) <= n <= 2 ^ 24 -> can_queue L n ->
  runs (thread_wakeup addr) (put_lists L k)
    (fun _ k' => exists L', k' = put_lists L' k /\
       trep L' (threads k) (rq ++ awake (threads k) addr sl) (asleep (threads k) addr sl) zb bs /\
       requeue n L L')
    (fun _ _ => False).
Proof.
  intros Hr Hspl Hex Hn Hc. unfold thread_wakeup, assert_splhigh. run; [simpl; lia|].
  apply runs_sleepers. eapply runs_intro_ret; [reflexivity|]. cbn [fst snd]. rewrite put_lists_eta.
  pose proof Hr as [_ _ _ Hsl _]. pose proof (ashape_length _ _ Hsl) as Hl.
  apply (wakeup_loop_runs _ L k rq [] sl zb bs addr n); [done|done|done| |done|done].
  simpl. lia.
Qed.

Lemma getguy_eq L k T rq sl zb bs i p :
  trep L T rq sl zb bs -> sl !! i = Some p ->
  on_sleepers (array_getguy (Z.of_nat i)) (put_lists L k) = (Ret (Some p), put_lists L k).
Proof.
  intros Hr Hp. pose proof (getguy_runs L k T rq sl zb bs i p
    (fun a k' => a = Some p /\ k' = put_lists L k) (fun _ _ => False) Hr Hp ltac:(done)) as Hg.
  by destruct (runs_elim _ _ _ _ Hg) as [(a & k' & -> & -> & ->)|(? & ? & _ & [])].
Qed.

(** The first sleeper on [addr], if there is one, is made runnable. *)
Lemma thread_wakeone_runs L k rq sl zb bs addr n :
  trep L (threads k) rq sl zb bs -> 0 < curspl (k_cpu k) ->
  (forall p, p ∈ sl -> is_Some (threads k !! p)) ->
  Z.of_nat (length rq) < n <= 2 ^ 24 -> can_queue L n ->
  runs (thread_wakeone addr) (put_lists L k)
    (fun _ k' => exists L', k' = put_lists L' k /\ requeue n L L' /\
       ((awake (threads k) addr sl = [] /\ trep L' (threads k) rq sl zb bs) \/
        exists pre p post, sl = pre ++ p :: post /\ awake (threads k) addr pre = [] /\
          sleeps_on (threads k) addr p = true /\
          trep L' (threads k) (rq ++ [p]) (pre ++ post) zb bs))
    (fun _ _ => False).
Proof.
  intros Hr Hspl Hex Hn Hc. unfold thread_wakeone, assert_splhigh. run; [simpl; lia|].
  apply runs_sleepers. eapply runs_intro_ret; [reflexivity|]. cbn [fst snd]. rewrite put_lists_eta.
  pose proof Hr as [_ _ _ Hsl _]. pose proof (ashape_length _ _ Hsl) as Hl. rewrite Hl. apply runs_bind.
  set (body := fun i : Z => _).
  assert (forall i p, sl !! i = Some p -> sleeps_on (threads k) addr p = false ->
    body (Z.of_nat i) (put_lists L k) = (Ret None, put_lists L k)) as Hskip.
  { intros i p Hp Hs. unfold body, bind. rewrite (getguy_eq _ _ _ _ _ _ _ _ _ Hr Hp).
    destruct (Hex p) as [t Ht]; [by eapply list_elem_of_lookup_2|]. unfold thr.
    unfold sleeps_on in Hs. rewrite Ht in Hs. simpl. by rewrite Ht, Hs. }
  destruct (list_find (fun p => sleeps_on (threads k) addr p = true) sl) as [[i p]|] eqn:E.
  - apply list_find_Some in E as (Hi & Hs & Hpre).
    pose proof (take_drop_middle _ _ _ Hi) as Hsp.
    pose proof (lookup_lt_Some _ _ _ Hi) as Hlt.
    assert (length (take i sl) = i) as Hti by (rewrite length_take; lia).
    destruct (Hex p) as [t Ht]; [by eapply list_elem_of_lookup_2|].
    assert (t_sleepaddr t =? addr = true) as Hta by (unfold sleeps_on in Hs; by rewrite Ht in Hs).
    assert (trep L (threads k) rq (take i sl ++ p :: drop (S i) sl) zb bs) as Hr0 by (by rewrite Hsp).
    pose proof (wake_one_runs L k (threads k) rq (take i sl) p (drop (S i) sl) zb bs n Hr0 Hspl Hn Hc) as Hw.
    rewrite Hti in Hw.
    destruct (runs_elim _ _ _ _ Hw) as [([] & k' & He & L' & -> & Hr' & Hm)|(? & ? & _ & [])].
    rewrite (seqZ_split _ (Z.of_nat i)) by lia.
    eapply runs_intro_ret.
    { apply for_find_first; cycle 1.
      - unfold body. unfold bind at 1. rewrite (getguy_eq _ _ _ _ _ _ _ _ _ Hr Hi).
        unfold bind at 1. unfold thr. simpl. rewrite Ht, Hta.
        unfold bind in He |- *. destruct (on_sleepers _ _) as [[] k1]; try done.
        destruct (result_of _ _) as [[] k2]; try done. by rewrite He.
      - intros y Hy%elem_of_seqZ.
        destruct (lookup_lt_is_Some_2 sl (Z.to_nat y)) as [py Hpy]; [lia|].
        rewrite <- (Z2Nat.id y) by lia. eapply Hskip; [done|].
        apply not_true_is_false. eapply Hpre; [done|lia]. }
    apply runs_ret. exists L'. split_and!; [done..|]. right.
    exists (take i sl), p, (drop (S i) sl). split_and!; [done| |done|done].
    apply elem_of_nil_inv. intros x [Hx Hin]%list_elem_of_filter.
    apply elem_of_take in Hin as (j & Hj & Hji). by apply (Hpre j x).
  - apply list_find_None in E. rewrite Forall_forall in E.
    eapply runs_intro_ret.
    { apply for_find_none. intros y Hy%elem_of_seqZ.
      destruct (lookup_lt_is_Some_2 sl (Z.to_nat y)) as [py Hpy]; [lia|].
      rewrite <- (Z2Nat.id y) by lia. eapply Hskip; [done|].
      apply not_true_is_false. by apply E, (list_elem_of_lookup_2 _ (Z.to_nat y)). }
    apply runs_ret. exists L. split; [done|]. split; [by apply requeue_refl|].
    left. split; [|done]. apply elem_of_nil_inv. intros x [Hx Hin]%list_elem_of_filter. by apply (E x).
Qed.

Lemma thread_wakeone_nil L k T rq zb bs addr :
  trep L T rq [] zb bs -> 0 < curspl (k_cpu k) ->
  thread_wakeone addr (put_lists L k) = (Ret tt, put_lists L k).
Proof.
  intros [_ _ _ Hsl _] Hspl. pose proof (ashape_length _ _ Hsl) as Hl. simpl in Hl.
  unfold thread_wakeone, assert_splhigh, bind, gets, assert. simpl. zbool.
  unfold on_sleepers at 1. simpl. by rewrite Hl.
Qed.

(** *** Leaving and entering a thread *)

Definition guard_ok (t : thread) : Prop := t_stack t = 0 \/ t_guard t = stack_magic.

(** The state in the scheduler, after [cur] has been left. *)
Definition leave (cur : Z) (rest : list frame) k : kern H R :=
  with_stacks (<[cur := (F_switch :: rest) ++ default [] (stacks k !! cur)]> (stacks k))
    (with_prevthread cur (with_curthread 0 k)).

(** Where [mi_switch] puts the thread. *)
Definition stash (nextstate : threadstate_t) (cur : Z) : M (kern H R) unit :=
  match nextstate with
  | S_READY => make_runnable cur
  | S_SLEEP => on_sleepers (array_add cur)
  | S_ZOMB => on_zombies (array_add cur)
  | S_RUN => panic
  end.

Lemma mi_switch_runs st rest L k cur t (Q : kern H R -> Prop) E :
  0 < curspl (k_cpu k) -> curthread k = cur -> cur <> 0 -> threads k !! cur = Some t ->
  guard_ok t ->
  runs (stash st cur) (put_lists L (leave cur rest k)) (fun _ k' => Q k') (fun _ _ => False) ->
  runs (mi_switch st rest) (put_lists L k) (fun b k' => b = true /\ Q k') E.
Proof.
  intros Hspl Hcur Hc0 Ht Hg Hs. unfold mi_switch, assert_splhigh. run; [simpl; lia|].
  simpl. rewrite Hcur. zbool. run. eapply thr_runs; [exact Ht|]. cbn beta. run.
  assert (check_guard t (put_lists L k) = (Ret tt, put_lists L k)) as Hck.
  { unfold check_guard, guard_ok in *. destruct Hg as [->|Hg]; [done|].
    destruct (_ =? 0); [done|]. unfold assert. by rewrite bool_decide_true. }
  eapply runs_intro_ret; [exact Hck|]. unfold push. run. fold (stash st cur).
  change (with_stacks _ _) with (put_lists L (leave cur rest k)).
  eapply runs_mono; [exact Hs| |done]. intros [] k' HQ. run; done.
Qed.

Lemma array_add_room (a : array Z) h bs x :
  array_at a h bs -> num a < 2 ^ 27 -> num a < max a \/ mem_left h ->
  runs (array_add x) (a, h)
    (fun _ s => array_at s.1 s.2 bs /\ contents s.1 = contents a ++ [Some x])
    (fun _ _ => False).
Proof.
  intros Ha Hn Hroom. destruct (decide (num a < max a)) as [Hlt|Hge].
  - eapply runs_intro_ret; [by eapply array_add_reserved|]. by apply array_at_reserved.
  - eapply runs_mono; [by apply (array_add_spec a h bs x)| |]; [tauto|].
    intros e s (_ & _ & _ & Hex). eapply mem_left_not_exhausted; [|exact Hex]. tauto.
Qed.

Lemma stash_ready_runs L k rq sl zb bs cur n :
  trep L (threads k) rq sl zb bs -> 0 < curspl (k_cpu k) ->
  Z.of_nat (length rq) < n <= 2 ^ 24 -> can_queue L n ->
  runs (stash S_READY cur) (put_lists L k)
    (fun _ k' => exists L', k' = put_lists L' k /\ trep L' (threads k) (rq ++ [cur]) sl zb bs /\
       relist L L')
    (fun _ _ => False).
Proof.
  intros. eapply runs_mono; [by eapply make_runnable_runs| |done].
  intros [] k' (L' & ? & ? & [? _ _ _] & ?). eauto.
Qed.

Lemma stash_sleep_runs L k rq sl zb bs cur :
  trep L (threads k) rq sl zb bs -> Z.of_nat (length sl) < 2 ^ 24 ->
  num (l_sleepers L) < max (l_sleepers L) \/ mem_left (l_heap L) ->
  runs (stash S_SLEEP cur) (put_lists L k)
    (fun _ k' => exists L', k' = put_lists L' k /\ trep L' (threads k) rq (sl ++ [cur]) zb bs /\
       relist L L')
    (fun _ _ => False).
Proof.
  intros Hr Hn Hroom. pose proof (trep_sleepers _ _ _ _ _ _ Hr) as Ha.
  pose proof Hr as [_ _ _ Hsl _]. pose proof (ashape_length _ _ Hsl) as Hl.
  destruct Hsl as (_ & _ & _ & _ & Hc). apply runs_sleepers.
  eapply runs_mono; [eapply array_add_room; [exact Ha|lia|done]| |done].
  intros [] [a' h'] [Ha' Hc']; simpl in *. eexists. split; [done|]. split; [|split; simpl; [done|lia]].
  eapply trep_sleepers_put; [done|done|]. by rewrite Hc', Hc, fmap_app.
Qed.

Lemma stash_zomb_runs L k rq sl zb bs cur :
  trep L (threads k) rq sl zb bs -> Z.of_nat (length zb) < 2 ^ 24 ->
  num (l_zombies L) < max (l_zombies L) \/ mem_left (l_heap L) ->
  runs (stash S_ZOMB cur) (put_lists L k)
    (fun _ k' => exists L', k' = put_lists L' k /\ trep L' (threads k) rq sl (zb ++ [cur]) bs /\
       l_runqueue L' = l_runqueue L)
    (fun _ _ => False).
Proof.
  intros Hr Hn Hroom. pose proof (trep_zombies _ _ _ _ _ _ Hr) as Ha.
  pose proof Hr as [_ _ _ _ Hzb]. pose proof (ashape_length _ _ Hzb) as Hl.
  destruct Hzb as (_ & _ & _ & _ & Hc). apply runs_zombies.
  eapply runs_mono; [eapply array_add_room; [exact Ha|lia|done]| |done].
  intros [] [a' h'] [Ha' Hc']; simpl in *. eexists. split; [done|]. split; [|done].
  eapply trep_zombies_put; [done|done|]. by rewrite Hc', Hc, fmap_app.
Qed.

Lemma gmap_alter_as_insert {A} (f : A -> A) (m : gmap Z A) i x :
  m !! i = Some x -> alter f i m = <[i := f x]> m.
Proof.
  intros Hx. apply map_eq. intros j. destruct (decide (i = j)) as [->|Hne].
  - by rewrite lookup_alter_eq, lookup_insert_eq, Hx.
  - by rewrite lookup_alter_ne, lookup_insert_ne.
Qed.

Lemma trep_update L T rq sl zb bs p t t' : trep L T rq sl zb bs ->
  T !! p = Some t -> tblocks p t' = tblocks p t -> trep L (<[p := t']> T) rq sl zb bs.
Proof.
  intros [Hok Ho Hrq Hsl Hzb] Hp Hb. split; [done| |done..].
  eapply owns_perm; [|exact Ho]. by rewrite (all_tblocks_update T p t t').
Qed.

(** The state after the switch to [next]. *)
Definition enter (next : Z) k : kern H R :=
  let k1 := with_curthread next k in
  if prevthread k =? next then k1
  else
    with_in_interrupt (match threads k !! next with Some t => pcb_ininterrupt t | None => 0 end)
      (with_threads (alter (set_ininterrupt (in_interrupt k)) (prevthread k) (threads k)) k1).

Lemma dispatch_runs L k next rq sl zb bs t :
  trep L (threads k) (next :: rq) sl zb bs -> 0 < curspl (k_cpu k) ->
  is_Some (threads k !! prevthread k) -> threads k !! next = Some t ->
  runs dispatch (put_lists L k)
    (fun r k' => r = Some next /\ exists L', k' = put_lists L' (enter next k) /\
       trep L' (threads (enter next k)) rq sl zb bs /\ relist L L')
    (fun _ _ => False).
Proof.
  intros Hr Hspl [tp Hp] Ht. pose proof (trep_queue _ _ _ _ _ _ Hr) as Hq.
  pose proof (queue_at_ring _ _ _ _ Hq) as Hring. pose proof Hr as [_ _ (_ & Hs26 & Hh) _ _].
  unfold dispatch, scheduler, assert_splhigh. run; [simpl; lia|].
  apply runs_runqueue. eapply runs_intro_ret; [reflexivity|]. cbn [fst snd].
  replace (q_empty (l_runqueue L)) with false; cycle 1.
  { symmetry. apply not_true_is_false. intros He. by apply (holds_nil_empty _ _ Hring Hh) in He. }
  rewrite put_lists_eta. run. apply runs_runqueue.
  eapply runs_mono; [by eapply q_remhead_spec| |done].
  intros r [q' h'] (-> & Hh' & Hq' & Hsz); simpl in *. subst h'. run.
  set (L' := mk_lists _ _ _ _).
  assert (trep L' (threads k) rq sl zb bs) as Hr'.
  { eapply trep_queue_put; [done|done|lia]. }
  assert (relist L L') as Hmv by (split; simpl; [done|lia]).
  unfold enter. simpl. destruct (prevthread k =? next) eqn:Epn.
  - run. split; [done|]. exists L'. done.
  - apply Z.eqb_neq in Epn. run. unfold thr_set. run. eapply thr_runs; [exact Hp|]. cbn beta. run.
    eapply thr_runs. { simpl. rewrite lookup_insert_ne by done. exact Ht. }
    cbn beta. run. split; [done|]. exists L'.
    assert (alter (set_ininterrupt (in_interrupt k)) (prevthread k) (threads k) =
      <[prevthread k := set_ininterrupt (in_interrupt k) tp]> (threads k)) as Ha.
    { by apply gmap_alter_as_insert. }
    split; [|split; [|done]].
    + unfold put_lists, with_curthread, with_in_interrupt, with_threads; simpl. by rewrite Ha, Ht.
    + rewrite Ha. simpl. by eapply trep_update.
Qed.

Lemma dispatch_idle L k sl zb bs : trep L (threads k) [] sl zb bs -> 0 < curspl (k_cpu k) ->
  runs dispatch (put_lists L k) (fun r k' => r = None /\ k' = put_lists L k) (fun _ _ => False).
Proof.
  intros Hr Hspl. pose proof (trep_queue _ _ _ _ _ _ Hr) as Hq.
  pose proof (queue_at_ring _ _ _ _ Hq) as Hring. pose proof Hr as [_ _ (_ & _ & Hh) _ _].
  unfold dispatch, scheduler, assert_splhigh. run; [simpl; lia|].
  apply runs_runqueue. eapply runs_intro_ret; [reflexivity|]. cbn [fst snd].
  rewrite (proj2 (holds_nil_empty _ _ Hring Hh) eq_refl), put_lists_eta. by run.
Qed.

(** *** Destroying threads *)

Definition set_lheap (h : H) L : lists H := mk_lists h (l_runqueue L) (l_sleepers L) (l_zombies L).

Lemma runs_kheap {A} (m : M H A) L k Q E :
  runs m (l_heap L) (fun a h => Q a (put_lists (set_lheap h L) k))
    (fun e h => E e (put_lists (set_lheap h L) k)) ->
  runs (on_kheap m) (put_lists L k) Q E.
Proof. intros Hm. apply runs_zoom. exact Hm. Qed.

(** Freeing one block, next to the blocks [bs]. *)
Lemma kheap_free L k p n bs (Q : unit -> kern H R -> Prop) E :
  heap_ok (l_heap L) -> owns (l_heap L) ((p, n) :: bs) ->
  (forall h, heap_ok h -> owns h bs -> Q tt (put_lists (set_lheap h L) k)) ->
  runs (on_kheap (kfree p)) (put_lists L k) Q E.
Proof.
  intros Hok Ho HQ. apply runs_kheap. eapply runs_mono; [by eapply kfree_owns| |done].
  intros [] h (? & ? & _). by apply HQ.
Qed.

Lemma cv_destroy_owns h bs c len : heap_ok h -> owns h (cv_blocks c len ++ bs) ->
  runs (cv_destroy c) h (fun _ h' => heap_ok h' /\ owns h' bs) (fun _ _ => False).
Proof.
  intros Hok Ho. unfold cv_blocks in Ho. simpl in Ho. unfold cv_destroy. run.
  eapply runs_mono; [by eapply kfree_owns| |done]. intros [] h1 (Hok1 & Ho1 & _).
  eapply runs_mono; [by eapply kfree_owns| |done]. naive_solver.
Qed.

(** All three synchronisation objects of the thread exist. *)
Definition whole (t : thread) : Prop :=
  is_Some (lk t) /\ is_Some (Waitonexit t) /\ is_Some (Waittoexit t).

Definition bury (p : Z) k : kern H R :=
  with_stacks (delete p (stacks k)) (with_threads (delete p (threads k)) k).

Lemma thread_free_runs L k p t bs (Q : unit -> kern H R -> Prop) E :
  heap_ok (l_heap L) -> owns (l_heap L) (tblocks p t ++ bs) -> whole t ->
  (forall h, heap_ok h -> owns h bs -> Q tt (bury p (put_lists (set_lheap h L) k))) ->
  runs ((if t_stack t =? 0 then ret tt else on_kheap (kfree (t_stack t))) ;;;
        on_kheap (kfree (t_name t)) ;;;
        cv_destroy_ptr (Waitonexit t) ;;;
        cv_destroy_ptr (Waittoexit t) ;;;
        match lk t with
        | None => panic
        | Some l =>
            on_kheap (lock_destroy l) ;;;
            on_kheap (kfree p) ;;;
            modify (fun k => with_stacks (delete p (stacks k)) (with_threads (delete p (threads k)) k))
        end) (put_lists L k) Q E.
Proof.
  intros Hok Ho ([l El] & [c1 E1] & [c2 E2]) HQ. unfold tblocks in Ho. rewrite El, E1, E2 in *. unfold cv_destroy_ptr.
  set (rest := lock_blocks l 4 ++ cv_blocks c1 6 ++ cv_blocks c2 6) in *.
  apply runs_bind. apply runs_mono with
    (Q := fun _ k' => exists h, k' = put_lists (set_lheap h L) k /\ heap_ok h /\
            owns h ((t_name t, t_namelen t + 1) :: (p, sizeof_thread) :: rest ++ bs))
    (E := fun _ _ => False); [| |done].
  { destruct (t_stack t =? 0).
    - apply runs_ret. exists (l_heap L). split; [done|]. split; [done|].
      eapply owns_perm; [|exact Ho]. simpl. solve_Permutation.
    - apply (kheap_free _ _ _ STACK_SIZE
        ((t_name t, t_namelen t + 1) :: (p, sizeof_thread) :: rest ++ bs)); [done| |]. { eapply owns_perm; [|exact Ho]. simpl. solve_Permutation. }
      intros h ? Hoh. by exists h. }
  intros [] k1 (h1 & -> & Hok1 & Ho1). apply runs_bind. eapply kheap_free; [done|exact Ho1|].
  intros h2 Hok2 Ho2. unfold rest in Ho2. apply runs_bind, runs_kheap. simpl.
  eapply runs_mono; [eapply (cv_destroy_owns _ ((p, sizeof_thread) :: lock_blocks l 4 ++ cv_blocks c2 6 ++ bs) c1 6); [done|]| |done].
  { eapply owns_perm; [|exact Ho2]. solve_Permutation. }
  intros [] h3 [Hok3 Ho3]. apply runs_bind, runs_kheap. simpl.
  eapply runs_mono; [eapply (cv_destroy_owns _ ((p, sizeof_thread) :: lock_blocks l 4 ++ bs) c2 6); [done|]| |done].
  { eapply owns_perm; [|exact Ho3]. solve_Permutation. }
  intros [] h4 [Hok4 Ho4]. apply runs_bind, runs_kheap. simpl.
  eapply runs_mono; [eapply (lock_destroy_owns _ ((p, sizeof_thread) :: bs) l 4); [done|]| |done].
  { eapply owns_perm; [|exact Ho4]. solve_Permutation. }
  intros [] h5 [Hok5 Ho5]. apply runs_bind. eapply kheap_free; [done|exact Ho5|].
  intros h6 Hok6 Ho6. apply runs_modify. by apply HQ.
Qed.

Lemma thread_destroy_runs L k rq sl zb bs p t :
  trep L (threads k) rq sl zb bs -> threads k !! p = Some t -> whole t ->
  p <> curthread k -> t_vmspace t = 0 -> t_cwd t = 0 ->
  runs (thread_destroy p) (put_lists L k)
    (fun _ k' => exists L', k' = put_lists L' (bury p k) /\
       trep L' (threads (bury p k)) rq sl zb bs /\ l_zombies L' = l_zombies L /\
       l_runqueue L' = l_runqueue L)
    (fun _ _ => False).
Proof.
  intros [Hok Ho Hrq Hsl Hzb] Ht Hw Hp Hvm Hcwd. unfold thread_destroy. run.
  { simpl. zbool. done. }
  eapply thr_runs; [exact Ht|]. cbn beta. rewrite Hvm, Hcwd.
  do 2 (apply runs_bind, runs_assert; [done|]).
  pose (base := q_blocks (l_runqueue L) ++ blocks (l_sleepers L) ++ blocks (l_zombies L) ++
    all_tblocks (delete p (threads k)) ++ bs).
  eapply thread_free_runs; [done| |done|].
  { eapply (owns_perm _ _ (tblocks p t ++ base)); [|exact Ho]. unfold base.
    rewrite (all_tblocks_lookup _ _ _ Ht). solve_Permutation. }
  intros h Hok' Ho'. exists (set_lheap h L). by split_and!.
Qed.

Definition bury_all (l : list Z) k : kern H R :=
  with_stacks (foldr delete (stacks k) l) (with_threads (foldr delete (threads k) l) k).

Lemma foldr_delete_snoc {A} (m : gmap Z A) l p :
  foldr delete m (l ++ [p]) = delete p (foldr delete m l).
Proof.
  rewrite foldr_app. simpl. induction l as [|x l IH]; simpl; [done|]. rewrite IH. apply delete_delete.
Qed.

Lemma bury_all_snoc l p k : bury p (bury_all l k) = bury_all (l ++ [p]) k.
Proof. unfold bury, bury_all. simpl. by rewrite !foldr_delete_snoc. Qed.

Lemma foldr_delete_lookup {A} (m : gmap Z A) l p : p ∉ l -> foldr delete m l !! p = m !! p.
Proof.
  induction l as [|x l IH]; intros Hp; simpl; [done|].
  rewrite lookup_delete_ne by set_solver. apply IH. set_solver.
Qed.

(** A thread that has been through [thread_exit]. *)
Definition dead (t : thread) : Prop := whole t /\ t_vmspace t = 0 /\ t_cwd t = 0.

Lemma exorcise_runs L k rq sl zb bs :
  trep L (threads k) rq sl zb bs -> 0 < curspl (k_cpu k) -> NoDup zb ->
  curthread k ∉ zb -> (forall p, p ∈ zb -> exists t, threads k !! p = Some t /\ dead t) ->
  runs exorcise (put_lists L k)
    (fun _ k' => exists L', k' = put_lists L' (bury_all zb k) /\
       trep L' (threads (bury_all zb k)) rq sl [] bs /\ l_runqueue L' = l_runqueue L)
    (fun _ _ => False).
Proof.
  intros Hr Hspl Hnd Hcur Hdead. unfold exorcise, assert_splhigh. run; [simpl; lia|].
  apply runs_zombies. eapply runs_intro_ret; [reflexivity|]. cbn [fst snd]. rewrite put_lists_eta.
  pose proof Hr as [_ _ _ _ Hzb0]. pose proof (ashape_length _ _ Hzb0) as Hl. apply runs_bind.
  apply runs_for_each with (I := fun pre _ k' => exists L',
    k' = put_lists L' (bury_all (take (length pre) zb) k) /\
    trep L' (threads (bury_all (take (length pre) zb) k)) rq sl zb bs /\
    l_runqueue L' = l_runqueue L).
  - by exists L.
  - intros pre i post k' Hs (L1 & -> & Hr1 & Hq1). apply seqZ_middle in Hs as [-> Hlt].
    destruct (lookup_lt_is_Some_2 zb (length pre)) as [z Hz]; [lia|].
    pose proof (trep_zombies _ _ _ _ _ _ Hr1) as Ha1. pose proof Hr1 as [_ _ _ _ Hzb].
    pose proof (ashape_length _ _ Hzb) as Hl1. destruct Hzb as (_ & _ & _ & _ & Hc1).
    destruct (array_getguy_spec _ _ _ (0 + Z.of_nat (length pre)) Ha1) as (x & Hx & He); [lia|].
    rewrite Z.add_0_l, Nat2Z.id, Hc1, list_lookup_fmap, Hz in Hx. simplify_eq/=.
    apply runs_bind, runs_zombies. eapply runs_intro_ret; [exact He|]. cbn [fst snd].
    rewrite put_lists_eta.
    assert (z ∈ zb) as Hin by (by eapply list_elem_of_lookup_2).
    assert (z ∉ take (length pre) zb) as Hnt.
    { intros (j & Hj & Hjl)%elem_of_take. pose proof (NoDup_lookup _ _ _ _ Hnd Hj Hz). lia. }
    destruct (Hdead z Hin) as (t & Ht & Hw & Hvm & Hcwd).
    run. { simpl. zbool. destruct (Z.eqb_spec z (curthread k)); [by subst|done]. }
    eapply runs_mono; [eapply thread_destroy_runs; [done| |done| |done|done]| |done].
    { simpl. by rewrite foldr_delete_lookup. }
    { intros ->. done. }
    intros [] k' (L2 & -> & Hr2 & _ & Hq2). exists L2.
    rewrite bury_all_snoc in Hr2 |- *.
    rewrite length_app, Nat.add_1_r, (take_S_r _ _ _ Hz). split_and!; [done|done|congruence].
  - intros k' (L1 & -> & Hr1 & Hq1). rewrite length_seqZ, Hl, Nat2Z.id, firstn_all in *.
    pose proof (trep_zombies _ _ _ _ _ _ Hr1) as Ha1.
    run. apply runs_zombies. eapply runs_mono; [eapply array_setsize_spec; [exact Ha1|lia]| |].
    + intros [] [a' h'] (Ha' & Hn' & _); simpl in *. run; [done|]. eexists. split; [done|].
      split; [|done]. eapply trep_zombies_put; [done|done|]. unfold contents. by rewrite Hn'.
    + intros e s (_ & _ & _ & _ & Hm). pose proof Ha1 as (_ & ? & _). lia.
Qed.

(** *** Creating threads *)

Lemma tblocks_fresh T p n rest h :
  owns h ((p, n) :: rest) -> all_tblocks T ⊆ rest -> T !! p = None.
Proof.
  intros (_ & _ & Hnin)%owns_cons_inv Hsub. destruct (T !! p) as [t|] eqn:Hp; [|done]. exfalso.
  apply Hnin, list_elem_of_fmap. exists (p, sizeof_thread). split; [done|]. apply Hsub.
  rewrite (all_tblocks_lookup T p t Hp). unfold tblocks. set_solver.
Qed.

(** What is known of a new thread. *)
Record fresh_thread (t : thread) : Prop := {
  ft_stack : t_stack t = 0;
  ft_addr : t_sleepaddr t = 0;
  ft_in : pcb_ininterrupt t = 0;
  ft_res : t_vmspace t = 0 /\ t_cwd t = 0;
}.

Definition same_lists L L' : Prop :=
  l_runqueue L' = l_runqueue L /\ l_sleepers L' = l_sleepers L /\ l_zombies L' = l_zombies L.

Lemma lock_create_opt h bs len : heap_ok h -> owns h bs -> 0 <= len < 2 ^ 30 ->
  runs (lock_create len) h
    (fun r h' => heap_ok h' /\ owns h' (match r with Some l => lock_blocks l len | None => [] end ++ bs))
    (fun _ _ => False).
Proof.
  intros. eapply runs_mono; [apply lock_create_owns; [done..|lia]| |done].
  intros [l|] h' [? ?]; naive_solver.
Qed.

Lemma cv_create_opt h bs len : heap_ok h -> owns h bs -> 0 <= len < 2 ^ 30 ->
  runs (cv_create len) h
    (fun r h' => heap_ok h' /\ owns h' (match r with Some c => cv_blocks c len | None => [] end ++ bs))
    (fun _ _ => False).
Proof.
  intros. unfold cv_create. run.
  eapply runs_mono; [apply (named_create_owns h bs 4 len); [done..|lia|lia]| |done].
  intros [[p n]|] h' [? Hr]; run; naive_solver.
Qed.

Lemma thread_create_runs L k rq sl zb bs namelen :
  trep L (threads k) rq sl zb bs -> spl_ok (k_cpu k) -> 0 <= namelen < 2 ^ 30 ->
  runs (thread_create namelen) (put_lists L k)
    (fun p k' => exists h, let L' := set_lheap h L in
       (p = 0 /\ k' = put_lists L' k /\ trep L' (threads k) rq sl zb bs) \/
       (p <> 0 /\ threads k !! p = None /\ exists t,
          k' = put_lists L' (with_pid_assign (i32 (pid_assign k + 1))
                               (with_threads (<[p := t]> (threads k)) k)) /\
          fresh_thread t /\ pid t = pid_assign k /\ parent t = curthread k /\
          trep L' (<[p := t]> (threads k)) rq sl zb bs))
    (fun _ _ => False).
Proof.
  intros [Hok Ho Hrq Hsl Hzb] Hspl Hnl. unfold thread_create.
  set (base := q_blocks _ ++ _) in Ho.
  run. apply runs_kheap. eapply runs_mono; [apply (kmalloc_owns _ sizeof_thread base); [done..|]| |done].
  { unfold sizeof_thread; lia. }
  intros p h1 (Hok1 & [(-> & Ho1 & _)|(Hp & Ho1 & _)]).
  { apply runs_ret. exists h1. left. by split_and!. }
  assert (threads k !! p = None) as Hnew.
  { eapply tblocks_fresh; [exact Ho1|]. unfold base. set_solver. }
  cbn beta. zbool.
  run. apply runs_kheap. eapply runs_mono; [apply kmalloc_owns; [done|exact Ho1|lia]| |done].
  intros nm h2 (Hok2 & [(-> & Ho2 & _)|(Hnm & Ho2 & _)]).
  { cbn beta. zbool. run. eapply kheap_free; [done|exact Ho2|]. intros h3 Hok3 Ho3. run.
    exists h3. left. by split_and!. }
  cbn beta. zbool. run. apply runs_kheap.
  eapply runs_mono; [apply lock_create_opt; [done|exact Ho2|lia]| |done]. intros l h3 [Hok3 Ho3].
  run. apply runs_kheap.
  eapply runs_mono; [apply cv_create_opt; [done|exact Ho3|lia]| |done]. intros c1 h4 [Hok4 Ho4].
  run. apply runs_kheap.
  eapply runs_mono; [apply cv_create_opt; [done|exact Ho4|lia]| |done]. intros c2 h5 [Hok5 Ho5].
  run. eapply runs_intro_ret; [apply splhigh_eq|]. run.
  eapply runs_intro_ret; [apply splx_eq; apply Hspl|]. run. simpl.
  exists h5. right. split; [done|]. split; [done|]. eexists. split.
  { unfold put_lists, with_pid_assign, with_threads, set_lheap; simpl.
    unfold with_cpu; simpl. rewrite (spl_ok_eta _ Hspl). reflexivity. }
  split; [done|]. split; [done|]. split; [done|]. split; simpl; [done| |done..].
  eapply owns_perm; [|exact Ho5]. rewrite all_tblocks_insert by done.
  unfold tblocks; simpl. unfold base. solve_Permutation.
Qed.

(** A thread that [fork_create] has set up. *)
Record ready_thread (t : thread) : Prop := {
  rt_stack : t_stack t <> 0 /\ t_guard t = stack_magic;
  rt_addr : t_sleepaddr t = 0;
  rt_in : pcb_ininterrupt t = 0;
  rt_res : t_vmspace t = 0 /\ t_cwd t = 0;
}.

(** The blocks of the synchronisation objects of a thread. *)
Definition synch_blocks (t : thread) : list (Z * Z) :=
  (match lk t with Some l => lock_blocks l 4 | None => [] end) ++
  (match Waitonexit t with Some c => cv_blocks c 6 | None => [] end) ++
  (match Waittoexit t with Some c => cv_blocks c 6 | None => [] end).

Definition newborn (p : Z) (t : thread) k : kern H R :=
  with_stacks (<[p := F_threadstart :: default [] (stacks k !! p)]> (stacks k))
    (with_pid_assign (i32 (pid_assign k + 1)) (with_threads (<[p := t]> (threads k)) k)).

(** On failure the synchronisation objects of the thread stay allocated. *)
Lemma fork_create_runs L k rq sl zb bs namelen c :
  trep L (threads k) rq sl zb bs -> spl_ok (k_cpu k) -> 0 <= namelen < 2 ^ 30 ->
  threads k !! curthread k = Some c -> t_cwd c = 0 ->
  runs (fork_create namelen) (put_lists L k)
    (fun p k' => p <> 0 /\ threads k !! p = None /\ exists h t, let L' := set_lheap h L in
       k' = put_lists L' (newborn p t k) /\ ready_thread t /\ parent t = curthread k /\
       pid t = pid_assign k /\ trep L' (<[p := t]> (threads k)) rq sl zb bs)
    (fun e k' => e = ENOMEM /\ exists h n leak, let L' := set_lheap h L in
       k' = put_lists L' (with_pid_assign n k) /\ trep L' (threads k) rq sl zb (leak ++ bs)).
Proof.
  intros Hr Hspl Hnl Hc Hcwd. unfold fork_create. run.
  eapply runs_mono; [by eapply thread_create_runs| |done].
  intros p k1 (h1 & [(-> & -> & Hr1)|(Hp & Hnew & t & -> & Hft & Hpid & Hpar & Hr1)]).
  { run. split; [done|]. by exists h1, (pid_assign k), []. }
  zbool. run. apply runs_kheap. pose proof Hr1 as [Hok1 Ho1 Hrq Hsl Hzb].
  eapply runs_mono; [apply kmalloc_owns; [done|exact Ho1|unfold STACK_SIZE; lia]| |done].
  destruct Hft as [Hst Ha Hin [Hvm Hcw]].
  intros st h2 (Hok2 & [(-> & Ho2 & _)|(Hstk & Ho2 & _)]); cbn beta; zbool; run.
  - (* no stack *)
    eapply thr_runs; [apply lookup_insert_eq|]. cbn beta. run.
    set (base := q_blocks (l_runqueue L) ++ blocks (l_sleepers L) ++ blocks (l_zombies L) ++
      all_tblocks (threads k) ++ synch_blocks t ++ bs).
    eapply (kheap_free _ _ _ (t_namelen t + 1) ((p, sizeof_thread) :: base)); [done| |].
    { eapply owns_perm; [|exact Ho2]. rewrite all_tblocks_insert by done.
      unfold tblocks, base, synch_blocks. rewrite Hst. simpl. solve_Permutation. }
    intros h3 Hok3 Ho3. run. eapply kheap_free; [done|exact Ho3|]. intros h4 Hok4 Ho4. run.
    split; [done|]. exists h4, (i32 (pid_assign k + 1)), (synch_blocks t). split.
    { unfold put_lists, with_threads, with_pid_assign; simpl. by rewrite delete_insert_id. }
    by split.
  - unfold thr_set. run. eapply thr_runs; [apply lookup_insert_eq|]. cbn beta. run.
    assert (p <> curthread k) as Hpc by (intros ->; congruence).
    eapply thr_runs; [simpl; rewrite !lookup_insert_ne by done; exact Hc|]. cbn beta.
    rewrite Hcwd. run. unfold push. run.
    split; [done|]. split; [done|]. exists h2, (set_stack st stack_magic t). split.
    { unfold put_lists, newborn, with_threads, with_stacks; simpl. by rewrite insert_insert_eq. }
    split; [by split|]. split; [done|]. split; [done|]. split; simpl; [done| |done..].
    eapply owns_perm; [|exact Ho2]. rewrite !all_tblocks_insert by done.
    unfold tblocks; simpl. rewrite Hst. zbool. simpl. solve_Permutation.
Qed.

(** Making room for one more thread, and the thread runnable. *)
Lemma fork_room_runs L k rq sl zb bs p n :
  trep L (threads k) rq sl zb bs -> 0 < curspl (k_cpu k) ->
  Z.of_nat (length rq) < n < 2 ^ 24 ->
  runs (on_sleepers (array_preallocate (n + 1)) ;;;
        on_zombies (array_preallocate (n + 1)) ;;;
        scheduler_preallocate (n + 1) ;;;
        make_runnable p) (put_lists L k)
    (fun _ k' => exists L', k' = put_lists L' k /\ trep L' (threads k) (rq ++ [p]) sl zb bs /\
       n + 1 <= size (l_runqueue L'))
    (fun e k' => e = ENOMEM /\ exists L', k' = put_lists L' k /\ trep L' (threads k) rq sl zb bs /\
       l_runqueue L' = l_runqueue L).
Proof.
  intros Hr Hspl Hn. apply runs_bind, runs_sleepers.
  pose proof (trep_sleepers _ _ _ _ _ _ Hr) as Ha. pose proof Hr as [_ _ _ (_ & _ & _ & _ & Hca) _].
  eapply runs_mono; [eapply array_preallocate_spec; [exact Ha|lia]| |].
  2:{ intros e [a h] (-> & -> & Ha1 & _); simpl in *. split; [done|]. eexists. split; [done|].
      split; [|done]. by eapply trep_sleepers_put. }
  intros [] [a h] (Ha1 & _ & Hc1 & _); simpl in *. rewrite Hca in Hc1.
  pose proof (trep_sleepers_put _ _ _ _ _ _ _ _ _ Hr Ha1 Hc1) as Hr1.
  set (L1 := mk_lists h (l_runqueue L) a (l_zombies L)) in *.
  apply runs_bind, runs_zombies.
  pose proof (trep_zombies _ _ _ _ _ _ Hr1) as Hz. pose proof Hr1 as [_ _ _ _ (_ & _ & _ & _ & Hcz)].
  eapply runs_mono; [eapply array_preallocate_spec; [exact Hz|lia]| |].
  2:{ intros e [z h'] (-> & -> & Hz1 & _); simpl in *. split; [done|]. eexists. split; [done|].
      split; [|done]. by eapply (trep_zombies_put L1). }
  intros [] [z h2] (Hz1 & _ & Hc2 & _); simpl in *. rewrite Hcz in Hc2.
  pose proof (trep_zombies_put _ _ _ _ _ _ _ _ _ Hr1 Hz1 Hc2) as Hr2.
  set (L2 := mk_lists h2 (l_runqueue L1) (l_sleepers L1) z) in *.
  unfold scheduler_preallocate, assert_splhigh. run; [simpl; lia|]. apply runs_runqueue.
  pose proof (trep_queue _ _ _ _ _ _ Hr2) as Hq. pose proof Hr2 as [_ _ (_ & Hs26 & _) _ _].
  eapply runs_mono; [eapply (q_preallocate_spec _ _ _ _ (n + 1) Hq); lia| |].
  2:{ intros e [q h3] (-> & -> & Hq1); simpl in *. split; [done|]. eexists. split; [done|].
      split; [|done]. by eapply (trep_queue_put L2). }
  intros [] [q h3] (Hq1 & Hsz & Hle); simpl in *.
  assert (trep (mk_lists h3 q (l_sleepers L2) (l_zombies L2)) (threads k) rq sl zb bs) as Hr3.
  { eapply (trep_queue_put L2); [done|done|]. lia. }
  set (L3 := mk_lists h3 q _ _) in *.
  eapply runs_mono; [eapply (make_runnable_runs L3 k _ rq sl zb bs p n Hr3 Hspl)| |done].
  - lia.
  - left. simpl. lia.
  - intros [] k' (L4 & -> & Hr4 & [[_ Hs4] _ _ _] & _). exists L4. split_and!; [done|done|]. simpl in Hs4. lia.
Qed.

(** Giving a new thread up: its synchronisation objects stay allocated. *)
Lemma fork_undo_runs L k rq sl zb bs p t (Q : Z -> kern H R -> Prop) e :
  trep L (threads k) rq sl zb bs -> threads k !! p = Some t -> ready_thread t ->
  runs (t <- thr p ;;
        (if t_cwd t =? 0 then ret tt else on_env (env_vop_decref (t_cwd t))) ;;;
        on_kheap (kfree (t_stack t)) ;;;
        on_kheap (kfree (t_name t)) ;;;
        on_kheap (kfree p) ;;;
        modify (fun k => with_stacks (delete p (stacks k)) (with_threads (delete p (threads k)) k)) ;;;
        fail e) (put_lists L k) Q
    (fun e' k' => e' = e /\ exists h, let L' := set_lheap h L in
       k' = put_lists L' (bury p k) /\
       trep L' (threads (bury p k)) rq sl zb (synch_blocks t ++ bs)).
Proof.
  intros [Hok Ho Hrq Hsl Hzb] Ht [[Hst _] _ _ [_ Hcwd]]. apply runs_bind. eapply thr_runs; [exact Ht|].
  rewrite Hcwd. change (0 =? 0) with true. cbn iota. run.
  pose (base := q_blocks (l_runqueue L) ++ blocks (l_sleepers L) ++ blocks (l_zombies L) ++
    all_tblocks (delete p (threads k)) ++ synch_blocks t ++ bs).
  eapply (kheap_free _ _ _ STACK_SIZE ((t_name t, t_namelen t + 1) :: (p, sizeof_thread) :: base)); [done| |].
  { eapply owns_perm; [|exact Ho]. rewrite (all_tblocks_lookup _ _ _ Ht).
    unfold tblocks, base, synch_blocks. zbool. simpl. solve_Permutation. }
  intros h1 Hok1 Ho1. run. eapply kheap_free; [done|exact Ho1|].
  intros h2 Hok2 Ho2. run. eapply kheap_free; [done|exact Ho2|].
  intros h3 Hok3 Ho3. run. split; [done|]. exists h3. by split.
Qed.

Lemma fork_start_runs L k rq sl zb bs p t c :
  trep L (threads k) rq sl zb bs -> spl_ok (k_cpu k) ->
  threads k !! p = Some t -> ready_thread t -> threads k !! curthread k = Some c ->
  p <> curthread k -> Z.of_nat (length rq) < numthreads k < 2 ^ 24 ->
  runs (fork_start p) (put_lists L k)
    (fun r k' => r = p /\ exists L',
       let T' := <[curthread k := set_family (parent c) (add_child p (child c)) c]>
                   (<[p := set_family (curthread k) (child t) t]> (threads k)) in
       k' = put_lists L' (with_numthreads (numthreads k + 1) (with_threads T' k)) /\
       trep L' T' (rq ++ [p]) sl zb bs /\ numthreads k + 1 <= size (l_runqueue L'))
    (fun e k' => e = ENOMEM /\ exists L', k' = put_lists L' (bury p k) /\
       trep L' (threads (bury p k)) rq sl zb (synch_blocks t ++ bs) /\
       l_runqueue L' = l_runqueue L).
Proof.
  intros Hr Hspl Ht Hrt Hc Hpc Hn. unfold fork_start. apply runs_bind.
  eapply runs_intro_ret; [apply splhigh_eq|]. apply runs_bind, runs_gets. apply runs_bind, runs_result_of.
  pose (k1 := with_kcpu (mk_cpu SPL_HIGH false) k).
  change (with_cpu _ (put_lists L k)) with (put_lists L k1).
  eapply runs_mono; [eapply (fork_room_runs L k1); [exact Hr|done|exact Hn]| |].
  - intros [] k' (L1 & -> & Hr1 & Hs1). rewrite Z.eqb_refl. run.
    eapply thr_runs; [exact Ht|]. cbn beta. unfold thr_set. run. eapply thr_runs; [exact Ht|]. cbn beta. run.
    assert ((<[p := set_family (curthread k) (child t) t]> (threads k)) !! curthread k = Some c) as Hc'
      by (by rewrite lookup_insert_ne).
    eapply thr_runs; [exact Hc'|]. cbn beta. run. eapply thr_runs; [exact Hc'|]. cbn beta. run.
    eapply runs_intro_ret; [apply splx_eq; apply Hspl|]. cbn beta. run. split; [done|].
    exists L1. split; [|split; [|done]].
    { unfold put_lists, with_numthreads, with_threads, k1; simpl. unfold with_cpu; simpl.
      by rewrite (spl_ok_eta _ Hspl). }
    eapply trep_update; [|done|by destruct c]. eapply trep_update; [done|done|by destruct t].
  - intros e k' (-> & L1 & -> & Hr1 & Hq1). change (ENOMEM =? 0) with false. cbn iota.
    apply runs_bind. eapply runs_intro_ret; [apply splx_eq; apply Hspl|].
    assert (with_cpu (mk_cpu (curspl (cpu_of (put_lists L k))) (curspl (cpu_of (put_lists L k)) =? 0))
      (put_lists L1 k1) = put_lists L1 k) as ->.
    { unfold k1, with_cpu, put_lists; simpl. rewrite (spl_ok_eta _ Hspl). by destruct k. }
    eapply runs_mono; [by apply (fork_undo_runs L1 k rq sl zb bs p t (fun _ _ => False))|done|].
    intros e k' (-> & h & -> & Hr2). split; [done|]. by exists (set_lheap h L1).
Qed.

End lists.
