(* ===== verification/Synch.v ===== *)
(** Synchronisation between threads: the operations of kern/thread/synch.c, the
    clock (kern/thread/hardclock.c), interrupts (kern/arch/mips/mips/trap.c,
    interrupt.c), and the kernel as a transition system.

    The current thread runs until it gives up the processor; what it does next
    when it gets it back is the top frame of its stack ([resume]).  Between
    calls a thread runs code of its own, which may call any operation next
    ([E_call]) and may be interrupted whenever interrupts are on ([E_irq]).
    [exec] is executable; [enabled] says which events can happen in a state.

    A step reports what it completed ([did]); the theorems about locks and
    semaphores are about the sequence of these reports. *)

From Stdlib Require Import ZArith Lia.
From stdpp Require Import prelude gmap list.
From S2P Require Import Prelude Heap Spl Array Queue SynchObj Threads.

(** ** Definitions *)

Definition HZ : Z := 100.

(** What a step completed: a P or V of a semaphore, taking or giving up a lock. *)
Inductive did :=
| D_none
| D_P (sem : Z)
| D_V (sem : Z)
| D_acquire (lock : Z)
| D_release (lock : Z).

#[export] Instance did_eq : EqDecision did.
Proof. solve_decision. Defined.

(** The calls a thread can make. *)
Inductive call :=
| C_P (sem : Z)
| C_V (sem : Z)
| C_acquire (lock : Z)
| C_release (lock : Z)
| C_wait (cv lock : Z)
| C_signal (cv lock : Z)
| C_broadcast (cv lock : Z)
| C_yield
| C_clocksleep (num_secs : Z)
| C_fork (namelen : Z)
| C_exit.

(** Interrupts: the timer, and a device whose handler does V on a semaphore. *)
Inductive irq :=
| Irq_timer
| Irq_device (sem : Z).

Inductive event :=
| E_call (c : call)
| E_resume
| E_irq (i : irq)
| E_dispatch.

Section synch_ops.
Context {H R : Type} `{!Heap H} `{!ProcEnv R}.

Definition sem_get (sem : Z) : M (kern H R) Z := fun k =>
  match sems k !! sem with Some c => (Ret c, k) | None => (Panic, k) end.
Definition sem_set (sem c : Z) : M (kern H R) unit :=
  modify (fun k => with_sems (<[sem := c]> (sems k)) k).
Definition lock_get (lock : Z) : M (kern H R) Z := fun k =>
  match locks k !! lock with Some o => (Ret o, k) | None => (Panic, k) end.
Definition lock_set (lock own : Z) : M (kern H R) unit :=
  modify (fun k => with_locks (<[lock := own]> (locks k)) k).
Definition push_cur (fs : list frame) : M (kern H R) unit :=
  cur <- gets curthread ;; push cur fs.

(** *** synch.c *)

(** The loop of [P] and what follows it; answers whether [P] is done. *)
Definition P_loop (sem spl : Z) : M (kern H R) bool :=
  count <- sem_get sem ;;
  if count =? 0 then thread_sleep sem [F_P sem spl] ;;; ret false
  else
    assert (count >? 0) ;;;
    sem_set sem (count - 1) ;;;
    splx spl ;;;
    ret true.

Definition P (sem : Z) : M (kern H R) bool :=
  assert (negb (sem =? 0)) ;;;
  i <- gets in_interrupt ;;
  assert (i =? 0) ;;;
  spl <- splhigh ;;
  P_loop sem spl.

Definition V (sem : Z) : M (kern H R) unit :=
  assert (negb (sem =? 0)) ;;;
  spl <- splhigh ;;
  count <- sem_get sem ;;
  sem_set sem (i32 (count + 1)) ;;;
  assert (i32 (count + 1) >? 0) ;;;
  thread_wakeup sem ;;;
  splx spl ;;;
  ret tt.

(** Destroying a semaphore nobody waits for. *)
Definition sem_destroy (sem : semaphore) : M (kern H R) unit :=
  assert (negb (sem_self sem =? 0)) ;;;
  spl <- splhigh ;;
  n <- thread_hassleepers (sem_self sem) ;;
  assert (negb n) ;;;
  splx spl ;;;
  on_kheap (kfree (sem_name sem)) ;;;
  on_kheap (kfree (sem_self sem)).

Definition acquire_loop (lock spl : Z) : M (kern H R) bool :=
  own <- lock_get lock ;;
  if negb (own =? 0) then thread_sleep lock [F_acquire lock spl] ;;; ret false
  else
    cur <- gets curthread ;;
    lock_set lock cur ;;;
    splx spl ;;;
    ret true.

Definition lock_acquire (lock : Z) : M (kern H R) bool :=
  assert (negb (lock =? 0)) ;;;
  interrupt <- splhigh ;;
  acquire_loop lock interrupt.

Definition lock_do_i_hold (lock : Z) : M (kern H R) Z :=
  assert (negb (lock =? 0)) ;;;
  own <- lock_get lock ;;
  cur <- gets curthread ;;
  ret (if own =? cur then 1 else 0).

(** [lock_release] in two parts: interrupts are on during its assertions. *)
Definition release_check (lock : Z) : M (kern H R) unit :=
  assert (negb (lock =? 0)) ;;;
  mine <- lock_do_i_hold lock ;;
  assert (mine =? 1).

Definition release_rest (lock : Z) : M (kern H R) unit :=
  interrupt <- splhigh ;;
  lock_set lock 0 ;;;
  thread_wakeup lock ;;;
  splx interrupt ;;;
  ret tt.

Definition lock_release (lock : Z) : M (kern H R) unit :=
  release_check lock ;;; release_rest lock.

(** [cv_wait] up to the sleep; the rest is the frame [F_cv_wait]. *)
Definition cv_wait (cv lock : Z) : M (kern H R) unit :=
  interrupt <- splhigh ;;
  assert (negb (cv =? 0)) ;;;
  assert (negb (lock =? 0)) ;;;
  lock_release lock ;;;
  thread_sleep cv [F_cv_wait lock interrupt].

Definition cv_signal (cv lock : Z) : M (kern H R) unit :=
  assert (negb (cv =? 0)) ;;;
  assert (negb (lock =? 0)) ;;;
  interrupt <- splhigh ;;
  thread_wakeone cv ;;;
  splx interrupt ;;;
  ret tt.

Definition cv_broadcast (cv lock : Z) : M (kern H R) unit :=
  assert (negb (cv =? 0)) ;;;
  assert (negb (lock =? 0)) ;;;
  interrupt <- splhigh ;;
  thread_wakeup cv ;;;
  splx interrupt ;;;
  ret tt.

(** *** hardclock.c *)

Definition hardclock (rest : list frame) : M (kern H R) bool :=
  n <- gets lbolt_counter ;;
  modify (with_lbolt_counter (i32 (n + 1))) ;;;
  (if i32 (n + 1) >=? HZ then
     modify (with_lbolt_counter 0) ;;;
     a <- gets lbolt ;;
     thread_wakeup a
   else ret tt) ;;;
  thread_yield rest.

(** The loop of [clocksleep] and what follows it. *)
Definition clocksleep_loop (num_secs spl : Z) : M (kern H R) unit :=
  if num_secs >? 0 then
    a <- gets lbolt ;;
    thread_sleep a [F_clocksleep num_secs spl]
  else splx spl ;;; ret tt.

Definition clocksleep (num_secs : Z) : M (kern H R) unit :=
  s <- splhigh ;;
  clocksleep_loop num_secs s.

(** *** Interrupts *)

(** [mips_trap] and [mips_interrupt] up to the handler, and after it; the
    return from the exception turns interrupts on again if they were on. *)
Definition trap_enter : M (kern H R) (Z * Z) :=
  c <- gets k_cpu ;;
  modify (with_kcpu (mk_cpu SPL_HIGH false)) ;;;
  old_in <- gets in_interrupt ;;
  modify (with_in_interrupt 1) ;;;
  assert_splhigh ;;;
  ret (old_in, curspl c).

Definition trap_return (old_in savespl : Z) : M (kern H R) unit :=
  modify (with_in_interrupt old_in) ;;;
  splhigh ;;;
  modify (with_kcpu (mk_cpu savespl (savespl =? 0))).

Definition interrupt (i : irq) : M (kern H R) did :=
  '(old_in, savespl) <- trap_enter ;;
  match i with
  | Irq_timer =>
      away <- hardclock [F_trap old_in savespl] ;;
      (if away : bool then ret tt else trap_return old_in savespl) ;;;
      ret D_none
  | Irq_device sem =>
      V sem ;;;
      trap_return old_in savespl ;;;
      ret (D_V sem)
  end.

(** *** Steps *)

Definition mi_threadstart : M (kern H R) unit :=
  cur <- gets curthread ;;
  t <- thr cur ;;
  (if t_vmspace t =? 0 then ret tt else on_env (env_as_activate (t_vmspace t))) ;;;
  spl0 ;;;
  ret tt.

Definition run_frame (cur : Z) (f : frame) : M (kern H R) did :=
  match f with
  | F_switch => mi_switch_return ;;; ret D_none
  | F_threadstart => mi_threadstart ;;; ret D_none
  | F_sleep => thr_set cur (set_sleepaddr 0) ;;; ret D_none
  | F_yield spl => splx spl ;;; ret D_none
  | F_exit => panic
  | F_fork newguy => try (fork_start newguy) ;;; ret D_none
  | F_trap old_in savespl => trap_return old_in savespl ;;; ret D_none
  | F_P sem spl => b <- P_loop sem spl ;; ret (if b : bool then D_P sem else D_none)
  | F_acquire lock spl =>
      b <- acquire_loop lock spl ;; ret (if b : bool then D_acquire lock else D_none)
  | F_release lock => release_rest lock ;;; ret (D_release lock)
  | F_cv_wait lock spl =>
      push_cur [F_splx spl] ;;;
      b <- lock_acquire lock ;; ret (if b : bool then D_acquire lock else D_none)
  | F_splx spl => splx spl ;;; ret D_none
  | F_clocksleep num_secs spl => clocksleep_loop (num_secs - 1) spl ;;; ret D_none
  end.

Definition resume : M (kern H R) did :=
  cur <- gets curthread ;;
  k <- get ;;
  match stacks k !! cur with
  | Some (f :: fs) => modify (fun k => with_stacks (<[cur := fs]> (stacks k)) k) ;;; run_frame cur f
  | _ => panic
  end.

Definition do_call (c : call) : M (kern H R) did :=
  match c with
  | C_P sem => b <- P sem ;; ret (if b : bool then D_P sem else D_none)
  | C_V sem => V sem ;;; ret (D_V sem)
  | C_acquire lock => b <- lock_acquire lock ;; ret (if b : bool then D_acquire lock else D_none)
  | C_release lock => release_check lock ;;; push_cur [F_release lock] ;;; ret D_none
  | C_wait cv lock => cv_wait cv lock ;;; ret (D_release lock)
  | C_signal cv lock => cv_signal cv lock ;;; ret D_none
  | C_broadcast cv lock => cv_broadcast cv lock ;;; ret D_none
  | C_yield => thread_yield [] ;;; ret D_none
  | C_clocksleep n => clocksleep n ;;; ret D_none
  | C_fork namelen =>
      r <- try (fork_create namelen) ;;
      match r with
      | inl _ => ret D_none
      | inr newguy => push_cur [F_fork newguy] ;;; ret D_none
      end
  | C_exit => thread_exit ;;; ret D_none
  end.

Definition exec (e : event) : M (kern H R) did :=
  match e with
  | E_call c => do_call c
  | E_resume => resume
  | E_irq i => interrupt i
  | E_dispatch => dispatch ;;; ret D_none
  end.

End synch_ops.

(** ** Which events can happen *)

Section enabled.
Context {H R : Type}.
Implicit Types (k : kern H R).

(** An address that is used as a condition variable only. *)
Definition cv_addr k (cv : Z) : Prop :=
  cv <> 0 /\ sems k !! cv = None /\ locks k !! cv = None /\ cv <> lbolt k.

(** A semaphore that V can raise. *)
Definition sem_ready k (sem : Z) : Prop :=
  exists c, sems k !! sem = Some c /\ c < 2 ^ 31 - 1.

(** What callers owe: locks are released by their holder, objects exist. *)
Definition call_ok k (c : call) : Prop :=
  match c with
  | C_P sem => is_Some (sems k !! sem)
  | C_V sem => sem_ready k sem
  | C_acquire lock => is_Some (locks k !! lock)
  | C_release lock => locks k !! lock = Some (curthread k)
  | C_wait cv lock => cv_addr k cv /\ locks k !! lock = Some (curthread k)
  | C_signal cv lock | C_broadcast cv lock => cv_addr k cv /\ is_Some (locks k !! lock)
  | C_yield | C_clocksleep _ | C_exit => True
  | C_fork namelen => 0 <= namelen < 2 ^ 30
  end.

Definition irq_ok k (i : irq) : Prop :=
  match i with Irq_timer => True | Irq_device sem => sem_ready k sem end.

Definition no_runnable k : Prop := exists q, runqueue k = Some q /\ q_empty q = true.

Definition enabled k (e : event) : Prop :=
  match e with
  | E_call c => curthread k <> 0 /\ stacks k !! curthread k = Some [] /\ call_ok k c
  | E_resume => curthread k <> 0 /\ exists f fs, stacks k !! curthread k = Some (f :: fs)
  | E_irq i => irq_ok k i /\
      ((curthread k <> 0 /\ iec (k_cpu k) = true) \/ (curthread k = 0 /\ no_runnable k))
  | E_dispatch => curthread k = 0 /\ ~ no_runnable k
  end.

End enabled.
