(* ===== verification/SynchInv.v ===== *)
(** The invariant of the kernel's threads, and that a step of the current thread
    keeps it.

    A thread is running, runnable, asleep, a zombie or not yet started.  [tplace]
    says for each of them what its stack of suspended calls can look like: which
    operation it is in the middle of, at which interrupt level, and what it
    waits for.  A thread that sleeps on a semaphore or a lock finds nothing there
    to be had: no wakeup is lost. *)

From Stdlib Require Import ZArith Lia.
From stdpp Require Import prelude gmap list.
From S2P Require Import Prelude Heap Spl Array Queue SynchObj Threads Synch.

(** ** The invariant *)

(** The addresses of the synchronisation objects. *)
Record names := mk_names { n_sems : gset Z; n_locks : gset Z; n_lbolt : Z }.

Definition names_of {H R} (k : kern H R) : names := mk_names (dom (sems k)) (dom (locks k)) (lbolt k).

Record names_ok (N : names) : Prop := {
  no_disjoint : n_sems N ## n_locks N;
  no_sems : 0 ∉ n_sems N;
  no_locks : 0 ∉ n_locks N;
  no_lbolt : n_lbolt N ∉ n_sems N ∪ n_locks N;
}.

(** Stacks of a thread that runs its own code, perhaps between two parts of an
    operation, with interrupts on. *)
Inductive ustack : list frame -> Prop :=
| us_nil : ustack []
| us_fork p : ustack [F_fork p]
| us_release l : ustack [F_release l].

(** Frames of a thread that waits for something at address [a]. *)
Inductive wstack (N : names) : Z -> list frame -> Prop :=
| ws_P s : s ∈ n_sems N -> wstack N s [F_P s 0]
| ws_acquire l : l ∈ n_locks N -> wstack N l [F_acquire l 0]
| ws_reacquire l : l ∈ n_locks N -> wstack N l [F_acquire l SPL_HIGH; F_splx 0]
| ws_cv cv l : l ∈ n_locks N -> cv ∉ n_sems N ∪ n_locks N -> wstack N cv [F_cv_wait l 0]
| ws_clock n : wstack N (n_lbolt N) [F_clocksleep n 0].

(** What is on the stack below [F_switch]. *)
Inductive sstack (N : names) : list frame -> Prop :=
| ss_sleep a w : wstack N a w -> sstack N (F_sleep :: w)
| ss_yield : sstack N [F_yield 0]
| ss_irq u : ustack u -> sstack N (F_yield SPL_HIGH :: F_trap 0 0 :: u).

(** Stacks of threads in the run queue. *)
Inductive off_stack (N : names) : list frame -> Prop :=
| os_start : off_stack N [F_threadstart]
| os_switch s : sstack N s -> off_stack N (F_switch :: s).

(** Stacks of the current thread. *)
Inductive run_stack (N : names) : list frame -> Prop :=
| rs_user u : ustack u -> run_stack N u
| rs_wait a w : wstack N a w -> run_stack N w
| rs_splx : run_stack N [F_splx 0]
| rs_rest s : sstack N s -> run_stack N s
| rs_trap u : ustack u -> run_stack N (F_trap 0 0 :: u)
| rs_off s : off_stack N s -> run_stack N s.

(** The interrupt level a stack is resumed at, and [in_interrupt]. *)
Definition level (fs : list frame) : Z :=
  match fs with [] | [F_fork _] | [F_release _] => 0 | _ => SPL_HIGH end.
Definition is_trap (f : frame) : bool := match f with F_trap _ _ => true | _ => false end.
Definition inint (fs : list frame) : Z := if existsb is_trap fs then 1 else 0.

Ltac in_app := repeat match goal with Hp : context [_ ∈ _ ++ _] |- _ => rewrite !elem_of_app in Hp end;
  rewrite ?elem_of_app; first [tauto|eauto 10].

Inductive place := Cur | Ready | Asleep | Zombie | Newborn.

Section invariant.
Context {H R : Type} `{HeapLaws H} `{!ProcEnv R}.
Implicit Types (L : lists H) (k : kern H R) (N : names) (rq sl zb fk : list Z).

(** Nothing at [a] to be had at the moment. *)
Definition blocked k (a : Z) : Prop :=
  (forall c, sems k !! a = Some c -> c = 0) /\ (forall o, locks k !! a = Some o -> o <> 0).

(** [in_interrupt] of a thread that is not running is saved in its pcb; the
    thread that has just been left still has it in the global. *)
Definition saved_in k (p : Z) (t : thread) (fs : list frame) : Prop :=
  if bool_decide (curthread k = 0 /\ prevthread k = p) then in_interrupt k = inint fs
  else pcb_ininterrupt t = inint fs.

(** What holds of a thread, by the list it is on; [fk] are the threads that
    [thread_fork] has created and not yet started. *)
Definition tplace N k fk (pl : place) (p : Z) (t : thread) (fs : list frame) : Prop :=
  match pl with
  | Cur => run_stack N fs /\ curspl (k_cpu k) = level fs /\ in_interrupt k = inint fs
  | Ready => off_stack N fs /\ saved_in k p t fs
  | Asleep => exists w, fs = F_switch :: F_sleep :: w /\ wstack N (t_sleepaddr t) w /\
      blocked k (t_sleepaddr t) /\ saved_in k p t fs
  | Zombie => fs = [F_switch; F_exit]
  | Newborn => fs = [F_threadstart] /\ ready_thread t
  end.

Record tok N k fk (pl : place) (p : Z) (t : thread) (fs : list frame) : Prop := {
  tk_thread : threads k !! p = Some t;
  tk_stack : stacks k !! p = Some fs;
  tk_guard : guard_ok t;
  tk_res : t_vmspace t = 0 /\ t_cwd t = 0;
  tk_release : forall l, F_release l ∈ fs -> locks k !! l = Some p;
  tk_fork : forall q, F_fork q ∈ fs -> q ∈ fk /\
    exists tq, threads k !! q = Some tq /\ parent tq = p;
  tk_place : tplace N k fk pl p t fs;
}.

Definition tinv N k fk pl p : Prop := exists t fs, tok N k fk pl p t fs.

Definition here k : list Z := if curthread k =? 0 then [] else [curthread k].

Record wf N k rq sl zb fk : Prop := {
  w_nodup : NoDup (here k ++ rq ++ sl ++ zb ++ fk);
  w_dom : forall p, p ∈ here k ++ rq ++ sl ++ zb ++ fk <-> is_Some (threads k !! p);
  w_stacks : dom (stacks k) = dom (threads k);
  w_num : numthreads k = Z.of_nat (length (here k ++ rq ++ sl));
  w_zero : threads k !! 0 = None;
  w_cur : curthread k <> 0 -> tinv N k fk Cur (curthread k);
  w_rq : forall p, p ∈ rq -> tinv N k fk Ready p;
  w_sl : forall p, p ∈ sl -> tinv N k fk Asleep p;
  w_zb : forall p, p ∈ zb -> tinv N k fk Zombie p;
  w_fk : forall p, p ∈ fk -> tinv N k fk Newborn p;
  w_idle : curthread k = 0 -> prevthread k ∈ rq ++ sl ++ zb /\ curspl (k_cpu k) = SPL_HIGH;
  w_cpu : spl_ok (k_cpu k);
  w_names : names_of k = N /\ names_ok N;
  w_sems : forall s c, sems k !! s = Some c -> 0 <= c;
}.

(** A state of the running kernel. *)
Definition sys N k rq sl zb fk : Prop :=
  exists L bs, k = put_lists L k /\ trep L (threads k) rq sl zb bs /\ wf N k rq sl zb fk /\
    numthreads k <= size (l_runqueue L).

(** There is memory for a list that has to grow, threads have all their objects,
    and there are not too many of them. *)
Record healthy k : Prop := {
  hl_rq : forall q, runqueue k = Some q -> numthreads k < size q \/ mem_left (k_heap k);
  hl_sl : forall a, sleepers k = Some a -> num a < max a \/ mem_left (k_heap k);
  hl_zb : forall a, zombies k = Some a -> num a < max a \/ mem_left (k_heap k);
  hl_whole : forall p t, threads k !! p = Some t -> whole t;
  hl_few : Z.of_nat (base.size (threads k)) < 2 ^ 24;
}.

(** *** Consequences *)

Lemma wf_length N k rq sl zb fk : wf N k rq sl zb fk ->
  length (here k ++ rq ++ sl ++ zb ++ fk) = base.size (threads k).
Proof.
  intros W. rewrite <- size_dom. rewrite <- (size_list_to_set (C := gset Z)) by apply W.
  f_equal. apply set_eq. intros p. rewrite elem_of_list_to_set, elem_of_dom. apply W.
Qed.

Lemma ustack_level u : ustack u -> level u = 0 /\ inint u = 0.
Proof. by intros []. Qed.

Lemma wstack_level N a w : wstack N a w -> level w = SPL_HIGH /\ inint w = 0.
Proof. by intros []. Qed.

Lemma off_level N s : off_stack N s -> level s = SPL_HIGH.
Proof. by intros []. Qed.

Lemma sstack_level N s : sstack N s -> level s = SPL_HIGH.
Proof. by intros []. Qed.

(** *** Threads a step does not touch *)

Lemma tinv_stable N k k' fk fk' pl p :
  tinv N k fk pl p -> pl <> Cur ->
  threads k' !! p = threads k !! p -> stacks k' !! p = stacks k !! p ->
  (forall l, locks k !! l = Some p -> locks k' !! l = Some p) ->
  (pl = Asleep -> forall t, threads k !! p = Some t ->
     blocked k (t_sleepaddr t) -> blocked k' (t_sleepaddr t)) ->
  (forall t fs, saved_in k p t fs -> saved_in k' p t fs) ->
  (forall q tq, q ∈ fk -> threads k !! q = Some tq -> parent tq = p ->
     q ∈ fk' /\ exists tq', threads k' !! q = Some tq' /\ parent tq' = p) ->
  tinv N k' fk' pl p.
Proof.
  intros (t & fs & [Ht Hs Hg Hr Hrel Hfk Hpl]) Hne Et Es Hl Hb Hsv Hf. exists t, fs.
  split; [congruence|congruence|done|done| | |].
  - intros l Hin. by apply Hl, Hrel.
  - intros q Hin. apply Hfk in Hin as (? & tq & ? & ?). by eapply Hf.
  - destruct pl; simpl in *; [done| | |done|done].
    + naive_solver.
    + destruct Hpl as (w & -> & Hw & Hbl & Hsi). exists w. split_and!; [done|done| |by apply Hsv].
      by apply Hb.
Qed.

(** A sleeper that has been woken. *)
Lemma tinv_wake N k fk p : tinv N k fk Asleep p -> tinv N k fk Ready p.
Proof.
  intros (t & fs & [Ht Hs Hg Hr Hrel Hfk (w & -> & Hw & _ & Hsv)]). exists t, (F_switch :: F_sleep :: w).
  split; [done..|]. split; [|done]. eapply os_switch, ss_sleep, Hw.
Qed.

(** *** A step of the current thread

    [dst] says where the thread goes, [wk] are the sleepers it has woken. *)

Definition at_place (dst pl : place) (p : Z) : list Z :=
  match dst, pl with
  | Ready, Ready | Asleep, Asleep | Zombie, Zombie => [p]
  | _, _ => []
  end.

Lemma elem_of_at_place dst pl p q : q ∈ at_place dst pl p -> dst = pl /\ q = p.
Proof. destruct dst, pl; simpl; intros Hq; try by apply not_elem_of_nil in Hq. all: by apply list_elem_of_singleton in Hq. Qed.

(** What a step that reports [d] does to semaphores and locks. *)
Definition effect (d : did) k k' : Prop :=
  lbolt k' = lbolt k /\
  match d with
  | D_none => sems k' = sems k /\ locks k' = locks k
  | D_P s => locks k' = locks k /\
      exists c, sems k !! s = Some c /\ 0 < c /\ sems k' = <[s := c - 1]> (sems k)
  | D_V s => locks k' = locks k /\
      exists c, sems k !! s = Some c /\ sems k' = <[s := c + 1]> (sems k)
  | D_acquire l => sems k' = sems k /\
      locks k !! l = Some 0 /\ locks k' = <[l := curthread k]> (locks k)
  | D_release l => sems k' = sems k /\
      locks k !! l = Some (curthread k) /\ locks k' = <[l := 0]> (locks k)
  end.

(** The address a step makes available. *)
Definition frees (d : did) (a : Z) : bool :=
  match d with D_V s => s =? a | D_release l => l =? a | _ => false end.

Lemma effect_names d k k' : effect d k k' -> names_of k' = names_of k.
Proof.
  intros [El He]. unfold names_of. rewrite El. f_equal; destruct d; simpl in He; destruct_and?;
    repeat match goal with Hx : exists _, _ |- _ => destruct Hx as (? & ?); destruct_and? end;
    try congruence; match goal with Hx : _ = <[_ := _]> _ |- _ => rewrite Hx end;
    apply dom_insert_lookup_L; eauto.
Qed.

Lemma effect_sems d k k' : effect d k k' ->
  (forall s c, sems k !! s = Some c -> 0 <= c) -> forall s c, sems k' !! s = Some c -> 0 <= c.
Proof.
  intros [_ He] Hk s c. destruct d as [|x|x|x|x]; simpl in He.
  - destruct He as [-> _]. apply Hk.
  - destruct He as (_ & c0 & Hc & Hpos & ->). rewrite lookup_insert.
    case_decide; [intros [= <-]; lia|apply Hk].
  - destruct He as (_ & c0 & Hc & ->). rewrite lookup_insert.
    case_decide; [intros [= <-]; apply Hk in Hc; lia|apply Hk].
  - destruct He as [-> _]. apply Hk.
  - destruct He as [-> _]. apply Hk.
Qed.

(** Locks of other threads stay theirs. *)
Lemma effect_locks d k k' l p : effect d k k' -> p <> curthread k -> p <> 0 ->
  locks k !! l = Some p -> locks k' !! l = Some p.
Proof.
  intros [_ He] Hp Hp0 Hl. destruct d as [|x|x|x|x]; simpl in He.
  - by destruct He as [_ ->].
  - by destruct He as [-> _].
  - by destruct He as [-> _].
  - destruct He as (_ & Hx & ->). rewrite lookup_insert_ne; [done|]. intros ->. congruence.
  - destruct He as (_ & Hx & ->). rewrite lookup_insert_ne; [done|]. intros ->. congruence.
Qed.

(** ... and so do the current thread's, unless it releases them. *)
Lemma effect_locks_cur d k k' l : effect d k k' -> curthread k <> 0 -> d <> D_release l ->
  locks k !! l = Some (curthread k) -> locks k' !! l = Some (curthread k).
Proof.
  intros [_ He] Hp0 Hd Hl. destruct d as [|x|x|x|x]; simpl in He.
  - by destruct He as [_ ->].
  - by destruct He as [-> _].
  - by destruct He as [-> _].
  - destruct He as (_ & Hx & ->). rewrite lookup_insert_ne; [done|]. intros ->. congruence.
  - destruct He as (_ & Hx & ->). rewrite lookup_insert_ne; [done|]. by intros ->.
Qed.

Lemma effect_blocked d k k' a : effect d k k' -> (forall l, d = D_acquire l -> curthread k <> 0) ->
  frees d a = false ->
  blocked k a -> blocked k' a.
Proof.
  intros [_ He] Hc0 Hf [Hs Hl]. destruct d as [|x|x|x|x]; simpl in He, Hf.
  - destruct He as [Es El]. split; [by rewrite Es|by rewrite El].
  - destruct He as (El & c & Hc & Hpos & Es). split; [|by rewrite El]. intros c'. rewrite Es, lookup_insert.
    case_decide as Hx; [|by apply Hs]. subst. apply Hs in Hc. lia.
  - destruct He as (El & c & Hc & Es). split; [|by rewrite El]. intros c'. rewrite Es.
    rewrite lookup_insert_ne by lia. by apply Hs.
  - destruct He as (Es & Hx & El). split; [by rewrite Es|]. intros o. rewrite El, lookup_insert.
    case_decide; [intros [= <-]; by eapply Hc0|by apply Hl].
  - destruct He as (Es & Hx & El). split; [by rewrite Es|]. intros o. rewrite El.
    rewrite lookup_insert_ne by lia. by apply Hl.
Qed.

(** The frames that rely on locks and newborn threads. *)
Definition user_frames (fs : list frame) : list frame :=
  List.filter (fun f => match f with F_release _ | F_fork _ => true | _ => false end) fs.

Record acts N k fk (sl2 : list Z) (d : did) (dst : place) (t' : thread) (fs fs' : list frame) k' : Prop := {
  ac_cur : curthread k' = match dst with Cur => curthread k | _ => 0 end;
  ac_prev : dst <> Cur -> prevthread k' = curthread k /\ curspl (k_cpu k') = SPL_HIGH;
  ac_num : numthreads k' = match dst with Zombie => numthreads k - 1 | _ => numthreads k end;
  ac_threads : threads k' = <[curthread k := t']> (threads k);
  ac_stacks : stacks k' = <[curthread k := fs']> (stacks k);
  ac_guard : guard_ok t' /\ t_vmspace t' = 0 /\ t_cwd t' = 0;
  ac_frames : (exists l, fs' = [F_release l] /\ d = D_none /\ locks k !! l = Some (curthread k)) \/
    user_frames fs' = [] \/ (user_frames fs' = user_frames fs /\ forall l, d <> D_release l);
  ac_place : tplace N k' fk dst (curthread k) t' fs';
  ac_cpu : spl_ok (k_cpu k');
  ac_effect : effect d k k';
  ac_woken : forall p t, p ∈ sl2 -> threads k !! p = Some t -> frees d (t_sleepaddr t) = false;
}.

Lemma user_frames_release fs l : F_release l ∈ user_frames fs <-> F_release l ∈ fs.
Proof. unfold user_frames. rewrite !list_elem_of_In, filter_In. tauto. Qed.

Lemma user_frames_fork fs p : F_fork p ∈ user_frames fs <-> F_fork p ∈ fs.
Proof. unfold user_frames. rewrite !list_elem_of_In, filter_In. tauto. Qed.

Lemma acts_tok N k fk sl2 d dst t t' fs fs' k' : curthread k <> 0 -> curthread k ∉ fk ->
  tok N k fk Cur (curthread k) t fs -> acts N k fk sl2 d dst t' fs fs' k' ->
  tok N k' fk dst (curthread k) t' fs'.
Proof.
  intros Hc0 Hfk [Ht Hs _ _ Hrel Hfork _] [_ _ _ Et Es Hg Hfr Hpl _ He _].
  split; [by rewrite Et, lookup_insert_eq|by rewrite Es, lookup_insert_eq|apply Hg|apply Hg| | |done].
  - intros l Hl. destruct Hfr as [(l' & -> & -> & Hl')|[Hnil|[Heq Hd]]].
    + apply list_elem_of_singleton in Hl as [= ->]. by eapply effect_locks_cur.
    + rewrite <- user_frames_release, Hnil in Hl. by apply not_elem_of_nil in Hl.
    + rewrite <- user_frames_release, Heq, user_frames_release in Hl.
      eapply effect_locks_cur; [done|done|apply Hd|by apply Hrel].
  - intros q Hq. destruct Hfr as [(l' & -> & -> & Hl')|[Hnil|[Heq Hd]]].
    + by apply list_elem_of_singleton in Hq.
    + rewrite <- user_frames_fork, Hnil in Hq. by apply not_elem_of_nil in Hq.
    + rewrite <- user_frames_fork, Heq, user_frames_fork in Hq. apply Hfork in Hq as (? & tq & ? & ?).
      split; [done|]. exists tq. split; [|done]. rewrite Et, lookup_insert_ne; [done|]. congruence.
Qed.

Lemma wf_act N k rq sl zb fk wk sl2 d dst t t' fs fs' k' :
  wf N k rq sl zb fk -> curthread k <> 0 -> dst <> Newborn ->
  tok N k fk Cur (curthread k) t fs ->
  sl ≡ₚ wk ++ sl2 -> acts N k fk sl2 d dst t' fs fs' k' ->
  wf N k' (rq ++ wk ++ at_place dst Ready (curthread k)) (sl2 ++ at_place dst Asleep (curthread k))
    (zb ++ at_place dst Zombie (curthread k)) fk.
Proof.
  intros W Hc0 Hdst Htok0 Hsl Ha. pose proof Ha as [Ecur Hprev Enum Et Es _ _ _ Hcpu He Hwok].
  pose proof (w_nodup _ _ _ _ _ _ W) as Hnd.
  assert (here k = [curthread k]) as Hh by (unfold here; by rewrite (proj2 (Z.eqb_neq _ _) Hc0)).
  rewrite Hh in Hnd. simpl in Hnd. apply NoDup_cons in Hnd as [Hnin Hnd].
  assert (is_Some (threads k !! curthread k)) as [tc Htc].
  { apply (w_dom _ _ _ _ _ _ W). rewrite Hh. by left. }
  assert (forall p, p ∈ rq ++ sl ++ zb ++ fk -> p <> curthread k) as Hother by (by intros p Hp ->).
  assert (forall p, p ∈ rq ++ sl ++ zb ++ fk -> p <> 0) as Hnz.
  { intros p Hp ->. assert (is_Some (threads k !! 0)) as [? Hx]; [|by rewrite (w_zero _ _ _ _ _ _ W) in Hx].
    apply (w_dom _ _ _ _ _ _ W). rewrite Hh. by right. }
  assert (tok N k' fk dst (curthread k) t' fs') as Htok.
  { eapply acts_tok; [done| |done|done]. intros Hx. apply Hnin. in_app. }
  assert (forall pl p, p ∈ rq ++ sl ++ zb ++ fk -> pl <> Cur -> (pl = Asleep -> p ∈ sl2) ->
    tinv N k fk pl p -> tinv N k' fk pl p) as Hst.
  { intros pl p Hp Hpl Hps Hi. specialize (Hother p Hp).
    eapply tinv_stable; [exact Hi|done| | | | | |].
    - by rewrite Et, lookup_insert_ne.
    - by rewrite Es, lookup_insert_ne.
    - intros l. eapply effect_locks; [done|done|by apply Hnz].
    - intros -> tp Htp. eapply effect_blocked; [done|done|]. apply (Hwok p); [by apply Hps|done].
    - intros ? ?. unfold saved_in. rewrite bool_decide_false by tauto.
      rewrite bool_decide_false; [done|]. rewrite Ecur. destruct dst; try tauto;
      intros [_ Hpp]; destruct Hprev as [Hpp' _]; try done; congruence.
    - intros q tq Hq Htq Hpar. split; [done|]. exists tq. split; [|done].
      rewrite Et, lookup_insert_ne; [done|]. intros Heq. apply Hnin. rewrite Heq. in_app. }
  pose (l' := here k' ++ (rq ++ wk ++ at_place dst Ready (curthread k)) ++
    (sl2 ++ at_place dst Asleep (curthread k)) ++ (zb ++ at_place dst Zombie (curthread k)) ++ fk).
  assert (here k ++ rq ++ sl ++ zb ++ fk ≡ₚ l') as Hperm.
  { unfold l'. rewrite Hh, Hsl. unfold here. rewrite Ecur.
    destruct dst; simpl; try (rewrite (proj2 (Z.eqb_neq _ _) Hc0)); try done; simpl; solve_Permutation. }
  assert (forall p, p ∈ wk -> p ∈ sl) as Hwk by (intros p Hp; rewrite Hsl; in_app).
  assert (forall p, p ∈ sl2 -> p ∈ sl) as Hs2 by (intros p Hp; rewrite Hsl; in_app).
  fold l'. split.
  - fold l'. rewrite <- Hperm. apply W.
  - fold l'. intros p. rewrite <- Hperm, (w_dom _ _ _ _ _ _ W), Et.
    destruct (decide (p = curthread k)) as [->|]; [rewrite lookup_insert_eq, Htc; done|].
    by rewrite lookup_insert_ne.
  - rewrite Et, Es, !dom_insert_L. f_equal. apply W.
  - pose proof (Permutation_length Hsl) as Hlen. rewrite length_app in Hlen.
    rewrite Enum, (w_num _ _ _ _ _ _ W), Hh. unfold here. rewrite Ecur.
    destruct dst; try done; rewrite ?(proj2 (Z.eqb_neq _ _) Hc0); simpl; rewrite !length_app; simpl; lia.
  - rewrite Et, lookup_insert_ne by done. apply W.
  - rewrite Ecur. destruct dst; try done. intros _. by exists t', fs'.
  - intros p. rewrite !elem_of_app. intros [Hp|[Hp|Hp]].
    + apply Hst; [in_app|done|done|by apply W].
    + apply Hst; [in_app|done|done|]. apply tinv_wake, W, Hwk, Hp.
    + apply elem_of_at_place in Hp as [-> ->]. by exists t', fs'.
  - intros p. rewrite elem_of_app. intros [Hp|Hp].
    + apply Hst; [in_app|done|done|]. apply W, Hs2, Hp.
    + apply elem_of_at_place in Hp as [-> ->]. by exists t', fs'.
  - intros p. rewrite elem_of_app. intros [Hp|Hp].
    + apply Hst; [in_app|done|done|by apply W].
    + apply elem_of_at_place in Hp as [-> ->]. by exists t', fs'.
  - intros p Hp. apply Hst; [in_app|done|done|by apply W].
  - rewrite Ecur. intros Hc. destruct dst; try done; (destruct Hprev as [-> ?]; [done|]);
    (split; [simpl; rewrite !elem_of_app, list_elem_of_singleton; tauto|done]).
  - done.
  - split; [|apply W]. rewrite (effect_names _ _ _ He). apply W.
  - eapply effect_sems; [done|]. apply W.
Qed.

End invariant.
