(* ===== verification/SynchRun.v ===== *)
(** Every step of the kernel keeps the invariant of SynchInv.v and does to
    semaphores and locks what it reports, and what follows for whole runs. *)

From Stdlib Require Import ZArith Lia.
From stdpp Require Import prelude gmap list.
From S2P Require Import Prelude Heap Spl Array Queue SynchObj Threads Synch SynchInv.

(** ** Steps of the current thread *)

Section current.
Context {H R : Type} `{HeapLaws H} `{!ProcEnv R}.
Implicit Types (L : lists H) (k : kern H R) (rq sl zb fk wk : list Z).

(** The current thread [t] with its stack [fs], next to the lists. *)
Record focus N L k rq sl zb fk bs t fs : Prop := {
  fo_eq : k = put_lists L k;
  fo_rep : trep L (threads k) rq sl zb bs;
  fo_wf : wf N k rq sl zb fk;
  fo_size : numthreads k <= size (l_runqueue L);
  fo_cur : curthread k <> 0;
  fo_tok : tok N k fk Cur (curthread k) t fs;
}.

(** [healthy], in terms of the lists. *)
Record room L k : Prop := {
  rm_rq : numthreads k < size (l_runqueue L) \/ mem_left (l_heap L);
  rm_sl : num (l_sleepers L) < max (l_sleepers L) \/ mem_left (l_heap L);
  rm_zb : num (l_zombies L) < max (l_zombies L) \/ mem_left (l_heap L);
  rm_few : Z.of_nat (base.size (threads k)) < 2 ^ 24;
}.

Lemma healthy_room L k : k = put_lists L k -> healthy k -> room L k.
Proof.
  intros Heq [Hrq Hsl Hzb _ Hf].
  assert (k_heap k = l_heap L) as Hh by (by rewrite Heq).
  rewrite Hh in *. split; [apply Hrq|apply Hsl|apply Hzb|done]; by rewrite Heq.
Qed.

(** How many frames are left to run; [cv_wait] leaves another one. *)
Fixpoint weight (fs : list frame) : nat :=
  match fs with
  | [] => 0
  | F_cv_wait _ _ :: fs => 2 + weight fs
  | _ :: fs => 1 + weight fs
  end.

(** What a step that reports [d] leaves: a state of the running kernel, with
    threads added at the end of the run queue at most, and a current thread with
    at most [n] frames to run. *)
Definition next N k rq (n : nat) (d : did) k' : Prop :=
  exists rq' sl' zb' fk', sys N k' rq' sl' zb' fk' /\ effect d k k' /\
    (exists new, rq' = rq ++ new) /\
    (curthread k' = 0 \/ curthread k' = curthread k /\
       exists fs', stacks k' !! curthread k = Some fs' /\ (weight fs' <= n)%nat).

Lemma sem_get_runs s c k1 (Q : Z -> kern H R -> Prop) E :
  sems k1 !! s = Some c -> Q c k1 -> runs (sem_get s) k1 Q E.
Proof. intros Hs ?. unfold runs, sem_get. by rewrite Hs. Qed.

Lemma lock_get_runs l o k1 (Q : Z -> kern H R -> Prop) E :
  locks k1 !! l = Some o -> Q o k1 -> runs (lock_get l) k1 Q E.
Proof. intros Hs ?. unfold runs, lock_get. by rewrite Hs. Qed.

Lemma splx_runs n k1 (Q : Z -> kern H R -> Prop) E : 0 <= n ->
  Q (curspl (k_cpu k1)) (with_kcpu (mk_cpu n (n =? 0)) k1) -> runs (splx n) k1 Q E.
Proof. intros Hn ?. eapply runs_intro_ret; [by apply splx_eq|done]. Qed.

Lemma splhigh_runs k1 (Q : Z -> kern H R -> Prop) E :
  Q (curspl (k_cpu k1)) (with_kcpu (mk_cpu SPL_HIGH false) k1) -> runs splhigh k1 Q E.
Proof. intros. eapply runs_intro_ret; [by apply splhigh_eq|done]. Qed.

Section steps.
Variables (N : names) (L : lists H) (k : kern H R) (rq sl zb fk : list Z).
Variables (bs : list (Z * Z)) (t : thread) (fs : list frame) (n : nat).
Hypothesis HF : focus N L k rq sl zb fk bs t fs.
Hypothesis HR : room L k.

Lemma focus_here : here k = [curthread k].
Proof. unfold here. by rewrite (proj2 (Z.eqb_neq _ _) (fo_cur _ _ _ _ _ _ _ _ _ _ HF)). Qed.

Lemma focus_num : numthreads k = Z.of_nat (length rq + length sl) + 1.
Proof.
  rewrite (w_num _ _ _ _ _ _ (fo_wf _ _ _ _ _ _ _ _ _ _ HF)), focus_here, !length_app. simpl. lia.
Qed.

Lemma focus_few : numthreads k < 2 ^ 24 /\ Z.of_nat (length zb) < 2 ^ 24.
Proof.
  pose proof (wf_length _ _ _ _ _ _ (fo_wf _ _ _ _ _ _ _ _ _ _ HF)) as Hl.
  rewrite focus_here, !length_app in Hl. simpl in Hl. pose proof (rm_few _ _ HR).
  rewrite focus_num. lia.
Qed.

(** [k1] is a state in the middle of an operation of the current thread: [wk]
    are the sleepers it has woken so far, [d] is what it has done, [fs1] is what
    is left of its stack. *)
Record mid wk (sl2 : list Z) (d : did) (t1 : thread) (fs1 : list frame) L1 k1 : Prop := {
  md_rep : trep L1 (threads k1) (rq ++ wk) sl2 zb bs;
  md_perm : sl ≡ₚ wk ++ sl2;
  md_requeue : requeue (numthreads k - 1) L L1;
  md_cur : curthread k1 = curthread k;
  md_num : numthreads k1 = numthreads k;
  md_threads : threads k1 = <[curthread k := t1]> (threads k);
  md_thread : guard_ok t1 /\ t_vmspace t1 = 0 /\ t_cwd t1 = 0;
  md_stacks : stacks k1 = <[curthread k := fs1]> (stacks k);
  md_effect : effect d k k1;
  md_cpu : spl_ok (k_cpu k1);
}.

(** Whoever sleeps on what the step makes available has been woken. *)
Definition woken (sl2 : list Z) (d : did) : Prop :=
  forall p tp, p ∈ sl2 -> threads k !! p = Some tp -> frees d (t_sleepaddr tp) = false.

(** What the frames [fs'] that are left rely on. *)
Definition frames_ok (d : did) (fs' : list frame) : Prop :=
  (exists l, fs' = [F_release l] /\ d = D_none /\ locks k !! l = Some (curthread k)) \/
  user_frames fs' = [] \/ (user_frames fs' = user_frames fs /\ forall l, d <> D_release l).

Lemma mid_start : mid [] sl D_none t fs L k.
Proof.
  pose proof HF as [Heq Hr W Hs Hc [Ht Hst Hg Hres _ _ _]].
  split; rewrite ?app_nil_r, ?insert_id by done; try done; try apply W.
  apply requeue_refl. left. lia.
Qed.

(** Registers and counters can be changed freely. *)
Lemma mid_regs wk sl2 d t1 fs1 L1 k1 k2 : mid wk sl2 d t1 fs1 L1 k1 ->
  threads k2 = threads k1 -> stacks k2 = stacks k1 -> curthread k2 = curthread k1 ->
  numthreads k2 = numthreads k1 -> sems k2 = sems k1 -> locks k2 = locks k1 -> lbolt k2 = lbolt k1 ->
  spl_ok (k_cpu k2) -> mid wk sl2 d t1 fs1 L1 k2.
Proof.
  intros [? ? ? ? ? ? ? ? He ?] Et Es Ec En Esm El Elb Hc. split; try congruence; try done.
  unfold effect in *. by rewrite Elb, Esm, El.
Qed.

Lemma next_act wk sl2 d dst t' fs' L' bs' k1 :
  dst <> Newborn -> sl ≡ₚ wk ++ sl2 -> acts N k fk sl2 d dst t' fs fs' (put_lists L' k1) ->
  trep L' (threads k1) (rq ++ wk ++ at_place dst Ready (curthread k))
    (sl2 ++ at_place dst Asleep (curthread k)) (zb ++ at_place dst Zombie (curthread k)) bs' ->
  numthreads k1 <= size (l_runqueue L') -> (dst = Cur -> weight fs' <= n)%nat ->
  next N k rq n d (put_lists L' k1).
Proof.
  intros Hd Hp Ha Hr Hs Hn. pose proof HF as [_ _ W _ Hc Htok].
  do 4 eexists. split_and!; [|apply Ha|by eexists|]; cycle 1.
  { rewrite (ac_cur _ _ _ _ _ _ _ _ _ _ Ha), (ac_stacks _ _ _ _ _ _ _ _ _ _ Ha), lookup_insert_eq.
    destruct dst; [right; split; [done|]; eexists; split; [done|by apply Hn]|by left..]. }
  exists L', bs'. split_and!; [done|done| |done].
  by eapply wf_act.
Qed.

Lemma focus_sleeper p : p ∈ sl -> is_Some (threads k !! p).
Proof. intros Hp. apply (w_dom _ _ _ _ _ _ (fo_wf _ _ _ _ _ _ _ _ _ _ HF)). in_app. Qed.

Lemma focus_not_asleep : curthread k ∉ rq ++ sl ++ zb ++ fk.
Proof.
  pose proof (w_nodup _ _ _ _ _ _ (fo_wf _ _ _ _ _ _ _ _ _ _ HF)) as Hnd.
  rewrite focus_here in Hnd. by apply NoDup_cons in Hnd as [? _].
Qed.

(** The operation ends and the thread keeps the processor. *)
Lemma mid_stay wk sl2 d t1 fs1 L1 k1 :
  mid wk sl2 d t1 fs1 L1 k1 -> woken sl2 d -> frames_ok d fs1 -> run_stack N fs1 ->
  curspl (k_cpu k1) = level fs1 -> in_interrupt k1 = inint fs1 -> (weight fs1 <= n)%nat ->
  next N k rq n d (put_lists L1 k1).
Proof.
  intros [Hr Hp Hk Ec En Et Ht Es He Hcpu] Hw Hf Hrs Hl Hi Hn.
  eapply (next_act wk sl2 d Cur t1 fs1 L1 bs); [done|done| | | |done].
  - by split.
  - simpl. by rewrite !app_nil_r.
  - rewrite En. pose proof (kp_moved _ _ _ Hk) as [_ Hs]. pose proof (fo_size _ _ _ _ _ _ _ _ _ _ HF). lia.
Qed.

(** Waking the sleepers on [a], from a state in which none has been woken. *)
Lemma mid_wakeup d t1 fs1 L1 k1 a :
  mid [] sl d t1 fs1 L1 k1 -> 0 < curspl (k_cpu k1) ->
  runs (thread_wakeup a) (put_lists L1 k1)
    (fun _ k' => exists wk sl2 L2, k' = put_lists L2 k1 /\ mid wk sl2 d t1 fs1 L2 k1 /\
       forall p tp, p ∈ sl2 -> threads k !! p = Some tp -> t_sleepaddr tp <> a)
    (fun _ _ => False).
Proof.
  intros [Hr Hp Hk Ec En Et Ht Es He Hcpu] Hspl. rewrite app_nil_r in Hr.
  pose proof focus_num as Hnum. pose proof (proj1 focus_few) as Hfew.
  pose proof (awake_asleep (threads k1) a sl) as Hpart.
  pose proof (Permutation_length Hpart) as Hlen. rewrite length_app in Hlen.
  eapply runs_mono; [eapply (thread_wakeup_runs L1 k1 rq sl zb bs a (numthreads k - 1)); [done|done| |lia|apply Hk]| |done].
  - intros p Hin. rewrite Et. apply lookup_insert_is_Some'. right. by apply focus_sleeper.
  - intros [] k' (L2 & -> & Hr2 & Hk2). exists (awake (threads k1) a sl), (asleep (threads k1) a sl), L2.
    split_and!; [done| |].
    + split; try done. by eapply requeue_trans.
    + intros p tp [Hs Hin]%list_elem_of_filter Htp.
      unfold sleeps_on in Hs. rewrite Et, lookup_insert_ne, Htp in Hs by (intros <-; apply focus_not_asleep; in_app).
      by apply Z.eqb_neq.
Qed.

(** Waking at most one. *)
Lemma mid_wakeone t1 fs1 L1 k1 a :
  mid [] sl D_none t1 fs1 L1 k1 -> 0 < curspl (k_cpu k1) ->
  runs (thread_wakeone a) (put_lists L1 k1)
    (fun _ k' => exists wk sl2 L2, k' = put_lists L2 k1 /\ mid wk sl2 D_none t1 fs1 L2 k1)
    (fun _ _ => False).
Proof.
  intros [Hr Hp Hk Ec En Et Ht Es He Hcpu] Hspl. rewrite app_nil_r in Hr.
  pose proof focus_num as Hnum. pose proof (proj1 focus_few) as Hfew.
  destruct (decide (sl = [])) as [Hnil|Hnn].
  { pose proof Hr as Hr0. rewrite Hnil in Hr0.
    eapply runs_intro_ret; [eapply thread_wakeone_nil; [exact Hr0|done]|].
    exists [], sl, L1. split; [done|]. split; try done. by rewrite app_nil_r. }
  assert (length sl <> 0)%nat by (by intros ?%nil_length_inv).
  eapply runs_mono; [eapply (thread_wakeone_runs L1 k1 rq sl zb bs a (numthreads k - 1)); [done|done| |lia|apply Hk]| |done].
  - intros p Hin. rewrite Et. apply lookup_insert_is_Some'. right. by apply focus_sleeper.
  - intros [] k' (L2 & -> & Hk2 & [[_ Hr2]|(pre & p & post & Hsl & _ & _ & Hr2)]).
    + exists [], sl, L2. split; [done|]. split; try done; [by rewrite app_nil_r|by eapply requeue_trans].
    + exists [p], (pre ++ post), L2. split; [done|]. split; try done; [|by eapply requeue_trans].
      rewrite Hsl. solve_Permutation.
Qed.

Lemma mid_room wk sl2 d t1 fs1 L1 k1 : mid wk sl2 d t1 fs1 L1 k1 ->
  (num (l_sleepers L1) < max (l_sleepers L1) \/ mem_left (l_heap L1)) /\
  (numthreads k < size (l_runqueue L1) \/ mem_left (l_heap L1)) /\
  l_zombies L1 = l_zombies L /\ l_heap L1 = l_heap L /\ (length sl2 <= length sl)%nat.
Proof.
  intros [[_ _ _ Hsl1 _] Hp [[Hz Hs] _ Hh Hm] _ _ _ _ _ _ _]. pose proof HF as [_ [_ _ _ Hsl _] _ Hsz _ _].
  pose proof HR as [Hrq Hrs _ _]. pose proof (Permutation_length Hp) as Hlen. rewrite length_app in Hlen.
  apply ashape_length in Hsl, Hsl1. rewrite Hh, Hm by lia. split_and!; [|destruct Hrq; [left; lia|by right]|done|done|lia].
  destruct Hrs; [left; lia|by right].
Qed.

Lemma mid_current wk sl2 d t1 fs1 L1 k1 : mid wk sl2 d t1 fs1 L1 k1 ->
  threads k1 !! curthread k1 = Some t1 /\ stacks k1 !! curthread k1 = Some fs1 /\ curthread k1 <> 0.
Proof.
  intros [_ _ _ -> _ -> _ -> _ _]. rewrite !lookup_insert_eq. split_and!; try done. apply HF.
Qed.

(** The thread goes to sleep on [a]. *)
Lemma mid_sleep wk sl2 d t1 fs1 L1 k1 a rest :
  mid wk sl2 d t1 fs1 L1 k1 -> woken sl2 d -> curspl (k_cpu k1) = SPL_HIGH ->
  in_interrupt k1 = 0 -> wstack N a (rest ++ fs1) -> blocked k1 a ->
  runs (thread_sleep a rest) (put_lists L1 k1) (fun _ k' => next N k rq n d k') (fun _ _ => False).
Proof.
  intros Hm Hw Hspl Hi Hws Hb. pose proof (mid_room _ _ _ _ _ _ _ Hm) as (Hrm & _ & _ & _ & Hl2).
  destruct (mid_current _ _ _ _ _ _ _ Hm) as (Ht1 & Hs1 & Hc1).
  pose proof Hm as [Hr Hp Hk Ec En Et Ht Es He Hcpu]. pose proof focus_num as Hnum. pose proof focus_few as [Hfew _].
  unfold thread_sleep, thr_set. run; [simpl; lia|]. eapply thr_runs; [exact Ht1|]. run. simpl.
  set (k2 := with_threads (<[curthread k1 := set_sleepaddr a t1]> (threads k1)) k1).
  change (with_threads _ (put_lists L1 k1)) with (put_lists L1 k2).
  eapply runs_mono; [eapply (mi_switch_runs S_SLEEP _ L1 k2 (curthread k1)
    (set_sleepaddr a t1) (next N k rq n d) (fun _ _ => False))| |done].
  - simpl. rewrite Hspl. done.
  - done.
  - done.
  - apply lookup_insert_eq.
  - apply Ht.
  - eapply runs_mono; [eapply (stash_sleep_runs L1 _ (rq ++ wk) sl2 zb bs)| |done].
    + simpl. by eapply trep_update.
    + lia.
    + done.
    + intros [] k' (L2 & -> & Hr2 & [_ Hs2]). simpl in Hr2.
      eapply (next_act wk sl2 d Asleep (set_sleepaddr a t1) (F_switch :: F_sleep :: rest ++ fs1)); [done|done| | | |done].
      * split; simpl; rewrite ?Ec in *; try done.
        -- by rewrite Et, insert_insert_eq.
        -- rewrite Hs1, Es, insert_insert_eq. done.
        -- right. left. by inversion Hws.
        -- exists (rest ++ fs1). split_and!; [done|done|done|]. unfold saved_in. simpl.
           rewrite bool_decide_true by done. rewrite Hi. symmetry. exact (proj2 (wstack_level _ _ _ Hws)).
      * simpl. rewrite <- Ec, !app_nil_r. exact Hr2.
      * simpl. rewrite En. pose proof (kp_moved _ _ _ Hk) as [_ Hs].
        pose proof (fo_size _ _ _ _ _ _ _ _ _ _ HF). lia.
  - by intros b k' [_ Hnx].
Qed.

(** The thread yields; [rest] are the frames of an interrupt, if there is one. *)
Lemma mid_yield wk sl2 d t1 fs1 L1 k1 rest :
  mid wk sl2 d t1 fs1 L1 k1 -> woken sl2 d ->
  sstack N (F_yield (curspl (k_cpu k1)) :: rest ++ fs1) ->
  in_interrupt k1 = inint (rest ++ fs1) ->
  user_frames (rest ++ fs1) = user_frames fs -> (forall l, d <> D_release l) ->
  runs (thread_yield rest) (put_lists L1 k1) (fun b k' => b = true /\ next N k rq n d k') (fun _ _ => False).
Proof.
  intros Hm Hw Hss Hi Huf Hd. pose proof (mid_room _ _ _ _ _ _ _ Hm) as (_ & Hrm & _ & _ & Hl2).
  destruct (mid_current _ _ _ _ _ _ _ Hm) as (Ht1 & Hs1 & Hc1).
  pose proof Hm as [Hr Hp Hk Ec En Et Ht Es He Hcpu]. pose proof focus_num as Hnum. pose proof focus_few as [Hfew _].
  pose proof (Permutation_length Hp) as Hlen. rewrite length_app in Hlen.
  unfold thread_yield. run. eapply runs_intro_ret; [apply splhigh_eq|]. run. simpl. run.
  set (k2 := with_kcpu (mk_cpu SPL_HIGH false) k1).
  change (with_kcpu _ (put_lists L1 k1)) with (put_lists L1 k2).
  eapply runs_mono; [eapply (mi_switch_runs S_READY _ L1 k2 (curthread k1) t1 (next N k rq n d) (fun _ _ => False))| |done].
  - done.
  - done.
  - done.
  - done.
  - apply Ht.
  - eapply runs_mono; [eapply (stash_ready_runs L1 _ (rq ++ wk) sl2 zb bs _ (numthreads k))| |done].
    + done.
    + done.
    + rewrite length_app. lia.
    + destruct Hrm as [?|Hmem]; [by left|right]. split; [done|].
      pose proof (kp_moved _ _ _ Hk) as [_ Hs]. pose proof (fo_size _ _ _ _ _ _ _ _ _ _ HF). lia.
    + intros [] k' (L2 & -> & Hr2 & [_ Hs2]). simpl in Hr2.
      eapply (next_act wk sl2 d Ready t1 (F_switch :: F_yield (curspl (k_cpu k1)) :: rest ++ fs1)); [done|done| | | |done].
      * split; simpl; rewrite ?Ec in *; try done.
        -- rewrite Hs1, Es, insert_insert_eq. done.
        -- by right; right.
        -- split; [by apply os_switch|]. unfold saved_in. simpl.
           rewrite bool_decide_true by done. rewrite Hi. done.
      * simpl. rewrite <- Ec, !app_nil_r, app_assoc. exact Hr2.
      * simpl. rewrite En. pose proof (kp_moved _ _ _ Hk) as [_ Hs].
        pose proof (fo_size _ _ _ _ _ _ _ _ _ _ HF). lia.
  - intros b k' [-> Hnx]. apply runs_ret. done.
Qed.

(** The thread ends. *)
Lemma mid_exit : fs = [] ->
  runs thread_exit (put_lists L k) (fun _ k' => next N k rq n D_none k') (fun _ _ => False).
Proof.
  intros Hfs. pose proof mid_start as Hm. rewrite Hfs in Hm.
  destruct (mid_current _ _ _ _ _ _ _ Hm) as (Ht1 & Hs1 & Hc1).
  pose proof Hm as [Hr Hp Hk _ _ Et (Hg & Hvm & Hcwd) Es _ _]. pose proof focus_num as Hnum. pose proof focus_few as [_ Hfew].
  rewrite app_nil_r in Hr.
  unfold thread_exit, check_guard. run. eapply thr_runs; [exact Ht1|]. rewrite Hvm, Hcwd.
  change (0 =? 0) with true. cbn iota. run.
  assert (runs (if t_stack t =? 0 then ret tt else assert (bool_decide (t_guard t = stack_magic)))
    (put_lists L k) (fun _ k' => k' = put_lists L k) (fun _ _ => False)) as Hguard.
  { destruct Hg as [-> | ->]; [done|]. by destruct (_ =? 0). }
  eapply runs_mono; [exact Hguard| |done]. intros [] _ ->. run.
  eapply runs_intro_ret; [apply splhigh_eq|]. run. { simpl. lia. }
  set (k2 := with_numthreads (numthreads k - 1) (with_kcpu (mk_cpu SPL_HIGH false) k)).
  change (with_numthreads _ _) with (put_lists L k2).
  eapply runs_mono; [eapply (mi_switch_runs S_ZOMB _ L k2 (curthread k) t (next N k rq n D_none) (fun _ _ => False))| |done].
  - done.
  - done.
  - done.
  - done.
  - done.
  - eapply runs_mono; [eapply (stash_zomb_runs L _ rq sl zb bs)| |done].
    + done.
    + done.
    + apply HR.
    + intros [] k' (L2 & -> & Hr2 & Hs2). simpl in Hr2.
      eapply (next_act [] sl D_none Zombie t [F_switch; F_exit]); [done|done| | | |done].
      * split; simpl; try done.
        -- by rewrite Hs1.
        -- by right; left.
      * simpl. by rewrite !app_nil_r.
      * simpl. rewrite Hs2. pose proof (fo_size _ _ _ _ _ _ _ _ _ _ HF). lia.
  - intros b k' [-> Hnx]. apply runs_ret. done.
Qed.

(** *** Semaphores and locks *)

Lemma focus_names : names_of k = N /\ names_ok N.
Proof. apply HF. Qed.

(** Objects change, the threads do not. *)
Lemma mid_objs wk sl2 d d' t1 fs1 L1 k1 k2 : mid wk sl2 d t1 fs1 L1 k1 ->
  threads k2 = threads k1 -> stacks k2 = stacks k1 -> curthread k2 = curthread k1 ->
  numthreads k2 = numthreads k1 -> spl_ok (k_cpu k2) -> effect d' k k2 ->
  mid wk sl2 d' t1 fs1 L1 k2.
Proof. intros [? ? ? ? ? ? ? ? He ?] Et Es Ec En Hc Hef. split; try congruence; done. Qed.

Lemma woken_none sl2 : woken sl2 D_none.
Proof. by intros p tp _ _. Qed.

Lemma sem_blocked k1 s : effect D_none k k1 -> s ∈ n_sems N -> sems k1 !! s = Some 0 -> blocked k1 s.
Proof.
  intros (El & Es & Elk) Hs Hc. split; [intros c; by rewrite Hc; intros [= <-]|].
  intros o Ho. destruct focus_names as [<- [Hd _ _ _]]. simpl in *.
  exfalso. apply (Hd s); [done|]. apply elem_of_dom. rewrite <- Elk. by exists o.
Qed.

Lemma lock_blocked k1 l o : effect D_none k k1 -> l ∈ n_locks N -> locks k1 !! l = Some o -> o <> 0 ->
  blocked k1 l.
Proof.
  intros (El & Es & Elk) Hl Ho Ho0. split; [|intros o'; rewrite Ho; by intros [= <-]].
  intros c Hc. destruct focus_names as [<- [Hd _ _ _]]. simpl in *.
  exfalso. apply (Hd l); [|done]. apply elem_of_dom. rewrite <- Es. by exists c.
Qed.

Lemma mid_P_loop t1 L1 k1 s : mid [] sl D_none t1 [] L1 k1 ->
  curspl (k_cpu k1) = SPL_HIGH -> in_interrupt k1 = 0 -> s ∈ n_sems N ->
  runs (P_loop s 0) (put_lists L1 k1)
    (fun b k' => next N k rq n (if b : bool then D_P s else D_none) k') (fun _ _ => False).
Proof.
  intros Hm Hspl Hi Hs. pose proof (md_effect _ _ _ _ _ _ _ Hm) as He. destruct He as (El & Es & Elk).
  assert (is_Some (sems k1 !! s)) as [c Hc].
  { rewrite Es. apply elem_of_dom. by destruct focus_names as [<- _]. }
  pose proof (w_sems _ _ _ _ _ _ (fo_wf _ _ _ _ _ _ _ _ _ _ HF) s c) as Hpos. rewrite <- Es in Hpos. specialize (Hpos Hc).
  unfold P_loop, sem_set. run. eapply sem_get_runs; [exact Hc|]. destruct (Z.eqb_spec c 0) as [->|Hne].
  - run. eapply runs_mono; [eapply mid_sleep; [done|apply woken_none|done|done| |]| |done].
    + by apply ws_P.
    + by apply sem_blocked.
    + intros [] k' Hnx. by apply runs_ret.
  - run; [lia|]. apply splx_runs; [done|]. run.
    change (with_kcpu _ _) with (put_lists L1 (with_kcpu (mk_cpu 0 true) (with_sems (<[s := c - 1]> (sems k1)) k1))).
    eapply mid_stay; [|..].
    + eapply mid_objs; [exact Hm|done..|]. split; [done|]. split; [done|]. exists c. rewrite <- Es. conj.
    + by intros p tp _ _.
    + by right; left.
    + apply rs_user, us_nil.
    + done.
    + done.
    + apply Nat.le_0_l.
Qed.

Lemma mid_acquire_loop t1 fs1 L1 k1 l spl : mid [] sl D_none t1 fs1 L1 k1 ->
  curspl (k_cpu k1) = SPL_HIGH -> in_interrupt k1 = 0 -> wstack N l (F_acquire l spl :: fs1) ->
  (weight fs1 <= n)%nat ->
  runs (acquire_loop l spl) (put_lists L1 k1)
    (fun b k' => next N k rq n (if b : bool then D_acquire l else D_none) k') (fun _ _ => False).
Proof.
  intros Hm Hspl Hi Hw Hn. pose proof (md_effect _ _ _ _ _ _ _ Hm) as He. pose proof He as (El & Es & Elk).
  assert (l ∈ n_locks N) as Hl by (by inversion Hw).
  assert (is_Some (locks k1 !! l)) as [o Ho].
  { rewrite Elk. apply elem_of_dom. by destruct focus_names as [<- _]. }
  unfold acquire_loop, lock_set. run. eapply lock_get_runs; [exact Ho|]. destruct (Z.eqb_spec o 0) as [->|Hne]; simpl.
  - run. assert (0 <= spl /\ run_stack N fs1 /\ spl = level fs1 /\ inint fs1 = 0 /\ user_frames fs1 = []) as (H0' & Hrs & Hlv & Hin & Huf).
    { inversion Hw; subst; split_and!; try done; [apply rs_user, us_nil|apply rs_splx]. }
    apply splx_runs; [done|]. run.
    change (with_kcpu _ _) with (put_lists L1 (with_kcpu (mk_cpu spl (spl =? 0)) (with_locks (<[l := curthread k1]> (locks k1)) k1))).
    eapply mid_stay; [|..].
    + eapply mid_objs; [exact Hm|done..| |]; [by split|]. split; [done|]. split; [done|].
      rewrite <- Elk. split; [done|]. simpl. by rewrite (md_cur _ _ _ _ _ _ _ Hm).
    + by intros p tp _ _.
    + by right; left.
    + done.
    + done.
    + simpl. congruence.
    + done.
  - run. eapply runs_mono; [eapply mid_sleep; [done|apply woken_none|done|done| |]| |done].
    + done.
    + by eapply lock_blocked.
    + intros [] k' Hnx. by apply runs_ret.
Qed.

(** An operation that has woken everyone it had to. *)
Definition finished (d : did) (t1 : thread) (fs1 : list frame) k1 k' : Prop :=
  exists wk sl2 L2 k2, k' = put_lists L2 k2 /\ mid wk sl2 d t1 fs1 L2 k2 /\ woken sl2 d /\
    k_cpu k2 = k_cpu k1 /\ in_interrupt k2 = in_interrupt k1.

Lemma finished_stay d t1 fs1 k1 k' : finished d t1 fs1 k1 k' -> frames_ok d fs1 -> run_stack N fs1 ->
  curspl (k_cpu k1) = level fs1 -> in_interrupt k1 = inint fs1 -> (weight fs1 <= n)%nat ->
  next N k rq n d k'.
Proof.
  intros (wk & sl2 & L2 & k2 & -> & Hm & Hw & Hc & Hi) Hf Hr Hl Hin Hn.
  eapply mid_stay; [done..| | |done]; congruence.
Qed.

(** Back to the interrupt level [c] of before. *)
Lemma finished_splx wk sl2 d t1 fs1 L2 k2 k1 : mid wk sl2 d t1 fs1 L2 k2 -> woken sl2 d ->
  spl_ok (k_cpu k1) -> in_interrupt k2 = in_interrupt k1 ->
  finished d t1 fs1 k1 (put_lists L2
    (with_kcpu (mk_cpu (curspl (k_cpu k1)) (curspl (k_cpu k1) =? 0)) k2)).
Proof.
  intros Hm Hw Hc Hi. exists wk, sl2, L2. eexists. split_and!; [done| |done| |done].
  - eapply mid_regs; [exact Hm|done..|]. by rewrite (spl_ok_eta _ Hc).
  - simpl. by apply spl_ok_eta.
Qed.

Lemma mid_V t1 fs1 L1 k1 s : mid [] sl D_none t1 fs1 L1 k1 -> sem_ready k s -> s <> 0 ->
  runs (V s) (put_lists L1 k1) (fun _ k' => finished (D_V s) t1 fs1 k1 k') (fun _ _ => False).
Proof.
  intros Hm (c & Hc & Hmax) Hs0. pose proof (md_effect _ _ _ _ _ _ _ Hm) as (El & Es & Elk).
  pose proof (w_sems _ _ _ _ _ _ (fo_wf _ _ _ _ _ _ _ _ _ _ HF) s c Hc) as Hpos.
  unfold V, sem_set. run. { apply negb_true_iff. lia. }
  apply splhigh_runs. run. eapply sem_get_runs; [simpl; rewrite Es; exact Hc|]. rewrite i32_small by lia. run; [lia|].
  set (k2 := with_sems (<[s := c + 1]> (sems k1)) (with_kcpu (mk_cpu SPL_HIGH false) k1)).
  assert (mid [] sl (D_V s) t1 fs1 L1 k2) as Hm2.
  { eapply mid_objs; [exact Hm|done..|]. split; [done|]. split; [done|]. exists c. by rewrite <- (f_equal (insert s (c + 1)) Es). }
  eapply runs_mono; [eapply (mid_wakeup _ _ _ _ k2 s Hm2); done| |done].
  intros [] k' (wk & sl2 & L2 & -> & Hm3 & Hw). run. pose proof (md_cpu _ _ _ _ _ _ _ Hm) as Hcpu.
  apply splx_runs; [apply Hcpu|]. run. eapply (finished_splx _ _ _ _ _ L2 k2); [done| |done|done].
  intros p tp Hin Htp. simpl. apply Z.eqb_neq. intros ->. by eapply Hw.
Qed.

Lemma mid_release_rest t1 fs1 L1 k1 l : mid [] sl D_none t1 fs1 L1 k1 ->
  locks k !! l = Some (curthread k) ->
  runs (release_rest l) (put_lists L1 k1) (fun _ k' => finished (D_release l) t1 fs1 k1 k') (fun _ _ => False).
Proof.
  intros Hm Hl. pose proof (md_effect _ _ _ _ _ _ _ Hm) as (El & Es & Elk).
  unfold release_rest, lock_set. run. apply splhigh_runs. run.
  set (k2 := with_locks (<[l := 0]> (locks k1)) (with_kcpu (mk_cpu SPL_HIGH false) k1)).
  assert (mid [] sl (D_release l) t1 fs1 L1 k2) as Hm2.
  { eapply mid_objs; [exact Hm|done..|]. split; [done|]. split; [done|]. split; [done|]. by rewrite <- (f_equal (insert l 0) Elk). }
  eapply runs_mono; [eapply (mid_wakeup _ _ _ _ k2 l Hm2); done| |done].
  intros [] k' (wk & sl2 & L2 & -> & Hm3 & Hw). run. pose proof (md_cpu _ _ _ _ _ _ _ Hm) as Hcpu.
  apply splx_runs; [apply Hcpu|]. run. eapply (finished_splx _ _ _ _ _ L2 k2); [done| |done|done].
  intros p tp Hin Htp. simpl. apply Z.eqb_neq. intros ->. by eapply Hw.
Qed.

Lemma mid_release_check L1 k1 l (Q : unit -> kern H R -> Prop) E :
  locks k1 !! l = Some (curthread k1) -> l <> 0 -> Q tt (put_lists L1 k1) ->
  runs (release_check l) (put_lists L1 k1) Q E.
Proof.
  intros Hl Hl0 HQ. unfold release_check, lock_do_i_hold. run; [apply negb_true_iff; lia..|].
  eapply lock_get_runs; [exact Hl|]. run; [|done]. simpl. by rewrite Z.eqb_refl.
Qed.

Lemma lock_not_null l o : locks k !! l = Some o -> l <> 0.
Proof.
  intros Hl ->. destruct focus_names as [<- [_ _ Hno _]]. apply Hno. apply elem_of_dom. by exists o.
Qed.

Lemma sem_not_null s c : sems k !! s = Some c -> s <> 0.
Proof.
  intros Hl ->. destruct focus_names as [<- [_ Hno _ _]]. apply Hno. apply elem_of_dom. by exists c.
Qed.

Lemma mid_broadcast t1 fs1 L1 k1 cv l : mid [] sl D_none t1 fs1 L1 k1 -> cv <> 0 -> l <> 0 ->
  runs (cv_broadcast cv l) (put_lists L1 k1) (fun _ k' => finished D_none t1 fs1 k1 k') (fun _ _ => False).
Proof.
  intros Hm Hcv Hl. unfold cv_broadcast. run; [apply negb_true_iff; lia..|]. apply splhigh_runs. run.
  set (k2 := with_kcpu (mk_cpu SPL_HIGH false) k1).
  assert (mid [] sl D_none t1 fs1 L1 k2) as Hm2 by (by eapply mid_regs).
  eapply runs_mono; [eapply (mid_wakeup _ _ _ _ k2 cv Hm2); done| |done].
  intros [] k' (wk & sl2 & L2 & -> & Hm3 & Hw). run. pose proof (md_cpu _ _ _ _ _ _ _ Hm) as Hcpu.
  apply splx_runs; [apply Hcpu|]. run. eapply (finished_splx _ _ _ _ _ L2 k2); [done| |done|done].
  apply woken_none.
Qed.

Lemma mid_signal t1 fs1 L1 k1 cv l : mid [] sl D_none t1 fs1 L1 k1 -> cv <> 0 -> l <> 0 ->
  runs (cv_signal cv l) (put_lists L1 k1) (fun _ k' => finished D_none t1 fs1 k1 k') (fun _ _ => False).
Proof.
  intros Hm Hcv Hl. unfold cv_signal. run; [apply negb_true_iff; lia..|]. apply splhigh_runs. run.
  set (k2 := with_kcpu (mk_cpu SPL_HIGH false) k1).
  assert (mid [] sl D_none t1 fs1 L1 k2) as Hm2 by (by eapply mid_regs).
  eapply runs_mono; [eapply (mid_wakeone _ _ _ k2 cv Hm2); done| |done].
  intros [] k' (wk & sl2 & L2 & -> & Hm3). run. pose proof (md_cpu _ _ _ _ _ _ _ Hm) as Hcpu.
  apply splx_runs; [apply Hcpu|]. run. eapply (finished_splx _ _ _ _ _ L2 k2); [done| |done|done].
  apply woken_none.
Qed.

(** *** Calls *)

Lemma effect_none_blocked d k1 a : effect d k k1 -> sems k !! a = None -> locks k !! a = None -> blocked k1 a.
Proof.
  intros He Hs Hl. pose proof (effect_names _ _ _ He) as [= Ds Dl _].
  split; intros x Hx; exfalso.
  - assert (a ∈ dom (sems k1)) as Hin by (by apply elem_of_dom; eexists).
    rewrite Ds in Hin. apply elem_of_dom in Hin as [? ?]. congruence.
  - assert (a ∈ dom (locks k1)) as Hin by (by apply elem_of_dom; eexists).
    rewrite Dl in Hin. apply elem_of_dom in Hin as [? ?]. congruence.
Qed.

Lemma lbolt_free : sems k !! lbolt k = None /\ locks k !! lbolt k = None.
Proof.
  destruct focus_names as [<- [_ _ _ Hlb]]. simpl in Hlb. apply not_elem_of_union in Hlb as [? ?].
  split; by apply not_elem_of_dom.
Qed.

Lemma cv_addr_names cv : cv_addr k cv -> cv ∉ n_sems N ∪ n_locks N.
Proof.
  intros (_ & Hs & Hl & _). destruct focus_names as [<- _]. simpl.
  apply not_elem_of_dom in Hs, Hl. set_solver.
Qed.

Lemma focus_level : curspl (k_cpu k) = level fs /\ in_interrupt k = inint fs.
Proof. by destruct HF as [_ _ _ _ _ [_ _ _ _ _ _ (_ & ? & ?)]]. Qed.

Lemma call_P s : fs = [] -> is_Some (sems k !! s) ->
  runs (P s) (put_lists L k) (fun b k' => next N k rq n (if b : bool then D_P s else D_none) k') (fun _ _ => False).
Proof.
  intros Hfs [c Hc]. pose proof focus_level as [Hl Hi]. pose proof mid_start as Hm. rewrite Hfs in Hl, Hi, Hm.
  pose proof (sem_not_null _ _ Hc). unfold P. run; [apply negb_true_iff; lia|simpl; rewrite Hi; done|].
  apply splhigh_runs. simpl. rewrite Hl.
  eapply (mid_P_loop t L (with_kcpu (mk_cpu SPL_HIGH false) k)); [by eapply mid_regs|done|done|].
  destruct focus_names as [<- _]. apply elem_of_dom. eauto.
Qed.

Lemma mid_acquire t1 fs1 L1 k1 l spl : mid [] sl D_none t1 fs1 L1 k1 -> curspl (k_cpu k1) = spl ->
  in_interrupt k1 = 0 -> l <> 0 -> wstack N l (F_acquire l spl :: fs1) -> (weight fs1 <= n)%nat ->
  runs (lock_acquire l) (put_lists L1 k1)
    (fun b k' => next N k rq n (if b : bool then D_acquire l else D_none) k') (fun _ _ => False).
Proof.
  intros Hm <- Hi Hl0 Hw Hn. unfold lock_acquire. run; [apply negb_true_iff; lia|]. apply splhigh_runs.
  eapply (mid_acquire_loop t1 fs1 L1 (with_kcpu (mk_cpu SPL_HIGH false) k1)); [by eapply mid_regs|done..].
Qed.

Lemma call_wait cv l : fs = [] -> cv_addr k cv -> locks k !! l = Some (curthread k) ->
  runs (cv_wait cv l) (put_lists L k) (fun _ k' => next N k rq n (D_release l) k') (fun _ _ => False).
Proof.
  intros Hfs Hcv Hl. pose proof focus_level as [Hlv Hi]. pose proof mid_start as Hm. rewrite Hfs in Hlv, Hi, Hm.
  pose proof (lock_not_null _ _ Hl) as Hl0. pose proof Hcv as (Hcv0 & Hcs & Hcl & _).
  unfold cv_wait, lock_release. run. apply splhigh_runs. run; [apply negb_true_iff; lia..|].
  set (k1 := with_kcpu (mk_cpu SPL_HIGH false) k).
  assert (mid [] sl D_none t [] L k1) as Hm1 by (by eapply mid_regs).
  apply (mid_release_check L k1); [done|done|].
  eapply runs_mono; [by apply (mid_release_rest t [] L k1 l Hm1)| |done].
  intros [] k' (wk & sl2 & L2 & k2 & -> & Hm2 & Hw & Hc2 & Hi2). simpl. rewrite Hlv.
  eapply mid_sleep; [done|done|by rewrite Hc2|by rewrite Hi2| |].
  - simpl. apply ws_cv; [|by apply cv_addr_names]. destruct focus_names as [<- _]. apply elem_of_dom. eauto.
  - eapply effect_none_blocked; [apply Hm2|done|done].
Qed.

Lemma mid_clocksleep_loop t1 L1 k1 secs : mid [] sl D_none t1 [] L1 k1 ->
  curspl (k_cpu k1) = SPL_HIGH -> in_interrupt k1 = 0 ->
  runs (clocksleep_loop secs 0) (put_lists L1 k1) (fun _ k' => next N k rq n D_none k') (fun _ _ => False).
Proof.
  intros Hm Hspl Hi. pose proof (md_effect _ _ _ _ _ _ _ Hm) as He. pose proof He as (El & _).
  unfold clocksleep_loop. destruct (secs >? 0).
  - run. simpl. eapply mid_sleep; [done|apply woken_none|done|done| |].
    + simpl. rewrite El. destruct focus_names as [<- _]. apply (ws_clock (names_of k)).
    + rewrite El. destruct lbolt_free. by eapply effect_none_blocked.
  - run. apply splx_runs; [done|]. run.
    change (with_kcpu _ _) with (put_lists L1 (with_kcpu (mk_cpu 0 true) k1)).
    eapply mid_stay; [by eapply mid_regs|apply woken_none|by right; left|apply rs_user, us_nil|done|done|apply Nat.le_0_l].
Qed.

Definition is_fork (c : call) : bool := match c with C_fork _ => true | _ => false end.

Lemma call_step c : fs = [] -> call_ok k c -> is_fork c = false -> (1 <= n)%nat ->
  runs (do_call c) (put_lists L k) (fun d k' => next N k rq n d k') (fun _ _ => False).
Proof.
  intros Hfs Hok Hnf Hn. pose proof focus_level as [Hlv Hi]. pose proof mid_start as Hm. rewrite Hfs in Hlv, Hi, Hm.
  assert (forall d k', finished d t [] k k' -> next N k rq n d k') as Hfin.
  { intros d k' Hf. eapply finished_stay; [done|by right; left|apply rs_user, us_nil|done|done|apply Nat.le_0_l]. }
  destruct c as [s|s|l|l|cv l|cv l|cv l| |secs| |]; simpl in Hok |- *; try done; run.
  - eapply runs_mono; [by apply call_P| |done]. intros b k' Hnx. by apply runs_ret.
  - destruct Hok as (c & Hc & ?). pose proof (sem_not_null _ _ Hc).
    eapply runs_mono; [apply (mid_V t [] L k s Hm); [by exists c|done]| |done].
    intros [] k' Hnx. apply runs_ret. by apply Hfin.
  - destruct Hok as [o Ho]. pose proof (lock_not_null _ _ Ho).
    eapply runs_mono; [eapply (mid_acquire t [] L k l 0 Hm); [done..| |apply Nat.le_0_l]| |done].
    + apply ws_acquire. destruct focus_names as [<- _]. apply elem_of_dom. eauto.
    + intros b k' Hnx. by apply runs_ret.
  - apply mid_release_check; [done|by eapply lock_not_null|]. unfold push_cur, push. run.
    change (with_stacks _ _) with (put_lists L (with_stacks
      (<[curthread k := [F_release l] ++ default [] (stacks k !! curthread k)]> (stacks k)) k)).
    destruct (mid_current _ _ _ _ _ _ _ Hm) as (_ & Hst & _). rewrite Hst. simpl.
    eapply (mid_stay [] sl D_none t [F_release l]); [|apply woken_none|by left; eauto|apply rs_user, us_release|done|done|done].
    destruct Hm. by split.
  - destruct Hok as [? ?]. eapply runs_mono; [by apply (call_wait cv l)| |done]. intros [] k' Hnx. by apply runs_ret.
  - destruct Hok as [(? & _) [o Ho]]. pose proof (lock_not_null _ _ Ho).
    eapply runs_mono; [by apply (mid_signal t [] L k cv l Hm)| |done]. intros [] k' Hnx. apply runs_ret. by apply Hfin.
  - destruct Hok as [(? & _) [o Ho]]. pose proof (lock_not_null _ _ Ho).
    eapply runs_mono; [by apply (mid_broadcast t [] L k cv l Hm)| |done]. intros [] k' Hnx. apply runs_ret. by apply Hfin.
  - eapply runs_mono; [eapply (mid_yield [] sl D_none t [] L k [] Hm)| |done].
    + apply woken_none.
    + rewrite Hlv. apply ss_yield.
    + done.
    + by rewrite Hfs.
    + done.
    + intros b k' [_ Hnx]. by apply runs_ret.
  - unfold clocksleep. run. apply splhigh_runs. simpl. rewrite Hlv.
    eapply runs_mono; [eapply (mid_clocksleep_loop t L (with_kcpu (mk_cpu SPL_HIGH false) k)); [by eapply mid_regs|done|done]| |done].
    intros [] k' Hnx. by apply runs_ret.
  - eapply runs_mono; [by apply mid_exit| |done]. intros [] k' Hnx. by apply runs_ret.
Qed.

(** *** Interrupts *)

Lemma run_stack_low s : run_stack N s -> level s = 0 -> ustack s.
Proof.
  intros Hr Hl. inversion Hr as [u Hu|a w Hw| |s' Hs|u Hu|s' Ho]; subst; try done.
  - by rewrite (proj1 (wstack_level _ _ _ Hw)) in Hl.
  - by rewrite (sstack_level _ _ Hs) in Hl.
  - by rewrite (off_level _ _ Ho) in Hl.
Qed.

Lemma irq_step i : iec (k_cpu k) = true -> irq_ok k i -> (weight fs <= n)%nat ->
  runs (interrupt i) (put_lists L k) (fun d k' => next N k rq n d k') (fun _ _ => False).
Proof.
  intros Hie Hok Hn. pose proof focus_level as [Hlv Hi]. pose proof mid_start as Hm.
  assert (curspl (k_cpu k) = 0) as Hc0.
  { destruct (w_cpu _ _ _ _ _ _ (fo_wf _ _ _ _ _ _ _ _ _ _ HF)) as [_ He]. rewrite Hie in He. by apply Z.eqb_eq. }
  assert (ustack fs) as Hu.
  { apply run_stack_low; [|congruence]. by destruct HF as [_ _ _ _ _ [_ _ _ _ _ _ (? & _)]]. }
  destruct (ustack_level _ Hu) as [Hlu Hiu]. rewrite Hiu in Hi.
  unfold interrupt, trap_enter, assert_splhigh. run; [done|]. simpl. rewrite Hi, Hc0.
  set (k1 := with_in_interrupt 1 (with_kcpu (mk_cpu SPL_HIGH false) k)).
  change (with_in_interrupt 1 _) with (put_lists L k1).
  assert (mid [] sl D_none t fs L k1) as Hm1 by (by eapply mid_regs).
  destruct i as [|s]; simpl in Hok; run.
  - unfold hardclock. run. simpl.
    set (c := i32 _). set (k2 := with_lbolt_counter c k1).
    eapply runs_mono with (Q := fun _ k' => exists wk sl2 L2 k3, k' = put_lists L2 k3 /\
      mid wk sl2 D_none t fs L2 k3 /\ k_cpu k3 = k_cpu k1 /\ in_interrupt k3 = 1) (E := fun _ _ => False).
    + destruct (c >=? HZ).
      * run. simpl. set (k3 := with_lbolt_counter 0 k2).
        eapply runs_mono; [apply (mid_wakeup D_none t fs L k3); [by eapply mid_regs|done]| |done].
        intros [] k' (wk & sl2 & L2 & -> & Hm2 & _). by exists wk, sl2, L2, k3.
      * run. exists [], sl, L, k2. split_and!; [done| |done|done]. by eapply mid_regs.
    + intros [] k' (wk & sl2 & L2 & k3 & -> & Hm3 & Hc3 & Hi3).
      eapply runs_mono; [eapply (mid_yield wk sl2 D_none t fs L2 k3 [F_trap 0 0] Hm3)| |done].
      * apply woken_none.
      * rewrite Hc3. by apply ss_irq.
      * by rewrite Hi3.
      * done.
      * done.
      * intros b k' [-> Hnx]. run. done.
    + done.
  - destruct Hok as (c & Hc & ?). pose proof (sem_not_null _ _ Hc).
    eapply runs_mono; [apply (mid_V t fs L k1 s Hm1); [by exists c|done]| |done].
    intros [] k' (wk & sl2 & L2 & k2 & -> & Hm2 & Hw & _ & _). unfold trap_return. run.
    apply splhigh_runs. run.
    change (with_kcpu _ _) with (put_lists L2 (with_kcpu (mk_cpu 0 true) (with_in_interrupt 0 k2))).
    eapply mid_stay; [by eapply mid_regs|done|by right; right|by apply rs_user|done|done|done].
Qed.

(** *** Resuming *)

Lemma mid_pop f fs1 : fs = f :: fs1 ->
  mid [] sl D_none t fs1 L (with_stacks (<[curthread k := fs1]> (stacks k)) k).
Proof. intros _. destruct mid_start. split; try done. Qed.

(** Back to interrupts on, with nothing left on the stack. *)
Lemma mid_low t1 L1 k1 : mid [] sl D_none t1 [] L1 k1 -> in_interrupt k1 = 0 ->
  next N k rq n D_none (put_lists L1 (with_kcpu (mk_cpu 0 true) k1)).
Proof.
  intros Hm Hi.
  eapply mid_stay; [by eapply mid_regs|apply woken_none|by right; left|apply rs_user, us_nil|done|done|apply Nat.le_0_l].
Qed.

Lemma frame_sleep k1 w a : mid [] sl D_none t w L k1 -> wstack N a w ->
  curspl (k_cpu k1) = SPL_HIGH -> in_interrupt k1 = 0 -> (weight w <= n)%nat ->
  runs (run_frame (curthread k) F_sleep) (put_lists L k1) (fun d k' => next N k rq n d k') (fun _ _ => False).
Proof.
  intros Hm Hw Hc Hi Hn. destruct (mid_current _ _ _ _ _ _ _ Hm) as (Ht1 & _ & _).
  pose proof Hm as [Hr Hp Hk Ec En Et Ht Es He Hcpu]. rewrite Ec in Ht1.
  simpl. unfold thr_set. run. eapply thr_runs; [exact Ht1|]. run.
  set (k2 := with_threads (<[curthread k := set_sleepaddr 0 t]> (threads k1)) k1).
  change (with_threads _ _) with (put_lists L k2).
  destruct (wstack_level _ _ _ Hw) as [Hlv Hin].
  eapply (mid_stay [] sl D_none (set_sleepaddr 0 t) w);
    [|apply woken_none|right; left; by inversion Hw|by eapply rs_wait|simpl; congruence|simpl; congruence|done].
  split; try done; simpl.
  - by eapply trep_update.
  - by rewrite Et, insert_insert_eq.
Qed.

Lemma frame_cv_wait k1 l : mid [] sl D_none t [] L k1 -> l ∈ n_locks N ->
  curspl (k_cpu k1) = SPL_HIGH -> in_interrupt k1 = 0 -> (1 <= n)%nat ->
  runs (run_frame (curthread k) (F_cv_wait l 0)) (put_lists L k1) (fun d k' => next N k rq n d k') (fun _ _ => False).
Proof.
  intros Hm Hl Hc Hi Hn. destruct (mid_current _ _ _ _ _ _ _ Hm) as (_ & Hst & _).
  assert (is_Some (locks k !! l)) as [o Ho] by (apply elem_of_dom; by destruct focus_names as [<- _]).
  simpl. unfold push_cur, push. run. simpl. rewrite Hst.
  set (k2 := with_stacks (<[curthread k1 := [F_splx 0]]> (stacks k1)) k1).
  change (with_stacks _ _) with (put_lists L k2).
  eapply runs_mono; [eapply (mid_acquire t [F_splx 0] L k2 l SPL_HIGH)| |done].
  - destruct Hm as [? ? ? Ec ? ? ? Es ? ?]. split; try done. simpl. by rewrite Ec, Es, insert_insert_eq.
  - done.
  - done.
  - by eapply lock_not_null.
  - by apply ws_reacquire.
  - done.
  - intros b k' Hnx. by apply runs_ret.
Qed.

Lemma frame_release k1 l : locks k !! l = Some (curthread k) -> mid [] sl D_none t [] L k1 ->
  curspl (k_cpu k1) = 0 -> in_interrupt k1 = 0 ->
  runs (run_frame (curthread k) (F_release l)) (put_lists L k1) (fun d k' => next N k rq n d k') (fun _ _ => False).
Proof.
  intros Hl Hm Hc Hi. simpl. run. eapply runs_mono; [by eapply (mid_release_rest t [] L k1 l Hm)| |done].
  intros [] k' Hf. apply runs_ret. eapply finished_stay; [done|by right; left|apply rs_user, us_nil|done|done|apply Nat.le_0_l].
Qed.

(** The frames other than those of [mi_switch] and [thread_fork]. *)
Definition plain (f : frame) : bool := match f with F_switch | F_fork _ => false | _ => true end.

Lemma frame_step f fs1 : fs = f :: fs1 -> plain f = true -> (weight fs <= S n)%nat ->
  runs (run_frame (curthread k) f) (put_lists L (with_stacks (<[curthread k := fs1]> (stacks k)) k))
    (fun d k' => next N k rq n d k') (fun _ _ => False).
Proof.
  intros Hfs Hpl Hn. pose proof focus_level as [Hlv Hi]. pose proof (mid_pop _ _ Hfs) as Hm.
  assert (run_stack N fs) as Hrs by (by destruct HF as [_ _ _ _ _ [_ _ _ _ _ _ (? & _)]]).
  assert (forall l, F_release l ∈ fs -> locks k !! l = Some (curthread k)) as Hrel by (apply HF).
  assert (user_frames fs = user_frames (f :: fs1)) as Huf by (by rewrite Hfs).
  set (k1 := with_stacks _ k) in *.
  rewrite Hfs in Hlv, Hi, Hrs, Hrel, Hn. clear Hfs.
  assert (weight fs1 <= n)%nat as Hn1.
  { simpl in Hn. destruct f; lia. }
  inversion Hrs as [u Hu|a w Hw| |s Hs|u Hu|s Ho]; subst.
  - inversion Hu; subst; [done|]. apply frame_release; [apply Hrel; by left|done..].
  - inversion Hw; subst; simpl.
    + run. eapply runs_mono; [by apply (mid_P_loop t L k1)| |done]. intros b k' Hnx. by apply runs_ret.
    + run. eapply runs_mono; [by apply (mid_acquire_loop t [] L k1)| |done]. intros b k' Hnx. by apply runs_ret.
    + run. eapply runs_mono; [by apply (mid_acquire_loop t [F_splx 0] L k1)| |done]. intros b k' Hnx. by apply runs_ret.
    + apply frame_cv_wait; try done. simpl in Hn. lia.
    + run. eapply runs_mono; [by apply (mid_clocksleep_loop t L k1)| |done]. intros [] k' Hnx. by apply runs_ret.
  - simpl. run. apply splx_runs; [done|]. run. by apply (mid_low t L k1).
  - inversion Hs as [a w Hw| |u Hu]; subst.
    + eapply frame_sleep; [done|done|done| |done]. unfold k1. simpl. rewrite Hi. exact (proj2 (wstack_level _ _ _ Hw)).
    + simpl. run. apply splx_runs; [done|]. run. by apply (mid_low t L k1).
    + simpl. run. apply splx_runs; [done|]. run.
      eapply (mid_stay [] sl D_none t (F_trap 0 0 :: u) L (with_kcpu (mk_cpu SPL_HIGH false) k1));
        [by eapply mid_regs|apply woken_none|right; right; by rewrite Huf|by apply rs_trap|done|done|done].
  - simpl. unfold trap_return. run. apply splhigh_runs. run. destruct (ustack_level _ Hu) as [Hlu Hiu].
    eapply (mid_stay [] sl D_none t fs1 L (with_kcpu (mk_cpu 0 true) (with_in_interrupt 0 k1)));
      [by eapply mid_regs|apply woken_none|right; right; by rewrite Huf|by apply rs_user|done|done|done].
  - inversion Ho; subst; [|done]. simpl. unfold mi_threadstart. run.
    destruct (mid_current _ _ _ _ _ _ _ Hm) as (Ht1 & _ & _). eapply thr_runs; [exact Ht1|].
    destruct (md_thread _ _ _ _ _ _ _ Hm) as (_ & -> & _). change (0 =? 0) with true. cbn iota. run.
    apply splx_runs; [done|]. run. by apply (mid_low t L k1).
Qed.

End steps.

End current.
