(* ===== verification/SynchLife.v ===== *)
(** Steps that change the set of threads or the current thread: creating and
    starting a thread, burying the dead, dispatching, and interrupts of an idle
    processor.  [exec_step] puts them together with the steps of SynchRun.v. *)

From Stdlib Require Import ZArith Lia.
From stdpp Require Import prelude gmap list.
From S2P Require Import Prelude Heap Spl Array Queue SynchObj Threads Synch SynchInv SynchRun.

Section life.
Context {H R : Type} `{HeapLaws H} `{!ProcEnv R}.
Implicit Types (L : lists H) (k : kern H R) (rq sl zb fk wk : list Z).

(** A thread that is untouched, while the current thread stays and no object
    changes. *)
Lemma tinv_frame N k k' fk fk' pl p :
  tinv N k fk pl p -> pl <> Cur -> curthread k <> 0 -> curthread k' = curthread k ->
  sems k' = sems k -> locks k' = locks k ->
  threads k' !! p = threads k !! p -> stacks k' !! p = stacks k !! p ->
  (forall q tq, q ∈ fk -> threads k !! q = Some tq -> parent tq = p ->
     q ∈ fk' /\ exists tq', threads k' !! q = Some tq' /\ parent tq' = p) ->
  tinv N k' fk' pl p.
Proof.
  intros Hi Hpl Hc0 Ec Es El Et Est Hf. eapply tinv_stable; [exact Hi|done..| | | |done].
  - by rewrite El.
  - intros _ t _. unfold blocked. by rewrite Es, El.
  - intros t fs. unfold saved_in. rewrite !bool_decide_false; [done|intros [? _]; congruence..].
Qed.

Section steps.
Variables (N : names) (L : lists H) (k : kern H R) (rq sl zb fk : list Z).
Variables (bs : list (Z * Z)) (t : thread) (fs : list frame) (n : nat).
Hypothesis HF : focus N L k rq sl zb fk bs t fs.
Hypothesis HR : room L k.

Lemma focus_thread p : p ∈ rq ++ sl ++ zb ++ fk -> is_Some (threads k !! p) /\ p <> curthread k.
Proof.
  intros Hp. split; [|intros ->; by eapply focus_not_asleep].
  apply (w_dom _ _ _ _ _ _ (fo_wf _ _ _ _ _ _ _ _ _ _ HF)). rewrite (focus_here _ _ _ _ _ _ _ _ _ _ HF). by right.
Qed.

Lemma focus_nodup : NoDup (rq ++ sl ++ zb ++ fk).
Proof.
  pose proof (w_nodup _ _ _ _ _ _ (fo_wf _ _ _ _ _ _ _ _ _ _ HF)) as Hnd.
  rewrite (focus_here _ _ _ _ _ _ _ _ _ _ HF) in Hnd. by apply NoDup_cons in Hnd as [_ ?].
Qed.

(** The lists are rearranged around the current thread: [p] stays what it was, or
    its new place is accounted for. *)
Lemma wf_rebuild rq' zb' fk' t' fs' k' :
  NoDup (curthread k :: rq' ++ sl ++ zb' ++ fk') ->
  (forall p, p ∈ curthread k :: rq' ++ sl ++ zb' ++ fk' <-> is_Some (threads k' !! p)) ->
  dom (stacks k') = dom (threads k') -> threads k' !! 0 = None ->
  numthreads k' = Z.of_nat (S (length rq' + length sl)) ->
  curthread k' = curthread k -> sems k' = sems k -> locks k' = locks k -> lbolt k' = lbolt k ->
  spl_ok (k_cpu k') -> tok N k' fk' Cur (curthread k) t' fs' ->
  (forall p, p ∈ rq' -> p ∈ rq \/ tinv N k' fk' Ready p) -> (forall p, p ∈ zb' -> p ∈ zb) ->
  (forall p, p ∈ fk' -> p ∈ fk \/ tinv N k' fk' Newborn p) ->
  (forall p, p ∈ rq ++ sl ++ zb ++ fk -> p ∈ rq ++ sl ++ zb' ++ fk' ->
     threads k' !! p = threads k !! p /\ stacks k' !! p = stacks k !! p) ->
  (forall q tq, q ∈ fk -> threads k !! q = Some tq -> parent tq <> curthread k ->
     q ∈ fk' /\ threads k' !! q = Some tq) ->
  wf N k' rq' sl zb' fk'.
Proof.
  intros Hnd Hdom Hst H0' Hnum Ec Esm El Elb Hcpu Htok Hrq Hzb Hfk Hsame Hpar.
  pose proof HF as [_ _ W _ Hc0 _].
  assert (here k' = [curthread k]) as Hh' by (unfold here; by rewrite Ec, (proj2 (Z.eqb_neq _ _) Hc0)).
  assert (forall pl p, p ∈ rq ++ sl ++ zb ++ fk -> p ∈ rq ++ sl ++ zb' ++ fk' -> pl <> Cur ->
    tinv N k fk pl p -> tinv N k' fk' pl p) as Hkeep.
  { intros pl p Hp Hp' Hpl Hi. destruct (focus_thread p Hp) as [_ Hpc].
    destruct (Hsame p Hp Hp') as [Et Es]. eapply tinv_frame; [exact Hi|done..|].
    intros q tq Hq Htq Hparq. destruct (Hpar q tq) as [? ?]; [done|done|congruence|]. eauto. }
  split; rewrite ?Hh'; simpl; try done.
  - by rewrite Hnum, length_app.
  - intros _. rewrite Ec. by exists t', fs'.
  - intros p Hp. destruct (Hrq p Hp) as [Hq|]; [|done]. apply Hkeep; [in_app..|done|by apply W].
  - intros p Hp. apply Hkeep; [in_app..|done|by apply W].
  - intros p Hp. specialize (Hzb p Hp). apply Hkeep; [in_app..|done|by apply W].
  - intros p Hp. destruct (Hfk p Hp) as [Hq|]; [|done]. apply Hkeep; [in_app..|done|by apply W].
  - congruence.
  - unfold names_of. rewrite Esm, El, Elb. apply W.
  - rewrite Esm. apply W.
Qed.

(** *** Burying the dead *)

Lemma foldr_delete_None {A} (m : gmap Z A) l p : foldr delete m l !! p = None <-> p ∈ l \/ m !! p = None.
Proof.
  induction l as [|x l IH]; simpl; [set_solver|].
  destruct (decide (x = p)) as [->|Hne]; [rewrite lookup_delete_eq; set_solver|].
  rewrite lookup_delete_ne by done. rewrite IH. set_solver.
Qed.

Lemma foldr_delete_is_Some {A} (m : gmap Z A) l p :
  is_Some (foldr delete m l !! p) <-> p ∉ l /\ is_Some (m !! p).
Proof. rewrite <- !not_eq_None_Some, foldr_delete_None. tauto. Qed.

Lemma foldr_delete_dom {A B} (m : gmap Z A) (m' : gmap Z B) l : dom m = dom m' ->
  dom (foldr delete m l) = dom (foldr delete m' l).
Proof. intros Hd. induction l as [|x l IH]; simpl; [done|]. by rewrite !dom_delete_L, IH. Qed.

Lemma wf_bury s k' :
  threads k' = foldr delete (threads k) zb ->
  stacks k' = foldr delete (<[curthread k := s]> (stacks k)) zb ->
  curthread k' = curthread k -> sems k' = sems k -> locks k' = locks k -> lbolt k' = lbolt k ->
  numthreads k' = numthreads k -> spl_ok (k_cpu k') ->
  user_frames s = user_frames fs -> run_stack N s -> curspl (k_cpu k') = level s ->
  in_interrupt k' = inint s ->
  wf N k' rq sl [] fk.
Proof.
  intros Et Es Ec Esm El Elb En Hcpu Huf Hrs Hl Hi.
  pose proof HF as [_ _ W _ Hc0 [Htt Hts Hg Hres Hrel Hfork _]].
  pose proof focus_nodup as Hnd. pose proof (focus_not_asleep _ _ _ _ _ _ _ _ _ _ HF) as Hcn.
  assert (forall p, p ∈ rq ++ sl ++ fk -> p ∉ zb) as Hnz.
  { rewrite (Permutation_app_comm zb fk), !app_assoc in Hnd. apply NoDup_app in Hnd as (_ & Hd & _).
    intros p Hp. apply Hd. by rewrite <- !app_assoc. }
  assert (forall p tp, p ∈ fk -> threads k !! p = Some tp -> threads k' !! p = Some tp) as Hfk.
  { intros p tp Hp Htp. rewrite Et, foldr_delete_lookup; [done|]. apply Hnz. in_app. }
  assert (curthread k ∉ zb) as Hcz by (intros Hz; apply Hcn; in_app).
  apply (wf_rebuild rq [] fk t s); try done.
  - apply NoDup_cons. split; [intros Hp; apply Hcn; simpl in Hp; in_app|].
    rewrite (Permutation_app_comm zb fk), !app_assoc in Hnd. apply NoDup_app in Hnd as [Hnd _].
    by rewrite <- app_assoc in Hnd.
  - intros p. rewrite Et, foldr_delete_is_Some, <- (w_dom _ _ _ _ _ _ W), (focus_here _ _ _ _ _ _ _ _ _ _ HF).
    simpl. rewrite !elem_of_cons. split.
    + intros [->|Hp]; [by split; [|left]|]. split; [by apply Hnz|right; in_app].
    + intros [Hpz [->|Hp]]; [by left|right]. rewrite !elem_of_app in *. tauto.
  - rewrite Et, Es. apply foldr_delete_dom. rewrite dom_insert_lookup_L by eauto. apply W.
  - rewrite Et. apply foldr_delete_None. right. apply W.
  - rewrite En, (focus_num _ _ _ _ _ _ _ _ _ _ HF). lia.
  - split; try done.
    + by rewrite Et, foldr_delete_lookup.
    + by rewrite Es, foldr_delete_lookup, lookup_insert_eq.
    + intros l. rewrite <- user_frames_release, Huf, user_frames_release, El. apply Hrel.
    + intros q. rewrite <- user_frames_fork, Huf, user_frames_fork. intros Hq.
      apply Hfork in Hq as (Hq & tq & Htq & Hpar). eauto.
  - eauto.
  - intros p Hp. by apply not_elem_of_nil in Hp.
  - eauto.
  - intros p Hp Hp'. destruct (focus_thread p Hp) as [_ Hpc].
    rewrite Et, Es, !foldr_delete_lookup, lookup_insert_ne by (first [done|by apply Hnz]). done.
  - eauto.
Qed.

Lemma focus_stack : run_stack N fs.
Proof. by destruct HF as [_ _ _ _ _ [_ _ _ _ _ _ (? & _)]]. Qed.

Lemma next_wf rq' zb' fk' bs' L' k1 fs' : wf N (put_lists L' k1) rq' sl zb' fk' ->
  trep L' (threads k1) rq' sl zb' bs' -> numthreads k1 <= size (l_runqueue L') ->
  effect D_none k (put_lists L' k1) -> (exists new, rq' = rq ++ new) ->
  curthread k1 = curthread k -> stacks k1 !! curthread k = Some fs' -> (weight fs' <= n)%nat ->
  next N k rq n D_none (put_lists L' k1).
Proof.
  intros W Hr Hs He Hq Ec Es Hn. do 4 eexists. split_and!; [|done|done|by right; eauto]. by exists L', bs'.
Qed.

Lemma switch_step s : fs = F_switch :: s -> (forall p tp, threads k !! p = Some tp -> whole tp) ->
  (weight s <= n)%nat ->
  runs (run_frame (curthread k) F_switch) (put_lists L (with_stacks (<[curthread k := s]> (stacks k)) k))
    (fun d k' => next N k rq n d k') (fun _ _ => False).
Proof.
  intros Hfs Hwh Hn. pose proof HF as [_ Hr W Hsz Hc0 [Htt _ _ [Hvm _] _ _ _]].
  destruct (focus_level _ _ _ _ _ _ _ _ _ _ HF) as [Hlv Hin]. pose proof focus_stack as Hrs.
  rewrite Hfs in Hlv, Hin, Hrs.
  assert (sstack N s) as Hss.
  { inversion Hrs as [u Hu|a w Hw| |s' Hs|u Hu|s' Ho]; subst; [inversion Hu|inversion Hw|inversion Hs|by inversion Ho]. }
  set (k1 := with_stacks _ k).
  simpl. unfold mi_switch_return. run.
  eapply runs_mono; [eapply (exorcise_runs L k1 rq sl zb bs Hr)| |done].
  - simpl. by rewrite Hlv.
  - pose proof focus_nodup as Hnd. apply NoDup_app in Hnd as (_ & _ & Hnd).
    apply NoDup_app in Hnd as (_ & _ & Hnd). by apply NoDup_app in Hnd as (? & _).
  - intros Hz. apply (focus_not_asleep _ _ _ _ _ _ _ _ _ _ HF). in_app.
  - intros p Hp. apply (w_zb _ _ _ _ _ _ W) in Hp as (tp & fp & [Htp _ _ Hres _ _ _]).
    exists tp. split; [done|]. split; [by eapply Hwh|done].
  - intros [] k' (L' & -> & Hr' & Hq). run. eapply thr_runs.
    { simpl. rewrite foldr_delete_lookup; [exact Htt|]. intros Hz.
      apply (focus_not_asleep _ _ _ _ _ _ _ _ _ _ HF). in_app. }
    rewrite Hvm. change (0 =? 0) with true. cbn iota. run.
    eapply (next_wf rq [] fk bs _ _ s); [|done|by rewrite Hq|done|by exists []; rewrite app_nil_r|done| |done]; cycle 1.
    { simpl. rewrite foldr_delete_lookup; [apply lookup_insert_eq|]. intros Hz.
      apply (focus_not_asleep _ _ _ _ _ _ _ _ _ _ HF). in_app. }
    eapply (wf_bury s); try done; [apply W|by rewrite Hfs|by apply rs_rest|].
    simpl. by rewrite Hlv, (sstack_level _ _ Hss).
Qed.

(** *** Creating a thread *)

Lemma wf_newborn p tp k' : threads k !! p = None -> p <> 0 -> ready_thread tp -> parent tp = curthread k ->
  fs = [] ->
  threads k' = <[p := tp]> (threads k) ->
  stacks k' = <[curthread k := [F_fork p]]> (<[p := [F_threadstart]]> (stacks k)) ->
  curthread k' = curthread k -> sems k' = sems k -> locks k' = locks k -> lbolt k' = lbolt k ->
  numthreads k' = numthreads k -> k_cpu k' = k_cpu k -> in_interrupt k' = in_interrupt k ->
  wf N k' rq sl zb (p :: fk).
Proof.
  intros Hp Hp0 Hrd Hpar Hfs Et Es Ec Esm El Elb En Ecpu Hi.
  pose proof HF as [_ _ W _ Hc0 [Htt Hts Hg Hres Hrel Hfork _]].
  destruct (focus_level _ _ _ _ _ _ _ _ _ _ HF) as [Hlv Hin]. rewrite Hfs in Hlv, Hin.
  pose proof focus_nodup as Hnd. pose proof (focus_not_asleep _ _ _ _ _ _ _ _ _ _ HF) as Hcn.
  assert (p <> curthread k) as Hpc by congruence.
  assert (forall q, q ∈ rq ++ sl ++ zb ++ fk -> q <> p) as Hqp.
  { intros q Hq ->. destruct (focus_thread p Hq) as [[? ?] _]. congruence. }
  assert (rq ++ sl ++ zb ++ p :: fk ≡ₚ p :: rq ++ sl ++ zb ++ fk) as Hperm by solve_Permutation.
  apply (wf_rebuild rq zb (p :: fk) t [F_fork p]); try done.
  - rewrite Hperm. apply NoDup_cons. split; [rewrite elem_of_cons; naive_solver|].
    apply NoDup_cons. split; [|done]. intros Hx. by apply (Hqp p).
  - intros q. rewrite Hperm, Et, lookup_insert_is_Some', <- (w_dom _ _ _ _ _ _ W), (focus_here _ _ _ _ _ _ _ _ _ _ HF).
    simpl. rewrite !elem_of_cons. naive_solver.
  - rewrite Et, Es, !dom_insert_L, (w_stacks _ _ _ _ _ _ W).
    assert (curthread k ∈ dom (threads k)) by (by apply elem_of_dom; eexists). set_solver.
  - rewrite Et, lookup_insert_ne by done. apply W.
  - rewrite En, (focus_num _ _ _ _ _ _ _ _ _ _ HF). lia.
  - rewrite Ecpu. apply W.
  - split; try done.
    + by rewrite Et, lookup_insert_ne.
    + by rewrite Es, lookup_insert_eq.
    + intros l Hl. by apply list_elem_of_singleton in Hl.
    + intros q [= ->]%list_elem_of_singleton. split; [by left|]. exists tp. by rewrite Et, lookup_insert_eq.
    + split; [apply rs_user, us_fork|]. rewrite Ecpu, Hi. done.
  - eauto.
  - intros q [->|Hq]%elem_of_cons; [right|by left]. exists tp, [F_threadstart]. split; try done.
    + by rewrite Et, lookup_insert_eq.
    + by rewrite Es, lookup_insert_ne, lookup_insert_eq.
    + right. apply Hrd.
    + apply Hrd.
    + intros l Hl. by apply list_elem_of_singleton in Hl.
    + intros q Hl. by apply list_elem_of_singleton in Hl.
  - intros q Hq _. destruct (focus_thread q Hq) as [_ Hqc]. specialize (Hqp q Hq).
    by rewrite Et, Es, !lookup_insert_ne by done.
  - intros q tq Hq Htq _. split; [by right|]. rewrite Et, lookup_insert_ne; [done|]. symmetry. apply Hqp. in_app.
Qed.

Lemma fork_step namelen : fs = [] -> 0 <= namelen < 2 ^ 30 -> (1 <= n)%nat ->
  runs (do_call (C_fork namelen)) (put_lists L k) (fun d k' => next N k rq n d k') (fun _ _ => False).
Proof.
  intros Hfs Hnl Hn. pose proof HF as [_ Hr W Hsz Hc0 [Htt Hts _ [_ Hcwd] _ _ _]]. rewrite Hfs in Hts.
  simpl. run. eapply runs_mono; [eapply (fork_create_runs L k rq sl zb bs namelen t Hr); [apply W|done..]| |].
  - intros p k' (Hp0 & Hp & h & tp & -> & Hrd & Hpar & _ & Hr'). unfold push_cur, push. run.
    assert (stacks k !! p = None) as Hsp.
    { apply not_elem_of_dom. rewrite (w_stacks _ _ _ _ _ _ W). by apply not_elem_of_dom. }
    assert (p <> curthread k) as Hpc by congruence. simpl. rewrite Hsp, lookup_insert_ne, Hts by done. simpl.
    set (k2 := with_stacks (<[curthread k := [F_fork p]]> (<[p := [F_threadstart]]> (stacks k))) (newborn p tp k)).
    change (with_stacks _ _) with (put_lists (set_lheap h L) k2).
    eapply (next_wf rq zb (p :: fk) bs _ _ [F_fork p]); [|done|done|done|by exists []; rewrite app_nil_r|done|apply lookup_insert_eq|done].
    by eapply wf_newborn.
  - intros e k' (-> & h & m & leak & -> & Hr'). run.
    eapply (next_act _ _ _ _ _ _ _ _ _ _ _ HF [] sl D_none Cur t [] (set_lheap h L) (leak ++ bs));
      [done|done| |by rewrite !app_nil_r|done|intros _; apply Nat.le_0_l].
    destruct (focus_level _ _ _ _ _ _ _ _ _ _ HF) as [Hlv Hin]. rewrite Hfs in Hlv, Hin.
    pose proof HF as [_ _ _ _ _ [_ _ Hg Hres _ _ _]].
    split; simpl; try done; [by rewrite insert_id|by rewrite insert_id|by right; left| |apply W].
    split; [apply rs_user, us_nil|done].
Qed.

(** *** Starting a thread *)

Section start.
Variables (p : Z) (tp : thread) (fk1 fk2 : list Z).
Hypothesis Hfs : fs = [F_fork p].
Hypothesis Hfk : fk = fk1 ++ p :: fk2.
Hypothesis Htp : threads k !! p = Some tp.
Hypothesis Hrd : ready_thread tp.
Hypothesis Hpar : parent tp = curthread k.

Lemma start_facts : p <> curthread k /\ p ∉ rq ++ sl ++ zb ++ fk1 ++ fk2 /\
  stacks k !! p = Some [F_threadstart] /\ p <> 0 /\
  curspl (k_cpu k) = 0 /\ in_interrupt k = 0.
Proof.
  pose proof HF as [_ _ W _ _ _]. assert (p ∈ fk) as Hp by (rewrite Hfk; in_app; by right; left).
  assert (p ∈ rq ++ sl ++ zb ++ fk) as Hpa by in_app.
  destruct (focus_thread p Hpa) as [_ Hpc]. destruct (focus_level _ _ _ _ _ _ _ _ _ _ HF) as [Hlv Hin].
  rewrite Hfs in Hlv, Hin. pose proof focus_nodup as Hnd.
  assert (rq ++ sl ++ zb ++ fk ≡ₚ p :: rq ++ sl ++ zb ++ fk1 ++ fk2) as Hperm.
  { rewrite Hfk. solve_Permutation. }
  rewrite Hperm in Hnd. apply NoDup_cons in Hnd as [Hn _].
  destruct (w_fk _ _ _ _ _ _ W p Hp) as (tp' & fp & [Ht Hs _ _ _ _ [-> _]]).
  split_and!; try done. intros ->. by rewrite (w_zero _ _ _ _ _ _ W) in Htp.
Qed.

Lemma start_others q tq : q ∈ fk -> threads k !! q = Some tq -> parent tq <> curthread k ->
  q ∈ fk1 ++ fk2 /\ q <> p /\ q <> curthread k.
Proof.
  intros Hq Htq Hne. assert (q <> p) as Hqp by congruence.
  destruct (focus_thread q) as [_ Hqc]; [in_app|]. split_and!; [|done|done].
  rewrite Hfk in Hq. rewrite elem_of_app in Hq |- *. rewrite elem_of_cons in Hq. tauto.
Qed.

Lemma start_perm : curthread k :: (rq ++ [p]) ++ sl ++ zb ++ fk1 ++ fk2 ≡ₚ
  curthread k :: rq ++ sl ++ zb ++ fk.
Proof. rewrite Hfk. solve_Permutation. Qed.

Lemma wf_start c k' :
  threads k' = <[curthread k := set_family (parent t) c t]>
                 (<[p := set_family (curthread k) (child tp) tp]> (threads k)) ->
  stacks k' = <[curthread k := []]> (stacks k) ->
  curthread k' = curthread k -> sems k' = sems k -> locks k' = locks k -> lbolt k' = lbolt k ->
  numthreads k' = numthreads k + 1 -> k_cpu k' = k_cpu k -> in_interrupt k' = in_interrupt k ->
  wf N k' (rq ++ [p]) sl zb (fk1 ++ fk2).
Proof.
  intros Et Es Ec Esm El Elb En Ecpu Hi.
  pose proof HF as [_ _ W _ Hc0 [Htt Hts Hg Hres Hrel Hfork _]].
  destruct start_facts as (Hpc & Hpn & Hsp & Hp0 & Hcpu0 & Hin0).
  assert (forall q, is_Some (threads k' !! q) <-> is_Some (threads k !! q)) as Hdom.
  { intros q. rewrite Et, !lookup_insert_is_Some'. naive_solver. }
  apply (wf_rebuild (rq ++ [p]) zb (fk1 ++ fk2) (set_family (parent t) c t) []); try done.
  - rewrite start_perm. apply NoDup_cons. split; [apply (focus_not_asleep _ _ _ _ _ _ _ _ _ _ HF)|apply focus_nodup].
  - intros q. rewrite start_perm, Hdom, <- (w_dom _ _ _ _ _ _ W), (focus_here _ _ _ _ _ _ _ _ _ _ HF). done.
  - apply set_eq. intros q. rewrite !elem_of_dom, Hdom, Es, lookup_insert_is_Some', <- !elem_of_dom, (w_stacks _ _ _ _ _ _ W).
    rewrite elem_of_dom. naive_solver.
  - rewrite Et, !lookup_insert_ne by done. apply W.
  - rewrite En, (focus_num _ _ _ _ _ _ _ _ _ _ HF), length_app. simpl. lia.
  - rewrite Ecpu. apply W.
  - split; try done.
    + by rewrite Et, lookup_insert_eq.
    + by rewrite Es, lookup_insert_eq.
    + intros l Hl. by apply not_elem_of_nil in Hl.
    + intros q Hl. by apply not_elem_of_nil in Hl.
    + split; [apply rs_user, us_nil|]. by rewrite Ecpu, Hi.
  - intros q [Hq|Hq]%elem_of_app; [by left|right]. apply list_elem_of_singleton in Hq as ->.
    exists (set_family (curthread k) (child tp) tp), [F_threadstart]. split; try done.
    + by rewrite Et, lookup_insert_ne, lookup_insert_eq.
    + by rewrite Es, lookup_insert_ne.
    + right. apply Hrd.
    + apply Hrd.
    + intros l Hl. by apply list_elem_of_singleton in Hl.
    + intros l Hl. by apply list_elem_of_singleton in Hl.
    + split; [apply os_start|]. unfold saved_in. rewrite bool_decide_false by (intros [? _]; congruence). apply Hrd.
  - intros q Hq. left. rewrite Hfk. in_app. destruct Hq; [by left|by right; right].
  - intros q Hq Hq'. destruct (focus_thread q Hq) as [_ Hqc]. assert (q <> p) by (by intros ->).
    by rewrite Et, Es, !lookup_insert_ne by done.
  - intros q tq Hq Htq Hne. destruct (start_others q tq Hq Htq Hne) as (? & ? & ?).
    split; [done|]. by rewrite Et, !lookup_insert_ne by done.
Qed.

Lemma wf_undo k' :
  threads k' = delete p (threads k) -> stacks k' = delete p (<[curthread k := []]> (stacks k)) ->
  curthread k' = curthread k -> sems k' = sems k -> locks k' = locks k -> lbolt k' = lbolt k ->
  numthreads k' = numthreads k -> k_cpu k' = k_cpu k -> in_interrupt k' = in_interrupt k ->
  wf N k' rq sl zb (fk1 ++ fk2).
Proof.
  intros Et Es Ec Esm El Elb En Ecpu Hi.
  pose proof HF as [_ _ W _ Hc0 [Htt Hts Hg Hres Hrel Hfork _]].
  destruct start_facts as (Hpc & Hpn & Hsp & Hp0 & Hcpu0 & Hin0).
  assert (NoDup (p :: curthread k :: rq ++ sl ++ zb ++ fk1 ++ fk2)) as Hnd.
  { assert (curthread k :: rq ++ sl ++ zb ++ fk ≡ₚ p :: curthread k :: rq ++ sl ++ zb ++ fk1 ++ fk2) as <-
      by (rewrite Hfk; solve_Permutation).
    pose proof (w_nodup _ _ _ _ _ _ W) as Hnd. by rewrite (focus_here _ _ _ _ _ _ _ _ _ _ HF) in Hnd. }
  assert (forall q, q ∈ curthread k :: rq ++ sl ++ zb ++ fk1 ++ fk2 <-> is_Some (threads k' !! q)) as Hdom.
  { intros q. rewrite Et, lookup_delete_is_Some, <- (w_dom _ _ _ _ _ _ W), (focus_here _ _ _ _ _ _ _ _ _ _ HF), Hfk.
    apply NoDup_cons in Hnd as [Hnd _]. simpl. rewrite !elem_of_cons, !elem_of_app, elem_of_cons in *. naive_solver. }
  apply (wf_rebuild rq zb (fk1 ++ fk2) t []); try done.
  - by apply NoDup_cons in Hnd as [_ Hnd].
  - rewrite Et, Es, !dom_delete_L, dom_insert_lookup_L by eauto. f_equal. apply W.
  - rewrite Et, lookup_delete_ne by done. apply W.
  - rewrite En, (focus_num _ _ _ _ _ _ _ _ _ _ HF). lia.
  - rewrite Ecpu. apply W.
  - split; try done.
    + by rewrite Et, lookup_delete_ne.
    + by rewrite Es, lookup_delete_ne, lookup_insert_eq.
    + intros l Hl. by apply not_elem_of_nil in Hl.
    + intros q Hl. by apply not_elem_of_nil in Hl.
    + split; [apply rs_user, us_nil|]. by rewrite Ecpu, Hi.
  - eauto.
  - intros q Hq. left. rewrite Hfk. in_app. destruct Hq; [by left|by right; right].
  - intros q Hq Hq'. destruct (focus_thread q Hq) as [_ Hqc]. assert (q <> p) by (by intros ->).
    by rewrite Et, Es, !lookup_delete_ne, lookup_insert_ne by done.
  - intros q tq Hq Htq Hne. destruct (start_others q tq Hq Htq Hne) as (? & ? & ?).
    split; [done|]. by rewrite Et, lookup_delete_ne by done.
Qed.

End start.

Lemma start_step p : fs = [F_fork p] ->
  runs (run_frame (curthread k) (F_fork p)) (put_lists L (with_stacks (<[curthread k := []]> (stacks k)) k))
    (fun d k' => next N k rq n d k') (fun _ _ => False).
Proof.
  intros Hfs. pose proof HF as [_ Hr W Hsz Hc0 [Htt Hts Hg Hres Hrel Hfork _]].
  destruct (Hfork p) as (Hp & tp & Htp & Hpar); [rewrite Hfs; by left|].
  destruct (w_fk _ _ _ _ _ _ W p Hp) as (tp' & fp & [Htp' _ _ _ _ _ [_ Hrd]]).
  assert (tp' = tp) as -> by congruence.
  apply list_elem_of_split in Hp as (fk1 & fk2 & Hfk).
  pose proof (focus_num _ _ _ _ _ _ _ _ _ _ HF) as Hnum. destruct (focus_few _ _ _ _ _ _ _ _ _ _ HF HR) as [Hfew _].
  destruct (start_facts p tp fk1 fk2 Hfs Hfk Htp) as (Hpc & _).
  set (k1 := with_stacks _ k). simpl. run.
  eapply runs_mono; [eapply (fork_start_runs L k1 rq sl zb bs p tp t Hr); [apply W|done..|simpl; lia]| |].
  - intros _ k' (_ & L' & -> & Hr' & Hs'). run.
    eapply (next_wf (rq ++ [p]) zb (fk1 ++ fk2) bs _ _ []); [|done|done|done|by eexists|done|apply lookup_insert_eq|apply Nat.le_0_l].
    by eapply (wf_start p tp fk1 fk2).
  - intros e k' (_ & L' & -> & Hr' & Hs'). run.
    eapply (next_wf rq zb (fk1 ++ fk2) _ _ _ []); [|done|simpl; rewrite Hs'; done|done|by exists []; rewrite app_nil_r|done| |apply Nat.le_0_l]; cycle 1.
    { simpl. rewrite lookup_delete_ne by done. apply lookup_insert_eq. }
    by eapply (wf_undo p tp fk1 fk2).
Qed.

End steps.

(** ** An idle processor *)

Lemma wf_idle_wake N k rq sl zb fk wk sl2 d k' :
  wf N k rq sl zb fk -> curthread k = 0 -> sl ≡ₚ wk ++ sl2 ->
  threads k' = threads k -> stacks k' = stacks k -> prevthread k' = prevthread k ->
  curthread k' = curthread k -> numthreads k' = numthreads k -> in_interrupt k' = in_interrupt k ->
  k_cpu k' = k_cpu k -> effect d k k' -> (d = D_none \/ exists s, d = D_V s) ->
  (forall p tp, p ∈ sl2 -> threads k !! p = Some tp -> frees d (t_sleepaddr tp) = false) ->
  wf N k' (rq ++ wk) sl2 zb fk.
Proof.
  intros W Hc0 Hsl Et Es Ep Ec En Ei Ecpu He Hd Hw.
  assert (here k' = here k) as Hh by (unfold here; by rewrite Ec).
  assert (rq ++ sl ++ zb ++ fk ≡ₚ (rq ++ wk) ++ sl2 ++ zb ++ fk) as Hperm by (rewrite Hsl; solve_Permutation).
  assert (locks k' = locks k) as El by (destruct He as [_ He]; destruct Hd as [-> | [s ->]]; apply He).
  assert (forall pl p, pl <> Cur -> (pl = Asleep -> p ∈ sl2) -> tinv N k fk pl p -> tinv N k' fk pl p) as Hst.
  { intros pl p Hpl Hps Hi. eapply tinv_stable; [exact Hi|done|by rewrite Et|by rewrite Es|by rewrite El| | |].
    - intros -> t Ht. eapply effect_blocked; [done| |by eapply Hw; [apply Hps|]].
      intros l ->. by destruct Hd as [?|[? ?]].
    - intros t fs. unfold saved_in. by rewrite Ec, Ep, Ei.
    - intros q tq ? ? ?. rewrite Et. eauto. }
  split; rewrite ?Hh, ?Et, ?Es, ?Ec, ?Ep, ?Ecpu.
  - rewrite <- Hperm. apply W.
  - intros p. rewrite <- Hperm. apply W.
  - apply W.
  - rewrite En, (w_num _ _ _ _ _ _ W). f_equal. rewrite !length_app, (Permutation_length Hsl), length_app. lia.
  - apply W.
  - done.
  - intros p [Hp|Hp]%elem_of_app; [apply Hst; [done|done|by apply W]|].
    apply Hst; [done|done|]. apply tinv_wake, W. rewrite Hsl. in_app.
  - intros p Hp. apply Hst; [done|done|]. apply W. rewrite Hsl. in_app.
  - intros p Hp. apply Hst; [done|done|by apply W].
  - intros p Hp. apply Hst; [done|done|by apply W].
  - intros _. destruct (w_idle _ _ _ _ _ _ W Hc0) as [Hp Hs]. split; [|done].
    rewrite !elem_of_app, Hsl, elem_of_app in Hp. in_app.
  - apply W.
  - split; [|apply W]. rewrite (effect_names _ _ _ He). apply W.
  - eapply effect_sems; [done|]. apply W.
Qed.

(** The processor idles: no thread is running or runnable. *)
Record idle N L k sl zb fk bs : Prop := {
  id_eq : k = put_lists L k;
  id_rep : trep L (threads k) [] sl zb bs;
  id_wf : wf N k [] sl zb fk;
  id_size : numthreads k <= size (l_runqueue L);
  id_cur : curthread k = 0;
}.

Section idle.
Variables (N : names) (L : lists H) (k : kern H R) (sl zb fk : list Z) (bs : list (Z * Z)) (n : nat).
Hypothesis HI : idle N L k sl zb fk bs.
Hypothesis HR : room L k.

Lemma idle_wakeup k1 a : threads k1 = threads k -> 0 < curspl (k_cpu k1) ->
  runs (thread_wakeup a) (put_lists L k1)
    (fun _ k' => exists wk sl2 L2, k' = put_lists L2 k1 /\ trep L2 (threads k) wk sl2 zb bs /\
       sl ≡ₚ wk ++ sl2 /\ numthreads k <= size (l_runqueue L2) /\
       forall p tp, p ∈ sl2 -> threads k !! p = Some tp -> t_sleepaddr tp <> a)
    (fun _ _ => False).
Proof.
  intros Et Hspl. pose proof HI as [_ Hr W Hsz Hc0].
  pose proof (wf_length _ _ _ _ _ _ W) as Hlen. pose proof (w_num _ _ _ _ _ _ W) as Hnum.
  unfold here in Hlen, Hnum. rewrite Hc0 in Hlen, Hnum. simpl in Hlen, Hnum. rewrite length_app in Hlen.
  pose proof (rm_few _ _ HR) as Hfew.
  pose proof (awake_asleep (threads k) a sl) as Hpart.
  pose proof (Permutation_length Hpart) as Hpl. rewrite length_app in Hpl.
  rewrite <- Et in Hr, Hpart, Hpl.
  eapply runs_mono; [eapply (thread_wakeup_runs L k1 [] sl zb bs a (numthreads k)); [done|done| |simpl; lia|]| |done].
  - intros p Hp. rewrite Et. apply (w_dom _ _ _ _ _ _ W). unfold here. rewrite Hc0. simpl. in_app.
  - destruct (rm_rq _ _ HR) as [?|?]; [by left|right]. split; [done|].
    destruct Hr as [_ _ ((? & _) & _) _ _]. lia.
  - intros [] k' (L2 & -> & Hr2 & [[_ Hs2] _ _ _]). rewrite Et in Hr2.
    exists (awake (threads k) a sl), (asleep (threads k) a sl), L2. split_and!; [done|done|by rewrite Et in Hpart|lia|].
    intros p tp [Hs Hin]%list_elem_of_filter Htp. unfold sleeps_on in Hs. rewrite Htp in Hs. by apply Z.eqb_neq.
Qed.

Lemma idle_next wk sl2 d L2 k2 :
  sl ≡ₚ wk ++ sl2 -> trep L2 (threads k) wk sl2 zb bs -> numthreads k <= size (l_runqueue L2) ->
  threads k2 = threads k -> stacks k2 = stacks k -> prevthread k2 = prevthread k ->
  curthread k2 = curthread k -> numthreads k2 = numthreads k -> in_interrupt k2 = in_interrupt k ->
  k_cpu k2 = k_cpu k -> effect d k k2 -> (d = D_none \/ exists s, d = D_V s) ->
  (forall p tp, p ∈ sl2 -> threads k !! p = Some tp -> frees d (t_sleepaddr tp) = false) ->
  next N k [] n d (put_lists L2 k2).
Proof.
  intros Hp Hr Hs Et Es Epv Ec En Ei Ecpu He Hd Hw. pose proof HI as [_ _ W _ Hc0].
  exists wk, sl2, zb, fk. split_and!; [|done|by eexists|left; simpl; congruence].
  exists L2, bs. split_and!; [done|by simpl; rewrite Et| |by simpl; rewrite En].
  by eapply (wf_idle_wake N k [] sl zb fk wk sl2 d).
Qed.

Lemma idle_cpu : k_cpu k = mk_cpu SPL_HIGH false.
Proof.
  pose proof HI as [_ _ W _ Hc0]. destruct (w_idle _ _ _ _ _ _ W Hc0) as [_ Hs].
  rewrite <- (spl_ok_eta _ (w_cpu _ _ _ _ _ _ W)), Hs. done.
Qed.

Lemma idle_irq i : irq_ok k i ->
  runs (interrupt i) (put_lists L k) (fun d k' => next N k [] n d k') (fun _ _ => False).
Proof.
  intros Hok. pose proof HI as [_ Hr W Hsz Hc0]. pose proof idle_cpu as Hcpu.
  unfold interrupt, trap_enter, assert_splhigh. run; [done|]. simpl. rewrite Hcpu.
  set (k1 := with_in_interrupt 1 (with_kcpu (mk_cpu SPL_HIGH false) k)).
  change (with_in_interrupt 1 _) with (put_lists L k1).
  destruct i as [|s]; simpl in Hok; run.
  - unfold hardclock. run. simpl.
    set (c := i32 _). set (k2 := with_lbolt_counter c k1).
    eapply runs_mono with (Q := fun _ k' => exists wk sl2 L2 m, k' = put_lists L2 (with_lbolt_counter m k2) /\
      trep L2 (threads k) wk sl2 zb bs /\ sl ≡ₚ wk ++ sl2 /\ numthreads k <= size (l_runqueue L2)) (E := fun _ _ => False).
    + destruct (c >=? HZ).
      * run. simpl. eapply runs_mono; [apply (idle_wakeup (with_lbolt_counter 0 k2)); done| |done].
        intros [] k' (wk & sl2 & L2 & -> & Hr2 & Hp & Hs2 & _). by exists wk, sl2, L2, 0.
      * run. by exists [], sl, L, c.
    + intros [] k' (wk & sl2 & L2 & m & -> & Hr2 & Hp & Hs2).
      unfold thread_yield. run. apply splhigh_runs. run. simpl. run.
      unfold mi_switch, assert_splhigh. run; [done|]. simpl. rewrite Hc0. change (0 =? 0) with true. cbn iota. run.
      apply splx_runs; [done|]. run. unfold trap_return. run. apply splhigh_runs. run.
      change (with_kcpu _ _) with (put_lists L2 (with_kcpu (mk_cpu SPL_HIGH false)
        (with_in_interrupt (in_interrupt k) (with_lbolt_counter m k2)))).
      eapply (idle_next wk sl2 D_none); try done. by left.
    + done.
  - destruct Hok as (c & Hc & Hmax). pose proof (w_sems _ _ _ _ _ _ W s c Hc) as Hpos.
    assert (s <> 0) as Hs0.
    { intros ->. destruct (w_names _ _ _ _ _ _ W) as [<- [_ Hno _ _]]. apply Hno, elem_of_dom. eauto. }
    unfold V, sem_set. run. { apply negb_true_iff. lia. }
    apply splhigh_runs. run. eapply sem_get_runs; [simpl; exact Hc|]. rewrite i32_small by lia. run; [lia|].
    set (k2 := with_sems (<[s := c + 1]> (sems k)) (with_kcpu (mk_cpu SPL_HIGH false) k1)).
    eapply runs_mono; [apply (idle_wakeup k2); done| |done].
    intros [] k' (wk & sl2 & L2 & -> & Hr2 & Hp & Hs2 & Hw). run. apply splx_runs; [done|]. run.
    unfold trap_return. run. apply splhigh_runs. run.
    change (with_kcpu _ _) with (put_lists L2 (with_kcpu (mk_cpu SPL_HIGH false) (with_in_interrupt (in_interrupt k) k2))).
    eapply (idle_next wk sl2 (D_V s)); try done.
    + split; [done|]. split; [done|]. by exists c.
    + right. by exists s.
    + intros p tp Hin Htp. simpl. apply Z.eqb_neq. intros ->. by eapply Hw.
Qed.

End idle.
(** ** Dispatching *)

(** The thread structures after the switch: the one that was left has its
    [in_interrupt] saved. *)
Lemma enter_threads k p t next : threads k !! p = Some t -> is_Some (threads k !! prevthread k) ->
  exists t', threads (enter next k) !! p = Some t' /\
    (t' = t \/ (p = prevthread k /\ t' = set_ininterrupt (in_interrupt k) t)).
Proof.
  intros Ht _. unfold enter. destruct (prevthread k =? next); simpl; [eauto|].
  destruct (decide (p = prevthread k)) as [->|Hne].
  - rewrite lookup_alter_eq, Ht. simpl. eauto.
  - rewrite lookup_alter_ne by done. eauto.
Qed.

Lemma enter_same k next : stacks (enter next k) = stacks k /\ locks (enter next k) = locks k /\
  sems (enter next k) = sems k /\ lbolt (enter next k) = lbolt k /\ k_cpu (enter next k) = k_cpu k /\
  numthreads (enter next k) = numthreads k /\ curthread (enter next k) = next.
Proof. unfold enter. by destruct (prevthread k =? next). Qed.

Lemma enter_tinv N k fk pl p next k' : tinv N k fk pl p -> pl <> Cur -> pl <> Newborn ->
  curthread k = 0 -> next <> 0 -> p <> next -> is_Some (threads k !! prevthread k) ->
  threads k' = threads (enter next k) -> stacks k' = stacks k -> sems k' = sems k -> locks k' = locks k ->
  curthread k' = next ->
  tinv N k' fk pl p.
Proof.
  intros (t & fs & [Ht Hs Hg Hr Hrel Hfk Hpl]) Hc Hnb Hc0 Hn0 Hpn Hpv Et Es Esm El Ec.
  destruct (enter_threads k p t next Ht Hpv) as (t' & Ht' & Hcase).
  assert (saved_in k p t fs -> pcb_ininterrupt t' = inint fs) as Hsv.
  { unfold saved_in. destruct Hcase as [-> | [-> ->]]; [|by rewrite bool_decide_true].
    case_bool_decide as Hd; [|done]. destruct Hd as [_ Hd]. revert Ht'. unfold enter.
    rewrite Hd, (proj2 (Z.eqb_neq _ _) Hpn). simpl. rewrite lookup_alter_eq, Ht. simpl. by intros [= <-]. }
  assert (saved_in k p t fs -> saved_in k' p t' fs) as Hsv'.
  { intros Hx. unfold saved_in. rewrite bool_decide_false by (intros [? _]; congruence). by apply Hsv. }
  exists t', fs. split.
  - by rewrite Et.
  - by rewrite Es.
  - by destruct Hcase as [-> | [_ ->]].
  - by destruct Hcase as [-> | [_ ->]].
  - intros l Hl. rewrite El. by apply Hrel.
  - intros q Hq. apply Hfk in Hq as (Hq & tq & Htq & Hpar). split; [done|].
    destruct (enter_threads k q tq next Htq Hpv) as (tq' & Htq' & Hcq). exists tq'. rewrite Et.
    split; [done|]. by destruct Hcq as [-> | [_ ->]].
  - destruct pl; simpl in *; try done.
    + destruct Hpl. eauto.
    + destruct Hpl as (w & -> & Hw & Hb & Hsi). assert (t_sleepaddr t' = t_sleepaddr t) as ->
        by (by destruct Hcase as [-> | [_ ->]]).
      exists w. split_and!; [done|done| |eauto]. unfold blocked. by rewrite Esm, El.
Qed.

Lemma enter_current N k fk next k' : tinv N k fk Ready next -> curthread k = 0 -> next <> 0 ->
  curspl (k_cpu k) = SPL_HIGH -> is_Some (threads k !! prevthread k) ->
  threads k' = threads (enter next k) -> stacks k' = stacks k -> locks k' = locks k ->
  k_cpu k' = k_cpu k -> in_interrupt k' = in_interrupt (enter next k) ->
  tinv N k' fk Cur next.
Proof.
  intros (t & fs & [Ht Hs Hg Hr Hrel Hfk [Hos Hsv]]) Hc0 Hn0 Hspl Hpv Et Es El Ecpu Ei.
  destruct (enter_threads k next t next Ht Hpv) as (t' & Ht' & Hcase).
  exists t', fs. split.
  - by rewrite Et.
  - by rewrite Es.
  - by destruct Hcase as [-> | [_ ->]].
  - by destruct Hcase as [-> | [_ ->]].
  - intros l Hl. rewrite El. by apply Hrel.
  - intros q Hq. apply Hfk in Hq as (Hq & tq & Htq & Hpar). split; [done|].
    destruct (enter_threads k q tq next Htq Hpv) as (tq' & Htq' & Hcq). exists tq'. rewrite Et.
    split; [done|]. by destruct Hcq as [-> | [_ ->]].
  - split; [by apply rs_off|]. split; [by rewrite Ecpu, Hspl, (off_level _ _ Hos)|].
    rewrite Ei. unfold enter. unfold saved_in in Hsv. destruct (Z.eqb_spec (prevthread k) next) as [Heq|Hne]; simpl.
    + by rewrite bool_decide_true in Hsv by done.
    + rewrite Ht. by rewrite bool_decide_false in Hsv by (by intros [_ ?]).
Qed.

Lemma wf_enter N k rq sl zb fk next k' : wf N k (next :: rq) sl zb fk -> curthread k = 0 ->
  threads k' = threads (enter next k) -> stacks k' = stacks k -> sems k' = sems k -> locks k' = locks k ->
  lbolt k' = lbolt k -> curthread k' = next -> numthreads k' = numthreads k -> k_cpu k' = k_cpu k ->
  in_interrupt k' = in_interrupt (enter next k) ->
  wf N k' rq sl zb fk.
Proof.
  intros W Hc0 Et Es Esm El Elb Ec En Ecpu Ei.
  destruct (w_idle _ _ _ _ _ _ W Hc0) as [Hpv Hspl].
  assert (here k = []) as Hh by (unfold here; by rewrite Hc0).
  pose proof (w_nodup _ _ _ _ _ _ W) as Hnd. rewrite Hh in Hnd. simpl in Hnd. apply NoDup_cons in Hnd as [Hnn Hnd].
  assert (forall p, p ∈ next :: rq ++ sl ++ zb ++ fk <-> is_Some (threads k !! p)) as Hdom.
  { intros p. rewrite <- (w_dom _ _ _ _ _ _ W), Hh. done. }
  assert (is_Some (threads k !! prevthread k)) as Hpvt.
  { apply Hdom. revert Hpv. simpl. rewrite !elem_of_cons. intros [?|Hp]; [by left|right; in_app]. }
  assert (next <> 0) as Hn0.
  { intros Hz. assert (is_Some (threads k !! 0)) as [x Hx] by (apply Hdom; rewrite <- Hz; by left).
    by rewrite (w_zero _ _ _ _ _ _ W) in Hx. }
  assert (here k' = [next]) as Hh' by (unfold here; by rewrite Ec, (proj2 (Z.eqb_neq _ _) Hn0)).
  assert (dom (threads k') = dom (threads k)) as Hd.
  { rewrite Et. unfold enter. destruct (prevthread k =? next); simpl; [done|]. apply dom_alter_L. }
  assert (forall p, is_Some (threads k' !! p) <-> is_Some (threads k !! p)) as Hds.
  { intros p. by rewrite <- !elem_of_dom, Hd. }
  assert (forall pl p, p ∈ rq ++ sl ++ zb -> pl <> Cur -> pl <> Newborn -> tinv N k fk pl p -> tinv N k' fk pl p) as Hkeep.
  { intros pl p Hp Hpl Hpl' Hi. eapply (enter_tinv N k fk pl p next); try done.
    intros ->. apply Hnn. in_app. }
  split; rewrite ?Hh'.
  - simpl. apply NoDup_cons. done.
  - intros p. rewrite Hds. apply Hdom.
  - rewrite Es, Hd. apply W.
  - rewrite En, (w_num _ _ _ _ _ _ W), Hh. done.
  - destruct (threads k' !! 0) eqn:E; [|done]. assert (is_Some (threads k !! 0)) as [x Hx] by (apply Hds; eauto).
    by rewrite (w_zero _ _ _ _ _ _ W) in Hx.
  - intros _. rewrite Ec. eapply (enter_current N k); try done. apply W. by left.
  - intros p Hp. apply Hkeep; [in_app|done|done|]. apply W. by right.
  - intros p Hp. apply Hkeep; [in_app|done|done|]. by apply W.
  - intros p Hp. apply Hkeep; [in_app|done|done|]. by apply W.
  - intros p Hp. pose proof (w_fk _ _ _ _ _ _ W p Hp) as Hi.
    assert (p <> prevthread k) as Hpp.
    { intros Heq. rewrite Heq in Hp. simpl in Hpv.
      rewrite elem_of_cons, !elem_of_app in Hpv. rewrite !elem_of_app in Hnn.
      apply NoDup_app in Hnd as (_ & Hd1 & Hnd). apply NoDup_app in Hnd as (_ & Hd2 & Hnd).
      apply NoDup_app in Hnd as (_ & Hd3 & _).
      destruct Hpv as [Hx|[Hx|[Hx|Hx]]].
      - apply Hnn. rewrite <- Hx. tauto.
      - apply (Hd1 _ Hx). in_app.
      - apply (Hd2 _ Hx). in_app.
      - by apply (Hd3 _ Hx). }
    destruct Hi as (t & fs & [Ht Hs Hg Hr Hrel Hfk Hpl]). exists t, fs.
    destruct Hpl as [-> Hrd]. split; try done.
    + rewrite Et. unfold enter. destruct (prevthread k =? next); simpl; [done|]. by rewrite lookup_alter_ne.
    + by rewrite Es.
    + intros l Hl. by apply list_elem_of_singleton in Hl.
    + intros q Hq. by apply list_elem_of_singleton in Hq.
  - congruence.
  - rewrite Ecpu. apply W.
  - unfold names_of. rewrite Esm, El, Elb. apply W.
  - rewrite Esm. apply W.
Qed.

End life.
