(* ===== verification/SynchSafe.v ===== *)
(** What the threads of the kernel can rely on: the theorems about whole runs.

    [run_of k tr k'] says that the events of [tr] lead from [k] to [k'], with
    the thread that was running at each event and what it completed.  At every
    step there is memory for a list that has to grow ([healthy]); nothing else
    is assumed of the order of events. *)

From Stdlib Require Import ZArith Lia.
From stdpp Require Import prelude gmap list.
From S2P Require Import Prelude Heap Spl Array Queue SynchObj Threads Synch SynchInv SynchRun SynchLife.

(** ** Runs *)

Section runs_of.
Context {H R : Type} `{HeapLaws H} `{!ProcEnv R}.
Implicit Types (L : lists H) (k : kern H R) (rq sl zb fk wk : list Z).

(** The kernel is up, with its invariant. *)
Definition running k : Prop := exists N rq sl zb fk, sys N k rq sl zb fk.

Definition step_record : Type := event * Z * did.

Inductive run_of : kern H R -> list step_record -> kern H R -> Prop :=
| run_nil k : run_of k [] k
| run_cons k e d k1 tr k2 :
    healthy k -> enabled k e -> exec e k = (Ret d, k1) -> run_of k1 tr k2 ->
    run_of k ((e, curthread k, d) :: tr) k2.

Definition cur_stack k : list frame := default [] (stacks k !! curthread k).

(** What a step leaves, as [next], for any event. *)
Definition after N k rq (e : event) (d : did) k' : Prop :=
  exists rq' sl' zb' fk', sys N k' rq' sl' zb' fk' /\ effect d k k' /\
    match e with E_dispatch => rq = curthread k' :: rq' | _ => exists new, rq' = rq ++ new end /\
    (e = E_resume -> curthread k' = 0 \/ (weight (cur_stack k') < weight (cur_stack k))%nat).

Lemma next_after N k rq n e d k' : next N k rq n d k' -> e <> E_dispatch ->
  (e = E_resume -> n < weight (cur_stack k))%nat -> after N k rq e d k'.
Proof.
  intros (rq' & sl' & zb' & fk' & Hs & He & Hq & Hc) Hne Hn. exists rq', sl', zb', fk'. split_and!; [done|done| |].
  - by destruct e.
  - intros Hr. specialize (Hn Hr). destruct Hc as [?|(Ec & fs' & Hf & Hw)]; [by left|right].
    unfold cur_stack at 1. rewrite Ec, Hf. simpl. lia.
Qed.

Lemma sys_focus N k rq sl zb fk : sys N k rq sl zb fk -> curthread k <> 0 ->
  exists L bs t fs, focus N L k rq sl zb fk bs t fs /\ cur_stack k = fs.
Proof.
  intros (L & bs & Heq & Hr & W & Hs) Hc. destruct (w_cur _ _ _ _ _ _ W Hc) as (t & fs & Htok).
  exists L, bs, t, fs. split; [by split|]. unfold cur_stack. by rewrite (tk_stack _ _ _ _ _ _ _ Htok).
Qed.

Lemma sys_runnable N k rq sl zb fk : sys N k rq sl zb fk -> no_runnable k <-> rq = [].
Proof.
  intros (L & bs & Heq & [_ _ (Hring & _ & Hh) _ _] & _ & _). unfold no_runnable.
  assert (runqueue k = Some (l_runqueue L)) as Hq by (by rewrite Heq).
  rewrite <- (holds_nil_empty _ _ Hring Hh). split; [intros (q & Hq' & ?)|]; [congruence|eauto].
Qed.

Lemma resume_step N k rq sl zb fk : sys N k rq sl zb fk -> healthy k -> enabled k E_resume ->
  runs resume k (fun d k' => after N k rq E_resume d k') (fun _ _ => False).
Proof.
  intros Hs Hh (Hc & f & fs1 & Hst). destruct (sys_focus _ _ _ _ _ _ Hs Hc) as (L & bs & t & fs & HF & Hcs).
  pose proof (healthy_room L k (fo_eq _ _ _ _ _ _ _ _ _ _ HF) Hh) as HR.
  assert (fs = f :: fs1) as Hfs by (by rewrite <- Hcs; unfold cur_stack; rewrite Hst).
  unfold resume. run. rewrite Hst. run.
  assert (runs (run_frame (curthread k) f) (put_lists L (with_stacks (<[curthread k := fs1]> (stacks k)) k))
    (fun d k' => next N k rq (weight fs - 1) d k') (fun _ _ => False)) as Hr.
  { assert (weight fs <= S (weight fs - 1))%nat as Hw1 by lia.
    assert (weight fs1 <= weight fs - 1)%nat as Hw2 by (rewrite Hfs; simpl; destruct f; lia).
    destruct (plain f) eqn:E; [by eapply frame_step|]. destruct f as [ | | | | |p| | | | | | |]; try done.
    - eapply switch_step; [done..|apply Hh|done].
    - assert (fs1 = []) as Hf1.
      { pose proof (focus_stack _ _ _ _ _ _ _ _ _ _ HF) as Hrs. rewrite Hfs in Hrs.
        inversion Hrs as [u Hu|a w Hw| |s' Hs'|u Hu|s' Ho]; subst; [by inversion Hu|inversion Hw|inversion Hs'|inversion Ho]. }
      rewrite Hf1 in *. by eapply start_step. }
  set (x := <[curthread k := fs1]> (stacks k)) in *.
  assert (with_stacks x k = put_lists L (with_stacks x k)) as ->
    by exact (f_equal (with_stacks x) (fo_eq _ _ _ _ _ _ _ _ _ _ HF)).
  eapply runs_mono; [exact Hr| |done].
  intros d k' Hn. eapply next_after; [exact Hn|done|]. intros _. rewrite Hcs, Hfs. simpl. destruct f; lia.
Qed.

Lemma dispatch_step N k rq sl zb fk : sys N k rq sl zb fk -> enabled k E_dispatch ->
  runs (exec E_dispatch) k (fun d k' => after N k rq E_dispatch d k') (fun _ _ => False).
Proof.
  intros Hs [Hc Hnr]. rewrite (sys_runnable _ _ _ _ _ _ Hs) in Hnr. destruct rq as [|p rq]; [done|].
  destruct Hs as (L & bs & Heq & Hr & W & Hsz). destruct (w_idle _ _ _ _ _ _ W Hc) as [Hpv Hspl].
  assert (forall q, q ∈ (p :: rq) ++ sl ++ zb ++ fk <-> is_Some (threads k !! q)) as Hdom.
  { intros q. rewrite <- (w_dom _ _ _ _ _ _ W). unfold here. by rewrite Hc. }
  destruct (proj1 (Hdom p)) as [t Ht]; [by left|].
  simpl. run. rewrite Heq at 1. eapply runs_mono; [eapply (dispatch_runs L k p rq sl zb bs t)| |done].
  - done.
  - by rewrite Hspl.
  - apply Hdom. in_app.
  - done.
  - intros r k' (-> & L' & -> & Hr' & [_ Hs']). run. destruct (enter_same k p) as (Es & El & Esm & Elb & Ecpu & En & Ec).
    exists rq, sl, zb, fk. split_and!; [| |simpl; by rewrite Ec|done].
    + exists L', bs. split_and!; [done|done| |simpl; rewrite En; lia]. by eapply wf_enter.
    + split; [done|]. done.
Qed.

(** Every enabled event runs to its end. *)
Lemma exec_step N k rq sl zb fk e : sys N k rq sl zb fk -> healthy k -> enabled k e ->
  runs (exec e) k (fun d k' => after N k rq e d k') (fun _ _ => False).
Proof.
  intros Hs Hh Hen. destruct e as [c| |i|]; [| |destruct Hen as [Hok [[Hc Hie]|[Hc Hnr]]]|].
  - destruct Hen as (Hc & Hst & Hok). destruct (sys_focus _ _ _ _ _ _ Hs Hc) as (L & bs & t & fs & HF & Hcs).
    pose proof (healthy_room L k (fo_eq _ _ _ _ _ _ _ _ _ _ HF) Hh) as HR.
    assert (fs = []) as Hfs by (by rewrite <- Hcs; unfold cur_stack; rewrite Hst).
    rewrite (fo_eq _ _ _ _ _ _ _ _ _ _ HF) at 1. eapply runs_mono with (Q := next N k rq 1) (E := fun _ _ => False).
    + destruct (is_fork c) eqn:E; [|by eapply call_step]. destruct c; try done. by eapply fork_step.
    + intros d k' Hn. by eapply next_after.
    + done.
  - by eapply resume_step.
  - destruct (sys_focus _ _ _ _ _ _ Hs Hc) as (L & bs & t & fs & HF & Hcs).
    pose proof (healthy_room L k (fo_eq _ _ _ _ _ _ _ _ _ _ HF) Hh) as HR.
    rewrite (fo_eq _ _ _ _ _ _ _ _ _ _ HF) at 1. eapply runs_mono; [by eapply irq_step| |done].
    intros d k' Hn. by eapply next_after.
  - rewrite (sys_runnable _ _ _ _ _ _ Hs) in Hnr. subst rq. destruct Hs as (L & bs & Heq & Hr & W & Hsz).
    pose proof (healthy_room L k Heq Hh) as HR. rewrite Heq at 1.
    eapply runs_mono; [eapply (idle_irq N L k sl zb fk bs 0); [by split|done|done]| |done].
    intros d k' Hn. by eapply next_after.
  - by eapply dispatch_step.
Qed.

(** ** One step of a run *)

Lemma run_step_inv k e d k1 rq N sl zb fk : sys N k rq sl zb fk -> healthy k -> enabled k e ->
  exec e k = (Ret d, k1) -> after N k rq e d k1.
Proof.
  intros Hs Hh He Hx. pose proof (exec_step _ _ _ _ _ _ _ Hs Hh He) as Hr. unfold runs in Hr.
  by rewrite Hx in Hr.
Qed.

Lemma running_step k e d k1 : running k -> healthy k -> enabled k e -> exec e k = (Ret d, k1) ->
  running k1 /\ effect d k k1.
Proof.
  intros (N & rq & sl & zb & fk & Hs) Hh He Hx.
  destruct (run_step_inv _ _ _ _ _ _ _ _ _ Hs Hh He Hx) as (rq' & sl' & zb' & fk' & Hs' & Hef & _).
  split; [|done]. by exists N, rq', sl', zb', fk'.
Qed.

Lemma run_app_inv k tr1 tr2 k' : run_of k (tr1 ++ tr2) k' ->
  exists k1, run_of k tr1 k1 /\ run_of k1 tr2 k'.
Proof.
  revert k. induction tr1 as [|x tr1 IH]; intros k Hr; simpl in Hr; [exists k; split; [constructor|done]|].
  inversion Hr as [|? e d k1 ? ? Hh He Hx Hr']; subst. destruct (IH _ Hr') as (k2 & ? & ?).
  exists k2. split; [by econstructor|done].
Qed.

Lemma running_run k tr k' : running k -> run_of k tr k' -> running k'.
Proof.
  intros Hr Hrun. induction Hrun as [|k e d k1 tr k2 Hh He Hx _ IH]; [done|].
  apply IH. by eapply running_step.
Qed.

(** Only a thread acquires locks. *)
Lemma bind_const_inv {S A B} (m : M S A) (b b' : B) s s' :
  (m ;;; ret b) s = (Ret b', s') -> b' = b.
Proof. unfold bind, ret. destruct (m s) as [[] ?]; by intros [= <- <-] || done. Qed.

Lemma acquire_thread k e l k1 : enabled k e -> exec e k = (Ret (D_acquire l), k1) -> curthread k <> 0.
Proof.
  destruct e as [c| |i|]; simpl; [intros [? _] _|intros [? _] _|intros _ Hx|intros _ Hx]; [done|done| |].
  - exfalso. unfold interrupt in Hx. unfold bind at 1 in Hx.
    destruct (trap_enter k) as [[[a b]| | |] k2]; try done.
    destruct i as [|s].
    + unfold bind at 1 in Hx. destruct (hardclock _ k2) as [[aw| | |] k3]; try done;
      by apply bind_const_inv in Hx.
    + unfold bind at 1 in Hx. destruct (V s k2) as [[u| | |] k3]; try done;
      by apply bind_const_inv in Hx.
  - by apply bind_const_inv in Hx.
Qed.

(** ** Locks *)

(** A lock that is held is not acquired before its holder has released it. *)
Lemma held_until_released k tr1 e q l tr2 k' p :
  running k -> locks k !! l = Some p -> p <> 0 ->
  run_of k (tr1 ++ (e, q, D_acquire l) :: tr2) k' -> exists e', (e', p, D_release l) ∈ tr1.
Proof.
  revert k. induction tr1 as [|[[e1 q1] d1] tr1 IH]; intros k Hrun Hl Hp Htr; simpl in Htr;
    inversion Htr as [|? ? ? k1 ? ? Hh He Hx Hr']; subst;
    destruct (running_step _ _ _ _ Hrun Hh He Hx) as [Hrun1 Hef].
  - destruct Hef as [_ (_ & Hl0 & _)]. congruence.
  - destruct (decide (d1 = D_release l)) as [->|Hd].
    { destruct Hef as [_ (_ & Hl0 & _)]. exists e1. assert (p = curthread k) as -> by congruence. by left. }
    destruct (IH k1) as [e' He']; [done| |done|done|exists e'; by right].
    destruct (decide (p = curthread k)) as [->|Hpc].
    + by eapply effect_locks_cur.
    + by eapply effect_locks.
Qed.

End runs_of.

Section theorems.
Context {H R : Type} `{HeapLaws H} `{!ProcEnv R}.
Implicit Types (k : kern H R).


(** C4: mutual exclusion.  Between two acquisitions of a lock, whoever made
    the first one has released it, whatever the interleaving of threads and
    interrupts. *)
Theorem lock_mutual_exclusion k tr1 e1 p l tr2 e2 q tr3 k' : running k ->
  run_of k (tr1 ++ (e1, p, D_acquire l) :: tr2 ++ (e2, q, D_acquire l) :: tr3) k' ->
  exists e, (e, p, D_release l) ∈ tr2.
Proof.
  intros Hrun Htr. destruct (run_app_inv _ _ _ _ Htr) as (k1 & H1' & H2').
  inversion H2' as [|? ? ? k2 ? ? Hh He Hx Hr']; subst.
  assert (running k1) as Hrun1 by (by eapply running_run).
  destruct (running_step _ _ _ _ Hrun1 Hh He Hx) as [Hrun2 [_ (_ & _ & El)]].
  eapply held_until_released; [exact Hrun2| |by eapply acquire_thread|exact Hr'].
  by rewrite El, lookup_insert_eq.
Qed.

(** How often [d] was done in a run. *)
Definition times (d : did) (tr : list step_record) : Z :=
  Z.of_nat (length (List.filter (fun x => bool_decide (x.2 = d)) tr)).

Lemma times_cons d x tr : times d (x :: tr) = (if bool_decide (x.2 = d) then 1 else 0) + times d tr.
Proof. unfold times. simpl. destruct (bool_decide (x.2 = d)); simpl; lia. Qed.

Lemma effect_count d k k' s c : effect d k k' -> sems k !! s = Some c ->
  sems k' !! s = Some (c + (if bool_decide (d = D_V s) then 1 else 0) - (if bool_decide (d = D_P s) then 1 else 0)).
Proof.
  intros [_ He] Hs. destruct d as [|x|x|x|x]; simpl in He.
  - destruct He as [-> _]. rewrite Hs. f_equal. rewrite !bool_decide_false by done. lia.
  - destruct He as (_ & c0 & Hc & _ & ->). rewrite (bool_decide_false (D_P x = D_V s)) by done.
    destruct (decide (x = s)) as [->|Hne].
    + rewrite lookup_insert_eq, bool_decide_true by done. f_equal. assert (c = c0) by congruence. lia.
    + rewrite lookup_insert_ne, bool_decide_false by congruence. rewrite Hs. f_equal. lia.
  - destruct He as (_ & c0 & Hc & ->). rewrite (bool_decide_false (D_V x = D_P s)) by done.
    destruct (decide (x = s)) as [->|Hne].
    + rewrite lookup_insert_eq, bool_decide_true by done. f_equal. assert (c = c0) by congruence. lia.
    + rewrite lookup_insert_ne, bool_decide_false by congruence. rewrite Hs. f_equal. lia.
  - destruct He as [-> _]. rewrite Hs. f_equal. rewrite !bool_decide_false by done. lia.
  - destruct He as [-> _]. rewrite Hs. f_equal. rewrite !bool_decide_false by done. lia.
Qed.

(** C19: semaphores count.  In every run the count of a semaphore is its
    initial value plus the completed Vs minus the completed Ps, and it is never
    negative: no interleaving lets more Ps through than there were Vs. *)
Theorem semaphore_counts k tr k' s c : running k -> run_of k tr k' -> sems k !! s = Some c ->
  sems k' !! s = Some (c + times (D_V s) tr - times (D_P s) tr) /\
  0 <= c + times (D_V s) tr - times (D_P s) tr.
Proof.
  intros Hrun Htr Hs. assert (sems k' !! s = Some (c + times (D_V s) tr - times (D_P s) tr)) as Hs'.
  { revert c Hs. induction Htr as [k|k e d k1 tr k2 Hh He Hx Htr IH]; intros c Hs.
    - rewrite Hs. f_equal. unfold times. simpl. lia.
    - destruct (running_step _ _ _ _ Hrun Hh He Hx) as [Hrun1 Hef].
      rewrite (IH Hrun1 _ (effect_count _ _ _ _ _ Hef Hs)), !times_cons. simpl. f_equal. lia. }
  split; [done|]. destruct (running_run _ _ _ Hrun Htr) as (N & rq & sl & zb & fk & L & bs & _ & _ & W & _).
  by eapply (w_sems _ _ _ _ _ _ W).
Qed.


(** The threads in the run queue, in order. *)
Definition runnable k rq : Prop := exists q, runqueue k = Some q /\ holds q rq.

Lemma sys_runnable_list N k rq sl zb fk : sys N k rq sl zb fk -> runnable k rq.
Proof.
  intros (L & bs & Heq & [_ _ (_ & _ & Hh) _ _] & _). exists (l_runqueue L). split; [by rewrite Heq|done].
Qed.

Lemma runnable_inj k rq rq' : runnable k rq -> runnable k rq' -> rq = rq'.
Proof.
  intros (q & Hq & Hl & Hc) (q' & Hq' & Hl' & Hc'). assert (q' = q) as -> by congruence.
  apply list_eq_same_length with (length rq); [lia|done|].
  intros i x y _ Hx Hy. apply Hc in Hx. apply Hc' in Hy. congruence.
Qed.

Definition dispatches (tr : list step_record) : nat :=
  length (List.filter (fun x => match x.1.1 with E_dispatch => true | _ => false end) tr).

(** C26: the scheduler is fair.  The thread at position [i] of the run queue is
    the one that runs after the dispatch number [i + 1], whatever happens in
    between: no thread overtakes another in the queue. *)
Theorem run_queue_fair k rq i p tr k' : running k -> runnable k rq -> rq !! i = Some p ->
  run_of k tr k' -> (i < dispatches tr)%nat ->
  exists tr1 tr2 k1, tr = tr1 ++ tr2 /\ run_of k tr1 k1 /\ dispatches tr1 = S i /\ curthread k1 = p.
Proof.
  intros (N & rq0 & sl & zb & fk & Hs) Hrn Hi Hrun Hn.
  assert (rq0 = rq) as -> by (by eapply runnable_inj; [eapply sys_runnable_list|]). clear Hrn.
  revert rq sl zb fk i Hs Hi Hn. induction Hrun as [k|k e d k1 tr k2 Hh He Hx Htr IH]; intros rq sl zb fk i Hs Hi Hn.
  { unfold dispatches in Hn. simpl in Hn. lia. }
  destruct (run_step_inv _ _ _ _ _ _ _ _ _ Hs Hh He Hx) as (rq' & sl' & zb' & fk' & Hs' & _ & Hq & _).
  assert (forall tr1 tr2 k3, tr = tr1 ++ tr2 -> run_of k1 tr1 k3 ->
    run_of k ((e, curthread k, d) :: tr1) k3 /\ (e, curthread k, d) :: tr = ((e, curthread k, d) :: tr1) ++ tr2) as Hext.
  { intros tr1 tr2 k3 -> ?. split; [by econstructor|done]. }
  destruct e as [c| |j|]; simpl in Hn.
  4: { subst rq. destruct i as [|i]; simpl in Hi.
    - injection Hi as <-. exists [(E_dispatch, curthread k, d)], tr, k1. split_and!; try done.
      econstructor; [done..|constructor].
    - destruct (IH rq' sl' zb' fk' i Hs' Hi) as (tr1 & tr2 & k3 & Htr' & Hr & Hd & Hc).
      { unfold dispatches in *. simpl in Hn. lia. }
      destruct (Hext tr1 tr2 k3 Htr' Hr). exists ((E_dispatch, curthread k, d) :: tr1), tr2, k3.
      split_and!; try done. unfold dispatches in *. simpl. by rewrite Hd. }
  all: destruct Hq as [new ->];
    destruct (IH _ sl' zb' fk' i Hs' (lookup_app_l_Some _ _ _ _ Hi) Hn) as (tr1 & tr2 & k3 & Htr' & Hr & Hd & Hc);
    destruct (Hext tr1 tr2 k3 Htr' Hr); eexists _, tr2, k3; split_and!; [eassumption|done|exact Hd|done].
Qed.

Lemma run_stack_weight N fs : run_stack N fs -> (weight fs <= 4)%nat.
Proof.
  assert (forall u, ustack u -> weight u <= 1)%nat as Hu by (by intros ? []; simpl; lia).
  assert (forall a w, wstack N a w -> weight w <= 2)%nat as Hw by (by intros ? ? []; simpl; lia).
  assert (forall s, sstack N s -> weight s <= 3)%nat as Hs.
  { intros s []; simpl; [|lia|]; [specialize (Hw _ _ ltac:(eassumption)); lia|specialize (Hu _ ltac:(eassumption)); lia]. }
  intros Hr. destruct Hr as [u ?|a w ?| |s ?|u ?|s Ho]; simpl.
  - specialize (Hu u ltac:(done)). lia.
  - specialize (Hw a w ltac:(done)). lia.
  - lia.
  - specialize (Hs s ltac:(done)). lia.
  - specialize (Hu u ltac:(done)). lia.
  - destruct Ho as [|s ?]; simpl; [lia|]. specialize (Hs s ltac:(done)). lia.
Qed.

(** C27: the kernel's code between two switches terminates.  A thread that is
    given the processor in the middle of an operation is back in its own code,
    or has given the processor up again, after at most four resumptions. *)
Theorem resume_terminates k tr k' : running k -> run_of k tr k' ->
  Forall (fun x => x.1.1 = E_resume) tr -> (length tr <= 4)%nat.
Proof.
  intros Hrun Htr Hall. destruct (decide (tr = [])) as [->|Hne]; [simpl; lia|].
  assert (curthread k <> 0) as Hc.
  { destruct Htr as [|k e d k1 tr k2 Hh He Hx _]; [done|]. apply Forall_cons in Hall as [Heq _].
    simpl in Heq. subst e. by destruct He. }
  pose proof Hrun as (N & rq & sl & zb & fk & Hs). destruct (sys_focus _ _ _ _ _ _ Hs Hc) as (L & bs & t & fs & HF & Hcs).
  pose proof (run_stack_weight _ _ (focus_stack _ _ _ _ _ _ _ _ _ _ HF)) as Hw. rewrite <- Hcs in Hw.
  clear HF Hcs fs t bs L Hne Hrun. enough (length tr <= weight (cur_stack k))%nat by lia. clear Hw.
  revert rq sl zb fk Hs. induction Htr as [k|k e d k1 tr k2 Hh He Hx Htr IH]; intros rq sl zb fk Hs; [simpl; lia|].
  apply Forall_cons in Hall as [Heq Hall]. simpl in Heq. subst e.
  destruct (run_step_inv _ _ _ _ _ _ _ _ _ Hs Hh He Hx) as (rq' & sl' & zb' & fk' & Hs' & _ & _ & Hw).
  simpl. destruct (decide (curthread k1 = 0)) as [Hc1|Hc1].
  - destruct Htr as [k1|k1 e d1 k3 tr k4 Hh1 He1 Hx1 _].
    + simpl. destruct He as (_ & f & fs1 & Hst). unfold cur_stack. rewrite Hst. simpl. destruct f; lia.
    + apply Forall_cons in Hall as [Heq _]. simpl in Heq. subst e. by destruct He1.
  - specialize (IH Hall Hc1 _ _ _ _ Hs'). destruct (Hw eq_refl) as [?|?]; [done|lia].
Qed.

End theorems.

(** ** Start-up *)

Section boot.
Context {H R : Type} `{HeapLaws H} `{!ProcEnv R}.
Implicit Types (k : kern H R).

(** The part of [boot] that sets threads up; interrupts are turned on just before
    the devices are probed ([machdep_dev_bootstrap], called from [dev_bootstrap]). *)
Definition boot_threads : M (kern H R) Z :=
  scheduler_bootstrap ;;;
  me <- thread_bootstrap ;;
  spl0 ;;;
  ret me.

(** The machine before, with the semaphores and locks that threads will use. *)
Definition power_on (h : H) (r : R) (ss ls : gmap Z Z) (lb : Z) : kern H R :=
  mk_kern h r cpu_boot 0 ∅ ∅ 0 0 None None 0 0 None ss ls lb 0.

(** [m] does [Q] if it returns a value. *)
Definition returning {S A} (m : M S A) (s : S) (Q : A -> S -> Prop) : Prop :=
  forall a s', m s = (Ret a, s') -> Q a s'.

Lemma returning_bind {S A B} (m : M S A) (f : A -> M S B) s Q :
  returning m s (fun a s' => returning (f a) s' Q) -> returning (bind m f) s Q.
Proof.
  intros Hm b s' Hb. unfold bind in Hb. destruct (m s) as [[a| | |] s1] eqn:E; try done.
  by eapply Hm.
Qed.

Lemma returning_runs {S A} (m : M S A) s (Q Q' : A -> S -> Prop) E :
  runs m s Q E -> (forall a s', Q a s' -> Q' a s') -> returning m s Q'.
Proof. intros Hr HQ a s' Hm. unfold runs in Hr. rewrite Hm in Hr. by apply HQ. Qed.

Lemma returning_if {S} (b : bool) (s : S) (Q : unit -> S -> Prop) :
  (b = false -> Q tt s) -> returning (if b then panic else ret tt) s Q.
Proof. intros HQ [] s' Hm. destruct b; [done|]. injection Hm as <-. by apply HQ. Qed.

Lemma boot_wf (L : lists H) (r : R) ss ls lb me t n :
  let N := mk_names (dom ss) (dom ls) lb in
  names_ok N -> (forall s c, ss !! s = Some c -> 0 <= c) ->
  me <> 0 -> t_stack t = 0 -> t_vmspace t = 0 -> t_cwd t = 0 ->
  let k := mk_kern (l_heap L) r (mk_cpu 0 true) 0 {[me := t]} {[me := []]} me 0 (Some (l_sleepers L))
    (Some (l_zombies L)) 1 n (Some (l_runqueue L)) ss ls lb 0 in
  wf N k [] [] [] [].
Proof.
  intros N HN Hss Hme Hst Hvm Hcwd k.
  assert (here k = [me]) as Hh by (unfold here; simpl; by rewrite (proj2 (Z.eqb_neq _ _) Hme)).
  split; rewrite ?Hh; simpl; try done; try (intros p Hp; by apply not_elem_of_nil in Hp).
  - apply NoDup_singleton.
  - intros p. rewrite list_elem_of_singleton, lookup_singleton_is_Some. naive_solver.
  - by rewrite !dom_singleton_L.
  - by rewrite lookup_singleton_ne.
  - intros _. exists t, []. split; simpl; try done.
    + apply lookup_singleton_eq.
    + apply lookup_singleton_eq.
    + by left.
    + intros l Hl. by apply not_elem_of_nil in Hl.
    + intros q Hl. by apply not_elem_of_nil in Hl.
    + split; [apply rs_user, us_nil|done].
Qed.

Lemma boot_lists q a1 a2 (h1 h2 h : H) bs : queue_at q h1 [] [] -> size q = 32 ->
  array_at a1 h2 bs -> contents a1 = [] -> array_at a2 h (blocks a1 ++ q_blocks q) -> contents a2 = [] ->
  trep (mk_lists h q a1 a2) ∅ [] [] [] [].
Proof.
  intros (_ & Hs & Hr & Hnr & Hnw & _ & Hh) Hsz (_ & ? & ? & ? & ? & _) Hc1 (Hok & ? & ? & ? & ? & Ho) Hc2.
  split; simpl.
  - done.
  - eapply owns_perm; [|exact Ho]. unfold all_tblocks. rewrite map_to_list_empty. simpl. solve_Permutation.
  - split; [unfold ring_ok; conj|]. split; [lia|done].
  - unfold ashape. conj.
  - unfold ashape. conj.
Qed.

Lemma returning_kheap {A} (m : M H A) k P E (Q : A -> kern H R -> Prop) :
  runs m (k_heap k) P E -> (forall a h', P a h' -> Q a (with_kheap h' k)) -> returning (on_kheap m) k Q.
Proof.
  intros Hr HQ a s' Hm. unfold on_kheap, zoom in Hm. unfold runs in Hr.
  destruct (m (k_heap k)) as [[] h'] eqn:E'; try done. injection Hm as <- <-. by apply HQ.
Qed.

Lemma returning_modify {S} f (s : S) (Q : unit -> S -> Prop) : Q tt (f s) -> returning (modify f) s Q.
Proof. by intros HQ [] s' [= <-]. Qed.

Lemma boot_runs (h : H) (r : R) ss ls lb :
  heap_ok h -> names_ok (mk_names (dom ss) (dom ls) lb) -> (forall s c, ss !! s = Some c -> 0 <= c) ->
  returning boot_threads (power_on h r ss ls lb)
    (fun me k => running k /\ curthread k = me /\ cur_stack k = [] /\ iec (k_cpu k) = true /\
       runnable k [] /\ sems k = ss /\ locks k = ls /\ pid_assign k = 0 /\
       exists t, threads k !! me = Some t /\ pid t = 0).
Proof.
  intros Hok HN Hss. apply returning_bind. unfold scheduler_bootstrap. apply returning_bind.
  eapply returning_kheap; [apply (q_create_spec (A := Z) h [] 32); [done|apply owns_nil|done]|].
  intros [q|] h1; [|done]. intros [Hq Hqs]. apply returning_modify, returning_bind.
  pose proof Hq as (Hok1 & Hq1 & Hq2 & Hq3 & Hq4 & Hoq & Hqh). rewrite app_nil_r in Hoq.
  unfold thread_bootstrap. apply returning_bind.
  eapply returning_kheap; [apply (array_create_spec (A := Z) h1 (q_blocks q)); done|].
  intros [a1|] h2; [|done]. intros [Ha1 Hc1]. apply returning_bind, returning_modify, returning_bind.
  intros [] ? [= <-]. pose proof Ha1 as (Hok2 & _ & _ & _ & _ & Hoa).
  apply returning_bind. eapply returning_kheap; [apply (array_create_spec (A := Z) h2 (blocks a1 ++ q_blocks q)); done|].
  intros [a2|] h3; [|done]. intros [Ha2 Hc2]. apply returning_bind, returning_modify, returning_bind.
  intros [] ? [= <-].
  pose (L := mk_lists h3 q a1 a2).
  assert (trep L ∅ [] [] [] []) as Hr by (by eapply boot_lists).
  set (k0 := power_on h r ss ls lb).
  change (with_zombies _ _) with (put_lists L k0).
  apply returning_bind. eapply returning_runs; [apply (thread_create_runs L k0 [] [] [] [] 11 Hr); done|].
  intros me k1 (h4 & [(-> & _)|(Hme & _ & t & -> & [Hst Hsa Hin [Hvm Hcw]] & Hpid & _ & Hr1)]).
  { apply returning_bind. by apply returning_if. }
  apply returning_bind, returning_if. intros _.
  set (L4 := set_lheap h4 L). set (k2 := with_pid_assign _ _) in *.
  eapply returning_runs with (Q := fun m k => m = me /\ k = put_lists L4 (with_pid_assign 0 (with_numthreads 1
    (with_curthread me (with_stacks {[me := []]} (with_threads {[me := set_ininterrupt 0 t]} k2)))))) (E := fun _ _ => False).
  { unfold thr_set, push. run. eapply thr_runs; [apply lookup_insert_eq|]. run. split; [done|].
    simpl. by rewrite insert_insert_eq. }
  intros m k3 [-> ->]. apply returning_bind.
  eapply returning_runs with (Q := fun _ k => k = _) (E := fun _ _ => False); [by apply splx_runs|].
  intros n k3 ->. intros m k3 [= <- <-].
  assert (trep L4 {[me := set_ininterrupt 0 t]} [] [] [] []) as Hr2.
  { assert ({[me := set_ininterrupt 0 t]} = <[me := set_ininterrupt 0 t]> (<[me := t]> (∅ : gmap Z thread))) as ->
      by (by rewrite insert_insert_eq).
    eapply trep_update; [exact Hr1|apply lookup_insert_eq|done]. }
  split_and!; try done.
  - exists (mk_names (dom ss) (dom ls) lb), [], [], [], [], L4, [].
    split_and!; [done|exact Hr2| |simpl; rewrite Hqs; lia].
    by apply (boot_wf L4 r ss ls lb me (set_ininterrupt 0 t) 0).
  - unfold cur_stack. simpl. by rewrite lookup_singleton_eq.
  - exists q. split; [done|]. apply Hqh.
  - exists (set_ininterrupt 0 t). split; [apply lookup_singleton_eq|done].
Qed.
End boot.

Section boot_theorem.
Context {H R : Type} `{HeapLaws H} `{!ProcEnv R}.

(** C28: start-up establishes the invariant.  If the boot sequence does not
    panic for lack of memory, it leaves a running kernel whose one thread, the
    one [thread_bootstrap] returns, is in its own code with interrupts on and
    nothing else to run. *)
Theorem boot_starts_kernel (h : H) (r : R) ss ls lb me k :
  heap_ok h -> names_ok (mk_names (dom ss) (dom ls) lb) -> (forall s c, ss !! s = Some c -> 0 <= c) ->
  boot_threads (power_on h r ss ls lb) = (Ret me, k) ->
  running k /\ curthread k = me /\ cur_stack k = [] /\ iec (k_cpu k) = true /\ runnable k [].
Proof.
  intros Hok HN Hss Hb. destruct (boot_runs h r ss ls lb Hok HN Hss me k Hb) as (? & ? & ? & ? & ? & _).
  done.
Qed.

End boot_theorem.

(** ** Operations on threads *)

Lemma panics_bind {S A B} (m : M S A) (f : A -> M S B) s Q :
  runs m s Q (fun _ _ => False) -> (forall a s', Q a s' -> (f a s').1 = Panic) -> (bind m f s).1 = Panic.
Proof. unfold runs, bind. destruct (m s) as [[] ?]; naive_solver. Qed.

Section thread_theorems.
Context {H R : Type} `{HeapLaws H} `{!ProcEnv R}.
Implicit Types (L : lists H) (k : kern H R) (rq sl zb : list Z).

(** [thread_wakeup] moves exactly the threads that sleep on its address to
    the run queue, in the order in which they went to sleep, behind those
    already there; the others stay asleep, in order.  It needs memory only if
    the queue has to grow. *)
Theorem thread_wakeup_correct L k rq sl zb bs addr n :
  trep L (threads k) rq sl zb bs -> 0 < curspl (k_cpu k) ->
  (forall p, p ∈ sl -> is_Some (threads k !! p)) ->
  Z.of_nat (length rq + length (awake (threads k) addr sl)) <= n <= 2 ^ 24 -> can_queue L n ->
  runs (thread_wakeup addr) (put_lists L k)
    (fun _ k' => exists L', k' = put_lists L' k /\
       trep L' (threads k) (rq ++ awake (threads k) addr sl) (asleep (threads k) addr sl) zb bs /\
       (n < size (l_runqueue L) -> l_heap L' = l_heap L))
    (fun _ _ => False).
Proof.
  intros Hr Hs Hsl Hn Hc. eapply runs_mono; [by eapply thread_wakeup_runs| |done].
  intros [] k' (L' & -> & Hr' & Hk). exists L'. split_and!; [done|done|]. apply Hk.
Qed.

(** [thread_wakeone], and so [cv_signal], wakes the thread that has been
    asleep on the address for longest, and no other; without such a thread
    nothing changes. *)
Theorem thread_wakeone_correct L k rq sl zb bs addr n :
  trep L (threads k) rq sl zb bs -> 0 < curspl (k_cpu k) ->
  (forall p, p ∈ sl -> is_Some (threads k !! p)) ->
  Z.of_nat (length rq) < n <= 2 ^ 24 -> can_queue L n ->
  runs (thread_wakeone addr) (put_lists L k)
    (fun _ k' => exists L', k' = put_lists L' k /\
       ((awake (threads k) addr sl = [] /\ trep L' (threads k) rq sl zb bs) \/
        exists pre p post, sl = pre ++ p :: post /\ awake (threads k) addr pre = [] /\
          sleeps_on (threads k) addr p = true /\
          trep L' (threads k) (rq ++ [p]) (pre ++ post) zb bs))
    (fun _ _ => False).
Proof.
  intros Hr Hs Hsl Hn Hc. eapply runs_mono; [by eapply thread_wakeone_runs| |done].
  intros [] k' (L' & -> & _ & Hcase). by exists L'.
Qed.

(** C37: [thread_bootstrap] resets [pid_assign] after it has created the boot
    thread, so the first thread that is forked gets the boot thread's pid. *)
Theorem first_fork_shares_pid (h : H) (r : R) ss ls lb me k namelen p k' :
  heap_ok h -> names_ok (mk_names (dom ss) (dom ls) lb) -> (forall s c, ss !! s = Some c -> 0 <= c) ->
  boot_threads (power_on h r ss ls lb) = (Ret me, k) -> 0 <= namelen < 2 ^ 30 ->
  fork_create namelen k = (Ret p, k') ->
  p <> me /\ exists t t', threads k' !! me = Some t /\ threads k' !! p = Some t' /\ pid t' = pid t.
Proof.
  intros Hok HN Hss Hb Hnl Hf.
  destruct (boot_runs h r ss ls lb Hok HN Hss me k Hb) as (Hrun & Hc & _ & _ & _ & _ & _ & Hpa & t & Ht & Hpt).
  destruct Hrun as (N & rq & sl & zb & fk & L & bs & Heq & Hr & W & _).
  assert (curthread k <> 0) as Hc0 by (rewrite Hc; intros ->; by rewrite (w_zero _ _ _ _ _ _ W) in Ht).
  destruct (w_cur _ _ _ _ _ _ W Hc0) as (t0 & fs & [Ht0 _ _ [_ Hcwd] _ _ _]).
  rewrite Heq in Hf.
  pose proof (fork_create_runs L k rq sl zb bs namelen t0 Hr (w_cpu _ _ _ _ _ _ W) Hnl Ht0 Hcwd) as Hfr.
  unfold runs in Hfr. rewrite Hf in Hfr. destruct Hfr as (_ & Hnew & h' & t' & -> & _ & _ & Hpid & _).
  assert (p <> me) as Hpm by congruence. split; [done|]. exists t, t'. simpl.
  rewrite lookup_insert_ne, lookup_insert_eq by done. split_and!; [done|done|congruence].
Qed.

(** What a step of [thread_destroy] that frees [x] leaves. *)
Definition freed L k (rest : list (Z * Z)) (_ : unit) (k' : kern H R) : Prop :=
  exists h, k' = put_lists (set_lheap h L) k /\ heap_ok h /\ owns h rest.

Lemma free_freed L k p n rest : heap_ok (l_heap L) -> owns (l_heap L) ((p, n) :: rest) ->
  runs (on_kheap (kfree p)) (put_lists L k) (freed L k rest) (fun _ _ => False).
Proof. intros Hok Ho. eapply kheap_free; [done|exact Ho|]. intros h ? ?. by exists h. Qed.

Lemma cv_freed L k c rest : heap_ok (l_heap L) -> owns (l_heap L) (cv_blocks c 6 ++ rest) ->
  runs (on_kheap (cv_destroy c)) (put_lists L k) (freed L k rest) (fun _ _ => False).
Proof.
  intros Hok Ho. apply runs_kheap. eapply runs_mono; [by eapply cv_destroy_owns| |done].
  intros [] h [? ?]. by exists h.
Qed.

Lemma half_made_panics L k p t rest : heap_ok (l_heap L) -> ~ whole t ->
  owns (l_heap L) (match Waitonexit t with Some c => cv_blocks c 6 | None => [] end ++
    match Waittoexit t with Some c => cv_blocks c 6 | None => [] end ++ rest) ->
  ((cv_destroy_ptr (Waitonexit t) ;;; cv_destroy_ptr (Waittoexit t) ;;;
    match lk t with
    | None => panic
    | Some l =>
        on_kheap (lock_destroy l) ;;; on_kheap (kfree p) ;;;
        modify (fun k => with_stacks (delete p (stacks k)) (with_threads (delete p (threads k)) k))
    end) (put_lists L k)).1 = Panic.
Proof.
  intros Hok Hw Ho. destruct (Waitonexit t) as [c1|] eqn:E1; [|done].
  eapply panics_bind; [by eapply cv_freed|]. intros [] k' (h1 & -> & Hok1 & Ho1).
  destruct (Waittoexit t) as [c2|] eqn:E2; [|done].
  eapply panics_bind; [by eapply (cv_freed (set_lheap h1 L))|]. intros [] k' (h2 & -> & Hok2 & Ho2).
  destruct (lk t) as [l|] eqn:E3; [|done]. exfalso. apply Hw. split_and!; by rewrite ?E1, ?E2, ?E3.
Qed.

(** The blocks of a thread, in the order in which [thread_destroy] frees them. *)
Definition synch_rest t (rest : list (Z * Z)) : list (Z * Z) :=
  match Waitonexit t with Some c => cv_blocks c 6 | None => [] end ++
  match Waittoexit t with Some c => cv_blocks c 6 | None => [] end ++ rest.

Lemma half_made_blocks L k rq sl zb bs p t : trep L (threads k) rq sl zb bs -> threads k !! p = Some t ->
  exists rest, owns (l_heap L) ((if t_stack t =? 0 then [] else [(t_stack t, STACK_SIZE)]) ++
    (t_name t, t_namelen t + 1) :: synch_rest t rest).
Proof.
  intros [_ Ho _ _ _] Ht.
  exists ((p, sizeof_thread) :: match lk t with Some l => lock_blocks l 4 | None => [] end ++
    q_blocks (l_runqueue L) ++ blocks (l_sleepers L) ++ blocks (l_zombies L) ++
    all_tblocks (delete p (threads k)) ++ bs).
  eapply owns_perm; [|exact Ho]. rewrite (all_tblocks_lookup _ _ _ Ht). unfold tblocks, synch_rest.
  simpl. solve_Permutation.
Qed.

Lemma half_made_tail L k p t rest : heap_ok (l_heap L) -> ~ whole t ->
  owns (l_heap L) ((if t_stack t =? 0 then [] else [(t_stack t, STACK_SIZE)]) ++
    (t_name t, t_namelen t + 1) :: synch_rest t rest) ->
  (((if t_stack t =? 0 then ret tt else on_kheap (kfree (t_stack t))) ;;;
    on_kheap (kfree (t_name t)) ;;;
    cv_destroy_ptr (Waitonexit t) ;;; cv_destroy_ptr (Waittoexit t) ;;;
    match lk t with
    | None => panic
    | Some l =>
        on_kheap (lock_destroy l) ;;; on_kheap (kfree p) ;;;
        modify (fun k => with_stacks (delete p (stacks k)) (with_threads (delete p (threads k)) k))
    end) (put_lists L k)).1 = Panic.
Proof.
  intros Hok Hw Ho.
  eapply (panics_bind _ _ _ (freed L k ((t_name t, t_namelen t + 1) :: synch_rest t rest))).
  { destruct (t_stack t =? 0); [by exists (l_heap L); destruct L|by eapply free_freed]. }
  intros [] k1 (h1 & -> & Hok1 & Ho2).
  eapply panics_bind; [by eapply (free_freed (set_lheap h1 L))|]. intros [] k2 (h2 & -> & Hok2 & Ho3).
  by eapply (half_made_panics (set_lheap h2 (set_lheap h1 L)) k p t rest).
Qed.

(** C36: [thread_create] does not look at the results of [lock_create] and
    [cv_create], but [thread_destroy] needs all three objects: a thread that was
    created when memory ran out takes the kernel down when it is buried. *)
Theorem thread_destroy_half_made L k rq sl zb bs p t :
  trep L (threads k) rq sl zb bs -> threads k !! p = Some t -> ~ whole t ->
  p <> curthread k -> t_vmspace t = 0 -> t_cwd t = 0 ->
  (thread_destroy p (put_lists L k)).1 = Panic.
Proof.
  intros Hr Ht Hw Hp Hvm Hcwd. pose proof Hr as [Hok _ _ _ _].
  destruct (half_made_blocks _ _ _ _ _ _ _ _ Hr Ht) as [rest Ho1]. unfold thread_destroy.
  eapply (panics_bind _ _ _ (fun c s' => c = curthread k /\ s' = put_lists L k)); [done|]. intros _ _ [-> ->].
  eapply (panics_bind _ _ _ (fun _ s' => s' = put_lists L k)); [by apply runs_assert; [zbool|]|]. intros [] _ ->.
  eapply (panics_bind _ _ _ (fun t' s' => t' = t /\ s' = put_lists L k)); [by eapply thr_runs|]. intros _ _ [-> ->].
  rewrite Hvm, Hcwd. do 2 (eapply (panics_bind _ _ _ (fun _ s' => s' = put_lists L k)); [done|]; intros [] _ ->).
  by eapply half_made_tail.
Qed.

Lemma panics_first {S A B} (m : M S A) (f : A -> M S B) s : (m s).1 = Panic -> (bind m f s).1 = Panic.
Proof. unfold bind. by destruct (m s) as [[] ?]. Qed.

(** The run queue is full and cannot grow. *)
Lemma full_make_runnable L k rq sl zb bs p h' : trep L (threads k) rq sl zb bs -> 0 < curspl (k_cpu k) ->
  Z.of_nat (length rq) = size (l_runqueue L) - 1 ->
  kmalloc (8 * size (l_runqueue L)) (l_heap L) = (Ret 0, h') ->
  runs (result_of (make_runnable p)) (put_lists L k) (fun r _ => r = ENOMEM) (fun _ _ => False).
Proof.
  intros Hr Hspl Hfull Hk. pose proof (trep_queue _ _ _ _ _ _ Hr) as Hq. pose proof Hr as [_ _ (_ & Hs26 & _) _ _].
  destruct (q_preallocate_one_short _ _ _ _ p Hq) as [_ Hone]; [lia|done|].
  apply runs_result_of. unfold make_runnable, assert_splhigh. run; [simpl; lia|]. apply runs_runqueue.
  unfold runs. by rewrite (Hone h' Hk).
Qed.

Lemma full_switch_panics L k rq sl zb bs t rest h' :
  trep L (threads k) rq sl zb bs -> 0 < curspl (k_cpu k) -> curthread k <> 0 ->
  threads k !! curthread k = Some t -> guard_ok t ->
  Z.of_nat (length rq) = size (l_runqueue L) - 1 ->
  kmalloc (8 * size (l_runqueue L)) (l_heap L) = (Ret 0, h') ->
  (mi_switch S_READY rest (put_lists L k)).1 = Panic.
Proof.
  intros Hr Hspl Hc0 Ht Hg Hfull Hk. unfold mi_switch.
  eapply (panics_bind _ _ _ (fun _ s' => s' = put_lists L k)).
  { unfold assert_splhigh. by run; [simpl; lia|]. }
  intros [] _ ->. eapply (panics_bind _ _ _ (fun c s' => c = curthread k /\ s' = put_lists L k)); [done|].
  intros _ _ [-> ->]. rewrite (proj2 (Z.eqb_neq _ _) Hc0).
  eapply (panics_bind _ _ _ (fun t' s' => t' = t /\ s' = put_lists L k)); [by eapply thr_runs|]. intros _ _ [-> ->].
  eapply (panics_bind _ _ _ (fun _ s' => s' = put_lists L k)).
  { unfold check_guard. destruct Hg as [-> | ->]; [done|]. by destruct (_ =? 0). }
  intros [] _ ->. set (c := curthread k).
  set (k1 := with_stacks (<[c := (F_switch :: rest) ++ default [] (stacks k !! c)]> (stacks k))
    (with_prevthread c (with_curthread 0 k))).
  eapply (panics_bind _ _ _ (fun _ s' => s' = put_lists L (with_curthread 0 k))); [done|]. intros [] _ ->.
  eapply (panics_bind _ _ _ (fun _ s' => s' = put_lists L (with_prevthread c (with_curthread 0 k)))); [done|]. intros [] _ ->.
  eapply (panics_bind _ _ _ (fun _ s' => s' = put_lists L k1)); [done|]. intros [] _ ->.
  eapply (panics_bind _ _ _ (fun r _ => r = ENOMEM)); [by eapply (full_make_runnable L k1)|]. by intros _ s' ->.
Qed.

(** [thread_fork] makes the run queue only as large as the number of
    threads, and a ring of that size holds one thread less.  When all other
    threads are runnable, a yield of the last one has to allocate, and when it
    cannot the kernel panics in [mi_switch]. *)
Theorem yield_needs_memory L k rq sl zb bs t rest h' :
  trep L (threads k) rq sl zb bs -> curthread k <> 0 -> threads k !! curthread k = Some t -> guard_ok t ->
  Z.of_nat (length rq) = size (l_runqueue L) - 1 ->
  kmalloc (8 * size (l_runqueue L)) (l_heap L) = (Ret 0, h') ->
  (thread_yield rest (put_lists L k)).1 = Panic.
Proof.
  intros Hr Hc0 Ht Hg Hfull Hk. unfold thread_yield.
  eapply (panics_bind _ _ _ (fun _ s' => s' = put_lists L (with_kcpu (mk_cpu SPL_HIGH false) k))); [by apply splhigh_runs|].
  intros spl _ ->. set (k1 := with_kcpu _ k).
  eapply (panics_bind _ _ _ (fun s s' => s = put_lists L k1 /\ s' = put_lists L k1)); [done|]. intros _ _ [-> ->].
  eapply (panics_bind _ _ _ (fun _ s' => s' = put_lists L k1)); [done|]. intros [] _ ->.
  apply panics_first. by eapply (full_switch_panics L k1).
Qed.

End thread_theorems.
