(* ===== verification/SynchSample.v ===== *)
(** A concrete kernel: it boots on a small heap, forks a second thread, and the
    two compete for a lock and a semaphore.  The theorems of SynchSafe.v are
    instantiated on it. *)

From Stdlib Require Import ZArith Lia.
From stdpp Require Import prelude gmap list.
From S2P Require Import Prelude Heap Spl Array Queue SynchObj Threads Synch SynchInv SynchRun SynchLife SynchSafe.

(** ** The kernel *)

#[export] Instance no_env : ProcEnv unit := {|
  env_as_activate := fun _ => ret tt;
  env_as_destroy := fun _ => ret tt;
  env_vop_incref := fun _ => ret tt;
  env_vop_decref := fun _ => ret tt;
|}.

Definition the_sem : Z := 1000.
Definition the_lock : Z := 1004.
Definition the_lbolt : Z := 1008.

Definition machine (left : nat) : kern Quota.heap unit :=
  power_on (Quota.start left) tt {[the_sem := 1]} {[the_lock := 0]} the_lbolt.

(** The state after boot, with plenty of memory. *)
Definition booted : kern Quota.heap unit := (boot_threads (machine 200)).2.

Lemma machine_names : names_ok (mk_names (dom ({[the_sem := 1]} : gmap Z Z)) (dom ({[the_lock := 0]} : gmap Z Z)) the_lbolt).
Proof. rewrite !dom_singleton_L. split; simpl; unfold the_sem, the_lock, the_lbolt; set_solver by lia. Qed.

Lemma machine_sems s c : ({[the_sem := 1]} : gmap Z Z) !! s = Some c -> 0 <= c.
Proof. rewrite lookup_singleton_Some. lia. Qed.

(** ** Checking what can happen *)

Definition healthyb (k : kern Quota.heap unit) : bool :=
  (negb (Quota.q_left (k_heap k) =? 0)%nat && (0 <? Quota.q_next (k_heap k)) ||
   match runqueue k, sleepers k, zombies k with
   | Some q, Some s, Some z => (numthreads k <? size q) && (num s <? max s) && (num z <? max z)
   | _, _, _ => false
   end) &&
  forallb (fun x => match lk x.2, Waitonexit x.2, Waittoexit x.2 with
                    | Some _, Some _, Some _ => true | _, _, _ => false end) (map_to_list (threads k)) &&
  (Z.of_nat (base.size (threads k)) <? 2 ^ 24).

Definition call_okb (k : kern Quota.heap unit) (c : call) : bool :=
  match c with
  | C_P sem => match sems k !! sem with Some _ => true | None => false end
  | C_V sem => match sems k !! sem with Some c => c <? 2 ^ 31 - 1 | None => false end
  | C_acquire lock => match locks k !! lock with Some _ => true | None => false end
  | C_release lock => bool_decide (locks k !! lock = Some (curthread k))
  | C_yield | C_clocksleep _ | C_exit => true
  | C_fork namelen => (0 <=? namelen) && (namelen <? 2 ^ 30)
  | _ => false
  end.

Definition enabledb (k : kern Quota.heap unit) (e : event) : bool :=
  match e with
  | E_call c => negb (curthread k =? 0) && match stacks k !! curthread k with Some [] => true | _ => false end && call_okb k c
  | E_resume => negb (curthread k =? 0) && match stacks k !! curthread k with Some (_ :: _) => true | _ => false end
  | E_irq i =>
      match i with Irq_timer => true | Irq_device sem => call_okb k (C_V sem) end &&
      negb (curthread k =? 0) && iec (k_cpu k)
  | E_dispatch => (curthread k =? 0) && match runqueue k with Some q => negb (q_empty q) | None => false end
  end.

Lemma healthyb_ok k : healthyb k = true -> healthy k.
Proof.
  unfold healthyb. rewrite !andb_true_iff, orb_true_iff. intros [[Hq Hw] Hf].
  assert (forall p t, threads k !! p = Some t -> whole t) as Hwh.
  { intros p t Ht. rewrite forallb_forall in Hw. specialize (Hw (p, t)).
    rewrite <- list_elem_of_In, elem_of_map_to_list in Hw. specialize (Hw Ht). simpl in Hw.
    unfold whole. by destruct (lk t), (Waitonexit t), (Waittoexit t). }
  destruct Hq as [Hq|Hq].
  - assert (mem_left (k_heap k)) as Hm.
    { apply andb_true_iff in Hq as [Hq Hn]. intros sz _. simpl. unfold Quota.q_kmalloc.
      destruct (Quota.q_left (k_heap k)) as [|n]; [done|]. simpl. intros [= Hz]. lia. }
    split; try (intros; by right); [done|lia].
  - destruct (runqueue k) as [q|] eqn:E1; [|done]. destruct (sleepers k) as [a|] eqn:E2; [|done].
    destruct (zombies k) as [z|] eqn:E3; [|done].
    split; try done; [rewrite E1|rewrite E2|rewrite E3|lia]; intros ? [= <-]; left; lia.
Qed.

Lemma call_okb_ok k c : call_okb k c = true -> call_ok k c.
Proof.
  destruct c as [s|s|l|l|cv l|cv l|cv l| |n|n|]; simpl; intros Hc; try done.
  - by destruct (sems k !! s).
  - destruct (sems k !! s) as [c|] eqn:E; [|done]. exists c. split; [done|lia].
  - by destruct (locks k !! l).
  - by apply bool_decide_eq_true in Hc.
  - lia.
Qed.

Lemma enabledb_ok k e : enabledb k e = true -> enabled k e.
Proof.
  destruct e as [c| |i|]; simpl; rewrite ?andb_true_iff; intros Hc.
  - destruct Hc as [[Hc Hs] Ho]. split_and!; [lia| |by apply call_okb_ok].
    by destruct (stacks k !! curthread k) as [[]|].
  - destruct Hc as [Hc Hs]. split; [lia|]. destruct (stacks k !! curthread k) as [[|f fs]|]; try done. eauto.
  - destruct Hc as [[Ho Hc] Hi]. split; [|left; split; [lia|done]].
    destruct i as [|s]; [done|]. by apply (call_okb_ok k (C_V s)).
  - destruct Hc as [Hc Hq]. split; [lia|]. intros (q & Hq' & He). rewrite Hq' in Hq. by rewrite He in Hq.
Qed.

(** Run a list of events, checking each. *)
Fixpoint play (es : list event) (k : kern Quota.heap unit) : option (list step_record * kern Quota.heap unit) :=
  match es with
  | [] => Some ([], k)
  | e :: es =>
      if healthyb k && enabledb k e then
        match exec e k with
        | (Ret d, k1) => '(tr, k2) ← play es k1; Some ((e, curthread k, d) :: tr, k2)
        | _ => None
        end
      else None
  end.

Lemma play_run es k tr k' : play es k = Some (tr, k') -> run_of k tr k'.
Proof.
  revert k tr. induction es as [|e es IH]; intros k tr; simpl.
  - intros [= <- <-]. constructor.
  - destruct (healthyb k && enabledb k e) eqn:E; [|done]. apply andb_true_iff in E as [Hh He].
    destruct (exec e k) as [[d| | |] k1] eqn:Ex; try done.
    destruct (play es k1) as [[tr1 k2]|] eqn:Ep; [|done]. simpl. intros [= <- <-].
    econstructor; [by apply healthyb_ok|by apply enabledb_ok|done|by apply IH].
Qed.

(** The second thread finds the lock held, sleeps, and gets it when the first one
    has released it. *)
Definition contest : list event :=
  [E_call (C_fork 5); E_resume; E_call (C_acquire the_lock); E_irq Irq_timer; E_dispatch; E_resume;
   E_call (C_acquire the_lock); E_dispatch; E_resume; E_resume; E_resume;
   E_call (C_release the_lock); E_resume; E_call C_yield; E_dispatch; E_resume; E_resume; E_resume].

(** What happens, and where it ends. *)
Definition story (es : list event) (k : kern Quota.heap unit) : list step_record :=
  match play es k with Some (tr, _) => tr | None => [] end.
Definition finale (es : list event) (k : kern Quota.heap unit) : kern Quota.heap unit :=
  match play es k with Some (_, k') => k' | None => k end.

Lemma story_run es k : bool_decide (is_Some (play es k)) = true -> run_of k (story es k) (finale es k).
Proof.
  intros [[tr k'] Hp]%bool_decide_eq_true. unfold story, finale. rewrite Hp. by eapply play_run.
Qed.

Lemma booted_returns : boot_threads (machine 200) = (Ret 4268, booted).
Proof. vm_compute. reflexivity. Qed.

Lemma booted_running : running booted.
Proof. exact (proj1 (boot_runs _ tt _ _ _ (Quota.start_ok 200) machine_names machine_sems _ _ booted_returns)). Qed.

(** The second thread sleeps on the lock. *)
Definition waiting : kern Quota.heap unit := finale (take 7 contest) booted.

Lemma waiting_running : running waiting.
Proof. eapply running_run; [exact booted_running|]. by apply story_run. Qed.

(** ** The theorems of SynchSafe.v on it *)

Lemma boot_starts_kernel_witness :
  boot_threads (machine 200) = (Ret 4268, booted) /\
  running booted /\ curthread booted = 4268 /\ cur_stack booted = [] /\ iec (k_cpu booted) = true /\
  runnable booted [].
Proof.
  split; [exact booted_returns|].
  exact (boot_starts_kernel _ tt _ _ _ _ _ (Quota.start_ok 200) machine_names machine_sems booted_returns).
Defined.


Lemma lock_mutual_exclusion_witness :
  let tr := story contest booted in
  tr = take 2 tr ++ (E_call (C_acquire the_lock), 4268, D_acquire the_lock) :: take 14 (drop 3 tr) ++
    (E_resume, 4519, D_acquire the_lock) :: [] /\
  exists e, (e, 4268, D_release the_lock) ∈ take 14 (drop 3 tr).
Proof.
  assert (story contest booted = take 2 (story contest booted) ++
    (E_call (C_acquire the_lock), 4268, D_acquire the_lock) :: take 14 (drop 3 (story contest booted)) ++
    (E_resume, 4519, D_acquire the_lock) :: []) as Hs by (vm_compute; reflexivity).
  split; [exact Hs|]. eapply (lock_mutual_exclusion booted (take 2 (story contest booted)) (E_call (C_acquire the_lock)) 4268 the_lock
    _ E_resume 4519 [] (finale contest booted)).
  - exact booted_running.
  - exact (eq_ind _ (fun tr => run_of booted tr (finale contest booted)) (story_run contest booted eq_refl) _ Hs).
Defined.

(** One thread waits for a device. *)
Definition device : list event :=
  [E_call (C_P the_sem); E_irq (Irq_device the_sem); E_irq (Irq_device the_sem); E_call (C_P the_sem)].

Lemma semaphore_counts_witness :
  let tr := story device booted in
  times (D_V the_sem) tr = 2 /\ times (D_P the_sem) tr = 2 /\
  sems (finale device booted) !! the_sem = Some 1.
Proof.
  assert (run_of booted (story device booted) (finale device booted)) as Hr by (by apply story_run).
  split; [vm_compute; reflexivity|]. split; [vm_compute; reflexivity|].
  exact (proj1 (semaphore_counts booted _ _ the_sem 1 booted_running Hr eq_refl)).
Defined.


(** Two threads, one of them runnable. *)
Definition forked : kern Quota.heap unit := finale (take 2 contest) booted.

Lemma run_queue_fair_witness :
  let tr := story [E_call C_yield; E_dispatch] forked in
  dispatches tr = 1%nat /\
  exists tr1 tr2 k1, tr = tr1 ++ tr2 /\ run_of forked tr1 k1 /\ dispatches tr1 = 1%nat /\ curthread k1 = 4519.
Proof.
  assert (running forked) as Hrun by (eapply running_run; [exact booted_running|]; by apply story_run).
  assert (run_of forked (story [E_call C_yield; E_dispatch] forked) (finale [E_call C_yield; E_dispatch] forked)) as Hr
    by (by apply story_run).
  split; [vm_compute; reflexivity|].
  eapply (run_queue_fair forked [4519] 0 4519 _ _ Hrun); [|reflexivity|exact Hr|apply Nat.leb_le; vm_compute; reflexivity].
  destruct (runqueue forked) as [q|] eqn:Eq; [|exfalso; vm_compute in Eq; discriminate].
  exists q. split; [done|]. vm_compute in Eq. injection Eq as <-. split; [vm_compute; reflexivity|].
  intros [|i] x Hx; [|done]. injection Hx as <-. vm_compute. reflexivity.
Defined.

Lemma resume_terminates_witness :
  let k := finale (take 8 contest) booted in
  let tr := story [E_resume; E_resume; E_resume] k in
  length tr = 3%nat /\ (length tr <= 4)%nat.
Proof.
  split; [vm_compute; reflexivity|].
  eapply (resume_terminates (finale (take 8 contest) booted)).
  - eapply running_run; [exact booted_running|]. exact (story_run (take 8 contest) booted eq_refl).
  - exact (story_run [E_resume; E_resume; E_resume] (finale (take 8 contest) booted) eq_refl).
  - apply Forall_forall. intros x Hx. vm_compute in Hx. by repeat (apply elem_of_cons in Hx as [->|Hx]); try apply not_elem_of_nil in Hx.
Defined.

(** *** Waking up *)

(** The lists of a kernel that is running, next to what is known of them. *)
Lemma running_lists (k : kern Quota.heap unit) : running k ->
  exists L rq sl zb bs, k = put_lists L k /\ trep L (threads k) rq sl zb bs /\
    (forall p, p ∈ sl -> is_Some (threads k !! p)) /\
    Z.of_nat (length rq + length sl) <= numthreads k.
Proof.
  intros (N & rq & sl & zb & fk & L & bs & Heq & Hr & W & _). exists L, rq, sl, zb, bs.
  split_and!; [done|done| |].
  - intros p Hp. apply (w_dom _ _ _ _ _ _ W). in_app.
  - rewrite (w_num _ _ _ _ _ _ W), !length_app. lia.
Qed.

Lemma awake_length T a l : (length (awake T a l) <= length l)%nat.
Proof. apply length_filter. Qed.

Lemma waiting_room L : waiting = put_lists L waiting -> can_queue L 10.
Proof.
  intros Heq. left. assert (runqueue waiting = Some (l_runqueue L)) as Hq by (by rewrite Heq).
  assert (size <$> runqueue waiting = Some 32) as Hs by (vm_compute; reflexivity).
  rewrite Hq in Hs. injection Hs as ->. lia.
Qed.

Lemma thread_wakeup_correct_witness : exists L rq sl zb bs,
  waiting = put_lists L waiting /\ trep L (threads waiting) rq sl zb bs /\
  runs (thread_wakeup the_lock) (put_lists L waiting)
    (fun _ k' => exists L', k' = put_lists L' waiting /\
       trep L' (threads waiting) (rq ++ awake (threads waiting) the_lock sl)
         (asleep (threads waiting) the_lock sl) zb bs /\
       (10 < size (l_runqueue L) -> l_heap L' = l_heap L))
    (fun _ _ => False).
Proof.
  destruct (running_lists waiting waiting_running) as (L & rq & sl & zb & bs & Heq & Hr & Hsl & Hlen).
  pose proof (awake_length (threads waiting) the_lock sl) as Haw.
  assert (numthreads waiting = 2) as Hn by (vm_compute; reflexivity).
  exists L, rq, sl, zb, bs. split; [exact Heq|]. split; [exact Hr|].
  apply (thread_wakeup_correct L waiting rq sl zb bs the_lock 10 Hr); [vm_compute; reflexivity|exact Hsl|lia|].
  by apply waiting_room.
Defined.

Lemma thread_wakeone_correct_witness : exists L rq sl zb bs,
  waiting = put_lists L waiting /\ trep L (threads waiting) rq sl zb bs /\
  runs (thread_wakeone the_lock) (put_lists L waiting)
    (fun _ k' => exists L', k' = put_lists L' waiting /\
       ((awake (threads waiting) the_lock sl = [] /\ trep L' (threads waiting) rq sl zb bs) \/
        exists pre p post, sl = pre ++ p :: post /\ awake (threads waiting) the_lock pre = [] /\
          sleeps_on (threads waiting) the_lock p = true /\
          trep L' (threads waiting) (rq ++ [p]) (pre ++ post) zb bs))
    (fun _ _ => False).
Proof.
  destruct (running_lists waiting waiting_running) as (L & rq & sl & zb & bs & Heq & Hr & Hsl & Hlen).
  assert (numthreads waiting = 2) as Hn by (vm_compute; reflexivity).
  exists L, rq, sl, zb, bs. split; [exact Heq|]. split; [exact Hr|].
  apply (thread_wakeone_correct L waiting rq sl zb bs the_lock 10 Hr); [vm_compute; reflexivity|exact Hsl|lia|].
  by apply waiting_room.
Defined.

(** *** Threads made when memory runs out *)

Lemma first_fork_shares_pid_witness :
  exists k', fork_create 5 booted = (Ret 4519, k') /\
    exists t t', threads k' !! 4268 = Some t /\ threads k' !! 4519 = Some t' /\ pid t' = pid t.
Proof.
  exists (fork_create 5 booted).2. assert (fork_create 5 booted = (Ret 4519, (fork_create 5 booted).2)) as Hf
    by (vm_compute; reflexivity).
  split; [exact Hf|].
  exact (proj2 (first_fork_shares_pid _ tt _ _ _ _ _ 5 _ _ (Quota.start_ok 200) machine_names machine_sems
    booted_returns ltac:(lia) Hf)).
Defined.

(** Memory for two more blocks after boot: the thread and its name. *)
Definition starved : kern Quota.heap unit := (boot_threads (machine 14)).2.

Lemma starved_returns : boot_threads (machine 14) = (Ret 4268, starved).
Proof. vm_compute. reflexivity. Qed.

Lemma created_lists (k : kern Quota.heap unit) len p k' : running k -> 0 <= len < 2 ^ 30 ->
  thread_create len k = (Ret p, k') -> p <> 0 ->
  exists L rq sl zb bs, k' = put_lists L k' /\ trep L (threads k') rq sl zb bs.
Proof.
  intros (N & rq & sl & zb & fk & L & bs & Heq & Hr & W & _) Hlen Hc Hp.
  pose proof (thread_create_runs L k rq sl zb bs len Hr (w_cpu _ _ _ _ _ _ W) Hlen) as Ht.
  rewrite <- Heq in Ht. unfold runs in Ht. rewrite Hc in Ht.
  destruct Ht as (h & [(-> & _)|(_ & _ & t & -> & _ & _ & _ & Hr')]); [done|].
  by exists (set_lheap h L), rq, sl, zb, bs.
Qed.

Definition half_made : kern Quota.heap unit := (thread_create 5 starved).2.

Lemma thread_destroy_half_made_witness :
  thread_create 5 starved = (Ret 4519, half_made) /\
  exists L, half_made = put_lists L half_made /\ (thread_destroy 4519 (put_lists L half_made)).1 = Panic.
Proof.
  assert (thread_create 5 starved = (Ret 4519, half_made)) as Hc by (vm_compute; reflexivity).
  split; [exact Hc|].
  destruct (created_lists starved 5 4519 half_made) as (L & rq & sl & zb & bs & Heq & Hr).
  - exact (proj1 (boot_runs _ tt _ _ _ (Quota.start_ok 14) machine_names machine_sems _ _ starved_returns)).
  - lia.
  - exact Hc.
  - discriminate.
  - exists L. split; [exact Heq|].
    destruct (threads half_made !! 4519) as [t|] eqn:Et; [|exfalso; vm_compute in Et; discriminate].
    assert (match lk t with None => true | _ => false end && (t_vmspace t =? 0) && (t_cwd t =? 0) = true) as Hb
      by (vm_compute in Et; injection Et as <-; reflexivity).
    rewrite !andb_true_iff in Hb. destruct Hb as [[Hl Hvm] Hcwd].
    apply (thread_destroy_half_made L half_made rq sl zb bs 4519 t Hr Et); [| |lia|lia].
    + intros [[l Hx] _]. by rewrite Hx in Hl.
    + apply Z.eqb_neq. vm_compute. reflexivity.
Defined.

(** 31 more threads, which use up the memory. *)
Definition forks (n : nat) : list event := concat (replicate n [E_call (C_fork 5); E_resume]).
Definition crowded : kern Quota.heap unit := finale (forks 31) (boot_threads (machine 353)).2.

Lemma crowded_running : running crowded.
Proof.
  eapply running_run; [|exact (story_run (forks 31) (boot_threads (machine 353)).2 eq_refl)].
  assert (boot_threads (machine 353) = (Ret 4268, (boot_threads (machine 353)).2)) as Hb by (vm_compute; reflexivity).
  exact (proj1 (boot_runs _ tt _ _ _ (Quota.start_ok 353) machine_names machine_sems _ _ Hb)).
Qed.

Lemma put_lists_fields (k : kern Quota.heap unit) L : k = put_lists L k ->
  runqueue k = Some (l_runqueue L) /\ sleepers k = Some (l_sleepers L) /\ k_heap k = l_heap L.
Proof. intros Heq. rewrite Heq. done. Qed.

Lemma full_lists (k : kern Quota.heap unit) : running k ->
  match threads k !! curthread k with Some t => t_stack t =? 0 | None => false end = true ->
  num <$> sleepers k = Some 0 -> size <$> runqueue k = Some (numthreads k) ->
  Quota.q_left (k_heap k) = 0%nat -> (curthread k =? 0) = false ->
  exists L rq sl zb bs t, k = put_lists L k /\ trep L (threads k) rq sl zb bs /\
    threads k !! curthread k = Some t /\ guard_ok t /\ Z.of_nat (length rq) = size (l_runqueue L) - 1 /\
    kmalloc (8 * size (l_runqueue L)) (l_heap L) = (Ret 0, l_heap L).
Proof.
  intros (N & rq & sl & zb & fk & L & bs & Heq & Hr & W & _) Ht Hsl Hsz Hq Hc.
  destruct (threads k !! curthread k) as [t|] eqn:Et; [|discriminate]. exists L, rq, sl, zb, bs, t.
  destruct (put_lists_fields _ _ Heq) as (Eq & Es & Eh).
  rewrite Eq in Hsz. injection Hsz as Hsz. rewrite Es in Hsl. injection Hsl as Hsl. rewrite Eh in Hq.
  pose proof (w_num _ _ _ _ _ _ W) as Hnum. unfold here in Hnum. rewrite Hc, !length_app in Hnum. simpl in Hnum.
  pose proof Hr as [_ _ _ Hash _]. apply ashape_length in Hash.
  split_and!; [done|done|done|left; by apply Z.eqb_eq|lia|].
  simpl. unfold Quota.q_kmalloc. by rewrite Hq.
Qed.

Lemma yield_needs_memory_witness : exists L,
  crowded = put_lists L crowded /\ (thread_yield [] (put_lists L crowded)).1 = Panic.
Proof.
  destruct (full_lists crowded crowded_running) as (L & rq & sl & zb & bs & t & Heq & Hr & Ht & Hg & Hl & Hk);
    [vm_compute; reflexivity..|].
  exists L. split; [exact Heq|].
  refine (yield_needs_memory L crowded rq sl zb bs t [] (l_heap L) Hr _ Ht Hg Hl Hk).
  apply Z.eqb_neq. vm_compute. reflexivity.
Defined.
