(* ===== verification/CoreMap.v ===== *)
(** Physical memory: kern/arch/mips/mips/ram.c and the coremap half of
    kern/vm/vm.c ([vm_bootstrap], [getppages], [alloc_kpages], [free_kpages]).

    [vmstate] holds the file-scope variables of both files and the coremap, an
    array of [struct coremap_entry] that [vm_bootstrap] places at the bottom of
    free memory.  The [pid] and [npage] fields of an entry are indeterminate
    ([None]) until an allocation writes them, and reading past the last entry is
    a [Panic].  [layout] is the invariant: the coremap is tiled by free frames
    and by runs, a run of [n] taken frames starting with an entry whose [npage]
    is [n]. *)

From Stdlib Require Import ZArith Lia.
From stdpp Require Import prelude gmap list.
From S2P Require Import Prelude Spl Pages.

(** ** Definitions *)

Record coremap_entry := mk_entry {
  pid : option Z;
  viraddr : Z;
  phyaddr : Z;
  taken : Z;
  npage : option Z;
}.
Definition sizeof_coremap_entry : Z := 20.

Record vmstate := mk_vm {
  firstpaddr : Z;            (* ram.c *)
  lastpaddr : Z;
  vm_indicator : Z;          (* vm.c *)
  pagenumber : Z;
  pageleft : Z;
  coremap : Z;               (* address of the first entry *)
  entries : list coremap_entry;
  vm_cpu : cpu;
  curpid : Z;                (* curthread->pid *)
}.

#[export] Program Instance vm_has_cpu : HasCpu vmstate := {
  cpu_of := vm_cpu;
  with_cpu := fun c m => mk_vm (firstpaddr m) (lastpaddr m) (vm_indicator m) (pagenumber m)
    (pageleft m) (coremap m) (entries m) c (curpid m);
}.
Next Obligation. done. Qed.
Next Obligation. by intros []. Qed.
Next Obligation. done. Qed.

Definition set_taken (t : Z) (e : coremap_entry) : coremap_entry :=
  mk_entry (pid e) (viraddr e) (phyaddr e) t (npage e).
Definition set_owner (p n : Z) (e : coremap_entry) : coremap_entry :=
  mk_entry (Some p) (viraddr e) (phyaddr e) (taken e) (Some n).

Definition with_entries (es : list coremap_entry) (left : Z) (m : vmstate) : vmstate :=
  mk_vm (firstpaddr m) (lastpaddr m) (vm_indicator m) (pagenumber m) left (coremap m) es
    (vm_cpu m) (curpid m).

(** *** ram.c *)

(** [firstfree] is where start.S saw the kernel end; [ramsize] is what the bus
    controller reports ([mips_ramsize]). *)
Definition ram_bootstrap (ramsize firstfree : Z) : M vmstate unit :=
  let ramsize := if ramsize >? 508 * 1024 * 1024 then 508 * 1024 * 1024 else ramsize in
  modify (fun m => mk_vm (u32 (firstfree - MIPS_KSEG0)) ramsize (vm_indicator m)
    (pagenumber m) (pageleft m) (coremap m) (entries m) (vm_cpu m) (curpid m)).

Definition ram_stealmem (npages : Z) : M vmstate Z :=
  m <- get ;;
  let size := u32 (npages * PAGE_SIZE) in
  if u32 (firstpaddr m + size) >? lastpaddr m then ret 0
  else
    put (mk_vm (u32 (firstpaddr m + size)) (lastpaddr m) (vm_indicator m) (pagenumber m)
      (pageleft m) (coremap m) (entries m) (vm_cpu m) (curpid m)) ;;;
    ret (firstpaddr m).

Definition ram_getsize : M vmstate (Z * Z) :=
  m <- get ;;
  put (mk_vm 0 0 (vm_indicator m) (pagenumber m) (pageleft m) (coremap m) (entries m)
    (vm_cpu m) (curpid m)) ;;;
  ret (firstpaddr m, lastpaddr m).

(** *** vm.c *)

(** [(lowest + pagenumber*sizeof + sizeof) & PAGE_FRAME) + 0x1000] *)
Definition toppage (lowest pagenumber : Z) : Z :=
  let t := u32 (lowest + u32 (pagenumber * sizeof_coremap_entry)) in
  let t := u32 (t + sizeof_coremap_entry) in
  u32 (Z.land t PAGE_FRAME + 0x1000).

Definition init_entry (toppage_ptr : Z) (i : Z) : coremap_entry :=
  mk_entry None 0 (u32 (toppage_ptr + u32 (4096 * i))) 0 None.

Definition vm_bootstrap : M vmstate unit :=
  '(lowest, highest) <- ram_getsize ;;
  let pagenumber := u32 (u32 (highest - lowest) / PAGE_SIZE - 1) in
  let toppage_ptr := toppage lowest pagenumber in
  modify (fun m => mk_vm (firstpaddr m) (lastpaddr m) 1 pagenumber pagenumber
    (PADDR_TO_KVADDR lowest) (init_entry toppage_ptr <$> seqZ 0 pagenumber)
    (vm_cpu m) (curpid m)).

(** The search loop of [getppages]: the index of the entry at which [npages]
    consecutive free entries have been counted. *)
Fixpoint find_run (es : list coremap_entry) (i count npages : Z) : option Z :=
  match es with
  | [] => None
  | e :: es =>
      if taken e =? 0 then
        let count := count + 1 in
        if count =? npages then Some i else find_run es (i + 1) count npages
      else find_run es (i + 1) 0 npages
  end.

(** Walk back from entry [i] over [count] entries, marking each taken; the first
    of them gets the owner and the length. *)
Definition claim_run (i count p : Z) (es : list coremap_entry) : list coremap_entry :=
  let es := foldl (fun es j => alter (set_taken 1) (Z.to_nat (i - j)) es) es (seqZ 0 count) in
  alter (set_owner p count) (Z.to_nat (i - count + 1)) es.

Definition getppages (npages : Z) : M vmstate Z :=
  interrupt <- splhigh ;;
  m <- get ;;
  if vm_indicator m =? 0 then
    paddr <- ram_stealmem npages ;;
    splx interrupt ;;;
    ret paddr
  else if npages >? pageleft m then ret 0
  else
    match find_run (take (Z.to_nat (pagenumber m)) (entries m)) 0 0 npages with
    | None => splx interrupt ;;; ret 0
    | Some i =>
        let first := Z.to_nat (i - npages + 1) in
        modify (with_entries (claim_run i npages (curpid m) (entries m))
                  (u32 (pageleft m - npages))) ;;;
        match entries m !! first with
        | None => panic
        | Some e =>
            assert (phyaddr e >? u32 (coremap m - 0x80000000)) ;;;
            splx interrupt ;;;
            ret (phyaddr e)
        end
    end.

Definition alloc_kpages (npages : Z) : M vmstate Z :=
  paddr <- getppages npages ;;
  if paddr =? 0 then ret 0 else ret (PADDR_TO_KVADDR paddr).

(** [while (PADDR_TO_KVADDR(ptr->phyaddr) != addr) ptr++;] from entry [i] on. *)
Fixpoint find_addr (es : list coremap_entry) (addr : Z) (i : nat) : option nat :=
  match es with
  | [] => None
  | e :: es => if PADDR_TO_KVADDR (phyaddr e) =? addr then Some i else find_addr es addr (S i)
  end.

(** One iteration of the loop that gives back the run starting at entry [k]. *)
Definition free_frame (k : nat) (i : Z) : M vmstate unit :=
  m <- get ;;
  match entries m !! (k + Z.to_nat i)%nat with
  | None => panic
  | Some _ =>
      put (with_entries (alter (set_taken 0) (k + Z.to_nat i)%nat (entries m))
             (u32 (pageleft m + 1)) m)
  end.

Definition free_kpages (addr : Z) : M vmstate unit :=
  assert (addr >=? MIPS_KSEG0) ;;;
  s <- splhigh ;;
  m <- get ;;
  match find_addr (entries m) addr 0 with
  | None => panic
  | Some k =>
      match entries m !! k with
      | Some (mk_entry _ _ _ _ (Some npages)) =>
          for_each (seqZ 0 npages) (free_frame k) ;;;
          splx s ;;; ret tt
      | _ => panic
      end
  end.

(** ** Invariant *)

Definition is_free (e : coremap_entry) : Prop := taken e = 0.

#[export] Instance is_free_dec e : Decision (is_free e).
Proof. unfold is_free. apply _. Defined.

(** [layout i es rs]: the entries [es], the first of which has index [i], consist
    of free entries and of the allocated runs [rs], given as (index, length). *)
Inductive layout : Z -> list coremap_entry -> list (Z * Z) -> Prop :=
| layout_nil i : layout i [] []
| layout_free i e es rs :
    is_free e -> layout (i + 1) es rs -> layout i (e :: es) rs
| layout_run i n e body es rs :
    taken e = 1 -> Forall (fun e => taken e = 1) body ->
    npage e = Some n -> n = 1 + Z.of_nat (length body) ->
    layout (i + n) es rs -> layout i (e :: body ++ es) ((i, n) :: rs).

Definition nfree (es : list coremap_entry) : Z := Z.of_nat (length (filter is_free es)).

(** [coremap_ok base m rs]: frame [k] of the coremap is the page at
    [base + 4096*k], above the coremap itself and inside kseg0; the allocated runs
    are [rs]; [pageleft] counts the free frames. *)
Definition coremap_ok (base : Z) (m : vmstate) (rs : list (Z * Z)) : Prop :=
  vm_indicator m <> 0 /\ pagenumber m = Z.of_nat (length (entries m)) /\
  layout 0 (entries m) rs /\ pageleft m = nfree (entries m) /\
  (forall k e, entries m !! k = Some e -> phyaddr e = base + 4096 * Z.of_nat k) /\
  base mod 4096 = 0 /\ u32 (coremap m - MIPS_KSEG0) < base /\
  0 < base /\ base + 4096 * pagenumber m <= 2 ^ 29.

(** ** Searching *)

Definition free_at (es : list coremap_entry) (j : Z) : Prop :=
  exists e, es !! Z.to_nat j = Some e /\ is_free e.
Definition run_at (es : list coremap_entry) (a n : Z) : Prop :=
  0 <= a /\ forall j, a <= j < a + n -> free_at es j.

Lemma free_at_range es j : 0 <= j -> free_at es j -> j < Z.of_nat (length es).
Proof. intros ? (e & He & _). apply lookup_lt_Some in He. lia. Qed.

Lemma find_run_spec es pre c n :
  0 <= c < n -> c <= Z.of_nat (length pre) ->
  (forall j, Z.of_nat (length pre) - c <= j < Z.of_nat (length pre) -> free_at (pre ++ es) j) ->
  (forall a, run_at (pre ++ es) a n -> Z.of_nat (length pre) - c <= a) ->
  match find_run es (Z.of_nat (length pre)) c n with
  | Some k => n <= k + 1 /\ run_at (pre ++ es) (k + 1 - n) n /\
              forall a, run_at (pre ++ es) a n -> k + 1 - n <= a
  | None => forall a, ~ run_at (pre ++ es) a n
  end.
Proof.
  revert pre c. induction es as [|e es IH]; intros pre c Hc Hcl Htrail Hlow; simpl.
  - intros a Ha. specialize (Hlow _ Ha). destruct Ha as [Ha0 Ha].
    assert (free_at (pre ++ []) (a + n - 1)) as Hf by (apply Ha; lia).
    apply free_at_range in Hf; [|lia]. rewrite app_nil_r in Hf. lia.
  - assert ((pre ++ e :: es) !! length pre = Some e) as He by (by apply list_lookup_middle).
    destruct (Z.eqb_spec (taken e) 0) as [Ht|Ht].
    + assert (forall j, Z.of_nat (length pre) - c <= j < Z.of_nat (length pre) + 1 ->
        free_at (pre ++ e :: es) j) as Htrail'.
      { intros j Hj. destruct (decide (j = Z.of_nat (length pre))) as [->|]; [|apply Htrail; lia].
        exists e. by rewrite Nat2Z.id. }
      destruct (Z.eqb_spec (c + 1) n) as [Hn|Hn].
      * split_and!; [lia| |].
        -- split; [lia|]. intros j Hj. apply Htrail'. lia.
        -- intros a Ha. specialize (Hlow _ Ha). lia.
      * specialize (IH (pre ++ [e]) (c + 1)).
        rewrite length_app, <- app_assoc, Nat2Z.inj_add in IH; simpl in IH.
        apply IH; [lia|lia| |].
        -- intros j Hj. apply Htrail'. lia.
        -- intros a Ha. specialize (Hlow _ Ha). lia.
    + specialize (IH (pre ++ [e]) 0).
      rewrite length_app, <- app_assoc, Nat2Z.inj_add in IH; simpl in IH.
      apply IH; [lia|lia|lia|].
      intros a Ha. specialize (Hlow _ Ha). destruct Ha as [Ha0 Ha].
      destruct (decide (a <= Z.of_nat (length pre))); [|lia]. exfalso.
      destruct (Ha (Z.of_nat (length pre))) as (e' & He' & Hf); [lia|].
      rewrite Nat2Z.id, He in He'. by simplify_eq.
Qed.

Lemma find_run_whole es n : 0 < n ->
  match find_run es 0 0 n with
  | Some k => n <= k + 1 /\ run_at es (k + 1 - n) n /\
              forall a, run_at es a n -> k + 1 - n <= a
  | None => forall a, ~ run_at es a n
  end.
Proof.
  intros Hn. apply (find_run_spec es [] 0 n); simpl; [lia|lia|lia|].
  intros a [? _]. lia.
Qed.

Lemma find_addr_spec base es k0 k e :
  (forall k e, es !! k = Some e -> phyaddr e = base + 4096 * Z.of_nat (k0 + k)) ->
  0 <= base -> base + 4096 * Z.of_nat (k0 + length es) <= 2 ^ 31 ->
  es !! k = Some e -> find_addr es (PADDR_TO_KVADDR (phyaddr e)) k0 = Some (k0 + k)%nat.
Proof.
  revert k0 k. induction es as [|e0 es IH]; intros k0 k Hp Hb Hr Hk; [by rewrite lookup_nil in Hk|].
  simpl in *. pose proof (Hp 0%nat e0 eq_refl) as H0. pose proof (Hp k e Hk) as H1.
  unfold PADDR_TO_KVADDR in *. unfold MIPS_KSEG0 in *.
  assert (k < S (length es))%nat as Hlt by (by apply lookup_lt_Some in Hk).
  rewrite !u32_small by lia.
  destruct k as [|k]; simpl in Hk.
  - simplify_eq. rewrite Z.eqb_refl. f_equal. lia.
  - rewrite (proj2 (Z.eqb_neq _ _)) by lia.
    assert (u32 (phyaddr e + 0x80000000) = phyaddr e + 0x80000000) as Hu
      by (apply u32_small; lia).
    rewrite <- Hu, (IH (S k0) k); [f_equal; lia| |done|lia|done].
    intros j e' Hj. rewrite (Hp (S j) e' Hj). lia.
Qed.

(** ** Layouts *)

Lemma layout_app i es1 es2 rs1 rs2 :
  layout i es1 rs1 -> layout (i + Z.of_nat (length es1)) es2 rs2 ->
  layout i (es1 ++ es2) (rs1 ++ rs2).
Proof.
  intros H1. revert es2 rs2. induction H1 as [i|i e es rs Hf _ IH|i n e body es rs ? ? ? Hn _ IH];
    intros es2 rs2 H2; simpl in *.
  - by rewrite Z.add_0_r in H2.
  - constructor; [done|]. apply IH.
    by replace (i + 1 + Z.of_nat (length es)) with (i + Z.of_nat (S (length es))) by lia.
  - rewrite <- app_assoc. apply layout_run; [done..|]. apply IH.
    rewrite length_app in H2.
    by replace (i + n + Z.of_nat (length es))
      with (i + Z.of_nat (S (length body + length es))) by lia.
Qed.

(** A free entry is a boundary between tiles. *)
Lemma layout_split i pre e post rs :
  layout i (pre ++ e :: post) rs -> is_free e ->
  exists rs1 rs2, rs = rs1 ++ rs2 /\ layout i pre rs1 /\
    layout (i + Z.of_nat (length pre)) (e :: post) rs2.
Proof.
  intros Hl Hf. remember (pre ++ e :: post) as es eqn:Hes. revert pre Hes.
  induction Hl as [i|i e0 es rs He0 Hl IH|i n e0 body es rs ? Hb ? Hn Hl IH]; intros pre Hes.
  - by destruct pre.
  - destruct pre as [|e1 pre]; simplify_eq/=.
    + exists [], rs. rewrite Z.add_0_r. split_and!; [done|constructor|by constructor].
    + destruct (IH pre eq_refl) as (rs1 & rs2 & -> & ? & ?).
      exists rs1, rs2. split_and!; [done|by constructor|].
      by replace (i + Z.of_nat (S (length pre))) with (i + 1 + Z.of_nat (length pre)) by lia.
  - destruct pre as [|e1 pre]; simpl in Hes; injection Hes as -> Hes; [by rewrite Hf in *|].
    assert (length body <= length pre)%nat as Hle.
    { destruct (decide (length body <= length pre)%nat); [done|exfalso].
      assert (body !! length pre = Some e) as He.
      { rewrite <- (lookup_app_l body es) by lia. rewrite Hes. by apply list_lookup_middle. }
      rewrite Forall_lookup in Hb. specialize (Hb _ _ He). by rewrite Hf in Hb. }
    assert (exists pre', pre = body ++ pre' /\ es = pre' ++ e :: post) as (pre' & -> & ->).
    { exists (drop (length body) pre).
      assert (body = take (length body) pre) as Hb1.
      { apply (f_equal (take (length body))) in Hes.
        rewrite take_app_length in Hes. by rewrite take_app_le in Hes by done. }
      split; [by rewrite Hb1 at 1; rewrite take_drop|].
      apply (f_equal (drop (length body))) in Hes.
      rewrite drop_app_length in Hes. by rewrite drop_app_le in Hes by done. }
    destruct (IH pre' eq_refl) as (rs1 & rs2 & -> & ? & ?).
    exists ((i, n) :: rs1), rs2. split_and!; [done|by apply layout_run|].
    simpl length. rewrite length_app.
    by replace (i + Z.of_nat (S (length body + length pre')))
      with (i + n + Z.of_nat (length pre')) by lia.
Qed.

Lemma layout_drop_free i fs es rs :
  Forall is_free fs -> layout i (fs ++ es) rs -> layout (i + Z.of_nat (length fs)) es rs.
Proof.
  intros Hf. revert i. induction Hf as [|e fs He _ IH]; intros i Hl; simpl in *.
  - by rewrite Z.add_0_r.
  - inversion Hl as [|? ? ? ? _ Hl'|? ? ? ? ? ? Ht]; simplify_eq; [|by rewrite He in Ht].
    apply IH in Hl'.
    by replace (i + Z.of_nat (S (length fs))) with (i + 1 + Z.of_nat (length fs)) by lia.
Qed.

Lemma layout_all_free i fs : Forall is_free fs -> layout i fs [].
Proof.
  intros Hf. revert i. induction Hf; intros i; [constructor|]. by apply layout_free.
Qed.

(** A run in a layout is a block of taken entries headed by its length. *)
Lemma layout_at i es rs1 k n rs2 :
  layout i es (rs1 ++ (k, n) :: rs2) ->
  exists pre e body post,
    es = pre ++ (e :: body) ++ post /\
    k = i + Z.of_nat (length pre) /\ npage e = Some n /\ n = 1 + Z.of_nat (length body) /\
    Forall (fun e => taken e = 1) (e :: body) /\
    layout i pre rs1 /\ layout (k + n) post rs2.
Proof.
  remember (rs1 ++ (k, n) :: rs2) as rs eqn:Hrs. intros Hl. revert rs1 Hrs.
  induction Hl as [i|i e es rs He Hl IH|i m e body es rs ? ? ? Hm Hl IH]; intros rs1 Hrs.
  - by destruct rs1.
  - destruct (IH rs1 Hrs) as (pre & e1 & b1 & post & -> & -> & ? & ? & ? & ? & ?).
    exists (e :: pre), e1, b1, post. simpl length.
    split_and!; try done; [lia|by constructor].
  - destruct rs1 as [|r rs1]; simplify_eq/=.
    + exists [], e, body, es. split_and!; try done; [simpl; lia|by constructor|constructor].
    + destruct (IH rs1 eq_refl) as (pre & e1 & b1 & post & -> & -> & ? & ? & ? & ? & ?).
      exists (e :: body ++ pre), e1, b1, post. simpl length. rewrite length_app.
      split_and!; try done; [|lia|by apply layout_run].
      simpl. by rewrite <- app_assoc.
Qed.

Lemma layout_range i es rs k n : layout i es rs -> (k, n) ∈ rs ->
  i <= k /\ 0 < n /\ k + n <= i + Z.of_nat (length es).
Proof.
  intros Hl (rs1 & rs2 & ->)%list_elem_of_split.
  destruct (layout_at _ _ _ _ _ _ Hl) as (pre & e & body & post & -> & -> & _ & -> & _).
  rewrite !length_app; simpl. lia.
Qed.

(** Runs are laid out in order, so two of them never overlap. *)
Lemma layout_sorted i es rs1 k n rs2 k' n' :
  layout i es (rs1 ++ (k, n) :: rs2) -> (k', n') ∈ rs2 -> k + n <= k'.
Proof.
  revert i es. induction rs1 as [|r rs1 IH]; intros i es Hl Hin; simpl in *.
  - remember ((k, n) :: rs2) as rs eqn:Hrs. revert Hrs.
    induction Hl as [i|i e es rs He Hl IH|i m e body es rs ? ? ? Hm Hl _]; intros Hrs;
      simplify_eq; [by auto|].
    apply (layout_range _ _ _ _ _ Hl) in Hin. lia.
  - remember (r :: rs1 ++ (k, n) :: rs2) as rs eqn:Hrs. revert Hrs.
    induction Hl as [i|i e es rs He Hl IHl|i m e body es rs ? ? ? Hm Hl _]; intros Hrs;
      simplify_eq; [by auto|]. by eapply IH.
Qed.

Lemma nfree_app es1 es2 : nfree (es1 ++ es2) = nfree es1 + nfree es2.
Proof. unfold nfree. rewrite filter_app, length_app. lia. Qed.

Lemma nfree_all es : Forall is_free es -> nfree es = Z.of_nat (length es).
Proof.
  unfold nfree. induction 1 as [|e es He _ IH]; [done|].
  rewrite filter_cons_True by done. simpl length. lia.
Qed.

Lemma nfree_none es : Forall (fun e => taken e = 1) es -> nfree es = 0.
Proof.
  unfold nfree. induction 1 as [|e es He _ IH]; [done|].
  rewrite filter_cons_False; [done|]. unfold is_free. by rewrite He.
Qed.

(** ** Claiming a run *)

Definition claimed (p n : Z) (mid : list coremap_entry) : list coremap_entry :=
  match mid with
  | [] => []
  | e :: body => set_owner p n (set_taken 1 e) :: (set_taken 1 <$> body)
  end.

Lemma claim_fold_lookup i c (es : list coremap_entry) (j : nat) :
  0 <= c <= i + 1 ->
  foldl (fun es j => alter (set_taken 1) (Z.to_nat (i - j)) es) es (seqZ 0 c) !! j =
    if (i - c <? Z.of_nat j) && (Z.of_nat j <=? i) then set_taken 1 <$> es !! j else es !! j.
Proof.
  intros Hc. destruct Hc as [H0 Hc]. revert c H0 Hc.
  apply (natlike_ind (fun c => c <= i + 1 -> _)).
  - intros Hc. simpl. destruct (Z.ltb_spec (i - 0) (Z.of_nat j)), (Z.leb_spec (Z.of_nat j) i);
      simpl; try done; lia.
  - intros c Hc IH Hi. rewrite seqZ_snoc, foldl_app by done. simpl.
    destruct (decide (j = Z.to_nat (i - c))) as [->|Hne].
    + rewrite list_lookup_alter_eq, IH by lia. by zbool.
    + rewrite list_lookup_alter_ne, IH by (done || lia).
      destruct (Z.ltb_spec (i - c) (Z.of_nat j)), (Z.ltb_spec (i - Z.succ c) (Z.of_nat j)),
        (Z.leb_spec (Z.of_nat j) i); simpl; try done; lia.
Qed.

Lemma claim_run_eq pre mid post p n :
  n = Z.of_nat (length mid) -> 0 < n ->
  claim_run (Z.of_nat (length pre) + n - 1) n p (pre ++ mid ++ post) =
    pre ++ claimed p n mid ++ post.
Proof.
  intros Hn Hpos. destruct mid as [|e body]; [simpl in Hn; lia|]. simpl in Hn.
  unfold claim_run. apply list_eq. intros j.
  replace (Z.to_nat (Z.of_nat (length pre) + n - 1 - n + 1)) with (length pre) by lia.
  assert (forall j, (foldl (fun es j0 => alter (set_taken 1)
      (Z.to_nat (Z.of_nat (length pre) + n - 1 - j0)) es) (pre ++ (e :: body) ++ post) (seqZ 0 n)) !! j =
    (pre ++ (set_taken 1 e :: (set_taken 1 <$> body)) ++ post) !! j) as Hfold.
  { clear j. intros j. rewrite claim_fold_lookup by lia.
    destruct (decide (j < length pre)%nat).
    - rewrite !(lookup_app_l pre) by done. by zbool.
    - rewrite !(lookup_app_r pre) by lia.
      destruct (decide (j - length pre < S (length body))%nat).
      + rewrite !lookup_app_l by (simpl; rewrite ?length_fmap; lia). zbool.
        change (set_taken 1 e :: (set_taken 1 <$> body)) with (set_taken 1 <$> e :: body).
        by rewrite list_lookup_fmap.
      + rewrite !lookup_app_r by (simpl; rewrite ?length_fmap; lia). simpl.
        rewrite length_fmap. by zbool. }
  destruct (decide (j = length pre)) as [->|Hne].
  - rewrite list_lookup_alter_eq, Hfold. rewrite !(lookup_app_r pre) by lia. by rewrite Nat.sub_diag.
  - rewrite list_lookup_alter_ne, Hfold by done.
    destruct (decide (j < length pre)%nat); [by rewrite !lookup_app_l|].
    rewrite !(lookup_app_r pre) by lia. simpl. by destruct (j - length pre)%nat eqn:E; [lia|].
Qed.

Lemma run_at_split es a n : 0 < n -> run_at es a n ->
  exists pre mid post, es = pre ++ mid ++ post /\ Z.of_nat (length pre) = a /\
    Z.of_nat (length mid) = n /\ Forall is_free mid.
Proof.
  intros Hn [Ha Hr].
  assert (a + n <= Z.of_nat (length es)) as Hlen.
  { pose proof (free_at_range es (a + n - 1) ltac:(lia) (Hr (a + n - 1) ltac:(lia))). lia. }
  exists (take (Z.to_nat a) es), (take (Z.to_nat n) (drop (Z.to_nat a) es)),
    (drop (Z.to_nat n) (drop (Z.to_nat a) es)).
  split_and!.
  - by rewrite !take_drop.
  - rewrite length_take. lia.
  - rewrite length_take, length_drop. lia.
  - apply Forall_lookup. intros j e Hj.
    assert (j < Z.to_nat n)%nat.
    { apply lookup_lt_Some in Hj. rewrite length_take in Hj. lia. }
    rewrite lookup_take_lt, lookup_drop in Hj by lia.
    destruct (Hr (a + Z.of_nat j)) as (e' & He' & ?); [lia|].
    replace (Z.to_nat (a + Z.of_nat j)) with (Z.to_nat a + j)%nat in He' by lia. congruence.
Qed.

Lemma layout_claim i pre mid post rs p n :
  layout i (pre ++ mid ++ post) rs -> Forall is_free mid ->
  n = Z.of_nat (length mid) -> 0 < n ->
  exists rs1 rs2, rs = rs1 ++ rs2 /\
    layout i (pre ++ claimed p n mid ++ post) (rs1 ++ (i + Z.of_nat (length pre), n) :: rs2).
Proof.
  intros Hl Hf Hn Hpos. destruct mid as [|e body]; [simpl in Hn; lia|].
  pose proof (Forall_inv Hf) as He.
  destruct (layout_split i pre e (body ++ post) rs Hl He) as (rs1 & rs2 & -> & Hpre & Hrest).
  exists rs1, rs2. split; [done|]. apply layout_app; [done|]. simpl.
  apply layout_run; simpl; try done.
  - by apply Forall_fmap, Forall_true.
  - rewrite length_fmap. simpl in Hn. lia.
  - apply (layout_drop_free _ (e :: body)) in Hrest; [|done]. by rewrite Hn.
Qed.

Lemma nfree_claimed p n mid : nfree (claimed p n mid) = 0.
Proof.
  apply nfree_none. destruct mid; simpl; constructor; [done|]. by apply Forall_fmap, Forall_true.
Qed.

Lemma claimed_phyaddr p n mid k e :
  claimed p n mid !! k = Some e -> exists e', mid !! k = Some e' /\ phyaddr e = phyaddr e'.
Proof.
  destruct mid as [|e0 body]; [done|]. destruct k as [|k]; simpl.
  - intros [= <-]. by eexists.
  - rewrite list_lookup_fmap. intros (e' & -> & ?)%fmap_Some. by exists e'; subst.
Qed.

Lemma claimed_length p n mid : length (claimed p n mid) = length mid.
Proof. destruct mid; simpl; by rewrite ?length_fmap. Qed.

(** ** Specifications *)

Section coremap_specs.
Implicit Types (m : vmstate) (rs : list (Z * Z)).

Lemma coremap_ok_cpu base m rs c : coremap_ok base m rs -> coremap_ok base (with_cpu c m) rs.
Proof. done. Qed.

Lemma claim_ok base m rs pre mid post p n :
  coremap_ok base m rs -> entries m = pre ++ mid ++ post -> Forall is_free mid ->
  n = Z.of_nat (length mid) -> 0 < n ->
  exists rs1 rs2, rs = rs1 ++ rs2 /\
    coremap_ok base (with_entries (pre ++ claimed p n mid ++ post) (u32 (pageleft m - n)) m)
      (rs1 ++ (Z.of_nat (length pre), n) :: rs2).
Proof.
  intros (? & Hpn & Hl & Hleft & Hphy & ? & ? & ? & ?) Hes Hf Hn Hpos.
  rewrite Hes in Hl. destruct (layout_claim 0 pre mid post rs p n Hl Hf Hn Hpos)
    as (rs1 & rs2 & -> & Hl').
  exists rs1, rs2. split; [done|].
  unfold coremap_ok, with_entries; simpl. rewrite !length_app, claimed_length.
  rewrite Hleft, Hes, !nfree_app, nfree_claimed, (nfree_all mid) by done.
  rewrite Hes, !length_app in Hpn.
  assert (0 <= nfree pre <= Z.of_nat (length pre) /\ 0 <= nfree post <= Z.of_nat (length post)) as [? ?].
  { unfold nfree. pose proof (length_filter is_free pre). pose proof (length_filter is_free post). lia. }
  rewrite u32_small by lia.
  split_and!; try done; try lia.
  intros k e Hk. destruct (decide (k < length pre)%nat).
  - rewrite lookup_app_l in Hk by done. apply Hphy. by rewrite Hes, lookup_app_l.
  - rewrite lookup_app_r in Hk by lia.
    destruct (decide (k - length pre < length mid)%nat).
    + rewrite lookup_app_l in Hk by (rewrite claimed_length; done).
      apply claimed_phyaddr in Hk as (e' & He' & ->). apply Hphy.
      by rewrite Hes, lookup_app_r, lookup_app_l by lia.
    + rewrite lookup_app_r, claimed_length in Hk by (rewrite claimed_length; lia). apply Hphy.
      by rewrite Hes, !lookup_app_r by lia.
Qed.

(** What [getppages] computes once the coremap is up. *)
Lemma getppages_eq base m rs n : coremap_ok base m rs -> spl_ok (vm_cpu m) ->
  getppages n m =
    if n >? pageleft m then (Ret 0, with_cpu (mk_cpu SPL_HIGH false) m)
    else match find_run (entries m) 0 0 n with
         | None => (Ret 0, m)
         | Some i =>
             match entries m !! Z.to_nat (i + 1 - n) with
             | Some e => (Ret (phyaddr e), with_entries (claim_run i n (curpid m) (entries m))
                                             (u32 (pageleft m - n)) m)
             | None => (Panic, with_entries (claim_run i n (curpid m) (entries m))
                         (u32 (pageleft m - n)) (with_cpu (mk_cpu SPL_HIGH false) m))
             end
         end.
Proof.
  intros (Hind & Hpn & _ & _ & Hphy & _ & Hcm & _ & _) Hspl.
  unfold getppages, bind at 1. rewrite splhigh_eq.
  unfold bind at 1, get. cbn [vm_indicator with_cpu vm_has_cpu pageleft pagenumber entries].
  rewrite (proj2 (Z.eqb_neq _ _)) by done.
  destruct (n >? pageleft m); [done|]. rewrite take_ge by lia.
  destruct (find_run (entries m) 0 0 n) as [k|].
  - replace (Z.to_nat (k - n + 1)) with (Z.to_nat (k + 1 - n)) by lia.
    destruct (entries m !! Z.to_nat (k + 1 - n)) as [e|] eqn:He; [|done].
    unfold bind, modify, assert, ret. cbn [coremap]. rewrite (Hphy _ _ He).
    rewrite (proj2 (Z.gtb_lt _ _)) by (unfold MIPS_KSEG0 in Hcm; lia).
    rewrite splx_eq by (destruct Hspl; done).
    unfold with_entries; simpl. by rewrite spl_ok_eta by done.
  - unfold bind, ret. rewrite splx_eq by (destruct Hspl; done).
    simpl. rewrite spl_ok_eta by done. by destruct m.
Qed.

(** The three outcomes of [getppages]. *)
Lemma getppages_spec base m rs n :
  coremap_ok base m rs -> spl_ok (vm_cpu m) -> 0 < n ->
  (exists a rs1 rs2 m',
     getppages n m = (Ret (base + 4096 * a), m') /\
     run_at (entries m) a n /\ (forall a', run_at (entries m) a' n -> a <= a') /\
     rs = rs1 ++ rs2 /\ coremap_ok base m' (rs1 ++ (a, n) :: rs2) /\
     pageleft m' = pageleft m - n /\ vm_cpu m' = vm_cpu m) \/
  (n <= pageleft m /\ (forall a, ~ run_at (entries m) a n) /\ getppages n m = (Ret 0, m)) \/
  (pageleft m < n /\ getppages n m = (Ret 0, with_cpu (mk_cpu SPL_HIGH false) m)).
Proof.
  intros Hok Hspl Hn. pose proof Hok as (_ & Hpn & _ & Hleft & Hphy & _).
  rewrite (getppages_eq base m rs n) by done.
  destruct (Z.gtb_spec n (pageleft m)); [by right; right|].
  pose proof (find_run_whole (entries m) n Hn) as Hfind.
  destruct (find_run (entries m) 0 0 n) as [k|]; [left|by right; left].
  destruct Hfind as (Hk & Hrun & Hmin).
  destruct (run_at_split _ _ _ Hn Hrun) as (pre & mid & post & Hes & Hpre & Hmid & Hf).
  destruct (claim_ok base m rs pre mid post (curpid m) n Hok Hes Hf ltac:(lia) Hn)
    as (rs1 & rs2 & -> & Hok').
  rewrite Hpre in Hok'. exists (k + 1 - n), rs1, rs2. eexists.
  split_and!; [|done|done|done|exact Hok'| |done].
  - destruct (proj2 Hrun (k + 1 - n)) as (e & He & _); [lia|].
    rewrite He, (Hphy _ _ He). f_equal; [f_equal; lia|f_equal].
    rewrite Hes. replace k with (Z.of_nat (length pre) + n - 1) by lia. apply claim_run_eq; lia.
  - simpl. rewrite u32_small; [done|].
    destruct Hok as (_ & _ & _ & _ & _ & _ & _ & ? & ?).
    pose proof (length_filter is_free (entries m)). unfold nfree in *. lia.
Qed.

Lemma free_frames_eq k a pre mid post m :
  0 <= a -> length pre = (k + Z.to_nat a)%nat -> entries m = pre ++ mid ++ post ->
  0 <= pageleft m -> pageleft m + Z.of_nat (length mid) < 2 ^ 32 ->
  for_each (seqZ a (Z.of_nat (length mid))) (free_frame k) m =
    (Ret tt, with_entries (pre ++ (set_taken 0 <$> mid) ++ post)
               (pageleft m + Z.of_nat (length mid)) m).
Proof.
  revert a pre m. induction mid as [|e mid IH]; intros a pre m Ha Hk Hes Hl Hu.
  - simpl in *. rewrite <- Hes, Z.add_0_r. by destruct m.
  - simpl length in *. rewrite seqZ_cons by lia. simpl for_each.
    unfold bind, free_frame at 1, bind, get. rewrite Hes, <- Hk.
    rewrite (list_lookup_middle pre (mid ++ post) e) by done. unfold put.
    replace (Z.pred (Z.of_nat (S (length mid)))) with (Z.of_nat (length mid)) by lia.
    rewrite (IH (Z.succ a) (pre ++ [set_taken 0 e])); simpl.
    + unfold with_entries; simpl. rewrite u32_small by lia.
      do 2 f_equal; [lia|]. by rewrite <- app_assoc.
    + lia.
    + rewrite length_app; simpl. lia.
    + rewrite alter_app_r_alt, Nat.sub_diag by lia. by rewrite <- app_assoc.
    + rewrite u32_small; lia.
    + rewrite u32_small; lia.
Qed.

(** Giving back a run leaves the others. *)
Lemma release_ok base m rs1 rs2 pre mid post k n :
  coremap_ok base m (rs1 ++ (k, n) :: rs2) -> entries m = pre ++ mid ++ post ->
  layout 0 pre rs1 -> layout (k + n) post rs2 ->
  k = Z.of_nat (length pre) -> n = Z.of_nat (length mid) ->
  Forall (fun e => taken e = 1) mid ->
  coremap_ok base (with_entries (pre ++ (set_taken 0 <$> mid) ++ post) (pageleft m + n) m)
    (rs1 ++ rs2).
Proof.
  intros (? & Hpn & _ & Hleft & Hphy & ? & ? & ? & ?) Hes Hl1 Hl2 Hk Hn Ht.
  assert (Forall is_free (set_taken 0 <$> mid)) as Hf by (by apply Forall_fmap, Forall_true).
  unfold coremap_ok, with_entries; simpl.
  rewrite Hes, !length_app in Hpn. rewrite Hes, !nfree_app, (nfree_none mid) in Hleft by done.
  rewrite !nfree_app, (nfree_all (_ <$> _)), !length_app, length_fmap by done.
  split_and!; try done; try lia.
  - apply layout_app; [done|]. apply (layout_app _ _ _ []); [by apply layout_all_free|].
    rewrite length_fmap. by replace (0 + _ + _) with (k + n) by lia.
  - intros j e Hj. rewrite lookup_app in Hj. specialize (Hphy j). rewrite Hes, lookup_app in Hphy.
    destruct (pre !! j); [by apply Hphy|].
    rewrite lookup_app in Hj. rewrite lookup_app in Hphy. rewrite list_lookup_fmap, length_fmap in Hj.
    destruct (mid !! _) as [e'|]; simpl in Hj; [|by apply Hphy].
    simplify_eq. simpl. by apply (Hphy e').
Qed.

Lemma find_addr_none es addr i :
  Forall (fun e => PADDR_TO_KVADDR (phyaddr e) <> addr) es -> find_addr es addr i = None.
Proof.
  intros Hf. revert i. induction Hf as [|e es He _ IH]; intros i; simpl; [done|].
  by rewrite (proj2 (Z.eqb_neq _ _)).
Qed.

(** Giving back an allocated run. *)
Lemma free_kpages_spec base m rs1 k n rs2 :
  coremap_ok base m (rs1 ++ (k, n) :: rs2) -> spl_ok (vm_cpu m) ->
  exists m', free_kpages (PADDR_TO_KVADDR (base + 4096 * k)) m = (Ret tt, m') /\
    coremap_ok base m' (rs1 ++ rs2) /\ pageleft m' = pageleft m + n /\ vm_cpu m' = vm_cpu m.
Proof.
  intros Hok Hspl. pose proof Hok as (_ & Hpn & Hl & Hleft & Hphy & _ & _ & Hb & Hr).
  destruct (layout_at _ _ _ _ _ _ Hl) as (pre & e & body & post & Hes & Hk & Hnp & Hn & Ht & Hl1 & Hl2).
  assert (entries m !! length pre = Some e) as He by (rewrite Hes; by apply list_lookup_middle).
  rewrite Hpn in Hr. assert (length pre < length (entries m))%nat by (by eapply lookup_lt_Some).
  assert (0 <= pageleft m <= Z.of_nat (length (entries m))) as Hpl.
  { rewrite Hleft. unfold nfree. pose proof (length_filter is_free (entries m)). lia. }
  exists (with_entries (pre ++ (set_taken 0 <$> (e :: body)) ++ post) (pageleft m + n) m).
  split; [|split_and!; [|done|done]].
  - pose proof (find_addr_spec base (entries m) 0 (length pre) e Hphy ltac:(lia)
      ltac:(simpl; lia) He) as Hfind.
    rewrite (Hphy _ _ He) in Hfind. replace (Z.of_nat (length pre)) with k in Hfind by lia.
    assert (0 <= base + 4096 * k < 2 ^ 31) as Hrange by lia.
    unfold free_kpages, bind, assert, get, ret.
    rewrite (proj2 (Z.geb_le _ _)) by (unfold PADDR_TO_KVADDR, MIPS_KSEG0; rewrite u32_small; lia).
    rewrite splhigh_eq; simpl. rewrite Hfind; simpl. rewrite He.
    destruct e as [ep ev eph et enp]; simpl in Hnp; subst enp.
    replace n with (Z.of_nat (length (mk_entry ep ev eph et (Some n) :: body))) at 1 by (simpl; lia).
    rewrite (free_frames_eq _ 0 pre _ post); simpl; [|done|lia|done|lia|].
    + rewrite splx_eq by (by destruct Hspl). simpl. rewrite spl_ok_eta by done.
      unfold with_entries; simpl. do 3 f_equal. lia.
    + rewrite Hes, !length_app in *. simpl in *. lia.
  - apply (release_ok _ _ _ _ _ _ _ k); try done. simpl. lia.
Qed.

Lemma run_addr base m rs k n : coremap_ok base m rs -> (k, n) ∈ rs ->
  0 < base + 4096 * k < 2 ^ 31.
Proof.
  intros (_ & Hpn & Hl & _ & _ & _ & _ & Hb & Hr) Hin.
  pose proof (layout_range _ _ _ _ _ Hl Hin). lia.
Qed.

(** C33: [alloc_kpages n], once the coremap is up, has exactly three outcomes.  It
    takes the lowest run of [n] free frames and returns its kseg0 address, the
    allocated runs then being the old ones and this one; or it returns 0 because
    no [n] contiguous frames are free, with nothing changed; or it returns 0
    because fewer than [n] frames are free at all -- and on that path the
    interrupt level is not restored: [curspl] stays high and interrupts off. *)
Theorem alloc_kpages_correct base m rs n :
  coremap_ok base m rs -> spl_ok (vm_cpu m) -> 0 < n ->
  (exists a rs1 rs2 m',
     alloc_kpages n m = (Ret (base + 4096 * a + MIPS_KSEG0), m') /\
     run_at (entries m) a n /\ (forall a', run_at (entries m) a' n -> a <= a') /\
     rs = rs1 ++ rs2 /\ coremap_ok base m' (rs1 ++ (a, n) :: rs2) /\
     pageleft m' = pageleft m - n /\ vm_cpu m' = vm_cpu m) \/
  (n <= pageleft m /\ (forall a, ~ run_at (entries m) a n) /\ alloc_kpages n m = (Ret 0, m)) \/
  (pageleft m < n /\ alloc_kpages n m = (Ret 0, with_cpu (mk_cpu SPL_HIGH false) m)).
Proof.
  intros Hok Hspl Hn.
  destruct (getppages_spec base m rs n Hok Hspl Hn)
    as [(a & rs1 & rs2 & m' & Hg & ? & ? & ? & Hok' & ? & ?)|[(? & ? & Hg)|(? & Hg)]].
  - left. exists a, rs1, rs2, m'. split_and!; try done.
    pose proof (run_addr _ _ _ a n Hok' ltac:(set_solver)).
    unfold alloc_kpages, bind. rewrite Hg, (proj2 (Z.eqb_neq _ _)) by lia.
    by rewrite KVADDR_small by lia.
  - right; left. split_and!; try done. unfold alloc_kpages, bind. by rewrite Hg.
  - right; right. split_and!; try done. unfold alloc_kpages, bind. by rewrite Hg.
Qed.

(** [alloc_kpages] followed by [free_kpages] of what it returned is the
    identity on the allocated runs, on [pageleft] and on the interrupt level. *)
Theorem alloc_free_kpages base m rs n a m1 :
  coremap_ok base m rs -> spl_ok (vm_cpu m) -> 0 < n ->
  alloc_kpages n m = (Ret a, m1) -> a <> 0 ->
  exists m2, free_kpages a m1 = (Ret tt, m2) /\ coremap_ok base m2 rs /\
    pageleft m2 = pageleft m /\ vm_cpu m2 = vm_cpu m.
Proof.
  intros Hok Hspl Hn. unfold alloc_kpages, bind.
  destruct (getppages_spec base m rs n Hok Hspl Hn)
    as [(k & rs1 & rs2 & m' & -> & ? & ? & -> & Hok' & Hp & Hc)|[(? & ? & ->)|(? & ->)]];
    [|by intros [= <- <-]..].
  pose proof (run_addr _ _ _ k n Hok' ltac:(set_solver)).
  rewrite (proj2 (Z.eqb_neq _ _)) by lia. intros [= <- <-] _.
  destruct (free_kpages_spec base m' rs1 k n rs2 Hok') as (m2 & ? & ? & ? & ?); [by rewrite Hc|].
  exists m2. split_and!; try done; [lia|congruence].
Qed.

(** [free_kpages] of a kernel address that is not in the coremap -- such as
    one [ram_stealmem] handed out before [vm_bootstrap] -- does not stop: the
    search loop runs past the last coremap entry. *)
Theorem free_kpages_foreign base m rs addr :
  coremap_ok base m rs -> MIPS_KSEG0 <= addr ->
  (forall k, 0 <= k < pagenumber m -> addr <> base + 4096 * k + MIPS_KSEG0) ->
  (free_kpages addr m).1 = Panic.
Proof.
  intros (_ & Hpn & _ & _ & Hphy & _ & _ & Hb & Hr) Ha Hout.
  unfold free_kpages, bind, assert, get, ret.
  rewrite (proj2 (Z.geb_le _ _)) by done. rewrite splhigh_eq; simpl.
  rewrite find_addr_none; [done|]. apply Forall_lookup. intros k e He.
  pose proof (lookup_lt_Some _ _ _ He). rewrite (Hphy _ _ He), KVADDR_small by lia.
  intros <-. apply (Hout (Z.of_nat k)); lia.
Qed.

(** The base of the frames: the pages from [lo] that the coremap takes are
    skipped, and at least one. *)
Definition first_frame (lo hi : Z) : Z := lo + 4096 * (20 * ((hi - lo) / 4096) / 4096 + 1).

Lemma toppage_eq lo hi :
  0 <= lo -> lo mod 4096 = 0 -> lo + 8192 <= hi -> hi <= 508 * 1024 * 1024 ->
  toppage lo ((hi - lo) / 4096 - 1) = first_frame lo hi.
Proof.
  intros Hlo Hal Hlh Hhi. unfold toppage, sizeof_coremap_entry, first_frame.
  pose proof (Z.div_le_upper_bound (hi - lo) 4096 (127 * 1024) ltac:(lia) ltac:(lia)).
  pose proof (Z.div_le_lower_bound (hi - lo) 4096 2 ltac:(lia) ltac:(lia)).
  set (N := (hi - lo) / 4096) in *.
  assert (0 <= 20 * N / 4096 <= N) as ?.
  { split; [apply Z.div_pos; lia|apply Z.div_le_upper_bound; lia]. }
  rewrite (u32_small ((N - 1) * 20)), (u32_small (lo + _)), (u32_small (lo + _ + _)) by lia.
  rewrite PAGE_FRAME_land by lia.
  replace (lo + (N - 1) * 20 + 20) with (20 * N + (lo / 4096) * 4096)
    by (pose proof (Z.div_mod lo 4096); lia).
  rewrite Z.div_add by lia. pose proof (Z.div_mod lo 4096 ltac:(lia)).
  rewrite u32_small; lia.
Qed.

Lemma init_entries_ok base n : 0 <= base -> 0 <= n -> base + 4096 * n <= 2 ^ 31 ->
  let es := init_entry base <$> seqZ 0 n in
  length es = Z.to_nat n /\ Forall is_free es /\
  forall k e, es !! k = Some e -> phyaddr e = base + 4096 * Z.of_nat k.
Proof.
  intros Hb Hn Hr es.
  assert (forall k e, es !! k = Some e -> e = init_entry base (Z.of_nat k) /\ Z.of_nat k < n) as Hes.
  { intros k e. unfold es. rewrite list_lookup_fmap.
    by intros (j & [-> ?]%lookup_seqZ & ->)%fmap_Some. }
  split_and!.
  - unfold es. by rewrite length_fmap, length_seqZ.
  - apply Forall_lookup. by intros k e [-> _]%Hes.
  - intros k e [-> ?]%Hes. unfold init_entry; simpl.
    rewrite (u32_small (4096 * _)) by lia. by rewrite u32_small by lia.
Qed.

(** The state [vm_bootstrap] leaves. *)
Lemma vm_bootstrap_spec m lo hi :
  firstpaddr m = lo -> lastpaddr m = hi ->
  0 <= lo -> lo mod 4096 = 0 -> hi mod 4096 = 0 -> lo + 8192 <= hi -> hi <= 508 * 1024 * 1024 ->
  exists m', vm_bootstrap m = (Ret tt, m') /\
    coremap_ok (first_frame lo hi) m' [] /\
    pagenumber m' = (hi - lo) / 4096 - 1 /\ pageleft m' = pagenumber m' /\
    coremap m' = lo + MIPS_KSEG0 /\
    lo + sizeof_coremap_entry * pagenumber m' <= first_frame lo hi /\
    (first_frame lo hi + 4096 * pagenumber m' <= hi <-> (hi - lo) / 4096 < 205).
Proof.
  intros <- <- Hlo Hal Hah Hlh Hhi.
  set (lo := firstpaddr m) in *. set (hi := lastpaddr m) in *.
  pose proof (toppage_eq lo hi Hlo Hal Hlh Hhi) as Htop.
  unfold vm_bootstrap, ram_getsize, bind, get, put, ret, modify.
  pose proof (Z.div_le_upper_bound (hi - lo) 4096 (127 * 1024) ltac:(lia) ltac:(lia)).
  pose proof (Z.div_le_lower_bound (hi - lo) 4096 2 ltac:(lia) ltac:(lia)).
  fold lo hi. change PAGE_SIZE with 4096.
  rewrite (u32_small (hi - lo)), (u32_small (_ / _ - 1)), Htop by lia.
  assert (first_frame lo hi = lo + 4096 * (20 * ((hi - lo) / 4096) / 4096 + 1)) as Hff by done.
  assert (hi - lo = 4096 * ((hi - lo) / 4096)) as HN.
  { pose proof (Z.div_mod (hi - lo) 4096 ltac:(lia)) as Hdm.
    rewrite Zminus_mod, Hal, Hah in Hdm. change ((0 - 0) mod 4096) with 0 in Hdm. lia. }
  set (N := (hi - lo) / 4096) in *.
  pose proof (Z.div_mod (20 * N) 4096 ltac:(lia)).
  pose proof (Z.mod_pos_bound (20 * N) 4096 ltac:(lia)).
  set (P := 20 * N / 4096) in *.
  eexists. split; [done|]. simpl.
  destruct (init_entries_ok (first_frame lo hi) (N - 1)) as (Hlen & Hfree & Hphy); [lia..|].
  unfold sizeof_coremap_entry. rewrite KVADDR_small by lia.
  split_and!; try done; try lia.
  unfold coremap_ok; simpl. rewrite nfree_all, Hlen by done.
  split_and!; try done; try lia.
  - by apply layout_all_free.
  - rewrite Hff, Z.mul_comm, Z.mod_add by lia. done.
  - unfold MIPS_KSEG0. rewrite u32_small; lia.
Qed.

(** [vm_bootstrap] turns the physical memory [ram_getsize] reports into a
    coremap with every frame free, one entry per page but one, placed just below
    the frames it describes; the last frame lies inside the reported memory
    exactly when there are fewer than 205 pages of it. *)
Theorem vm_bootstrap_correct m lo hi :
  firstpaddr m = lo -> lastpaddr m = hi ->
  0 <= lo -> lo mod 4096 = 0 -> hi mod 4096 = 0 -> lo + 8192 <= hi -> hi <= 508 * 1024 * 1024 ->
  exists m', vm_bootstrap m = (Ret tt, m') /\
    coremap_ok (first_frame lo hi) m' [] /\
    pagenumber m' = (hi - lo) / 4096 - 1 /\ pageleft m' = pagenumber m' /\
    coremap m' = lo + MIPS_KSEG0 /\
    lo + sizeof_coremap_entry * pagenumber m' <= first_frame lo hi /\
    (first_frame lo hi + 4096 * pagenumber m' <= hi <-> (hi - lo) / 4096 < 205).
Proof. apply vm_bootstrap_spec. Qed.

End coremap_specs.

(** ** The page allocator interface *)

Lemma layout_disjoint i es rs k n k' n' :
  layout i es rs -> (k, n) ∈ rs -> (k', n') ∈ rs -> (k, n) <> (k', n') ->
  k + n <= k' \/ k' + n' <= k.
Proof.
  intros Hl (rs1 & rs2 & ->)%list_elem_of_split [H'|[H'|H']%elem_of_cons]%elem_of_app Hne.
  - apply list_elem_of_split in H' as (rs3 & rs4 & ->). rewrite <- app_assoc in Hl; simpl in Hl.
    right. apply (layout_sorted _ _ _ _ _ _ k n Hl). set_solver.
  - congruence.
  - left. by eapply layout_sorted.
Qed.

Lemma layout_NoDup i es rs : layout i es rs -> NoDup rs.*1.
Proof.
  intros Hl. induction Hl as [| |i n e body es rs ? ? ? Hn Hl IH]; [constructor|done|].
  simpl. apply NoDup_cons. split; [|done].
  intros ([k m] & -> & Hin)%list_elem_of_fmap. simpl in *.
  pose proof (layout_range _ _ _ _ _ Hl Hin). lia.
Qed.

Definition run_page (base : Z) (r : Z * Z) : Z * Z := (base + 4096 * r.1 + MIPS_KSEG0, r.2).
Definition ledger (base : Z) (rs : list (Z * Z)) : gmap Z Z := list_to_map (run_page base <$> rs).

Lemma ledger_keys base rs : NoDup rs.*1 -> NoDup (run_page base <$> rs).*1.
Proof.
  intros Hnd. replace ((run_page base <$> rs).*1)
    with ((fun k => base + 4096 * k + MIPS_KSEG0) <$> rs.*1) by (by rewrite <- !list_fmap_compose).
  apply NoDup_fmap_2; [|done]. intros k k' ?. lia.
Qed.

Lemma ledger_lookup base rs a n : NoDup rs.*1 ->
  ledger base rs !! a = Some n <-> exists k, (k, n) ∈ rs /\ a = base + 4096 * k + MIPS_KSEG0.
Proof.
  intros Hnd. unfold ledger. rewrite <- elem_of_list_to_map by (by apply ledger_keys).
  rewrite list_elem_of_fmap. split.
  - intros ([k m] & [= -> ->] & ?). by exists k.
  - intros (k & ? & ->). by exists (k, n).
Qed.

Lemma ledger_insert base rs1 k n rs2 : NoDup (rs1 ++ (k, n) :: rs2).*1 ->
  let a := base + 4096 * k + MIPS_KSEG0 in
  ledger base (rs1 ++ (k, n) :: rs2) = <[a := n]> (ledger base (rs1 ++ rs2)) /\
  ledger base (rs1 ++ rs2) !! a = None.
Proof.
  intros Hnd a.
  assert (NoDup ((k, n) :: rs1 ++ rs2).*1) as Hnd' by (by rewrite Permutation_middle).
  split.
  - unfold ledger. change (<[a := n]> (list_to_map ?l)) with (list_to_map ((a, n) :: l) : gmap Z Z).
    apply list_to_map_proper; [by apply ledger_keys|].
    change ((a, n) :: (run_page base <$> rs1 ++ rs2))
      with (run_page base <$> (k, n) :: rs1 ++ rs2).
    by rewrite Permutation_middle.
  - apply eq_None_not_Some. intros [m (k' & Hin & Ha)%ledger_lookup].
    + assert (k' = k) as -> by lia. simpl in Hnd'. apply NoDup_cons in Hnd' as [Hnd' _].
      apply Hnd'. apply list_elem_of_fmap. by exists (k, m).
    + simpl in Hnd'. by apply NoDup_cons in Hnd' as [_ ?].
Qed.

#[export] Instance vm_page_alloc : PageAlloc vmstate :=
  { page_alloc := alloc_kpages; page_free := free_kpages }.

Definition vm_pages_ok (m : vmstate) (G : gmap Z Z) : Prop :=
  exists base rs, coremap_ok base m rs /\ spl_ok (vm_cpu m) /\ G = ledger base rs.

#[export] Program Instance vm_page_laws : PageLaws vmstate := { pages_ok := vm_pages_ok }.
Next Obligation. by intros m G (base & rs & _ & ? & _). Qed.
Next Obligation. intros m G c (base & rs & ? & _ & ->) ?. by exists base, rs. Qed.
Next Obligation.
  intros m G a n (base & rs & Hok & _ & ->) Ha.
  pose proof Hok as (_ & Hpn & Hl & _ & _ & Hb & _ & ? & ?).
  apply ledger_lookup in Ha as (k & Hin & ->); [|by eapply layout_NoDup].
  pose proof (layout_range _ _ _ _ _ Hl Hin). unfold MIPS_KSEG0, MIPS_KSEG1.
  split_and!; try lia.
  replace (base + 4096 * k + 0x80000000) with (base + (k + 0x80000) * 4096) by lia.
  by rewrite Z.mod_add by lia.
Qed.
Next Obligation.
  intros m G a b n n' (base & rs & (_ & _ & Hl & _) & _ & ->) Ha Hb Hne.
  apply ledger_lookup in Ha as (k & Hin & ->); [|by eapply layout_NoDup].
  apply ledger_lookup in Hb as (k' & Hin' & ->); [|by eapply layout_NoDup].
  destruct (layout_disjoint _ _ _ _ _ _ _ Hl Hin Hin'); [congruence|lia|lia].
Qed.
Next Obligation.
  intros m G n (base & rs & Hok & Hspl & ->) Hn. unfold runs; simpl. unfold alloc_kpages, bind.
  destruct (getppages_spec base m rs n Hok Hspl Hn)
    as [(k & rs1 & rs2 & m' & -> & ? & ? & -> & Hok' & Hp & Hc)|[(? & ? & ->)|(? & ->)]]; simpl.
  - pose proof (run_addr _ _ _ k n Hok' ltac:(set_solver)).
    rewrite (proj2 (Z.eqb_neq _ _)) by lia. simpl. right.
    rewrite KVADDR_small by lia. pose proof Hok' as (_ & _ & Hl & _).
    destruct (ledger_insert base rs1 k n rs2) as [Hi Hnone]; [by eapply layout_NoDup|].
    split_and!; [unfold MIPS_KSEG0; lia|done| |done].
    exists base, (rs1 ++ (k, n) :: rs2). by rewrite Hc.
  - left. split; [done|]. by exists base, rs.
  - left. split; [done|]. exists base, rs. by split_and!.
Qed.
Next Obligation.
  intros m G a n (base & rs & Hok & Hspl & ->) Ha. unfold runs; simpl.
  pose proof Hok as (_ & _ & Hl & _). pose proof (layout_NoDup _ _ _ Hl) as Hnd.
  apply ledger_lookup in Ha as (k & Hin & ->); [|done].
  pose proof (run_addr _ _ _ k n Hok Hin).
  apply list_elem_of_split in Hin as (rs1 & rs2 & ->).
  destruct (free_kpages_spec base m rs1 k n rs2 Hok Hspl) as (m' & Hf & Hok' & _ & Hc).
  rewrite <- KVADDR_small by lia. rewrite Hf; simpl. split; [|done].
  exists base, (rs1 ++ rs2). split_and!; [done|by rewrite Hc|].
  destruct (ledger_insert base rs1 k n rs2 Hnd) as [-> Hnone].
  rewrite KVADDR_small by lia. by rewrite delete_insert_id.
Qed.

(** ** Enough memory

    [has_run m N]: some [N] consecutive frames are free.  As allocation is
    first-fit, an allocation of [n] of them leaves [N - n] consecutive free
    frames. *)

Definition has_run (m : vmstate) (N : Z) : Prop := exists k, run_at (entries m) k N.

Lemma run_at_nfree es a n : 0 < n -> run_at es a n -> n <= nfree es.
Proof.
  intros Hn Hr. destruct (run_at_split _ _ _ Hn Hr) as (pre & mid & post & -> & _ & Hmid & Hf).
  rewrite !nfree_app, (nfree_all mid) by done. unfold nfree. lia.
Qed.

Lemma nfree_run es : 0 < nfree es -> exists a, run_at es a 1.
Proof.
  unfold nfree. intros Hn. destruct (filter is_free es) as [|e l] eqn:E; [simpl in Hn; lia|].
  assert (e ∈ filter is_free es) as [Hf Hin]%list_elem_of_filter by (rewrite E; set_solver).
  apply list_elem_of_lookup in Hin as (k & Hk). exists (Z.of_nat k). split; [lia|].
  intros j Hj. exists e. by replace (Z.to_nat j) with k by lia.
Qed.

(** Entries outside the claimed run are untouched. *)
Lemma claim_run_other es i n p j : 0 < n -> run_at es (i + 1 - n) n ->
  0 <= j -> ~ (i + 1 - n <= j <= i) -> claim_run i n p es !! Z.to_nat j = es !! Z.to_nat j.
Proof.
  intros Hn Hr Hj Hout. destruct (run_at_split _ _ _ Hn Hr) as (pre & mid & post & -> & Hpre & Hmid & _).
  replace i with (Z.of_nat (length pre) + n - 1) by lia. rewrite claim_run_eq by lia.
  rewrite !(lookup_app pre). destruct (pre !! Z.to_nat j) eqn:E; [done|].
  apply lookup_ge_None in E.
  assert (length mid <= Z.to_nat j - length pre)%nat by lia.
  rewrite (lookup_app_r mid), (lookup_app_r (claimed p n mid)) by (by rewrite ?claimed_length).
  by rewrite claimed_length.
Qed.

Lemma getppages_run base m rs n N : coremap_ok base m rs -> spl_ok (vm_cpu m) ->
  0 < n <= N -> has_run m N ->
  exists a rs1 rs2 m', getppages n m = (Ret (base + 4096 * a), m') /\
    rs = rs1 ++ rs2 /\ coremap_ok base m' (rs1 ++ (a, n) :: rs2) /\
    has_run m' (N - n) /\ vm_cpu m' = vm_cpu m /\ coremap m' = coremap m.
Proof.
  intros Hok Hspl Hn [k Hk]. pose proof (run_at_nfree _ k N ltac:(lia) Hk) as Hnf.
  assert (run_at (entries m) k n) as Hkn by (split; [apply Hk|intros j Hj; apply Hk; lia]).
  pose proof (getppages_eq base m rs n Hok Hspl) as Heq.
  destruct (getppages_spec base m rs n Hok Hspl ltac:(lia))
    as [(a & rs1 & rs2 & m' & Hg & Hra & Hmin & -> & Hok' & _ & Hc)|[(_ & Hno & _)|(Hlt & _)]].
  - exists a, rs1, rs2, m'. pose proof (Hmin _ Hkn) as Hak.
    pose proof Hok as (_ & _ & _ & Hleft & Hphy & _). rewrite Hg in Heq.
    destruct (Z.gtb_spec n (pageleft m)) as [?|_]; [lia|].
    pose proof (find_run_whole (entries m) n ltac:(lia)) as Hfind.
    destruct (find_run (entries m) 0 0 n) as [i|]; [|by destruct (Hfind _ Hra)].
    destruct Hfind as (Hi & Hri & Hmini).
    destruct (entries m !! Z.to_nat (i + 1 - n)) as [e|] eqn:He; [|done].
    injection Heq as Hpe Hm'. rewrite (Hphy _ _ He) in Hpe.
    assert (i = a + n - 1) as -> by lia. subst m'.
    split_and!; try done. exists (Z.max k (a + n)). split; [lia|]. intros j Hj.
    destruct (proj2 Hk j ltac:(lia)) as (e' & He' & Hf). exists e'. simpl. split; [|done].
    rewrite claim_run_other; [done|lia|done|lia|lia].
  - by destruct (Hno _ Hkn).
  - destruct Hok as (_ & _ & _ & Hleft & _). lia.
Qed.


Lemma ledger_above m G a n : vm_pages_ok m G -> G !! a = Some n ->
  u32 (coremap m - MIPS_KSEG0) < a - MIPS_KSEG0.
Proof.
  intros (base & rs & Hok & _ & ->) Ha. pose proof Hok as (_ & _ & Hl & _ & _ & _ & ? & _).
  apply ledger_lookup in Ha as (k & Hin & ->); [|by eapply layout_NoDup].
  pose proof (layout_range _ _ _ _ _ Hl Hin). lia.
Qed.

Lemma alloc_kpages_run m G n N : vm_pages_ok m G -> 0 < n <= N -> has_run m N ->
  exists a m', alloc_kpages n m = (Ret a, m') /\ a <> 0 /\ has_run m' (N - n) /\
    vm_cpu m' = vm_cpu m /\ coremap m' = coremap m /\
    forall G, vm_pages_ok m G -> G !! a = None /\ vm_pages_ok m' (<[a := n]> G).
Proof.
  intros (base & rs & Hok & Hspl & ->) Hn Hrun.
  destruct (getppages_run base m rs n N Hok Hspl Hn Hrun)
    as (k & rs1 & rs2 & m' & Hg & -> & Hok' & Hrun' & Hc & Hcm).
  pose proof (run_addr _ _ _ k n Hok' ltac:(set_solver)).
  exists (base + 4096 * k + MIPS_KSEG0), m'.
  assert (alloc_kpages n m = (Ret (base + 4096 * k + MIPS_KSEG0), m')) as Ha.
  { unfold alloc_kpages, bind. rewrite Hg, (proj2 (Z.eqb_neq _ _)) by lia.
    by rewrite KVADDR_small by lia. }
  split_and!; try done; [unfold MIPS_KSEG0; lia|].
  intros G' HG'. pose proof (page_alloc_spec m G' n HG' ltac:(lia)) as Hs.
  unfold runs in Hs. simpl in Hs. rewrite Ha in Hs.
  destruct Hs as [[? _]|(_ & ? & ? & _)]; [unfold MIPS_KSEG0 in *; lia|done].
Qed.

(** With no frame left, [alloc_kpages] returns 0. *)
Lemma alloc_kpages_none m G : vm_pages_ok m G -> pageleft m = 0 ->
  alloc_kpages 1 m = (Ret 0, with_cpu (mk_cpu SPL_HIGH false) m).
Proof.
  intros (base & rs & Hok & Hspl & _) H0. unfold alloc_kpages, bind.
  rewrite (getppages_eq base m rs 1 Hok Hspl), H0. done.
Qed.

(** ** Instances *)

(** A machine with four pages above the kernel, before and after [vm_bootstrap],
    and the latter after a two-page allocation. *)
Definition boot_vm : vmstate := mk_vm 0x20000 0x24000 0 0 0 0 [] (mk_cpu 0 true) 1.
Definition small_vm : vmstate := (vm_bootstrap boot_vm).2.
Definition small_vm_used : vmstate := (alloc_kpages 2 small_vm).2.

Lemma small_vm_ok : coremap_ok 0x21000 small_vm [].
Proof.
  unfold coremap_ok. split_and!; try (vm_compute; congruence).
  - apply layout_all_free. vm_compute. repeat constructor.
  - intros k e. do 3 (destruct k as [|k]; [by vm_compute; intros [= <-]|]). done.
Qed.

Lemma alloc_kpages_correct_witness :
  (alloc_kpages 2 small_vm).1 = Ret (0x21000 + 4096 * 0 + MIPS_KSEG0) /\
  ((exists a rs1 rs2 m',
     alloc_kpages 2 small_vm = (Ret (0x21000 + 4096 * a + MIPS_KSEG0), m') /\
     run_at (entries small_vm) a 2 /\ (forall a', run_at (entries small_vm) a' 2 -> a <= a') /\
     [] = rs1 ++ rs2 /\ coremap_ok 0x21000 m' (rs1 ++ (a, 2) :: rs2) /\
     pageleft m' = pageleft small_vm - 2 /\ vm_cpu m' = vm_cpu small_vm) \/
   (2 <= pageleft small_vm /\ (forall a, ~ run_at (entries small_vm) a 2) /\
    alloc_kpages 2 small_vm = (Ret 0, small_vm)) \/
   (pageleft small_vm < 2 /\
    alloc_kpages 2 small_vm = (Ret 0, with_cpu (mk_cpu SPL_HIGH false) small_vm))).
Proof.
  split; [by vm_compute|].
  apply (alloc_kpages_correct 0x21000 small_vm [] 2 small_vm_ok); [by vm_compute|lia].
Defined.

Lemma alloc_free_kpages_witness :
  exists m2, free_kpages 0x80021000 small_vm_used = (Ret tt, m2) /\ coremap_ok 0x21000 m2 [] /\
    pageleft m2 = pageleft small_vm /\ vm_cpu m2 = vm_cpu small_vm.
Proof.
  apply (alloc_free_kpages 0x21000 small_vm [] 2 0x80021000 small_vm_used small_vm_ok);
    [by vm_compute|lia|by vm_compute|lia].
Defined.

Lemma free_kpages_foreign_witness : (free_kpages 0x80020000 small_vm).1 = Panic.
Proof.
  apply (free_kpages_foreign 0x21000 small_vm [] 0x80020000 small_vm_ok);
    [by vm_compute|]. intros k Hk. unfold MIPS_KSEG0. lia.
Defined.

Lemma vm_bootstrap_correct_witness :
  exists m', vm_bootstrap boot_vm = (Ret tt, m') /\
    coremap_ok (first_frame 0x20000 0x24000) m' [] /\
    pagenumber m' = (0x24000 - 0x20000) / 4096 - 1 /\ pageleft m' = pagenumber m' /\
    coremap m' = 0x20000 + MIPS_KSEG0 /\
    0x20000 + sizeof_coremap_entry * pagenumber m' <= first_frame 0x20000 0x24000 /\
    (first_frame 0x20000 0x24000 + 4096 * pagenumber m' <= 0x24000 <->
     (0x24000 - 0x20000) / 4096 < 205).
Proof. apply (vm_bootstrap_correct boot_vm 0x20000 0x24000); done || lia. Defined.
