(* ===== verification/KHeap.v ===== *)
(** The kernel heap: kern/lib/kheap.c, over the page allocator interface of
    Pages.v.

    [kheap] holds the file-scope variables: the table of 256 [pageref]s, the
    in-use bitmap over it, the per-size lists and the list of all pages (both
    threaded through the [pageref]s by index), and the words the allocator keeps
    in free blocks.  Pointers into the [pageref] table are indices, NULL is
    [None]; a word that was never written cannot be read.  [SLOW] and [SLOWER]
    are off in the source, so the calls of [checksubpage] inside the operations
    are empty; the two checkers are modelled on their own. *)

From Stdlib Require Import ZArith Lia.
From stdpp Require Import prelude gmap list.
From S2P Require Import Prelude Spl Pages CoreMap.

(** ** Definitions *)

Definition sizes : list Z := [16; 32; 64; 128; 256; 512; 1024; 2048].
Definition NSIZES : Z := 8.
Definition LARGEST_SUBPAGE_SIZE : Z := 2048.
Definition size_at (blk : Z) : Z := default 0 (sizes !! Z.to_nat blk).

Record pageref := mk_pageref {
  next_samesize : option nat;
  next_all : option nat;
  pageaddr_and_blocktype : Z;
  freelist_offset : Z;
  nfree : Z;
}.

Definition INVALID_OFFSET : Z := 0xffff.
Definition PR_PAGEADDR (pr : pageref) : Z := Z.land (pageaddr_and_blocktype pr) PAGE_FRAME.
Definition PR_BLOCKTYPE (pr : pageref) : Z := Z.land (pageaddr_and_blocktype pr) 0xfff.
Definition MKPAB (pa blk : Z) : Z := Z.lor (Z.land pa PAGE_FRAME) (Z.land blk 0xfff).

Definition NPAGEREFS : nat := 256.
Definition INUSE_WORDS : nat := 8.

Definition set_samesize (n : option nat) (pr : pageref) : pageref :=
  mk_pageref n (next_all pr) (pageaddr_and_blocktype pr) (freelist_offset pr) (nfree pr).
Definition set_all (n : option nat) (pr : pageref) : pageref :=
  mk_pageref (next_samesize pr) n (pageaddr_and_blocktype pr) (freelist_offset pr) (nfree pr).
Definition set_free (off n : Z) (pr : pageref) : pageref :=
  mk_pageref (next_samesize pr) (next_all pr) (pageaddr_and_blocktype pr) off n.
Definition set_nfree (n : Z) (pr : pageref) : pageref := set_free (freelist_offset pr) n pr.
Definition set_offset (off : Z) (pr : pageref) : pageref := set_free off (nfree pr) pr.
Definition set_page (pab : Z) (pr : pageref) : pageref :=
  mk_pageref (next_samesize pr) (next_all pr) pab (freelist_offset pr) (nfree pr).

Section kheap.
Context {P : Type}.

Record kheap := mk_kheap {
  pagerefs : list pageref;
  pagerefs_inuse : list Z;
  sizebases : list (option nat);
  allbase : option nat;
  words : gmap Z Z;
  pg : P;
}.

Definition with_pagerefs prs (h : kheap) : kheap :=
  mk_kheap prs (pagerefs_inuse h) (sizebases h) (allbase h) (words h) (pg h).
Definition with_inuse ws (h : kheap) : kheap :=
  mk_kheap (pagerefs h) ws (sizebases h) (allbase h) (words h) (pg h).
Definition with_sizebases sb (h : kheap) : kheap :=
  mk_kheap (pagerefs h) (pagerefs_inuse h) sb (allbase h) (words h) (pg h).
Definition with_allbase b (h : kheap) : kheap :=
  mk_kheap (pagerefs h) (pagerefs_inuse h) (sizebases h) b (words h) (pg h).
Definition with_words w (h : kheap) : kheap :=
  mk_kheap (pagerefs h) (pagerefs_inuse h) (sizebases h) (allbase h) w (pg h).
Definition with_pg p (h : kheap) : kheap :=
  mk_kheap (pagerefs h) (pagerefs_inuse h) (sizebases h) (allbase h) (words h) p.

(** Static storage is zero at startup. *)
Definition kheap_boot (p : P) : kheap :=
  mk_kheap (replicate NPAGEREFS (mk_pageref None None 0 0 0)) (replicate INUSE_WORDS 0)
    (replicate 8 None) None ∅ p.

Definition pr_at (i : nat) : M kheap pageref :=
  h <- get ;; match pagerefs h !! i with Some pr => ret pr | None => panic end.
Definition pr_set (i : nat) (f : pageref -> pageref) : M kheap unit :=
  modify (fun h => with_pagerefs (alter f i (pagerefs h)) h).
Definition load (a : Z) : M kheap Z :=
  h <- get ;; match words h !! a with Some v => ret v | None => panic end.
Definition store (a v : Z) : M kheap unit :=
  modify (fun h => with_words (<[a := v]> (words h)) h).

(** *** The pageref table *)

(** The inner loop: the bits of word [i], which is [w], from low to high. *)
Definition scan_bits (i : nat) (w : Z) : M kheap (option nat) :=
  for_find (seq 0 32) (fun j =>
    let k := 2 ^ Z.of_nat j in
    if Z.land w k =? 0 then
      modify (fun h => with_inuse (<[i := Z.lor w k]> (pagerefs_inuse h)) h) ;;;
      ret (Some (i * 32 + j)%nat)
    else ret None).

Definition allocpageref : M kheap (option nat) :=
  for_find (seq 0 INUSE_WORDS) (fun i =>
    h <- get ;;
    match pagerefs_inuse h !! i with
    | None => panic
    | Some w =>
        if w =? 0xffffffff then ret None
        else
          r <- scan_bits i w ;;
          match r with Some p => ret (Some p) | None => panic end
    end).

Definition freepageref (j : nat) : M kheap unit :=
  assert (Z.of_nat j <? Z.of_nat NPAGEREFS) ;;;
  h <- get ;;
  let i := (j / 32)%nat in
  let k := 2 ^ Z.of_nat (j mod 32) in
  match pagerefs_inuse h !! i with
  | None => panic
  | Some w =>
      assert (negb (Z.land w k =? 0)) ;;;
      put (with_inuse (<[i := Z.land w (u32 (Z.lnot k))]> (pagerefs_inuse h)) h)
  end.

(** *** Lists of pagerefs

    Both lists are walked the same way; [next] is the link followed and [setn]
    writes it. *)

Fixpoint unlink_after (fuel : nat) (next : pageref -> option nat)
    (setn : option nat -> pageref -> pageref) (cur pr : nat) : M kheap unit :=
  match fuel with
  | O => spin
  | S fuel =>
      c <- pr_at cur ;;
      match next c with
      | None => ret tt
      | Some j =>
          if (j =? pr)%nat then p <- pr_at pr ;; pr_set cur (setn (next p))
          else unlink_after fuel next setn j pr
      end
  end.

Definition unlink_samesize (pr : nat) (blktype : Z) : M kheap unit :=
  h <- get ;;
  match sizebases h !! Z.to_nat blktype with
  | None => panic
  | Some None => ret tt
  | Some (Some j) =>
      if (j =? pr)%nat then
        p <- pr_at pr ;;
        modify (with_sizebases (<[Z.to_nat blktype := next_samesize p]> (sizebases h)))
      else unlink_after NPAGEREFS next_samesize set_samesize j pr
  end.

Definition unlink_all (pr : nat) : M kheap unit :=
  h <- get ;;
  match allbase h with
  | None => ret tt
  | Some j =>
      if (j =? pr)%nat then p <- pr_at pr ;; modify (with_allbase (next_all p))
      else unlink_after NPAGEREFS next_all set_all j pr
  end.

Definition remove_lists (pr : nat) (blktype : Z) : M kheap unit :=
  assert ((blktype >=? 0) && (blktype <? NSIZES)) ;;;
  unlink_samesize pr blktype ;;;
  unlink_all pr.

Definition blocktype (sz : Z) : M kheap Z :=
  r <- for_find (seqZ 0 NSIZES) (fun i =>
         ret (if sz <=? size_at i then Some i else None)) ;;
  match r with Some i => ret i | None => panic end.

(** *** Allocation *)

(** The label [doalloc]: take the first block of page [i]'s free list. *)
Definition doalloc (i : nat) : M kheap Z :=
  pr <- pr_at i ;;
  assert (freelist_offset pr <? PAGE_SIZE) ;;;
  let prpage := PR_PAGEADDR pr in
  let fla := u32 (prpage + freelist_offset pr) in
  fl <- load fla ;;
  let n := u16 (nfree pr - 1) in
  (if negb (fl =? 0) then
     assert (n >? 0) ;;;
     assert (u32 (fl - prpage) <? PAGE_SIZE) ;;;
     pr_set i (set_free (u16 (fl - prpage)) n)
   else
     assert (n =? 0) ;;;
     pr_set i (set_free INVALID_OFFSET n)) ;;;
  ret fla.

(** The loop over the pages of one size. *)
Fixpoint find_page (fuel : nat) (pr : option nat) (blktype : Z) : M kheap (option nat) :=
  match pr, fuel with
  | None, _ => ret None
  | Some _, O => spin
  | Some i, S fuel =>
      p <- pr_at i ;;
      assert (PR_BLOCKTYPE p =? blktype) ;;;
      if nfree p >? 0 then ret (Some i) else find_page fuel (next_samesize p) blktype
  end.

(** Thread the free list through the [n] blocks of a fresh page: the last block
    is its head. *)
Definition link_blocks (fla sz n : Z) : M kheap Z :=
  store fla 0 ;;;
  for_each (seqZ 1 (n - 1)) (fun i =>
    let fl := u32 (fla + i * sz) in
    let nx := u32 (fla + (i - 1) * sz) in
    store fl nx ;;;
    assert (negb (fl =? nx))) ;;;
  ret (if n >? 1 then u32 (fla + (n - 1) * sz) else fla).

Context `{PageAlloc P} `{HasCpu P}.

#[export] Program Instance kheap_has_cpu : HasCpu kheap := {
  cpu_of := fun h => cpu_of (pg h);
  with_cpu := fun c h => with_pg (with_cpu c (pg h)) h;
}.
Next Obligation. intros. simpl. apply cpu_of_with. Qed.
Next Obligation. intros []; unfold with_pg; simpl. by rewrite with_cpu_of. Qed.
Next Obligation. intros. unfold with_pg; simpl. by rewrite with_cpu_with. Qed.

Definition on_pg {A} (m : M P A) : M kheap A := zoom pg with_pg m.

Definition subpage_kmalloc (sz : Z) : M kheap Z :=
  blktype <- blocktype sz ;;
  let sz := size_at blktype in
  spl <- splhigh ;;
  h <- get ;;
  match sizebases h !! Z.to_nat blktype with
  | None => panic
  | Some base =>
      found <- find_page (S NPAGEREFS) base blktype ;;
      match found with
      | Some i => p <- doalloc i ;; splx spl ;;; ret p
      | None =>
          pr <- allocpageref ;;
          match pr with
          | None => splx spl ;;; ret 0
          | Some i =>
              prpage <- on_pg (page_alloc 1) ;;
              if prpage =? 0 then
                freepageref i ;;; splx spl ;;; ret 0
              else
                let n := u16 (PAGE_SIZE / sz) in
                pr_set i (set_page (MKPAB prpage blktype)) ;;;
                pr_set i (set_nfree n) ;;;
                fl <- link_blocks prpage sz n ;;
                let off := u16 (fl - prpage) in
                pr_set i (set_offset off) ;;;
                assert (off =? (n - 1) * sz) ;;;
                modify (fun h => with_pagerefs
                  (alter (set_samesize (default None (sizebases h !! Z.to_nat blktype))) i (pagerefs h)) h) ;;;
                modify (fun h => with_sizebases (<[Z.to_nat blktype := Some i]> (sizebases h)) h) ;;;
                modify (fun h => with_pagerefs (alter (set_all (allbase h)) i (pagerefs h)) h) ;;;
                modify (with_allbase (Some i)) ;;;
                p <- doalloc i ;; splx spl ;;; ret p
          end
      end
  end.

(** *** Release *)

(** The page that [ptraddr] lies on. *)
Fixpoint find_owner (fuel : nat) (pr : option nat) (ptraddr : Z) : M kheap (option nat) :=
  match pr, fuel with
  | None, _ => ret None
  | Some _, O => spin
  | Some i, S fuel =>
      p <- pr_at i ;;
      let prpage := PR_PAGEADDR p in
      let blktype := PR_BLOCKTYPE p in
      assert ((blktype >=? 0) && (blktype <? NSIZES)) ;;;
      if (ptraddr >=? prpage) && (ptraddr <? u32 (prpage + PAGE_SIZE)) then ret (Some i)
      else find_owner fuel (next_all p) ptraddr
  end.

Definition fill_deadbeef (vptr len : Z) : M kheap unit :=
  for_each (seqZ 0 (len / 4)) (fun i => store (u32 (vptr + 4 * i)) 0xdeadbeef).

(** Returns 0, or -1 when [ptr] is not on a page of the subpage allocator. *)
Definition subpage_kfree (ptraddr : Z) : M kheap Z :=
  spl <- splhigh ;;
  h <- get ;;
  found <- find_owner (S NPAGEREFS) (allbase h) ptraddr ;;
  match found with
  | None => splx spl ;;; ret (-1)
  | Some i =>
      pr <- pr_at i ;;
      let prpage := PR_PAGEADDR pr in
      let blktype := PR_BLOCKTYPE pr in
      let offset := u32 (ptraddr - prpage) in
      if (offset >=? PAGE_SIZE) || negb (offset mod size_at blktype =? 0) then panic
      else
        fill_deadbeef ptraddr (size_at blktype) ;;;
        (if freelist_offset pr =? INVALID_OFFSET then store (u32 (prpage + offset)) 0
         else store (u32 (prpage + offset)) (u32 (prpage + freelist_offset pr))) ;;;
        let n := u16 (nfree pr + 1) in
        pr_set i (set_free (u16 offset) n) ;;;
        assert (n <=? PAGE_SIZE / size_at blktype) ;;;
        (if n =? PAGE_SIZE / size_at blktype then
           remove_lists i blktype ;;;
           on_pg (page_free prpage) ;;;
           freepageref i
         else ret tt) ;;;
        splx spl ;;;
        ret 0
  end.

(** *** kmalloc and kfree *)

Definition kmalloc (sz : Z) : M kheap Z :=
  if sz >=? LARGEST_SUBPAGE_SIZE then
    let npages := u32 (sz + PAGE_SIZE - 1) / PAGE_SIZE in
    on_pg (page_alloc npages)
  else subpage_kmalloc sz.

Definition kfree (ptr : Z) : M kheap unit :=
  if ptr =? 0 then ret tt
  else
    r <- subpage_kfree ptr ;;
    if negb (r =? 0) then
      assert (ptr mod PAGE_SIZE =? 0) ;;;
      on_pg (page_free ptr)
    else ret tt.

(** *** The consistency checks of [SLOW] and [SLOWER] *)

(** The free list of a page, from address [fl] on. *)
Fixpoint count_free (fuel : nat) (prpage sz fl cnt : Z) : M kheap Z :=
  if fl =? 0 then ret cnt
  else match fuel with
  | O => spin
  | S fuel =>
      assert ((fl >=? prpage) && (fl <? u32 (prpage + PAGE_SIZE))) ;;;
      assert ((fl - prpage) mod sz =? 0) ;;;
      assert (fl >=? MIPS_KSEG0) ;;;
      assert (fl <? MIPS_KSEG1) ;;;
      nx <- load fl ;;
      count_free fuel prpage sz nx (cnt + 1)
  end.

Definition checksubpage (i : nat) : M kheap unit :=
  c <- gets cpu_of ;;
  assert (curspl c >? 0) ;;;
  pr <- pr_at i ;;
  if freelist_offset pr =? INVALID_OFFSET then assert (nfree pr =? 0)
  else
    let prpage := PR_PAGEADDR pr in
    let sz := size_at (PR_BLOCKTYPE pr) in
    assert (freelist_offset pr <? PAGE_SIZE) ;;;
    assert (freelist_offset pr mod sz =? 0) ;;;
    n <- count_free (S NPAGEREFS) prpage sz (u32 (prpage + freelist_offset pr)) 0 ;;
    assert (n =? nfree pr).

(** One of the two walks: every page is checked and counted. *)
Fixpoint check_list (fuel : nat) (next : pageref -> option nat) (pr : option nat) (cnt : Z)
    : M kheap Z :=
  match pr, fuel with
  | None, _ => ret cnt
  | Some _, O => spin
  | Some i, S fuel =>
      checksubpage i ;;;
      assert (cnt <? Z.of_nat NPAGEREFS) ;;;
      p <- pr_at i ;;
      check_list fuel next (next p) (cnt + 1)
  end.

Fixpoint check_sizes (bases : list (option nat)) (cnt : Z) : M kheap Z :=
  match bases with
  | [] => ret cnt
  | b :: bases =>
      cnt <- check_list (S NPAGEREFS) next_samesize b cnt ;;
      check_sizes bases cnt
  end.

Definition checksubpages : M kheap unit :=
  c <- gets cpu_of ;;
  assert (curspl c >? 0) ;;;
  h <- get ;;
  sc <- check_sizes (sizebases h) 0 ;;
  ac <- check_list (S NPAGEREFS) next_all (allbase h) 0 ;;
  assert (sc =? ac).

End kheap.
Arguments kheap : clear implicits.

(** ** Representation *)

(** A page under management: its [pageref], block type, address and the offsets
    of its free blocks in free-list order. *)
Record node := mk_node {
  nd_ref : nat;
  nd_blk : Z;
  nd_page : Z;
  nd_free : list Z;
}.

Definition with_free (fl : list Z) (n : node) : node :=
  mk_node (nd_ref n) (nd_blk n) (nd_page n) fl.

Definition valid_off (blk o : Z) : Prop := 0 <= o < 4096 /\ o mod size_at blk = 0.

(** The links of a free list, as words in its blocks. *)
Fixpoint flinks (w : gmap Z Z) (page : Z) (fl : list Z) : Prop :=
  match fl with
  | [] => True
  | o :: fl =>
      w !! (page + o) = Some (match fl with [] => 0 | o' :: _ => page + o' end) /\
      flinks w page fl
  end.

Definition first_free (fl : list Z) : Z :=
  match fl with [] => INVALID_OFFSET | o :: _ => o end.

(** The words of a [pageref] that describe its page. *)
Definition core (pr : pageref) : Z * Z * Z :=
  (pageaddr_and_blocktype pr, freelist_offset pr, nfree pr).

Definition node_ok (prs : list pageref) (w : gmap Z Z) (n : node) : Prop :=
  core <$> prs !! nd_ref n =
    Some (nd_page n + nd_blk n, first_free (nd_free n), Z.of_nat (length (nd_free n))) /\
  0 <= nd_blk n < 8 /\ MIPS_KSEG0 <= nd_page n /\ nd_page n mod 4096 = 0 /\
  nd_page n + 4096 <= MIPS_KSEG1 /\
  NoDup (nd_free n) /\ Forall (valid_off (nd_blk n)) (nd_free n) /\
  flinks w (nd_page n) (nd_free n).

(** A list of [pageref]s threaded through [next]. *)
Fixpoint chain (next : pageref -> option nat) (prs : list pageref) (s : option nat)
    (l : list nat) : Prop :=
  match l with
  | [] => s = None
  | i :: l => s = Some i /\ exists pr, prs !! i = Some pr /\ chain next prs (next pr) l
  end.

Definition of_blk (b : Z) (ns : list node) : list node := filter (fun n => nd_blk n = b) ns.
Definition bit_used (ws : list Z) (i : nat) : bool :=
  Z.testbit (default 0 (ws !! (i / 32)%nat)) (Z.of_nat (i mod 32)).

(** The pages are those on the list of all pages, and their [pageref]s are the ones
    in use; each size list has the pages of that size in the same order. *)
Definition tables_ok {P} (h : kheap P) (ns : list node) : Prop :=
  length (pagerefs h) = NPAGEREFS /\
  length (pagerefs_inuse h) = INUSE_WORDS /\
  Forall (fun w => 0 <= w < 2 ^ 32) (pagerefs_inuse h) /\
  NoDup (nd_ref <$> ns) /\
  (forall i, (i < NPAGEREFS)%nat -> bit_used (pagerefs_inuse h) i = true <-> i ∈ nd_ref <$> ns) /\
  chain next_all (pagerefs h) (allbase h) (nd_ref <$> ns) /\
  length (sizebases h) = 8%nat /\
  (forall b s, sizebases h !! Z.to_nat b = Some s -> 0 <= b ->
     chain next_samesize (pagerefs h) s (nd_ref <$> of_blk b ns)).

(** [L] is what clients hold (address and size asked for), [G] the page
    allocator's ledger, [F] the part of [G] that other users of the page allocator
    hold. *)
Definition small_block (ns : list node) (p sz : Z) : Prop :=
  exists n o, n ∈ ns /\ p = nd_page n + o /\ valid_off (nd_blk n) o /\ o ∉ nd_free n /\
    sz <= size_at (nd_blk n).

Record ledger_ok (ns : list node) (L G F : gmap Z Z) : Prop := {
  lo_page : forall n, n ∈ ns -> G !! nd_page n = Some 1;
  lo_nodup : NoDup (nd_page <$> ns);
  lo_nonneg : forall p sz, L !! p = Some sz -> 0 <= sz < 2 ^ 31;
  lo_small : forall p sz, L !! p = Some sz -> sz < LARGEST_SUBPAGE_SIZE -> small_block ns p sz;
  lo_large : forall p sz, L !! p = Some sz -> LARGEST_SUBPAGE_SIZE <= sz ->
    G !! p = Some (DIVROUNDUP sz 4096) /\ p ∉ nd_page <$> ns;
  lo_used : forall n o, n ∈ ns -> valid_off (nd_blk n) o -> o ∉ nd_free n ->
    exists sz, L !! (nd_page n + o) = Some sz /\ sz < LARGEST_SUBPAGE_SIZE;
  lo_foreign : forall a k, F !! a = Some k -> G !! a = Some k /\ a ∉ (nd_page <$> ns) /\
    forall sz, L !! a = Some sz -> sz < LARGEST_SUBPAGE_SIZE;
  lo_cover : forall a k, G !! a = Some k ->
    a ∈ nd_page <$> ns \/ (exists sz, L !! a = Some sz /\ LARGEST_SUBPAGE_SIZE <= sz) \/
    F !! a = Some k;
}.

(** No page is entirely free: such pages go back to the page allocator. *)
Definition in_part (n : node) : Prop := Z.of_nat (length (nd_free n)) < 4096 / size_at (nd_blk n).

Definition kheap_rep {P} `{PageLaws P} (h : kheap P) (L F : gmap Z Z) : Prop :=
  exists ns G, tables_ok h ns /\ Forall (node_ok (pagerefs h) (words h)) ns /\
    Forall in_part ns /\ ledger_ok ns L G F /\ pages_ok (pg h) G.

(** ** Block sizes and page words *)

Lemma size_at_pow b : 0 <= b < 8 -> size_at b = 2 ^ (b + 4).
Proof.
  intros Hb. assert (b ∈ seqZ 0 8) as Hin by (apply elem_of_seqZ; lia). clear Hb.
  vm_compute in Hin. repeat (apply elem_of_cons in Hin as [->|Hin]; [done|]).
  by apply elem_of_nil in Hin.
Qed.

Lemma size_at_facts b : 0 <= b < 8 ->
  16 <= size_at b <= 2048 /\ size_at b * (4096 / size_at b) = 4096 /\
  2 <= 4096 / size_at b <= 256 /\ size_at b mod 16 = 0.
Proof.
  intros Hb. assert (b ∈ seqZ 0 8) as Hin by (apply elem_of_seqZ; lia). clear Hb.
  vm_compute in Hin. repeat (apply elem_of_cons in Hin as [->|Hin]; [vm_compute; intuition congruence|]).
  by apply elem_of_nil in Hin.
Qed.

Lemma pab_page page blk : 0 <= page < 2 ^ 32 -> page mod 4096 = 0 -> 0 <= blk < 4096 ->
  Z.land (page + blk) PAGE_FRAME = page.
Proof.
  intros Hp Hal Hb. pose proof (Z.div_mod page 4096 ltac:(lia)).
  rewrite PAGE_FRAME_land by lia.
  replace (page + blk) with (blk + page / 4096 * 4096) by lia.
  rewrite Z.div_add, (Z.div_small blk) by lia. lia.
Qed.

Lemma pab_blk page blk : page mod 4096 = 0 -> 0 <= blk < 4096 ->
  Z.land (page + blk) 0xfff = blk.
Proof.
  intros Hal Hb. change 0xfff with (Z.ones 12). rewrite Z.land_ones by lia.
  change (2 ^ 12) with 4096. rewrite Zplus_mod, Hal, (Z.mod_small blk) by lia.
  rewrite Z.add_0_l. by apply Z.mod_small.
Qed.

Lemma MKPAB_eq page blk : 0 <= page < 2 ^ 32 -> page mod 4096 = 0 -> 0 <= blk < 4096 ->
  MKPAB page blk = page + blk.
Proof.
  intros Hp Hal Hb. unfold MKPAB.
  rewrite PAGE_FRAME_land by done. pose proof (Z.div_mod page 4096 ltac:(lia)).
  replace (4096 * (page / 4096)) with page by lia.
  rewrite <- (pab_blk 0 blk) at 2 by done. rewrite Z.add_0_l.
  rewrite <- Z.add_lor_land. change 0xfff with (Z.ones 12).
  assert (Z.land page (Z.land blk (Z.ones 12)) = 0) as ->; [|lia].
  rewrite (Z.land_comm blk), Z.land_assoc, Z.land_ones by lia.
  change (2 ^ 12) with 4096. by rewrite Hal, Z.land_0_l.
Qed.

(** ** The blocks of a page *)

(** The offsets of the first [k] blocks, highest first: the free list of a fresh
    page. *)
Fixpoint down (k : nat) (sz : Z) : list Z :=
  match k with O => [] | S k => Z.of_nat k * sz :: down k sz end.

Lemma elem_of_down k sz o : o ∈ down k sz <-> exists q, 0 <= q < Z.of_nat k /\ o = q * sz.
Proof.
  induction k as [|k IH]; simpl.
  - rewrite elem_of_nil. split; [done|]. intros (q & ? & _). lia.
  - rewrite elem_of_cons, IH. split.
    + intros [->|(q & ? & ->)]; [exists (Z.of_nat k)|exists q]; (split; [lia|done]).
    + intros (q & Hq & ->). destruct (decide (q = Z.of_nat k)) as [->|]; [by left|right].
      exists q. split; [lia|done].
Qed.

Lemma down_length k sz : length (down k sz) = k.
Proof. induction k; simpl; congruence. Qed.

Lemma down_NoDup k sz : 0 < sz -> NoDup (down k sz).
Proof.
  intros Hsz. induction k as [|k IH]; simpl; [constructor|]. apply NoDup_cons. split; [|done].
  intros (q & ? & He)%elem_of_down. apply Z.mul_reg_r in He; lia.
Qed.

Definition nblocks (blk : Z) : nat := Z.to_nat (4096 / size_at blk).

Lemma valid_off_down blk o : 0 <= blk < 8 ->
  valid_off blk o <-> o ∈ down (nblocks blk) (size_at blk).
Proof.
  intros Hb. destruct (size_at_facts blk Hb) as (? & Hmul & ? & _).
  rewrite elem_of_down. unfold valid_off, nblocks. split.
  - intros [Ho Hm]. exists (o / size_at blk).
    pose proof (Z.div_mod o (size_at blk) ltac:(lia)). split; [|lia].
    rewrite Z2Nat.id by lia. split; [apply Z.div_pos; lia|].
    apply Z.div_lt_upper_bound; lia.
  - intros (q & Hq & ->). rewrite Z2Nat.id in Hq by lia.
    split; [nia|]. apply Z.mod_mul. lia.
Qed.

(** Distinct blocks of a page: there are no more than [nblocks], and if there are
    that many they are all of them. *)
Lemma valid_offs_bound blk fl : 0 <= blk < 8 -> NoDup fl -> Forall (valid_off blk) fl ->
  (length fl <= nblocks blk)%nat /\
  (length fl = nblocks blk -> forall o, valid_off blk o -> o ∈ fl).
Proof.
  intros Hb Hnd Hv.
  assert (fl ⊆+ down (nblocks blk) (size_at blk)) as Hsub.
  { apply NoDup_submseteq; [done|]. intros o Ho. rewrite <- valid_off_down by done.
    rewrite Forall_forall in Hv. by apply Hv. }
  split.
  - apply submseteq_length in Hsub. by rewrite down_length in Hsub.
  - intros Hlen o Ho. apply submseteq_length_Permutation in Hsub.
    + rewrite Hsub. by apply valid_off_down.
    + rewrite down_length. lia.
Qed.

(** Blocks of one size do not overlap. *)
Lemma valid_off_apart blk o o' : 0 <= blk < 8 -> valid_off blk o -> valid_off blk o' -> o <> o' ->
  o + size_at blk <= o' \/ o' + size_at blk <= o.
Proof.
  intros Hb [? Hm] [? Hm'] Hne. destruct (size_at_facts blk Hb) as (? & _).
  pose proof (Z.div_mod o (size_at blk) ltac:(lia)).
  pose proof (Z.div_mod o' (size_at blk) ltac:(lia)).
  set (q := o / size_at blk) in *. set (q' := o' / size_at blk) in *.
  destruct (Z.lt_total q q') as [?|[Heq|?]]; [left; nia|rewrite Heq in *; lia|right; nia].
Qed.

Lemma valid_off_end blk o : 0 <= blk < 8 -> valid_off blk o -> o + size_at blk <= 4096.
Proof.
  intros Hb [? Hm]. destruct (size_at_facts blk Hb) as (? & Hmul & _).
  pose proof (Z.div_mod o (size_at blk) ltac:(lia)).
  set (q := o / size_at blk) in *. set (n := 4096 / size_at blk) in *.
  assert (q + 1 <= n) by nia. nia.
Qed.

(** ** Lists of pagerefs *)

(** Two tables that agree on field [f]. *)
Definition prs_sim {A} (f : pageref -> A) (prs prs' : list pageref) : Prop :=
  forall i, f <$> prs !! i = f <$> prs' !! i.

Lemma alter_sim {A} (f : pageref -> A) g i prs :
  (forall pr, f (g pr) = f pr) -> prs_sim f prs (alter g i prs).
Proof.
  intros Hf j. destruct (decide (j = i)) as [->|].
  - rewrite list_lookup_alter_eq. destruct (prs !! i); simpl; by rewrite ?Hf.
  - by rewrite list_lookup_alter_ne.
Qed.

Lemma chain_agree next prs prs' s l :
  (forall i, i ∈ l -> next <$> prs !! i = next <$> prs' !! i) ->
  chain next prs s l -> chain next prs' s l.
Proof.
  revert s. induction l as [|i l IH]; intros s Ha; [done|]. simpl.
  intros (-> & pr & Hpr & Hc). split; [done|].
  pose proof (Ha i ltac:(set_solver)) as Hi. rewrite Hpr in Hi. simpl in Hi.
  symmetry in Hi. apply fmap_Some in Hi as (pr' & Hpr' & He).
  exists pr'. split; [done|]. rewrite <- He. apply IH; [|done]. set_solver.
Qed.

Lemma chain_sim next prs prs' s l :
  prs_sim next prs prs' -> chain next prs s l -> chain next prs' s l.
Proof. intros Hs. apply chain_agree. intros i _. apply Hs. Qed.

Lemma chain_alter_ne next g i prs s l :
  i ∉ l -> chain next prs s l -> chain next (alter g i prs) s l.
Proof.
  intros Hi. apply chain_agree. intros j Hj. rewrite list_lookup_alter_ne; [done|]. congruence.
Qed.

Lemma chain_lookup next prs s l i : chain next prs s l -> i ∈ l -> exists pr, prs !! i = Some pr.
Proof.
  revert s. induction l as [|j l IH]; intros s; simpl; [set_solver|].
  intros (-> & pr & ? & ?) [->|?]%elem_of_cons; eauto.
Qed.

Lemma node_ok_sim prs prs' w n : prs_sim core prs prs' -> node_ok prs w n -> node_ok prs' w n.
Proof. intros Hs. unfold node_ok. by rewrite (Hs (nd_ref n)). Qed.

Lemma node_ok_alter_ne prs w g i n : i <> nd_ref n -> node_ok prs w n -> node_ok (alter g i prs) w n.
Proof. intros Hi. unfold node_ok. by rewrite list_lookup_alter_ne. Qed.

Lemma node_ok_lookup prs w n : node_ok prs w n -> exists pr, prs !! nd_ref n = Some pr /\
  PR_PAGEADDR pr = nd_page n /\ PR_BLOCKTYPE pr = nd_blk n /\
  freelist_offset pr = first_free (nd_free n) /\ nfree pr = Z.of_nat (length (nd_free n)).
Proof.
  intros (Hc & Hb & Hlo & Hal & Hhi & _). apply fmap_Some in Hc as (pr & Hpr & Hc).
  unfold core in Hc. injection Hc as Hpab Hoff Hn. exists pr.
  unfold PR_PAGEADDR, PR_BLOCKTYPE, MIPS_KSEG0, MIPS_KSEG1 in *. rewrite <- Hpab.
  rewrite pab_page, pab_blk by (done || lia). by split_and!.
Qed.

Lemma flinks_agree w w' page fl :
  (forall o, o ∈ fl -> w' !! (page + o) = w !! (page + o)) ->
  flinks w page fl -> flinks w' page fl.
Proof.
  induction fl as [|o fl IH]; intros Ha; [done|]. simpl. intros [Ho Hl].
  split; [rewrite Ha; [done|set_solver]|]. apply IH; [|done]. set_solver.
Qed.

(** ** The in-use bitmap *)

Definition bits_ok (ws : list Z) : Prop :=
  length ws = INUSE_WORDS /\ Forall (fun w => 0 <= w < 2 ^ 32) ws.

Definition bit_put (f : Z -> Z -> Z) (ws : list Z) (p : nat) : list Z :=
  alter (fun w => f w (2 ^ Z.of_nat (p mod 32))) (p / 32)%nat ws.

Definition clear_word (w k : Z) : Z := Z.land w (u32 (Z.lnot k)).

Lemma div_mod_32 i p : (i / 32 = p / 32 -> i mod 32 = p mod 32 -> i = p)%nat.
Proof.
  intros Hd Hm. rewrite (Nat.div_mod_eq i 32), (Nat.div_mod_eq p 32). congruence.
Qed.

Lemma bits_word ws i : bits_ok ws -> (i < NPAGEREFS)%nat ->
  exists w, ws !! (i / 32)%nat = Some w /\ 0 <= w < 2 ^ 32.
Proof.
  intros [Hl Hw] Hi. destruct (lookup_lt_is_Some_2 ws (i / 32)) as [w Hlk].
  - rewrite Hl. unfold NPAGEREFS, INUSE_WORDS in *. apply Nat.Div0.div_lt_upper_bound. lia.
  - exists w. split; [done|]. rewrite Forall_lookup in Hw. by eapply Hw.
Qed.

(** Writing bit [p] of the bitmap. *)
Lemma bit_put_used f (b : bool) ws p i :
  (forall w k j, 0 <= w < 2 ^ 32 -> 0 <= k < 32 -> 0 <= j < 32 ->
     Z.testbit (f w (2 ^ k)) j = if j =? k then b else Z.testbit w j) ->
  bits_ok ws -> (p < NPAGEREFS)%nat -> (i < NPAGEREFS)%nat ->
  bit_used (bit_put f ws p) i = if decide (i = p) then b else bit_used ws i.
Proof.
  intros Hf Hok Hp Hi. unfold bit_used, bit_put.
  destruct (bits_word ws p Hok Hp) as (w & Hw & Hr).
  pose proof (Nat.mod_upper_bound i 32 ltac:(lia)). pose proof (Nat.mod_upper_bound p 32 ltac:(lia)).
  destruct (decide (i / 32 = p / 32)%nat) as [Hd|Hd].
  - rewrite Hd, list_lookup_alter_eq, Hw. cbn -[Nat.modulo Nat.div Z.of_nat]. rewrite Hf by lia.
    destruct (decide (i = p)) as [->|Hne]; [by rewrite Z.eqb_refl|].
    rewrite (proj2 (Z.eqb_neq _ _)); [done|].
    intros Hm. apply Hne, div_mod_32; [done|by apply Nat2Z.inj].
  - rewrite list_lookup_alter_ne by done.
    destruct (decide (i = p)) as [->|]; [done|done].
Qed.

Lemma bit_put_ok f ws p :
  (forall w k, 0 <= w < 2 ^ 32 -> 0 <= k < 32 -> 0 <= f w (2 ^ k) < 2 ^ 32) ->
  bits_ok ws -> bits_ok (bit_put f ws p).
Proof.
  intros Hf [Hl Hw]. unfold bit_put. split; [by rewrite length_alter|].
  rewrite Forall_lookup in Hw. apply Forall_lookup. intros j w.
  pose proof (Nat.mod_upper_bound p 32 ltac:(lia)).
  rewrite list_lookup_alter. case_decide; [|apply Hw].
  intros (w' & ? & ->)%fmap_Some. apply Hf; [by eapply Hw|lia].
Qed.

Lemma set_word_bit w k j : 0 <= w < 2 ^ 32 -> 0 <= k < 32 -> 0 <= j < 32 ->
  Z.testbit (Z.lor w (2 ^ k)) j = if j =? k then true else Z.testbit w j.
Proof. intros. rewrite lor_pow2_bit by lia. by destruct (j =? k). Qed.

Lemma clear_word_bit w k j : 0 <= w < 2 ^ 32 -> 0 <= k < 32 -> 0 <= j < 32 ->
  Z.testbit (clear_word w (2 ^ k)) j = if j =? k then false else Z.testbit w j.
Proof.
  intros. unfold clear_word, u32. rewrite Z.land_spec, Z.mod_pow2_bits_low by lia.
  rewrite <- Z.land_spec, land_lnot_pow2_bit by lia. by destruct (j =? k).
Qed.

Lemma set_word_range w k : 0 <= w < 2 ^ 32 -> 0 <= k < 32 -> 0 <= Z.lor w (2 ^ k) < 2 ^ 32.
Proof.
  intros Hw Hk. assert (0 <= 2 ^ k < 2 ^ 32) as Hp.
  { split; [apply Z.pow_nonneg; lia|apply Z.pow_lt_mono_r; lia]. }
  split; [apply Z.lor_nonneg; lia|].
  destruct (decide (Z.lor w (2 ^ k) = 0)) as [->|Hne]; [done|].
  apply Z.log2_lt_pow2; [pose proof (proj2 (Z.lor_nonneg w (2 ^ k)) ltac:(lia)); lia|].
  rewrite Z.log2_lor by lia. apply Z.max_lub_lt.
  - destruct (decide (w = 0)) as [->|]; [done|]. apply Z.log2_lt_pow2; lia.
  - rewrite Z.log2_pow2; lia.
Qed.

Lemma clear_word_range w k : 0 <= w < 2 ^ 32 -> 0 <= k < 32 -> 0 <= clear_word w (2 ^ k) < 2 ^ 32.
Proof.
  intros Hw Hk. unfold clear_word. pose proof (u32_range (Z.lnot (2 ^ k))).
  split; [apply Z.land_nonneg; lia|].
  destruct (decide (Z.land w (u32 (Z.lnot (2 ^ k))) = 0)) as [->|]; [done|].
  pose proof (proj2 (Z.land_nonneg w (u32 (Z.lnot (2 ^ k)))) ltac:(lia)).
  apply Z.log2_lt_pow2; [lia|].
  eapply Z.le_lt_trans; [apply Z.log2_land; lia|]. apply Z.min_lt_iff. left.
  destruct (decide (w = 0)) as [->|]; [done|]. apply Z.log2_lt_pow2; lia.
Qed.

(** A word that is not all ones has a lowest clear bit. *)
Lemma lowest_clear w : 0 <= w < 2 ^ 32 -> w <> 0xffffffff ->
  exists k, 0 <= k < 32 /\ Z.testbit w k = false /\ forall j, 0 <= j < k -> Z.testbit w j = true.
Proof.
  intros Hw Hne. destruct (least_false (Z.testbit w) 32) as [Hall|Hex]; [exfalso|done].
  apply Hne. change 0xffffffff with (Z.ones 32). apply Z.bits_inj'. intros j Hj.
  destruct (decide (j < 32)).
  - rewrite Hall, Z.ones_spec_low by lia. done.
  - rewrite Z.ones_spec_high by lia. rewrite <- (Z.mod_small w (2 ^ 32)) by lia.
    apply Z.mod_pow2_bits_high. lia.
Qed.

Section kheap_proofs.
Context {P : Type}.
Implicit Types (h : kheap P) (ns : list node).

Lemma pr_at_eq h i pr : pagerefs h !! i = Some pr -> pr_at i h = (Ret pr, h).
Proof. intros Hp. unfold pr_at, bind, get. by rewrite Hp. Qed.

Lemma load_eq h a v : words h !! a = Some v -> load a h = (Ret v, h).
Proof. intros Hp. unfold load, bind, get. by rewrite Hp. Qed.

(** The loop of [remove_lists] after the head of the list. *)
Lemma unlink_after_spec next setn l1 : forall fuel h cur pr l2,
  (forall q p, next (setn q p) = q) ->
  chain next (pagerefs h) (Some cur) (cur :: l1 ++ pr :: l2) ->
  NoDup (cur :: l1 ++ pr :: l2) -> (length l1 < fuel)%nat ->
  exists c q, c ∈ cur :: l1 /\
    unlink_after fuel next setn cur pr h =
      (Ret tt, with_pagerefs (alter (setn q) c (pagerefs h)) h) /\
    chain next (alter (setn q) c (pagerefs h)) (Some cur) (cur :: l1 ++ l2).
Proof.
  induction l1 as [|j l1 IH]; intros [|fuel] h cur pr l2 Hset Hc Hnd Hf; [lia| |lia|].
  - destruct Hc as (_ & pc & Hpc & Hp & pp & Hpp & Hc).
    exists cur, (next pp). split; [set_solver|]. cbn [app] in *.
    split.
    + simpl. unfold bind. rewrite (pr_at_eq _ _ _ Hpc), Hp, Nat.eqb_refl.
      by rewrite (pr_at_eq _ _ _ Hpp).
    + simpl. split; [done|]. exists (setn (next pp) pc).
      rewrite list_lookup_alter_eq, Hpc, Hset. split; [done|].
      apply chain_alter_ne; [|done]. apply NoDup_cons in Hnd as [Hnd _]. set_solver.
  - destruct Hc as (_ & pc & Hpc & Hc). cbn [app] in *.
    pose proof Hnd as [Hcur Hnd']%NoDup_cons.
    destruct (IH fuel h j pr l2) as (c & q & Hin & He & Hch); [done| |done|simpl in Hf; lia|].
    { destruct Hc as [_ Hc]. by split. }
    assert (c <> cur) by set_solver.
    exists c, q. split; [set_solver|]. split.
    + simpl. unfold bind at 1. rewrite (pr_at_eq _ _ _ Hpc).
      destruct Hc as [-> Hc]. destruct (Nat.eqb_spec j pr) as [->|]; [|done].
      apply NoDup_cons in Hnd' as [Hnd' _]. set_solver.
    + split; [done|]. exists pc. rewrite list_lookup_alter_ne by done. split; [done|].
      by rewrite (proj1 Hc).
Qed.

(** ** The search loops *)

Lemma find_page_spec l : forall fuel h s b,
  chain next_samesize (pagerefs h) s (nd_ref <$> l) ->
  Forall (node_ok (pagerefs h) (words h)) l -> Forall (fun n => nd_blk n = b) l ->
  (length l < fuel)%nat ->
  (exists l1 n l2, l = l1 ++ n :: l2 /\ nd_free n <> [] /\
     find_page fuel s b h = (Ret (Some (nd_ref n)), h)) \/
  (Forall (fun n => nd_free n = []) l /\ find_page fuel s b h = (Ret None, h)).
Proof.
  induction l as [|n l IH]; intros [|fuel] h s b Hc Hn Hb Hf; simpl in Hf; try lia.
  - right. simpl in Hc. by rewrite Hc.
  - destruct Hc as (-> & pr & Hpr & Hc). apply Forall_cons in Hn as [Hn Hns].
    apply Forall_cons in Hb as [<- Hbs].
    destruct (node_ok_lookup _ _ _ Hn) as (pr' & Hpr' & _ & Hblk & _ & Hfree).
    assert (pr = pr') as -> by congruence.
    assert (find_page (S fuel) (Some (nd_ref n)) (nd_blk n) h =
      if nfree pr' >? 0 then (Ret (Some (nd_ref n)), h)
      else find_page fuel (next_samesize pr') (nd_blk n) h) as Heq.
    { simpl. unfold bind at 1. rewrite (pr_at_eq _ _ _ Hpr).
      unfold bind, assert. rewrite Hblk, Z.eqb_refl. by destruct (_ >? _). }
    rewrite Heq, Hfree. destruct (nd_free n) as [|o fl] eqn:Efl.
    + destruct (IH fuel h (next_samesize pr') (nd_blk n)) as
        [(l1 & n' & l2 & -> & ? & ->)|(? & ->)]; [done..|lia| |].
      * left. by exists (n :: l1), n', l2.
      * right. split; [by constructor|done].
    + left. exists [], n, l. simpl length. zbool. by rewrite Efl.
Qed.

Lemma find_owner_spec l : forall fuel h s p,
  chain next_all (pagerefs h) s (nd_ref <$> l) ->
  Forall (node_ok (pagerefs h) (words h)) l -> (length l < fuel)%nat ->
  (exists n, n ∈ l /\ nd_page n <= p < nd_page n + 4096 /\
     find_owner fuel s p h = (Ret (Some (nd_ref n)), h)) \/
  ((forall n, n ∈ l -> ~ (nd_page n <= p < nd_page n + 4096)) /\
   find_owner fuel s p h = (Ret None, h)).
Proof.
  induction l as [|n l IH]; intros [|fuel] h s p Hc Hn Hf; simpl in Hf; try lia.
  - right. simpl in Hc. rewrite Hc. split; [set_solver|done].
  - destruct Hc as (-> & pr & Hpr & Hc). apply Forall_cons in Hn as [Hn Hns].
    destruct (node_ok_lookup _ _ _ Hn) as (pr' & Hpr' & Hpage & Hblk & _).
    assert (pr = pr') as -> by congruence.
    destruct Hn as (_ & ? & ? & ? & ? & _). unfold MIPS_KSEG0, MIPS_KSEG1 in *.
    assert (find_owner (S fuel) (Some (nd_ref n)) p h =
      if (p >=? nd_page n) && (p <? nd_page n + 4096) then (Ret (Some (nd_ref n)), h)
      else find_owner fuel (next_all pr') p h) as Heq.
    { simpl. unfold bind at 1. rewrite (pr_at_eq _ _ _ Hpr).
      unfold bind, assert, NSIZES, PAGE_SIZE. rewrite Hblk, Hpage, u32_small by lia.
      zbool. by destruct (_ && _). }
    rewrite Heq. destruct (decide (nd_page n <= p < nd_page n + 4096)).
    + left. exists n. zbool. split_and!; [set_solver|lia|lia|done].
    + replace ((p >=? nd_page n) && (p <? nd_page n + 4096)) with false by lia.
      destruct (IH fuel h (next_all pr') p) as [(n' & ? & ? & ->)|(Hno & ->)]; [done..|lia| |].
      * left. exists n'. split_and!; [set_solver|lia|lia|done].
      * right. split; [|done]. intros n' [->|?]%elem_of_cons; [done|by apply Hno].
Qed.

Lemma blocktype_spec h sz : 0 <= sz < LARGEST_SUBPAGE_SIZE ->
  exists b, blocktype sz h = (Ret b, h) /\ 0 <= b < 8 /\ sz <= size_at b.
Proof.
  unfold LARGEST_SUBPAGE_SIZE. intros Hsz. unfold blocktype, bind.
  destruct (least_false (fun i => negb (sz <=? size_at i)) NSIZES) as [Hall|(b & Hb & Hsb & Hlow)].
  - specialize (Hall 7 ltac:(done)). change (size_at 7) with 2048 in Hall. lia.
  - exists b. unfold NSIZES in *. rewrite (seqZ_split 8 b) by lia.
    erewrite (for_find_first _ b _ _ _ b).
    + split; [done|]. split; [done|]. lia.
    + intros j Hj%elem_of_seqZ. specialize (Hlow j ltac:(lia)). unfold ret.
      by destruct (sz <=? size_at j).
    + unfold ret. by destruct (sz <=? size_at b).
Qed.

(** ** The operations on the pageref table *)

(** A word of the bitmap is scanned to its lowest clear bit. *)
Lemma scan_word i w h : pagerefs_inuse h !! i = Some w -> 0 <= w < 2 ^ 32 -> w <> 0xffffffff ->
  exists j : nat, (j < 32)%nat /\ Z.testbit w (Z.of_nat j) = false /\
  scan_bits i w h =
  (Ret (Some (i * 32 + j)%nat), with_inuse (<[i := Z.lor w (2 ^ Z.of_nat j)]> (pagerefs_inuse h)) h).
Proof.
  intros Hi Hr Hne. destruct (lowest_clear w Hr Hne) as (k & Hk & Hb & Hlow).
  exists (Z.to_nat k). rewrite Z2Nat.id by lia. split_and!; [lia|done|].
  unfold scan_bits. replace (seq 0 32) with (seq 0 (Z.to_nat k) ++ Z.to_nat k :: seq (S (Z.to_nat k)) (31 - Z.to_nat k)).
  - apply for_find_first.
    + intros j [_ Hj]%elem_of_seq. cbn zeta. rewrite land_pow2_eqb, Hlow by lia. done.
    + cbn zeta. rewrite Z2Nat.id, land_pow2_eqb, Hb by lia. done.
  - change (Z.to_nat k :: seq (S (Z.to_nat k)) (31 - Z.to_nat k))
      with (seq (0 + Z.to_nat k) (S (31 - Z.to_nat k))).
    rewrite <- seq_app. f_equal. lia.
Qed.

Lemma allocpageref_spec h : bits_ok (pagerefs_inuse h) ->
  (exists p, (p < NPAGEREFS)%nat /\ bit_used (pagerefs_inuse h) p = false /\
     allocpageref h = (Ret (Some p), with_inuse (bit_put Z.lor (pagerefs_inuse h) p) h)) \/
  allocpageref h = (Ret None, h).
Proof.
  intros Hok. unfold allocpageref.
  destruct (least_false (fun i => default 0 (pagerefs_inuse h !! Z.to_nat i) =? 0xffffffff) 8)
    as [Hall|(i & Hi & Hne & Hlow)].
  - right. apply for_find_none. intros j [_ Hj]%elem_of_seq.
    specialize (Hall (Z.of_nat j) ltac:(unfold INUSE_WORDS in Hj; lia)). rewrite Nat2Z.id in Hall.
    unfold bind, get. destruct (pagerefs_inuse h !! j); [|done]. simpl in Hall. by rewrite Hall.
  - left. destruct (bits_word (pagerefs_inuse h) (Z.to_nat i * 32) Hok) as (w & Hw & Hr).
    { unfold NPAGEREFS. lia. }
    rewrite Nat.div_mul in Hw by lia. rewrite Hw in Hne. simpl in Hne. apply Z.eqb_neq in Hne.
    destruct (scan_word (Z.to_nat i) w h Hw Hr Hne) as (j & Hj & Hb & Hscan).
    assert ((Z.to_nat i * 32 + j) / 32 = Z.to_nat i /\ (Z.to_nat i * 32 + j) mod 32 = j)%nat as [Hd Hm].
    { rewrite Nat.div_add_l, (Nat.div_small j) by lia. split; [lia|].
      rewrite (Nat.add_comm _ j), Nat.Div0.mod_add, Nat.mod_small; lia. }
    exists (Z.to_nat i * 32 + j)%nat. split_and!; [unfold NPAGEREFS; lia| |].
    + unfold bit_used. by rewrite Hd, Hm, Hw.
    + replace (seq 0 INUSE_WORDS)
        with (seq 0 (Z.to_nat i) ++ Z.to_nat i :: seq (S (Z.to_nat i)) (7 - Z.to_nat i)).
      * apply for_find_first.
        -- intros y [_ Hy]%elem_of_seq. specialize (Hlow (Z.of_nat y) ltac:(lia)).
           rewrite Nat2Z.id in Hlow. unfold bind, get.
           destruct (pagerefs_inuse h !! y); [|done]. simpl in Hlow. by rewrite Hlow.
        -- unfold bind at 1, get. rewrite Hw, (proj2 (Z.eqb_neq _ _)) by done.
           unfold bind at 1. rewrite Hscan. unfold bit_put. rewrite Hd, Hm.
           by rewrite (alter_as_insert _ _ _ w Hw).
      * change (Z.to_nat i :: seq (S (Z.to_nat i)) (7 - Z.to_nat i))
          with (seq (0 + Z.to_nat i) (S (7 - Z.to_nat i))).
        rewrite <- seq_app. unfold INUSE_WORDS. f_equal. lia.
Qed.

Lemma freepageref_eq h p : bits_ok (pagerefs_inuse h) -> (p < NPAGEREFS)%nat ->
  bit_used (pagerefs_inuse h) p = true ->
  freepageref p h = (Ret tt, with_inuse (bit_put clear_word (pagerefs_inuse h) p) h).
Proof.
  intros Hok Hp Hb. destruct (bits_word _ p Hok Hp) as (w & Hw & Hr).
  unfold bit_used in Hb. rewrite Hw in Hb. simpl in Hb.
  unfold freepageref, bind, assert, get, put. rewrite (proj2 (Z.ltb_lt _ _)) by lia.
  rewrite Hw, land_pow2_eqb, Hb by lia. simpl. unfold bit_put. by rewrite (alter_as_insert _ _ _ w Hw).
Qed.

(** ** The operations on blocks *)

Lemma u16_small z : 0 <= z < 2 ^ 16 -> u16 z = z.
Proof. apply Z.mod_small. Qed.

Lemma node_free_bound prs w n : node_ok prs w n -> (length (nd_free n) <= 256)%nat.
Proof.
  intros (_ & Hb & _ & _ & _ & Hnd & Hv & _).
  destruct (valid_offs_bound _ _ Hb Hnd Hv) as [Hle _].
  destruct (size_at_facts _ Hb) as (_ & _ & ? & _). unfold nblocks in Hle. lia.
Qed.

Lemma doalloc_eq h n o fl : node_ok (pagerefs h) (words h) n -> nd_free n = o :: fl ->
  doalloc (nd_ref n) h = (Ret (nd_page n + o),
    with_pagerefs (alter (set_free (first_free fl) (Z.of_nat (length fl))) (nd_ref n) (pagerefs h)) h).
Proof.
  intros Hn Hfl. pose proof (node_free_bound _ _ _ Hn) as Hlen.
  destruct (node_ok_lookup _ _ _ Hn) as (pr & Hpr & Hpage & _ & Hoff & Hnf).
  destruct Hn as (_ & _ & Hlo & _ & Hhi & _ & Hv & Hlk).
  rewrite Hfl in *. cbn [length first_free] in *. destruct Hlk as [Hlk _].
  apply Forall_cons in Hv as [[Ho _] Hv].
  unfold doalloc, MIPS_KSEG0, MIPS_KSEG1, PAGE_SIZE in *.
  unfold bind at 1. rewrite (pr_at_eq _ _ _ Hpr), Hpage, Hoff, Hnf.
  unfold bind at 1, assert at 1. zbool. rewrite u32_small by lia.
  unfold bind at 1. rewrite (load_eq _ _ _ Hlk).
  rewrite u16_small by lia. replace (Z.of_nat (S (length fl)) - 1) with (Z.of_nat (length fl)) by lia.
  destruct fl as [|o' fl]; unfold bind, assert.
  - by zbool.
  - apply Forall_cons in Hv as [[Ho' _] _]. simpl length. zbool.
    replace (nd_page n + o' - nd_page n) with o' by lia.
    rewrite u32_small, u16_small by lia. by zbool.
Qed.

Lemma node_ok_doalloc prs w n o fl : node_ok prs w n -> nd_free n = o :: fl ->
  node_ok (alter (set_free (first_free fl) (Z.of_nat (length fl))) (nd_ref n) prs) w (with_free fl n).
Proof.
  intros (Hc & ? & ? & ? & ? & Hnd & Hv & Hl) Hfl. rewrite Hfl in *.
  apply NoDup_cons in Hnd as [_ ?]. apply Forall_cons in Hv as [_ ?]. destruct Hl as [_ ?].
  split_and!; simpl; try done; try lia.
  rewrite list_lookup_alter_eq. apply fmap_Some in Hc as (pr & -> & Hc). simpl.
  unfold core in *; simpl. by injection Hc as -> _ _.
Qed.

Lemma fill_deadbeef_spec h p len : 0 <= p -> p + len <= 2 ^ 32 -> 0 <= len ->
  exists w', fill_deadbeef p len h = (Ret tt, with_words w' h) /\
    forall a, ~ (p <= a < p + len) -> w' !! a = words h !! a.
Proof.
  intros Hp Hr Hl. unfold fill_deadbeef.
  assert (runs (for_each (seqZ 0 (len / 4)) (fun i => store (u32 (p + 4 * i)) 0xdeadbeef)) h
    (fun _ h' => exists w', h' = with_words w' h /\
       forall a, ~ (p <= a < p + len) -> w' !! a = words h !! a) (fun _ _ => False)) as Hrun.
  { apply (runs_for_each (fun _ _ h' => exists w', h' = with_words w' h /\
       forall a, ~ (p <= a < p + len) -> w' !! a = words h !! a)).
    - exists (words h). by destruct h.
    - intros pre x post h' Hsp (w' & -> & Hw'). unfold store. apply runs_modify.
      assert (x ∈ seqZ 0 (len / 4)) as Hx by (rewrite Hsp; set_solver).
      apply elem_of_seqZ in Hx. pose proof (Z.mul_div_le len 4 ltac:(lia)).
      rewrite u32_small by lia.
      eexists. split; [reflexivity|]. intros a Ha. simpl.
      rewrite lookup_insert_ne by lia. by apply Hw'.
    - done. }
  apply runs_elim in Hrun as [([] & h' & He & w' & -> & Hw')|(e & h' & _ & [])].
  by exists w'.
Qed.

Lemma link_blocks_spec h page sz k : 0 <= page -> 0 < sz ->
  page + Z.of_nat (S k) * sz <= 2 ^ 32 ->
  exists w', link_blocks page sz (Z.of_nat (S k)) h =
      (Ret (page + Z.of_nat k * sz), with_words w' h) /\
    flinks w' page (down (S k) sz) /\
    forall a, ~ (page <= a <= page + Z.of_nat k * sz) -> w' !! a = words h !! a.
Proof.
  intros Hp Hsz Hr.
  assert (runs (link_blocks page sz (Z.of_nat (S k))) h
    (fun r h' => r = page + Z.of_nat k * sz /\ exists w', h' = with_words w' h /\
       flinks w' page (down (S k) sz) /\
       forall a, ~ (page <= a <= page + Z.of_nat k * sz) -> w' !! a = words h !! a)
    (fun _ _ => False)) as Hrun.
  { unfold link_blocks. apply runs_bind. unfold store at 1. apply runs_modify. apply runs_bind.
    apply (runs_for_each (fun pre _ h' => exists w', h' = with_words w' h /\
       flinks w' page (down (S (length pre)) sz) /\
       forall a, ~ (page <= a <= page + Z.of_nat k * sz) -> w' !! a = words h !! a)).
    - exists (<[page := 0]> (words h)). split; [done|]. split.
      + simpl. split; [|done]. rewrite Z.mul_0_l, Z.add_0_r. apply lookup_insert_eq.
      + intros a Ha. apply lookup_insert_ne. nia.
    - intros pre x post h' [Hx Hlen]%seqZ_middle (w' & -> & Hl & Hw').
      set (j := length pre) in *. assert (x = Z.of_nat (S j)) as -> by lia.
      rewrite !u32_small by nia. apply runs_bind. unfold store. apply runs_modify.
      replace (Z.of_nat (S j) - 1) with (Z.of_nat j) by lia.
      apply runs_assert; [apply negb_true_iff, Z.eqb_neq; nia|].
      eexists. split; [reflexivity|]. rewrite length_app, Nat.add_1_r. fold j. simpl words. split.
      + split; [apply lookup_insert_eq|]. eapply flinks_agree; [|exact Hl].
        intros o (q & ? & ->)%elem_of_down. apply lookup_insert_ne. nia.
      + intros a Ha. rewrite lookup_insert_ne by nia. by apply Hw'.
    - intros h' (w' & -> & Hl & Hw'). rewrite length_seqZ in Hl.
      replace (S (Z.to_nat (Z.of_nat (S k) - 1))) with (S k) in Hl by lia.
      apply runs_ret. split; [|by exists w'].
      destruct (Z.gtb_spec (Z.of_nat (S k)) 1); [rewrite u32_small; nia|].
      assert (k = 0%nat) as -> by lia. lia. }
  apply runs_elim in Hrun as [(r & h' & He & -> & w' & -> & ? & ?)|(e & h' & _ & [])].
  by exists w'.
Qed.

End kheap_proofs.

(** ** The ledger *)

(** What [PageLaws] says of a ledger. *)
Definition apart (G : gmap Z Z) : Prop :=
  (forall a n, G !! a = Some n ->
     MIPS_KSEG0 <= a /\ a mod 4096 = 0 /\ 0 < n /\ a + 4096 * n <= MIPS_KSEG1) /\
  (forall a b n m, G !! a = Some n -> G !! b = Some m -> a <> b ->
     a + 4096 * n <= b \/ b + 4096 * m <= a).

Lemma same_page page page' o o' : page mod 4096 = 0 -> page' mod 4096 = 0 ->
  0 <= o < 4096 -> 0 <= o' < 4096 -> page + o = page' + o' -> page = page' /\ o = o'.
Proof.
  intros H1 H2 Ho Ho' He.
  pose proof (Z.div_mod page 4096 ltac:(lia)). pose proof (Z.div_mod page' 4096 ltac:(lia)). lia.
Qed.

Section ledger.
Context (L G F : gmap Z Z).
Context (Hap : apart G).
Implicit Types (ns : list node) (n : node).

Lemma node_page_aligned ns n : ledger_ok ns L G F -> n ∈ ns -> nd_page n mod 4096 = 0.
Proof. intros Hl Hn. by apply (proj1 Hap _ _ (lo_page _ _ _ _ Hl n Hn)). Qed.

(** Pages determine nodes. *)
Lemma node_page_inj ns n n' : NoDup (nd_page <$> ns) -> n ∈ ns -> n' ∈ ns ->
  nd_page n = nd_page n' -> n = n'.
Proof.
  intros Hnd (i & Hi)%list_elem_of_lookup (j & Hj)%list_elem_of_lookup He.
  assert (i = j) as ->; [|congruence].
  eapply NoDup_lookup; [exact Hnd| |]; rewrite list_lookup_fmap.
  - by rewrite Hi.
  - rewrite Hj. simpl. by rewrite He.
Qed.

(** The pages of the heap and the large blocks are different runs. *)
Lemma large_not_on_page ns p sz n o : ledger_ok ns L G F -> L !! p = Some sz ->
  LARGEST_SUBPAGE_SIZE <= sz -> n ∈ ns -> 0 <= o < 4096 -> p <> nd_page n + o.
Proof.
  intros Hl Hp Hsz Hn Ho ->. destruct (lo_large _ _ _ _ Hl _ _ Hp Hsz) as [Hg Hni].
  pose proof (lo_page _ _ _ _ Hl _ Hn) as Hg1.
  destruct (decide (o = 0)) as [->|Hne].
  - apply Hni. rewrite Z.add_0_r. by apply list_elem_of_fmap_2.
  - destruct (proj2 Hap _ _ _ _ Hg Hg1) as [?|?]; [lia| |lia].
    pose proof (proj1 Hap _ _ Hg) as (_ & _ & ? & _). lia.
Qed.

(** A block on a managed page is held by a client exactly if it is not free. *)
Lemma free_not_held ns n o : ledger_ok ns L G F -> n ∈ ns -> valid_off (nd_blk n) o ->
  o ∈ nd_free n -> L !! (nd_page n + o) = None.
Proof.
  intros Hl Hn Ho Hf. destruct (L !! (nd_page n + o)) as [sz|] eqn:E; [exfalso|done].
  destruct (decide (sz < LARGEST_SUBPAGE_SIZE)).
  - destruct (lo_small _ _ _ _ Hl _ _ E ltac:(done)) as (n' & o' & Hn' & He & [Ho' _] & Hnf & _).
    destruct (same_page (nd_page n) (nd_page n') o o') as [Hp ->];
      [by eapply node_page_aligned|by eapply node_page_aligned|apply Ho|done|done|].
    apply Hnf. by rewrite <- (node_page_inj ns n n' (lo_nodup _ _ _ _ Hl) Hn Hn' Hp).
  - eapply (large_not_on_page ns _ sz n o Hl E); [lia|done|apply Ho|done].
Qed.

Lemma elem_with_free ns1 n ns2 fl n' : n' ∈ ns1 ++ with_free fl n :: ns2 ->
  exists n0, n0 ∈ ns1 ++ n :: ns2 /\ nd_page n0 = nd_page n' /\ nd_blk n0 = nd_blk n' /\
    (n0 = n' \/ (n0 = n /\ n' = with_free fl n)).
Proof.
  intros [?|[->|?]%elem_of_cons]%elem_of_app.
  - exists n'. split_and!; [set_solver|done..|by left].
  - exists n. split_and!; [set_solver|done..|by right].
  - exists n'. split_and!; [set_solver|done..|by left].
Qed.

Lemma pages_with_free ns1 n ns2 fl :
  nd_page <$> ns1 ++ with_free fl n :: ns2 = nd_page <$> ns1 ++ n :: ns2.
Proof. by rewrite !fmap_app. Qed.

Lemma elem_with_free_inv ns1 n ns2 fl n0 : n0 ∈ ns1 ++ n :: ns2 ->
  n0 ∈ ns1 ++ with_free fl n :: ns2 \/ n0 = n.
Proof. intros [?|[->|?]%elem_of_cons]%elem_of_app; [left; set_solver|by right|left; set_solver]. Qed.

(** Handing out the first free block of page [n]. *)
Lemma ledger_take ns1 n ns2 o fl sz : let p := nd_page n + o in
  ledger_ok (ns1 ++ n :: ns2) L G F -> nd_free n = o :: fl -> NoDup (nd_free n) ->
  valid_off (nd_blk n) o -> 0 <= sz < LARGEST_SUBPAGE_SIZE -> sz <= size_at (nd_blk n) ->
  L !! p = None /\ ledger_ok (ns1 ++ with_free fl n :: ns2) (<[p := sz]> L) G F.
Proof.
  intros p Hl Hfl Hnd Ho Hsz Hfit.
  assert (L !! p = None) as Hp by (apply (free_not_held (ns1 ++ n :: ns2)); [done|set_solver|done|rewrite Hfl; set_solver]).
  split; [done|]. rewrite Hfl in Hnd. apply NoDup_cons in Hnd as [Hofl _].
  assert (with_free fl n ∈ ns1 ++ with_free fl n :: ns2) as Hself by set_solver.
  split.
  - intros n' (n0 & Hn0 & <- & _)%elem_with_free. by eapply lo_page.
  - rewrite pages_with_free. by eapply lo_nodup.
  - intros q sz'. rewrite lookup_insert. case_decide; [|by eapply lo_nonneg].
    unfold LARGEST_SUBPAGE_SIZE in *. intros [= <-]. lia.
  - intros q sz' Hq Hlt. rewrite lookup_insert in Hq. case_decide.
    + simplify_eq. exists (with_free fl n), o. by split_and!.
    + destruct (lo_small _ _ _ _ Hl _ _ Hq Hlt) as (n0 & o0 & Hn0 & -> & Hv & Hnf & Hs).
      destruct (elem_with_free_inv _ _ _ fl _ Hn0) as [?| ->]; [by exists n0, o0|].
      exists (with_free fl n), o0. split_and!; try done. rewrite Hfl in Hnf. simpl. set_solver.
  - intros q sz' Hq Hge. rewrite pages_with_free. rewrite lookup_insert in Hq.
    case_decide; [simplify_eq; lia|]. by eapply lo_large.
  - intros n' o' Hn' Hv Hnf. rewrite lookup_insert. case_decide; [by eexists; split; [|apply Hsz]|].
    destruct (elem_with_free _ _ _ _ _ Hn') as (n0 & Hn0 & <- & Hb & [->|[-> ->]]).
    + by eapply lo_used.
    + eapply lo_used; [done|done|done|]. rewrite Hfl. simpl in Hnf. unfold p in *.
      intros [->|?]%elem_of_cons; [by simpl in *|done].
  - intros a k Ha. rewrite pages_with_free. destruct (lo_foreign _ _ _ _ Hl _ _ Ha) as (? & ? & Hs).
    split_and!; try done. intros sz'. rewrite lookup_insert. case_decide; [|apply Hs].
    intros [= <-]. lia.
  - intros a k Ha. rewrite pages_with_free.
    destruct (lo_cover _ _ _ _ Hl _ _ Ha) as [?|[(sz' & Ha' & ?)|?]]; [by left| |by right; right].
    right; left. exists sz'. rewrite lookup_insert_ne by congruence. done.
Qed.

(** Taking a block of page [n] back. *)
Lemma ledger_give ns1 n ns2 o sz : let p := nd_page n + o in
  ledger_ok (ns1 ++ n :: ns2) L G F -> L !! p = Some sz -> sz < LARGEST_SUBPAGE_SIZE ->
  valid_off (nd_blk n) o ->
  ledger_ok (ns1 ++ with_free (o :: nd_free n) n :: ns2) (delete p L) G F.
Proof.
  intros p Hl Hp Hsz Ho. set (fl := o :: nd_free n).
  assert (with_free fl n ∈ ns1 ++ with_free fl n :: ns2) as Hself by set_solver.
  assert (NoDup (nd_page <$> ns1 ++ with_free fl n :: ns2)) as Hnd.
  { rewrite pages_with_free. by eapply lo_nodup. }
  split.
  - intros n' (n0 & Hn0 & <- & _)%elem_with_free. by eapply lo_page.
  - done.
  - intros q sz' [_ Hq]%lookup_delete_Some. by eapply lo_nonneg.
  - intros q sz' [Hne Hq]%lookup_delete_Some Hlt.
    destruct (lo_small _ _ _ _ Hl _ _ Hq Hlt) as (n0 & o0 & Hn0 & -> & Hv & Hnf & Hs).
    destruct (elem_with_free_inv _ _ _ fl _ Hn0) as [?| ->]; [by exists n0, o0|].
    exists (with_free fl n), o0. split_and!; try done. unfold fl; simpl.
    intros [->|?]%elem_of_cons; [by apply Hne|done].
  - intros q sz' [Hne Hq]%lookup_delete_Some Hge. rewrite pages_with_free. by eapply lo_large.
  - intros n' o' Hn' Hv Hnf.
    destruct (elem_with_free _ _ _ _ _ Hn') as (n0 & Hn0 & Hpg & Hb & Hcase).
    assert (o' ∉ nd_free n0) as Hnf0.
    { destruct Hcase as [->|[-> ->]]; [done|]. unfold fl in Hnf; simpl in Hnf. set_solver. }
    destruct (lo_used _ _ _ _ Hl n0 o' Hn0 ltac:(by rewrite Hb) Hnf0) as (sz' & Hu & ?).
    exists sz'. rewrite <- Hpg. split; [|done]. apply lookup_delete_Some. split; [|done].
    intros He. destruct (same_page (nd_page n) (nd_page n0) o o') as [Hpp <-];
      [apply (node_page_aligned (ns1 ++ n :: ns2)); [done|set_solver]|by eapply node_page_aligned|apply Ho|apply Hv|done|].
    assert (n' = with_free fl n) as ->.
    { eapply node_page_inj; [exact Hnd|done|done|]. simpl. congruence. }
    apply Hnf. unfold fl; simpl. set_solver.
  - intros a k Ha. rewrite pages_with_free. destruct (lo_foreign _ _ _ _ Hl _ _ Ha) as (? & ? & Hs).
    split_and!; try done. by intros sz' [_ ?%Hs]%lookup_delete_Some.
  - intros a k Ha. rewrite pages_with_free.
    destruct (lo_cover _ _ _ _ Hl _ _ Ha) as [?|[(sz' & Ha' & ?)|?]]; [by left| |by right; right].
    right; left. exists sz'. rewrite lookup_delete_ne; [done|]. intros <-. simplify_eq. lia.
Qed.

End ledger.

Section ledger_pages.
Context (L G F : gmap Z Z).
Implicit Types (ns : list node) (n : node).

(** A fresh page, all of whose blocks are free. *)
Lemma ledger_new ns i blk page : 0 <= blk < 8 ->
  ledger_ok ns L G F -> G !! page = None ->
  ledger_ok (mk_node i blk page (down (nblocks blk) (size_at blk)) :: ns) L (<[page := 1]> G) F.
Proof.
  intros Hb Hl Hg. set (nn := mk_node _ _ _ _).
  assert (page ∉ nd_page <$> ns) as Hni.
  { intros (n & -> & Hn)%list_elem_of_fmap. by rewrite (lo_page _ _ _ _ Hl _ Hn) in Hg. }
  split.
  - intros n [->|Hn]%elem_of_cons; [apply lookup_insert_eq|].
    rewrite lookup_insert_ne; [by eapply lo_page|]. intros ->. by rewrite (lo_page _ _ _ _ Hl _ Hn) in Hg.
  - simpl. apply NoDup_cons. split; [done|by eapply lo_nodup].
  - by eapply lo_nonneg.
  - intros p sz Hp Hsz. destruct (lo_small _ _ _ _ Hl _ _ Hp Hsz) as (n & o & ? & Hr).
    exists n, o. split; [set_solver|done].
  - intros p sz Hp Hsz. destruct (lo_large _ _ _ _ Hl _ _ Hp Hsz) as [Hgp Hnp].
    assert (p <> page) by congruence.
    rewrite lookup_insert_ne by done. split; [done|]. simpl. set_solver.
  - intros n o [->|Hn]%elem_of_cons Hv Hnf; [|by eapply lo_used].
    by apply valid_off_down in Hv.
  - intros a k Ha. destruct (lo_foreign _ _ _ _ Hl _ _ Ha) as (Hga & ? & ?).
    assert (a <> page) by congruence.
    rewrite lookup_insert_ne by done. split_and!; [done| |done]. simpl. set_solver.
  - intros a k. rewrite lookup_insert. case_decide as He.
    + intros _. left. rewrite <- He. simpl. set_solver.
    + intros Ha. destruct (lo_cover _ _ _ _ Hl _ _ Ha) as [?|?]; [left; simpl; set_solver|by right].
Qed.

(** A page all of whose blocks are free goes back. *)
Lemma ledger_drop ns1 n ns2 :
  ledger_ok (ns1 ++ n :: ns2) L G F -> (forall o, valid_off (nd_blk n) o -> o ∈ nd_free n) ->
  ledger_ok (ns1 ++ ns2) L (delete (nd_page n) G) F.
Proof.
  intros Hl Hfull.
  assert (forall n', n' ∈ ns1 ++ ns2 -> n' ∈ ns1 ++ n :: ns2) as Hsub by set_solver.
  assert (NoDup (nd_page <$> n :: ns1 ++ ns2)) as [Hnp Hnd]%NoDup_cons.
  { rewrite Permutation_middle. by eapply lo_nodup. }
  split.
  - intros n' Hn'. rewrite lookup_delete_ne; [by eapply lo_page; [|apply Hsub]|].
    intros He. apply Hnp. rewrite He. by apply list_elem_of_fmap_2.
  - done.
  - by eapply lo_nonneg.
  - intros p sz Hp Hsz. destruct (lo_small _ _ _ _ Hl _ _ Hp Hsz) as (n' & o & Hn' & ? & Hv & Hnf & ?).
    exists n', o. split; [|done].
    apply elem_of_app in Hn' as [?|[->|?]%elem_of_cons]; [set_solver| |set_solver].
    by apply Hfull in Hv.
  - intros p sz Hp Hsz. destruct (lo_large _ _ _ _ Hl _ _ Hp Hsz) as [Hg Hni].
    rewrite fmap_app, fmap_cons in Hni. rewrite fmap_app.
    rewrite lookup_delete_ne by set_solver. split; [done|set_solver].
  - intros n' o Hn'. eapply lo_used; [done|by apply Hsub].
  - intros a k Ha. destruct (lo_foreign _ _ _ _ Hl _ _ Ha) as (? & Hni & ?).
    rewrite fmap_app, fmap_cons in Hni. rewrite fmap_app.
    rewrite lookup_delete_ne by set_solver. split_and!; [done|set_solver|done].
  - intros a k [Hne Ha]%lookup_delete_Some.
    destruct (lo_cover _ _ _ _ Hl _ _ Ha) as [Hin|?]; [left|by right].
    rewrite fmap_app, fmap_cons in Hin. rewrite fmap_app. set_solver.
Qed.

(** Blocks of whole pages. *)
Lemma ledger_large ns p sz : apart (<[p := DIVROUNDUP sz 4096]> G) ->
  ledger_ok ns L G F -> G !! p = None -> LARGEST_SUBPAGE_SIZE <= sz < 2 ^ 31 ->
  L !! p = None /\ ledger_ok ns (<[p := sz]> L) (<[p := DIVROUNDUP sz 4096]> G) F.
Proof.
  intros Hap Hl Hg Hsz.
  assert (L !! p = None) as Hp.
  { destruct (L !! p) as [sz'|] eqn:E; [exfalso|done].
    destruct (decide (sz' < LARGEST_SUBPAGE_SIZE)).
    - destruct (lo_small _ _ _ _ Hl _ _ E ltac:(done)) as (n & o & Hn & -> & [Ho _] & _).
      pose proof (lo_page _ _ _ _ Hl _ Hn) as Hgn.
      destruct (decide (o = 0)) as [->|]; [by rewrite Z.add_0_r, Hgn in Hg|].
      destruct (proj2 Hap (nd_page n) (nd_page n + o) 1 (DIVROUNDUP sz 4096)) as [?|?];
        [by rewrite lookup_insert_ne by lia|apply lookup_insert_eq|lia|lia|].
      pose proof (proj1 Hap _ _ (lookup_insert_eq G _ _)) as (_ & _ & ? & _). lia.
    - destruct (lo_large _ _ _ _ Hl _ _ E ltac:(lia)) as [? _]. congruence. }
  split; [done|]. split.
  - intros n Hn. pose proof (lo_page _ _ _ _ Hl _ Hn). rewrite lookup_insert_ne by congruence. done.
  - by eapply lo_nodup.
  - intros q sz'. rewrite lookup_insert. case_decide; [|by eapply lo_nonneg].
    unfold LARGEST_SUBPAGE_SIZE in *. intros [= <-]. lia.
  - intros q sz' Hq Hlt. rewrite lookup_insert in Hq. case_decide; [simplify_eq; lia|].
    by eapply lo_small.
  - intros q sz' Hq Hge. rewrite lookup_insert in Hq. case_decide; simplify_eq.
    + split; [apply lookup_insert_eq|]. intros (n & -> & Hn)%list_elem_of_fmap.
      by rewrite (lo_page _ _ _ _ Hl _ Hn) in Hg.
    + rewrite lookup_insert_ne by done. by eapply lo_large.
  - intros n o Hn Hv Hnf. destruct (lo_used _ _ _ _ Hl n o Hn Hv Hnf) as (sz' & Hu & ?).
    exists sz'. by rewrite lookup_insert_ne by congruence.
  - intros a k Ha. destruct (lo_foreign _ _ _ _ Hl _ _ Ha) as (Hga & ? & Hs).
    assert (p <> a) by congruence. rewrite !lookup_insert_ne by done. done.
  - intros a k. rewrite lookup_insert. case_decide as He.
    + intros _. right; left. exists sz. rewrite <- He. split; [apply lookup_insert_eq|lia].
    + intros Ha. destruct (lo_cover _ _ _ _ Hl _ _ Ha) as [?|[(sz' & ? & ?)|?]]; [by left| |by right; right].
      right; left. exists sz'. by rewrite lookup_insert_ne.
Qed.

Lemma ledger_unlarge ns p sz : ledger_ok ns L G F -> L !! p = Some sz ->
  LARGEST_SUBPAGE_SIZE <= sz -> ledger_ok ns (delete p L) (delete p G) F.
Proof.
  intros Hl Hp Hsz. destruct (lo_large _ _ _ _ Hl _ _ Hp Hsz) as [Hg Hni].
  split.
  - intros n Hn. rewrite lookup_delete_ne; [by eapply lo_page|].
    intros ->. apply Hni. by apply list_elem_of_fmap_2.
  - by eapply lo_nodup.
  - intros q sz' [_ Hq]%lookup_delete_Some. by eapply lo_nonneg.
  - intros q sz' [_ Hq]%lookup_delete_Some. by eapply lo_small.
  - intros q sz' [? Hq]%lookup_delete_Some Hge. rewrite lookup_delete_ne by done. by eapply lo_large.
  - intros n o Hn Hv Hnf. destruct (lo_used _ _ _ _ Hl n o Hn Hv Hnf) as (sz' & Hu & ?).
    exists sz'. rewrite lookup_delete_ne; [done|]. intros ->. simplify_eq. lia.
  - intros a k Ha. destruct (lo_foreign _ _ _ _ Hl _ _ Ha) as (Hga & ? & Hs).
    assert (p <> a) by (intros ->; apply Hs in Hp; lia).
    rewrite !lookup_delete_ne by done. done.
  - intros a k [Hne Ha]%lookup_delete_Some.
    destruct (lo_cover _ _ _ _ Hl _ _ Ha) as [?|[(sz' & ? & ?)|?]]; [by left| |by right; right].
    right; left. exists sz'. by rewrite lookup_delete_ne.
Qed.

End ledger_pages.

(** ** The tables *)

Definition shape (ns : list node) : list (nat * Z) := (fun n => (nd_ref n, nd_blk n)) <$> ns.

Lemma shape_refs ns ns' : shape ns = shape ns' ->
  nd_ref <$> ns = nd_ref <$> ns' /\ forall b, nd_ref <$> of_blk b ns = nd_ref <$> of_blk b ns'.
Proof.
  revert ns'. induction ns as [|n ns IH]; intros [|n' ns'] Hs; simplify_eq/=; [done|].
  destruct (IH ns' ltac:(done)) as [Hr Hb]. split; [simpl; congruence|].
  intros b. unfold of_blk in *. rewrite !filter_cons. specialize (Hb b).
  repeat case_decide; rewrite ?fmap_cons; congruence.
Qed.

Lemma shape_with_free ns1 n ns2 fl : shape (ns1 ++ with_free fl n :: ns2) = shape (ns1 ++ n :: ns2).
Proof. unfold shape. by rewrite !fmap_app. Qed.

Lemma of_blk_elem b ns i : i ∈ nd_ref <$> of_blk b ns -> exists n, n ∈ ns /\ nd_ref n = i /\ nd_blk n = b.
Proof.
  intros (n & -> & [? ?]%list_elem_of_filter)%list_elem_of_fmap. by exists n.
Qed.

Lemma node_ref_inj ns n n' : NoDup (nd_ref <$> ns) -> n ∈ ns -> n' ∈ ns -> nd_ref n = nd_ref n' -> n = n'.
Proof.
  intros Hnd (i & Hi)%list_elem_of_lookup (j & Hj)%list_elem_of_lookup He.
  assert (i = j) as ->; [|congruence].
  eapply NoDup_lookup; [exact Hnd| |]; rewrite list_lookup_fmap.
  - by rewrite Hi.
  - rewrite Hj. simpl. by rewrite He.
Qed.

Section tables.
Context {P : Type}.
Implicit Types (h : kheap P) (ns : list node).

Lemma tables_bits h ns : tables_ok h ns -> bits_ok (pagerefs_inuse h).
Proof. by intros (_ & ? & ? & _). Qed.

(** There are at most 256 pages. *)
Lemma tables_bound h ns : tables_ok h ns ->
  (length ns <= NPAGEREFS)%nat /\ forall n, n ∈ ns -> (nd_ref n < NPAGEREFS)%nat.
Proof.
  intros (Hl & _ & _ & Hnd & _ & Hc & _).
  assert (forall n, n ∈ ns -> (nd_ref n < NPAGEREFS)%nat) as Hlt.
  { intros n Hn. destruct (chain_lookup _ _ _ _ (nd_ref n) Hc) as [pr Hpr].
    - by apply list_elem_of_fmap_2.
    - rewrite <- Hl. by eapply lookup_lt_Some. }
  split; [|done].
  assert (nd_ref <$> ns ⊆+ seq 0 NPAGEREFS) as Hsub.
  { apply NoDup_submseteq; [done|]. intros i (n & -> & Hn)%list_elem_of_fmap.
    apply elem_of_seq. specialize (Hlt n Hn). lia. }
  apply submseteq_length in Hsub. by rewrite length_fmap, length_seq in Hsub.
Qed.

Lemma tables_sim h h' ns ns' : tables_ok h ns ->
  length (pagerefs h') = length (pagerefs h) ->
  prs_sim next_all (pagerefs h) (pagerefs h') ->
  prs_sim next_samesize (pagerefs h) (pagerefs h') ->
  pagerefs_inuse h' = pagerefs_inuse h -> sizebases h' = sizebases h -> allbase h' = allbase h ->
  shape ns' = shape ns -> tables_ok h' ns'.
Proof.
  intros (Hl & Hw & Hwr & Hnd & Hbits & Hall & Hsl & Hsame) Hlen Hsa Hss Hi Hs Ha Hsh.
  destruct (shape_refs _ _ Hsh) as [Hrefs Hblk].
  unfold tables_ok. rewrite Hlen, Hi, Hs, Ha, Hrefs. split_and!; try done.
  - by eapply chain_sim.
  - intros b s Hb Hb0. rewrite Hblk. eapply chain_sim; [done|]. by apply Hsame.
Qed.

(** A new page at the front of both lists. *)
Lemma tables_new h ns n s g w (p : P) : tables_ok h ns ->
  (nd_ref n < NPAGEREFS)%nat -> bit_used (pagerefs_inuse h) (nd_ref n) = false ->
  0 <= nd_blk n -> sizebases h !! Z.to_nat (nd_blk n) = Some s ->
  (forall pr, next_all (g pr) = allbase h) -> (forall pr, next_samesize (g pr) = s) ->
  tables_ok (mk_kheap (alter g (nd_ref n) (pagerefs h)) (bit_put Z.lor (pagerefs_inuse h) (nd_ref n))
    (<[Z.to_nat (nd_blk n) := Some (nd_ref n)]> (sizebases h)) (Some (nd_ref n)) w p) (n :: ns).
Proof.
  intros Hok Hi Hbit Hb0 Hs Hga Hgs.
  destruct Hok as (Hl & Hw & Hwr & Hnd & Hbits & Hall & Hsl & Hsame).
  assert (nd_ref n ∉ nd_ref <$> ns) as Hfresh.
  { rewrite <- Hbits by done. congruence. }
  destruct (lookup_lt_is_Some_2 (pagerefs h) (nd_ref n)) as [pr Hpr]; [by rewrite Hl|].
  destruct (bit_put_ok Z.lor (pagerefs_inuse h) (nd_ref n)) as [Hw' Hwr'];
    [apply set_word_range|done|].
  unfold tables_ok; simpl. split_and!.
  - by rewrite length_alter.
  - done.
  - done.
  - by apply NoDup_cons.
  - intros i Hi'. rewrite (bit_put_used _ true) by (done || apply set_word_bit).
    case_decide as He; [rewrite He; set_solver|]. rewrite Hbits by done. set_solver.
  - done.
  - exists (g pr). rewrite list_lookup_alter_eq, Hpr. split; [done|].
    rewrite Hga. by apply chain_alter_ne.
  - by rewrite length_insert.
  - intros b s' Hs' Hb'. unfold of_blk. rewrite filter_cons.
    case_decide as He; simpl.
    + subst b. rewrite list_lookup_insert_eq in Hs' by (by eapply lookup_lt_Some).
      simplify_eq. split; [done|]. exists (g pr).
      rewrite list_lookup_alter_eq, Hpr. split; [done|]. rewrite Hgs.
      apply chain_alter_ne; [|by apply Hsame].
      intros (n' & ? & He & _)%of_blk_elem. apply Hfresh. rewrite <- He. by apply list_elem_of_fmap_2.
    + rewrite list_lookup_insert_ne in Hs' by lia.
      apply chain_alter_ne; [|by apply Hsame].
      intros (n' & ? & He' & _)%of_blk_elem. apply Hfresh. rewrite <- He'. by apply list_elem_of_fmap_2.
Qed.

(** Taking a page off a list, whether it is at the head or not. *)
Lemma unlink_samesize_spec h b l1 i l2 : 0 <= b ->
  sizebases h !! Z.to_nat b = Some (head (l1 ++ i :: l2)) ->
  chain next_samesize (pagerefs h) (head (l1 ++ i :: l2)) (l1 ++ i :: l2) ->
  NoDup (l1 ++ i :: l2) -> (length l1 <= NPAGEREFS)%nat ->
  exists g c s, unlink_samesize i b h =
      (Ret tt, with_sizebases (<[Z.to_nat b := s]> (sizebases h))
                 (with_pagerefs (alter (set_samesize g) c (pagerefs h)) h)) /\
    (c ∈ l1 ++ i :: l2) /\
    chain next_samesize (alter (set_samesize g) c (pagerefs h)) s (l1 ++ l2).
Proof.
  intros Hb Hs Hc Hnd Hlen. destruct l1 as [|j l1]; simpl in *.
  - destruct Hc as (_ & pr & Hpr & Hc). exists (next_samesize pr), i, (next_samesize pr).
    apply NoDup_cons in Hnd as [Hi _]. split_and!; [|set_solver|by apply chain_alter_ne].
    unfold unlink_samesize, bind, get. rewrite Hs, Nat.eqb_refl, (pr_at_eq _ _ _ Hpr).
    unfold modify, with_sizebases, with_pagerefs; simpl. do 2 f_equal.
    rewrite (alter_as_insert _ _ _ pr Hpr), list_insert_id; [done|]. by destruct pr.
  - destruct (unlink_after_spec next_samesize set_samesize l1 NPAGEREFS h j i l2)
      as (c & q & Hin & He & Hch); [done|done|done|lia|].
    exists q, c, (Some j). split; [|split; [set_solver|done]].
    unfold unlink_samesize, bind, get. rewrite Hs.
    destruct (Nat.eqb_spec j i) as [->|]; [apply NoDup_cons in Hnd as [Hnd _]; set_solver|].
    rewrite He. by rewrite list_insert_id.
Qed.

Lemma unlink_all_spec h l1 i l2 :
  chain next_all (pagerefs h) (allbase h) (l1 ++ i :: l2) ->
  NoDup (l1 ++ i :: l2) -> (length l1 <= NPAGEREFS)%nat ->
  exists g c s, unlink_all i h =
      (Ret tt, with_allbase s (with_pagerefs (alter (set_all g) c (pagerefs h)) h)) /\
    chain next_all (alter (set_all g) c (pagerefs h)) s (l1 ++ l2).
Proof.
  intros Hc Hnd Hlen. destruct l1 as [|j l1]; simpl in *.
  - destruct Hc as (Ha & pr & Hpr & Hc). exists (next_all pr), i, (next_all pr).
    apply NoDup_cons in Hnd as [Hi _]. split_and!; [|by apply chain_alter_ne].
    unfold unlink_all, bind, get. rewrite Ha, Nat.eqb_refl, (pr_at_eq _ _ _ Hpr).
    unfold modify, with_allbase, with_pagerefs; simpl. do 2 f_equal.
    rewrite (alter_as_insert _ _ _ pr Hpr), list_insert_id; [done|]. by destruct pr.
  - pose proof (proj1 Hc) as Ha. rewrite Ha in Hc.
    destruct (unlink_after_spec next_all set_all l1 NPAGEREFS h j i l2)
      as (c & q & Hin & He & Hch); [done|done|done|lia|].
    exists q, c, (Some j). split; [|done].
    unfold unlink_all, bind, get. rewrite Ha.
    destruct (Nat.eqb_spec j i) as [->|]; [apply NoDup_cons in Hnd as [Hnd _]; set_solver|].
    rewrite He. unfold with_allbase, with_pagerefs; simpl. by rewrite Ha.
Qed.

Lemma chain_head next prs s l : chain next prs s l -> s = head l.
Proof. destruct l; simpl; naive_solver. Qed.

Lemma of_blk_app b ns1 n ns2 : of_blk b (ns1 ++ n :: ns2) =
  of_blk b ns1 ++ (if decide (nd_blk n = b) then [n] else []) ++ of_blk b ns2.
Proof.
  unfold of_blk. rewrite filter_app, filter_cons. by case_decide.
Qed.

Lemma of_blk_refs_NoDup b ns : NoDup (nd_ref <$> ns) -> NoDup (nd_ref <$> of_blk b ns).
Proof. intros Hnd. eapply sublist_NoDup; [exact Hnd|]. apply fmap_sublist, sublist_filter. Qed.

(** Taking page [n] off both lists. *)
Lemma remove_lists_spec h ns1 n ns2 : tables_ok h (ns1 ++ n :: ns2) -> 0 <= nd_blk n < 8 ->
  exists h1, remove_lists (nd_ref n) (nd_blk n) h = (Ret tt, h1) /\
    words h1 = words h /\ pg h1 = pg h /\ pagerefs_inuse h1 = pagerefs_inuse h /\
    prs_sim core (pagerefs h) (pagerefs h1) /\ length (pagerefs h1) = NPAGEREFS /\
    chain next_all (pagerefs h1) (allbase h1) (nd_ref <$> ns1 ++ ns2) /\
    length (sizebases h1) = 8%nat /\
    (forall b s, sizebases h1 !! Z.to_nat b = Some s -> 0 <= b ->
       chain next_samesize (pagerefs h1) s (nd_ref <$> of_blk b (ns1 ++ ns2))).
Proof.
  intros Hok Hb. pose proof (tables_bound _ _ Hok) as [Hlen _].
  destruct Hok as (Hl & _ & _ & Hnd & _ & Hall & Hsl & Hsame).
  set (b := nd_blk n) in *.
  destruct (lookup_lt_is_Some_2 (sizebases h) (Z.to_nat b)) as [s Hs]; [lia|].
  pose proof (Hsame b s Hs ltac:(lia)) as Hc.
  pose proof (of_blk_refs_NoDup b _ Hnd) as Hndb.
  rewrite of_blk_app, decide_True in Hc, Hndb by done.
  rewrite !fmap_app in Hc, Hndb. cbn [app fmap list_fmap] in Hc, Hndb.
  pose proof (chain_head _ _ _ _ Hc) as Hh. rewrite Hh in Hs, Hc.
  assert (forall b, length (of_blk b ns1) <= length ns1)%nat as Hfl.
  { intros. apply length_filter. }
  rewrite length_app in Hlen.
  destruct (unlink_samesize_spec h b _ _ _ ltac:(lia) Hs Hc Hndb) as (g & c & s1 & He1 & Hcin & Hc1).
  { rewrite length_fmap. specialize (Hfl b). lia. }
  set (h0 := with_sizebases _ _) in He1.
  pose proof Hnd as Hnd0. rewrite fmap_app in Hall, Hnd. cbn [fmap list_fmap] in Hall, Hnd.
  destruct (unlink_all_spec h0 (nd_ref <$> ns1) (nd_ref n) (nd_ref <$> ns2)) as (g' & c' & s2 & He2 & Hc2).
  { simpl. eapply chain_sim; [by apply alter_sim|done]. }
  { done. }
  { rewrite length_fmap. lia. }
  eexists. split.
  { unfold remove_lists, bind, assert, NSIZES. zbool. rewrite He1. exact He2. }
  cbn [pagerefs words pg pagerefs_inuse sizebases allbase h0 with_allbase with_pagerefs with_sizebases].
  split_and!; try done.
  - intros k. by rewrite <- !alter_sim.
  - by rewrite !length_alter.
  - by rewrite fmap_app.
  - by rewrite length_insert.
  - intros b' s' Hs' Hb'. eapply chain_sim; [by apply alter_sim|].
    destruct (decide (b' = b)) as [->|Hne].
    + rewrite list_lookup_insert_eq in Hs' by lia. simplify_eq.
      unfold of_blk. by rewrite filter_app, fmap_app.
    + rewrite list_lookup_insert_ne in Hs' by lia. apply Hsame in Hs'; [|done].
      rewrite of_blk_app, decide_False in Hs' by (unfold b in Hne; congruence).
      unfold of_blk. rewrite filter_app. apply chain_alter_ne; [|done].
      intros Hc'. rewrite <- filter_app in Hc'. apply of_blk_elem in Hc' as (m & Hm & Hmr & Hmb).
      assert (c ∈ nd_ref <$> of_blk b (ns1 ++ n :: ns2)) as Hc''.
      { rewrite of_blk_app, decide_True, !fmap_app by done. exact Hcin. }
      apply of_blk_elem in Hc'' as (m' & Hm' & Hmr' & Hmb').
      assert (m = m') as ->; [|congruence].
      eapply (node_ref_inj (ns1 ++ n :: ns2)); [done|set_solver|done|congruence].
Qed.

End tables.

(** ** kmalloc and kfree *)

Lemma nodes_words prs w w' ns :
  Forall (node_ok prs w) ns ->
  (forall n o, n ∈ ns -> o ∈ nd_free n -> w' !! (nd_page n + o) = w !! (nd_page n + o)) ->
  Forall (node_ok prs w') ns.
Proof.
  rewrite !Forall_forall. intros Hns Hw n Hn.
  destruct (Hns n Hn) as (? & ? & ? & ? & ? & ? & ? & Hl). split_and!; try done; try lia.
  eapply flinks_agree; [|exact Hl]. intros o. by apply Hw.
Qed.

Lemma nodes_alter prs w g ns1 n ns2 n' : NoDup (nd_ref <$> ns1 ++ n :: ns2) ->
  Forall (node_ok prs w) (ns1 ++ n :: ns2) -> node_ok (alter g (nd_ref n) prs) w n' ->
  Forall (node_ok (alter g (nd_ref n) prs) w) (ns1 ++ n' :: ns2).
Proof.
  rewrite fmap_app, fmap_cons, <- Permutation_middle. intros [Hni _]%NoDup_cons Hns Hn'.
  rewrite <- fmap_app in Hni.
  apply Forall_app in Hns as [H1 [_ H2]%Forall_cons].
  assert (forall m, m ∈ ns1 ++ ns2 -> nd_ref n <> nd_ref m) as Hne.
  { intros m Hm He. apply Hni. rewrite He. by apply list_elem_of_fmap_2. }
  rewrite Forall_forall in H1, H2.
  apply Forall_app; split; [|apply Forall_cons; split; [done|]]; apply Forall_forall; intros m Hm;
    (apply node_ok_alter_ne; [apply Hne; set_solver|auto]).
Qed.

Section kmalloc.
Context {P : Type} `{PageLaws P}.
Implicit Types (h : kheap P) (ns : list node) (L G F : gmap Z Z).

Lemma runs_on_pg {A} (m : M P A) h Q E :
  runs m (pg h) (fun a p => Q a (with_pg p h)) (fun e p => E e (with_pg p h)) ->
  runs (on_pg m) h Q E.
Proof. unfold runs, on_pg, zoom. by destruct (m (pg h)) as [[] ?]. Qed.

Lemma pages_apart p G : pages_ok p G -> apart G.
Proof. intros Hp. split; [intros; by eapply pages_range|intros; by eapply pages_disjoint]. Qed.

Lemma runs_splx h n (Q : Z -> kheap P -> Prop) E : 0 <= n ->
  Q (curspl (cpu_of h)) (with_cpu (mk_cpu n (n =? 0)) h) -> runs (splx n) h Q E.
Proof. intros Hn HQ. unfold runs. by rewrite splx_eq. Qed.

Lemma runs_splhigh h (Q : Z -> kheap P -> Prop) E :
  Q (curspl (cpu_of h)) (with_cpu (mk_cpu SPL_HIGH false) h) -> runs splhigh h Q E.
Proof. intros HQ. unfold runs. by rewrite splhigh_eq. Qed.

(** The parts of the representation, and that the interrupt level is not one. *)
Definition rep_parts h ns L G F : Prop :=
  tables_ok h ns /\ Forall (node_ok (pagerefs h) (words h)) ns /\
  ledger_ok ns L G F /\ pages_ok (pg h) G.

Lemma rep_parts_cpu h ns L G F c : spl_ok c -> rep_parts h ns L G F ->
  rep_parts (with_cpu c h) ns L G F.
Proof. intros Hc (? & ? & ? & ?). split_and!; try done. by apply pages_cpu. Qed.

Lemma kheap_rep_parts h L F : kheap_rep h L F <->
  exists ns G, rep_parts h ns L G F /\ Forall in_part ns.
Proof. split; intros (ns & G & ?); exists ns, G; unfold rep_parts in *; naive_solver. Qed.

Lemma kheap_rep_cpu h L F c : spl_ok c -> kheap_rep h L F -> kheap_rep (with_cpu c h) L F.
Proof.
  rewrite !kheap_rep_parts. intros Hc (ns & G & ? & ?). exists ns, G. split; [|done].
  by apply rep_parts_cpu.
Qed.

Lemma spl_ok_mk n : 0 <= n -> spl_ok (mk_cpu n (n =? 0)).
Proof. by split. Qed.

(** [doalloc] and the return after it. *)
Lemma take_block h ns1 n ns2 L G F o fl sz spl :
  rep_parts h (ns1 ++ n :: ns2) L G F -> Forall in_part (ns1 ++ ns2) ->
  nd_free n = o :: fl -> 0 <= sz < LARGEST_SUBPAGE_SIZE -> sz <= size_at (nd_blk n) -> 0 <= spl ->
  runs (p <- doalloc (nd_ref n) ;; splx spl ;;; ret p) h
    (fun p h' => p <> 0 /\ L !! p = None /\ p mod 16 = 0 /\ kheap_rep h' (<[p := sz]> L) F /\
       cpu_of h' = mk_cpu spl (spl =? 0)) (fun _ _ => False).
Proof.
  intros (Ht & Hn & Hl & Hp) Hpart Hfl Hsz Hfit Hspl.
  assert (node_ok (pagerefs h) (words h) n) as Hnn.
  { apply Forall_app in Hn as [_ [? _]%Forall_cons]. done. }
  pose proof Hnn as (_ & Hb & Hlo & Hal & _ & Hnd & Hv & _).
  pose proof (valid_offs_bound _ _ Hb Hnd Hv) as [Hlen _].
  assert (valid_off (nd_blk n) o) as Ho.
  { rewrite Hfl in Hv. by apply Forall_cons in Hv as [? _]. }
  destruct (ledger_take L G F (pages_apart _ _ Hp) ns1 n ns2 o fl sz) as [HpL Hl']; [done..|].
  destruct (size_at_facts _ Hb) as (? & Hmul & ? & Hmod).
  apply runs_bind. eapply runs_intro_ret; [by apply doalloc_eq|].
  apply runs_bind, runs_splx; [done|]. apply runs_ret.
  split_and!.
  - unfold MIPS_KSEG0 in Hlo. destruct Ho. lia.
  - done.
  - destruct Ho as [? Ho]. pose proof (Z.div_mod (nd_page n) 4096 ltac:(lia)).
    pose proof (Z.div_mod o (size_at (nd_blk n)) ltac:(lia)).
    pose proof (Z.div_mod (size_at (nd_blk n)) 16 ltac:(lia)) as Hd.
    set (q := size_at (nd_blk n) / 16) in *. set (r := o / size_at (nd_blk n)) in *.
    replace (nd_page n + o) with (0 + (256 * (nd_page n / 4096) + q * r) * 16) by nia.
    by rewrite Z.mod_add.
  - apply kheap_rep_parts. exists (ns1 ++ with_free fl n :: ns2), G. split.
    + apply rep_parts_cpu; [by apply spl_ok_mk|]. split_and!.
      * eapply tables_sim; [done| | | |done..|]; simpl.
        -- by rewrite length_alter.
        -- by apply alter_sim.
        -- by apply alter_sim.
        -- apply shape_with_free.
      * simpl. apply nodes_alter; [by destruct Ht as (_ & _ & _ & ? & _)|done|].
        by eapply node_ok_doalloc.
      * done.
      * done.
    + apply Forall_app in Hpart as [? ?]. apply Forall_app; split; [done|].
      apply Forall_cons; split; [|done]. unfold in_part; simpl.
      rewrite Hfl in Hlen. simpl in Hlen. unfold nblocks in Hlen. lia.
  - simpl. by rewrite cpu_of_with.
Qed.

(** A fresh page under [pageref] [i], as the code after [alloc_kpages] leaves it. *)
Lemma new_page h ns L G F i b s page w g (p' : P) : rep_parts h ns L G F ->
  (i < NPAGEREFS)%nat -> bit_used (pagerefs_inuse h) i = false ->
  0 <= b < 8 -> sizebases h !! Z.to_nat b = Some s ->
  G !! page = None -> pages_ok p' (<[page := 1]> G) ->
  flinks w page (down (nblocks b) (size_at b)) ->
  (forall a, ~ (page <= a < page + 4096) -> w !! a = words h !! a) ->
  (forall pr, next_all (g pr) = allbase h /\ next_samesize (g pr) = s /\
     core (g pr) = (page + b, first_free (down (nblocks b) (size_at b)), Z.of_nat (nblocks b))) ->
  rep_parts (mk_kheap (alter g i (pagerefs h)) (bit_put Z.lor (pagerefs_inuse h) i)
      (<[Z.to_nat b := Some i]> (sizebases h)) (Some i) w p')
    (mk_node i b page (down (nblocks b) (size_at b)) :: ns) L (<[page := 1]> G) F.
Proof.
  intros (Ht & Hn & Hl & Hp) Hi Hbit Hb Hs Hg Hp' Hfl Hw Hgs.
  pose proof (pages_apart _ _ Hp') as Hap.
  destruct (proj1 Hap _ _ (lookup_insert_eq G page 1)) as (Hlo & Hal & _ & Hhi).
  assert (i ∉ nd_ref <$> ns) as Hfresh.
  { destruct Ht as (_ & _ & _ & _ & Hbits & _). rewrite <- Hbits by done. congruence. }
  assert (Forall (node_ok (pagerefs h) w) ns) as Hnw.
  { apply (nodes_words _ (words h)); [exact Hn|]. intros n o Hnin Ho. apply Hw.
    rewrite Forall_forall in Hn. destruct (Hn n Hnin) as (_ & _ & _ & Hal' & _ & _ & Hv & _).
    rewrite Forall_forall in Hv. destruct (Hv o Ho) as [Hor _].
    pose proof (lo_page _ _ _ _ Hl n Hnin) as Hgn. assert (nd_page n <> page) by congruence.
    destruct (proj2 Hap page (nd_page n) 1 1);
      [apply lookup_insert_eq|by rewrite lookup_insert_ne|done|lia|lia]. }
  split_and!.
  - apply (tables_new h ns (mk_node i b page _) s g w p'); simpl; try done; try lia;
      intros pr; by destruct (Hgs pr) as (? & ? & _).
  - apply Forall_cons; split.
    + destruct (size_at_facts b Hb) as (? & _).
      split_and!; simpl; try done; try lia.
      * destruct Ht as (Hlen & _). destruct (lookup_lt_is_Some_2 (pagerefs h) i) as [pr Hpr]; [by rewrite Hlen|].
        rewrite list_lookup_alter_eq, Hpr; simpl. by rewrite (proj2 (proj2 (Hgs pr))), down_length.
      * apply down_NoDup. lia.
      * apply Forall_forall. intros o Ho. by apply valid_off_down.
    + rewrite Forall_forall in Hnw. apply Forall_forall. intros n Hnin.
      apply node_ok_alter_ne; [|by apply Hnw]. intros ->. apply Hfresh. by apply list_elem_of_fmap_2.
  - by apply ledger_new.
  - done.
Qed.

(** Giving a just-taken [pageref] back. *)
Lemma untake_pageref h ns L G F i p' : rep_parts h ns L G F -> (i < NPAGEREFS)%nat ->
  bit_used (pagerefs_inuse h) i = false -> pages_ok p' G ->
  let h1 := with_pg p' (with_inuse (bit_put Z.lor (pagerefs_inuse h) i) h) in
  exists h2, freepageref i h1 = (Ret tt, h2) /\ rep_parts h2 ns L G F /\ pg h2 = p'.
Proof.
  intros (Ht & Hn & Hl & Hp) Hi Hbit Hp' h1. pose proof (tables_bits _ _ Ht) as Hbits.
  assert (bits_ok (pagerefs_inuse h1)) as Hbits1 by (by apply bit_put_ok; [apply set_word_range|]).
  eexists. split; [apply freepageref_eq; [done|done|]|].
  { simpl. rewrite (bit_put_used _ true) by (done || apply set_word_bit). by rewrite decide_True. }
  split; [|done]. split_and!; try done.
  destruct Ht as (? & ? & ? & ? & Hb & ? & ? & ?).
  destruct (bit_put_ok clear_word _ i clear_word_range Hbits1) as [? ?].
  unfold tables_ok; simpl. split_and!; try done. intros j Hj.
  rewrite (bit_put_used _ false) by (done || apply clear_word_bit).
  rewrite <- Hb by done. case_decide as He; [by rewrite He, Hbit|].
  rewrite (bit_put_used _ true) by (done || apply set_word_bit). by rewrite decide_False.
Qed.

Lemma first_free_down b : 0 <= b < 8 ->
  down (nblocks b) (size_at b) =
    (4096 / size_at b - 1) * size_at b :: down (nblocks b - 1) (size_at b).
Proof.
  intros Hb. destruct (size_at_facts b Hb) as (_ & _ & ? & _). unfold nblocks.
  destruct (Z.to_nat (4096 / size_at b)) as [|k] eqn:E; [lia|].
  simpl. rewrite Nat.sub_0_r. f_equal. f_equal. lia.
Qed.

(** The path of [subpage_kmalloc] that makes a page, once it has a [pageref]. *)
Lemma fresh_page_spec h ns L G F b s sz i c0 :
  rep_parts h ns L G F -> Forall in_part ns -> 0 <= b < 8 -> sz <= size_at b ->
  0 <= sz < LARGEST_SUBPAGE_SIZE -> sizebases h !! Z.to_nat b = Some s ->
  (i < NPAGEREFS)%nat -> bit_used (pagerefs_inuse h) i = false -> spl_ok c0 ->
  runs (prpage <- on_pg (page_alloc 1) ;;
        if prpage =? 0 then freepageref i ;;; splx (curspl c0) ;;; ret 0
        else
          let n := u16 (PAGE_SIZE / size_at b) in
          pr_set i (set_page (MKPAB prpage b)) ;;;
          pr_set i (set_nfree n) ;;;
          fl <- link_blocks prpage (size_at b) n ;;
          let off := u16 (fl - prpage) in
          pr_set i (set_offset off) ;;;
          assert (off =? (n - 1) * size_at b) ;;;
          modify (fun h => with_pagerefs
            (alter (set_samesize (default None (sizebases h !! Z.to_nat b))) i (pagerefs h)) h) ;;;
          modify (fun h => with_sizebases (<[Z.to_nat b := Some i]> (sizebases h)) h) ;;;
          modify (fun h => with_pagerefs (alter (set_all (allbase h)) i (pagerefs h)) h) ;;;
          modify (with_allbase (Some i)) ;;;
          p <- doalloc i ;; splx (curspl c0) ;;; ret p)
    (with_inuse (bit_put Z.lor (pagerefs_inuse h) i) h)
    (fun p h' => cpu_of h' = c0 /\
       ((p = 0 /\ kheap_rep h' L F) \/
        (p <> 0 /\ L !! p = None /\ p mod 16 = 0 /\ kheap_rep h' (<[p := sz]> L) F)))
    (fun _ _ => False).
Proof.
  intros Hrep Hpart Hb Hfit Hsz Hs Hi Hbit Hc0.
  destruct (size_at_facts b Hb) as (Hsz1 & Hmul & Hnb & _).
  apply runs_bind, runs_on_pg. eapply runs_mono; [apply page_alloc_spec; [apply Hrep|lia]| |done].
  intros page p' [[-> Hp']|(Hne & Hg & Hp' & Hcpu)].
  - rewrite Z.eqb_refl.
    destruct (untake_pageref h ns L G F i p' Hrep Hi Hbit Hp') as (h2 & He & Hrep2 & _).
    apply runs_bind. eapply runs_intro_ret; [exact He|].
    apply runs_bind, runs_splx; [apply Hc0|]. apply runs_ret. split.
    + simpl. by rewrite cpu_of_with, spl_ok_eta.
    + left. split; [done|]. apply kheap_rep_parts. exists ns, G. split; [|done].
      apply rep_parts_cpu; [|done]. apply spl_ok_mk. apply Hc0.
  - rewrite (proj2 (Z.eqb_neq _ _)) by done. cbn zeta.
    destruct (proj1 (pages_apart _ _ Hp') _ _ (lookup_insert_eq G page 1)) as (Hlo & Hal & _ & Hhi).
    unfold MIPS_KSEG0, MIPS_KSEG1, PAGE_SIZE in *.
    rewrite u16_small by lia. set (nb := 4096 / size_at b) in *.
    rewrite (MKPAB_eq page b) by lia.
    do 2 (apply runs_bind, runs_modify). apply runs_bind.
    destruct (link_blocks_spec (with_pagerefs
      (alter (set_nfree nb) i (alter (set_page (page + b)) i (pagerefs h)))
      (with_pg p' (with_inuse (bit_put Z.lor (pagerefs_inuse h) i) h))) page (size_at b)
      (Z.to_nat nb - 1)) as (w & Hlk & Hfl & Hw); [lia|lia|nia|].
    replace (S (Z.to_nat nb - 1)) with (nblocks b) in Hlk, Hfl by (unfold nblocks; fold nb; lia).
    replace (Z.of_nat (nblocks b)) with nb in Hlk by (unfold nblocks; fold nb; lia).
    replace (Z.of_nat (Z.to_nat nb - 1)) with (nb - 1) in Hlk, Hw by lia.
    eapply runs_intro_ret; [exact Hlk|]. cbn zeta.
    replace (page + (nb - 1) * size_at b - page) with ((nb - 1) * size_at b) by lia.
    rewrite u16_small by nia.
    apply runs_bind, runs_modify. apply runs_bind, runs_assert; [apply Z.eqb_refl|].
    do 4 (apply runs_bind, runs_modify).
    cbn [with_pagerefs with_pg with_inuse with_sizebases with_words with_allbase pagerefs
         pagerefs_inuse sizebases allbase words pg].
    rewrite Hs, !list_alter_alter_eq. cbn [default from_option].
    pose proof (new_page h ns L G F i b s page w
      (set_all (allbase h) ∘ (set_samesize s ∘ (set_offset ((nb - 1) * size_at b) ∘
        (set_nfree nb ∘ set_page (page + b))))) p' Hrep Hi Hbit Hb Hs Hg Hp' Hfl) as Hnew.
    eapply runs_mono; [eapply (take_block _ [] (mk_node i b page _) ns L)| |done];
      [apply Hnew|exact Hpart|by apply first_free_down|done|done|apply Hc0|].
    + intros a Ha. apply Hw. nia.
    + intros pr. split_and!; [done..|]. rewrite first_free_down by done. unfold core; simpl.
      unfold nblocks. fold nb. do 2 f_equal. lia.
    + intros p h' (? & ? & ? & ? & Hc). split; [|right; by split_and!].
      by rewrite Hc, spl_ok_eta.
Qed.

Lemma subpage_kmalloc_spec h L F sz : kheap_rep h L F -> 0 <= sz < LARGEST_SUBPAGE_SIZE ->
  runs (subpage_kmalloc sz) h
    (fun p h' => cpu_of h' = cpu_of h /\
       ((p = 0 /\ kheap_rep h' L F) \/
        (p <> 0 /\ L !! p = None /\ p mod 16 = 0 /\ kheap_rep h' (<[p := sz]> L) F)))
    (fun _ _ => False).
Proof.
  rewrite kheap_rep_parts. intros (ns & G & Hrep & Hpart) Hsz.
  assert (spl_ok (cpu_of h)) as Hspl by (destruct Hrep as (_ & _ & _ & ?); by apply (pages_spl (pg h) G)).
  destruct (blocktype_spec h sz Hsz) as (b & Hbt & Hb & Hfit).
  unfold subpage_kmalloc. apply runs_bind. eapply runs_intro_ret; [exact Hbt|].
  apply runs_bind, runs_splhigh. apply runs_bind, runs_get.
  apply (rep_parts_cpu _ _ _ _ _ (mk_cpu SPL_HIGH false)) in Hrep; [|by split].
  set (c0 := cpu_of h) in *. set (h1 := with_cpu _ h) in *. clearbody h1.
  pose proof Hrep as (Ht & Hn & Hl & Hp).
  pose proof Ht as (_ & _ & _ & _ & _ & _ & Hsl & Hsame).
  destruct (lookup_lt_is_Some_2 (sizebases h1) (Z.to_nat b)) as [s Hs]; [lia|]. rewrite Hs.
  destruct (tables_bound _ _ Ht) as [Hlen _].
  apply runs_bind.
  destruct (find_page_spec (of_blk b ns) (S NPAGEREFS) h1 s b) as [(l1 & n & l2 & Hof & Hne & He)|[_ He]].
  { by apply Hsame; [|lia]. }
  { rewrite Forall_forall in Hn. apply Forall_forall. intros n [_ ?]%list_elem_of_filter. by apply Hn. }
  { unfold of_blk. apply Forall_forall. by intros n [? _]%list_elem_of_filter. }
  { unfold of_blk. pose proof (length_filter (fun n => nd_blk n = b) ns). lia. }
  - eapply runs_intro_ret; [exact He|].
    assert (n ∈ of_blk b ns) as [Hnb Hnin]%list_elem_of_filter by (rewrite Hof; set_solver).
    apply list_elem_of_split in Hnin as (ns1 & ns2 & ->).
    apply Forall_app in Hpart as [? [_ ?]%Forall_cons].
    destruct (nd_free n) as [|o fl] eqn:Hfl; [done|].
    eapply runs_mono; [eapply (take_block h1 ns1 n ns2 L G F o fl sz)| |done]; try done.
    + by apply Forall_app.
    + by rewrite Hnb.
    + apply Hspl.
    + intros p h' (? & ? & ? & ? & Hc). split; [|right; by split_and!].
      by rewrite Hc, spl_ok_eta.
  - eapply runs_intro_ret; [exact He|]. apply runs_bind.
    destruct (allocpageref_spec h1 (tables_bits _ _ Ht)) as [(i & Hi & Hbit & Ha)|Ha];
      (eapply runs_intro_ret; [exact Ha|]).
    + by eapply fresh_page_spec.
    + apply runs_bind, runs_splx; [apply Hspl|]. apply runs_ret. split.
      * simpl. by rewrite cpu_of_with, spl_ok_eta.
      * left. split; [done|]. apply kheap_rep_parts. exists ns, G. split; [|done].
        apply rep_parts_cpu; [|done]. apply spl_ok_mk. apply Hspl.
Qed.

(** Putting a block back on the free list of its page. *)
Lemma put_block h ns1 n ns2 L G F o sz w :
  rep_parts h (ns1 ++ n :: ns2) L G F -> L !! (nd_page n + o) = Some sz ->
  sz < LARGEST_SUBPAGE_SIZE -> valid_off (nd_blk n) o -> o ∉ nd_free n ->
  (forall a, ~ (nd_page n + o <= a < nd_page n + o + size_at (nd_blk n)) -> w !! a = words h !! a) ->
  let w' := <[nd_page n + o := match nd_free n with [] => 0 | o' :: _ => nd_page n + o' end]> w in
  rep_parts (with_pagerefs (alter (set_free o (Z.of_nat (length (nd_free n)) + 1)) (nd_ref n) (pagerefs h))
      (with_words w' h))
    (ns1 ++ with_free (o :: nd_free n) n :: ns2) (delete (nd_page n + o) L) G F.
Proof.
  intros (Ht & Hn & Hl & Hp) HL Hsz Ho Hof Hw w'.
  assert (node_ok (pagerefs h) (words h) n) as Hnn.
  { apply Forall_app in Hn as [_ [? _]%Forall_cons]. done. }
  pose proof (pages_apart _ _ Hp) as Hap.
  assert (Forall (node_ok (pagerefs h) w') (ns1 ++ n :: ns2)) as Hn'.
  { apply (nodes_words _ (words h)); [done|]. intros m x Hm Hx.
    rewrite Forall_forall in Hn. destruct (Hn m Hm) as (_ & Hmb & _ & Hmal & _ & _ & Hmv & _).
    rewrite Forall_forall in Hmv. specialize (Hmv x Hx).
    destruct Hnn as (_ & Hb & _ & Hal & _).
    pose proof (valid_off_end _ _ Hb Ho). pose proof (valid_off_end _ _ Hmb Hmv).
    destruct (size_at_facts _ Hb) as (? & _). destruct (size_at_facts _ Hmb) as (? & _).
    assert (~ (nd_page n + o <= nd_page m + x < nd_page n + o + size_at (nd_blk n))) as Hout.
    { destruct (decide (nd_page m = nd_page n)) as [He|Hne].
      - assert (m = n) as -> by (eapply node_page_inj; [by eapply lo_nodup|done|set_solver|done]).
        destruct (valid_off_apart _ o x Hb Ho Hmv); [congruence|lia|lia].
      - destruct Ho as [? _], Hmv as [? _].
        destruct (proj2 Hap (nd_page m) (nd_page n) 1 1);
          [by eapply lo_page|eapply lo_page; [done|set_solver]|done|lia|lia]. }
    unfold w'. rewrite lookup_insert_ne by lia. by apply Hw. }
  split_and!.
  - eapply tables_sim; [exact Ht|by simpl; rewrite length_alter|by apply alter_sim|by apply alter_sim
      |done..|apply shape_with_free].
  - simpl. apply nodes_alter; [by destruct Ht as (_ & _ & _ & ? & _)|done|].
    destruct Hnn as (Hc & ? & ? & ? & ? & Hnd & Hv & _).
    apply Forall_app in Hn' as [_ [(_ & _ & _ & _ & _ & _ & _ & Hlk) _]%Forall_cons].
    split_and!; simpl; try done; try lia.
    + rewrite list_lookup_alter_eq. apply fmap_Some in Hc as (pr & -> & Hc). simpl.
      unfold core in *; simpl. injection Hc as -> _ _. do 2 f_equal. lia.
    + by apply NoDup_cons.
    + by apply Forall_cons.
    + split; [apply lookup_insert_eq|done].
  - by apply (ledger_give L G F Hap ns1 n ns2 o sz).
  - done.
Qed.

(** A page that has become entirely free leaves the tables. *)
Lemma drop_page h ns1 n ns2 L G F :
  rep_parts h (ns1 ++ n :: ns2) L G F -> length (nd_free n) = nblocks (nd_blk n) ->
  runs (remove_lists (nd_ref n) (nd_blk n) ;;;
        on_pg (page_free (nd_page n)) ;;; freepageref (nd_ref n)) h
    (fun _ h' => rep_parts h' (ns1 ++ ns2) L (delete (nd_page n) G) F /\ cpu_of h' = cpu_of h)
    (fun _ _ => False).
Proof.
  intros (Ht & Hn & Hl & Hp) Hfull.
  assert (node_ok (pagerefs h) (words h) n) as (_ & Hb & _ & _ & _ & Hnd & Hv & _).
  { apply Forall_app in Hn as [_ [? _]%Forall_cons]. done. }
  destruct (remove_lists_spec h ns1 n ns2 Ht Hb)
    as (h1 & He & Hw1 & Hpg1 & Hi1 & Hcore & Hl1 & Hca & Hsl & Hcs).
  apply runs_bind. eapply runs_intro_ret; [exact He|].
  apply runs_bind, runs_on_pg. rewrite Hpg1.
  assert (n ∈ ns1 ++ n :: ns2) as Hin by set_solver.
  eapply runs_mono; [eapply (page_free_spec (pg h) G); [exact Hp|by eapply lo_page]| |done].
  intros [] p' [Hp' Hcpu].
  pose proof (tables_bits _ _ Ht) as Hbits. destruct (tables_bound _ _ Ht) as [_ Hlt].
  destruct Ht as (_ & _ & _ & Hndr & Hbit & _).
  eapply runs_intro_ret.
  { apply freepageref_eq; [by simpl; rewrite Hi1|by apply Hlt|].
    simpl. rewrite Hi1. apply Hbit; [by apply Hlt|]. by apply list_elem_of_fmap_2. }
  destruct (bit_put_ok clear_word _ (nd_ref n) clear_word_range Hbits) as [? ?].
  assert (NoDup (nd_ref <$> n :: ns1 ++ ns2)) as [Hnr ?]%NoDup_cons.
  { by rewrite Permutation_middle. }
  split; [|by simpl]. split_and!.
  - unfold tables_ok; simpl. rewrite Hi1. split_and!; try done.
    intros j Hj. rewrite (bit_put_used _ false) by (done || apply clear_word_bit || by apply Hlt).
    case_decide as Hje; [rewrite Hje; split; [done|by intros ?%Hnr]|].
    rewrite Hbit by done. rewrite !fmap_app, fmap_cons. set_solver.
  - simpl. rewrite Hw1. apply Forall_forall. intros m Hm. eapply node_ok_sim; [exact Hcore|].
    rewrite Forall_forall in Hn. apply Hn. set_solver.
  - apply ledger_drop; [done|]. by apply valid_offs_bound.
  - done.
Qed.

(** The page a held small block is on. *)
Lemma owner_found h ns L G F p sz : rep_parts h ns L G F -> L !! p = Some sz ->
  sz < LARGEST_SUBPAGE_SIZE ->
  exists ns1 n ns2 o, ns = ns1 ++ n :: ns2 /\ p = nd_page n + o /\ valid_off (nd_blk n) o /\
    o ∉ nd_free n /\ find_owner (S NPAGEREFS) (allbase h) p h = (Ret (Some (nd_ref n)), h).
Proof.
  intros (Ht & Hn & Hl & Hp) HL Hsz.
  destruct (lo_small _ _ _ _ Hl _ _ HL Hsz) as (n & o & Hnin & -> & Ho & Hof & _).
  pose proof (tables_bound _ _ Ht) as [Hlen _]. pose proof Ht as (_ & _ & _ & _ & _ & Hall & _).
  pose proof (pages_apart _ _ Hp) as Hap.
  destruct (find_owner_spec ns (S NPAGEREFS) h (allbase h) (nd_page n + o))
    as [(m & Hm & Hr & He)|[Hno _]]; [done|done|lia| |].
  - assert (n = m) as ->.
    { eapply node_page_inj; [by eapply lo_nodup|done|done|].
      destruct (decide (nd_page m = nd_page n)); [done|].
      destruct Ho as [? _]. destruct (proj2 Hap (nd_page m) (nd_page n) 1 1);
        [by eapply lo_page|by eapply lo_page|done|lia|lia]. }
    apply list_elem_of_split in Hnin as (ns1 & ns2 & ->). by exists ns1, m, ns2, o.
  - destruct Ho as [? _]. destruct (Hno n Hnin). lia.
Qed.

Lemma subpage_kfree_small h L F p sz : kheap_rep h L F -> L !! p = Some sz ->
  sz < LARGEST_SUBPAGE_SIZE ->
  runs (subpage_kfree p) h
    (fun r h' => r = 0 /\ kheap_rep h' (delete p L) F /\ cpu_of h' = cpu_of h) (fun _ _ => False).
Proof.
  rewrite kheap_rep_parts. intros (ns & G & Hrep & Hpart) HL Hsz.
  assert (spl_ok (cpu_of h)) as Hspl by (destruct Hrep as (_ & _ & _ & ?); by apply (pages_spl (pg h) G)).
  unfold subpage_kfree. apply runs_bind, runs_splhigh. apply runs_bind, runs_get.
  apply (rep_parts_cpu _ _ _ _ _ (mk_cpu SPL_HIGH false)) in Hrep; [|by split].
  set (c0 := cpu_of h) in *. set (h1 := with_cpu _ h) in *. clearbody h1.
  destruct (owner_found h1 ns L G F p sz Hrep HL Hsz) as (ns1 & n & ns2 & o & -> & -> & Ho & Hof & He).
  apply runs_bind. eapply runs_intro_ret; [exact He|].
  assert (node_ok (pagerefs h1) (words h1) n) as Hnn.
  { destruct Hrep as (_ & Hn & _). apply Forall_app in Hn as [_ [? _]%Forall_cons]. done. }
  destruct (node_ok_lookup _ _ _ Hnn) as (pr & Hpr & Hpage & Hblk & Hoff & Hnf).
  pose proof Hnn as (_ & Hb & Hlo & Hal & Hhi & Hnd & Hv & _).
  apply runs_bind. eapply runs_intro_ret; [by apply pr_at_eq|]. cbn zeta.
  rewrite Hpage, Hblk, Hoff, Hnf. unfold MIPS_KSEG0, MIPS_KSEG1, PAGE_SIZE in *.
  destruct (size_at_facts _ Hb) as (Hs1 & _ & Hnb & _). pose proof (valid_off_end _ _ Hb Ho).
  destruct (valid_offs_bound _ _ Hb (NoDup_cons_2 _ _ Hof Hnd) (Forall_cons_2 _ _ _ Ho Hv)) as [Hle _].
  cbn [length] in Hle. unfold nblocks in Hle. pose proof Ho as [Hor Hom].
  replace (nd_page n + o - nd_page n) with o by lia. rewrite (u32_small o) by lia.
  rewrite Hom, (proj2 (Z.eqb_eq 0 0)) by done. zbool.
  destruct (fill_deadbeef_spec h1 (nd_page n + o) (size_at (nd_blk n))) as (w & Hfill & Hw); [lia..|].
  apply runs_bind. eapply runs_intro_ret; [exact Hfill|].
  assert (forall Q E, Q tt (with_words (<[nd_page n + o := match nd_free n with [] => 0 | o' :: _ => nd_page n + o' end]> w) h1) ->
    runs (if first_free (nd_free n) =? INVALID_OFFSET then store (u32 (nd_page n + o)) 0
          else store (u32 (nd_page n + o)) (u32 (nd_page n + first_free (nd_free n))))
      (with_words w h1) Q E) as Hstore.
  { intros Q E HQ. rewrite (u32_small (nd_page n + o)) by lia. destruct (nd_free n) as [|o' fl]; [exact HQ|].
    apply Forall_cons in Hv as [[? _] _]. simpl first_free. unfold INVALID_OFFSET.
    rewrite u32_small by lia. zbool. exact HQ. }
  apply runs_bind, Hstore. apply runs_bind, runs_modify. cbn zeta.
  rewrite !u16_small by lia. apply runs_bind, runs_assert; [lia|].
  pose proof (put_block h1 ns1 n ns2 L G F o sz w Hrep HL Hsz Ho Hof Hw) as Hrep2. cbn zeta in Hrep2.
  set (h2 := with_pagerefs _ _) in *. 
  assert (forall h3 ns3 G3, rep_parts h3 ns3 (delete (nd_page n + o) L) G3 F -> Forall in_part ns3 ->
    runs (splx (curspl c0) ;;; ret 0) h3
      (fun r h' => r = 0 /\ kheap_rep h' (delete (nd_page n + o) L) F /\ cpu_of h' = c0) (fun _ _ => False)) as Hend.
  { intros h3 ns3 G3 Hr3 Hp3. apply runs_bind, runs_splx; [apply Hspl|]. apply runs_ret.
    split_and!; [done| |simpl; by rewrite cpu_of_with, spl_ok_eta].
    apply kheap_rep_parts. exists ns3, G3. split; [|done].
    apply rep_parts_cpu; [apply spl_ok_mk; apply Hspl|done]. }
  apply Forall_app in Hpart as [? [_ ?]%Forall_cons].
  apply runs_bind. destruct (Z.eqb_spec (Z.of_nat (length (nd_free n)) + 1) (4096 / size_at (nd_blk n))).
  - eapply runs_mono; [eapply (drop_page h2 ns1 (with_free (o :: nd_free n) n) ns2); [exact Hrep2|]| |done].
    + unfold nblocks; simpl. lia.
    + intros [] h3 [Hr3 _]. eapply Hend; [exact Hr3|]. by apply Forall_app.
  - apply runs_ret. eapply Hend; [exact Hrep2|]. apply Forall_app. split; [done|].
    apply Forall_cons. split; [|done]. unfold in_part; simpl. lia.
Qed.

(** A pointer that is on no page of the subpage allocator. *)
Lemma subpage_kfree_large h L F p sz : kheap_rep h L F -> L !! p = Some sz ->
  LARGEST_SUBPAGE_SIZE <= sz -> subpage_kfree p h = (Ret (-1), h).
Proof.
  rewrite kheap_rep_parts. intros (ns & G & Hrep & _) HL Hsz.
  assert (spl_ok (cpu_of h)) as Hspl by (destruct Hrep as (_ & _ & _ & ?); by apply (pages_spl (pg h) G)).
  unfold subpage_kfree, bind. rewrite splhigh_eq. unfold get.
  apply (rep_parts_cpu _ _ _ _ _ (mk_cpu SPL_HIGH false)) in Hrep; [|by split].
  destruct Hrep as (Ht & Hn & Hl & Hp).
  pose proof (tables_bound _ _ Ht) as [Hlen _]. pose proof Ht as (_ & _ & _ & _ & _ & Hall & _).
  destruct (find_owner_spec ns (S NPAGEREFS) _ _ p Hall Hn ltac:(lia)) as [(m & Hm & Hr & _)|[_ ->]].
  - exfalso. eapply (large_not_on_page L G F (pages_apart _ _ Hp) ns p sz m (p - nd_page m)); try done; lia.
  - rewrite splx_eq by apply Hspl. rewrite with_cpu_with.
    rewrite spl_ok_eta by done. by rewrite with_cpu_of.
Qed.

Lemma kmalloc_rep h L F sz : kheap_rep h L F -> 0 <= sz < 2 ^ 31 ->
  runs (kmalloc sz) h
    (fun p h' => (p = 0 /\ kheap_rep h' L F) \/
       (p <> 0 /\ L !! p = None /\ p mod 16 = 0 /\ kheap_rep h' (<[p := sz]> L) F /\
        cpu_of h' = cpu_of h))
    (fun _ _ => False).
Proof.
  intros Hrep Hsz. unfold kmalloc, LARGEST_SUBPAGE_SIZE, PAGE_SIZE.
  destruct (Z.geb_spec sz 2048) as [Hge|Hlt].
  - rewrite u32_small by lia. destruct Hrep as (ns & G & Ht & Hn & Hpart & Hl & Hp).
    assert (0 < (sz + 4096 - 1) / 4096) by (apply Z.div_str_pos; lia).
    apply runs_on_pg. eapply runs_mono; [by apply page_alloc_spec| |done].
    intros p p' [[-> Hp']|(Hne & Hg & Hp' & Hcpu)].
    + left. split; [done|]. by exists ns, G.
    + right. pose proof (pages_apart _ _ Hp') as Hap.
      destruct (ledger_large L G F ns p sz Hap Hl Hg) as [HL Hl']; [unfold LARGEST_SUBPAGE_SIZE; lia|].
      split_and!; [done|done| | |done].
      * destruct (proj1 Hap _ _ (lookup_insert_eq G p _)) as (_ & Hal & _).
        pose proof (Z.div_mod p 4096 ltac:(lia)).
        replace p with (0 + (256 * (p / 4096)) * 16) by lia. by rewrite Z.mod_add.
      * by exists ns, (<[p := DIVROUNDUP sz 4096]> G).
  - eapply runs_mono; [apply subpage_kmalloc_spec; [done|unfold LARGEST_SUBPAGE_SIZE; lia]| |done].
    intros p h' [? [?|(? & ? & ? & ?)]]; [by left|right; by split_and!].
Qed.

Lemma kfree_rep h L F p sz : kheap_rep h L F -> L !! p = Some sz -> p <> 0 ->
  runs (kfree p) h
    (fun _ h' => kheap_rep h' (delete p L) F /\ cpu_of h' = cpu_of h) (fun _ _ => False).
Proof.
  intros Hrep HL Hp0. unfold kfree. rewrite (proj2 (Z.eqb_neq _ _)) by done.
  apply runs_bind. destruct (decide (sz < LARGEST_SUBPAGE_SIZE)) as [Hlt|Hge].
  - eapply runs_mono; [by eapply subpage_kfree_small| |done].
    intros r h' (-> & ? & ?). by apply runs_ret.
  - eapply runs_intro_ret; [by eapply subpage_kfree_large; [done..|lia]|]. zbool.
    destruct Hrep as (ns & G & Ht & Hn & Hpart & Hl & Hp).
    destruct (lo_large _ _ _ _ Hl _ _ HL ltac:(lia)) as [Hg _].
    destruct (proj1 (pages_apart _ _ Hp) _ _ Hg) as (_ & Hal & _).
    apply runs_bind, runs_assert; [unfold PAGE_SIZE; by rewrite Hal|].
    apply runs_on_pg. eapply runs_mono; [by eapply page_free_spec| |done].
    intros [] p' [Hp' ?]. split; [|done]. exists ns, (delete p G). split_and!; try done.
    eapply ledger_unlarge; [done..|lia].
Qed.

(** The run of pages a held block lies in: its own, or a page of the subpage
    allocator. *)
Lemma held_extent h ns L G F p n : rep_parts h ns L G F -> L !! p = Some n ->
  exists page k, G !! page = Some k /\ page <= p /\ p + n <= page + 4096 * k /\ F !! page = None /\
    ((p = page /\ LARGEST_SUBPAGE_SIZE <= n /\ page ∉ nd_page <$> ns) \/
     (exists m o, m ∈ ns /\ page = nd_page m /\ p = page + o /\ 0 <= nd_blk m < 8 /\
        valid_off (nd_blk m) o /\ n <= size_at (nd_blk m))).
Proof.
  intros (Ht & Hn & Hl & Hp) HL.
  destruct (decide (n < LARGEST_SUBPAGE_SIZE)) as [Hlt|Hge].
  - destruct (lo_small _ _ _ _ Hl _ _ HL Hlt) as (m & o & Hm & -> & Ho & _ & Hfit).
    rewrite Forall_forall in Hn. destruct (Hn m Hm) as (_ & Hb & _).
    pose proof (valid_off_end _ _ Hb Ho). pose proof Ho as [? _].
    exists (nd_page m), 1. split_and!; try lia; [by eapply lo_page| |right; by exists m, o].
    apply eq_None_not_Some. intros [k Hk]. destruct (lo_foreign _ _ _ _ Hl _ _ Hk) as (_ & Hni & _).
    apply Hni. by apply list_elem_of_fmap_2.
  - destruct (lo_large _ _ _ _ Hl _ _ HL ltac:(lia)) as [Hg Hni].
    pose proof (Z.mul_succ_div_gt (n + 4096 - 1) 4096 ltac:(lia)). unfold DIVROUNDUP in *.
    exists p, ((n + 4096 - 1) / 4096). split_and!; try done; try lia; [|left; by split_and!; try lia].
    apply eq_None_not_Some. intros [k Hk]. destruct (lo_foreign _ _ _ _ Hl _ _ Hk) as (_ & _ & Hs).
    apply Hs in HL. lia.
Qed.

(** Held blocks are in kseg0, apart from the pages of the other users of the page
    allocator, and apart from one another. *)
Lemma held_range h L F p n : kheap_rep h L F -> L !! p = Some n ->
  MIPS_KSEG0 <= p /\ p + n <= MIPS_KSEG1 /\
  forall a k, F !! a = Some k -> a + 4096 * k <= p \/ p + n <= a.
Proof.
  rewrite kheap_rep_parts. intros (ns & G & Hrep & _) HL.
  destruct (held_extent h ns L G F p n Hrep HL) as (page & j & Hg & ? & ? & HF & _).
  destruct Hrep as (_ & _ & Hl & Hp). pose proof (pages_apart _ _ Hp) as Hap.
  destruct (proj1 Hap _ _ Hg) as (? & _ & _ & ?). split_and!; [lia|lia|].
  intros a k Ha. destruct (lo_foreign _ _ _ _ Hl _ _ Ha) as (Hga & _).
  assert (a <> page) by congruence.
  destruct (proj2 Hap a page k j) as [?|?]; [done|done|done|left; lia|right; lia].
Qed.

Lemma held_disjoint h L F p q n m : kheap_rep h L F -> L !! p = Some n -> L !! q = Some m ->
  p <> q -> p + n <= q \/ q + m <= p.
Proof.
  rewrite kheap_rep_parts. intros (ns & G & Hrep & _) HLp HLq Hne.
  destruct (held_extent h ns L G F p n Hrep HLp) as (pp & kp & Hgp & ? & ? & _ & Hcp).
  destruct (held_extent h ns L G F q m Hrep HLq) as (pq & kq & Hgq & ? & ? & _ & Hcq).
  destruct Hrep as (_ & _ & Hl & Hp). pose proof (pages_apart _ _ Hp) as Hap.
  destruct (decide (pp = pq)) as [<-|Hpq].
  - destruct Hcp as [(-> & _ & Hni)|(x & o & Hx & -> & -> & Hb & Ho & Hfit)],
      Hcq as [(-> & _ & Hni')|(x' & o' & Hx' & Heq & -> & _ & Ho' & Hfit')].
    + done.
    + destruct Hni. rewrite Heq. by apply list_elem_of_fmap_2.
    + destruct Hni'. by apply list_elem_of_fmap_2.
    + rewrite <- (node_page_inj ns x x' (lo_nodup _ _ _ _ Hl) Hx Hx' Heq) in *.
      destruct (valid_off_apart (nd_blk x) o o'); [done|done|done|congruence|left; lia|right; lia].
  - destruct (proj2 Hap pp pq kp kq) as [?|?]; [done|done|done|left; lia|right; lia].
Qed.

(** ** Other users of the page allocator *)

Lemma ledger_foreign_add ns L G F a n : ledger_ok ns L G F -> G !! a = None ->
  F !! a = None /\ ledger_ok ns L (<[a := n]> G) (<[a := n]> F).
Proof.
  intros Hl Hg.
  assert (F !! a = None) as HF.
  { destruct (F !! a) as [k|] eqn:E; [|done]. destruct (lo_foreign _ _ _ _ Hl _ _ E). congruence. }
  split; [done|]. split.
  - intros m Hm. pose proof (lo_page _ _ _ _ Hl m Hm). by rewrite lookup_insert_ne by congruence.
  - by eapply lo_nodup.
  - by eapply lo_nonneg.
  - by eapply lo_small.
  - intros p sz Hp Hsz. destruct (lo_large _ _ _ _ Hl _ _ Hp Hsz).
    by rewrite lookup_insert_ne by congruence.
  - by eapply lo_used.
  - intros b k. rewrite !lookup_insert. case_decide as He; [|by apply (lo_foreign _ _ _ _ Hl)].
    intros [= <-]. rewrite <- He. split_and!; [done| |].
    + intros (m & -> & Hm)%list_elem_of_fmap. by rewrite (lo_page _ _ _ _ Hl m Hm) in Hg.
    + intros sz Hsz. destruct (decide (sz < LARGEST_SUBPAGE_SIZE)); [done|].
      destruct (lo_large _ _ _ _ Hl _ _ Hsz ltac:(lia)). congruence.
  - intros b k. rewrite !lookup_insert. case_decide; [by right; right|]. by apply lo_cover.
Qed.

Lemma ledger_foreign_del ns L G F a n : ledger_ok ns L G F -> F !! a = Some n ->
  ledger_ok ns L (delete a G) (delete a F).
Proof.
  intros Hl Ha. destruct (lo_foreign _ _ _ _ Hl _ _ Ha) as (Hg & Hni & Hs). split.
  - intros m Hm. rewrite lookup_delete_ne; [by eapply lo_page|].
    intros ->. apply Hni. by apply list_elem_of_fmap_2.
  - by eapply lo_nodup.
  - by eapply lo_nonneg.
  - by eapply lo_small.
  - intros p sz Hp Hsz. rewrite lookup_delete_ne; [by eapply lo_large|].
    intros ->. apply Hs in Hp. lia.
  - by eapply lo_used.
  - intros b k [? Hb]%lookup_delete_Some. rewrite lookup_delete_ne by done. by eapply lo_foreign.
  - intros b k [? Hb]%lookup_delete_Some. rewrite lookup_delete_ne by done. by eapply lo_cover.
Qed.

Lemma rep_pages h L F : kheap_rep h L F -> exists G, pages_ok (pg h) G /\
  forall a n, F !! a = Some n -> G !! a = Some n.
Proof.
  intros (ns & G & _ & _ & _ & Hl & Hp). exists G. split; [done|].
  intros a n Ha. by destruct (lo_foreign _ _ _ _ Hl _ _ Ha).
Qed.

Lemma rep_foreign_add h L F a n p' : kheap_rep h L F ->
  (forall G, pages_ok (pg h) G -> G !! a = None /\ pages_ok p' (<[a := n]> G)) ->
  F !! a = None /\ kheap_rep (with_pg p' h) L (<[a := n]> F).
Proof.
  intros (ns & G & ? & ? & ? & Hl & Hp) Hnew. destruct (Hnew G Hp) as [Hg Hp'].
  destruct (ledger_foreign_add ns L G F a n Hl Hg). split; [done|]. by exists ns, (<[a := n]> G).
Qed.

Lemma rep_foreign_del h L F a n p' : kheap_rep h L F -> F !! a = Some n ->
  (forall G, pages_ok (pg h) G -> G !! a = Some n -> pages_ok p' (delete a G)) ->
  kheap_rep (with_pg p' h) L (delete a F).
Proof.
  intros (ns & G & ? & ? & ? & Hl & Hp) Ha Hdel. exists ns, (delete a G).
  split_and!; try done; [by eapply ledger_foreign_del|].
  apply Hdel; [done|]. by destruct (lo_foreign _ _ _ _ Hl _ _ Ha).
Qed.

Lemma rep_large_add h L F a sz p' : kheap_rep h L F -> LARGEST_SUBPAGE_SIZE <= sz < 2 ^ 31 ->
  (forall G, pages_ok (pg h) G ->
     G !! a = None /\ pages_ok p' (<[a := DIVROUNDUP sz 4096]> G)) ->
  L !! a = None /\ kheap_rep (with_pg p' h) (<[a := sz]> L) F.
Proof.
  intros (ns & G & ? & ? & ? & Hl & Hp) Hsz Hnew. destruct (Hnew G Hp) as [Hg Hp'].
  destruct (ledger_large L G F ns a sz (pages_apart _ _ Hp') Hl Hg Hsz).
  split; [done|]. by exists ns, (<[a := DIVROUNDUP sz 4096]> G).
Qed.

(** At startup the heap has no pages. *)
Lemma kheap_boot_rep p G : pages_ok p G -> kheap_rep (kheap_boot p) ∅ G.
Proof.
  intros Hp. exists [], G. split_and!; [|constructor|constructor| |done].
  - unfold tables_ok, kheap_boot. cbn [pagerefs pagerefs_inuse sizebases allbase].
    split_and!; try done.
    + by repeat constructor.
    + constructor.
    + intros i Hi. unfold bit_used.
      assert (default 0 (replicate INUSE_WORDS 0 !! (i / 32)%nat) = 0) as ->.
      { destruct (replicate INUSE_WORDS 0 !! (i / 32)%nat) as [w|] eqn:E; [|done].
        by apply lookup_replicate_1 in E as [-> _]. }
      rewrite Z.testbit_0_l. split; [done|set_solver].
    + intros b s Hs _.
      assert (s = None) as ->; [|done].
      by apply lookup_replicate_1 in Hs as [? _].
  - split; try set_solver. constructor.
Qed.

(** When clients hold nothing, the page allocator's ledger is what the others
    hold. *)
Lemma no_leak h F : kheap_rep h ∅ F -> pages_ok (pg h) F.
Proof.
  intros (ns & G & Ht & Hn & Hpart & Hl & Hp).
  assert (ns = []) as ->.
  { destruct ns as [|n ns]; [done|exfalso].
    apply Forall_cons in Hn as [(_ & Hb & _ & _ & _ & Hnd & Hv & _) _].
    apply Forall_cons in Hpart as [Hpart _]. unfold in_part in Hpart.
    destruct (decide (Forall (fun o => o ∈ nd_free n) (down (nblocks (nd_blk n)) (size_at (nd_blk n)))))
      as [Hall|Hex].
    - rewrite Forall_forall in Hall.
      assert (down (nblocks (nd_blk n)) (size_at (nd_blk n)) ⊆+ nd_free n) as Hsub.
      { apply NoDup_submseteq; [|exact Hall]. apply down_NoDup.
        destruct (size_at_facts _ Hb) as (? & _). lia. }
      apply submseteq_length in Hsub. rewrite down_length in Hsub. unfold nblocks in Hsub. lia.
    - apply not_Forall_Exists in Hex; [|apply _]. apply Exists_exists in Hex as (o & Ho & Hnf).
      apply valid_off_down in Ho; [|done].
      destruct (lo_used _ _ _ _ Hl n o ltac:(set_solver) Ho Hnf) as (sz & Hu & _).
      by rewrite lookup_empty in Hu. }
  replace F with G; [done|]. apply map_eq. intros a.
  destruct (G !! a) as [k|] eqn:Eg.
  - destruct (lo_cover _ _ _ _ Hl _ _ Eg) as [?|[(sz & ? & _)|?]]; [set_solver| |done].
    by rewrite lookup_empty in *.
  - destruct (F !! a) as [k|] eqn:Ef; [|done]. apply (lo_foreign _ _ _ _ Hl) in Ef as [? _]. congruence.
Qed.

(** ** The consistency checks *)

Lemma count_free_spec w page blk fl : forall fuel h cnt,
  words h = w -> 0 <= blk < 8 -> MIPS_KSEG0 <= page -> page + 4096 <= MIPS_KSEG1 ->
  Forall (valid_off blk) fl -> flinks w page fl -> (length fl < fuel)%nat ->
  count_free fuel page (size_at blk) (match fl with [] => 0 | o :: _ => page + o end) cnt h =
    (Ret (cnt + Z.of_nat (length fl)), h).
Proof.
  induction fl as [|o fl IH]; intros [|fuel] h cnt Hw Hb Hlo Hhi Hv Hl Hf; simpl in Hf; try lia.
  - simpl. unfold ret. by rewrite Z.add_0_r.
  - apply Forall_cons in Hv as [[Ho Hm] Hv]. destruct Hl as [Ho1 Hl].
    unfold MIPS_KSEG0, MIPS_KSEG1 in *. cbn [count_free].
    rewrite (proj2 (Z.eqb_neq _ _)) by lia.
    unfold bind, assert, PAGE_SIZE, MIPS_KSEG0, MIPS_KSEG1. rewrite u32_small by lia.
    replace (page + o - page) with o by lia. rewrite Hm, Z.eqb_refl. zbool.
    rewrite (load_eq h (page + o) (match fl with [] => 0 | o' :: _ => page + o' end)) by congruence.
    rewrite IH; [|done..|lia]. f_equal. f_equal. simpl length. lia.
Qed.

Lemma checksubpage_pass h n : node_ok (pagerefs h) (words h) n -> 0 < curspl (cpu_of h) ->
  checksubpage (nd_ref n) h = (Ret tt, h).
Proof.
  intros Hn Hspl. pose proof (node_free_bound _ _ _ Hn).
  destruct (node_ok_lookup _ _ _ Hn) as (pr & Hpr & Hpage & Hblk & Hoff & Hnf).
  destruct Hn as (_ & Hb & Hlo & Hal & Hhi & Hnd & Hv & Hl).
  pose proof (count_free_spec _ _ _ _ (S NPAGEREFS) h 0 eq_refl Hb Hlo Hhi Hv Hl
    ltac:(unfold NPAGEREFS; lia)) as Hcnt.
  unfold checksubpage, bind, gets, assert. zbool. rewrite (pr_at_eq _ _ _ Hpr), Hoff, Hnf, Hpage, Hblk.
  destruct (nd_free n) as [|o fl]; [done|]. cbn [first_free] in *.
  apply Forall_cons in Hv as [[Ho Hm] _]. unfold INVALID_OFFSET, PAGE_SIZE, MIPS_KSEG0, MIPS_KSEG1 in *.
  zbool. rewrite u32_small, Hcnt by lia. by rewrite Z.add_0_l, Z.eqb_refl.
Qed.

Lemma check_list_pass next ns : forall fuel h s cnt,
  chain next (pagerefs h) s (nd_ref <$> ns) -> Forall (node_ok (pagerefs h) (words h)) ns ->
  0 < curspl (cpu_of h) -> (length ns < fuel)%nat ->
  cnt + Z.of_nat (length ns) <= Z.of_nat NPAGEREFS ->
  check_list fuel next s cnt h = (Ret (cnt + Z.of_nat (length ns)), h).
Proof.
  induction ns as [|n ns IH]; intros [|fuel] h s cnt Hc Hn Hspl Hf Hcnt; simpl in Hf; try lia.
  - simpl in Hc. rewrite Hc. simpl. unfold ret. by rewrite Z.add_0_r.
  - destruct Hc as (-> & pr & Hpr & Hc). apply Forall_cons in Hn as [Hn Hns].
    cbn [length] in *. simpl. unfold bind, assert.
    rewrite checksubpage_pass by done. zbool. rewrite (pr_at_eq _ _ _ Hpr), IH; try done; try lia.
    f_equal. f_equal. lia.
Qed.

Fixpoint blk_total (k : nat) (ns : list node) : nat :=
  match k with O => O | S k => (length (of_blk (7 - Z.of_nat k) ns) + blk_total k ns)%nat end.

Lemma blk_total_all ns : Forall (fun n => 0 <= nd_blk n < 8) ns -> blk_total 8 ns = length ns.
Proof.
  induction 1 as [|n ns Hb _ IH]; [done|]. cbn [length]. rewrite <- IH. clear IH.
  assert (nd_blk n ∈ seqZ 0 8) as Hin by (apply elem_of_seqZ; lia).
  unfold blk_total, of_blk. rewrite !filter_cons. set (b := nd_blk n) in *. clearbody b.
  vm_compute in Hin.
  repeat (apply elem_of_cons in Hin as [->|Hin]; [simpl; lia|]). by apply elem_of_nil in Hin.
Qed.

Lemma check_sizes_pass ns : forall k h cnt,
  tables_ok h ns -> Forall (node_ok (pagerefs h) (words h)) ns -> 0 < curspl (cpu_of h) ->
  (k <= 8)%nat -> cnt + Z.of_nat (blk_total k ns) <= Z.of_nat NPAGEREFS -> 0 <= cnt ->
  check_sizes (drop (8 - k) (sizebases h)) cnt h = (Ret (cnt + Z.of_nat (blk_total k ns)), h).
Proof.
  induction k as [|k IH]; intros h cnt Ht Hn Hspl Hk Hc Hc0.
  - pose proof Ht as (_ & _ & _ & _ & _ & _ & Hsl & _).
    rewrite drop_ge by lia. simpl. unfold ret. by rewrite Z.add_0_r.
  - pose proof Ht as (_ & _ & _ & _ & _ & _ & Hsl & Hsame).
    destruct (lookup_lt_is_Some_2 (sizebases h) (8 - S k)) as [s Hs]; [lia|].
    rewrite (drop_S _ _ _ Hs). cbn [check_sizes blk_total] in *. unfold bind.
    replace (S (8 - S k)) with (8 - k)%nat by lia.
    rewrite (check_list_pass next_samesize (of_blk (7 - Z.of_nat k) ns)); try done.
    + rewrite IH; try done; try lia. f_equal. f_equal. lia.
    + apply Hsame; [|lia]. by replace (Z.to_nat (7 - Z.of_nat k)) with (8 - S k)%nat by lia.
    + rewrite Forall_forall in Hn. apply Forall_forall. intros n [_ ?]%list_elem_of_filter. by apply Hn.
    + pose proof (tables_bound _ _ Ht) as [? _]. unfold of_blk.
      pose proof (length_filter (fun n => nd_blk n = 7 - Z.of_nat k) ns). lia.
    + lia.
Qed.

(** The consistency checks the source carries under [SLOW] and [SLOWER] all
    pass in every reachable state of the heap: on every page the free list stays on
    the page, is aligned and as long as [nfree] says, and both lists have the same
    number of pages. *)
Theorem checksubpages_pass h L F : kheap_rep h L F -> 0 < curspl (cpu_of h) ->
  checksubpages h = (Ret tt, h).
Proof.
  intros (ns & G & Ht & Hn & _ & Hl & _) Hspl. pose proof (tables_bound _ _ Ht) as [Hlen _].
  assert (blk_total 8 ns = length ns) as Htot.
  { apply blk_total_all. eapply Forall_impl; [exact Hn|]. by intros n (_ & ? & _). }
  pose proof (check_sizes_pass ns 8 h 0 Ht Hn Hspl ltac:(lia) ltac:(lia) ltac:(lia)) as Hsz.
  rewrite Htot in Hsz. change (8 - 8)%nat with 0%nat in Hsz. rewrite drop_0 in Hsz.
  pose proof Ht as (_ & _ & _ & _ & _ & Hall & _).
  pose proof (check_list_pass next_all ns (S NPAGEREFS) h _ 0 Hall Hn Hspl ltac:(lia) ltac:(lia)) as Hal.
  unfold checksubpages, bind, gets, assert, get. zbool. rewrite Hsz, Hal. by rewrite Z.eqb_refl.
Qed.

(** C6: [kmalloc] either fails leaving every client's block in place, or returns a
    16-aligned block inside kseg0 that overlaps no block held by a client and no
    page held by another user of the page allocator; small and successful large
    requests restore the interrupt level. *)
Theorem kmalloc_correct h L F sz : kheap_rep h L F -> 0 <= sz < 2 ^ 31 ->
  runs (kmalloc sz) h
    (fun p h' => (p = 0 /\ kheap_rep h' L F) \/
       (kheap_rep h' (<[p := sz]> L) F /\ cpu_of h' = cpu_of h /\
        p mod 16 = 0 /\ MIPS_KSEG0 <= p /\ p + sz <= MIPS_KSEG1 /\
        (forall q m, L !! q = Some m -> p + sz <= q \/ q + m <= p) /\
        (forall a k, F !! a = Some k -> a + 4096 * k <= p \/ p + sz <= a)))
    (fun _ _ => False).
Proof.
  intros Hrep Hsz. eapply runs_mono; [by apply kmalloc_rep| |done].
  intros p h' [?|(Hp & HL & Hal & Hrep' & Hcpu)]; [by left|right].
  pose proof (lookup_insert_eq L p sz) as Hself.
  destruct (held_range _ _ _ _ _ Hrep' Hself) as (? & ? & ?). split_and!; try done.
  intros q m Hq. assert (p <> q) by congruence.
  apply (held_disjoint _ _ _ p q sz m Hrep'); [done| |done]. by rewrite lookup_insert_ne.
Qed.


End kmalloc.

(** ** Instances *)

(** The heap at startup on a machine with three free pages, and after one
    request. *)
Definition small_heap : kheap vmstate := kheap_boot small_vm.
Definition small_heap_used : kheap vmstate := (kmalloc 100 small_heap).2.

Lemma small_heap_rep : kheap_rep small_heap ∅ ∅.
Proof.
  apply kheap_boot_rep. exists 0x21000, []. split_and!; [apply small_vm_ok|by vm_compute..].
Qed.

(** What the client then holds. *)
Definition one_block : gmap Z Z := <[0x80021f80 := 100]> ∅.

Lemma small_heap_used_rep : kheap_rep small_heap_used one_block ∅.
Proof.
  assert ((kmalloc 100 small_heap).1 = Ret 0x80021f80) as He by (by vm_compute).
  pose proof (runs_ret_value _ _ _ _ _ (kmalloc_rep small_heap ∅ ∅ 100 small_heap_rep ltac:(lia)) He)
    as [[? _]|(_ & _ & _ & Hrep & _)]; [lia|exact Hrep].
Qed.

Lemma checksubpages_pass_witness :
  checksubpages (with_cpu cpu_boot small_heap_used) = (Ret tt, with_cpu cpu_boot small_heap_used).
Proof.
  apply (checksubpages_pass _ one_block ∅); [|by vm_compute].
  apply kheap_rep_cpu; [done|]. apply small_heap_used_rep.
Defined.

Lemma kmalloc_correct_witness :
  runs (kmalloc 5000) small_heap_used
    (fun p h' => (p = 0 /\ kheap_rep h' one_block ∅) \/
       (kheap_rep h' (<[p := 5000]> one_block) ∅ /\
        cpu_of h' = cpu_of small_heap_used /\
        p mod 16 = 0 /\ MIPS_KSEG0 <= p /\ p + 5000 <= MIPS_KSEG1 /\
        (forall q m, one_block !! q = Some m -> p + 5000 <= q \/ q + m <= p) /\
        (forall a k, (∅ : gmap Z Z) !! a = Some k -> a + 4096 * k <= p \/ p + 5000 <= a)))
    (fun _ _ => False).
Proof. apply (kmalloc_correct _ _ ∅ 5000 small_heap_used_rep). lia. Defined.

