(* ===== verification/HeapImpl.v ===== *)
(** The kernel heap meets its interface: kheap.c (KHeap.v) over any page allocator
    satisfies the laws of Heap.v.

    [HeapLaws] speaks of the sizes clients asked for, which kheap.c does not
    record, so the instance pairs the heap with the ledger of those sizes; the
    operations are those of kheap.c and the ledger only watches them. *)

From Stdlib Require Import ZArith Lia.
From stdpp Require Import prelude gmap list.
From S2P Require Import Prelude Spl Pages Heap CoreMap KHeap.

(** ** Definitions *)

Section impl.
Context {P : Type} `{PageLaws P}.

Definition ledgered : Type := kheap P * gmap Z Z.

Definition l_kmalloc (sz : Z) : M ledgered Z :=
  p <- on_fst (KHeap.kmalloc sz) ;;
  modify (fun hl => (hl.1, if p =? 0 then hl.2 else <[p := sz]> hl.2)) ;;;
  ret p.

Definition l_kfree (p : Z) : M ledgered unit :=
  on_fst (KHeap.kfree p) ;;;
  modify (fun hl => (hl.1, delete p hl.2)).

#[export] Instance kernel_heap : Heap ledgered :=
  { Heap.kmalloc := l_kmalloc; Heap.kfree := l_kfree }.

#[export] Program Instance kernel_heap_laws : HeapLaws ledgered :=
  { heap_ok := fun hl => exists F, kheap_rep hl.1 hl.2 F; live := snd }.
Next Obligation.
  intros [h L] p n [F Hrep] Hp. destruct (held_range _ _ _ _ _ Hrep Hp) as (? & _).
  unfold MIPS_KSEG0 in *. lia.
Qed.
Next Obligation. intros [h L] p q n m [F Hrep] Hp Hq. by eapply held_disjoint. Qed.
Next Obligation.
  intros [h L] sz [F Hrep] Hsz. simpl. unfold l_kmalloc. apply runs_bind, runs_on_fst.
  eapply runs_mono; [by apply kmalloc_rep| |done]. simpl.
  intros p h' [[-> Hrep']|(Hp & HL & _ & Hrep' & _)]; run.
  - split; [by exists F|by left].
  - rewrite (proj2 (Z.eqb_neq _ _)) by done. split; [by exists F|by right].
Qed.
Next Obligation.
  intros [h L] [F Hrep]. simpl. unfold l_kfree, KHeap.kfree, bind, on_fst, zoom, modify. simpl.
  rewrite delete_id; [done|]. destruct (L !! 0) as [n|] eqn:E; [|done].
  destruct (held_range _ _ _ _ _ Hrep E) as (? & _). unfold MIPS_KSEG0 in *. lia.
Qed.
Next Obligation.
  intros [h L] p n [F Hrep] Hp. simpl. unfold l_kfree. apply runs_bind, runs_on_fst.
  destruct (held_range _ _ _ _ _ Hrep Hp) as (? & _). unfold MIPS_KSEG0 in *.
  eapply runs_mono; [eapply kfree_rep; [done..|lia]| |done]. simpl.
  intros [] h' [Hrep' _]. run. split; [by exists F|done].
Qed.

End impl.
