(* ===== verification/AddrSpace.v ===== *)
(** Address spaces and page faults: the second half of kern/vm/vm.c
    ([freepagetable], [vm_fault] and the [as_*] operations) with the structures of
    kern/include/addrspace.h and the TLB of kern/arch/mips/include/tlb.h.

    [mstate] puts the kernel heap (over the coremap) together with the objects
    this code keeps in it -- [struct addrspace]s and second-level page tables, by
    address -- the contents of the user frames, the TLB and
    [curthread->t_vmspace].  Writing through a null or user-range pointer in the
    kernel is a [Panic]. *)

From Stdlib Require Import ZArith Lia.
From stdpp Require Import prelude gmap list.
From S2P Require Import Prelude Spl Pages CoreMap KHeap.

(** ** Definitions *)

Definition VM_FAULT_READ : Z := 0.
Definition VM_FAULT_WRITE : Z := 1.
Definition VM_FAULT_READONLY : Z := 2.
Definition USERSTACK : Z := MIPS_KSEG0.

Definition NUM_TLB : nat := 64.
Definition TLBLO_DIRTY : Z := 0x400.
Definition TLBLO_VALID : Z := 0x200.
Definition TLBHI_INVALID (entryno : Z) : Z := u32 (Z.shiftl (0x80000 + entryno) 12).
Definition TLBLO_INVALID : Z := 0.

Record pageentry := mk_pageentry {
  pe_phyaddr : Z;
  readable : Z;
  writtable : Z;
  valid : Z;
}.
Definition zero_entry : pageentry := mk_pageentry 0 0 0 0.
Definition set_phyaddr (p : Z) (e : pageentry) : pageentry :=
  mk_pageentry p (readable e) (writtable e) (valid e).
Definition set_valid (v : Z) (e : pageentry) : pageentry :=
  mk_pageentry (pe_phyaddr e) (readable e) (writtable e) v.

Definition sizeof_pagetable2 : Z := 16384.
Definition sizeof_addrspace : Z := 2060.

Record addrspace := mk_addrspace {
  as_vbase1 : Z;
  as_vbase2 : Z;
  as_stackpbase : Z;
  pagetable : list Z;              (* 512 pointers to second-level tables *)
}.

Record mstate := mk_m {
  kh : kheap vmstate;
  spaces : gmap Z addrspace;
  pt2s : gmap Z (list pageentry);  (* second-level tables, 1024 entries each *)
  frames : gmap Z (list Z);        (* contents of frames, by physical address *)
  tlb : list (Z * Z);              (* (ehi, elo) *)
  t_vmspace : Z;                   (* of the current thread *)
}.

Definition with_kh k (s : mstate) : mstate :=
  mk_m k (spaces s) (pt2s s) (frames s) (tlb s) (t_vmspace s).
Definition with_spaces m (s : mstate) : mstate :=
  mk_m (kh s) m (pt2s s) (frames s) (tlb s) (t_vmspace s).
Definition with_pt2s m (s : mstate) : mstate :=
  mk_m (kh s) (spaces s) m (frames s) (tlb s) (t_vmspace s).
Definition with_frames m (s : mstate) : mstate :=
  mk_m (kh s) (spaces s) (pt2s s) m (tlb s) (t_vmspace s).
Definition with_tlb t (s : mstate) : mstate :=
  mk_m (kh s) (spaces s) (pt2s s) (frames s) t (t_vmspace s).

#[export] Program Instance m_has_cpu : HasCpu mstate := {
  cpu_of := fun s => cpu_of (kh s);
  with_cpu := fun c s => with_kh (with_cpu c (kh s)) s;
}.
Next Obligation. intros. apply (cpu_of_with (S := kheap vmstate)). Qed.
Next Obligation. by intros [[? ? ? ? ? []] ? ? ? ? ?]. Qed.
Next Obligation. done. Qed.

Definition on_kh {A} (m : M (kheap vmstate) A) : M mstate A := zoom kh with_kh m.
Definition m_kmalloc (sz : Z) : M mstate Z := on_kh (KHeap.kmalloc sz).
Definition m_kfree (p : Z) : M mstate unit := on_kh (KHeap.kfree p).
Definition m_alloc_kpages (n : Z) : M mstate Z := on_kh (on_pg (alloc_kpages n)).
Definition m_free_kpages (a : Z) : M mstate unit := on_kh (on_pg (free_kpages a)).
Definition coremap_addr (s : mstate) : Z := coremap (pg (kh s)).

Definition space_at (a : Z) : M mstate addrspace :=
  s <- get ;; match spaces s !! a with Some sp => ret sp | None => panic end.
Definition set_space (a : Z) (f : addrspace -> addrspace) : M mstate unit :=
  sp <- space_at a ;; modify (fun s => with_spaces (<[a := f sp]> (spaces s)) s).

(** [as->pagetable.pagetable2[i]], checked against the array's bound. *)
Definition pt_ptr (a : Z) (i : nat) : M mstate Z :=
  sp <- space_at a ;; match pagetable sp !! i with Some p => ret p | None => panic end.
Definition set_pt_ptr (a : Z) (i : nat) (p : Z) : M mstate unit :=
  set_space a (fun sp => mk_addrspace (as_vbase1 sp) (as_vbase2 sp) (as_stackpbase sp)
    (<[i := p]> (pagetable sp))).

Definition entry_at (p : Z) (j : nat) : M mstate pageentry :=
  s <- get ;;
  match pt2s s !! p with
  | Some t => match t !! j with Some e => ret e | None => panic end
  | None => panic
  end.
Definition set_entry (p : Z) (j : nat) (f : pageentry -> pageentry) : M mstate unit :=
  s <- get ;;
  match pt2s s !! p with
  | Some t =>
      match t !! j with
      | Some e => put (with_pt2s (<[p := <[j := f e]> t]> (pt2s s)) s)
      | None => panic
      end
  | None => panic
  end.

(** [bzero] of a second-level table, and of a page given by kernel address. *)
Definition bzero_pt2 (p : Z) : M mstate unit :=
  assert (negb (p =? 0)) ;;;
  modify (fun s => with_pt2s (<[p := replicate 1024 zero_entry]> (pt2s s)) s).
Definition kseg0_page (kv : Z) : bool := (kv >=? MIPS_KSEG0) && (kv <? MIPS_KSEG1).
Definition bzero_page (kv : Z) : M mstate unit :=
  assert (kseg0_page kv) ;;;
  modify (fun s => with_frames (<[kv - MIPS_KSEG0 := replicate 4096 0]> (frames s)) s).
Definition memmove_page (dst src : Z) : M mstate unit :=
  assert (kseg0_page dst && kseg0_page src) ;;;
  s <- get ;;
  match frames s !! (src - MIPS_KSEG0) with
  | Some bytes => put (with_frames (<[dst - MIPS_KSEG0 := bytes]> (frames s)) s)
  | None => panic
  end.

Definition TLB_Write (ehi elo : Z) (i : nat) : M mstate unit :=
  modify (fun s => with_tlb (<[i := (ehi, elo)]> (tlb s)) s).
Definition TLB_Read (i : nat) : M mstate (Z * Z) :=
  s <- get ;; match tlb s !! i with Some e => ret e | None => panic end.

(** *** Page tables *)

Definition free_pte (p : Z) (j : nat) : M mstate unit :=
  e <- entry_at p j ;;
  if negb (valid e =? 0) then m_free_kpages (PADDR_TO_KVADDR (pe_phyaddr e)) else ret tt.

(** One slot of the first-level table; [kfree] ends the life of the second-level
    table it is given. *)
Definition free_table (p : Z) : M mstate unit :=
  if negb (p =? 0) then
    for_each (seq 0 1024) (free_pte p) ;;;
    m_kfree p ;;;
    modify (fun s => with_pt2s (delete p (pt2s s)) s)
  else ret tt.

(** The argument is a copy of the first-level table. *)
Definition freepagetable (ptr : list Z) : M mstate Z :=
  for_each ptr free_table ;;;
  ret 1.

(** The part of [vm_fault] that makes sure a frame is there; [Some code] is an
    early return. *)
Definition fault_frame (p : Z) (index2 : nat) : M mstate (option Z) :=
  pageentry <- entry_at p index2 ;;
  if valid pageentry =? 0 then
    a <- m_alloc_kpages 1 ;;
    set_entry p index2 (set_phyaddr a) ;;;
    if a =? ENOMEM then ret (Some ENOMEM)
    else
      let paddr := u32 (a - 0x80000000) in
      set_entry p index2 (set_phyaddr paddr) ;;;
      s <- get ;;
      assert (u32 (coremap_addr s - 0x80000000) <? paddr) ;;;
      set_entry p index2 (set_valid 1) ;;;
      bzero_page (PADDR_TO_KVADDR paddr) ;;;
      ret None
  else ret None.

Definition tlb_insert (faultaddress paddr : Z) : M mstate bool :=
  r <- for_find (seq 0 NUM_TLB) (fun i =>
    '(_, elo) <- TLB_Read i ;;
    if negb (Z.land elo TLBLO_VALID =? 0) then ret None
    else
      TLB_Write faultaddress (Z.lor (Z.lor paddr TLBLO_DIRTY) TLBLO_VALID) i ;;;
      ret (Some tt)) ;;
  ret (match r with Some _ => true | None => false end).

(** The part of [vm_fault] after its checks: [faultaddress] is page-aligned. *)
Definition fault_resolve (spl a faultaddress : Z) : M mstate Z :=
  let index1 := Z.to_nat (Z.shiftr (Z.land faultaddress 0xffc00000) 22) in
  let index2 := Z.to_nat (Z.shiftr (Z.land faultaddress 0x003ff000) 12) in
  p0 <- pt_ptr a index1 ;;
  (if p0 =? 0 then
     q <- m_kmalloc sizeof_pagetable2 ;;
     set_pt_ptr a index1 q ;;;
     bzero_pt2 q
   else ret tt) ;;;
  p <- pt_ptr a index1 ;;
  early <- fault_frame p index2 ;;
  match early with
  | Some code => ret code
  | None =>
      e <- entry_at p index2 ;;
      let paddr := pe_phyaddr e in
      assert (Z.land paddr PAGE_FRAME =? paddr) ;;;
      found <- tlb_insert faultaddress paddr ;;
      splx spl ;;;
      ret (if found : bool then 0 else EFAULT)
  end.

Definition vm_fault (faulttype faultaddress : Z) : M mstate Z :=
  if faultaddress >? 0x80000000 then ret EFAULT
  else if faultaddress =? 0 then ret EFAULT
  else if negb (Z.land faultaddress 3 =? 0) then ret EFAULT
  else
    spl <- splhigh ;;
    let faultaddress := Z.land faultaddress PAGE_FRAME in
    if faulttype =? VM_FAULT_READONLY then panic
    else if negb ((faulttype =? VM_FAULT_READ) || (faulttype =? VM_FAULT_WRITE)) then
      splx spl ;;; ret EINVAL
    else
      a <- gets t_vmspace ;;
      if a =? 0 then ret EFAULT
      else fault_resolve spl a faultaddress.

(** *** Address spaces *)

(** Returns 0 (NULL) when there is no memory. *)
Definition as_create : M mstate Z :=
  a <- m_kmalloc sizeof_addrspace ;;
  if a =? 0 then ret 0
  else
    modify (fun s => with_spaces (<[a := mk_addrspace 0 0 0 (replicate 512 0)]> (spaces s)) s) ;;;
    ret a.

Definition as_destroy (a : Z) : M mstate unit :=
  sp <- space_at a ;;
  freepagetable (pagetable sp) ;;;
  m_kfree a ;;;
  modify (fun s => with_spaces (delete a (spaces s)) s).

Definition as_activate : M mstate unit :=
  spl <- splhigh ;;
  for_each (seq 0 NUM_TLB) (fun i => TLB_Write (TLBHI_INVALID (Z.of_nat i)) TLBLO_INVALID i) ;;;
  splx spl ;;;
  ret tt.

Definition as_define_region (a vaddr sz : Z) (readable writeable executable : bool) : M mstate Z :=
  sp <- space_at a ;;
  if as_vbase1 sp =? 0 then
    set_space a (fun sp => mk_addrspace vaddr (as_vbase2 sp) (as_stackpbase sp) (pagetable sp)) ;;;
    ret 0
  else if as_vbase2 sp =? 0 then
    set_space a (fun sp => mk_addrspace (as_vbase1 sp) vaddr (as_stackpbase sp) (pagetable sp)) ;;;
    ret 0
  else ret EUNIMP.

Definition as_prepare_load (a : Z) : M mstate Z :=
  sp <- space_at a ;;
  assert (as_stackpbase sp =? 0) ;;;
  ret 0.

Definition as_complete_load (a : Z) : M mstate Z := ret 0.

Definition as_define_stack (a : Z) : M mstate (Z * Z) :=
  assert (negb (a =? 0)) ;;;
  ret (0, USERSTACK).

(** Copying one entry, from table [po] to table [pn]; [Some code] is an early
    return. *)
Definition copy_pte (po pn : Z) (j : nat) : M mstate (option Z) :=
  eo <- entry_at po j ;;
  if valid eo =? 1 then
    a <- m_alloc_kpages 1 ;;
    set_entry pn j (set_phyaddr a) ;;;
    if a =? ENOMEM then ret (Some ENOMEM)
    else
      let paddr := u32 (a - 0x80000000) in
      set_entry pn j (set_phyaddr paddr) ;;;
      s <- get ;;
      assert (u32 (coremap_addr s - 0x80000000) <? paddr) ;;;
      assert (u32 (coremap_addr s - 0x80000000) <? pe_phyaddr eo) ;;;
      set_entry pn j (set_valid 1) ;;;
      memmove_page (PADDR_TO_KVADDR paddr) (PADDR_TO_KVADDR (pe_phyaddr eo)) ;;;
      ret None
  else ret None.

Definition copy_table (old new : Z) (i : nat) : M mstate (option Z) :=
  po <- pt_ptr old i ;;
  if negb (po =? 0) then
    pn <- m_kmalloc sizeof_pagetable2 ;;
    set_pt_ptr new i pn ;;;
    bzero_pt2 pn ;;;
    for_find (seq 0 1024) (copy_pte po pn)
  else ret None.

(** Returns the error code and the new address space. *)
Definition as_copy (old : Z) : M mstate (Z * Z) :=
  new <- as_create ;;
  if new =? 0 then ret (ENOMEM, 0)
  else
    sp <- space_at old ;;
    set_space new (fun n => mk_addrspace (as_vbase1 sp) (as_vbase2 n) (as_stackpbase n) (pagetable n)) ;;;
    set_space new (fun n => mk_addrspace (as_vbase1 n) (as_vbase2 sp) (as_stackpbase n) (pagetable n)) ;;;
    set_space new (fun n => mk_addrspace (as_vbase1 n) (as_vbase2 n) (as_stackpbase sp) (pagetable n)) ;;;
    r <- as_prepare_load new ;;
    if negb (r =? 0) then as_destroy new ;;; ret (ENOMEM, 0)
    else
      early <- for_find (seq 0 512) (copy_table old new) ;;
      match early with
      | Some code => ret (code, 0)
      | None => ret (0, new)
      end.

#[local] Arguments replicate : simpl never.
#[local] Arguments seq : simpl never.

(** ** What an address space maps *)

Definition pte (s : mstate) (a : Z) (i j : nat) : option pageentry :=
  sp ← spaces s !! a; p ← pagetable sp !! i; t ← pt2s s !! p; t !! j.

(** The contents of the page with table indices [i] and [j], if it is mapped. *)
Definition page (s : mstate) (a : Z) (i j : nat) : option (list Z) :=
  e ← pte s a i j; if valid e =? 0 then None else frames s !! pe_phyaddr e.

(** ** Invariant

    [L] is the heap's ledger and [F] the frames outside it: every mapped page has
    a frame of its own, every second-level table belongs to one address space. *)
Record vm_ok (s : mstate) (L F : gmap Z Z) : Prop := {
  vo_heap : kheap_rep (kh s) L F;
  vo_space : forall a sp, spaces s !! a = Some sp ->
    L !! a = Some sizeof_addrspace /\ length (pagetable sp) = 512%nat /\ as_stackpbase sp = 0;
  vo_table : forall p t, pt2s s !! p = Some t ->
    L !! p = Some sizeof_pagetable2 /\ length t = 1024%nat;
  vo_ptr : forall a sp i p, spaces s !! a = Some sp -> pagetable sp !! i = Some p -> p <> 0 ->
    is_Some (pt2s s !! p);
  vo_ptr_inj : forall a sp i a' sp' i' p,
    spaces s !! a = Some sp -> pagetable sp !! i = Some p ->
    spaces s !! a' = Some sp' -> pagetable sp' !! i' = Some p -> p <> 0 -> a = a' /\ i = i';
  vo_frame : forall p t j e, pt2s s !! p = Some t -> t !! j = Some e -> valid e <> 0 ->
    valid e = 1 /\ F !! (pe_phyaddr e + MIPS_KSEG0) = Some 1 /\ is_Some (frames s !! pe_phyaddr e);
  vo_frame_inj : forall p t j e p' t' j' e',
    pt2s s !! p = Some t -> t !! j = Some e -> valid e <> 0 ->
    pt2s s !! p' = Some t' -> t' !! j' = Some e' -> valid e' <> 0 ->
    pe_phyaddr e = pe_phyaddr e' -> p = p' /\ j = j';
}.

Definition room (s : mstate) (N : Z) : Prop := has_run (pg (kh s)) N.

(** ** Indices *)

Lemma index1_eq fa : 0 <= fa < 2 ^ 32 ->
  Z.shiftr (Z.land (Z.land fa PAGE_FRAME) 0xffc00000) 22 = fa / 2 ^ 22.
Proof.
  intros Hf. rewrite <- Z.land_assoc. change (Z.land PAGE_FRAME 0xffc00000) with (Z.shiftl (Z.ones 10) 22).
  rewrite <- Z.shiftr_div_pow2 by lia. apply Z.bits_inj'. intros n Hn.
  rewrite !Z.shiftr_spec, Z.land_spec, Z.shiftl_spec by lia.
  replace (n + 22 - 22) with n by lia. destruct (decide (n < 10)).
  - rewrite Z.ones_spec_low by lia. by rewrite andb_true_r.
  - rewrite Z.ones_spec_high by lia. rewrite andb_false_r.
    rewrite <- (Z.mod_small fa (2 ^ 32)) by lia. rewrite Z.mod_pow2_bits_high by lia. done.
Qed.

Lemma index2_eq fa : 0 <= fa ->
  Z.shiftr (Z.land (Z.land fa PAGE_FRAME) 0x003ff000) 12 = fa / 4096 mod 1024.
Proof.
  intros Hf. rewrite <- Z.land_assoc. change (Z.land PAGE_FRAME 0x003ff000) with (Z.shiftl (Z.ones 10) 12).
  change 4096 with (2 ^ 12). change 1024 with (2 ^ 10). rewrite <- Z.shiftr_div_pow2, <- Z.land_ones by lia.
  apply Z.bits_inj'. intros n Hn.
  rewrite Z.shiftr_spec, !Z.land_spec, Z.shiftl_spec, Z.shiftr_spec by lia.
  by replace (n + 12 - 12) with n by lia.
Qed.

Definition index1 (fa : Z) : nat := Z.to_nat (fa / 2 ^ 22).
Definition index2 (fa : Z) : nat := Z.to_nat (fa / 4096 mod 1024).

Lemma index_bounds fa : 0 <= fa < 2 ^ 31 -> (index1 fa < 512)%nat /\ (index2 fa < 1024)%nat.
Proof.
  intros Hf. unfold index1, index2.
  pose proof (Z.div_lt_upper_bound fa (2 ^ 22) 512 ltac:(lia) ltac:(lia)).
  pose proof (Z.mod_pos_bound (fa / 4096) 1024 ltac:(lia)). lia.
Qed.

(** ** Memory *)

Section memory.
Implicit Types (s : mstate) (L F : gmap Z Z).

Lemma m_alloc_run s L F N : kheap_rep (kh s) L F -> 1 <= N -> room s N ->
  exists a k', m_alloc_kpages 1 s = (Ret a, with_kh k' s) /\
    MIPS_KSEG0 <= a /\ a mod 4096 = 0 /\ a + 4096 <= MIPS_KSEG1 /\
    u32 (coremap (pg k') - MIPS_KSEG0) < a - MIPS_KSEG0 /\
    F !! a = None /\ kheap_rep k' L (<[a := 1]> F) /\ room (with_kh k' s) (N - 1) /\
    cpu_of k' = cpu_of (kh s).
Proof.
  intros Hrep HN Hroom. destruct (rep_pages _ _ _ Hrep) as (G & Hp & _).
  destruct (alloc_kpages_run (pg (kh s)) G 1 N Hp ltac:(lia) Hroom)
    as (a & m' & Ha & Hne & Hrun & Hc & Hcm & Hnew).
  destruct (Hnew G Hp) as [_ Hp']. change (pages_ok m' (<[a := 1]> G)) in Hp'.
  destruct (pages_range m' (<[a := 1]> G) a 1 Hp' (lookup_insert_eq _ _ _)) as (? & ? & _ & ?).
  pose proof (ledger_above m' (<[a := 1]> G) a 1 Hp' (lookup_insert_eq _ _ _)).
  destruct (rep_foreign_add (kh s) L F a 1 m' Hrep Hnew) as [HF Hrep'].
  exists a, (with_pg m' (kh s)). split_and!; try done; try lia.
  unfold m_alloc_kpages, on_kh, on_pg, zoom. by rewrite Ha.
Qed.

Lemma m_kmalloc_run s L F N sz : kheap_rep (kh s) L F -> LARGEST_SUBPAGE_SIZE <= sz < 2 ^ 31 ->
  DIVROUNDUP sz 4096 <= N -> room s N ->
  exists q k', m_kmalloc sz s = (Ret q, with_kh k' s) /\ q <> 0 /\ L !! q = None /\
    kheap_rep k' (<[q := sz]> L) F /\ room (with_kh k' s) (N - DIVROUNDUP sz 4096) /\
    cpu_of k' = cpu_of (kh s).
Proof.
  intros Hrep Hsz HN Hroom. destruct (rep_pages _ _ _ Hrep) as (G & Hp & _).
  unfold LARGEST_SUBPAGE_SIZE in *.
  assert (0 < DIVROUNDUP sz 4096) by (apply Z.div_str_pos; lia).
  destruct (alloc_kpages_run (pg (kh s)) G (DIVROUNDUP sz 4096) N Hp ltac:(lia) Hroom)
    as (a & m' & Ha & Hne & Hrun & Hc & Hcm & Hnew).
  destruct (rep_large_add (kh s) L F a sz m' Hrep) as [HL Hrep']; [done|done|].
  exists a, (with_pg m' (kh s)). split_and!; try done.
  unfold m_kmalloc, on_kh, KHeap.kmalloc, on_pg, zoom, LARGEST_SUBPAGE_SIZE, PAGE_SIZE.
  rewrite (proj2 (Z.geb_le _ _)), u32_small by lia. simpl page_alloc.
  fold (DIVROUNDUP sz 4096). by rewrite Ha.
Qed.

(** Tables and address spaces are not at address 0. *)
Lemma table_nonnull s L F : vm_ok s L F -> pt2s s !! 0 = None /\ spaces s !! 0 = None.
Proof.
  intros Hok. assert (L !! 0 = None) as H0.
  { destruct (L !! 0) as [n|] eqn:E; [|done].
    destruct (held_range _ _ _ _ _ (vo_heap _ _ _ Hok) E) as (? & _). unfold MIPS_KSEG0 in *. lia. }
  split; apply eq_None_not_Some; intros [x Hx].
  - destruct (vo_table _ _ _ Hok _ _ Hx). congruence.
  - destruct (vo_space _ _ _ Hok _ _ Hx). congruence.
Qed.

Definition set_ptr (i : nat) (p : Z) (sp : addrspace) : addrspace :=
  mk_addrspace (as_vbase1 sp) (as_vbase2 sp) (as_stackpbase sp) (<[i := p]> (pagetable sp)).

Lemma set_ptr_lookup i q sp i' p : pagetable (set_ptr i q sp) !! i' = Some p ->
  (i' = i /\ p = q) \/ (i' <> i /\ pagetable sp !! i' = Some p).
Proof. simpl. intros [(-> & <- & _)|[? ?]]%list_lookup_insert_Some; [by left|right; by split]. Qed.

(** A fresh second-level table in slot [i] of address space [a]. *)
Definition add_table (k : kheap vmstate) (a : Z) (sp : addrspace) (i : nat) (q : Z) (s : mstate) : mstate :=
  mk_m k (<[a := set_ptr i q sp]> (spaces s)) (<[q := replicate 1024 zero_entry]> (pt2s s))
    (frames s) (tlb s) (t_vmspace s).

Lemma vm_ok_add_table s k L F a sp i q : vm_ok s L F ->
  spaces s !! a = Some sp -> L !! q = None -> q <> 0 ->
  kheap_rep k (<[q := sizeof_pagetable2]> L) F ->
  vm_ok (add_table k a sp i q s) (<[q := sizeof_pagetable2]> L) F.
Proof.
  intros Hok Hsp HLq Hq Hrep.
  assert (forall p t, pt2s s !! p = Some t -> p <> q) as Hptq.
  { intros p t Hp ->. destruct (vo_table _ _ _ Hok _ _ Hp). congruence. }
  assert (forall b sb i' p, spaces s !! b = Some sb -> pagetable sb !! i' = Some p -> p <> 0 -> p <> q) as Hq'.
  { intros b sb i' p Hb Hp Hp0. destruct (vo_ptr _ _ _ Hok _ _ _ _ Hb Hp Hp0) as [t Ht]. by eapply Hptq. }
  assert (forall b sb i' p, (<[a := set_ptr i q sp]> (spaces s)) !! b = Some sb ->
    pagetable sb !! i' = Some p -> p <> 0 ->
    (b = a /\ i' = i /\ p = q) \/
    (exists sb0, spaces s !! b = Some sb0 /\ pagetable sb0 !! i' = Some p)) as Hinv.
  { intros b sb i' p [[<- <-]|[? ?]]%lookup_insert_Some Hp Hp0; [|right; by exists sb].
    apply set_ptr_lookup in Hp as [[-> ->]|[? ?]]; [by left|right; by exists sp]. }
  assert (forall p t j e, (<[q := replicate 1024 zero_entry]> (pt2s s)) !! p = Some t ->
    t !! j = Some e -> valid e <> 0 -> pt2s s !! p = Some t) as Hent.
  { intros p t j e [[<- <-]|[? ?]]%lookup_insert_Some He Hv; [|done].
    apply lookup_replicate_1 in He as [-> _]. done. }
  split; simpl.
  - done.
  - intros b sb [[<- <-]|[? Hb]]%lookup_insert_Some.
    + destruct (vo_space _ _ _ Hok _ _ Hsp) as (? & ? & ?). simpl. rewrite length_insert.
      by rewrite lookup_insert_ne by congruence.
    + destruct (vo_space _ _ _ Hok _ _ Hb) as (? & ? & ?). by rewrite lookup_insert_ne by congruence.
  - intros p t [[<- <-]|[? Hp]]%lookup_insert_Some.
    + by rewrite lookup_insert_eq, length_replicate.
    + rewrite lookup_insert_ne by done. by apply (vo_table _ _ _ Hok).
  - intros b sb i' p Hb Hp Hp0. destruct (Hinv _ _ _ _ Hb Hp Hp0) as [(_ & _ & ->)|(sb0 & Hb0 & Hp')].
    + rewrite lookup_insert_eq. by eexists.
    + rewrite lookup_insert_ne; [by eapply vo_ptr|]. symmetry. by eapply Hq'.
  - intros b sb i1 b' sb' i2 p Hb Hp Hb' Hp' Hp0.
    destruct (Hinv _ _ _ _ Hb Hp Hp0) as [(-> & -> & ->)|(x & Hx & Hxp)],
      (Hinv _ _ _ _ Hb' Hp' Hp0) as [(-> & -> & Hpq)|(y & Hy & Hyp)]; [done| | |].
    + by destruct (Hq' _ _ _ _ Hy Hyp Hp0).
    + subst p. by destruct (Hq' _ _ _ _ Hx Hxp Hp0).
    + exact (vo_ptr_inj _ _ _ Hok b x i1 b' y i2 p Hx Hxp Hy Hyp Hp0).
  - intros p t j e Hp He Hv. apply (vo_frame _ _ _ Hok p t j); [by eapply Hent|done|done].
  - intros p t j e p' t' j' e' Hp He Hv Hp' He' Hv'.
    apply (vo_frame_inj _ _ _ Hok p t j e p' t' j' e'); try done; by eapply Hent.
Qed.

(** Table [p] gets the valid entry [e] in slot [j], its frame holding [bytes]. *)
Definition map_page (k : kheap vmstate) (p : Z) (t : list pageentry) (j : nat) (e : pageentry)
    (bytes : list Z) (s : mstate) : mstate :=
  mk_m k (spaces s) (<[p := <[j := e]> t]> (pt2s s)) (<[pe_phyaddr e := bytes]> (frames s))
    (tlb s) (t_vmspace s).

Lemma insert_entry_inv s p t j e p' t' j' e' : pt2s s !! p = Some t ->
  (<[p := <[j := e]> t]> (pt2s s)) !! p' = Some t' -> t' !! j' = Some e' ->
  (p' = p /\ j' = j /\ e' = e) \/
  ((p', j') <> (p, j) /\ exists t0, pt2s s !! p' = Some t0 /\ t0 !! j' = Some e').
Proof.
  intros Hp [[<- <-]|[? ?]]%lookup_insert_Some He.
  - apply list_lookup_insert_Some in He as [(-> & <- & _)|[? ?]]; [by left|].
    right. split; [congruence|by exists t].
  - right. split; [congruence|by exists t'].
Qed.

Lemma vm_ok_map s k L F p t j e bytes : vm_ok s L F -> pt2s s !! p = Some t ->
  valid e = 1 -> F !! (pe_phyaddr e + MIPS_KSEG0) = None ->
  kheap_rep k L (<[pe_phyaddr e + MIPS_KSEG0 := 1]> F) ->
  vm_ok (map_page k p t j e bytes s) L (<[pe_phyaddr e + MIPS_KSEG0 := 1]> F).
Proof.
  intros Hok Hp Hve HF Hrep.
  assert (forall p' t' j' e', pt2s s !! p' = Some t' -> t' !! j' = Some e' -> valid e' <> 0 ->
    pe_phyaddr e' <> pe_phyaddr e) as Hfresh.
  { intros p' t' j' e' Hp' He' Hv' Heq. destruct (vo_frame _ _ _ Hok _ _ _ _ Hp' He' Hv') as (_ & ? & _).
    congruence. }
  split; simpl.
  - done.
  - by apply (vo_space _ _ _ Hok).
  - intros p' t' [[<- <-]|[? ?]]%lookup_insert_Some; [|by apply (vo_table _ _ _ Hok)].
    rewrite length_insert. by apply (vo_table _ _ _ Hok).
  - intros a sp i p' Ha Hi Hp0. rewrite lookup_insert. case_decide; [by eexists|]. by eapply vo_ptr.
  - by apply (vo_ptr_inj _ _ _ Hok).
  - intros p' t' j' e' Hp' He' Hv'.
    destruct (insert_entry_inv _ _ _ _ _ _ _ _ _ Hp Hp' He') as [(_ & _ & ->)|(_ & t0 & Ht0 & He0)].
    + by rewrite !lookup_insert_eq.
    + destruct (vo_frame _ _ _ Hok _ _ _ _ Ht0 He0 Hv') as (? & ? & ?).
      pose proof (Hfresh _ _ _ _ Ht0 He0 Hv'). by rewrite !lookup_insert_ne by lia.
  - intros p1 t1 j1 e1 p2 t2 j2 e2 Hp1 He1 Hv1 Hp2 He2 Hv2 Heq.
    destruct (insert_entry_inv _ _ _ _ _ _ _ _ _ Hp Hp1 He1) as [(-> & -> & ->)|(_ & t3 & Ht3 & He3)],
      (insert_entry_inv _ _ _ _ _ _ _ _ _ Hp Hp2 He2) as [(-> & -> & ->)|(_ & t4 & Ht4 & He4)].
    + done.
    + symmetry in Heq. by destruct (Hfresh _ _ _ _ Ht4 He4 Hv2).
    + by destruct (Hfresh _ _ _ _ Ht3 He3 Hv1).
    + exact (vo_frame_inj _ _ _ Hok _ _ _ _ _ _ _ _ Ht3 He3 Hv1 Ht4 He4 Hv2 Heq).
Qed.

(** The second-level table behind slot [i]. *)
Definition ptr (s : mstate) (a : Z) (i : nat) : option Z := sp ← spaces s !! a; pagetable sp !! i.

Lemma pte_ptr s a i j : pte s a i j = (p ← ptr s a i; t ← pt2s s !! p; t !! j).
Proof. unfold pte, ptr. by destruct (spaces s !! a) as [sp|]. Qed.

(** The contents of page [j] of table [p]. *)
Definition tpage (s : mstate) (p : Z) (j : nat) : option (list Z) :=
  t ← pt2s s !! p; e ← t !! j; if valid e =? 0 then None else frames s !! pe_phyaddr e.

Lemma page_tpage s a i j : page s a i j = (p ← ptr s a i; tpage s p j).
Proof.
  unfold page. rewrite pte_ptr. destruct (ptr s a i) as [p|]; [|done]. unfold tpage; simpl.
  by destruct (pt2s s !! p) as [t|].
Qed.

Lemma tpage_map s k L F p t j e bytes q j' : vm_ok s L F -> pt2s s !! p = Some t ->
  (j < length t)%nat -> valid e = 1 -> F !! (pe_phyaddr e + MIPS_KSEG0) = None ->
  tpage (map_page k p t j e bytes s) q j' =
    if decide (q = p /\ j' = j) then Some bytes else tpage s q j'.
Proof.
  intros Hok Hp Hj Hve HF. unfold tpage; simpl. destruct (decide (q = p)) as [->|Hqp].
  - rewrite lookup_insert_eq. cbn [mbind option_bind]. destruct (decide (j' = j)) as [->|Hjj].
    + rewrite decide_True by done. rewrite list_lookup_insert_eq by done. simpl.
      by rewrite Hve, lookup_insert_eq.
    + rewrite decide_False by naive_solver. rewrite list_lookup_insert_ne by done. rewrite Hp. simpl.
      destruct (t !! j') as [e'|] eqn:He'; simpl; [|done].
      destruct (Z.eqb_spec (valid e') 0); [done|].
      destruct (vo_frame _ _ _ Hok _ _ _ _ Hp He') as (_ & HF' & _); [done|].
      rewrite lookup_insert_ne; [done|]. congruence.
  - rewrite decide_False by naive_solver. rewrite lookup_insert_ne by done.
    destruct (pt2s s !! q) as [t'|] eqn:Ht'; simpl; [|done].
    destruct (t' !! j') as [e'|] eqn:He'; simpl; [|done].
    destruct (Z.eqb_spec (valid e') 0); [done|].
    destruct (vo_frame _ _ _ Hok _ _ _ _ Ht' He') as (_ & HF' & _); [done|].
    rewrite lookup_insert_ne; [done|]. congruence.
Qed.

Lemma page_map s k L F p t j e bytes a i j' : vm_ok s L F -> pt2s s !! p = Some t ->
  (j < length t)%nat -> valid e = 1 -> F !! (pe_phyaddr e + MIPS_KSEG0) = None ->
  page (map_page k p t j e bytes s) a i j' =
    if decide (ptr s a i = Some p /\ j' = j) then Some bytes else page s a i j'.
Proof.
  intros Hok Hp Hj Hve HF. rewrite !page_tpage. change (ptr (map_page k p t j e bytes s)) with (ptr s).
  destruct (ptr s a i) as [q|] eqn:Hq; cbn [mbind option_bind]; [|by rewrite decide_False by naive_solver].
  rewrite (tpage_map s k L F) by done. repeat case_decide; naive_solver.
Qed.

Lemma zero_page (fs : gmap Z (list Z)) j :
  (e ← replicate 1024 zero_entry !! j; if valid e =? 0 then None else fs !! pe_phyaddr e) = None.
Proof.
  destruct (replicate 1024 zero_entry !! j) as [e|] eqn:E; [|done].
  by apply lookup_replicate_1 in E as [-> _].
Qed.

Lemma page_add_table s k L F a sp i q b i' j' : vm_ok s L F ->
  spaces s !! a = Some sp -> pagetable sp !! i = Some 0 -> L !! q = None -> q <> 0 ->
  page (add_table k a sp i q s) b i' j' = page s b i' j'.
Proof.
  intros Hok Hsp Hi HL Hq. destruct (table_nonnull _ _ _ Hok) as [H0 _].
  assert (pt2s s !! q = None) as Hptq.
  { destruct (pt2s s !! q) as [t|] eqn:E; [|done]. destruct (vo_table _ _ _ Hok _ _ E). congruence. }
  unfold page. rewrite !pte_ptr. unfold ptr; simpl.
  destruct (decide (b = a)) as [->|Hba].
  - rewrite lookup_insert_eq, Hsp. simpl. destruct (decide (i' = i)) as [->|Hii].
    + assert (i < length (pagetable sp))%nat by (by eapply lookup_lt_Some).
      rewrite list_lookup_insert_eq, Hi by done. simpl. rewrite lookup_insert_eq, H0. simpl.
      apply zero_page.
    + rewrite list_lookup_insert_ne by done. destruct (pagetable sp !! i') as [p|]; simpl; [|done].
      rewrite lookup_insert. case_decide; [|done]. subst p. rewrite Hptq. simpl.
      apply zero_page.
  - rewrite lookup_insert_ne by done. destruct (spaces s !! b) as [sb|]; simpl; [|done].
    destruct (pagetable sb !! i') as [p|]; simpl; [|done].
    rewrite lookup_insert. case_decide; [|done]. subst p. rewrite Hptq. simpl.
    apply zero_page.
Qed.

(** ** Page faults *)

Lemma entry_at_eq s p t j e : pt2s s !! p = Some t -> t !! j = Some e ->
  entry_at p j s = (Ret e, s).
Proof. intros Hp He. unfold entry_at, bind, get. by rewrite Hp, He. Qed.

Lemma space_at_eq s a sp : spaces s !! a = Some sp -> space_at a s = (Ret sp, s).
Proof. intros Ha. unfold space_at, bind, get. by rewrite Ha. Qed.

Lemma set_space_eq s a sp f : spaces s !! a = Some sp ->
  set_space a f s = (Ret tt, with_spaces (<[a := f sp]> (spaces s)) s).
Proof. intros Ha. unfold set_space, bind. by rewrite (space_at_eq _ _ _ Ha). Qed.

Lemma as_prepare_load_eq s a sp : spaces s !! a = Some sp -> as_stackpbase sp = 0 ->
  as_prepare_load a s = (Ret 0, s).
Proof. intros Ha Hb. unfold as_prepare_load, bind. by rewrite (space_at_eq _ _ _ Ha), Hb. Qed.

Lemma set_entry_eq s p t j e f : pt2s s !! p = Some t -> t !! j = Some e ->
  set_entry p j f s = (Ret tt, with_pt2s (<[p := <[j := f e]> t]> (pt2s s)) s).
Proof. intros Hp He. unfold set_entry, bind, get. by rewrite Hp, He. Qed.

Lemma pt_ptr_eq s a i p : ptr s a i = Some p -> pt_ptr a i s = (Ret p, s).
Proof.
  unfold ptr, pt_ptr, space_at, bind, get. destruct (spaces s !! a); simpl; [|done]. by intros ->.
Qed.

Definition zeros : list Z := replicate 4096 0.

(** An entry mapping the frame at kernel address [a]. *)
Definition mapping (a : Z) (e : pageentry) : pageentry := set_valid 1 (set_phyaddr (a - MIPS_KSEG0) e).

Lemma vm_ok_mapping s k L F p t j a e bytes : vm_ok s L F -> pt2s s !! p = Some t ->
  F !! a = None -> kheap_rep k L (<[a := 1]> F) ->
  vm_ok (map_page k p t j (mapping a e) bytes s) L (<[a := 1]> F).
Proof.
  intros Hok Hp HF Hrep. pose proof (vm_ok_map s k L F p t j (mapping a e) bytes Hok Hp eq_refl) as Hm.
  replace (pe_phyaddr (mapping a e) + MIPS_KSEG0) with a in Hm by (simpl; lia). by apply Hm.
Qed.

Lemma fault_frame_new s L F N p t j e : vm_ok s L F -> pt2s s !! p = Some t -> t !! j = Some e ->
  valid e = 0 -> 1 <= N -> room s N ->
  exists a k', fault_frame p j s = (Ret None, map_page k' p t j (mapping a e) zeros s) /\
    F !! a = None /\ kheap_rep k' L (<[a := 1]> F) /\ a mod 4096 = 0 /\ MIPS_KSEG0 <= a < MIPS_KSEG1 /\
    has_run (pg k') (N - 1) /\ cpu_of k' = cpu_of (kh s).
Proof.
  intros Hok Hp He Hv HN Hroom.
  destruct (m_alloc_run s L F N (vo_heap _ _ _ Hok) HN Hroom)
    as (a & k' & Ha & Hlo & Hal & Hhi & Hcm & HF & Hrep & Hroom' & Hcpu).
  exists a, k'. unfold MIPS_KSEG1 in *. split_and!; try done; try lia.
  assert (j < length t)%nat as Hjl by (by eapply lookup_lt_Some).
  unfold fault_frame. unfold bind at 1. rewrite (entry_at_eq _ _ _ _ _ Hp He), Hv, Z.eqb_refl.
  unfold bind at 1. rewrite Ha. unfold bind at 1. rewrite (set_entry_eq _ p t j e) by done.
  unfold MIPS_KSEG0 in *. unfold ENOMEM. zbool. cbn zeta. rewrite (u32_small (a - 2147483648)) by lia.
  unfold bind at 1. erewrite set_entry_eq;
    [|apply lookup_insert_eq|by apply list_lookup_insert_eq].
  unfold bind at 1, get. unfold bind at 1, assert at 1, coremap_addr; simpl.
  rewrite (proj2 (Z.ltb_lt _ _)) by done.
  unfold bind at 1. erewrite set_entry_eq;
    [|apply lookup_insert_eq|apply list_lookup_insert_eq; by rewrite length_insert].
  unfold bind, bzero_page, bind, assert, modify, ret, kseg0_page.
  rewrite KVADDR_small by lia. unfold MIPS_KSEG0, MIPS_KSEG1. zbool.
  unfold map_page, mapping, with_frames, with_pt2s, with_kh, zeros; simpl. do 2 f_equal.
  - by rewrite !insert_insert_eq, !list_insert_insert_eq.
  - f_equal. unfold MIPS_KSEG0. lia.
Qed.

(** [s'] has every mapping of [s], the same TLB, current address space and
    interrupt level. *)
Definition extends (s s' : mstate) : Prop :=
  tlb s' = tlb s /\ t_vmspace s' = t_vmspace s /\ cpu_of s' = cpu_of s /\
  forall a i j e, pte s a i j = Some e -> valid e <> 0 -> pte s' a i j = Some e.

Lemma extends_refl s : extends s s.
Proof. by split_and!. Qed.

Lemma extends_trans s1 s2 s3 : extends s1 s2 -> extends s2 s3 -> extends s1 s3.
Proof.
  intros (? & ? & ? & H12) (? & ? & ? & H23). split_and!; try congruence.
  intros a i j e He Hv. by apply H23; [apply H12|].
Qed.

Lemma extends_map s k p t j e e0 bytes : pt2s s !! p = Some t -> t !! j = Some e0 -> valid e0 = 0 ->
  cpu_of k = cpu_of (kh s) -> extends s (map_page k p t j e bytes s).
Proof.
  intros Hp He0 Hv0 Hc. split_and!; try done. intros a i j' e'. rewrite !pte_ptr.
  unfold ptr; simpl. destruct (spaces s !! a) as [sp|]; simpl; [|done].
  destruct (pagetable sp !! i) as [q|]; simpl; [|done].
  rewrite lookup_insert. case_decide as Hq; [|done]. rewrite <- Hq, Hp. simpl.
  intros He' Hv'. rewrite list_lookup_insert_ne; [done|]. intros <-. congruence.
Qed.

Lemma extends_add_table s k L F a sp i q : vm_ok s L F -> spaces s !! a = Some sp ->
  pagetable sp !! i = Some 0 -> L !! q = None -> cpu_of k = cpu_of (kh s) ->
  extends s (add_table k a sp i q s).
Proof.
  intros Hok Hsp Hi HL Hc. split_and!; try done. intros b i' j' e. rewrite !pte_ptr.
  destruct (table_nonnull _ _ _ Hok) as [H0 _].
  assert (pt2s s !! q = None) as Hptq.
  { destruct (pt2s s !! q) as [t|] eqn:E; [|done]. destruct (vo_table _ _ _ Hok _ _ E). congruence. }
  unfold ptr; simpl. destruct (decide (b = a)) as [->|].
  - rewrite lookup_insert_eq, Hsp. simpl. destruct (decide (i' = i)) as [->|].
    + rewrite Hi. simpl. by rewrite H0.
    + rewrite list_lookup_insert_ne by done. destruct (pagetable sp !! i') as [p|]; simpl; [|done].
      rewrite lookup_insert. case_decide as Hq; [|done]. by rewrite <- Hq, Hptq.
  - rewrite lookup_insert_ne by done. destruct (spaces s !! b) as [sb|]; simpl; [|done].
    destruct (pagetable sb !! i') as [p|]; simpl; [|done].
    rewrite lookup_insert. case_decide as Hq; [|done]. by rewrite <- Hq, Hptq.
Qed.

(** The step of [vm_fault] and [as_copy] that puts a fresh table in slot [i]. *)
Lemma new_table_eq s L F N a sp i : vm_ok s L F -> spaces s !! a = Some sp ->
  (i < length (pagetable sp))%nat -> 4 <= N -> room s N ->
  exists q k', m_kmalloc sizeof_pagetable2 s = (Ret q, with_kh k' s) /\
    (set_pt_ptr a i q ;;; bzero_pt2 q) (with_kh k' s) = (Ret tt, add_table k' a sp i q s) /\ q <> 0 /\ L !! q = None /\
    kheap_rep k' (<[q := sizeof_pagetable2]> L) F /\ has_run (pg k') (N - 4) /\
    cpu_of k' = cpu_of (kh s).
Proof.
  intros Hok Hsp Hi HN Hroom.
  destruct (m_kmalloc_run s L F N sizeof_pagetable2 (vo_heap _ _ _ Hok) ltac:(done) ltac:(done) Hroom)
    as (q & k' & Hq & Hne & HL & Hrep & Hroom' & Hc).
  exists q, k'. split_and!; try done.
  unfold set_pt_ptr, set_space, space_at, bind, get; simpl.
  rewrite Hsp. unfold modify, bzero_pt2, bind, assert. by rewrite (proj2 (Z.eqb_neq _ _)) by done.
Qed.

(** Making sure that slot [i] of the current address space has a table. *)
Lemma fault_table s L F a sp i p0 : vm_ok s L F -> spaces s !! a = Some sp ->
  pagetable sp !! i = Some p0 -> room s 5 ->
  exists s1 L1 p t, (if p0 =? 0 then q <- m_kmalloc sizeof_pagetable2 ;; set_pt_ptr a i q ;;; bzero_pt2 q
                     else ret tt) s = (Ret tt, s1) /\
    vm_ok s1 L1 F /\ extends s s1 /\ room s1 1 /\ ptr s1 a i = Some p /\ pt2s s1 !! p = Some t /\
    forall b i' j', page s1 b i' j' = page s b i' j'.
Proof.
  intros Hok Hsp Hi Hroom. destruct (Z.eqb_spec p0 0) as [->|Hp0].
  - destruct (new_table_eq s L F 5 a sp i Hok Hsp) as (q & k' & He & He' & Hq & HL & Hrep & Hrun & Hc);
      [by eapply lookup_lt_Some|lia|done|].
    eexists _, _, q, _. split; [unfold bind at 1; rewrite He; exact He'|]. split_and!.
    + by apply vm_ok_add_table.
    + by eapply extends_add_table.
    + done.
    + unfold ptr; simpl. rewrite lookup_insert_eq. simpl. apply list_lookup_insert_eq.
      by eapply lookup_lt_Some.
    + simpl. apply lookup_insert_eq.
    + intros. by eapply page_add_table.
  - destruct (vo_ptr _ _ _ Hok _ _ _ _ Hsp Hi Hp0) as [t Ht].
    exists s, L, p0, t. split_and!; try done.
    + destruct Hroom as [k Hk]. exists k. split; [apply Hk|]. intros j Hj. apply Hk. lia.
    + unfold ptr. by rewrite Hsp.
Qed.

Lemma ptr_inj s L F a i a' i' p t : vm_ok s L F -> pt2s s !! p = Some t ->
  ptr s a i = Some p -> ptr s a' i' = Some p -> a = a' /\ i = i'.
Proof.
  intros Hok Ht. unfold ptr. destruct (table_nonnull _ _ _ Hok) as [H0 _].
  intros (sp & Hsp & Hp)%bind_Some (sp' & Hsp' & Hp')%bind_Some.
  apply (vo_ptr_inj _ _ _ Hok a sp i a' sp' i' p); try done. intros ->. congruence.
Qed.

(** Making sure that the page has a frame. *)
Lemma fault_map s L F a i j p t e : vm_ok s L F -> ptr s a i = Some p ->
  pt2s s !! p = Some t -> t !! j = Some e -> room s 1 ->
  exists s2 F2 e2, fault_frame p j s = (Ret None, s2) /\ vm_ok s2 L F2 /\ extends s s2 /\
    entry_at p j s2 = (Ret e2, s2) /\ pte s2 a i j = Some e2 /\ valid e2 = 1 /\
    page s2 a i j = Some (default zeros (page s a i j)) /\
    forall b i' j', (b, i', j') <> (a, i, j) -> page s2 b i' j' = page s b i' j'.
Proof.
  intros Hok Hptr Ht He Hroom. destruct (decide (valid e = 0)) as [Hv|Hv].
  - destruct (fault_frame_new s L F 1 p t j e Hok Ht He Hv ltac:(lia) Hroom)
      as (f & k' & Hff & HF & Hrep & Hal & Hr & _ & Hc).
    assert (pe_phyaddr (mapping f e) + MIPS_KSEG0 = f) as Hpe by (simpl; lia).
    assert (j < length t)%nat as Hj by (by eapply lookup_lt_Some).
    assert (forall b i' j', page (map_page k' p t j (mapping f e) zeros s) b i' j' =
      if decide (ptr s b i' = Some p /\ j' = j) then Some zeros else page s b i' j') as Hpage.
    { intros. apply (page_map s k' L F); try done. by rewrite Hpe. }
    assert (page s a i j = None) as Hnone.
    { unfold page. rewrite pte_ptr, Hptr; simpl. rewrite Ht; simpl. rewrite He; simpl. by rewrite Hv. }
    eexists _, _, (mapping f e). split; [exact Hff|]. split_and!.
    + by apply vm_ok_mapping.
    + by eapply extends_map.
    + eapply entry_at_eq; simpl; [apply lookup_insert_eq|]. by apply list_lookup_insert_eq.
    + rewrite pte_ptr. unfold ptr at 1; simpl. fold (ptr s a i). rewrite Hptr; simpl.
      rewrite lookup_insert_eq; simpl. by apply list_lookup_insert_eq.
    + done.
    + rewrite Hpage, decide_True, Hnone by done. done.
    + intros b i' j' Hne. rewrite Hpage, decide_False; [done|]. intros [Hb ->].
      destruct (ptr_inj s L F b i' a i p t); congruence.
  - destruct (vo_frame _ _ _ Hok _ _ _ _ Ht He Hv) as (Hv1 & _ & [bytes Hfr]).
    assert (pte s a i j = Some e) as Hpte by (rewrite pte_ptr, Hptr; simpl; by rewrite Ht).
    exists s, F, e. split_and!; try done.
    + unfold fault_frame, bind. rewrite (entry_at_eq _ _ _ _ _ Ht He).
      by rewrite (proj2 (Z.eqb_neq _ _)) by done.
    + by eapply entry_at_eq.
    + unfold page. rewrite Hpte; simpl. rewrite (proj2 (Z.eqb_neq _ _)), Hfr by done. done.
Qed.

(** ** The TLB *)

Definition tlb_valid (elo : Z) : bool := negb (Z.land elo TLBLO_VALID =? 0).
Definition vpage (i j : nat) : Z := 4096 * (1024 * Z.of_nat i + Z.of_nat j).

(** Every valid entry is a mapping of the current address space, and no virtual page
    is entered twice. *)
Definition tlb_ok (s : mstate) : Prop :=
  length (tlb s) = NUM_TLB /\
  (forall k ehi elo, tlb s !! k = Some (ehi, elo) -> tlb_valid elo = true ->
     exists i j e, pte s (t_vmspace s) i j = Some e /\ valid e <> 0 /\
       ehi = vpage i j /\ elo = Z.lor (Z.lor (pe_phyaddr e) TLBLO_DIRTY) TLBLO_VALID) /\
  (forall k k' ehi elo elo', tlb s !! k = Some (ehi, elo) -> tlb_valid elo = true ->
     tlb s !! k' = Some (ehi, elo') -> tlb_valid elo' = true -> k = k').

Lemma seq_split n k : (k < n)%nat -> seq 0 n = seq 0 k ++ k :: seq (S k) (n - k - 1).
Proof.
  intros Hk. change (k :: seq (S k) (n - k - 1)) with (seq (0 + k) (S (n - k - 1))).
  rewrite <- seq_app. f_equal. lia.
Qed.

Lemma tlb_insert_spec s fa pa : length (tlb s) = NUM_TLB ->
  (exists k ehi elo, tlb s !! k = Some (ehi, elo) /\ tlb_valid elo = false /\
     tlb_insert fa pa s = (Ret true,
       with_tlb (<[k := (fa, Z.lor (Z.lor pa TLBLO_DIRTY) TLBLO_VALID)]> (tlb s)) s)) \/
  ((forall k ehi elo, tlb s !! k = Some (ehi, elo) -> tlb_valid elo = true) /\
   tlb_insert fa pa s = (Ret false, s)).
Proof.
  intros Hlen.
  assert (forall k, (k < NUM_TLB)%nat -> exists e, tlb s !! k = Some e) as Hlk.
  { intros k Hk. apply lookup_lt_is_Some_2. by rewrite Hlen. }
  unfold tlb_insert.
  destruct (least_false (fun k => from_option (fun e => tlb_valid e.2) true (tlb s !! Z.to_nat k)) 64)
    as [Hall|(k & Hk & Hinv & Hlow)].
  - right. split.
    + intros k ehi elo He. pose proof (lookup_lt_Some _ _ _ He). unfold NUM_TLB in *.
      specialize (Hall (Z.of_nat k) ltac:(lia)). by rewrite Nat2Z.id, He in Hall.
    + unfold bind at 1. rewrite for_find_none; [done|]. intros k [_ Hk]%elem_of_seq.
      destruct (Hlk k Hk) as [[ehi elo] He]. unfold NUM_TLB in *.
      specialize (Hall (Z.of_nat k) ltac:(lia)). rewrite Nat2Z.id, He in Hall. simpl in Hall.
      unfold tlb_valid in Hall. unfold bind, TLB_Read, get, bind, ret. by rewrite He, Hall.
  - left. destruct (Hlk (Z.to_nat k)) as [[ehi elo] He]; [unfold NUM_TLB; lia|].
    rewrite He in Hinv. simpl in Hinv. exists (Z.to_nat k), ehi, elo. split_and!; [done|done|].
    unfold bind at 1. rewrite (seq_split NUM_TLB (Z.to_nat k)) by (unfold NUM_TLB; lia).
    erewrite for_find_first; [done| |].
    + intros k' [_ Hk']%elem_of_seq. destruct (Hlk k') as [[ehi' elo'] He']; [unfold NUM_TLB; lia|].
      specialize (Hlow (Z.of_nat k') ltac:(lia)). rewrite Nat2Z.id, He' in Hlow. simpl in Hlow.
      unfold tlb_valid in Hlow. unfold bind, TLB_Read, get, bind, ret. by rewrite He', Hlow.
    + unfold tlb_valid in Hinv. unfold bind, TLB_Read, get, bind, ret. by rewrite He, Hinv.
Qed.

Lemma vm_ok_cpu s L F c : vm_ok s L F -> spl_ok c -> vm_ok (with_cpu c s) L F.
Proof.
  intros [] Hc. split; try done. by apply (kheap_rep_cpu (kh s)).
Qed.

Lemma vm_ok_tlb s L F t : vm_ok s L F -> vm_ok (with_tlb t s) L F.
Proof. by intros []. Qed.

Lemma vm_ok_spl s L F : vm_ok s L F -> spl_ok (cpu_of s).
Proof.
  intros Hok. destruct (rep_pages _ _ _ (vo_heap _ _ _ Hok)) as (G & Hp & _).
  by apply (pages_spl (pg (kh s)) G).
Qed.

Lemma frame_aligned s L F a i j e : vm_ok s L F -> pte s a i j = Some e -> valid e <> 0 ->
  0 <= pe_phyaddr e < 2 ^ 29 /\ Z.land (pe_phyaddr e) PAGE_FRAME = pe_phyaddr e.
Proof.
  intros Hok Hpte Hv. rewrite pte_ptr in Hpte.
  apply bind_Some in Hpte as (p & _ & (t & Ht & He)%bind_Some).
  destruct (vo_frame _ _ _ Hok _ _ _ _ Ht He Hv) as (_ & HF & _).
  destruct (rep_pages _ _ _ (vo_heap _ _ _ Hok)) as (G & Hp & HFG). apply HFG in HF.
  destruct (pages_range (pg (kh s)) G _ _ Hp HF) as (? & Hal & _ & ?).
  unfold MIPS_KSEG0, MIPS_KSEG1 in *. split; [lia|].
  rewrite PAGE_FRAME_land by lia.
  pose proof (Z.div_mod (pe_phyaddr e + 2147483648) 4096 ltac:(lia)).
  replace (pe_phyaddr e) with (((pe_phyaddr e + 2147483648) / 4096 - 524288) * 4096) at 1 by lia.
  rewrite Z.div_mul; lia.
Qed.

Lemma land_3 fa : Z.land fa 3 = fa mod 4.
Proof. change 3 with (Z.ones 2). by rewrite Z.land_ones by lia. Qed.

Lemma vpage_index fa : 0 <= fa -> vpage (index1 fa) (index2 fa) = 4096 * (fa / 4096).
Proof.
  intros Hf. unfold vpage, index1, index2.
  pose proof (Z.div_pos fa (2 ^ 22) ltac:(lia) ltac:(lia)).
  pose proof (Z.mod_pos_bound (fa / 4096) 1024 ltac:(lia)).
  rewrite !Z2Nat.id by lia. change (2 ^ 22) with (4096 * 1024). rewrite <- Z.div_div by lia.
  pose proof (Z.div_mod (fa / 4096) 1024 ltac:(lia)). lia.
Qed.

(** The checks at the start of [vm_fault]. *)
Lemma vm_fault_enter s ft fa : 0 < fa < 2 ^ 31 -> fa mod 4 = 0 ->
  ft = VM_FAULT_READ \/ ft = VM_FAULT_WRITE -> t_vmspace s <> 0 ->
  vm_fault ft fa s = fault_resolve (curspl (cpu_of s)) (t_vmspace s) (Z.land fa PAGE_FRAME)
    (with_cpu (mk_cpu SPL_HIGH false) s).
Proof.
  intros Hfa Hal Hft Ha. unfold vm_fault. rewrite land_3, Hal.
  rewrite Z.gtb_ltb, (proj2 (Z.ltb_ge _ _)), (proj2 (Z.eqb_neq fa 0)), Z.eqb_refl by lia. cbn [negb].
  unfold bind at 1. rewrite splhigh_eq. cbn zeta.
  assert ((ft =? VM_FAULT_READONLY) = false /\
    negb ((ft =? VM_FAULT_READ) || (ft =? VM_FAULT_WRITE)) = false) as [-> ->]
    by (destruct Hft as [-> | ->]; done).
  unfold bind at 1, gets. change (t_vmspace (with_cpu _ s)) with (t_vmspace s).
  by rewrite (proj2 (Z.eqb_neq _ 0)) by done.
Qed.

(** [vm_fault] up to the search for a TLB slot. *)
Lemma vm_fault_prefix s L F ft fa sp : vm_ok s L F -> spaces s !! t_vmspace s = Some sp ->
  0 < fa < 2 ^ 31 -> fa mod 4 = 0 -> ft = VM_FAULT_READ \/ ft = VM_FAULT_WRITE -> room s 5 ->
  let a := t_vmspace s in let i := index1 fa in let j := index2 fa in
  exists s2 L2 F2 e, vm_fault ft fa s =
      (found <- tlb_insert (vpage i j) (pe_phyaddr e) ;;
       splx (curspl (cpu_of s)) ;;; ret (if found : bool then 0 else EFAULT)) s2 /\
    vm_ok s2 L2 F2 /\ extends (with_cpu (mk_cpu SPL_HIGH false) s) s2 /\
    pte s2 a i j = Some e /\ valid e = 1 /\
    page s2 a i j = Some (default zeros (page s a i j)) /\
    forall b i' j', (b, i', j') <> (a, i, j) -> page s2 b i' j' = page s b i' j'.
Proof.
  intros Hok Hsp Hfa Hal Hft Hroom a i j.
  destruct (index_bounds fa ltac:(lia)) as [Hi Hj].
  destruct (vo_space _ _ _ Hok _ _ Hsp) as (HLa & Hlen & _).
  assert (t_vmspace s <> 0) as Ha0.
  { intros H0. destruct (table_nonnull _ _ _ Hok) as [_ Hn]. rewrite H0 in Hsp. congruence. }
  set (s0 := with_cpu (mk_cpu SPL_HIGH false) s).
  assert (vm_ok s0 L F) as Hok0 by (apply vm_ok_cpu; [done|by split]).
  destruct (lookup_lt_is_Some_2 (pagetable sp) i) as [p0 Hp0]; [by rewrite Hlen|].
  destruct (fault_table s0 L F a sp i p0 Hok0 Hsp Hp0 Hroom)
    as (s1 & L1 & p & t & He1 & Hok1 & Hext1 & Hroom1 & Hptr1 & Ht1 & Hpage1).
  destruct (vo_table _ _ _ Hok1 _ _ Ht1) as [_ Hlt].
  destruct (lookup_lt_is_Some_2 t j) as [e1 Hej]; [by rewrite Hlt|].
  destruct (fault_map s1 L1 F a i j p t e1 Hok1 Hptr1 Ht1 Hej Hroom1)
    as (s2 & F2 & e2 & He2 & Hok2 & Hext2 & Hent2 & Hpte2 & Hv2 & Hpage2 & Hoth2).
  destruct (frame_aligned s2 L1 F2 a i j e2 Hok2 Hpte2 ltac:(lia)) as [_ Hfa2].
  exists s2, L1, F2, e2. split_and!; try done.
  - rewrite vm_fault_enter by done. fold s0 a. unfold fault_resolve. cbn zeta.
    rewrite index1_eq, index2_eq by lia. fold (index1 fa) (index2 fa). fold i j.
    unfold bind at 1. rewrite (pt_ptr_eq s0 a i p0) by (unfold ptr, a; change (spaces s0) with (spaces s); by rewrite Hsp).
    unfold bind at 1. rewrite He1. unfold bind at 1. rewrite (pt_ptr_eq _ _ _ _ Hptr1).
    unfold bind at 1. rewrite He2. unfold bind at 1. rewrite Hent2.
    unfold bind at 1, assert at 1. rewrite Hfa2, Z.eqb_refl.
    rewrite PAGE_FRAME_land by lia. unfold i, j. by rewrite vpage_index by lia.
  - by eapply extends_trans.
  - rewrite Hpage2, Hpage1. done.
  - intros b i' j' Hne. rewrite Hoth2, Hpage1 by done. done.
Qed.

Lemma tlb_valid_set p : tlb_valid (Z.lor (Z.lor p TLBLO_DIRTY) TLBLO_VALID) = true.
Proof.
  unfold tlb_valid, TLBLO_VALID. change 0x200 with (2 ^ 9).
  by rewrite land_pow2_eqb, lor_pow2_bit by lia.
Qed.

Lemma tlb_ok_insert s s2 k ehi elo i j e : tlb_ok s -> extends s s2 ->
  tlb s !! k = Some (ehi, elo) -> tlb_valid elo = false ->
  pte s2 (t_vmspace s) i j = Some e -> valid e = 1 ->
  (forall k elo, tlb s !! k = Some (vpage i j, elo) -> tlb_valid elo = false) ->
  tlb_ok (with_tlb (<[k := (vpage i j, Z.lor (Z.lor (pe_phyaddr e) TLBLO_DIRTY) TLBLO_VALID)]> (tlb s2)) s2).
Proof.
  intros (Hlen & Hmap & Huniq) (Htlb & Hcur & _ & Hpte) Hk Hinv He Hv Hnew.
  unfold tlb_ok; simpl. rewrite Htlb, Hcur, length_insert. split_and!; [done| |].
  - intros k' ehi' elo' [(<- & [= <- <-] & _)|[_ Hk']]%list_lookup_insert_Some Hv'.
    + exists i, j, e. split_and!; try done. lia.
    + destruct (Hmap k' ehi' elo' Hk' Hv') as (i' & j' & e' & ? & ? & ? & ?).
      exists i', j', e'. split_and!; try done. by apply Hpte.
  - intros k1 k2 ehi' e1 e2 H1 Hv1 H2 Hv2.
    apply list_lookup_insert_Some in H1, H2.
    destruct H1 as [(<- & [= <- <-] & _)|[? H1]], H2 as [(<- & Heq & _)|[? H2]].
    + done.
    + rewrite (Hnew _ _ H2) in Hv2. done.
    + injection Heq as <- <-. rewrite (Hnew _ _ H1) in Hv1. done.
    + exact (Huniq k1 k2 ehi' e1 e2 H1 Hv1 H2 Hv2).
Qed.

Lemma tlb_ok_cpu s c : tlb_ok s -> tlb_ok (with_cpu c s).
Proof. done. Qed.

(** A fault with a free TLB slot. *)
Lemma vm_fault_resolves s L F ft fa sp : vm_ok s L F -> tlb_ok s ->
  spaces s !! t_vmspace s = Some sp ->
  0 < fa < 2 ^ 31 -> fa mod 4 = 0 -> ft = VM_FAULT_READ \/ ft = VM_FAULT_WRITE -> room s 5 ->
  let a := t_vmspace s in let i := index1 fa in let j := index2 fa in
  (exists k ehi elo, tlb s !! k = Some (ehi, elo) /\ tlb_valid elo = false) ->
  (forall k elo, tlb s !! k = Some (vpage i j, elo) -> tlb_valid elo = false) ->
  exists s' L' F' e k, vm_fault ft fa s = (Ret 0, s') /\
    vm_ok s' L' F' /\ tlb_ok s' /\ cpu_of s' = cpu_of s /\
    pte s' a i j = Some e /\ valid e = 1 /\
    tlb s' !! k = Some (vpage i j, Z.lor (Z.lor (pe_phyaddr e) TLBLO_DIRTY) TLBLO_VALID) /\
    page s' a i j = Some (default zeros (page s a i j)) /\
    forall b i' j', (b, i', j') <> (a, i, j) -> page s' b i' j' = page s b i' j'.
Proof.
  intros Hok Htlb Hsp Hfa Hal Hft Hroom a i j (k0 & eh0 & el0 & Hk0 & Hinv0) Hnew.
  pose proof (vm_ok_spl _ _ _ Hok) as Hspl.
  destruct (vm_fault_prefix s L F ft fa sp Hok Hsp Hfa Hal Hft Hroom)
    as (s2 & L2 & F2 & e & Heq & Hok2 & Hext & Hpte & Hv & Hpage & Hoth).
  fold a i j in Heq, Hpte, Hpage, Hoth.
  pose proof Hext as (Ht2 & _). change (tlb (with_cpu _ s)) with (tlb s) in Ht2.
  destruct (tlb_insert_spec s2 (vpage i j) (pe_phyaddr e))
    as [(k & ehi & elo & Hk & Hinv & Hins)|[Hfull _]].
  { rewrite Ht2. apply Htlb. }
  - rewrite Ht2 in Hk.
    exists (with_cpu (cpu_of s) (with_tlb (<[k := (vpage i j, Z.lor (Z.lor (pe_phyaddr e) TLBLO_DIRTY) TLBLO_VALID)]> (tlb s2)) s2)),
      L2, F2, e, k.
    split_and!; try done.
    + rewrite Heq. unfold bind at 1. rewrite Hins. unfold bind.
      rewrite splx_eq by apply Hspl. by rewrite spl_ok_eta.
    + apply vm_ok_cpu; [by apply vm_ok_tlb|done].
    + apply tlb_ok_cpu. by eapply tlb_ok_insert; [apply (tlb_ok_cpu s)|..].
    + simpl. apply list_lookup_insert_eq. rewrite Ht2. by eapply lookup_lt_Some.
  - rewrite Ht2 in Hfull. rewrite (Hfull _ _ _ Hk0) in Hinv0. done.
Qed.


(** When all 64 TLB slots hold valid entries, [vm_fault] maps the page but
    then gives up with EFAULT: it never replaces an entry. *)
Theorem vm_fault_tlb_full s L F ft fa sp : vm_ok s L F -> length (tlb s) = NUM_TLB ->
  spaces s !! t_vmspace s = Some sp ->
  0 < fa < 2 ^ 31 -> fa mod 4 = 0 -> ft = VM_FAULT_READ \/ ft = VM_FAULT_WRITE -> room s 5 ->
  (forall k ehi elo, tlb s !! k = Some (ehi, elo) -> tlb_valid elo = true) ->
  exists s', vm_fault ft fa s = (Ret EFAULT, s') /\ tlb s' = tlb s /\
    is_Some (page s' (t_vmspace s) (index1 fa) (index2 fa)).
Proof.
  intros Hok Hlen Hsp Hfa Hal Hft Hroom Hfull.
  pose proof (vm_ok_spl _ _ _ Hok) as Hspl.
  destruct (vm_fault_prefix s L F ft fa sp Hok Hsp Hfa Hal Hft Hroom)
    as (s2 & L2 & F2 & e & Heq & Hok2 & (Ht2 & _) & Hpte & Hv & Hpage & Hoth).
  change (tlb (with_cpu _ s)) with (tlb s) in Ht2.
  destruct (tlb_insert_spec s2 (vpage (index1 fa) (index2 fa)) (pe_phyaddr e))
    as [(k & ehi & elo & Hk & Hinv & _)|[_ Hins]].
  { by rewrite Ht2. }
  - rewrite Ht2 in Hk. rewrite (Hfull _ _ _ Hk) in Hinv. done.
  - eexists. split_and!.
    + rewrite Heq. unfold bind at 1. rewrite Hins. unfold bind.
      rewrite splx_eq by apply Hspl. reflexivity.
    + done.
    + exists (default zeros (page s (t_vmspace s) (index1 fa) (index2 fa))). exact Hpage.
Qed.

(** Running out of frames is not reported: [alloc_kpages] returns 0, the code
    compares it with ENOMEM, takes 0 - 0x80000000 for a frame and panics when it
    zeroes the page at kernel address 0. *)
Theorem vm_fault_out_of_memory s L F ft fa p t e : vm_ok s L F ->
  0 < fa < 2 ^ 31 -> fa mod 4 = 0 -> ft = VM_FAULT_READ \/ ft = VM_FAULT_WRITE ->
  ptr s (t_vmspace s) (index1 fa) = Some p -> pt2s s !! p = Some t -> t !! index2 fa = Some e ->
  valid e = 0 -> pageleft (pg (kh s)) = 0 ->
  (vm_fault ft fa s).1 = Panic.
Proof.
  intros Hok Hfa Hal Hft Hptr Ht He Hv Hleft.
  set (a := t_vmspace s) in *. set (i := index1 fa) in *. set (j := index2 fa) in *.
  set (s0 := with_cpu (mk_cpu SPL_HIGH false) s).
  destruct (table_nonnull _ _ _ Hok) as [Hn0 Hs0].
  assert (a <> 0) as Ha0.
  { intros H0. unfold ptr in Hptr. by rewrite H0, Hs0 in Hptr. }
  assert (p <> 0) as Hp0 by congruence.
  destruct (rep_pages _ _ _ (vo_heap _ _ _ Hok)) as (G & Hp & _).
  assert (pages_ok (pg (kh s0)) G) as Hp' by (by apply (pages_cpu (pg (kh s)))).
  assert ((fault_frame p j s0).1 = Panic) as Hff.
  { unfold fault_frame. unfold bind at 1. rewrite (entry_at_eq s0 p t j e Ht He), Hv, Z.eqb_refl.
    unfold bind at 1, m_alloc_kpages, on_kh, on_pg, zoom.
    rewrite (alloc_kpages_none _ _ Hp') by done.
    unfold bind at 1. rewrite (set_entry_eq _ p t j e) by done. cbn zeta.
    change (0 =? ENOMEM) with false. cbn iota.
    assert (j < length t)%nat as Hj by (by eapply lookup_lt_Some).
    unfold bind at 1. erewrite set_entry_eq; [|apply lookup_insert_eq|by apply list_lookup_insert_eq].
    unfold bind at 1, get. unfold bind at 1, assert at 1.
    change (u32 (0 - 0x80000000)) with 0x80000000.
    rewrite (proj2 (Z.ltb_lt _ _)).
    - unfold bind at 1. erewrite set_entry_eq;
        [|apply lookup_insert_eq|apply list_lookup_insert_eq; by rewrite length_insert].
      done.
    - unfold coremap_addr; simpl. destruct Hp' as (base & rs & (_ & _ & _ & _ & _ & _ & Hc & ? & ?) & _).
      simpl in Hc. unfold MIPS_KSEG0 in Hc. destruct Hp as (base' & rs' & Hok' & _).
      destruct Hok' as (_ & Hpn & _). simpl in *. lia. }
  rewrite vm_fault_enter by done. fold s0 a. unfold fault_resolve. cbn zeta.
  rewrite index1_eq, index2_eq by lia. fold (index1 fa) (index2 fa). fold i j.
  unfold bind at 1. rewrite (pt_ptr_eq s0 a i p) by exact Hptr.
  rewrite (proj2 (Z.eqb_neq p 0)) by done.
  unfold bind at 1, ret at 1. unfold bind at 1. rewrite (pt_ptr_eq s0 a i p) by exact Hptr.
  unfold bind at 1. destruct (fault_frame p j s0) as [r s']. simpl in Hff. by rewrite Hff.
Qed.

(** ** Copying an address space *)

Lemma fresh_table s L F q : vm_ok s L F -> L !! q = None -> pt2s s !! q = None /\ spaces s !! q = None.
Proof.
  intros Hok HL. split; apply eq_None_not_Some; intros [x Hx].
  - destruct (vo_table _ _ _ Hok _ _ Hx). congruence.
  - destruct (vo_space _ _ _ Hok _ _ Hx). congruence.
Qed.

Lemma tpage_add_table s k L F a sp i q p j : vm_ok s L F -> L !! q = None ->
  tpage (add_table k a sp i q s) p j = tpage s p j.
Proof.
  intros Hok HL. destruct (fresh_table _ _ _ _ Hok HL) as [Hq _].
  unfold tpage; simpl. rewrite lookup_insert. case_decide as He; [|done].
  rewrite <- He, Hq. simpl. apply zero_page.
Qed.

Definition nvalid (t : list pageentry) : Z := Z.of_nat (length (filter (fun e => valid e <> 0) t)).

Lemma room_le s N N' : room s N -> N' <= N -> room s N'.
Proof. intros [k Hk] Hle. exists k. split; [apply Hk|]. intros j Hj. apply Hk. lia. Qed.

Lemma copy_pte_new s L F N po to eo pn tn j en : vm_ok s L F ->
  pt2s s !! po = Some to -> to !! j = Some eo -> valid eo <> 0 ->
  pt2s s !! pn = Some tn -> tn !! j = Some en -> 1 <= N -> room s N ->
  exists a k' bytes, frames s !! pe_phyaddr eo = Some bytes /\
    copy_pte po pn j s = (Ret None, map_page k' pn tn j (mapping a en) bytes s) /\
    F !! a = None /\ kheap_rep k' L (<[a := 1]> F) /\ has_run (pg k') (N - 1) /\
    cpu_of k' = cpu_of (kh s).
Proof.
  intros Hok Hpo Heo Hvo Hpn Hen HN Hroom.
  destruct (m_alloc_run s L F N (vo_heap _ _ _ Hok) HN Hroom)
    as (a & k' & Ha & Hlo & Hal & Hhi & Hcm & HF & Hrep & Hroom' & Hcpu).
  destruct (vo_frame _ _ _ Hok _ _ _ _ Hpo Heo Hvo) as (Hv1 & HFo & [bytes Hb]).
  assert (j < length tn)%nat as Hjl by (by eapply lookup_lt_Some).
  destruct (rep_pages _ _ _ Hrep) as (G & Hp & HFG).
  assert (G !! (pe_phyaddr eo + MIPS_KSEG0) = Some 1) as HGo.
  { apply HFG. rewrite lookup_insert_ne; [done|]. congruence. }
  destruct (pages_range (pg k') G _ _ Hp HGo) as (Holo & _ & _ & Hohi).
  pose proof (ledger_above (pg k') G _ _ Hp HGo) as Hoab.
  exists a, k', bytes. unfold MIPS_KSEG1, MIPS_KSEG0 in *. split_and!; try done.
  unfold copy_pte. unfold bind at 1. rewrite (entry_at_eq _ _ _ _ _ Hpo Heo), Hv1, Z.eqb_refl.
  unfold bind at 1. rewrite Ha. unfold bind at 1. rewrite (set_entry_eq _ pn tn j en) by done.
  unfold ENOMEM. zbool. cbn zeta. rewrite (u32_small (a - 2147483648)) by lia.
  unfold bind at 1. erewrite set_entry_eq; [|apply lookup_insert_eq|by apply list_lookup_insert_eq].
  unfold bind at 1, get. unfold bind at 1, assert at 1, coremap_addr; simpl.
  rewrite (proj2 (Z.ltb_lt _ _)) by done.
  unfold bind at 1, assert at 1. rewrite (proj2 (Z.ltb_lt _ (pe_phyaddr eo))) by lia.
  unfold bind at 1. erewrite set_entry_eq;
    [|apply lookup_insert_eq|apply list_lookup_insert_eq; by rewrite length_insert].
  unfold bind, memmove_page, bind, assert, get, put, ret, kseg0_page.
  rewrite !KVADDR_small by lia. unfold MIPS_KSEG0, MIPS_KSEG1. zbool. simpl.
  replace (pe_phyaddr eo + 2147483648 - 2147483648) with (pe_phyaddr eo) by lia. rewrite Hb.
  unfold map_page, mapping, with_frames, with_pt2s, with_kh, MIPS_KSEG0; simpl. do 2 f_equal.
  - by rewrite !insert_insert_eq, !list_insert_insert_eq.
  - f_equal. lia.
Qed.

(** The inner loop of [as_copy], from entry [j0] on. *)
Lemma copy_loop po to pn : forall m j0 s L F tn N, (j0 + m = 1024)%nat -> vm_ok s L F -> po <> pn ->
  pt2s s !! po = Some to -> pt2s s !! pn = Some tn ->
  (forall j e, (j0 <= j)%nat -> tn !! j = Some e -> valid e = 0) ->
  nvalid (drop j0 to) <= N -> room s N ->
  exists s' F', for_find (seq j0 m) (copy_pte po pn) s = (Ret None, s') /\ vm_ok s' L F' /\
    room s' (N - nvalid (drop j0 to)) /\ extends s s' /\ spaces s' = spaces s /\
    (forall q, q <> pn -> pt2s s' !! q = pt2s s !! q) /\
    (forall q j, q <> pn -> tpage s' q j = tpage s q j) /\
    (forall j, (j < 1024)%nat -> tpage s' pn j = if decide (j < j0)%nat then tpage s pn j else tpage s po j).
Proof.
  induction m as [|m IH]; intros j0 s L F tn N Hj Hok Hne Hpo Hpn Hinv HN Hroom.
  - assert (nvalid (drop j0 to) = 0) as H0.
    { rewrite drop_ge; [done|]. destruct (vo_table _ _ _ Hok _ _ Hpo). lia. }
    exists s, F. rewrite H0, Z.sub_0_r. split_and!; try done.
    intros j Hj'. by rewrite decide_True by lia.
  - destruct (vo_table _ _ _ Hok _ _ Hpo) as [_ Hlo]. destruct (vo_table _ _ _ Hok _ _ Hpn) as [_ Hln].
    destruct (lookup_lt_is_Some_2 to j0) as [eo Heo]; [lia|].
    destruct (lookup_lt_is_Some_2 tn j0) as [en Hen]; [lia|].
    pose proof (Hinv j0 en ltac:(lia) Hen) as Hvn.
    rewrite (drop_S _ _ _ Heo) in HN |- *. unfold nvalid in HN |- *. rewrite filter_cons in HN |- *.
    fold (nvalid (drop (S j0) to)) in *. change (seq j0 (S m)) with (j0 :: seq (S j0) m). simpl for_find.
    unfold bind.
    assert (tpage s po j0 = if valid eo =? 0 then None else frames s !! pe_phyaddr eo) as Htp.
    { unfold tpage. rewrite Hpo; simpl. by rewrite Heo. }
    destruct (decide (valid eo <> 0)) as [Hvo|Hvo].
    + simpl length in HN |- *.
      destruct (copy_pte_new s L F N po to eo pn tn j0 en Hok Hpo Heo Hvo Hpn Hen ltac:(lia) Hroom)
        as (a & k' & bytes & Hfr & Hcp & HF & Hrep & Hrun & Hc). rewrite Hcp.
      assert (pe_phyaddr (mapping a en) + MIPS_KSEG0 = a) as Hpe by (simpl; lia).
      assert (forall q j, tpage (map_page k' pn tn j0 (mapping a en) bytes s) q j =
        if decide (q = pn /\ j = j0) then Some bytes else tpage s q j) as Htm.
      { intros. apply (tpage_map s k' L F); [done|done|lia|done|by rewrite Hpe]. }
      edestruct (IH (S j0) (map_page k' pn tn j0 (mapping a en) bytes s) L (<[a := 1]> F))
        as (s' & F' & Hloop & Hok' & Hroom' & Hext & Hsp & Hpt & Htq & Htn).
      * lia.
      * by apply vm_ok_mapping.
      * done.
      * simpl. by rewrite lookup_insert_ne.
      * simpl. apply lookup_insert_eq.
      * intros j e Hj' He'. rewrite list_lookup_insert_ne in He' by lia. apply (Hinv j); [lia|done].
      * instantiate (1 := N - 1). unfold nvalid. lia.
      * done.
      * exists s', F'. split_and!; try done.
        -- eapply room_le; [exact Hroom'|]. unfold nvalid. lia.
        -- eapply extends_trans; [|exact Hext]. by eapply extends_map.
        -- intros q Hq. rewrite Hpt by done. simpl. by rewrite lookup_insert_ne.
        -- intros q j Hq. rewrite Htq, Htm, decide_False by naive_solver. done.
        -- intros j Hj'. rewrite Htn by done. rewrite !Htm.
           destruct (decide (j = j0)) as [->|Hjne].
           ++ rewrite decide_True, decide_True, decide_False by lia || done.
              rewrite Htp, (proj2 (Z.eqb_neq _ _)), Hfr by done. done.
           ++ rewrite (decide_False (P := pn = pn /\ j = j0)) by naive_solver.
              rewrite (decide_False (P := po = pn /\ j = j0)) by naive_solver.
              repeat case_decide; try done; lia.
    + assert (valid eo = 0) as Hv0 by (destruct (decide (valid eo = 0)); [done|]; by destruct Hvo).
      assert (copy_pte po pn j0 s = (Ret None, s)) as ->.
      { unfold copy_pte, bind. rewrite (entry_at_eq _ _ _ _ _ Hpo Heo), Hv0. done. }
      destruct (IH (S j0) s L F tn N) as (s' & F' & Hloop & Hok' & Hroom' & Hext & Hsp & Hpt & Htq & Htn);
        [lia|done..| |done|done|].
      { intros j e Hj' He'. apply (Hinv j); [lia|done]. }
      exists s', F'. split_and!; try done.
      intros j Hj'. rewrite Htn by done. destruct (decide (j = j0)) as [->|Hjne].
      * rewrite decide_True, decide_False by lia.
        rewrite Htp, Hv0. unfold tpage. rewrite Hpn; simpl. rewrite Hen; simpl. by rewrite Hvn.
      * repeat case_decide; try done; lia.
Qed.

(** The pages that copying slot [i] takes. *)
Definition table_cost (s : mstate) (a : Z) (i : nat) : Z :=
  match ptr s a i with
  | Some p => match pt2s s !! p with Some t => 4 + nvalid t | None => 0 end
  | None => 0
  end.
Definition cost_of (s : mstate) (a : Z) (l : list nat) : Z :=
  foldr (fun i c => table_cost s a i + c) 0 l.

Lemma table_cost_nonneg s a i : 0 <= table_cost s a i.
Proof. unfold table_cost, nvalid. destruct (ptr s a i) as [p|]; [destruct (pt2s s !! p)|]; lia. Qed.

Lemma cost_of_nonneg s a l : 0 <= cost_of s a l.
Proof. induction l; simpl; [done|]. pose proof (table_cost_nonneg s a a0). lia. Qed.

Lemma cost_of_same s s' a l : ptr s' a = ptr s a ->
  (forall p t, pt2s s !! p = Some t -> pt2s s' !! p = Some t) ->
  (forall i p, ptr s a i = Some p -> pt2s s !! p = None -> pt2s s' !! p = None) ->
  cost_of s' a l = cost_of s a l.
Proof.
  intros Hp Ht Hn. induction l as [|i l IH]; [done|]. simpl. rewrite IH. f_equal.
  unfold table_cost. rewrite Hp. destruct (ptr s a i) as [p|] eqn:E; [|done].
  destruct (pt2s s !! p) as [t|] eqn:Et; [by rewrite (Ht _ _ Et)|by rewrite (Hn _ _ E Et)].
Qed.

Lemma ptr_none s L F a i p : vm_ok s L F -> ptr s a i = Some p -> pt2s s !! p = None -> p = 0.
Proof.
  intros Hok (sp & Hsp & Hp)%bind_Some Hn. destruct (decide (p = 0)); [done|].
  destruct (vo_ptr _ _ _ Hok _ _ _ _ Hsp Hp) as [t Ht]; [done|congruence].
Qed.

Lemma copy_table_spec s L F N old new spn i : vm_ok s L F -> old <> new ->
  is_Some (ptr s old i) -> spaces s !! new = Some spn -> pagetable spn !! i = Some 0 ->
  table_cost s old i <= N -> room s N ->
  exists s' L' F' q, copy_table old new i s = (Ret None, s') /\ vm_ok s' L' F' /\
    room s' (N - table_cost s old i) /\ extends s s' /\
    spaces s' = <[new := set_ptr i q spn]> (spaces s) /\
    (forall p t, pt2s s !! p = Some t -> pt2s s' !! p = Some t) /\ pt2s s' !! 0 = None /\
    (forall j, (j < 1024)%nat -> page s' new i j = page s old i j) /\
    (forall b i' j, (b, i') <> (new, i) -> page s' b i' j = page s b i' j).
Proof.
  intros Hok Hne [po Hpo] Hspn Hi Hcost Hroom. destruct (table_nonnull _ _ _ Hok) as [Hn0 _].
  unfold table_cost in *. rewrite Hpo in *.
  assert (i < length (pagetable spn))%nat as Hil by (by eapply lookup_lt_Some).
  destruct (pt2s s !! po) as [to|] eqn:Hto.
  - assert (po <> 0) as Hpo0 by congruence.
    assert (0 <= nvalid to) by (unfold nvalid; lia).
    destruct (new_table_eq s L F N new spn i Hok Hspn Hil ltac:(lia) Hroom)
      as (pn & k' & He & He' & Hpn0 & HL & Hrep & Hrun & Hc).
    destruct (fresh_table _ _ _ _ Hok HL) as [Hpn _].
    set (s1 := add_table k' new spn i pn s) in *.
    pose proof (vm_ok_add_table s k' L F new spn i pn Hok Hspn HL Hpn0 Hrep) as Hok1. fold s1 in Hok1.
    assert (po <> pn) as Hpp by congruence.
    destruct (copy_loop po to pn 1024 0 s1 (<[pn := sizeof_pagetable2]> L) F (replicate 1024 zero_entry) (N - 4))
      as (s' & F' & Hloop & Hok' & Hroom' & Hext & Hsp & Hpt & Htq & Htn); try done.
    { simpl. by rewrite lookup_insert_ne. }
    { simpl. apply lookup_insert_eq. }
    { intros j e _ Hj%lookup_replicate_1. by destruct Hj as [-> _]. }
    { rewrite drop_0. lia. }
    rewrite drop_0 in Hroom'.
    assert (forall q, q <> pn -> pt2s s' !! q = pt2s s !! q) as Hpt'.
    { intros q Hq. rewrite Hpt by done. simpl. by rewrite lookup_insert_ne. }
    assert (forall b i', (b, i') <> (new, i) -> ptr s' b i' = ptr s b i') as Hptr'.
    { intros b i' Hb. unfold ptr. rewrite Hsp; simpl. destruct (decide (b = new)) as [->|].
      - rewrite lookup_insert_eq, Hspn. simpl. rewrite list_lookup_insert_ne; [done|]. congruence.
      - by rewrite lookup_insert_ne. }
    assert (forall q j, q <> pn -> tpage s' q j = tpage s q j) as Htp'.
    { intros q j Hq. rewrite Htq by done. by eapply tpage_add_table. }
    exists s', (<[pn := sizeof_pagetable2]> L), F', pn. split_and!.
    + unfold copy_table. unfold bind at 1. rewrite (pt_ptr_eq _ _ _ _ Hpo).
      rewrite (proj2 (Z.eqb_neq po 0)) by done. cbn [negb].
      unfold bind at 1. rewrite He. unfold bind in He' |- *.
      destruct (set_pt_ptr new i pn _) as [[[]| | |] s3]; try done. rewrite He'. exact Hloop.
    + done.
    + eapply room_le; [exact Hroom'|lia].
    + eapply extends_trans; [|exact Hext]. by eapply extends_add_table.
    + by rewrite Hsp.
    + intros p t Ht. rewrite Hpt' by congruence. done.
    + rewrite Hpt' by done. done.
    + intros j Hj. rewrite !page_tpage, Hpo. unfold ptr. rewrite Hsp; simpl.
      rewrite lookup_insert_eq; simpl. rewrite list_lookup_insert_eq by done. simpl.
      rewrite Htn by done. rewrite decide_False by lia. by eapply tpage_add_table.
    + intros b i' j Hb. rewrite !page_tpage, Hptr' by done.
      destruct (ptr s b i') as [q|] eqn:Eq; [|done]. simpl. apply Htp'. intros ->.
      by apply Hpn0, (ptr_none s L F b i' pn Hok Eq).
  - assert (po = 0) as -> by (by eapply ptr_none).
    exists s, L, F, 0. split_and!; try done.
    + unfold copy_table, bind. by rewrite (pt_ptr_eq _ _ _ _ Hpo).
    + by rewrite Z.sub_0_r.
    + assert (set_ptr i 0 spn = spn) as ->; [|by rewrite insert_id].
      destruct spn; unfold set_ptr; simpl in *. by rewrite list_insert_id.
    + intros j _. rewrite !page_tpage, Hpo. unfold ptr. rewrite Hspn; simpl. by rewrite Hi.
Qed.

Lemma page_bounds s L F a i j : vm_ok s L F -> is_Some (page s a i j) -> (i < 512 /\ j < 1024)%nat.
Proof.
  intros Hok [b Hb]. rewrite page_tpage in Hb. apply bind_Some in Hb as (p & Hp & Hb).
  apply bind_Some in Hp as (sp & Hsp & Hi). apply bind_Some in Hb as (t & Ht & (e & He & _)%bind_Some).
  destruct (vo_space _ _ _ Hok _ _ Hsp) as (_ & ? & _). destruct (vo_table _ _ _ Hok _ _ Ht) as [_ ?].
  apply lookup_lt_Some in Hi, He. lia.
Qed.

(** The outer loop of [as_copy], from slot [i0] on. *)
Lemma copy_tables old new spo : forall m i0 s L F N spn, (i0 + m = 512)%nat -> vm_ok s L F ->
  old <> new -> spaces s !! old = Some spo -> spaces s !! new = Some spn ->
  (forall i, (i0 <= i < 512)%nat -> pagetable spn !! i = Some 0) ->
  cost_of s old (seq i0 m) <= N -> room s N ->
  exists s' L' F' spn', for_find (seq i0 m) (copy_table old new) s = (Ret None, s') /\
    vm_ok s' L' F' /\ extends s s' /\
    spaces s' = <[new := spn']> (spaces s) /\ as_vbase1 spn' = as_vbase1 spn /\
    as_vbase2 spn' = as_vbase2 spn /\
    (forall i j, (i0 <= i < 512)%nat -> (j < 1024)%nat -> page s' new i j = page s old i j) /\
    (forall b i j, b <> new \/ (i < i0)%nat -> page s' b i j = page s b i j).
Proof.
  induction m as [|m IH]; intros i0 s L F N spn Hm Hok Hne Hspo Hspn Hz Hcost Hroom.
  - exists s, L, F, spn. split_and!; try done; [by rewrite insert_id|lia].
  - change (seq i0 (S m)) with (i0 :: seq (S i0) m) in *. cbn [cost_of foldr] in Hcost.
    fold (cost_of s old (seq (S i0) m)) in Hcost.
    pose proof (cost_of_nonneg s old (seq (S i0) m)).
    destruct (vo_space _ _ _ Hok _ _ Hspo) as (_ & Hlo & _).
    destruct (copy_table_spec s L F N old new spn i0 Hok Hne)
      as (s1 & L1 & F1 & q & He & Hok1 & Hroom1 & Hext1 & Hsp1 & Hpt1 & H01 & Hnew1 & Hoth1);
      [|done|apply Hz; lia|lia|done|].
    { unfold ptr. rewrite Hspo; simpl. apply lookup_lt_is_Some_2. lia. }
    assert (spaces s1 !! old = Some spo) as Hspo1 by (by rewrite Hsp1, lookup_insert_ne).
    assert (cost_of s1 old (seq (S i0) m) = cost_of s old (seq (S i0) m)) as Hc1.
    { apply cost_of_same; [|done|].
      - unfold ptr. by rewrite Hspo1, Hspo.
      - intros i p Hp Hn. by rewrite (ptr_none _ _ _ _ _ _ Hok Hp Hn). }
    destruct (IH (S i0) s1 L1 F1 (N - table_cost s old i0) (set_ptr i0 q spn))
      as (s' & L' & F' & spn' & Hloop & Hok' & Hext' & Hsp' & Hv1 & Hv2 & Hnew' & Hoth');
      [lia|done|done|done|by rewrite Hsp1, lookup_insert_eq| |lia|done|].
    { intros i Hi. simpl. rewrite list_lookup_insert_ne by lia. apply Hz. lia. }
    exists s', L', F', spn'. split_and!; try done.
    + simpl. unfold bind. by rewrite He.
    + by eapply extends_trans.
    + by rewrite Hsp', Hsp1, insert_insert_eq.
    + intros i j Hi Hj. destruct (decide (i = i0)) as [->|].
      * rewrite Hoth' by (right; lia). by apply Hnew1.
      * rewrite Hnew' by lia. apply Hoth1. congruence.
    + intros b i j Hb. rewrite Hoth' by (destruct Hb; [by left|right; lia]).
      apply Hoth1. destruct Hb as [?|Hlt]; [congruence|]. intros [= _ ?]. lia.
Qed.

(** A new, empty address space. *)
Definition add_space (k : kheap vmstate) (a : Z) (sp : addrspace) (s : mstate) : mstate :=
  mk_m k (<[a := sp]> (spaces s)) (pt2s s) (frames s) (tlb s) (t_vmspace s).

Lemma vm_ok_add_space s k L F a v1 v2 : vm_ok s L F -> L !! a = None ->
  kheap_rep k (<[a := sizeof_addrspace]> L) F ->
  vm_ok (add_space k a (mk_addrspace v1 v2 0 (replicate 512 0)) s) (<[a := sizeof_addrspace]> L) F.
Proof.
  intros Hok HL Hrep.
  assert (forall b sb i p, (<[a := mk_addrspace v1 v2 0 (replicate 512 0)]> (spaces s)) !! b = Some sb ->
    pagetable sb !! i = Some p -> p <> 0 -> spaces s !! b = Some sb) as Hinv.
  { intros b sb i p [[<- <-]|[? ?]]%lookup_insert_Some Hp Hp0; [|done].
    by apply lookup_replicate_1 in Hp as [-> _]. }
  split; simpl.
  - done.
  - intros b sb [[<- <-]|[? Hb]]%lookup_insert_Some; [by rewrite lookup_insert_eq|].
    rewrite lookup_insert_ne by done. by apply (vo_space _ _ _ Hok).
  - intros p t Ht. destruct (vo_table _ _ _ Hok _ _ Ht). by rewrite lookup_insert_ne by congruence.
  - intros b sb i p Hb Hp Hp0. eapply vo_ptr; [done|by eapply Hinv|done|done].
  - intros b sb i b' sb' i' p Hb Hp Hb' Hp' Hp0.
    eapply (vo_ptr_inj _ _ _ Hok b sb i b' sb' i' p); try done; by eapply Hinv.
  - by apply (vo_frame _ _ _ Hok).
  - by apply (vo_frame_inj _ _ _ Hok).
Qed.

Lemma page_add_space s k L F a v1 v2 b i j : vm_ok s L F -> L !! a = None ->
  page (add_space k a (mk_addrspace v1 v2 0 (replicate 512 0)) s) b i j = page s b i j.
Proof.
  intros Hok HL. destruct (fresh_table _ _ _ _ Hok HL) as [_ Ha].
  rewrite !page_tpage. unfold ptr; simpl. rewrite lookup_insert. case_decide as He; [|done].
  rewrite <- He, Ha. simpl. destruct (replicate 512 0 !! i) as [p|] eqn:Ep; [|done].
  apply lookup_replicate_1 in Ep as [-> _]. simpl. unfold tpage; simpl.
  destruct (table_nonnull _ _ _ Hok) as [-> _]. done.
Qed.

Lemma as_create_eq s L F N : vm_ok s L F -> 1 <= N -> room s N ->
  exists a k', as_create s = (Ret a, add_space k' a (mk_addrspace 0 0 0 (replicate 512 0)) s) /\
    a <> 0 /\ L !! a = None /\ kheap_rep k' (<[a := sizeof_addrspace]> L) F /\
    has_run (pg k') (N - 1) /\ cpu_of k' = cpu_of (kh s).
Proof.
  intros Hok HN Hroom.
  destruct (m_kmalloc_run s L F N sizeof_addrspace (vo_heap _ _ _ Hok) ltac:(done) HN Hroom)
    as (a & k' & Ha & Hne & HL & Hrep & Hroom' & Hc).
  exists a, k'. split_and!; try done.
  unfold as_create, bind. rewrite Ha. by rewrite (proj2 (Z.eqb_neq _ _)) by done.
Qed.


(** ** Destroying an address space

    While [as_destroy] runs, the page tables being taken down hold pointers to
    frames already freed.  The lemmas below keep the invariant for the state in
    which those entries are cleared: [tg] and [spg] are the cleared forms of the
    table [p] and of the address space [a]. *)

Lemma m_free_eq s L F f : kheap_rep (kh s) L F -> F !! (f + MIPS_KSEG0) = Some 1 ->
  exists k', m_free_kpages (PADDR_TO_KVADDR f) s = (Ret tt, with_kh k' s) /\
    kheap_rep k' L (delete (f + MIPS_KSEG0) F) /\ cpu_of k' = cpu_of (kh s).
Proof.
  intros Hrep HF. destruct (rep_pages _ _ _ Hrep) as (G & Hp & HFG). pose proof (HFG _ _ HF) as HG.
  destruct (pages_range (pg (kh s)) G _ _ Hp HG) as (? & _ & _ & ?).
  unfold MIPS_KSEG1, MIPS_KSEG0 in *. rewrite KVADDR_small by lia. unfold MIPS_KSEG0.
  pose proof (page_free_spec (pg (kh s)) G _ _ Hp HG) as Hfree.
  apply runs_elim in Hfree as [([] & m' & He & Hp' & Hc)|(? & ? & _ & [])].
  exists (with_pg m' (kh s)). split_and!; [|apply (rep_foreign_del _ _ _ _ 1); [done|done|]|done].
  - unfold m_free_kpages, on_kh, on_pg, zoom. simpl in He. by rewrite He.
  - intros G' HG' Ha. pose proof (page_free_spec (pg (kh s)) G' _ _ HG' Ha) as Hfree.
    unfold runs in Hfree. rewrite He in Hfree. by destruct Hfree.
Qed.

Lemma m_kfree_eq s L F p sz : kheap_rep (kh s) L F -> L !! p = Some sz ->
  exists k', m_kfree p s = (Ret tt, with_kh k' s) /\ kheap_rep k' (delete p L) F /\
    cpu_of k' = cpu_of (kh s).
Proof.
  intros Hrep HL. destruct (held_range _ _ _ _ _ Hrep HL) as (? & _). unfold MIPS_KSEG0 in *.
  pose proof (kfree_rep _ _ _ _ _ Hrep HL ltac:(lia)) as Hfree.
  apply runs_elim in Hfree as [([] & k' & He & Hp' & Hc)|(? & ? & _ & [])].
  exists k'. split_and!; try done. unfold m_kfree, on_kh, zoom. by rewrite He.
Qed.

Definition unmap (k : kheap vmstate) (p : Z) (t : list pageentry) (j : nat) (s : mstate) : mstate :=
  mk_m k (spaces s) (<[p := <[j := zero_entry]> t]> (pt2s s)) (frames s) (tlb s) (t_vmspace s).

Lemma vm_ok_unmap s k L F p t j e : vm_ok s L F -> pt2s s !! p = Some t -> t !! j = Some e ->
  valid e <> 0 -> kheap_rep k L (delete (pe_phyaddr e + MIPS_KSEG0) F) ->
  vm_ok (unmap k p t j s) L (delete (pe_phyaddr e + MIPS_KSEG0) F).
Proof.
  intros Hok Hp He Hv Hrep.
  assert (forall p' t' j' e', (<[p := <[j := zero_entry]> t]> (pt2s s)) !! p' = Some t' ->
    t' !! j' = Some e' -> valid e' <> 0 ->
    (p', j') <> (p, j) /\ exists t0, pt2s s !! p' = Some t0 /\ t0 !! j' = Some e') as Hinv.
  { intros p' t' j' e' Hp' He' Hv'.
    destruct (insert_entry_inv _ _ _ _ _ _ _ _ _ Hp Hp' He') as [(_ & _ & ->)|?]; [by destruct Hv'|done]. }
  split; simpl.
  - done.
  - by apply (vo_space _ _ _ Hok).
  - intros p' t' [[<- <-]|[? ?]]%lookup_insert_Some; [|by apply (vo_table _ _ _ Hok)].
    rewrite length_insert. by apply (vo_table _ _ _ Hok).
  - intros a sp i p' Ha Hi Hp0. rewrite lookup_insert. case_decide; [by eexists|]. by eapply vo_ptr.
  - by apply (vo_ptr_inj _ _ _ Hok).
  - intros p' t' j' e' Hp' He' Hv'. destruct (Hinv _ _ _ _ Hp' He' Hv') as (Hne & t0 & Ht0 & He0).
    destruct (vo_frame _ _ _ Hok _ _ _ _ Ht0 He0 Hv') as (? & ? & ?). split_and!; try done.
    rewrite lookup_delete_ne; [done|]. intros Heq. apply Hne.
    destruct (vo_frame_inj _ _ _ Hok _ _ _ _ _ _ _ _ Hp He Hv Ht0 He0 Hv' ltac:(lia)). congruence.
  - intros p1 t1 j1 e1 p2 t2 j2 e2 Hp1 He1 Hv1 Hp2 He2 Hv2 Heq.
    destruct (Hinv _ _ _ _ Hp1 He1 Hv1) as (_ & t3 & Ht3 & He3).
    destruct (Hinv _ _ _ _ Hp2 He2 Hv2) as (_ & t4 & Ht4 & He4).
    exact (vo_frame_inj _ _ _ Hok _ _ _ _ _ _ _ _ Ht3 He3 Hv1 Ht4 He4 Hv2 Heq).
Qed.

Definition drop_table (k : kheap vmstate) (a : Z) (sp : addrspace) (i : nat) (p : Z) (s : mstate) : mstate :=
  mk_m k (<[a := set_ptr i 0 sp]> (spaces s)) (delete p (pt2s s)) (frames s) (tlb s) (t_vmspace s).

Lemma vm_ok_drop_table s k L F a sp i p : vm_ok s L F -> spaces s !! a = Some sp ->
  pagetable sp !! i = Some p -> p <> 0 -> L !! p = Some sizeof_pagetable2 ->
  kheap_rep k (delete p L) F -> vm_ok (drop_table k a sp i p s) (delete p L) F.
Proof.
  intros Hok Hsp Hi Hp0 HLp Hrep.
  assert (forall b sb i' p', (<[a := set_ptr i 0 sp]> (spaces s)) !! b = Some sb ->
    pagetable sb !! i' = Some p' -> p' <> 0 ->
    (b, i') <> (a, i) /\ exists sb0, spaces s !! b = Some sb0 /\ pagetable sb0 !! i' = Some p') as Hinv.
  { intros b sb i' p' [[<- <-]|[? ?]]%lookup_insert_Some Hp' Hp0'.
    - apply set_ptr_lookup in Hp' as [[_ ->]|[? ?]]; [done|]. split; [congruence|by exists sp].
    - split; [congruence|by exists sb]. }
  split; simpl.
  - done.
  - assert (forall b sb, spaces s !! b = Some sb -> b <> p) as Hbp.
    { intros b sb Hb ->. destruct (vo_space _ _ _ Hok _ _ Hb) as (Hs & _). by rewrite HLp in Hs. }
    intros b sb [[<- <-]|[? Hb]]%lookup_insert_Some.
    + destruct (vo_space _ _ _ Hok _ _ Hsp) as (? & ? & ?). simpl. rewrite length_insert.
      rewrite lookup_delete_ne; [done|]. symmetry. by eapply Hbp.
    + rewrite lookup_delete_ne; [by apply (vo_space _ _ _ Hok)|]. symmetry. by eapply Hbp.
  - intros p' t' [? Ht']%lookup_delete_Some. rewrite lookup_delete_ne by done. by apply (vo_table _ _ _ Hok).
  - intros b sb i' p' Hb Hp' Hp0'. destruct (Hinv _ _ _ _ Hb Hp' Hp0') as (Hne & sb0 & Hb0 & Hp'').
    rewrite lookup_delete_ne; [by eapply vo_ptr|]. intros <-.
    destruct (vo_ptr_inj _ _ _ Hok _ _ _ _ _ _ _ Hsp Hi Hb0 Hp'' Hp0'). congruence.
  - intros b sb i1 b' sb' i2 p' Hb Hp Hb' Hp' Hp0'.
    destruct (Hinv _ _ _ _ Hb Hp Hp0') as (_ & x & Hx & Hxp).
    destruct (Hinv _ _ _ _ Hb' Hp' Hp0') as (_ & y & Hy & Hyp).
    exact (vo_ptr_inj _ _ _ Hok _ _ _ _ _ _ _ Hx Hxp Hy Hyp Hp0').
  - intros p' t' j e [_ Ht']%lookup_delete_Some. by eapply vo_frame.
  - intros p' t' j e p'' t'' j' e' [_ Ht']%lookup_delete_Some He Hv [_ Ht'']%lookup_delete_Some.
    by eapply vo_frame_inj.
Qed.

Lemma vm_ok_drop_space s k L F a sp : vm_ok s L F -> spaces s !! a = Some sp ->
  kheap_rep k (delete a L) F ->
  vm_ok (mk_m k (delete a (spaces s)) (pt2s s) (frames s) (tlb s) (t_vmspace s)) (delete a L) F.
Proof.
  intros Hok Hsp Hrep. destruct (vo_space _ _ _ Hok _ _ Hsp) as (HLa & _). split; simpl.
  - done.
  - intros b sb [? Hb]%lookup_delete_Some. rewrite lookup_delete_ne by done. by apply (vo_space _ _ _ Hok).
  - intros p t Ht. destruct (vo_table _ _ _ Hok _ _ Ht).
    rewrite lookup_delete_ne; [done|]. intros ->. rewrite HLa in *. done.
  - intros b sb i p [_ Hb]%lookup_delete_Some. by eapply vo_ptr.
  - intros b sb i b' sb' i' p [_ Hb]%lookup_delete_Some Hp [_ Hb']%lookup_delete_Some.
    by eapply vo_ptr_inj.
  - by apply (vo_frame _ _ _ Hok).
  - by apply (vo_frame_inj _ _ _ Hok).
Qed.

Definition cleared (a : Z) (spg : addrspace) (p : Z) (tg : list pageentry) (s : mstate) : mstate :=
  mk_m (kh s) (<[a := spg]> (spaces s)) (<[p := tg]> (pt2s s)) (frames s) (tlb s) (t_vmspace s).

(** Kernel address [f] is the frame of a valid entry of [t] from slot [j0] on. *)
Definition owned (t : list pageentry) (j0 : nat) (f : Z) : Prop :=
  exists j e, (j0 <= j)%nat /\ t !! j = Some e /\ valid e <> 0 /\ f = pe_phyaddr e + MIPS_KSEG0.

Lemma owned_step t j0 e f : t !! j0 = Some e ->
  owned t j0 f <-> (valid e <> 0 /\ f = pe_phyaddr e + MIPS_KSEG0) \/ owned t (S j0) f.
Proof.
  intros He. split.
  - intros (j & e' & Hj & He' & Hv & ->). destruct (decide (j = j0)) as [->|].
    + left. split; congruence.
    + right. exists j, e'. split_and!; try done. lia.
  - intros [[Hv ->]|(j & e' & Hj & ? & ? & ?)]; [by exists j0, e|].
    exists j, e'. split_and!; try done. lia.
Qed.

Lemma free_loop a spg p t : forall m j0 s L F tg, (j0 + m = 1024)%nat -> length t = 1024%nat ->
  pt2s s !! p = Some t -> vm_ok (cleared a spg p tg s) L F ->
  (forall j, (j0 <= j)%nat -> tg !! j = t !! j) ->
  exists k' tg' F', for_each (seq j0 m) (free_pte p) s = (Ret tt, with_kh k' s) /\
    vm_ok (cleared a spg p tg' (with_kh k' s)) L F' /\ cpu_of k' = cpu_of (kh s) /\
    forall f n, F' !! f = Some n <-> F !! f = Some n /\ ~ owned t j0 f.
Proof.
  induction m as [|m IH]; intros j0 s L F tg Hm Hlt Hp Hok Htg.
  - exists (kh s), tg, F. split_and!; [by destruct s|done|done|].
    intros f n. split; [|by intros [? _]]. intros Hf. split; [done|].
    intros (j & e & Hj & He & _). apply lookup_lt_Some in He. lia.
  - destruct (lookup_lt_is_Some_2 t j0) as [e He]; [lia|].
    change (seq j0 (S m)) with (j0 :: seq (S j0) m). simpl for_each. unfold bind.
    unfold free_pte at 1, bind. rewrite (entry_at_eq _ _ _ _ _ Hp He).
    destruct (Z.eqb_spec (valid e) 0) as [Hv|Hv]; cbn [negb].
    + destruct (IH (S j0) s L F tg) as (k' & tg' & F' & Hloop & Hok' & Hc & HF'); [lia|done..| |].
      { intros j Hj. apply Htg. lia. }
      exists k', tg', F'. split_and!; try done. intros f n. rewrite HF', (owned_step _ _ _ _ He).
      split; intros [? Hno]; (split; [done|]).
      * by intros [[? _]|?].
      * intros ?. apply Hno. by right.
    + assert (tg !! j0 = Some e) as Hej by (by rewrite Htg).
      assert (pt2s (cleared a spg p tg s) !! p = Some tg) as Hpg by apply lookup_insert_eq.
      destruct (vo_frame _ _ _ Hok _ _ _ _ Hpg Hej Hv) as (_ & HFe & _).
      destruct (m_free_eq s L F (pe_phyaddr e)) as (k1 & Hfree & Hrep & Hc1);
        [exact (vo_heap _ _ _ Hok)|done|]. rewrite Hfree.
      pose proof (vm_ok_unmap _ k1 L F p tg j0 e Hok Hpg Hej Hv Hrep) as Hok1.
      unfold unmap in Hok1. cbn [cleared spaces pt2s frames tlb t_vmspace] in Hok1.
      rewrite insert_insert_eq in Hok1.
      destruct (IH (S j0) (with_kh k1 s) L (delete (pe_phyaddr e + MIPS_KSEG0) F) (<[j0 := zero_entry]> tg))
        as (k' & tg' & F' & Hloop & Hok' & Hc & HF'); [lia|done|done|exact Hok1| |].
      { intros j Hj. rewrite list_lookup_insert_ne by lia. apply Htg. lia. }
      exists k', tg', F'. split_and!; [done|exact Hok'|simpl in *; congruence|].
      intros f n. rewrite HF', (owned_step _ _ _ _ He), lookup_delete_Some. split.
      * intros [[? ?] Hno]. split; [done|]. intros [[_ Heq]|?]; [congruence|done].
      * intros [? Hno]. split_and!; [|done|]; [intros Heq; apply Hno; by left|intros ?; apply Hno; by right].
Qed.

(** The loop of [freepagetable] from slot [i0] on, for the address space [a]. *)
Lemma free_tables a sp : forall ps i0 s L F spg, drop i0 (pagetable sp) = ps ->
  spaces s !! a = Some sp ->
  vm_ok (mk_m (kh s) (<[a := spg]> (spaces s)) (pt2s s) (frames s) (tlb s) (t_vmspace s)) L F ->
  (forall i, (i0 <= i)%nat -> pagetable spg !! i = pagetable sp !! i) ->
  exists k' pts' L' F' spg', for_each ps free_table s =
      (Ret tt, mk_m k' (spaces s) pts' (frames s) (tlb s) (t_vmspace s)) /\
    vm_ok (mk_m k' (<[a := spg']> (spaces s)) pts' (frames s) (tlb s) (t_vmspace s)) L' F' /\
    cpu_of k' = cpu_of (kh s) /\
    (forall q, q ∉ ps \/ q = 0 -> pts' !! q = pt2s s !! q) /\ L' !! a = L !! a /\
    (forall f n, F' !! f = Some n <-> F !! f = Some n /\
       ~ exists p t, p ∈ ps /\ pt2s s !! p = Some t /\ owned t 0 f).
Proof.
  induction ps as [|p ps IH]; intros i0 s L F spg Hps Hsp Hok Hsame.
  - exists (kh s), (pt2s s), L, F, spg. split_and!; try done; [by destruct s|].
    intros f n. split; [|by intros [? _]]. intros ?. split; [done|]. intros (p & t & Hp & _). set_solver.
  - assert (pagetable sp !! i0 = Some p) as Hpi.
    { rewrite <- (Nat.add_0_r i0), <- lookup_drop, Hps. done. }
    assert (drop (S i0) (pagetable sp) = ps) as Hps'.
    { rewrite (drop_S _ _ _ Hpi) in Hps. congruence. }
    cbn [for_each]. unfold bind at 1, free_table at 1. set (g := mk_m _ _ _ _ _ _) in Hok.
    destruct (table_nonnull _ _ _ Hok) as [H0 _]. change (pt2s s !! 0 = None) in H0.
    destruct (Z.eqb_spec p 0) as [->|Hp0]; cbn [negb].
    + unfold ret at 1.
      destruct (IH (S i0) s L F spg Hps' Hsp Hok) as (k' & pts' & L' & F' & spg' & He & Hok' & Hc & Hq & HLa & HF').
      { intros i Hi. apply Hsame. lia. }
      exists k', pts', L', F', spg'. split_and!; try done.
      * intros q Hqq. apply Hq. destruct Hqq as [[? ?]%not_elem_of_cons|?]; [by left|by right].
      * intros f n. rewrite HF'. split; intros [? Hno]; (split; [done|]); intros (p & t & Hp & Ht & Ho).
        -- apply elem_of_cons in Hp as [->|Hp]; [congruence|]. apply Hno. by exists p, t.
        -- apply Hno. exists p, t. split; [by apply list_elem_of_further|done].
    + assert (spaces g !! a = Some spg) as Hspg by apply lookup_insert_eq.
      assert (pagetable spg !! i0 = Some p) as Hpg by (by rewrite Hsame).
      destruct (vo_ptr _ _ _ Hok _ _ _ _ Hspg Hpg Hp0) as [t Ht]. change (pt2s s !! p = Some t) in Ht.
      destruct (vo_table _ _ _ Hok p t Ht) as [HLp Hlt].
      destruct (free_loop a spg p t 1024 0 s L F t) as (k1 & tg & F1 & Hloop & Hok1 & Hc1 & HF1);
        [done|done|done| |done|].
      { unfold cleared. by rewrite (insert_id (pt2s s)). }
      unfold bind at 1. rewrite Hloop.
      destruct (m_kfree_eq (with_kh k1 s) L F1 p sizeof_pagetable2) as (k2 & Hkf & Hrep2 & Hc2);
        [exact (vo_heap _ _ _ Hok1)|done|].
      unfold bind at 1. rewrite Hkf. unfold modify.
      set (s2 := with_pt2s _ _).
      pose proof (vm_ok_drop_table _ k2 L F1 a spg i0 p Hok1 (lookup_insert_eq _ _ _) Hpg Hp0 HLp Hrep2) as Hok2.
      unfold drop_table in Hok2. cbn [cleared spaces pt2s frames tlb t_vmspace with_kh] in Hok2.
      rewrite insert_insert_eq, delete_insert_eq in Hok2.
      destruct (IH (S i0) s2 (delete p L) F1 (set_ptr i0 0 spg) Hps' Hsp Hok2)
        as (k' & pts' & L' & F' & spg' & He & Hok' & Hc & Hq & HLa & HF').
      { intros i Hi. simpl. rewrite list_lookup_insert_ne by lia. apply Hsame. lia. }
      assert (L !! a = Some sizeof_addrspace) as HLsp by (by destruct (vo_space _ _ _ Hok _ _ Hspg)).
      exists k', pts', L', F', spg'. split_and!.
      * exact He.
      * exact Hok'.
      * rewrite Hc. simpl in *. congruence.
      * intros q Hqq. assert (p <> q /\ (q ∉ ps \/ q = 0)) as [Hqp Hqq'].
        { destruct Hqq as [[? ?]%not_elem_of_cons| ->]; [by split; [|left]|by split; [|right]]. }
        rewrite Hq by done. by apply lookup_delete_ne.
      * rewrite HLa. apply lookup_delete_ne. intros ->. by rewrite HLp in HLsp.
      * intros f n. rewrite HF', HF1. split.
        -- intros [[? Hno] Hno']. split; [done|]. intros (q & tq & Hin & Htq & Ho).
           destruct (decide (q = p)) as [->|]; [congruence|].
           apply Hno'. exists q, tq. apply elem_of_cons in Hin as [?|?]; [done|]. split_and!; [done| |done]. simpl. by rewrite lookup_delete_ne.
        -- intros [? Hno]. split_and!; [done| |].
           ++ intros Ho. apply Hno. exists p, t. split; [apply list_elem_of_here|done].
           ++ intros (q & tq & Hin & Htq & Ho). change (delete p (pt2s s) !! q = Some tq) in Htq.
              apply lookup_delete_Some in Htq as [_ Htq].
              apply Hno. exists q, tq. split; [by apply list_elem_of_further|done].
Qed.


(** [as_activate] empties the TLB: whichever address space is current
    afterwards, no stale translation is left, and the interrupt level is restored. *)
Theorem as_activate_flushes s : length (tlb s) = NUM_TLB -> spl_ok (cpu_of s) ->
  exists s', as_activate s = (Ret tt, s') /\ tlb_ok s' /\ cpu_of s' = cpu_of s /\
    (forall k ehi elo, tlb s' !! k = Some (ehi, elo) -> tlb_valid elo = false) /\
    spaces s' = spaces s /\ pt2s s' = pt2s s /\ frames s' = frames s.
Proof.
  intros Hlen Hspl.
  assert (runs as_activate s (fun _ s' => s' = with_cpu (cpu_of s) (with_tlb (tlb s') s) /\
    length (tlb s') = NUM_TLB /\
    forall k ehi elo, tlb s' !! k = Some (ehi, elo) -> tlb_valid elo = false) (fun _ _ => False)) as Hrun.
  { unfold as_activate. apply runs_bind. eapply runs_intro_ret; [apply splhigh_eq|].
    apply runs_bind. set (s0 := with_cpu _ s).
    apply (runs_for_each (fun pre _ s' => exists t, s' = with_tlb t s0 /\ length t = NUM_TLB /\
      forall k ehi elo, (k < length pre)%nat -> t !! k = Some (ehi, elo) -> tlb_valid elo = false)).
    - exists (tlb s). split_and!; [done|done|]. intros k ehi elo Hk. simpl in Hk. lia.
    - intros pre x post s' Hseq (t & -> & Ht & Hinv). unfold TLB_Write. apply runs_modify.
      assert (x = length pre) as ->.
      { assert (seq 0 NUM_TLB !! length pre = Some x) as Hx by (rewrite Hseq; by apply list_lookup_middle).
        apply lookup_seq in Hx. lia. }
      eexists. split; [reflexivity|]. cbn [with_tlb tlb]. rewrite length_insert, length_app. split; [done|].
      intros k ehi elo Hk [(-> & [= <- <-] & _)|[? ?]]%list_lookup_insert_Some; [done|].
      eapply Hinv; [|done]. simpl in Hk. lia.
    - intros s' (t & -> & Ht & Hinv). apply runs_bind.
      eapply runs_intro_ret; [apply splx_eq; apply Hspl|]. apply runs_ret. split_and!; [|done|].
      + simpl. by rewrite spl_ok_eta.
      + intros k ehi elo Hk. apply (Hinv k ehi elo); [|done]. apply lookup_lt_Some in Hk.
        simpl in Hk. rewrite length_seq. lia. }
  apply runs_elim in Hrun as [([] & s' & He & Hs' & Hl' & Hinv)|(? & ? & _ & [])].
  exists s'. split_and!; try done; try (by rewrite Hs').
  split_and!; [done| |].
  - intros k ehi elo Hk Hv. by rewrite (Hinv _ _ _ Hk) in Hv.
  - intros k k' ehi elo elo' Hk Hv. by rewrite (Hinv _ _ _ Hk) in Hv.
Qed.

End memory.

(** ** Instances *)

(** A machine with [n] free frames at the start, its first address space, and that
    address space after a fault on page 0x400000. *)
Definition machine (n : Z) : vmstate :=
  (vm_bootstrap (mk_vm 0x20000 (0x20000 + 4096 * (n + 1)) 0 0 0 0 [] (mk_cpu 0 true) 1)).2.
Definition first_space : Z := 0x80021000.
Definition user_boot (n : Z) : mstate :=
  mk_m (kheap_boot (machine n)) ∅ ∅ ∅
    ((fun i => (TLBHI_INVALID (Z.of_nat i), TLBLO_INVALID)) <$> seq 0 NUM_TLB) first_space.
Definition user_start (n : Z) : mstate := (as_create (user_boot n)).2.
Definition user_run (n : Z) : mstate := (vm_fault VM_FAULT_READ 0x400000 (user_start n)).2.

Lemma has_run_check m k n :
  length (take n (drop k (entries m))) = n /\
  forallb (fun e => taken e =? 0) (take n (drop k (entries m))) = true -> has_run m (Z.of_nat n).
Proof.
  intros [Hlen Hall]. exists (Z.of_nat k). split; [lia|]. intros j Hj.
  destruct (lookup_lt_is_Some_2 (take n (drop k (entries m))) (Z.to_nat j - k)) as [e He]; [lia|].
  exists e. rewrite forallb_forall in Hall. split.
  - rewrite lookup_take_lt, lookup_drop in He by lia.
    by replace (k + (Z.to_nat j - k))%nat with (Z.to_nat j) in He by lia.
  - specialize (Hall e). rewrite Z.eqb_eq in Hall. apply Hall.
    apply list_elem_of_In. by eapply list_elem_of_lookup_2.
Qed.

Lemma user_boot_ok n : 1 <= n <= 100 -> vm_ok (user_boot n) ∅ ∅.
Proof.
  intros Hn. split; simpl; try (intros *; rewrite lookup_empty; done).
  apply kheap_boot_rep. unfold machine.
  destruct (vm_bootstrap_spec (mk_vm 0x20000 (0x20000 + 4096 * (n + 1)) 0 0 0 0 [] (mk_cpu 0 true) 1)
    0x20000 (0x20000 + 4096 * (n + 1))) as (m' & He & Hok & _); try done; try lia.
  { rewrite Z.add_comm, Z.mul_comm, Z.add_mod, Z.mod_mul by lia. done. }
  rewrite He. eexists _, []. split_and!; [exact Hok| |done].
  assert ((vm_bootstrap (mk_vm 0x20000 (0x20000 + 4096 * (n + 1)) 0 0 0 0 [] (mk_cpu 0 true) 1)).2 = m') as <-
    by (by rewrite He). by split.
Qed.

Lemma user_start_ok n N : 1 <= n <= 100 -> 1 <= N -> room (user_boot n) N ->
  (as_create (user_boot n)).1 = Ret first_space ->
  exists L, vm_ok (user_start n) L ∅ /\ room (user_start n) (N - 1) /\
    spaces (user_start n) !! first_space = Some (mk_addrspace 0 0 0 (replicate 512 0)) /\
    tlb (user_start n) = tlb (user_boot n) /\ t_vmspace (user_start n) = first_space.
Proof.
  intros Hn HN Hroom Hfst. pose proof (user_boot_ok n Hn) as Hok.
  destruct (as_create_eq (user_boot n) ∅ ∅ N Hok HN Hroom) as (a & k' & He & Ha & HL & Hrep & Hrun & _).
  rewrite He in Hfst. injection Hfst as ->.
  assert (user_start n = add_space k' first_space (mk_addrspace 0 0 0 (replicate 512 0)) (user_boot n)) as ->
    by (unfold user_start; by rewrite He).
  eexists. split_and!; [by apply vm_ok_add_space|exact Hrun|apply lookup_insert_eq|done|done].
Qed.

Lemma tlb_boot_invalid n k ehi elo : tlb (user_boot n) !! k = Some (ehi, elo) -> tlb_valid elo = false.
Proof. unfold user_boot. cbn [tlb]. rewrite list_lookup_fmap. by intros (j & _ & [= -> ->])%fmap_Some. Qed.

Lemma tlb_boot_ok n s : tlb s = tlb (user_boot n) -> tlb_ok s.
Proof.
  intros Ht. unfold tlb_ok. rewrite Ht. split_and!; [done| |].
  - intros k ehi elo Hk Hv. by rewrite (tlb_boot_invalid _ _ _ _ Hk) in Hv.
  - intros k k' ehi elo elo' Hk Hv. by rewrite (tlb_boot_invalid _ _ _ _ Hk) in Hv.
Qed.

Lemma user_run_ok n N : 1 <= n <= 100 -> 6 <= N -> room (user_boot n) N ->
  (as_create (user_boot n)).1 = Ret first_space -> exists L F, vm_ok (user_run n) L F.
Proof.
  intros Hn HN Hroom0 Hfst.
  destruct (user_start_ok n N Hn ltac:(lia) Hroom0 Hfst) as (L & Hok & Hroom & Hsp & Ht & Hc).
  destruct (vm_fault_resolves (user_start n) L ∅ VM_FAULT_READ 0x400000 (mk_addrspace 0 0 0 (replicate 512 0)))
    as (s' & L' & F' & e & k & He & Hok' & _).
  - exact Hok.
  - by eapply tlb_boot_ok.
  - by rewrite Hc.
  - lia.
  - done.
  - by left.
  - eapply room_le; [exact Hroom|lia].
  - exists 0%nat. rewrite Ht. eexists _, _. split; [reflexivity|done].
  - intros k elo. rewrite Ht. apply tlb_boot_invalid.
  - exists L', F'. unfold user_run. by rewrite He.
Qed.

Lemma boot16 : room (user_boot 16) 16 /\ (as_create (user_boot 16)).1 = Ret first_space.
Proof. split; [apply (has_run_check _ 0 16)|]; by vm_compute. Qed.

Lemma boot6 : room (user_boot 6) 6 /\ (as_create (user_boot 6)).1 = Ret first_space.
Proof. split; [apply (has_run_check _ 0 6)|]; by vm_compute. Qed.


Lemma vm_fault_tlb_full_witness :
  let s := with_tlb (replicate 64 (0, 0x600)) (user_start 16) in
  exists s', vm_fault VM_FAULT_WRITE 0x400000 s = (Ret EFAULT, s') /\ tlb s' = tlb s /\
    is_Some (page s' (t_vmspace s) (index1 0x400000) (index2 0x400000)).
Proof.
  destruct boot16 as [Hb1 Hb2].
  destruct (user_start_ok 16 16 ltac:(lia) ltac:(lia) Hb1 Hb2) as (L & Hok & Hroom & Hsp & Ht & Hc). intros s.
  apply (vm_fault_tlb_full s L ∅ VM_FAULT_WRITE 0x400000 (mk_addrspace 0 0 0 (replicate 512 0))).
  - by apply vm_ok_tlb.
  - done.
  - change (spaces (user_start 16) !! t_vmspace (user_start 16) = Some (mk_addrspace 0 0 0 (replicate 512 0))).
    by rewrite Hc.
  - lia.
  - done.
  - by right.
  - apply (room_le (user_start 16) (16 - 1)); [exact Hroom|lia].
  - intros k ehi elo Hk. cbn [s tlb with_tlb] in Hk. apply lookup_replicate_1 in Hk as [[= -> ->] _]. done.
Defined.

Lemma vm_fault_out_of_memory_witness : (vm_fault VM_FAULT_READ 0x401000 (user_run 6)).1 = Panic.
Proof.
  destruct boot6 as [Hb1 Hb2].
  destruct (user_run_ok 6 6 ltac:(lia) ltac:(lia) Hb1 Hb2) as (L & F & Hok).
  assert (exists t, pt2s (user_run 6) !! 0x80022000 = Some t /\ t !! 1%nat = Some zero_entry) as (t & Ht & He)
    by (vm_compute; by eexists).
  apply (vm_fault_out_of_memory (user_run 6) L F VM_FAULT_READ 0x401000 0x80022000 t zero_entry Hok);
    [lia|reflexivity|by left|vm_compute; reflexivity|exact Ht|exact He|reflexivity|vm_compute; reflexivity].
Defined.



Lemma as_activate_flushes_witness :
  exists s', as_activate (with_tlb (replicate 64 (0, 0x600)) (user_start 16)) = (Ret tt, s') /\ tlb_ok s'.
Proof.
  destruct (as_activate_flushes (with_tlb (replicate 64 (0, 0x600)) (user_start 16)))
    as (s' & He & Ht & _).
  - reflexivity.
  - split; vm_compute; congruence.
  - exists s'. exact (conj He Ht).
Defined.
